(* ===== verification/_CoqProject ===== *)
-Q . S2P
Prelude.v
Search.v
Sort.v
Hash.v
CString.v
Types.v
Join.v
Setops.v
Reduce.v
Count.v
IsSorted.v
Elem.v
Vec.v
VecScalar.v
VecUnary.v
VecBits.v
Fill.v
Positions.v
Ranges.v
Pack.v
Transfer.v
HashTable.v
Dict.v
Csv.v
Double.v
Frequent.v
Spooky.v
Unique.v
Quantile.v
QuantileRun.v
Catalog.v
Verbs.v
CatalogLogic.v
CatalogSpec.v
CatalogVerbs.v
CatalogFields.v
CatalogAux.v
CatalogMeta.v
Store.v
FieldVerbs.v
FieldVerbsSpec.v
ScalarVerbs.v
