(* ===== verification/Prelude.v ===== *)
(** * Verification of datacl, the [q] column store

    datacl keeps tables of fixed-width columns in a directory, the docroot.
    A table is a name and a number of rows; a field is a memory-mapped file of
    one value per row; a field may have auxiliary fields, of which the nn
    field (one byte per row: is there a value) is the one in use.  The program
    q executes one verb per run: verbs look names up in the catalog, map the
    files of their operands, run a kernel (a C function on plain arrays) over
    them, often in blocks of rows, and add the resulting file to the catalog
    as a new field.  The repository also holds one-pass sampling algorithms
    (src/approxalgos).
    The library models the catalog with the verbs that change it, most kernels
    with the code that dispatches to them, five verbs from names to files, and
    three of the sampling algorithms.  This file holds what the parts share:
    machine integers, the results of C functions, array accesses and their
    lemmas.

    ** Conventions

    A C integer is a [Z]; where the width matters, wrap-around is written with
    [wrapS] and [wrapU], and the overflow of signed arithmetic is [Ub].  An
    array is a list, read by [rd] and written by [wr], for which an index
    outside the array is [Ub].  A function that returns a status yields
    [Ok], with what it stores through pointers, [Err] for -1 ([go_BYE(-1)]),
    or [Ub]; [NoFuel] is the end of the fuel of a loop that is not structural.
    The theorems about such loops state that the result is [Ok]: the fuel in
    the definitions is the length of the array (searches, insertion scan,
    partition scan), or a measure that each iteration decreases (for the
    quicksort, a bound on the number of partition steps), and is never
    reached.  In Catalog.v and the files after it a function is a state
    transformer with the outcomes [Ret], [Fail] (status -1, with the state the
    failed call leaves behind) and [Stuck].

    ** The files

    - Prelude.v: this file.
    - Search.v: binary searches of src/src/AUX/bin_search_*.c and of
      dir_utils/find_*_I4.c; membership in a small set,
      AUX/cmp_eq_mult_scalar*.c.
    - Sort.v: the non-recursive quicksort with insertion sort,
      AUX/qsort_*.c, alone and with a second array that is permuted along.
      The comparison is an instance of the class [WeakOrder].
    - Hash.v: the message digest of dir_utils/md5c.c and the hash of names
      (hash_string.c, mix.c), which decides where the search for a free record
      of the catalog starts.
    - CString.v: string routines of dir_utils/auxil.c and extract_S.c and the
      checks on names of dir_dbutils/aux_meta.c.
    - Types.v: the records and enumerations of qtypes.h with their conversions
      to and from strings; operator codes, sizes of bit vectors, the division
      of rows into blocks ([partition]) and offsets of dir_dbutils/dbauxil.c.
    - Join.v: the sort-merge join AUX/core_srt_join_*.c and its driver
      dir_wr_verbs/srt_join.c.
    - Setops.v: runs of equal values with their counts, the kernels uniq of
      AUX and dir_wr_verbs/count_vals.c; the union of sorted sets,
      AUX/union_I4.c and union_I8.c.
    - Reduce.v: min, max and sum of a field, AUX/f_to_s_*.c and nn_f_to_s_*.c,
      the ones of a bit vector, f_to_s_sum_B.c, and the blocks of
      dir_helpers/par_f_to_s.c.
    - Count.v: counts and sums by group, AUX/count*.c with the verbs count.c
      and countf.c; running sums, AUX/cum_*.c and dir_helpers/f1opf2_cum.c.
    - IsSorted.v: the test for sortedness, AUX/is_sorted_alldef_*.c.
    - Elem.v: the arithmetic of C on integers of a width and on IEEE 754
      numbers, and the element-wise kernels of AUX: on two fields, on a field
      and a scalar, on one field, and conversions.
    - Vec.v, VecScalar.v, VecUnary.v, VecBits.v: dir_helpers/vec_f1f2opf3.c,
      vec_f1s1opf2.c and vec_f1opf2.c: the choice of the kernel by type and
      operator, the blocks of rows, the flags of nulls; VecBits.v is about the
      conversions to and from bit fields.  A file is a [column] of integers or
      of floating-point numbers, with an option of a list of flags.
    - Fill.v: constants and sequences (par_s_to_f.c), f1opf2_shift.c, smear.c,
      zero_after_n.c.
    - Positions.v: the operators of dir_wr_verbs/t1f1t2f2opt3f3.c, with the
      kernels AUX/pos_*.c: selection by position, intersection, difference.
    - Ranges.v: ranges of rows and of values: cfld_to_range.c, range_to_cfld.c,
      num_in_range.c and rng_join.c of dir_wr_verbs.
    - Pack.v: dir_wr_verbs/pack.c and unpack.c.
    - Transfer.v: AUX/xfer_*.c and AUX/core_wisifxthenyelsez_*.c.
    - HashTable.v: sizes of hash tables (is_prime and prime_geq of
      dir_utils/auxil.c), open addressing, and dir_wr_verbs/count_ht.c.
    - Dict.v: dir_utils/MurmurHash3.c and the dictionaries of strings of
      dir_helpers/mk_dict.c.
    - Csv.v: dir_helpers/read_csv.c, which splits a file into cells and
      converts them.
    - Double.v: non-negative numbers in double precision, with the rounding of
      every operation.
    - Frequent.v: the frequent elements of an input,
      src/approxalgos/ApproxFrequent: packets, counters, output.
    - Quantile.v: its quantiles, src/approxalgos/ApproxQuantile: the program,
      the merge of two buffers and the invariant of the buffers;
      QuantileRun.v: the answers and the whole run.
    - Spooky.v: the hash function of src/approxalgos/ApproxUnique
      (spooky_hash.c); Unique.v: its count of distinct values,
      determine_rho_loc.c and approx_unique.c.
    - Catalog.v: the state (the arrays [g_tbls], [g_flds] and [g_ddirs] of
      meta_globals.h, the hash indexes, the working directory, the files), the
      monad, file checks, and the look-ups of dir_ro_verbs and
      dir_dbutils/dbauxil.c ([is_tbl], [is_fld], [get_empty_tbl],
      [get_empty_fld]); [init_meta_data].
    - Verbs.v: the verbs of dir_wr_verbs that change the catalog
      ([add_tbl], [del_tbl], [rename_tbl], [set_nR], [add_fld], [ext_add_fld],
      [del_fld], [rename_fld], [mk_nn_fld], [drop_nn_fld], [mv_fld],
      [set_meta]), with [add_aux_fld] and [del_aux_fld].
    - CatalogLogic.v: a weakest precondition [wp] for state transformers,
      with the tactic [wp_step]; the invariant [wf]; specifications of the
      look-ups and of the deletion of a field.
    - CatalogSpec.v: the abstract catalog, a map of tables and a map of
      fields, its operations, and the abstraction function [abs].
    - CatalogVerbs.v, CatalogFields.v, CatalogAux.v, CatalogMeta.v: the verbs
      on tables, on fields, on nn fields, and [init_meta_data], [set_meta] and
      the reading of attributes: each refines its abstract operation.
    - Store.v: [get_data], [q_mmap] for writing, mk_temp_file.c and
      open_temp_file.c, on the state of Catalog.v; and how the bytes of a
      mapped file are cells of a type (little-endian integers, IEEE 754
      numbers), which the code leaves to casts of pointers.
    - FieldVerbs.v: [f1f2opf3], [xfer] and [dup_fld] of dir_wr_verbs, whole.
      FieldVerbsSpec.v: specifications of their steps, and [f1f2opf3].
    - ScalarVerbs.v: [f1s1opf2] and [f1opf2] of dir_wr_verbs, whole, with their
      specifications.

    The kernels (Search to Csv in the order of the project file), the
    sampling algorithms (Double, Frequent, Quantile, QuantileRun, on the sort
    of Sort.v; Spooky, Unique) and the text functions (Hash, CString, Types) do
    not know the catalog; Catalog.v uses Hash, CString and Types; Verbs.v uses
    Catalog.v; Store.v, FieldVerbs.v and ScalarVerbs.v bring catalog and
    kernels together.

    ** What the theorems show

    - Sorting returns an ordered permutation, for every strict weak order and
      every array of fewer than 2^60 elements; the explicit stack never
      overflows, and no access leaves the array although the insertion sort
      runs without a bound check; the second array follows the first.
    - The searches return on every ascending array, and return a position
      exactly when the key is there: the lowest, the highest or some.
    - The join gives every destination row the sum, number, disjunction, last
      value or maximum of all source rows with the same link, whatever the
      blocks and the jumps over source rows, as long as a start from 0 does
      not show.
    - Counting lists every defined value once, in order, with the count of
      its rows, but for the first row of a count field; runs expand to the values they come from; the union of two
      sets has the elements of both, once and in order.
    - Min, max and sum do not depend on the number of cores: they are those of
      the defined values of the whole field; the ones of a bit vector are
      counted once when the blocks begin at byte boundaries.  Sums by group and
      running sums are the sums of the rows they stand for.  A sorted field is
      found to be sorted.
    - Every element that occurs often enough is listed with a frequency within
      the error asked for, in the memory computed, however the input is cut in
      packets and blocks; the merge that drops counters ends.
    - Every quantile is answered with a rank within [eps] times the number of
      elements; the buffers always have room for the next packet.  The sizes
      and ranks, computed in double precision, are as good as exact ones.
    - The count of distinct values, with bins that are updated block by block
      and joined in place, is a function of the set of values: the estimate
      from the bins of the whole set.
    - An operator on fields, run by the kernel that the dispatch picks, gives
      every row the value of a reference semantics that knows nothing of
      kernels and blocks, for every type, in a file of the type that the
      dispatch announced; converting to bits and back is the identity.
    - A filled field has its constant or sequence in every row, a smeared or
      shifted field what it should have, with the exceptions below; the
      operators on positions and sets list, count and add what they name.
    - Unpacking gives back what was packed.
    - A condition field, turned into ranges of rows and back, has the same rows;
      the values in bins are counted right by the scan of a sorted field and
      by the search of another one.
    - A transfer by index follows index and nulls up to the first index out of
      range; a choice by condition picks the operand row by row.
    - A counting hash table lists every value once with its count, but for the
      value 0 and slot 1; in a dictionary equal strings and no others have
      equal keys, and its files are searched correctly for any string.  The
      hash functions are the real ones, and every string may clash with every
      other: what is excluded is a hash of 0.
    - A csv file, cells plain or quoted, is split into exactly the cells that
      were written, and a table of integers and nulls is read back.
    - [f1f2opf3], from the names of a table and two fields: the catalog gains
      one field, the new files hold the values of the reference semantics and
      the flags, no other file or entry has changed.  So does [f1s1opf2] with one
      scalar, and [f1opf2] when its operand has no nulls; with nulls the flags
      of the result are found to replace those of the operand.
    - The digest of a message does not depend on how it is cut in updates.
    - [break_str] accepts exactly the non-empty tokens joined by colons;
      names of types survive printing and parsing; blocks cover the rows.
    - The catalog: [wf] says that names are legal and unique, that every field
      belongs to a table, and that fields and nn fields point to each other.
      Every verb modelled, from a [wf] state, does not get stuck (no access
      outside an array, no overrun of a name buffer), leaves a [wf] state
      whether it succeeds or fails, and when it succeeds changes the abstract
      catalog by its abstract operation and by nothing else.  The theorems for
      [mv_fld], [mk_nn_fld] and [ext_add_fld] are not there yet.
    - Some theorems fix behaviours that the program does not intend: the
      initial values of a join, the counts of a masked union and of the first
      row of a count field, searches beside the range of the array, the
      rename of a table that a dictionary field points to, the array size of
      a new docroot, the word width of the digest, the quantile INT_MAX, the
      sizes of packets that are read behind the last one, a count of distinct
      values of 2^31 rows, min and max of fields with nulls, the counters that
      are cleared behind the file, running sums of eight bytes in a file for
      four, the values that the test for sortedness skips, the flags of a
      shifted field with nulls, the bounds of a selection, the maximum at
      positions, nulls copied at positions, the nulls that a choice by
      condition loses, a value 0 counted in a hash table, a repeated value in
      its slot 1, a header with a quoted last cell.  Others are shown by examples next to the definitions,
      as the copy of a field whose flags overwrite its data (FieldVerbs.v).

    ** What is not modelled

    System calls are assumed to succeed on directories that exist: [open],
    [lseek] and [write] of a new file, [unlink], [mmap].  A directory is an
    absolute name, a file name is not taken apart, and the clock is an
    argument of the verbs that read it.  The hash indexes of names are read
    as the code reads them; the code never fills them, so every look-up falls
    back to a scan.  Messages on stderr, logging, timing and temporary names
    are left out.  Allocation succeeds; the sampling algorithms are modelled as
    they are compiled without Cilk and IPP, where their parallel loops are loops.
    What [mkstemp], [statvfs] and [get_disk_space] answer is the record [env]
    of Store.v.  A kernel that fails leaves a file half written; only for
    [xfer], which does not look at the status, is that modelled.
    Not modelled at all: printing and listing, the description of the fields
    of a csv file (read_meta_data.c) and the verbs around it ([dld], [binld]),
    the dispatcher q.c, the streaming interface of spooky_hash.c, and the two
    variants of MurmurHash that are not called.  [strtof] and [strtod] are
    parameters of the reading of csv files; [dump_ht] leaves out the map of the
    file it is about to write.  Modelled from the data of the
    operands to the data of the result, but not composed with the catalog:
    [pack], [unpack], [t1f1t2f2opt3f3], [srt_join],
    [count], [countf], [count_vals], [count_ht], [wisifxthenyelsez] and the verbs
    of Ranges.v, of which [rng_join] has examples and no theorem; the steps
    are those of FieldVerbsSpec.v.  The remaining verbs (copies and appends of fields and
    tables, bins, crossprod, stride, subsample) are to be added the
    same way. *)

From stdpp Require Import prelude strings gmap sorting.
From Stdlib Require Import ZArith Lia.

Declare Scope q_scope.
Delimit Scope q_scope with q.
Open Scope Z_scope.

(** ** Machine integers *)

(** Value of [z] stored in a signed (resp. unsigned) integer of [w] bits,
    two's complement. *)
Definition wrapS (w z : Z) : Z := (z + 2 ^ (w - 1)) mod 2 ^ w - 2 ^ (w - 1).
Definition wrapU (w z : Z) : Z := z mod 2 ^ w.
Definition inS (w z : Z) : Prop := - 2 ^ (w - 1) <= z < 2 ^ (w - 1).
Definition inU (w z : Z) : Prop := 0 <= z < 2 ^ w.

Definition INT_MIN : Z := - 2 ^ 31.
Definition INT_MAX : Z := 2 ^ 31 - 1.
Definition SCHAR_MIN : Z := - 2 ^ 7.
Definition SCHAR_MAX : Z := 2 ^ 7 - 1.
Definition SHRT_MIN : Z := - 2 ^ 15.
Definition SHRT_MAX : Z := 2 ^ 15 - 1.
Definition LLONG_MIN : Z := - 2 ^ 63.
Definition LLONG_MAX : Z := 2 ^ 63 - 1.

Lemma wrapS_range w z : 0 < w -> inS w (wrapS w z).
Proof.
  intros Hw. unfold inS, wrapS.
  pose proof (Z.mod_pos_bound (z + 2 ^ (w - 1)) (2 ^ w)) as H.
  assert (2 ^ w = 2 * 2 ^ (w - 1)) as E.
  { rewrite <- (Z.pow_succ_r 2 (w - 1)) by lia. f_equal; lia. }
  assert (0 < 2 ^ (w - 1)) by (apply Z.pow_pos_nonneg; lia). lia.
Qed.

Lemma wrapS_small w z : 0 < w -> inS w z -> wrapS w z = z.
Proof.
  intros Hw. unfold inS, wrapS. intros H.
  assert (2 ^ w = 2 * 2 ^ (w - 1)) as E.
  { rewrite <- (Z.pow_succ_r 2 (w - 1)) by lia. f_equal; lia. }
  rewrite Z.mod_small by lia. lia.
Qed.

Lemma wrapU_range w z : 0 <= w -> inU w (wrapU w z).
Proof. intros Hw. apply Z.mod_pos_bound, Z.pow_pos_nonneg; lia. Qed.

Lemma wrapU_small w z : inU w z -> wrapU w z = z.
Proof. apply Z.mod_small. Qed.

Lemma wrapU_wrapS w z : inS w z -> wrapS w (wrapU w z) = z.
Proof.
  unfold inS, wrapS, wrapU. intros Hz. destruct (decide (0 < w)) as [Hw|Hw].
  - assert (2 ^ w = 2 * 2 ^ (w - 1)) as E.
    { rewrite <- (Z.pow_succ_r 2 (w - 1)) by lia. f_equal; lia. }
    rewrite Zplus_mod_idemp_l, Z.mod_small by lia. lia.
  - rewrite (Z.pow_neg_r 2 (w - 1)) in Hz by lia. lia.
Qed.

(** ** Results of C functions

    [Ok a]: the function returns status 0 and has produced [a].
    [Err]: it takes [go_BYE(-1)] and returns status -1.
    [Ub]: it performs an access that C does not define (an index outside
    its array, a division by zero).
    [NoFuel]: the bound on the number of loop iterations of the model is
    used up; a theorem that a function returns proves that this does not
    happen. *)
Inductive res (A : Type) : Type :=
| Ok (a : A)
| Err
| Ub
| NoFuel.
Arguments Ok {_} _.
Arguments Err {_}.
Arguments Ub {_}.
Arguments NoFuel {_}.

#[export] Instance res_ret : MRet res := fun A => @Ok A.
#[export] Instance res_bind : MBind res := fun A B f m =>
  match m with Ok a => f a | Err => Err | Ub => Ub | NoFuel => NoFuel end.
#[export] Instance res_fmap : FMap res := fun A B f m =>
  match m with Ok a => Ok (f a) | Err => Err | Ub => Ub | NoFuel => NoFuel end.

#[export] Instance res_eq_dec {A} `{EqDecision A} : EqDecision (res A).
Proof. solve_decision. Defined.

(** [if ( c ) { go_BYE(-1); }] *)
Definition go_BYE_if (c : bool) : res unit := if c then Err else Ok tt.

Lemma res_bind_Ok {A B} (m : res A) (f : A -> res B) b :
  m ≫= f = Ok b <-> exists a, m = Ok a /\ f a = Ok b.
Proof.
  split; [|by intros (a & -> & Hf)].
  destruct m; simpl; try done. intros H. by exists a.
Qed.

(** Split a successful run of a monadic function into the runs of its parts. *)
Ltac res_inv :=
  repeat match goal with
  | H : _ ≫= _ = Ok _ |- _ =>
      apply res_bind_Ok in H; destruct H as (? & ? & ?)
  | H : go_BYE_if ?c = Ok _ |- _ => unfold go_BYE_if in H
  | H : (if ?c then Err else _) = Ok _ |- _ => destruct c eqn:?; [discriminate H|]
  | H : Ok _ = Ok _ |- _ => injection H as H
  end; subst.

(** [x + y] on signed integers of [w] bits *)
Definition add_to (w x y : Z) : res Z :=
  if decide (- 2 ^ (w - 1) <= x + y < 2 ^ (w - 1)) then Ok (x + y) else Ub.

Lemma add_to_Ok w x y : inS w (x + y) -> add_to w x y = Ok (x + y).
Proof. unfold inS, add_to. intros. by rewrite decide_True. Qed.

(** ** C arrays

    An array is a list; [rd] and [wr] are the accesses [X[i]] and
    [X[i] = v]. *)
Definition zlookup {A} (l : list A) (i : Z) : option A :=
  if decide (0 <= i) then l !! Z.to_nat i else None.
Definition zlen {A} (l : list A) : Z := Z.of_nat (length l).
Definition zset {A} (l : list A) (i : Z) (v : A) : list A := <[Z.to_nat i := v]> l.

Notation "l !z i" := (zlookup l i) (at level 20, i at level 9) : q_scope.
Open Scope q_scope.

Definition rd {A} (l : list A) (i : Z) : res A :=
  match l !z i with Some x => Ok x | None => Ub end.
Definition wr {A} (l : list A) (i : Z) (v : A) : res (list A) :=
  if decide (0 <= i < zlen l) then Ok (zset l i v) else Ub.

Section arrays.
Context {A : Type}.
Implicit Types (l : list A) (i j : Z) (x v : A).

Lemma zlookup_Some_range l i x : l !z i = Some x -> 0 <= i < zlen l.
Proof.
  unfold zlookup, zlen. case_decide; [|done]. intros H1%lookup_lt_Some. lia.
Qed.

Lemma zlookup_is_Some l i : 0 <= i < zlen l -> exists x, l !z i = Some x.
Proof.
  unfold zlookup, zlen. intros H. rewrite decide_True by lia.
  apply lookup_lt_is_Some. lia.
Qed.

Lemma zlookup_nat l (i : nat) : l !z (Z.of_nat i) = l !! i.
Proof. unfold zlookup. rewrite decide_True by lia. by rewrite Nat2Z.id. Qed.

Lemma zlookup_to_nat l i : 0 <= i -> l !z i = l !! Z.to_nat i.
Proof. intros. unfold zlookup. by rewrite decide_True. Qed.

Lemma zlookup_None l i : zlen l <= i -> l !z i = None.
Proof.
  unfold zlookup, zlen. intros H. case_decide; [|done].
  apply lookup_ge_None. lia.
Qed.

Lemma zlen_nonneg l : 0 <= zlen l.
Proof. unfold zlen. lia. Qed.

Lemma to_nat_zlen l : Z.to_nat (zlen l) = length l.
Proof. unfold zlen. apply Nat2Z.id. Qed.

Lemma zlen_app l (l' : list A) : zlen (l ++ l') = zlen l + zlen l'.
Proof. unfold zlen. rewrite length_app. lia. Qed.

Lemma zlen_cons x l : zlen (x :: l) = 1 + zlen l.
Proof. unfold zlen. simpl. lia. Qed.
Lemma zlen_snoc l x : zlen (l ++ [x]) = zlen l + 1.
Proof. by rewrite zlen_app. Qed.

(** The element at the seam of a concatenation. *)
Lemma rd_middle (l1 l2 : list A) x : rd (l1 ++ x :: l2) (zlen l1) = Ok x.
Proof.
  unfold rd, zlen. by rewrite zlookup_nat, list_lookup_middle.
Qed.

Lemma wr_middle (l1 l2 : list A) x v :
  wr (l1 ++ x :: l2) (zlen l1) v = Ok (l1 ++ v :: l2).
Proof.
  unfold wr. rewrite decide_True.
  - unfold zset, zlen. rewrite Nat2Z.id. f_equal.
    rewrite insert_app_r_alt by lia. by rewrite Nat.sub_diag.
  - unfold zlen. rewrite length_app. simpl. lia.
Qed.

Lemma zlen_zset l i v : zlen (zset l i v) = zlen l.
Proof. unfold zlen, zset. by rewrite length_insert. Qed.

Lemma zlookup_zset_eq l i v : 0 <= i < zlen l -> zset l i v !z i = Some v.
Proof.
  unfold zlen, zset. intros H. rewrite zlookup_to_nat by lia.
  apply list_lookup_insert_eq. lia.
Qed.

Lemma zlookup_zset_ne l i j v : 0 <= i -> i <> j -> zset l i v !z j = l !z j.
Proof.
  intros Hi Hne. unfold zset, zlookup. case_decide; [|done].
  apply list_lookup_insert_ne. lia.
Qed.

Lemma zlookup_zset l i j v :
  0 <= i < zlen l -> zset l i v !z j = if decide (j = i) then Some v else l !z j.
Proof.
  intros Hi. case_decide as E; [subst; by apply zlookup_zset_eq|].
  apply zlookup_zset_ne; lia.
Qed.

Lemma zset_zset l i v v' : zset (zset l i v) i v' = zset l i v'.
Proof. unfold zset. apply list_insert_insert_eq. Qed.

Lemma rd_Ok l i x : rd l i = Ok x <-> l !z i = Some x.
Proof. unfold rd. destruct (l !z i); naive_solver. Qed.

Lemma rd_total l i : 0 <= i < zlen l -> exists x, rd l i = Ok x.
Proof. intros (x & Hx)%zlookup_is_Some. exists x. by apply rd_Ok. Qed.

Lemma wr_Ok l i v : 0 <= i < zlen l -> wr l i v = Ok (zset l i v).
Proof. intros. unfold wr. by rewrite decide_True. Qed.

Lemma zlookup_ext (l1 l2 : list A) :
  zlen l1 = zlen l2 ->
  (forall i, 0 <= i < zlen l1 -> l1 !z i = l2 !z i) -> l1 = l2.
Proof.
  unfold zlen. intros Hlen H. apply list_eq. intros i.
  destruct (decide (i < length l1)%nat) as [Hi|Hi].
  - specialize (H (Z.of_nat i)). rewrite !zlookup_nat in H. apply H. lia.
  - rewrite !lookup_ge_None_2 by lia. done.
Qed.
End arrays.

Lemma zlen_fmap {A B} (f : A -> B) (l : list A) : zlen (f <$> l) = zlen l.
Proof. unfold zlen. by rewrite length_fmap. Qed.

(** ** Arrays and lists *)

Lemma Forall_zlookup {A} (P : A -> Prop) (l : list A) i x : Forall P l -> l !z i = Some x -> P x.
Proof.
  intros Hl Hx. pose proof (zlookup_Some_range _ _ _ Hx). rewrite zlookup_to_nat in Hx by lia.
  rewrite Forall_lookup in Hl. eauto.
Qed.

Lemma app_cons_snoc {A} (l1 l2 : list A) x : l1 ++ x :: l2 = (l1 ++ [x]) ++ l2.
Proof. by rewrite <- app_assoc. Qed.

Lemma rd_fmap {A B} (f : A -> B) (l : list A) i x : l !z i = Some x -> rd (f <$> l) i = Ok (f x).
Proof.
  intros Hx. pose proof (zlookup_Some_range _ _ _ Hx). apply rd_Ok.
  rewrite zlookup_to_nat in Hx by lia. rewrite zlookup_to_nat by lia. by rewrite list_lookup_fmap, Hx.
Qed.

Lemma zlookup_fmap {A B} (f : A -> B) (l : list A) i y :
  (f <$> l) !z i = Some y -> exists x, l !z i = Some x /\ y = f x.
Proof.
  intros Hy. pose proof (zlookup_Some_range _ _ _ Hy). rewrite zlookup_to_nat in Hy by lia.
  apply list_lookup_fmap_Some in Hy as (x & -> & Hx).
  exists x. split; [by rewrite zlookup_to_nat by lia|done].
Qed.

Lemma zset_fmap {A B} (f : A -> B) (l : list A) i x : f <$> zset l i x = zset (f <$> l) i (f x).
Proof. apply list_fmap_insert. Qed.

Lemma zset_id {A} (l : list A) i x : l !z i = Some x -> zset l i x = l.
Proof.
  intros Hx. pose proof (zlookup_Some_range _ _ _ Hx). rewrite zlookup_to_nat in Hx by lia.
  by apply list_insert_id.
Qed.

Lemma zlookup_split {A} (l : list A) i x :
  l !z i = Some x -> exists l1 l2, l = l1 ++ x :: l2 /\ i = zlen l1.
Proof.
  intros Hx. pose proof (zlookup_Some_range _ _ _ Hx). rewrite zlookup_to_nat in Hx by lia.
  apply list_elem_of_split_length in Hx as (l1 & l2 & -> & E). exists l1, l2. split; [done|].
  unfold zlen. lia.
Qed.

Lemma zset_split {A} (l1 l2 : list A) x y : zset (l1 ++ x :: l2) (zlen l1) y = l1 ++ y :: l2.
Proof.
  pose proof (wr_middle l1 l2 x y) as E. rewrite wr_Ok in E; [by injection E|].
  rewrite zlen_app, zlen_cons. pose proof (zlen_nonneg l1). pose proof (zlen_nonneg l2). lia.
Qed.

(** ** Sorted arrays *)
Lemma SSorted_lookup {A} (R : A -> A -> Prop) (l : list A) :
  StronglySorted R l <->
  (forall i j x y, (i < j)%nat -> l !! i = Some x -> l !! j = Some y -> R x y).
Proof.
  split.
  - induction 1 as [|x l Hs IH Hall]; intros i j a b Hij Ha Hb; [done|].
    destruct i as [|i], j as [|j]; try lia; simpl in *; simplify_eq.
    + rewrite Forall_lookup in Hall. eauto.
    + eapply (IH i j); eauto; lia.
  - induction l as [|x l IH]; intros H; constructor.
    + apply IH. intros i j a b Hij. apply (H (S i) (S j)). lia.
    + apply Forall_lookup. intros i y Hy. apply (H 0%nat (S i) x y); simpl; auto. lia.
Qed.

Lemma SSorted_zlookup {A} (R : A -> A -> Prop) (l : list A) :
  StronglySorted R l <->
  (forall i j x y, i < j -> l !z i = Some x -> l !z j = Some y -> R x y).
Proof.
  rewrite SSorted_lookup. split.
  - intros H i j x y Hij Hx Hy.
    pose proof (zlookup_Some_range _ _ _ Hx). pose proof (zlookup_Some_range _ _ _ Hy).
    rewrite zlookup_to_nat in Hx, Hy by lia. eapply H; [|exact Hx|exact Hy]. lia.
  - intros H i j x y Hij Hx Hy. apply (H (Z.of_nat i) (Z.of_nat j)); [lia| |];
      by rewrite zlookup_nat.
Qed.

(** Ascending arrays of integers, by index. *)
Lemma ascending_le (l : list Z) i j x y :
  StronglySorted Z.le l -> i <= j -> l !z i = Some x -> l !z j = Some y -> x <= y.
Proof.
  intros Hs Hij Hx Hy. destruct (decide (i = j)) as [->|Hne]; [simplify_eq; lia|].
  rewrite SSorted_zlookup in Hs. apply (Hs i j); auto. lia.
Qed.

(** ** Loops that write an output array from the left

    [for ( i = i0; i < i0 + n; i++ ) { *out++ = f(i); }]: the list of the
    values written. *)
Fixpoint for_map {A} (f : Z -> res A) (i0 : Z) (n : nat) : res (list A) :=
  match n with
  | O => Ok []
  | S n => x ← f i0; xs ← for_map f (i0 + 1) n; Ok (x :: xs)
  end.

Lemma for_map_spec {A} (f : Z -> res A) (g : Z -> A) n i0 :
  (forall i, i0 <= i < i0 + Z.of_nat n -> f i = Ok (g i)) ->
  for_map f i0 n = Ok (g <$> seqZ i0 (Z.of_nat n)).
Proof.
  revert i0. induction n as [|n IH]; intros i0 H; [done|].
  rewrite seqZ_cons by lia. simpl. rewrite H by lia. simpl.
  rewrite IH by (intros; apply H; lia). simpl. do 4 f_equal; lia.
Qed.

(** A loop that reads its input in the same order as it writes. *)
Lemma for_map_rd {A B} (f : A -> res B) (g : A -> B) (pre l : list A) :
  Forall (fun x => f x = Ok (g x)) l ->
  for_map (fun i => x ← rd (pre ++ l) i; f x) (zlen pre) (length l) = Ok (g <$> l).
Proof.
  intros Hf. revert pre. induction Hf as [|x l Hx Hl IH]; intros pre; [done|].
  simpl. rewrite rd_middle. simpl. rewrite Hx. simpl. specialize (IH (pre ++ [x])).
  rewrite <- app_assoc in IH. simpl in IH.
  rewrite zlen_app in IH. change (zlen [x]) with 1 in IH. rewrite IH. done.
Qed.

Lemma for_map_rd_0 {A B} (f : A -> res B) (g : A -> B) (l : list A) :
  Forall (fun x => f x = Ok (g x)) l ->
  for_map (fun i => x ← rd l i; f x) 0 (length l) = Ok (g <$> l).
Proof. apply (for_map_rd f g []). Qed.

(** ** Filters *)
Lemma filter_none {A} (P : A -> Prop) `{!forall x, Decision (P x)} (l : list A) :
  (forall (k : nat) x, l !! k = Some x -> ~ P x) -> filter P l = [].
Proof.
  induction l as [|x l IH]; intros Hn; [done|].
  rewrite filter_cons_False by (apply (Hn 0%nat); done).
  apply IH. intros k. apply (Hn (S k)).
Qed.

(** ** Lists as multisets *)
(** How often a value occurs. *)
Definition occ (v : Z) (l : list Z) : Z := zlen (filter (fun x => x = v) l).

Lemma occ_cons v x l : occ v (x :: l) = (if decide (x = v) then 1 else 0) + occ v l.
Proof. unfold occ. rewrite filter_cons. case_decide; [rewrite zlen_cons|]; lia. Qed.

Lemma occ_app v l1 l2 : occ v (l1 ++ l2) = occ v l1 + occ v l2.
Proof. unfold occ. by rewrite filter_app, zlen_app. Qed.

Lemma occ_perm v l1 l2 : l1 ≡ₚ l2 -> occ v l1 = occ v l2.
Proof. intros Hp. unfold occ, zlen. by rewrite Hp. Qed.

Lemma occ_nonneg v l : 0 <= occ v l.
Proof. apply zlen_nonneg. Qed.

Lemma occ_pos v l : 0 < occ v l <-> v ∈ l.
Proof.
  induction l as [|x l IH]; [split; [done|by intros ?%elem_of_nil]|].
  rewrite occ_cons, elem_of_cons, <- IH. pose proof (occ_nonneg v l).
  destruct (decide (x = v)) as [->|Hne]; [split; [by left|lia]|].
  split; [by right; lia|]. intros [->|?]; [done|lia].
Qed.

Lemma occ_bounds v l : 0 <= occ v l <= zlen l.
Proof. unfold occ, zlen. pose proof (length_filter (fun x => x = v) l). lia. Qed.

Create HintDb q.
Create Rewrite HintDb qrw.
#[export] Hint Rewrite @zlen_zset @to_nat_zlen @zlen_app @zlen_cons : qrw.
#[export] Hint Resolve zlen_nonneg wrapS_range wrapU_range : q.
