(* ===== verification/Search.v ===== *)
(** * Binary search kernels.

    [bin_search] models src/src/AUX/bin_search_{I4,I8,UI4,UI8}.c, four
    instances of one template that differ only in the C type of the array
    elements; the kernel only compares elements, so one definition over [Z]
    covers the four.  [find_largest_leq_I4] and [find_smallest_geq_I4] model
    the files of these names in src/src/dir_utils/, and [cmp_eq_mult_scalar_log]
    the membership kernels src/src/AUX/cmp_eq_mult_scalar_log_*.c.

    Indices and the sums of two of them stay below 2^63 because an array has
    fewer than 2^62 elements, so index arithmetic is that of [Z]. *)

From stdpp Require Import prelude strings sorting.
From Stdlib Require Import ZArith Lia.
From S2P Require Import Prelude.

Module BinSearch.

(** [strcasecmp(a, b) == 0] *)
Definition lower_ascii (c : Ascii.ascii) : Ascii.ascii :=
  let n := Ascii.nat_of_ascii c in
  if (65 <=? n)%nat && (n <=? 90)%nat then Ascii.ascii_of_nat (n + 32) else c.
Fixpoint lower (s : string) : string :=
  match s with
  | EmptyString => EmptyString
  | String.String c s => String.String (lower_ascii c) (lower s)
  end.
Definition strcasecmp_eq (a b : string) : bool := bool_decide (lower a = lower b).

Inductive direction := BSEARCH_LOWEST | BSEARCH_HIGHEST | BSEARCH_DONTCARE.

(** The [str_direction] argument: [None] is the NULL pointer. *)
Definition parse_direction (str_direction : option string) : res direction :=
  match str_direction with
  | None => Ok BSEARCH_DONTCARE
  | Some s =>
      if bool_decide (s = "")%string then Ok BSEARCH_DONTCARE
      else if strcasecmp_eq s "lowest" then Ok BSEARCH_LOWEST
      else if strcasecmp_eq s "highest" then Ok BSEARCH_HIGHEST
      else if strcasecmp_eq s "dontcare" then Ok BSEARCH_DONTCARE
      else Err
  end.

(** [for ( ; lb <= ub ; ) { ... }] *)
Fixpoint probe_loop (fuel : nat) (X : list Z) (key lb ub : Z) : res Z :=
  if lb <=? ub then
    match fuel with
    | O => NoFuel
    | S fuel =>
        let mid := (lb + ub) / 2 in
        x ← rd X mid;
        if x =? key then Ok mid
        else if key <? x then probe_loop fuel X key lb (Z.min (ub - 1) mid)
        else probe_loop fuel X key (Z.max (lb + 1) mid) ub
    end
  else Ok (-1).

(** [for ( ; pos > 0; ) { if ( X[pos-1] == key ) { pos--; } else { break; } }] *)
Fixpoint go_lowest (fuel : nat) (X : list Z) (key pos : Z) : res Z :=
  if 0 <? pos then
    match fuel with
    | O => NoFuel
    | S fuel =>
        x ← rd X (pos - 1);
        if x =? key then go_lowest fuel X key (pos - 1) else Ok pos
    end
  else Ok pos.

(** [for ( ; pos < nX-1; ) { if ( X[pos+1] == key ) { pos++; } else { break; } }] *)
Fixpoint go_highest (fuel : nat) (X : list Z) (nX key pos : Z) : res Z :=
  if pos <? nX - 1 then
    match fuel with
    | O => NoFuel
    | S fuel =>
        x ← rd X (pos + 1);
        if x =? key then go_highest fuel X nX key (pos + 1) else Ok pos
    end
  else Ok pos.

(** [bin_search_*(X, nX, key, &pos, str_direction)]: the value of [*ptr_pos].
    [None] for [X] is the NULL pointer. *)
Definition bin_search (X : option (list Z)) (nX key : Z)
    (str_direction : option string) : res Z :=
  match X with
  | None => Err
  | Some X =>
      _ ← go_BYE_if (nX <=? 0);
      if nX =? 1 then
        x ← rd X 0;
        Ok (if x =? key then 0 else -1)
      else
        let fuel := Z.to_nat nX in
        pos ← probe_loop fuel X key 0 (nX - 1);
        d ← parse_direction str_direction;
        match d with
        | BSEARCH_LOWEST => go_lowest fuel X key pos
        | BSEARCH_HIGHEST => go_highest fuel X nX key pos
        | BSEARCH_DONTCARE => Ok pos
        end
  end.

Definition bin_search_I4 := bin_search.
Definition bin_search_I8 := bin_search.
Definition bin_search_UI4 := bin_search.
Definition bin_search_UI8 := bin_search.

(** What the four kernels promise: the position reported for [key] in the
    ascending array [X]. *)
Definition found_at (X : list Z) (key : Z) (d : direction) (pos : Z) : Prop :=
  (pos = -1 /\ ~ key ∈ X) \/
  (X !z pos = Some key /\
   match d with
   | BSEARCH_LOWEST => forall i, X !z i = Some key -> pos <= i
   | BSEARCH_HIGHEST => forall i, X !z i = Some key -> i <= pos
   | BSEARCH_DONTCARE => True
   end).

Section correctness.
Context (X : list Z) (key : Z).
Hypothesis Hsorted : StronglySorted Z.le X.

(** Everything outside the window [lb, ub] differs from [key]. *)
Definition window (lb ub : Z) : Prop :=
  forall i, X !z i = Some key -> lb <= i <= ub.

Lemma probe_loop_ok fuel lb ub :
  0 <= lb -> ub < zlen X -> ub - lb < Z.of_nat fuel -> window lb ub ->
  exists pos, probe_loop fuel X key lb ub = Ok pos /\
    ((pos = -1 /\ forall i, X !z i <> Some key) \/ X !z pos = Some key).
Proof.
  revert lb ub. induction fuel as [|fuel IH]; intros lb ub Hlb Hub Hf Hw; simpl;
    destruct (Z.leb_spec lb ub) as [Hle|Hgt].
  1: lia.
  1,3: exists (-1); split; [done|left; split; [done|]]; intros i Hi%Hw; lia.
  pose proof (Z.div_lt_upper_bound (lb + ub) 2 (ub + 1)).
  pose proof (Z.div_le_lower_bound (lb + ub) 2 lb).
  set (mid := (lb + ub) / 2) in *.
  destruct (rd_total X mid) as (x & Hx); [lia|]. rewrite Hx. simpl.
  apply rd_Ok in Hx.
  destruct (Z.eqb_spec x key) as [->|Hne]; [exists mid; eauto|].
  destruct (Z.ltb_spec key x) as [Hlt|Hge].
  - apply IH; [lia..|]. intros i Hi. specialize (Hw i Hi).
    destruct (decide (mid <= i)); [|lia].
    pose proof (ascending_le X mid i x key Hsorted ltac:(lia) ltac:(eassumption) ltac:(eassumption)). lia.
  - apply IH; [lia..|]. intros i Hi. specialize (Hw i Hi).
    destruct (decide (i <= mid)); [|lia].
    pose proof (ascending_le X i mid key x Hsorted ltac:(lia) ltac:(eassumption) ltac:(eassumption)). lia.
Qed.

Lemma go_lowest_ok fuel pos :
  X !z pos = Some key -> pos <= Z.of_nat fuel ->
  exists p, go_lowest fuel X key pos = Ok p /\ X !z p = Some key /\
    forall i, X !z i = Some key -> p <= i.
Proof.
  revert pos. induction fuel as [|fuel IH]; intros pos Hpos Hf; simpl;
    pose proof (zlookup_Some_range _ _ _ Hpos);
    destruct (Z.ltb_spec 0 pos); try lia.
  1,3: exists pos; split_and!; auto;
    intros i Hi%zlookup_Some_range; lia.
  destruct (rd_total X (pos - 1)) as (x & Hx); [lia|]. rewrite Hx. simpl.
  apply rd_Ok in Hx. destruct (Z.eqb_spec x key) as [->|Hne]; [apply IH; auto; lia|].
  exists pos. split_and!; auto. intros i Hi. destruct (decide (pos <= i)); [done|].
  pose proof (ascending_le X (pos - 1) pos x key Hsorted ltac:(lia) ltac:(eassumption) ltac:(eassumption)).
  pose proof (ascending_le X i (pos - 1) key x Hsorted ltac:(lia) ltac:(eassumption) ltac:(eassumption)). lia.
Qed.

Lemma go_highest_ok fuel pos :
  X !z pos = Some key -> zlen X - 1 - pos <= Z.of_nat fuel ->
  exists p, go_highest fuel X (zlen X) key pos = Ok p /\ X !z p = Some key /\
    forall i, X !z i = Some key -> i <= p.
Proof.
  revert pos. induction fuel as [|fuel IH]; intros pos Hpos Hf; simpl;
    pose proof (zlookup_Some_range _ _ _ Hpos);
    destruct (Z.ltb_spec pos (zlen X - 1)); try lia.
  1,3: exists pos; split_and!; auto;
    intros i Hi%zlookup_Some_range; lia.
  destruct (rd_total X (pos + 1)) as (x & Hx); [lia|]. rewrite Hx. simpl.
  apply rd_Ok in Hx. destruct (Z.eqb_spec x key) as [->|Hne]; [apply IH; auto; lia|].
  exists pos. split_and!; auto. intros i Hi. destruct (decide (i <= pos)); [done|].
  pose proof (ascending_le X pos (pos + 1) key x Hsorted ltac:(lia) ltac:(eassumption) ltac:(eassumption)).
  pose proof (ascending_le X (pos + 1) i x key Hsorted ltac:(lia) ltac:(eassumption) ltac:(eassumption)). lia.
Qed.

(** With no occurrence of [key] the adjusting loops do not move. *)
Lemma go_absent fuel :
  (forall i, X !z i <> Some key) -> (0 < fuel)%nat -> 0 < zlen X ->
  go_lowest fuel X key (-1) = Ok (-1) /\
  go_highest fuel X (zlen X) key (-1) = Ok (-1).
Proof.
  intros Habs Hf Hn. destruct fuel as [|fuel]; [lia|]. simpl. split; [done|].
  destruct (Z.ltb_spec (-1) (zlen X - 1)); [|done].
  destruct (rd_total X (-1 + 1)) as (x & Hx); [lia|]. rewrite Hx. simpl.
  apply rd_Ok in Hx. destruct (Z.eqb_spec x key) as [->|]; [|done].
  by destruct (Habs (-1 + 1)).
Qed.

Lemma not_elem_of_zlookup :
  (forall i, X !z i <> Some key) -> key ∉ X.
Proof.
  intros H (i & Hi)%list_elem_of_lookup. apply (H (Z.of_nat i)).
  by rewrite zlookup_nat.
Qed.
End correctness.

Lemma bin_search_found (X : list Z) (key : Z) (str : option string) (d : direction) :
  StronglySorted Z.le X -> X <> [] -> parse_direction str = Ok d ->
  exists pos, bin_search (Some X) (zlen X) key str = Ok pos /\ found_at X key d pos.
Proof.
  intros Hs Hne Hd. unfold bin_search, go_BYE_if.
  assert (0 < zlen X) by (destruct X; [done|unfold zlen; simpl; lia]).
  destruct (Z.leb_spec (zlen X) 0); [lia|]. simpl.
  destruct (Z.eqb_spec (zlen X) 1) as [H1|H1].
  - destruct X as [|x [|? ?]]; try done; [|unfold zlen in H1; simpl in H1; lia].
    simpl. destruct (Z.eqb_spec x key) as [->|Hx]; eexists; (split; [done|]).
    + right. split; [done|]. destruct d; try done; intros i Hi%zlookup_Some_range;
        rewrite H1 in Hi; lia.
    + left. split; [done|]. by rewrite list_elem_of_singleton.
  - destruct (probe_loop_ok X key Hs (Z.to_nat (zlen X)) 0 (zlen X - 1))
      as (pos & Hp & Hpos); [lia..| |].
    { intros i Hi%zlookup_Some_range. lia. }
    rewrite Hp. simpl. rewrite Hd. simpl. destruct Hpos as [[-> Habs]|Hpos].
    + destruct (go_absent X key (Z.to_nat (zlen X)) Habs) as [El Eh]; [lia..|].
      exists (-1). split; [by destruct d|]. left. split; [done|].
      by apply not_elem_of_zlookup.
    + pose proof (zlookup_Some_range _ _ _ Hpos). destruct d.
      * destruct (go_lowest_ok X key Hs (Z.to_nat (zlen X)) pos) as (p & ? & ? & ?);
          [auto; lia..|]. exists p. split; [done|]. by right.
      * destruct (go_highest_ok X key Hs (Z.to_nat (zlen X)) pos) as (p & ? & ? & ?);
          [auto; lia..|]. exists p. split; [done|]. by right.
      * exists pos. split; [done|]. by right.
Qed.

(** Claim C35. [bin_search_*] on a non-empty ascending array returns for every
    key and every accepted direction: -1 exactly when the key does not occur,
    otherwise an index that holds the key, the smallest such index for
    "lowest" and the largest for "highest". *)
Theorem bin_search_correct (X : list Z) (key : Z) (str : option string) (d : direction) :
  StronglySorted Z.le X -> X <> [] -> parse_direction str = Ok d ->
  exists pos, bin_search (Some X) (zlen X) key str = Ok pos /\ found_at X key d pos.
Proof. apply bin_search_found. Qed.

Lemma bin_search_correct_witness :
  exists pos, bin_search (Some [1; 3; 3; 7]) (zlen [1; 3; 3; 7]) 3 (Some "Highest"%string)
    = Ok pos /\ found_at [1; 3; 3; 7] 3 BSEARCH_HIGHEST pos.
Proof.
  apply (bin_search_correct [1; 3; 3; 7] 3 (Some "Highest"%string) BSEARCH_HIGHEST).
  - repeat constructor; lia.
  - discriminate.
  - reflexivity.
Defined.

End BinSearch.

Module FindLeq.

(** The loop of [find_largest_leq_I4]: [prev_mid] is the previous probe. *)
Fixpoint leq_loop (fuel : nat) (X : list Z) (val bot top prev_mid : Z) : res Z :=
  match fuel with
  | O => NoFuel
  | S fuel =>
      let mid := (bot + top) / 2 in
      if mid =? prev_mid then Ok bot
      else
        x ← rd X mid;
        if val <? x then leq_loop fuel X val bot mid mid
        else if x <? val then leq_loop fuel X val mid top mid
        else Ok mid
  end.

Definition find_largest_leq_I4 (X : option (list Z)) (n val : Z) : res Z :=
  match X with
  | None => Err
  | Some X =>
      _ ← go_BYE_if (n <=? 1);
      leq_loop (Z.to_nat n + 1) X val 0 (n - 1) LLONG_MIN
  end.

(** The body of find_smallest_geq_I4.c is that of find_largest_leq_I4.c. *)
Definition find_smallest_geq_I4 (X : option (list Z)) (n val : Z) : res Z :=
  match X with
  | None => Err
  | Some X =>
      _ ← go_BYE_if (n <=? 1);
      leq_loop (Z.to_nat n + 1) X val 0 (n - 1) LLONG_MIN
  end.

(** Bounds on the probe and what the loop knows about the ends of its window. *)
Lemma mid_bounds bot top : bot <= top -> bot <= (bot + top) / 2 <= top.
Proof. intros. split; [apply Z.div_le_lower_bound|apply Z.div_le_upper_bound]; lia. Qed.

(** The answer [idx] of the search: a position of [val]; else a position
    below [val] whose successor is above [val] or is the last position; else
    position 0, when [val] is below the whole array. *)
Definition leq_post (X : list Z) (val idx : Z) : Prop :=
  exists x, X !z idx = Some x /\
    (x = val \/
     (x < val /\ (idx + 1 = zlen X - 1 \/ exists y, X !z (idx + 1) = Some y /\ val < y)) \/
     (idx = 0 /\ val < x)).

Section correctness.
Context (X : list Z) (val : Z).

Definition above (top : Z) : Prop :=
  top = zlen X - 1 \/ exists y, X !z top = Some y /\ val < y.
Definition below (bot : Z) : Prop :=
  bot = 0 \/ exists x, X !z bot = Some x /\ x < val.

(** The two states in which the next probe repeats the last one. *)
Definition stalled (bot top prev : Z) : Prop :=
  prev = bot /\
  ((top = bot + 1 /\ exists x, X !z bot = Some x /\ x < val) \/
   (top = bot /\ bot = 0 /\ exists x, X !z bot = Some x /\ val < x)).

Lemma leq_loop_stalled fuel bot top prev :
  stalled bot top prev -> above top ->
  leq_loop (S fuel) X val bot top prev = Ok bot /\ leq_post X val bot.
Proof.
  intros (-> & Hst) Ha. assert ((bot + top) / 2 = bot) as E.
  { destruct Hst as [[-> _]|(-> & -> & _)]; [|done].
    symmetry. apply (Z.div_unique _ _ _ 1); lia. }
  simpl. rewrite E, Z.eqb_refl. split; [done|].
  destruct Hst as [(-> & x & Hx & Hlt)|(-> & -> & x & Hx & Hgt)]; exists x; split; auto.
Qed.

Lemma leq_loop_ok fuel bot top prev :
  0 <= bot < top -> top < zlen X -> (bot + top) / 2 <> prev ->
  below bot -> above top -> top - bot + 1 < Z.of_nat fuel ->
  exists idx, leq_loop fuel X val bot top prev = Ok idx /\ leq_post X val idx.
Proof.
  revert bot top prev. induction fuel as [|fuel IH]; intros bot top prev Hbt Htop Hprev Hb Ha Hf;
    [lia|]. simpl.
  pose proof (mid_bounds bot top ltac:(lia)) as Hm.
  assert ((bot + top) / 2 < top) by (apply Z.div_lt_upper_bound; lia).
  destruct (Z.eqb_spec ((bot + top) / 2) prev); [done|].
  set (mid := (bot + top) / 2) in *.
  destruct (rd_total X mid) as (x & Hx); [lia|]. rewrite Hx. simpl. apply rd_Ok in Hx.
  destruct fuel as [|fuel]; [lia|].
  destruct (Z.ltb_spec val x); [|destruct (Z.ltb_spec x val)].
  - assert (above mid) by (right; eauto). destruct (decide (mid = bot)) as [E|Hne].
    + exists bot. apply leq_loop_stalled; [|done]. rewrite E in *. split; [done|]. right.
      destruct Hb as [->|(z & Hz & ?)]; [|simplify_eq; lia]. split_and!; eauto.
    + apply IH; auto; [lia..| |lia].
      assert ((bot + mid) / 2 < mid) by (apply Z.div_lt_upper_bound; lia). lia.
  - destruct (decide (mid + 1 = top)) as [E|Hne].
    + exists mid. apply leq_loop_stalled; [|done]. split; [done|]. left. split; [lia|]. eauto.
    + assert (bot + 1 <= mid) by (unfold mid; apply Z.div_le_lower_bound; lia).
      apply IH; auto; [lia..| | |lia].
      * assert (mid + 1 <= (mid + top) / 2) by (apply Z.div_le_lower_bound; lia). lia.
      * right; eauto.
  - exists mid. split; [done|]. exists x. split; [done|]. left; lia.
Qed.
End correctness.

Lemma find_largest_leq_post (X : list Z) (val : Z) :
  2 <= zlen X ->
  exists idx, find_largest_leq_I4 (Some X) (zlen X) val = Ok idx /\ leq_post X val idx.
Proof.
  intros Hn. unfold find_largest_leq_I4, go_BYE_if.
  destruct (Z.leb_spec (zlen X) 1); [lia|]. simpl.
  apply leq_loop_ok; try lia; [|by left..].
  pose proof (mid_bounds 0 (zlen X - 1) ltac:(lia)). unfold LLONG_MIN. lia.
Qed.

(** [find_largest_leq_I4] returns on every ascending array of two or
    more elements, and when the value lies between the first and the last
    element (the last one excluded) the answer is the position of the value, or
    the position of the largest element below it: no element between the
    answer's element and the value exists. *)
Theorem find_largest_leq_correct (X : list Z) (val first last : Z) :
  StronglySorted Z.le X -> 2 <= zlen X ->
  X !z 0 = Some first -> X !z (zlen X - 1) = Some last -> first <= val < last ->
  exists idx x, find_largest_leq_I4 (Some X) (zlen X) val = Ok idx /\
    X !z idx = Some x /\ x <= val /\
    forall y, y ∈ X -> y <= val -> y <= x.
Proof.
  intros Hs Hn Hfirst Hlast Hval.
  destruct (find_largest_leq_post X val Hn) as (idx & Hr & x & Hx & Hpost).
  exists idx, x. split_and!; auto.
  - destruct Hpost as [->|[[? _]|[-> ?]]]; [lia..|]. simplify_eq. lia.
  - intros y (j & Hj)%list_elem_of_lookup Hy. rewrite <- zlookup_nat in Hj.
    destruct Hpost as [->|[[Hlt Hnext]|[-> ?]]]; [done| |simplify_eq; lia].
    destruct (decide (Z.of_nat j <= idx)) as [Hle|Hgt];
      [by apply (ascending_le X (Z.of_nat j) idx)|].
    assert (exists z, X !z (idx + 1) = Some z /\ val < z) as (z & Hz & ?).
    { destruct Hnext as [->|(z & ? & ?)]; eexists; split; eauto; lia. }
    pose proof (ascending_le X (idx + 1) (Z.of_nat j) z y Hs ltac:(lia) Hz Hj). lia.
Qed.

Lemma find_largest_leq_correct_witness :
  exists idx x, find_largest_leq_I4 (Some [2; 4; 9]) (zlen [2; 4; 9]) 5 = Ok idx /\
    [2; 4; 9] !z idx = Some x /\ x <= 5 /\ forall y, y ∈ [2; 4; 9] -> y <= 5 -> y <= x.
Proof.
  apply (find_largest_leq_correct [2; 4; 9] 5 2 9);
    [repeat constructor; lia|unfold zlen; simpl; lia|reflexivity|reflexivity|lia].
Defined.

(** [find_largest_leq_I4] never answers the last position unless it
    holds the value at an inner probe: for a two-element array it answers 0
    even when the second element equals the value; and
    [find_smallest_geq_I4], whose body is the same, answers a position below
    the value it is asked for. *)
Theorem find_leq_geq_last_position :
  find_largest_leq_I4 (Some [2; 5]) 2 5 = Ok 0 /\
  find_largest_leq_I4 (Some [2; 5]) 2 9 = Ok 0 /\
  find_smallest_geq_I4 (Some [2; 5; 9]) 3 6 = Ok 1.
Proof. split_and!; reflexivity. Qed.

End FindLeq.

(** Membership of each element of [in1] in a small sorted set [in2]:
    src/src/AUX/cmp_eq_mult_scalar{,_simple,_log}_{I1,I2,I4,I8}.c. *)
Module MultScalar.

(** A C [bool] stored in an output byte. *)
Definition b2z (b : bool) : Z := if b then 1 else 0.

(** [for ( int j = 0; j < n2; j++ ) { if ( inval == in2[j] ) { found = true; break; } }] *)
Fixpoint scan_loop (n : nat) (inval : Z) (in2 : list Z) (j : Z) : res bool :=
  match n with
  | O => Ok false
  | S n =>
      x ← rd in2 j;
      if inval =? x then Ok true else scan_loop n inval in2 (j + 1)
  end.

Definition cmp_eq_mult_scalar_simple (in1 : list Z) (n1 : Z) (in2 : list Z) (n2 : Z)
    : res (list Z) :=
  for_map (fun i => inval ← rd in1 i;
                    found ← scan_loop (Z.to_nat n2) inval in2 0;
                    Ok (b2z found)) 0 (Z.to_nat n1).

(** [for ( ;  ub > lb;  ) { ... }] *)
Fixpoint log_loop (fuel : nat) (inval : Z) (in2 : list Z) (lb ub : Z) : res bool :=
  if lb <? ub then
    match fuel with
    | O => NoFuel
    | S fuel =>
        let probe := (lb + ub) / 2 in
        let is_last_iter := (probe =? lb) || (probe =? ub) in
        val_to_cmp ← rd in2 probe;
        if inval =? val_to_cmp then Ok true
        else
          let '(lb, ub) := if val_to_cmp <? inval then (probe, ub) else (lb, probe) in
          if is_last_iter then Ok false else log_loop fuel inval in2 lb ub
    end
  else Ok false.

Definition cmp_eq_mult_scalar_log (in1 : list Z) (n1 : Z) (in2 : list Z) (n2 : Z)
    : res (list Z) :=
  for_map (fun i => inval ← rd in1 i;
                    found ← log_loop (Z.to_nat n2) inval in2 0 n2;
                    Ok (b2z found)) 0 (Z.to_nat n1).

Definition cmp_eq_mult_scalar (in1 : list Z) (n1 : Z) (in2 : list Z) (n2 : Z)
    : res (list Z) :=
  if n2 <=? 8 then cmp_eq_mult_scalar_simple in1 n1 in2 n2
  else cmp_eq_mult_scalar_log in1 n1 in2 n2.

Definition cmp_eq_mult_scalar_simple_I1 := cmp_eq_mult_scalar_simple.
Definition cmp_eq_mult_scalar_simple_I2 := cmp_eq_mult_scalar_simple.
Definition cmp_eq_mult_scalar_simple_I4 := cmp_eq_mult_scalar_simple.
Definition cmp_eq_mult_scalar_simple_I8 := cmp_eq_mult_scalar_simple.
Definition cmp_eq_mult_scalar_log_I1 := cmp_eq_mult_scalar_log.
Definition cmp_eq_mult_scalar_log_I2 := cmp_eq_mult_scalar_log.
Definition cmp_eq_mult_scalar_log_I4 := cmp_eq_mult_scalar_log.
Definition cmp_eq_mult_scalar_log_I8 := cmp_eq_mult_scalar_log.
Definition cmp_eq_mult_scalar_I1 := cmp_eq_mult_scalar.
Definition cmp_eq_mult_scalar_I2 := cmp_eq_mult_scalar.
Definition cmp_eq_mult_scalar_I4 := cmp_eq_mult_scalar.
Definition cmp_eq_mult_scalar_I8 := cmp_eq_mult_scalar.

(** The reference: one membership test per element. *)
Definition members (in1 in2 : list Z) : list Z :=
  (fun v => b2z (bool_decide (v ∈ in2))) <$> in1.

Lemma scan_loop_spec inval pre l :
  scan_loop (length l) inval (pre ++ l) (zlen pre) = Ok (bool_decide (inval ∈ l)).
Proof.
  revert pre. induction l as [|x l IH]; intros pre; [by rewrite bool_decide_false by set_solver|].
  simpl. rewrite rd_middle. simpl. destruct (Z.eqb_spec inval x) as [->|Hne].
  { rewrite bool_decide_true by set_solver. done. }
  specialize (IH (pre ++ [x])). rewrite <- app_assoc in IH. simpl in IH.
  rewrite zlen_app in IH. change (zlen [x]) with 1 in IH. rewrite IH. f_equal. apply bool_decide_ext. set_solver.
Qed.

Lemma bool_decide_elem_zlookup (inval : Z) (X : list Z) (b : bool) :
  (if b then exists i, X !z i = Some inval else forall i, X !z i <> Some inval) ->
  b = bool_decide (inval ∈ X).
Proof.
  destruct b; intros H; symmetry.
  - apply bool_decide_eq_true. destruct H as (i & Hi).
    pose proof (zlookup_Some_range _ _ _ Hi). rewrite zlookup_to_nat in Hi by lia.
    by eapply list_elem_of_lookup_2.
  - apply bool_decide_eq_false. by apply BinSearch.not_elem_of_zlookup.
Qed.

Lemma log_loop_spec fuel inval in2 lb ub :
  StronglySorted Z.le in2 -> 0 <= lb -> ub <= zlen in2 -> ub - lb <= Z.of_nat fuel ->
  (forall i, in2 !z i = Some inval -> lb <= i < ub) ->
  log_loop fuel inval in2 lb ub = Ok (bool_decide (inval ∈ in2)).
Proof.
  intros Hs. revert lb ub. induction fuel as [|fuel IH]; intros lb ub Hlb Hub Hf Hw;
    simpl; destruct (Z.ltb_spec lb ub) as [Hlt|Hge]; try lia.
  1,3: f_equal; apply bool_decide_elem_zlookup; intros i Hi%Hw; lia.
  pose proof (FindLeq.mid_bounds lb ub ltac:(lia)).
  assert ((lb + ub) / 2 < ub) by (apply Z.div_lt_upper_bound; lia).
  set (probe := (lb + ub) / 2) in *.
  destruct (rd_total in2 probe) as (x & Hx); [lia|]. rewrite Hx. simpl. apply rd_Ok in Hx.
  destruct (Z.eqb_spec inval x) as [->|Hne].
  { f_equal. apply bool_decide_elem_zlookup. eauto. }
  rewrite (proj2 (Z.eqb_neq probe ub)), orb_false_r by lia.
  assert (forall i, in2 !z i = Some inval -> if x <? inval then probe < i else i < probe) as Hside.
  { intros i Hi. destruct (Z.ltb_spec x inval).
    - destruct (decide (probe < i)); [done|].
      pose proof (ascending_le in2 i probe inval x Hs ltac:(lia) Hi Hx). lia.
    - destruct (decide (i < probe)); [done|].
      pose proof (ascending_le in2 probe i x inval Hs ltac:(lia) Hx Hi). lia. }
  destruct (Z.eqb_spec probe lb) as [E|Hne'].
  - assert (ub = lb + 1) as ->.
    { destruct (decide (ub = lb + 1)); [done|].
      assert (lb + 1 <= probe) by (unfold probe; apply Z.div_le_lower_bound; lia). lia. }
    destruct (x <? inval); f_equal; apply bool_decide_elem_zlookup; intros i Hi;
      specialize (Hside i Hi); specialize (Hw i Hi); lia.
  - destruct (x <? inval); (apply IH; [lia..|]); intros i Hi;
      specialize (Hside i Hi); specialize (Hw i Hi); lia.
Qed.

(** For a set given in ascending order (as its only caller prepares
    it), the dispatching kernel [cmp_eq_mult_scalar_*] writes, for every
    element of the input, 1 when the element occurs in the set and 0 when it
    does not, whichever of the linear and the logarithmic kernels it selects. *)
Theorem cmp_eq_mult_scalar_correct (in1 in2 : list Z) :
  StronglySorted Z.le in2 ->
  cmp_eq_mult_scalar in1 (zlen in1) in2 (zlen in2) = Ok (members in1 in2).
Proof.
  intros Hs. unfold cmp_eq_mult_scalar, cmp_eq_mult_scalar_simple,
    cmp_eq_mult_scalar_log, members. rewrite !to_nat_zlen.
  destruct (zlen in2 <=? 8); apply for_map_rd_0, Forall_forall; intros v _.
  - by rewrite (scan_loop_spec v []).
  - rewrite log_loop_spec; auto; [lia|done|unfold zlen; lia|]. intros i Hi%zlookup_Some_range. lia.
Qed.

Lemma cmp_eq_mult_scalar_correct_witness :
  cmp_eq_mult_scalar [4; 11] (zlen [4; 11]) [1;2;3;4;5;6;7;8;9] (zlen [1;2;3;4;5;6;7;8;9])
  = Ok (members [4; 11] [1;2;3;4;5;6;7;8;9]).
Proof. apply cmp_eq_mult_scalar_correct. repeat constructor; lia. Defined.

End MultScalar.
