(* ===== verification/Sort.v ===== *)
(** * The sorting kernels.

    Models src/src/AUX/qsort_{asc,dsc}_{I4,I8}.c and
    src/src/AUX/qsort_{asc,dsc}_val_{I4,I8}_idx_{I4,I8}.c: the non-recursive
    quicksort with median-of-three pivots and an explicit stack of pending
    partitions, finished by one insertion sort.  All instances come from one
    template; the differences are the comparison ([<] or [>]), the element
    size, and, for the [val_idx] files, a second array [srt_ordr] in which
    every exchange and every shift of the value array is repeated at the same
    indices, so that the two arrays are modelled as one array of pairs.

    A pointer into the array is the index of its element.  Comparisons of
    byte distances keep the cast to [size_t]. *)

From stdpp Require Import prelude sorting.
From Stdlib Require Import ZArith Lia.
From S2P Require Import Prelude.

(** The comparison of an instance is a strict weak order. *)
Class WeakOrder {A} (before : A -> A -> bool) : Prop := {
  wo_asym x y : before x y = true -> before y x = false;
  wo_trans x y z : before y x = false -> before z y = false -> before z x = false
}.

Module Qsort.

Section template.
Context {A : Type} (before : A -> A -> bool) (size : Z).

Definition MAX_THRESH : Z := 4.
Definition max_thresh : Z := MAX_THRESH * size.
(** [CHAR_BIT * sizeof(size_t)] *)
Definition STACK_SIZE : Z := 64.

(** [SWAP(a, b, size)] *)
Definition swap (a : list A) (i j : Z) : res (list A) :=
  x ← rd a i; y ← rd a j; a ← wr a i y; wr a j x.

(** Rearrange [lo], [mid] and [hi] so that the three values are sorted. *)
Definition median3 (a : list A) (lo mid hi : Z) : res (list A) :=
  m ← rd a mid; l ← rd a lo;
  a ← (if before m l then swap a mid lo else Ok a);
  h ← rd a hi; m ← rd a mid;
  if before h m then
    a ← swap a mid hi;
    m ← rd a mid; l ← rd a lo;
    if before m l then swap a mid lo else Ok a
  else Ok a.

(** [while ( *left_ptr < *mid ) { left_ptr += size; }] *)
Fixpoint scan_left (fuel : nat) (a : list A) (left mid : Z) : res Z :=
  l ← rd a left; m ← rd a mid;
  if before l m then
    match fuel with O => NoFuel | S fuel => scan_left fuel a (left + 1) mid end
  else Ok left.

(** [while ( *mid < *right_ptr ) { right_ptr -= size; }] *)
Fixpoint scan_right (fuel : nat) (a : list A) (mid right : Z) : res Z :=
  m ← rd a mid; r ← rd a right;
  if before m r then
    match fuel with O => NoFuel | S fuel => scan_right fuel a mid (right - 1) end
  else Ok right.

(** The do-while loop that collapses the walls; yields the array and the
    final [left_ptr] and [right_ptr]. *)
Fixpoint collapse (fuel : nat) (a : list A) (mid left right : Z)
    : res (list A * Z * Z) :=
  match fuel with
  | O => NoFuel
  | S fuel =>
      left ← scan_left (length a) a left mid;
      right ← scan_right (length a) a mid right;
      if left <? right then
        a ← swap a left right;
        let mid := if mid =? left then right
                   else if mid =? right then left else mid in
        if left + 1 <=? right - 1
        then collapse fuel a mid (left + 1) (right - 1)
        else Ok (a, left + 1, right - 1)
      else if left =? right then Ok (a, left + 1, right - 1)
      else Ok (a, left, right)
  end.

Definition push (stack : list (option (Z * Z))) (lo hi : Z)
    : res (list (option (Z * Z))) :=
  if zlen stack <? STACK_SIZE then Ok (Some (lo, hi) :: stack) else Ub.

(** A byte distance between two element pointers, cast to [size_t]. *)
Definition dist (p q : Z) : Z := wrapU 64 (size * (p - q)).

(** [while (STACK_NOT_EMPTY) { ... }].  [cur] is the pair [lo], [hi]; [None]
    is the pair of NULL pointers that is pushed first and popped last. *)
Fixpoint quick_loop (fuel : nat) (a : list A) (cur : option (Z * Z))
    (stack : list (option (Z * Z))) : res (list A) :=
  match stack with
  | [] => Ok a
  | top :: rest =>
      match fuel, cur with
      | O, _ => NoFuel
      | S _, None => Ub
      | S fuel, Some (lo, hi) =>
          let mid := lo + (hi - lo) / 2 in
          a ← median3 a lo mid hi;
          '(a, left_ptr, right_ptr) ← collapse (length a) a mid (lo + 1) (hi - 1);
          if dist right_ptr lo <=? max_thresh then
            if dist hi left_ptr <=? max_thresh then quick_loop fuel a top rest
            else quick_loop fuel a (Some (left_ptr, hi)) stack
          else if dist hi left_ptr <=? max_thresh then
            quick_loop fuel a (Some (lo, right_ptr)) stack
          else if hi - left_ptr <? right_ptr - lo then
            stack ← push stack lo right_ptr; quick_loop fuel a (Some (left_ptr, hi)) stack
          else
            stack ← push stack left_ptr hi; quick_loop fuel a (Some (lo, right_ptr)) stack
      end
  end.

(** [for (run_ptr = tmp_ptr + size; run_ptr <= thresh; run_ptr += size)] *)
Fixpoint min_loop (n : nat) (a : list A) (run tmp : Z) : res Z :=
  match n with
  | O => Ok tmp
  | S n =>
      r ← rd a run; t ← rd a tmp;
      min_loop n a (run + 1) (if before r t then run else tmp)
  end.

(** [while ( *run_ptr < *tmp_ptr ) { tmp_ptr -= size; }] *)
Fixpoint ins_scan (fuel : nat) (a : list A) (run tmp : Z) : res Z :=
  r ← rd a run; t ← rd a tmp;
  if before r t then
    match fuel with O => NoFuel | S fuel => ins_scan fuel a run (tmp - 1) end
  else Ok tmp.

(** [for (hi = lo = trav; (lo -= size) >= tmp_ptr; hi = lo) { *hi = *lo; }],
    which runs once for each of the [size] bytes of the element: every byte
    position moves alike, so that whole elements move. *)
Fixpoint shift_loop (n : nat) (a : list A) (hi : Z) : res (list A) :=
  match n with
  | O => Ok a
  | S n => y ← rd a (hi - 1); a ← wr a hi y; shift_loop n a (hi - 1)
  end.

Definition rotate (a : list A) (tmp run : Z) : res (list A) :=
  c ← rd a run;
  a ← shift_loop (Z.to_nat (run - tmp)) a run;
  wr a tmp c.

(** [while ((run_ptr += size) <= end_ptr)]: [n] iterations are left. *)
Fixpoint ins_loop (n : nat) (a : list A) (run : Z) : res (list A) :=
  match n with
  | O => Ok a
  | S n =>
      tmp ← ins_scan (length a) a run (run - 1);
      let tmp := tmp + 1 in
      a ← (if negb (tmp =? run) then rotate a tmp run else Ok a);
      ins_loop n a (run + 1)
  end.

Definition insertion_phase (a : list A) (total_elems : Z) : res (list A) :=
  let end_ptr := total_elems - 1 in
  let thresh := Z.min end_ptr MAX_THRESH in
  tmp ← min_loop (Z.to_nat thresh) a 1 0;
  a ← (if negb (tmp =? 0) then swap a tmp 0 else Ok a);
  ins_loop (Z.to_nat (end_ptr - 1)) a 2.

Definition quick_phase (a : list A) (total_elems : Z) : res (list A) :=
  if MAX_THRESH <? total_elems then
    stack ← (if zlen (@nil (option (Z * Z))) <? STACK_SIZE then Ok [None] else Ub);
    quick_loop (2 * Z.to_nat total_elems) a (Some (0, total_elems - 1)) stack
  else Ok a.

Definition qsort (a : list A) (total_elems : Z) : res (list A) :=
  if total_elems =? 0 then Ok a
  else
    a ← quick_phase a total_elems;
    insertion_phase a total_elems.
End template.

(** The instances.  [cmp], the last argument of the C functions, is unused;
    a wrong [size] ends the process ([exit(1)]). *)
Definition qsort_asc_I4 (a : list Z) (total_elems size : Z) : res (list Z) :=
  if negb (size =? 4) then Err else qsort Z.ltb 4 a total_elems.
Definition qsort_asc_I8 (a : list Z) (total_elems size : Z) : res (list Z) :=
  if negb (size =? 8) then Err else qsort Z.ltb 8 a total_elems.
Definition qsort_dsc_I4 (a : list Z) (total_elems size : Z) : res (list Z) :=
  if negb (size =? 4) then Err else qsort Z.gtb 4 a total_elems.
Definition qsort_dsc_I8 (a : list Z) (total_elems size : Z) : res (list Z) :=
  if negb (size =? 8) then Err else qsort Z.gtb 8 a total_elems.

(** Sorting a value array together with [srt_ordr]: compare the values. *)
Definition val_lt (x y : Z * Z) : bool := x.1 <? y.1.
Definition val_gt (x y : Z * Z) : bool := x.1 >? y.1.
(** [aidx], [bidx], [pos], [pos_hi] and [pos_lo] are variables of [w] bits,
    the width of the elements of [srt_ordr]: with more elements than they can
    index, the conversion of an index goes out of range. *)
Definition sort_with_idx (before : Z * Z -> Z * Z -> bool) (size w : Z)
    (srt_ordr vals : list Z) (total_elems : Z) : res (list Z * list Z) :=
  if 2 ^ (w - 1) <? total_elems then Ub
  else
    a ← qsort before size (zip vals srt_ordr) total_elems;
    Ok (a.*2, a.*1).
Definition qsort_asc_val_I4_idx_I4 := sort_with_idx val_lt 4 32.
Definition qsort_asc_val_I4_idx_I8 := sort_with_idx val_lt 4 64.
Definition qsort_asc_val_I8_idx_I4 := sort_with_idx val_lt 8 32.
Definition qsort_asc_val_I8_idx_I8 := sort_with_idx val_lt 8 64.
Definition qsort_dsc_val_I4_idx_I4 := sort_with_idx val_gt 4 32.
Definition qsort_dsc_val_I4_idx_I8 := sort_with_idx val_gt 4 64.
Definition qsort_dsc_val_I8_idx_I4 := sort_with_idx val_gt 8 32.
Definition qsort_dsc_val_I8_idx_I8 := sort_with_idx val_gt 8 64.

#[export] Instance ltb_weak_order : WeakOrder Z.ltb.
Proof. split; intros; lia. Qed.
#[export] Instance gtb_weak_order : WeakOrder Z.gtb.
Proof. split; intros; lia. Qed.
#[export] Instance val_lt_weak_order : WeakOrder val_lt.
Proof. split; unfold val_lt; intros; lia. Qed.
#[export] Instance val_gt_weak_order : WeakOrder val_gt.
Proof. split; unfold val_gt; intros; lia. Qed.

Example qsort_asc_example :
  qsort_asc_I4 [5; -3; 9; 1; 1; 8; 0; 7; 2; 6] 10 4 = Ok [-3; 0; 1; 1; 2; 5; 6; 7; 8; 9].
Proof. vm_compute. reflexivity. Qed.
Example qsort_dsc_idx_example :
  qsort_dsc_val_I4_idx_I4 [0; 1; 2; 3; 4; 5; 6] [3; 9; 4; 1; 7; 2; 8] 7
  = Ok ([1; 6; 4; 2; 0; 5; 3], [9; 8; 7; 4; 3; 2; 1]).
Proof. vm_compute. reflexivity. Qed.

(** ** Rearrangements inside an index range *)

Section correctness.
Context {A : Type} (before : A -> A -> bool) (size : Z) `{!WeakOrder before}.
Implicit Types (a : list A) (lo hi mid left right : Z).

(** [x] may stand to the left of [y] in the result. *)
Definition le_ord (x y : A) : Prop := before y x = false.

#[local] Instance le_ord_preorder : PreOrder le_ord.
Proof.
  split.
  - intros x. unfold le_ord. destruct (before x x) eqn:E; [|done].
    by rewrite (wo_asym _ _ E) in E.
  - intros x y z. apply wo_trans.
Qed.

Lemma le_ord_total x y : before x y = true -> le_ord x y.
Proof. apply wo_asym. Qed.

(** [a'] is [a] with the elements of [lo..hi] rearranged. *)
Record within (lo hi : Z) (a a' : list A) : Prop := {
  within_perm : a ≡ₚ a';
  within_out k : ~ (lo <= k <= hi) -> a' !z k = a !z k;
  within_in k : lo <= k <= hi -> exists k', lo <= k' <= hi /\ a' !z k = a !z k'
}.

Lemma within_refl lo hi a : within lo hi a a.
Proof. split; eauto. Qed.

Lemma within_trans lo hi a1 a2 a3 :
  within lo hi a1 a2 -> within lo hi a2 a3 -> within lo hi a1 a3.
Proof.
  intros [P1 O1 I1] [P2 O2 I2]. split.
  - by rewrite P1.
  - intros k Hk. rewrite O2, O1; auto.
  - intros k Hk. destruct (I2 k Hk) as (k' & Hk' & ->).
    destruct (I1 k' Hk') as (k'' & ? & ->). eauto.
Qed.

Lemma within_len lo hi a a' : within lo hi a a' -> zlen a' = zlen a.
Proof. intros [P _ _]. unfold zlen. by rewrite P. Qed.

(** A property of all elements of the range survives the rearrangement. *)
Lemma within_forall (P : A -> Prop) lo hi a a' :
  within lo hi a a' ->
  (forall k x, lo <= k <= hi -> a !z k = Some x -> P x) ->
  (forall k x, lo <= k <= hi -> a' !z k = Some x -> P x).
Proof.
  intros [_ _ I] H k x Hk Hx. destruct (I k Hk) as (k' & Hk' & E).
  rewrite E in Hx. eauto.
Qed.

Lemma swap_spec a i j x y :
  a !z i = Some x -> a !z j = Some y ->
  exists a', swap a i j = Ok a' /\ a' !z i = Some y /\ a' !z j = Some x /\
    (forall k, k <> i -> k <> j -> a' !z k = a !z k) /\ a ≡ₚ a'.
Proof.
  intros Hx Hy. pose proof (zlookup_Some_range _ _ _ Hx).
  pose proof (zlookup_Some_range _ _ _ Hy).
  unfold swap. rewrite (proj2 (rd_Ok a i x) Hx), (proj2 (rd_Ok a j y) Hy). simpl.
  rewrite wr_Ok by lia. simpl. rewrite wr_Ok by (rewrite zlen_zset; lia).
  eexists; split; [done|]. split_and!.
  - destruct (decide (i = j)) as [->|Hne].
    + rewrite zlookup_zset_eq by (rewrite zlen_zset; lia). congruence.
    + rewrite zlookup_zset_ne, zlookup_zset_eq by lia. done.
  - rewrite zlookup_zset_eq by (rewrite zlen_zset; lia). done.
  - intros k Hki Hkj. rewrite !zlookup_zset_ne by lia. done.
  - unfold zset. rewrite zlookup_to_nat in Hx, Hy by lia.
    set (n := Z.to_nat i) in *. set (m := Z.to_nat j) in *. apply Permutation_inj.
    rewrite !length_insert. split; [done|].
    exists (fun k => if decide (k = n) then m else if decide (k = m) then n else k).
    split; [intros k1 k2; repeat case_decide; congruence|].
    intros k. apply lookup_lt_Some in Hx as Hn. apply lookup_lt_Some in Hy as Hm.
    repeat case_decide; subst; try rewrite list_lookup_insert_eq by (rewrite ?length_insert; lia);
      try done.
    + destruct (decide (n = m)) as [E|Hne]; [rewrite E in *|].
      * by rewrite list_lookup_insert_eq by (rewrite length_insert; lia).
      * rewrite list_lookup_insert_ne, list_lookup_insert_eq by done. congruence.
    + by rewrite !list_lookup_insert_ne by done.
Qed.

Lemma swap_within lo hi a i j x y :
  a !z i = Some x -> a !z j = Some y -> lo <= i <= hi -> lo <= j <= hi ->
  exists a', swap a i j = Ok a' /\ a' !z i = Some y /\ a' !z j = Some x /\
    (forall k, k <> i -> k <> j -> a' !z k = a !z k) /\ within lo hi a a'.
Proof.
  intros Hx Hy Hi Hj. destruct (swap_spec a i j x y Hx Hy) as (a' & ? & Ei & Ej & Eo & Hp).
  exists a'. split_and!; auto. split; [done| |].
  - intros k Hk. apply Eo; intros ->; lia.
  - intros k Hk. destruct (decide (k = i)) as [->|]; [exists j; split; [lia|congruence]|].
    destruct (decide (k = j)) as [->|]; [exists i; split; [lia|congruence]|].
    exists k. auto.
Qed.
(** ** One partition step *)

Lemma rd_Some a i x : a !z i = Some x -> rd a i = Ok x.
Proof. by rewrite rd_Ok. Qed.

Lemma median3_ok a lo mid hi :
  0 <= lo < mid -> mid < hi -> hi < zlen a ->
  exists a' l m h, median3 before a lo mid hi = Ok a' /\ within lo hi a a' /\
    a' !z lo = Some l /\ a' !z mid = Some m /\ a' !z hi = Some h /\
    le_ord l m /\ le_ord m h.
Proof.
  intros Hlo Hmid Hhi.
  destruct (zlookup_is_Some a lo) as (l & El); [lia|].
  destruct (zlookup_is_Some a mid) as (m & Em); [lia|].
  destruct (zlookup_is_Some a hi) as (h & Eh); [lia|].
  unfold median3. rewrite (rd_Some _ _ _ Em), (rd_Some _ _ _ El). simpl.
  assert (exists a1 l1 m1, (if before m l then swap a mid lo else Ok a) = Ok a1 /\
    within lo hi a a1 /\ a1 !z lo = Some l1 /\ a1 !z mid = Some m1 /\
    a1 !z hi = Some h /\ le_ord l1 m1) as (a1 & l1 & m1 & -> & Hw & El1 & Em1 & Eh1 & Hle).
  { destruct (before m l) eqn:E.
    - destruct (swap_within lo hi a mid lo m l) as (a1 & ? & ? & ? & Eo & ?); [first [assumption|lia]..|].
      exists a1, m, l. rewrite (Eo hi) by lia. split_and!; auto. by apply le_ord_total.
    - exists a, l, m. split_and!; auto using within_refl. }
  simpl. rewrite (rd_Some _ _ _ Eh1), (rd_Some _ _ _ Em1). simpl.
  destruct (before h m1) eqn:E2; [|exists a1, l1, m1, h; by split_and!].
  destruct (swap_within lo hi a1 mid hi m1 h) as (a2 & -> & Em2 & Eh2 & Eo & Hw2);
    [first [assumption|lia]..|].
  simpl. rewrite (rd_Some _ _ _ Em2), (rd_Some a2 lo l1) by (rewrite Eo; auto; lia). simpl.
  destruct (before h l1) eqn:E3.
  - destruct (swap_within lo hi a2 mid lo h l1) as (a3 & -> & Em3 & El3 & Eo3 & Hw3);
      [first [assumption|lia|rewrite Eo; [assumption|lia|lia]]..|].
    exists a3, h, l1, m1. split_and!; auto.
    + eauto using within_trans.
    + by rewrite Eo3 by lia.
    + by apply le_ord_total.
  - exists a2, l1, h, m1. split_and!; auto.
    + eauto using within_trans.
    + by rewrite Eo by lia.
    + by apply le_ord_total.
Qed.

(** The scan stops at the latest at a position [stop] known not to be
    before the pivot. *)
Lemma scan_left_ok fuel a left mid p stop s :
  a !z mid = Some p -> 0 <= left <= stop -> a !z stop = Some s -> le_ord p s ->
  stop - left <= Z.of_nat fuel ->
  exists l x, scan_left before fuel a left mid = Ok l /\ left <= l <= stop /\
    a !z l = Some x /\ le_ord p x /\
    (forall k y, left <= k < l -> a !z k = Some y -> le_ord y p).
Proof.
  intros Hp Hl Hs Hle. pose proof (zlookup_Some_range _ _ _ Hs). revert left Hl.
  induction fuel as [|fuel IH]; intros left Hl Hf;
    destruct (zlookup_is_Some a left) as (x & Ex); try lia; simpl;
    rewrite (rd_Some _ _ _ Ex), (rd_Some _ _ _ Hp); simpl; destruct (before x p) eqn:E.
  - assert (left = stop) as -> by lia. unfold le_ord in Hle. congruence.
  - exists left, x. split_and!; auto; try lia.
  - assert (left <> stop) by (intros ->; unfold le_ord in Hle; congruence).
    destruct (IH (left + 1)) as (l & y & -> & ? & Ey & ? & Hb); [lia..|].
    exists l, y. split_and!; auto; try lia. intros k z Hk Hz.
    destruct (decide (k = left)) as [->|]; [|apply (Hb k); auto; lia].
    simplify_eq. by apply le_ord_total.
  - exists left, x. split_and!; auto; try lia.
Qed.

Lemma scan_right_ok fuel a mid right p stop s :
  a !z mid = Some p -> stop <= right < zlen a -> a !z stop = Some s -> le_ord s p ->
  right - stop <= Z.of_nat fuel ->
  exists r x, scan_right before fuel a mid right = Ok r /\ stop <= r <= right /\
    a !z r = Some x /\ le_ord x p /\
    (forall k y, r < k <= right -> a !z k = Some y -> le_ord p y).
Proof.
  intros Hp Hr Hs Hle. pose proof (zlookup_Some_range _ _ _ Hs). revert right Hr.
  induction fuel as [|fuel IH]; intros right Hr Hf;
    destruct (zlookup_is_Some a right) as (x & Ex); try lia; simpl;
    rewrite (rd_Some _ _ _ Hp); simpl; rewrite (rd_Some _ _ _ Ex); simpl;
    destruct (before p x) eqn:E.
  - assert (right = stop) as -> by lia. unfold le_ord in Hle. congruence.
  - exists right, x. split_and!; auto; try lia.
  - assert (right <> stop) by (intros ->; unfold le_ord in Hle; congruence).
    destruct (IH (right - 1)) as (r & y & -> & ? & Ey & ? & Hb); [lia..|].
    exists r, y. split_and!; auto; try lia. intros k z Hk Hz.
    destruct (decide (k = right)) as [->|]; [|apply (Hb k); auto; lia].
    simplify_eq. by apply le_ord_total.
  - exists right, x. split_and!; auto; try lia.
Qed.

(** The walls: everything left of [left] is at most the pivot [p],
    everything right of [right] is at least [p]. *)
Record walls (lo hi : Z) (p : A) (a : list A) (left right : Z) : Prop := {
  walls_left k x : lo <= k < left -> a !z k = Some x -> le_ord x p;
  walls_right k x : right < k <= hi -> a !z k = Some x -> le_ord p x
}.

Lemma collapse_ok fuel lo hi p a mid left right :
  0 <= lo -> hi < zlen a -> lo <= mid <= hi -> a !z mid = Some p ->
  lo < left <= right -> right < hi -> walls lo hi p a left right ->
  right - left < 2 * Z.of_nat fuel - 1 ->
  exists a' l r, collapse before fuel a mid left right = Ok (a', l, r) /\
    within lo hi a a' /\ lo <= r < l /\ l <= hi /\ walls lo hi p a' l r.
Proof.
  intros Hlo Hhi. revert a mid left right Hhi.
  induction fuel as [|fuel IH]; intros a mid left right Hhi Hmid Hp Hlr Hrh [WL WR] Hf; [lia|].
  simpl. pose proof (zlen_nonneg a).
  destruct (zlookup_is_Some a (right + 1)) as (s & Es); [lia|].
  destruct (scan_left_ok (length a) a left mid p (right + 1) s)
    as (l & x & -> & Hl & Ex & Hpx & Hbl); auto; try lia.
  { apply (WR (right + 1)); auto; lia. }
  { unfold zlen in *; lia. }
  simpl.
  destruct (zlookup_is_Some a (left - 1)) as (t & Et); [lia|].
  assert (walls lo hi p a l right) as [WL' _].
  { split; [|exact WR]. intros k y Hk. destruct (decide (k < left)); [apply WL; lia|].
    apply Hbl; lia. }
  destruct (zlookup_is_Some a (l - 1)) as (t' & Et'); [lia|].
  destruct (scan_right_ok (length a) a mid right p (l - 1) t')
    as (r & y & -> & Hr & Ey & Hyp & Hbr); auto; try lia.
  { apply (WL' (l - 1)); auto; lia. }
  { unfold zlen in *; lia. }
  simpl.
  assert (forall k z, r < k <= hi -> a !z k = Some z -> le_ord p z) as WR'.
  { intros k z Hk Hz. destruct (decide (k <= right)); [apply (Hbr k); auto; lia|].
    apply (WR k); auto; lia. }
  destruct (Z.ltb_spec l r) as [Hlt|Hge].
  - destruct (swap_within lo hi a l r x y) as (a' & -> & El & Er & Eo & Hw); [first [assumption|lia]..|].
    simpl. set (mid' := if mid =? l then r else if mid =? r then l else mid).
    assert (a' !z mid' = Some p) as Hp'.
    { unfold mid'. destruct (Z.eqb_spec mid l) as [->|]; [congruence|].
      destruct (Z.eqb_spec mid r) as [->|]; [congruence|]. by rewrite Eo. }
    assert (lo <= mid' <= hi) by (unfold mid'; repeat case_match; lia).
    assert (walls lo hi p a' (l + 1) (r - 1)) as Hwalls.
    { split; intros k z Hk Hz.
      - destruct (decide (k = l)) as [->|]; [simplify_eq; done|].
        rewrite Eo in Hz by lia. apply (WL' k); auto; lia.
      - destruct (decide (k = r)) as [->|]; [simplify_eq; done|].
        rewrite Eo in Hz by lia. apply (WR' k); auto; lia. }
    destruct (Z.leb_spec (l + 1) (r - 1)).
    + destruct (IH a' mid' (l + 1) (r - 1)) as (a2 & l2 & r2 & -> & Hw2 & ? & ? & ?);
        auto; try lia; [by rewrite (within_len _ _ _ _ Hw)|].
      exists a2, l2, r2. split_and!; auto; try lia; eauto using within_trans.
    + exists a', (l + 1), (r - 1). split_and!; auto; lia.
  - destruct (Z.eqb_spec l r) as [->|Hne].
    + exists a, (r + 1), (r - 1). split_and!; auto using within_refl; try lia.
      split; intros k z Hk Hz.
      * destruct (decide (k = r)) as [->|]; [simplify_eq; done|]. apply (WL' k); auto; lia.
      * destruct (decide (k = r)) as [->|]; [simplify_eq; done|]. apply (WR' k); auto; lia.
    + exists a, l, r. split_and!; auto using within_refl; try lia. by split.
Qed.
(** ** The quicksort phase *)

(** Every element of [0..r] may stand before every element after [r]. *)
Definition sep (a : list A) (r : Z) : Prop :=
  0 <= r /\
  forall i j x y, 0 <= i <= r -> r < j -> a !z i = Some x -> a !z j = Some y -> le_ord x y.

(** [lmost r segs]: among the pending partitions [segs] the one that starts
    at 0, if it is still pending, ends at [r]; all others lie to the right
    of [r]; once it is no longer pending, [r] is below the threshold. *)
Inductive lmost (r : Z) : list (Z * Z) -> Prop :=
| lm_done segs : r <= MAX_THRESH -> Forall (fun s => r < s.1) segs -> lmost r segs
| lm_here segs : Forall (fun s => r < s.1) segs -> lmost r ((0, r) :: segs)
| lm_later s segs : r < s.1 -> lmost r segs -> lmost r (s :: segs).

Lemma sep_outside a a' r lo hi :
  sep a r -> within lo hi a a' -> r < lo -> sep a' r.
Proof.
  intros [Hr Hs] [_ Ho Hi] Hlt. split; [done|]. intros i j x y Hir Hj Ex Ey.
  rewrite Ho in Ex by lia. destruct (decide (lo <= j <= hi)) as [Hin|Hout].
  - destruct (Hi j Hin) as (j' & ? & E). rewrite E in Ey. apply (Hs i j'); auto; lia.
  - rewrite Ho in Ey by done. by apply (Hs i j).
Qed.

Lemma sep_inside a a' r l r' p :
  sep a r -> within 0 r a a' -> 0 <= r' < l -> l <= r -> walls 0 r p a' l r' -> sep a' r'.
Proof.
  intros [Hr Hs] [_ Ho Hi] Hr' Hl [WL WR]. split; [lia|].
  intros i j x y Hir Hj Ex Ey. destruct (decide (j <= r)) as [Hin|Hout].
  - transitivity p; [apply (WL i); auto; lia|apply (WR j); auto; lia].
  - rewrite Ho in Ey by lia. destruct (Hi i ltac:(lia)) as (i' & ? & E). rewrite E in Ex.
    apply (Hs i' j); auto; lia.
Qed.

(** What a partition step of [lo..hi] into [lo..r'] and [l..hi] does to the
    leftmost partition. *)
Lemma lmost_step r a a' lo hi l r' p segs :
  lmost r ((lo, hi) :: segs) -> sep a r -> within lo hi a a' ->
  lo <= r' < l -> l <= hi -> walls lo hi p a' l r' ->
  exists rr, sep a' rr /\
    ((rr < lo /\ lmost rr segs) \/ (lo = 0 /\ rr = r' /\ Forall (fun s => r' < s.1) segs)).
Proof.
  intros Hlm Hsep Hw Hr' Hl Hwalls.
  assert ((r < lo /\ lmost r segs) \/ (lo = 0 /\ hi = r /\ Forall (fun s => r < s.1) segs))
    as [[Hlt Hlm']|(-> & -> & Hall)].
  { inversion Hlm as [? ? Hall|? Hall|? ? Hlt Hlm']; subst; simpl in *; auto.
    apply Forall_cons in Hall as [? ?]. left. split; [done|]. by apply lm_done. }
  - exists r. split; [by eapply sep_outside|by left].
  - exists r'. split; [by eapply sep_inside|right]. split_and!; auto.
    eapply Forall_impl; [exact Hall|]. simpl. lia.
Qed.

Definition seg_size (s : Z * Z) : Z := s.2 - s.1 + 1.
Definition valid_seg (n : Z) (s : Z * Z) : Prop :=
  0 <= s.1 /\ s.2 < n /\ MAX_THRESH <= s.2 - s.1.

(** The bound on the stack: a partition with [d] others below it on the
    stack has at most [n / 2^d] elements. *)
Fixpoint halving (n : Z) (segs : list (Z * Z)) : Prop :=
  match segs with
  | [] => True
  | s :: segs => seg_size s * 2 ^ zlen segs <= n /\ halving n segs
  end.

(** Iterations left: a partition of [k] elements costs at most [2k - 1]. *)
Fixpoint cost (segs : list (Z * Z)) : Z :=
  match segs with [] => 0 | s :: segs => 2 * seg_size s - 1 + cost segs end.

Lemma cost_nonneg n segs : Forall (valid_seg n) segs -> 0 <= cost segs.
Proof.
  induction 1 as [|s segs Hs _ IH]; simpl; [done|].
  unfold valid_seg, seg_size, MAX_THRESH in *. lia.
Qed.

Hypothesis Hsize : 0 < size <= 8.

Lemma dist_thresh n p q :
  n < 2 ^ 60 -> 0 <= p - q < n ->
  (dist size p q <=? max_thresh size) = (p - q <=? MAX_THRESH).
Proof.
  intros Hn Hpq. unfold dist, max_thresh. rewrite wrapU_small by (split; nia).
  destruct (Z.leb_spec (size * (p - q)) (MAX_THRESH * size)),
    (Z.leb_spec (p - q) MAX_THRESH); try done; nia.
Qed.

Lemma halving_depth n s segs :
  n < 2 ^ 60 -> valid_seg n s -> halving n (s :: segs) -> zlen segs < 60.
Proof.
  intros Hn Hv [Hh _]. destruct (Z.lt_ge_cases (zlen segs) 60) as [|Hge]; [done|].
  pose proof (Z.pow_le_mono_r 2 60 (zlen segs) ltac:(lia) Hge).
  unfold valid_seg, seg_size, MAX_THRESH in *. nia.
Qed.

Definition to_stack (segs : list (Z * Z)) : list (option (Z * Z)) := (Some <$> segs) ++ [None].

Lemma push_ok segs lo hi : zlen segs < 60 ->
  push (to_stack segs) lo hi = Ok (to_stack ((lo, hi) :: segs)).
Proof.
  intros H. unfold push, to_stack, STACK_SIZE, zlen in *.
  rewrite length_app, length_fmap. simpl.
  rewrite (proj2 (Z.ltb_lt _ _)) by lia. done.
Qed.

(** One iteration up to the choice of the next partition. *)
Lemma partition_ok n a lo hi :
  zlen a = n -> valid_seg n (lo, hi) ->
  exists a1 a' l r p,
    median3 before a lo (lo + (hi - lo) / 2) hi = Ok a1 /\
    collapse before (length a1) a1 (lo + (hi - lo) / 2) (lo + 1) (hi - 1) = Ok (a', l, r) /\
    within lo hi a a' /\ lo <= r < l /\ l <= hi /\ walls lo hi p a' l r.
Proof.
  intros Hlen (Hlo & Hhi & Hsz). simpl in *. unfold MAX_THRESH in *.
  assert (2 <= (hi - lo) / 2) by (apply Z.div_le_lower_bound; lia).
  assert ((hi - lo) / 2 < hi - lo) by (apply Z.div_lt; lia).
  set (mid := lo + (hi - lo) / 2) in *.
  destruct (median3_ok a lo mid hi) as (a1 & x & p & y & E1 & Hw & Ex & Ep & Ey & Hxp & Hpy);
    [lia..|].
  pose proof (within_len _ _ _ _ Hw) as Hlen1.
  destruct (collapse_ok (length a1) lo hi p a1 mid (lo + 1) (hi - 1))
    as (a' & l & r & E2 & Hw2 & ? & ? & ?); auto; try lia.
  { split; intros k z Hk Hz.
    - assert (k = lo) as -> by lia. congruence.
    - assert (k = hi) as -> by lia. congruence. }
  { unfold zlen in *. lia. }
  exists a1, a', l, r, p. split_and!; eauto using within_trans; try lia.
Qed.
(** The pending partitions after a step: [cur], then [segs]. *)
Record pending (n : Z) (a : list A) (segs : list (Z * Z)) : Prop := {
  pd_len : zlen a = n;
  pd_valid : Forall (valid_seg n) segs;
  pd_halving : halving n segs;
  pd_sep : exists r, sep a r /\ lmost r segs
}.

(** Replacing the first pending partition by the parts [new] that a
    partition step leaves to do. *)
Lemma pending_step n a a' lo hi l r p segs new :
  pending n a ((lo, hi) :: segs) -> within lo hi a a' ->
  lo <= r < l -> l <= hi -> walls lo hi p a' l r ->
  (new = [] /\ r - lo <= MAX_THRESH) \/
  (new = [(l, hi)] /\ r - lo <= MAX_THRESH < hi - l) \/
  (new = [(lo, r)] /\ MAX_THRESH < r - lo) \/
  (new = [(l, hi); (lo, r)] /\ MAX_THRESH < hi - l < r - lo) \/
  (new = [(lo, r); (l, hi)] /\ MAX_THRESH < r - lo <= hi - l) ->
  pending n a' (new ++ segs) /\ cost (new ++ segs) < cost ((lo, hi) :: segs).
Proof.
  intros [Hlen Hv [Hh0 Hh] (r0 & Hsep & Hlm)] Hw Hr Hl Hwalls Hnew.
  apply Forall_cons in Hv as [(? & ? & ?) Hv].
  destruct (lmost_step _ _ _ _ _ _ _ _ _ Hlm Hsep Hw Hr Hl Hwalls) as (rr & Hsep' & Hcase).
  unfold seg_size, MAX_THRESH in *. simpl in *.
  pose proof (Z.pow_pos_nonneg 2 (zlen segs) ltac:(lia) (zlen_nonneg segs)).
  assert (2 ^ (1 + zlen segs) = 2 * 2 ^ zlen segs) as Epow.
  { rewrite Z.pow_add_r by (try apply zlen_nonneg; lia). lia. }
  split; [split|].
  - by rewrite (within_len _ _ _ _ Hw).
  - destruct Hnew as [[-> ?]|[[-> ?]|[[-> ?]|[[-> ?]|[-> ?]]]]]; simpl; auto;
      repeat (apply Forall_cons; split; [unfold valid_seg, MAX_THRESH; simpl; lia|]); done.
  - destruct Hnew as [[-> ?]|[[-> ?]|[[-> ?]|[[-> ?]|[-> ?]]]]]; simpl; split_and?;
      unfold seg_size; rewrite ?zlen_cons, ?Epow; simpl; auto; nia.
  - exists rr. split; [done|].
    destruct Hnew as [[-> ?]|[[-> ?]|[[-> ?]|[[-> ?]|[-> ?]]]]]; simpl;
      (destruct Hcase as [[? ?]|(-> & -> & ?)]; [repeat (apply lm_later; simpl; [lia|]); done|]).
    + apply lm_done; [unfold MAX_THRESH; lia|done].
    + apply lm_done; [unfold MAX_THRESH; lia|]. apply Forall_cons; simpl; split; [lia|done].
    + by apply lm_here.
    + apply lm_later; simpl; [lia|]. by apply lm_here.
    + apply lm_here. apply Forall_cons; simpl; split; [lia|done].
  - destruct Hnew as [[-> ?]|[[-> ?]|[[-> ?]|[[-> ?]|[-> ?]]]]]; simpl; unfold seg_size; simpl; lia.
Qed.

(** The quicksort phase ends, keeps the elements, and leaves no element
    after the first [MAX_THRESH + 1] that must stand before them. *)
Lemma quick_loop_ok fuel n a c segs :
  n < 2 ^ 60 -> pending n a (c :: segs) -> cost (c :: segs) <= Z.of_nat fuel ->
  exists a' r, quick_loop before size fuel a (Some c) (to_stack segs) = Ok a' /\
    a ≡ₚ a' /\ sep a' r /\ r <= MAX_THRESH.
Proof.
  intros Hn. revert a c segs. induction fuel as [|fuel IH]; intros a [lo hi] segs Hp Hf.
  { destruct Hp as [_ [(? & ? & ?) Hv]%Forall_cons _ _]. pose proof (cost_nonneg _ _ Hv).
    simpl in *. unfold seg_size, MAX_THRESH in *. simpl in *. lia. }
  pose proof Hp as [Hlen [Hv Hvs]%Forall_cons Hh _].
  pose proof (halving_depth _ _ _ Hn Hv Hh) as Hdepth.
  destruct (partition_ok n a lo hi Hlen Hv)
    as (a1 & a' & l & r & p & E1 & E2 & Hw & Hr & Hl & Hwalls).
  destruct Hv as (Hv1 & Hv2 & Hv3). simpl in Hv1, Hv2, Hv3.
  (* every branch continues with some list [new] of parts *)
  assert (forall new, _ -> pending n a' (new ++ segs) /\ _ < _) as Hstep
    by (intros new; exact (pending_step n a a' lo hi l r p segs new Hp Hw Hr Hl Hwalls)).
  assert (forall c' segs', pending n a' (c' :: segs') /\
    cost (c' :: segs') < cost ((lo, hi) :: segs) ->
    exists a'' r, quick_loop before size fuel a' (Some c') (to_stack segs') = Ok a'' /\
      a ≡ₚ a'' /\ sep a'' r /\ r <= MAX_THRESH) as Hgo.
  { intros c' segs' [Hp' Hc']. destruct (IH a' c' segs' Hp') as (a'' & r'' & ? & Hperm & ?);
      [simpl in *; lia|].
    exists a'', r''. split_and!; try tauto. rewrite (within_perm _ _ _ _ Hw). done. }
  assert (quick_loop before size (S fuel) a (Some (lo, hi)) (to_stack segs) =
    if r - lo <=? MAX_THRESH then
      if hi - l <=? MAX_THRESH then
        match to_stack segs with [] => Ok a' | t :: rest => quick_loop before size fuel a' t rest end
      else quick_loop before size fuel a' (Some (l, hi)) (to_stack segs)
    else if hi - l <=? MAX_THRESH then quick_loop before size fuel a' (Some (lo, r)) (to_stack segs)
    else if hi - l <? r - lo
      then quick_loop before size fuel a' (Some (l, hi)) (to_stack ((lo, r) :: segs))
      else quick_loop before size fuel a' (Some (lo, r)) (to_stack ((l, hi) :: segs))) as ->.
  { rewrite <- (dist_thresh n r lo), <- (dist_thresh n hi l) by lia.
    assert (to_stack segs <> []) by (unfold to_stack; by destruct segs).
    destruct (to_stack segs) as [|t rest] eqn:Est; [done|].
    simpl. rewrite E1. simpl. rewrite E2. simpl.
    repeat case_match; try done; rewrite <- Est, push_ok by done; done. }
  destruct (Z.leb_spec (r - lo) MAX_THRESH), (Z.leb_spec (hi - l) MAX_THRESH);
    [|apply Hgo, (Hstep [(l, hi)]); right; left; auto
     |apply Hgo, (Hstep [(lo, r)]); right; right; left; auto|].
  - destruct (Hstep []) as [Hp' Hc']; [by left|]. destruct segs as [|c' segs'].
    + simpl. exists a'. destruct Hp' as [_ _ _ (r0 & Hs & Hlm)]. inversion Hlm; subst.
      exists r0. split_and!; auto; try (apply (within_perm _ _ _ _ Hw)).
      by destruct fuel.
    + by apply Hgo.
  - destruct (Z.ltb_spec (hi - l) (r - lo)).
    + apply Hgo, (Hstep [(l, hi); (lo, r)]). right; right; right; left. auto.
    + apply Hgo, (Hstep [(lo, r); (l, hi)]). right; right; right; right. auto.
Qed.

Lemma quick_phase_ok a :
  0 < zlen a -> zlen a < 2 ^ 60 ->
  exists a' r, quick_phase before size a (zlen a) = Ok a' /\
    a ≡ₚ a' /\ sep a' r /\ r <= MAX_THRESH.
Proof.
  intros Hpos Hn. assert (sep a (zlen a - 1)) as Hsep.
  { split; [lia|]. intros i j x y _ Hj _ Hy%zlookup_Some_range. lia. }
  unfold quick_phase. destruct (Z.ltb_spec MAX_THRESH (zlen a)).
  - simpl. apply (quick_loop_ok _ (zlen a) a (0, zlen a - 1) []); [done| |].
    + split; [done| | |exists (zlen a - 1); split; [done|by apply lm_here]].
      * repeat constructor; unfold MAX_THRESH in *; simpl; lia.
      * simpl. unfold seg_size. simpl. split; [|done]. rewrite Z.mul_1_r. lia.
    + simpl. unfold seg_size, zlen. simpl. lia.
  - exists a, (zlen a - 1). unfold MAX_THRESH in *. split_and!; auto; lia.
Qed.
(** ** The insertion phase *)

Lemma min_loop_ok n a run tmp t :
  0 <= tmp < run -> run + Z.of_nat n <= zlen a -> a !z tmp = Some t ->
  (forall k x, 0 <= k < run -> a !z k = Some x -> le_ord t x) ->
  exists tmp' t', min_loop before n a run tmp = Ok tmp' /\ a !z tmp' = Some t' /\
    0 <= tmp' < run + Z.of_nat n /\
    forall k x, 0 <= k < run + Z.of_nat n -> a !z k = Some x -> le_ord t' x.
Proof.
  revert run tmp t. induction n as [|n IH]; intros run tmp t Htmp Hn Et Hle; simpl.
  { exists tmp, t. split_and!; auto; try lia. intros k x Hk. apply Hle. lia. }
  destruct (zlookup_is_Some a run) as (r & Er); [lia|].
  rewrite (rd_Some _ _ _ Er), (rd_Some _ _ _ Et). simpl.
  assert (exists tmp1 t1, (if before r t then run else tmp) = tmp1 /\ a !z tmp1 = Some t1 /\
    0 <= tmp1 < run + 1 /\ le_ord t1 r /\ le_ord t1 t) as (tmp1 & t1 & -> & Et1 & ? & ? & ?).
  { destruct (before r t) eqn:E.
    - exists run, r. split_and!; auto; try lia; [reflexivity|by apply le_ord_total].
    - exists tmp, t. split_and!; auto; try lia. reflexivity. }
  destruct (IH (run + 1) tmp1 t1) as (tmp' & t' & -> & ? & ? & Hmin); auto; try lia.
  { intros k x Hk Hx. destruct (decide (k = run)) as [->|]; [by simplify_eq|].
    transitivity t; [done|]. apply (Hle k); auto; lia. }
  exists tmp', t'. split_and!; auto; try lia. intros k x Hk. apply Hmin. lia.
Qed.

Lemma ins_scan_ok fuel a run tmp x y :
  a !z run = Some x -> 0 <= tmp < zlen a -> a !z 0 = Some y -> le_ord y x ->
  tmp <= Z.of_nat fuel ->
  exists t z, ins_scan before fuel a run tmp = Ok t /\ 0 <= t <= tmp /\
    a !z t = Some z /\ le_ord z x /\
    (forall k w, t < k <= tmp -> a !z k = Some w -> le_ord x w).
Proof.
  intros Ex Htmp Ey Hyx. revert tmp Htmp. induction fuel as [|fuel IH]; intros tmp Htmp Hf;
    destruct (zlookup_is_Some a tmp) as (z & Ez); try lia; simpl;
    rewrite (rd_Some _ _ _ Ex); simpl; rewrite (rd_Some _ _ _ Ez); simpl;
    destruct (before x z) eqn:E.
  - assert (tmp = 0) as -> by lia. unfold le_ord in Hyx. congruence.
  - exists tmp, z. split_and!; auto; lia.
  - assert (tmp <> 0) by (intros ->; unfold le_ord in Hyx; congruence).
    destruct (IH (tmp - 1)) as (t & w & -> & ? & Ew & ? & Hk); [lia..|].
    exists t, w. split_and!; auto; try lia. intros k v Hkt Hv.
    destruct (decide (k = tmp)) as [->|]; [|apply (Hk k); auto; lia].
    simplify_eq. by apply le_ord_total.
  - exists tmp, z. split_and!; auto; lia.
Qed.

Lemma shift_loop_ok (s1 s2 t : list A) g :
  exists h, shift_loop (length s2) (s1 ++ s2 ++ g :: t) (zlen (s1 ++ s2)) =
    Ok (s1 ++ h :: s2 ++ t).
Proof.
  revert g t. induction s2 as [|z s2 IH] using rev_ind; intros g t; [exists g; done|].
  rewrite length_app, Nat.add_comm. simpl.
  replace (zlen (s1 ++ s2 ++ [z]) - 1) with (zlen (s1 ++ s2))
    by (rewrite !zlen_app; unfold zlen; simpl; lia).
  replace (s1 ++ (s2 ++ [z]) ++ g :: t) with ((s1 ++ s2) ++ z :: g :: t)
    by (by rewrite <- !app_assoc).
  rewrite rd_middle. simpl.
  replace ((s1 ++ s2) ++ z :: g :: t) with ((s1 ++ s2 ++ [z]) ++ g :: t)
    by (by rewrite <- !app_assoc).
  rewrite wr_middle. simpl.
  destruct (IH z (z :: t)) as (h & Hh). exists h.
  rewrite <- !app_assoc. simpl. exact Hh.
Qed.

Lemma rotate_ok (s1 s2 r : list A) x :
  rotate (s1 ++ s2 ++ x :: r) (zlen s1) (zlen (s1 ++ s2)) = Ok (s1 ++ x :: s2 ++ r).
Proof.
  unfold rotate. rewrite app_assoc, rd_middle. simpl.
  replace (Z.to_nat (zlen (s1 ++ s2) - zlen s1)) with (length s2)
    by (rewrite zlen_app; unfold zlen; lia).
  destruct (shift_loop_ok s1 s2 r x) as (h & Hh). rewrite <- app_assoc, Hh. simpl.
  by rewrite wr_middle.
Qed.

Lemma SSorted_insert (s1 s2 : list A) x :
  StronglySorted le_ord (s1 ++ s2) -> Forall (fun z => le_ord z x) s1 ->
  Forall (le_ord x) s2 -> StronglySorted le_ord (s1 ++ x :: s2).
Proof.
  induction s1 as [|z s1 IH]; simpl; intros Hs H1 H2.
  { by constructor. }
  apply StronglySorted_inv in Hs as [Hs Hz]. apply Forall_cons in H1 as [Hzx H1].
  constructor; [by apply IH|]. rewrite !Forall_app, Forall_cons in *. tauto.
Qed.

(** One insertion: the sorted prefix [s] grows by the element after it. *)
Lemma ins_step_ok (s r : list A) m x :
  StronglySorted le_ord (m :: s) -> le_ord m x ->
  exists s1 s2 z, m :: s = s1 ++ s2 /\ s1 <> [] /\
    StronglySorted le_ord (s1 ++ x :: s2) /\
    ins_scan before z (m :: s ++ x :: r) (zlen (m :: s)) (zlen (m :: s) - 1)
      = Ok (zlen s1 - 1) /\ z = length (m :: s ++ x :: r).
Proof.
  intros Hs Hmx. set (a := m :: s ++ x :: r).
  assert (a = (m :: s) ++ x :: r) as Ea by done.
  pose proof (zlen_nonneg s).
  destruct (ins_scan_ok (length a) a (zlen (m :: s)) (zlen (m :: s) - 1) x m)
    as (t & z & Hscan & Ht & Ez & Hzx & Hgt).
  { apply rd_Ok. rewrite Ea. apply rd_middle. }
  { rewrite Ea, zlen_app, !zlen_cons. pose proof (zlen_nonneg r). lia. }
  { done. } { done. }
  { rewrite Ea. unfold zlen. rewrite length_app. simpl. lia. }
  assert (forall k, 0 <= k < zlen (m :: s) -> a !z k = (m :: s) !z k) as Hpre.
  { intros k Hk. unfold zlen in Hk. rewrite !zlookup_to_nat, Ea by lia.
    apply lookup_app_l. lia. }
  rewrite Hpre in Ez by lia.
  exists (take (Z.to_nat (t + 1)) (m :: s)), (drop (Z.to_nat (t + 1)) (m :: s)), (length a).
  assert (zlen (take (Z.to_nat (t + 1)) (m :: s)) = t + 1) as El.
  { unfold zlen in *. rewrite length_take. lia. }
  split_and!; [by rewrite take_drop| | | |done].
  - intros E. rewrite E in El. unfold zlen in El. simpl in El. lia.
  - apply SSorted_insert; [by rewrite take_drop| |].
    + apply Forall_lookup. intros k w Hk. apply lookup_take_Some in Hk as [Hw Hk].
      transitivity z; [|done]. rewrite <- zlookup_nat in Hw.
      destruct (decide (Z.of_nat k = t)) as [E|]; [rewrite E in Hw; by simplify_eq|].
      apply (proj1 (SSorted_zlookup _ _) Hs (Z.of_nat k) t); auto; lia.
    + apply Forall_lookup. intros k w Hk. rewrite lookup_drop, <- zlookup_nat in Hk.
      pose proof (zlookup_Some_range _ _ _ Hk).
      apply (Hgt (Z.of_nat (Z.to_nat (t + 1) + k))); [lia|]. by rewrite Hpre.
  - rewrite El. replace (t + 1 - 1) with t by lia. done.
Qed.

Lemma ins_loop_ok (r s : list A) m :
  StronglySorted le_ord (m :: s) -> Forall (le_ord m) r ->
  exists a', ins_loop before (length r) (m :: s ++ r) (zlen (m :: s)) = Ok a' /\
    m :: s ++ r ≡ₚ a' /\ StronglySorted le_ord a'.
Proof.
  revert s. induction r as [|x r IH]; intros s Hs Hr; simpl.
  { exists (m :: s). rewrite app_nil_r. split_and!; auto. }
  apply Forall_cons in Hr as [Hmx Hr].
  destruct (ins_step_ok s r m x Hs Hmx) as (s1 & s2 & z & E & Hne & Hs' & Hscan & ->).
  simpl in Hscan. rewrite Hscan. simpl. replace (zlen s1 - 1 + 1) with (zlen s1) by lia.
  destruct s1 as [|m' s1]; [done|]. injection E as <- ->.
  assert ((if negb (zlen (m :: s1) =? zlen (m :: s1 ++ s2))
           then rotate (m :: (s1 ++ s2) ++ x :: r) (zlen (m :: s1)) (zlen (m :: s1 ++ s2))
           else Ok (m :: (s1 ++ s2) ++ x :: r)) = Ok (m :: (s1 ++ x :: s2) ++ r)) as ->.
  { replace (m :: (s1 ++ s2) ++ x :: r) with ((m :: s1) ++ s2 ++ x :: r)
      by (simpl; by rewrite <- app_assoc).
    replace (m :: (s1 ++ x :: s2) ++ r) with ((m :: s1) ++ x :: s2 ++ r)
      by (simpl; by rewrite <- app_assoc).
    destruct (Z.eqb_spec (zlen (m :: s1)) (zlen (m :: s1 ++ s2))) as [El|_];
      [|exact (rotate_ok (m :: s1) s2 r x)].
    rewrite !zlen_cons, zlen_app in El. destruct s2; [done|].
    rewrite zlen_cons in El. pose proof (zlen_nonneg s2). lia. }
  simpl. destruct (IH (s1 ++ x :: s2) Hs' Hr) as (a' & Ha' & Hp & Hsort).
  exists a'. split_and!; auto.
  - rewrite <- Ha'. f_equal. rewrite !zlen_cons, !zlen_app, !zlen_cons. lia.
  - rewrite <- Hp. f_equiv. rewrite <- !app_assoc. f_equiv. simpl. by rewrite Permutation_middle.
Qed.
(** The smallest of the first [MAX_THRESH + 1] elements goes to the front. *)
Lemma min_first_ok a r :
  0 < zlen a -> sep a r -> r <= MAX_THRESH ->
  exists tmp m rest,
    min_loop before (Z.to_nat (Z.min (zlen a - 1) MAX_THRESH)) a 1 0 = Ok tmp /\
    (if negb (tmp =? 0) then swap a tmp 0 else Ok a) = Ok (m :: rest) /\
    a ≡ₚ m :: rest /\ Forall (le_ord m) rest.
Proof.
  intros Hpos [Hr Hsep] Hr4. unfold MAX_THRESH in *.
  destruct (zlookup_is_Some a 0) as (f & Ef); [lia|].
  destruct (min_loop_ok (Z.to_nat (Z.min (zlen a - 1) 4)) a 1 0 f)
    as (tmp & m & Hmin & Em & Htmp & Hle); [lia..|done| |].
  { intros k x Hk Ex. assert (k = 0) as -> by lia. simplify_eq. reflexivity. }
  rewrite Hmin. exists tmp, m.
  assert (forall k x, a !z k = Some x -> le_ord m x) as Hall.
  { intros k x Ex. pose proof (zlookup_Some_range _ _ _ Ex).
    destruct (decide (k < 1 + Z.of_nat (Z.to_nat (Z.min (zlen a - 1) 4)))) as [Hk|Hk];
      [apply (Hle k); auto; lia|].
    transitivity f; [apply (Hle 0); auto; lia|]. apply (Hsep 0 k); auto; lia. }
  assert (exists a', (if negb (tmp =? 0) then swap a tmp 0 else Ok a) = Ok a' /\
    a' !z 0 = Some m /\ a ≡ₚ a') as (a' & -> & E0 & Hp).
  { destruct (Z.eqb_spec tmp 0) as [->|Hne]; simpl; [by exists a|].
    destruct (swap_spec a tmp 0 m f Em Ef) as (a' & ? & _ & ? & _ & ?). by exists a'. }
  destruct a' as [|m' rest]; [done|]. injection E0 as ->.
  exists rest. split_and!; auto. apply Forall_forall. intros x Hx.
  assert (x ∈ a) as Hin by (rewrite Hp; by right).
  apply list_elem_of_lookup in Hin as (k & Hk). apply (Hall (Z.of_nat k)).
  by rewrite zlookup_nat.
Qed.

Lemma insertion_phase_ok a r :
  0 < zlen a -> sep a r -> r <= MAX_THRESH ->
  exists a', insertion_phase before a (zlen a) = Ok a' /\ a ≡ₚ a' /\
    StronglySorted le_ord a'.
Proof.
  intros Hpos Hsep Hr. unfold insertion_phase.
  destruct (min_first_ok a r Hpos Hsep Hr) as (tmp & m & rest & -> & E & Hp & Hall).
  simpl. rewrite E. simpl. assert (zlen a = zlen (m :: rest)) as El
    by (unfold zlen; by rewrite Hp).
  destruct rest as [|y rest].
  { exists [m]. rewrite El. split_and!; auto. repeat constructor. }
  pose proof Hall as [Hy Hrest]%Forall_cons.
  destruct (ins_loop_ok rest [y] m) as (a' & Ha' & Hp' & Hs'); auto.
  { repeat constructor. done. }
  exists a'. split_and!; auto; [|by rewrite Hp].
  rewrite El. replace (Z.to_nat (zlen (m :: y :: rest) - 1 - 1)) with (length rest)
    by (rewrite !zlen_cons; unfold zlen; lia). exact Ha'.
Qed.

(** The routine ends, within its stack and its array, with a sorted
    rearrangement of its input. *)
Lemma qsort_ok a :
  zlen a < 2 ^ 60 ->
  exists a', qsort before size a (zlen a) = Ok a' /\ a ≡ₚ a' /\ StronglySorted le_ord a'.
Proof.
  intros Hn. unfold qsort. destruct (Z.eqb_spec (zlen a) 0) as [E|Hne].
  { exists a. destruct a; [|unfold zlen in E; simpl in E; lia].
    split_and!; auto. constructor. }
  pose proof (zlen_nonneg a).
  destruct (quick_phase_ok a) as (a1 & r & -> & Hp1 & Hsep & Hr); [lia..|]. simpl.
  assert (zlen a = zlen a1) as -> by (unfold zlen; by rewrite Hp1).
  destruct (insertion_phase_ok a1 r) as (a' & -> & Hp2 & Hs); auto.
  { unfold zlen in *. rewrite <- Hp1. lia. }
  exists a'. split_and!; auto. by rewrite Hp1.
Qed.
End correctness.

(** ** The instances *)

Lemma SSorted_impl {A} (R S : A -> A -> Prop) l :
  (forall x y, R x y -> S x y) -> StronglySorted R l -> StronglySorted S l.
Proof.
  intros H. induction 1 as [|x l Hs IH Hall]; constructor; auto.
  eapply Forall_impl; [exact Hall|auto].
Qed.

Lemma SSorted_fmap {A B} (f : A -> B) (R : B -> B -> Prop) l :
  StronglySorted (fun x y => R (f x) (f y)) l -> StronglySorted R (f <$> l).
Proof. induction 1; simpl; constructor; auto. by apply Forall_fmap. Qed.

Lemma qsort_Z_ok before `{!WeakOrder before} size (R : Z -> Z -> Prop) (a : list Z) :
  (forall x y, le_ord before x y -> R x y) -> 0 < size <= 8 -> zlen a < 2 ^ 60 ->
  exists a', qsort before size a (zlen a) = Ok a' /\ a ≡ₚ a' /\ StronglySorted R a'.
Proof.
  intros HR Hsize Hn. destruct (qsort_ok before size Hsize a Hn) as (a' & ? & ? & Hs).
  exists a'. split_and!; auto. eapply SSorted_impl; [|exact Hs]. auto.
Qed.

Lemma qsort_asc_I4_ok a :
  zlen a < 2 ^ 60 ->
  exists a', qsort_asc_I4 a (zlen a) 4 = Ok a' /\ a ≡ₚ a' /\ StronglySorted Z.le a'.
Proof.
  intros Hn. unfold qsort_asc_I4. simpl. apply qsort_Z_ok; [apply _| |lia|exact Hn].
  unfold le_ord. intros. lia.
Qed.

(** What [sort_with_idx] promises: the values come out in the order [R], and
    every value keeps the index that accompanied it. *)
Definition sorts_pairs (R : Z -> Z -> Prop) (max : Z)
    (sort : list Z -> list Z -> Z -> res (list Z * list Z)) : Prop :=
  forall srt_ordr vals,
    length srt_ordr = length vals -> zlen vals <= max ->
    exists ordr' vals', sort srt_ordr vals (zlen vals) = Ok (ordr', vals') /\
      zip vals srt_ordr ≡ₚ zip vals' ordr' /\ length ordr' = length vals' /\
      StronglySorted R vals'.

Lemma sort_with_idx_ok before `{!WeakOrder before} size w (R : Z -> Z -> Prop) max :
  0 < size <= 8 -> max <= 2 ^ (w - 1) -> max < 2 ^ 60 ->
  (forall x y, le_ord before x y -> R x.1 y.1) ->
  sorts_pairs R max (sort_with_idx before size w).
Proof.
  intros Hsize Hw Hmax HR srt vals Hlen Hn. unfold sort_with_idx.
  rewrite (proj2 (Z.ltb_ge _ _)) by lia.
  assert (zlen vals = zlen (zip vals srt)) as E.
  { unfold zlen. rewrite length_zip. lia. }
  destruct (qsort_ok before size Hsize (zip vals srt)) as (a & Ha & Hp & Hs); [lia|].
  rewrite E, Ha. simpl. eexists _, _; split; [done|]. split_and!.
  - rewrite Hp. by rewrite zip_fst_snd.
  - by rewrite !length_fmap.
  - apply SSorted_fmap. eapply SSorted_impl; [|exact Hs]. auto.
Qed.

(** Claim C1. The four single-array sorting kernels [qsort_asc_I4],
    [qsort_asc_I8], [qsort_dsc_I4] and [qsort_dsc_I8], called with the size of
    their element type, return on every array of fewer than [2^60] elements,
    without leaving the array or overflowing the 64 entries of the stack of
    partitions, and leave a rearrangement of the input that is ascending
    (resp. descending). *)
Theorem qsort_correct (a : list Z) :
  zlen a < 2 ^ 60 ->
  (exists a', qsort_asc_I4 a (zlen a) 4 = Ok a' /\ a ≡ₚ a' /\ StronglySorted Z.le a') /\
  (exists a', qsort_asc_I8 a (zlen a) 8 = Ok a' /\ a ≡ₚ a' /\ StronglySorted Z.le a') /\
  (exists a', qsort_dsc_I4 a (zlen a) 4 = Ok a' /\ a ≡ₚ a' /\ StronglySorted Z.ge a') /\
  (exists a', qsort_dsc_I8 a (zlen a) 8 = Ok a' /\ a ≡ₚ a' /\ StronglySorted Z.ge a').
Proof.
  intros Hn. unfold qsort_asc_I4, qsort_asc_I8, qsort_dsc_I4, qsort_dsc_I8. simpl.
  split_and!; (apply qsort_Z_ok; [apply _| |lia|exact Hn]); unfold le_ord; intros; lia.
Qed.

Lemma qsort_correct_witness :
  exists a', qsort_asc_I4 [3; 1; 2] 3 4 = Ok a' /\ [3; 1; 2] ≡ₚ a' /\ StronglySorted Z.le a'.
Proof. apply (qsort_correct [3; 1; 2]). reflexivity. Defined.

(** The eight kernels that sort a value array together with its
    [srt_ordr] array return on all arrays of equal length, up to [2^31]
    elements for 4-byte indices and [2^59] for 8-byte indices; the values come
    out ascending (resp. descending) and the pairs of value and index are
    those of the input, rearranged. *)
Theorem qsort_val_idx_correct :
  sorts_pairs Z.le (2 ^ 31) qsort_asc_val_I4_idx_I4 /\
  sorts_pairs Z.le (2 ^ 59) qsort_asc_val_I4_idx_I8 /\
  sorts_pairs Z.le (2 ^ 31) qsort_asc_val_I8_idx_I4 /\
  sorts_pairs Z.le (2 ^ 59) qsort_asc_val_I8_idx_I8 /\
  sorts_pairs Z.ge (2 ^ 31) qsort_dsc_val_I4_idx_I4 /\
  sorts_pairs Z.ge (2 ^ 59) qsort_dsc_val_I4_idx_I8 /\
  sorts_pairs Z.ge (2 ^ 31) qsort_dsc_val_I8_idx_I4 /\
  sorts_pairs Z.ge (2 ^ 59) qsort_dsc_val_I8_idx_I8.
Proof.
  split_and!; (apply sort_with_idx_ok; [apply _|lia|simpl; lia|lia|]);
    unfold le_ord, val_lt, val_gt; intros; lia.
Qed.

Lemma qsort_val_idx_correct_witness :
  exists ordr vals, qsort_asc_val_I4_idx_I4 [10; 11; 12] [3; 1; 2] 3 = Ok (ordr, vals) /\
    zip [3; 1; 2] [10; 11; 12] ≡ₚ zip vals ordr /\ StronglySorted Z.le vals.
Proof.
  destruct (proj1 qsort_val_idx_correct [10; 11; 12] [3; 1; 2]) as (o & v & E & Hp & _ & Hs);
    [reflexivity|done|]. exists o, v. split; [exact E|]. split; [exact Hp|exact Hs].
Defined.

End Qsort.
