(* ===== verification/Hash.v ===== *)
(** * String hashing.

    Models src/src/dir_utils/md5c.c (the message digest), the functions
    [my_MDString] and [my_MDPrint] of mddriver.c, mix.c and hash_string.c.
    The catalog uses [hash_string_UI4] to choose where a search for a name
    starts.

    md5global.h declares [UINT4], "a four byte word", as [unsigned long int];
    the word width [w] is therefore a parameter here: the program runs with
    [w = 64], and with [w = 32] the same code is the digest of RFC 1321. *)

From stdpp Require Import prelude strings.
From Stdlib Require Import ZArith Lia.
From S2P Require Import Prelude.

(** The bytes of a C string without its final NUL. *)
Definition bytes_of (s : string) : list Z :=
  (fun c => Z.of_nat (Ascii.nat_of_ascii c)) <$> String.list_ascii_of_string s.

Module MD5.

Section width.
Context (w : Z).

Definition uadd (x y : Z) : Z := wrapU w (x + y).
Definition unot (x : Z) : Z := 2 ^ w - 1 - x.
Definition ushl (x n : Z) : Z := wrapU w (Z.shiftl x n).

Definition F (x y z : Z) : Z := Z.lor (Z.land x y) (Z.land (unot x) z).
Definition G (x y z : Z) : Z := Z.lor (Z.land x z) (Z.land y (unot z)).
Definition H (x y z : Z) : Z := Z.lxor (Z.lxor x y) z.
Definition I (x y z : Z) : Z := Z.lxor y (Z.lor x (unot z)).

Definition ROTATE_LEFT (x n : Z) : Z := Z.lor (ushl x n) (Z.shiftr x (32 - n)).

(** The macros FF, GG, HH and II: the new value of their first argument. *)
Definition round (f : Z -> Z -> Z -> Z) (a b c d x s ac : Z) : Z :=
  let a := uadd a (uadd (uadd (f b c d) x) (wrapU w ac)) in
  let a := ROTATE_LEFT a s in
  uadd a b.

(** One line of [MD5Transform]: the index into [x], the shift, the constant. *)
Definition step : Type := Z * Z * Z.

Definition round1 : list step :=
  [(0, 7, 0xd76aa478); (1, 12, 0xe8c7b756); (2, 17, 0x242070db); (3, 22, 0xc1bdceee);
   (4, 7, 0xf57c0faf); (5, 12, 0x4787c62a); (6, 17, 0xa8304613); (7, 22, 0xfd469501);
   (8, 7, 0x698098d8); (9, 12, 0x8b44f7af); (10, 17, 0xffff5bb1); (11, 22, 0x895cd7be);
   (12, 7, 0x6b901122); (13, 12, 0xfd987193); (14, 17, 0xa679438e); (15, 22, 0x49b40821)].
Definition round2 : list step :=
  [(1, 5, 0xf61e2562); (6, 9, 0xc040b340); (11, 14, 0x265e5a51); (0, 20, 0xe9b6c7aa);
   (5, 5, 0xd62f105d); (10, 9, 0x2441453); (15, 14, 0xd8a1e681); (4, 20, 0xe7d3fbc8);
   (9, 5, 0x21e1cde6); (14, 9, 0xc33707d6); (3, 14, 0xf4d50d87); (8, 20, 0x455a14ed);
   (13, 5, 0xa9e3e905); (2, 9, 0xfcefa3f8); (7, 14, 0x676f02d9); (12, 20, 0x8d2a4c8a)].
Definition round3 : list step :=
  [(5, 4, 0xfffa3942); (8, 11, 0x8771f681); (11, 16, 0x6d9d6122); (14, 23, 0xfde5380c);
   (1, 4, 0xa4beea44); (4, 11, 0x4bdecfa9); (7, 16, 0xf6bb4b60); (10, 23, 0xbebfbc70);
   (13, 4, 0x289b7ec6); (0, 11, 0xeaa127fa); (3, 16, 0xd4ef3085); (6, 23, 0x4881d05);
   (9, 4, 0xd9d4d039); (12, 11, 0xe6db99e5); (15, 16, 0x1fa27cf8); (2, 23, 0xc4ac5665)].
Definition round4 : list step :=
  [(0, 6, 0xf4292244); (7, 10, 0x432aff97); (14, 15, 0xab9423a7); (5, 21, 0xfc93a039);
   (12, 6, 0x655b59c3); (3, 10, 0x8f0ccc92); (10, 15, 0xffeff47d); (1, 21, 0x85845dd1);
   (8, 6, 0x6fa87e4f); (15, 10, 0xfe2ce6e0); (6, 15, 0xa3014314); (13, 21, 0x4e0811a1);
   (4, 6, 0xf7537e82); (11, 10, 0xbd3af235); (2, 15, 0x2ad7d2bb); (9, 21, 0xeb86d391)].

Definition regs : Type := Z * Z * Z * Z.

(** Successive lines name their registers [a b c d], [d a b c], [c d a b],
    [b c d a]: after each line the roles rotate. *)
Fixpoint run_round (f : Z -> Z -> Z -> Z) (x : list Z) (l : list step) (r : regs) : regs :=
  match l with
  | [] => r
  | (k, s, ac) :: l =>
      let '(a, b, c, d) := r in
      run_round f x l (d, round f a b c d (default 0 (x !z k)) s ac, b, c)
  end.

Fixpoint Decode (input : list Z) : list Z :=
  match input with
  | b0 :: b1 :: b2 :: b3 :: input =>
      Z.lor (Z.lor (Z.lor b0 (Z.shiftl b1 8)) (Z.shiftl b2 16)) (Z.shiftl b3 24)
      :: Decode input
  | _ => []
  end.

Definition Encode1 (x : Z) : list Z :=
  [Z.land x 0xff; Z.land (Z.shiftr x 8) 0xff; Z.land (Z.shiftr x 16) 0xff;
   Z.land (Z.shiftr x 24) 0xff].
Definition Encode (input : list Z) : list Z := input ≫= Encode1.

Definition MD5Transform (state : regs) (block : list Z) : regs :=
  let x := Decode block in
  let r := run_round F x round1 state in
  let r := run_round G x round2 r in
  let r := run_round H x round3 r in
  let '(a, b, c, d) := run_round I x round4 r in
  let '(s0, s1, s2, s3) := state in
  (uadd s0 a, uadd s1 b, uadd s2 c, uadd s3 d).

(** The context; [cx_buffer] is the part of the 64-byte buffer that holds
    input, so that its length is the [index] of [MD5Update]. *)
Record MD5_CTX := {
  cx_state : regs;
  cx_count0 : Z;
  cx_count1 : Z;
  cx_buffer : list Z
}.

Definition MD5Init : MD5_CTX :=
  {| cx_state := (0x67452301, 0xefcdab89, 0x98badcfe, 0x10325476);
     cx_count0 := 0; cx_count1 := 0; cx_buffer := [] |}.

(** [for (i = partLen; i + 63 < inputLen; i += 64)]; [rest] is the input from
    [i] on.  Yields the state and what is left to buffer. *)
Fixpoint blocks (fuel : nat) (state : regs) (rest : list Z) : regs * list Z :=
  match fuel with
  | O => (state, rest)
  | S fuel =>
      if 63 <? zlen rest
      then blocks fuel (MD5Transform state (take 64 rest)) (drop 64 rest)
      else (state, rest)
  end.

Definition MD5Update (ctx : MD5_CTX) (input : list Z) : MD5_CTX :=
  let inputLen := zlen input in
  let index := Z.land (Z.shiftr (cx_count0 ctx) 3) 0x3f in
  let bits := wrapU w (Z.shiftl inputLen 3) in
  let count0 := wrapU w (cx_count0 ctx + bits) in
  let count1 := if count0 <? bits then wrapU w (cx_count1 ctx + 1) else cx_count1 ctx in
  let count1 := wrapU w (count1 + Z.shiftr inputLen 29) in
  let partLen := 64 - index in
  let '(state, buffer) :=
    if partLen <=? inputLen then
      let block := take (Z.to_nat index) (cx_buffer ctx) ++ take (Z.to_nat partLen) input in
      blocks (length input) (MD5Transform (cx_state ctx) block) (drop (Z.to_nat partLen) input)
    else (cx_state ctx, take (Z.to_nat index) (cx_buffer ctx) ++ input) in
  {| cx_state := state; cx_count0 := count0; cx_count1 := count1; cx_buffer := buffer |}.

Definition PADDING : list Z := 0x80 :: replicate 63 0.

Definition MD5Final (ctx : MD5_CTX) : list Z :=
  let bits := Encode [cx_count0 ctx; cx_count1 ctx] in
  let index := Z.land (Z.shiftr (cx_count0 ctx) 3) 0x3f in
  let padLen := if index <? 56 then 56 - index else 120 - index in
  let ctx := MD5Update ctx (take (Z.to_nat padLen) PADDING) in
  let ctx := MD5Update ctx bits in
  let '(a, b, c, d) := cx_state ctx in
  Encode [a; b; c; d].

(** [sprintf(stemp, "%02x", digest[i])] *)
Definition hex_digit (n : Z) : Z := if n <? 10 then 48 + n else 87 + n.
Definition my_MDPrint (digest : list Z) : list Z :=
  digest ≫= fun b => [hex_digit (b / 16); hex_digit (b mod 16)].

Definition my_MDString (in_string : list Z) : list Z :=
  my_MDPrint (MD5Final (MD5Update MD5Init in_string)).

(** ** The digest does not depend on how the input is cut into pieces *)

(** Feeding whole blocks from the front of [l]; what is left over. *)
Definition absorb (state : regs) (l : list Z) : regs * list Z := blocks (length l) state l.

Lemma blocks_fuel fuel state l :
  (length l <= fuel)%nat -> blocks fuel state l = absorb state l.
Proof.
  unfold absorb. revert state l. induction fuel as [fuel IH] using lt_wf_ind.
  intros state l Hl. destruct fuel as [|fuel]; [by destruct l; simpl in *; [|lia]|].
  destruct l as [|x l]; [done|]. cbn [blocks length].
  destruct (Z.ltb_spec 63 (zlen (x :: l))) as [Hlt|]; [|done].
  assert (length (drop 64 (x :: l)) <= length l)%nat as Hd.
  { rewrite length_drop. unfold zlen in *. simpl in *. lia. }
  simpl in Hl. rewrite (IH fuel), (IH (length l)); auto with lia.
Qed.

Lemma absorb_small state l : zlen l < 64 -> absorb state l = (state, l).
Proof.
  intros Hl. unfold absorb. destruct l as [|x l]; [done|]. cbn [blocks length].
  by rewrite (proj2 (Z.ltb_ge _ _)) by lia.
Qed.

Lemma absorb_block state blk l :
  length blk = 64%nat -> absorb state (blk ++ l) = absorb (MD5Transform state blk) l.
Proof.
  intros Hb. unfold absorb at 1.
  destruct (length (blk ++ l)) as [|n] eqn:E; [rewrite length_app in E; lia|]. simpl.
  rewrite (proj2 (Z.ltb_lt _ _)) by (unfold zlen; rewrite E; rewrite length_app in E; lia).
  rewrite take_app_length', drop_app_length' by done.
  apply blocks_fuel. rewrite length_app in E. lia.
Qed.

Lemma absorb_app state l1 l2 :
  absorb state (l1 ++ l2) =
    let '(state', rest) := absorb state l1 in absorb state' (rest ++ l2).
Proof.
  remember (length l1) as n eqn:En. revert state l1 En.
  induction n as [n IH] using lt_wf_ind. intros state l1 ->.
  destruct (Z.ltb_spec (zlen l1) 64) as [Hs|Hb].
  { by rewrite (absorb_small state l1) by done. }
  assert (length (take 64 l1) = 64%nat) by (rewrite length_take; unfold zlen in *; lia).
  assert (length (drop 64 l1) < length l1)%nat
    by (rewrite length_drop; unfold zlen in *; lia).
  rewrite <- (take_drop 64 l1). rewrite <- app_assoc.
  rewrite (absorb_block state (take 64 l1) (drop 64 l1 ++ l2)) by done.
  rewrite (absorb_block state (take 64 l1) (drop 64 l1)) by done.
  by apply (IH (length (drop 64 l1))).
Qed.

Lemma absorb_rest_length state l :
  zlen (absorb state l).2 = zlen l mod 64.
Proof.
  remember (length l) as n eqn:En. revert state l En.
  induction n as [n IH] using lt_wf_ind. intros state l ->.
  destruct (Z.ltb_spec (zlen l) 64) as [Hs|Hb].
  { rewrite absorb_small by done. simpl. pose proof (zlen_nonneg l).
    by rewrite Z.mod_small by lia. }
  assert (length (take 64 l) = 64%nat) by (rewrite length_take; unfold zlen in *; lia).
  assert (length (drop 64 l) < length l)%nat by (rewrite length_drop; unfold zlen in *; lia).
  rewrite <- (take_drop 64 l). rewrite absorb_block by done.
  rewrite (IH (length (drop 64 l))) by done. rewrite zlen_app.
  unfold zlen at 2. replace (Z.of_nat (length (take 64 l))) with (1 * 64) by lia.
  rewrite Z.add_comm, Z_mod_plus_full. done.
Qed.

(** [ctx] has taken in [n] bytes: fewer than [2^29], so that the bit count
    fits the first counter. *)
Record fed (ctx : MD5_CTX) (n : Z) : Prop := {
  fed_count0 : cx_count0 ctx = 8 * n;
  fed_count1 : cx_count1 ctx = 0;
  fed_buffer : zlen (cx_buffer ctx) = n mod 64
}.

Lemma index_mod n : 0 <= n -> Z.land (Z.shiftr (8 * n) 3) 0x3f = n mod 64.
Proof.
  intros Hn. change 0x3f with (Z.ones 6). rewrite Z.land_ones, Z.shiftr_div_pow2 by lia.
  f_equal. change (2 ^ 3) with 8. rewrite Z.mul_comm. apply Z.div_mul. lia.
Qed.

(** [MD5Update] absorbs the buffered bytes and the input. *)
Lemma MD5Update_spec ctx n input :
  32 <= w -> 0 <= n -> n + zlen input < 2 ^ 29 -> fed ctx n ->
  let done := absorb (cx_state ctx) (cx_buffer ctx ++ input) in
  MD5Update ctx input =
    {| cx_state := done.1; cx_count0 := 8 * (n + zlen input); cx_count1 := 0;
       cx_buffer := done.2 |}.
Proof.
  intros Hw Hn Hlen [H0 H1 Hb]. pose proof (zlen_nonneg input).
  pose proof (Z.pow_le_mono_r 2 32 w ltac:(lia) Hw).
  unfold MD5Update. rewrite H0, H1, index_mod by done.
  assert (Z.shiftl (zlen input) 3 = 8 * zlen input) as E3
    by (rewrite Z.shiftl_mul_pow2 by lia; lia).
  rewrite E3. rewrite (wrapU_small w (8 * zlen input)) by (split; lia).
  rewrite (wrapU_small w (8 * n + 8 * zlen input)) by (split; lia).
  rewrite (proj2 (Z.ltb_ge _ _)) by lia.
  rewrite (Z.shiftr_div_pow2 (zlen input) 29), (Z.div_small (zlen input)) by lia.
  rewrite wrapU_small by (split; lia).
  assert (take (Z.to_nat (n mod 64)) (cx_buffer ctx) = cx_buffer ctx) as ->
    by (apply take_ge; unfold zlen in *; lia).
  pose proof (Z.mod_pos_bound n 64 ltac:(lia)) as Hm.
  destruct (Z.leb_spec (64 - n mod 64) (zlen input)).
  - assert (cx_buffer ctx ++ input =
      (cx_buffer ctx ++ take (Z.to_nat (64 - n mod 64)) input) ++
      drop (Z.to_nat (64 - n mod 64)) input) as -> by (by rewrite <- app_assoc, take_drop).
    rewrite absorb_block.
    2: { rewrite length_app, length_take. unfold zlen in *. lia. }
    rewrite blocks_fuel by (rewrite length_drop; lia).
    destruct (absorb _ _) as [st rest]. simpl. f_equal. lia.
  - rewrite absorb_small by (rewrite zlen_app; lia). simpl. f_equal. lia.
Qed.

Lemma MD5Init_fed : fed MD5Init 0.
Proof. done. Qed.

Lemma MD5Update_fed ctx n input :
  32 <= w -> 0 <= n -> n + zlen input < 2 ^ 29 -> fed ctx n ->
  fed (MD5Update ctx input) (n + zlen input).
Proof.
  intros Hw Hn Hlen Hfed. pose proof (MD5Update_spec ctx n input Hw Hn Hlen Hfed) as HU.
  pose proof (absorb_rest_length (cx_state ctx) (cx_buffer ctx ++ input)) as Hr.
  simpl in HU. rewrite HU. split; [done|done|]. simpl.
  rewrite Hr, zlen_app, (fed_buffer _ _ Hfed). apply Zplus_mod_idemp_l.
Qed.

(** Claim C40. The digest context after two calls of [MD5Update] is that after
    one call with the concatenated input, so that the digest does not depend
    on how the input is cut into pieces (for inputs of less than [2^29] bytes
    in all, whose bit count fits one counter). *)
Theorem MD5Update_app (ctx : MD5_CTX) (n : Z) (input1 input2 : list Z) :
  32 <= w -> 0 <= n -> fed ctx n -> n + zlen input1 + zlen input2 < 2 ^ 29 ->
  MD5Update (MD5Update ctx input1) input2 = MD5Update ctx (input1 ++ input2).
Proof.
  intros Hw Hn Hfed Hlen. pose proof (zlen_nonneg input1). pose proof (zlen_nonneg input2).
  pose proof (MD5Update_fed ctx n input1 Hw Hn ltac:(lia) Hfed) as Hfed1.
  rewrite (MD5Update_spec (MD5Update ctx input1) (n + zlen input1) input2 Hw ltac:(lia)
    ltac:(lia) Hfed1).
  rewrite (MD5Update_spec ctx n (input1 ++ input2) Hw Hn
    ltac:(rewrite zlen_app; lia) Hfed).
  rewrite (MD5Update_spec ctx n input1 Hw Hn ltac:(lia) Hfed). simpl.
  rewrite app_assoc, (absorb_app (cx_state ctx) (cx_buffer ctx ++ input1)), zlen_app.
  destruct (absorb (cx_state ctx) (cx_buffer ctx ++ input1)) as [st rest]. simpl.
  f_equal. lia.
Qed.
End width.

Lemma MD5Update_app_witness :
  MD5Update 64 (MD5Update 64 MD5Init [97]) [98; 99] = MD5Update 64 MD5Init [97; 98; 99].
Proof.
  apply (MD5Update_app 64 MD5Init 0 [97] [98; 99]); [lia|lia|apply MD5Init_fed|reflexivity].
Defined.

(** The test suite of [MDTestSuite], with the digests of RFC 1321. *)
Definition MDTestSuite : list (string * string) :=
  [("", "d41d8cd98f00b204e9800998ecf8427e");
   ("a", "0cc175b9c0f1b6a831c399e269772661");
   ("abc", "900150983cd24fb0d6963f7d28e17f72");
   ("message digest", "f96b697d7cb7938d525a2f31aaf161d0");
   ("abcdefghijklmnopqrstuvwxyz", "c3fcd3d76192e4007dfb496cca67e13b");
   ("ABCDEFGHIJKLMNOPQRSTUVWXYZabcdefghijklmnopqrstuvwxyz0123456789",
    "d174ab98d277d9f5a5611c2c9f419d9f");
   ("12345678901234567890123456789012345678901234567890123456789012345678901234567890",
    "57edf4a22be3c955ac49da2e2107b67a")]%string.

(** With [UINT4] a word of four bytes, as the comment on its
    declaration says, the code computes the RFC 1321 digest of every string of
    its test suite; with the declared type [unsigned long int], which has
    eight bytes, it computes the RFC digest of none of them: rotations then
    lose no bits and wrap none around. *)
Theorem md5_word_width :
  Forall (fun t => my_MDString 32 (bytes_of t.1) = bytes_of t.2) MDTestSuite /\
  Forall (fun t => my_MDString 64 (bytes_of t.1) <> bytes_of t.2) MDTestSuite.
Proof.
  split; [|by apply (bool_decide_unpack _); vm_compute].
  apply (bool_decide_unpack _). vm_compute. done.
Qed.
End MD5.

Module HashString.
Import MD5.

(** [unsigned long int] has 64 bits. *)
Definition UINT4_width : Z := 64.

Definition mix_I4 (a : Z) : Z :=
  let u := wrapU 32 in
  let a := u (u (a + 0x7ed55d16) + u (Z.shiftl a 12)) in
  let a := Z.lxor (Z.lxor a 0xc761c23c) (Z.shiftr a 19) in
  let a := u (u (a + 0x165667b1) + u (Z.shiftl a 5)) in
  let a := Z.lxor (u (a + 0xd3a2646c)) (u (Z.shiftl a 9)) in
  let a := u (u (a + 0xfd7046c5) + u (Z.shiftl a 3)) in
  Z.lxor (Z.lxor a 0xb55a4f09) (Z.shiftr a 16).

Definition mix_I8 (a : Z) : Z :=
  let i1 := wrapU 32 (Z.shiftr a 32) in
  let i2 := wrapU 32 (Z.shiftr (wrapU 64 (Z.shiftl a 32)) 32) in
  Z.lxor (mix_I4 i1) (mix_I4 i2).

(** Up to 8 characters as one little-endian word; [j] counts the bytes done. *)
Fixpoint pack_word (n : nat) (j : Z) (chars : list Z) : Z :=
  match n, chars with
  | S n, c :: chars => Z.lor (Z.shiftl c (j * 8)) (pack_word n (j + 1) chars)
  | _, _ => 0
  end.

(** [ull[0..15]]: [n] words are left to make. *)
Fixpoint pack_words (n : nat) (chars : list Z) : list Z :=
  match n with
  | O => []
  | S n => pack_word 8 0 chars :: pack_words n (drop 8 chars)
  end.

(** [for (int i = 1; i < 128/8; i++ ) { if ( ull[i] == 0 ) { break; } ... }],
    with [mix] for [mix_I8]. *)
Fixpoint fold_words (mix : Z -> Z) (acc : Z) (l : list Z) : Z :=
  match l with
  | [] => acc
  | x :: l => if x =? 0 then acc else fold_words mix (Z.lxor acc (mix x)) l
  end.

Definition int_hash_string (s : option string) : res Z :=
  match s with
  | None => Err
  | Some s =>
      if bool_decide (s = ""%string) then Ok 0
      else
        match pack_words 16 (my_MDString UINT4_width (bytes_of s)) with
        | [] => Ok 0
        | x :: l => Ok (fold_words mix_I8 x l)
        end
  end.

Definition hash_string_UI4 (s : option string) : res Z :=
  h ← int_hash_string s; Ok (Z.land h 0xFFFFFFFF).
Definition hash_string_UI8 (s : option string) : res Z := int_hash_string s.

(** ** Totality and range *)

Lemma int_hash_string_total s : exists h, int_hash_string (Some s) = Ok h.
Proof.
  unfold int_hash_string. case_bool_decide; [by eexists|].
  destruct (pack_words _ _); by eexists.
Qed.

Lemma hash_string_UI4_total s :
  exists h, hash_string_UI4 (Some s) = Ok h /\ 0 <= h < 2 ^ 32.
Proof.
  unfold hash_string_UI4. destruct (int_hash_string_total s) as (h & ->). simpl.
  eexists; split; [done|]. change 0xFFFFFFFF with (Z.ones 32).
  rewrite Z.land_ones by lia. apply Z.mod_pos_bound. lia.
Qed.
End HashString.
