(* ===== verification/CString.v ===== *)
(** * Character strings.

    The C library functions on strings that the program uses ([strtoll],
    [strstr], [strsep], [isalnum]), and the program's own string routines:
    [stob], [stoi], [read_nth_val], [break_str], [explode],
    [extract_name_value] and [strip_trailing_slash] of
    src/src/dir_utils/auxil.c, [extract_S] of dir_utils/extract_S.c, the name
    checks of dir_dbutils/aux_meta.c and [mk_name_aux_fld] and [chk_aux_info]
    of dir_dbutils/dbauxil.c.

    A C string is a [string] whose characters are not NUL; a pointer that may
    be NULL is an [option string]. *)

From stdpp Require Import prelude strings.
From Stdlib Require Import ZArith Lia Ascii.
From S2P Require Import Prelude.

Abbreviation char := Ascii.ascii.
Notation "c :s s" := (String.String c s) (at level 60, right associativity) : q_scope.

#[local] Arguments String.append !_ _ / : simpl nomatch.

(** ** The C library *)
Definition strlen (s : string) : Z := Z.of_nat (String.length s).
Definition strcmp_eq (a b : string) : bool := bool_decide (a = b).
Definition code (c : char) : Z := Z.of_nat (nat_of_ascii c).
Definition in_range (lo hi : Z) (c : char) : bool := (lo <=? code c) && (code c <=? hi).
Definition isdigit (c : char) : bool := in_range 48 57 c.
Definition isalpha (c : char) : bool := in_range 65 90 c || in_range 97 122 c.
Definition isalnum (c : char) : bool := isalpha c || isdigit c.
Definition isspace (c : char) : bool := in_range 9 13 c || in_range 32 32 c.
Definition is_char (c d : char) : bool := bool_decide (c = d).

(** [( X == NULL ) || ( *X == '\0' )] *)
Definition null_or_empty (X : option string) : bool :=
  match X with None | Some EmptyString => true | _ => false end.

Fixpoint skip_spaces (s : string) : string :=
  match s with c :s s' => if isspace c then skip_spaces s' else s | _ => s end.

(** The digits at the front of [s]: their value, and what follows them;
    [None] when there is none. *)
Fixpoint digits (acc : Z) (s : string) : Z * string :=
  match s with
  | c :s s' => if isdigit c then digits (10 * acc + (code c - 48)) s' else (acc, s)
  | EmptyString => (acc, EmptyString)
  end.

(** [strtoll(s, &endptr, 10)]: the value, saturated at the limits of
    [long long], and [endptr]; without digits 0 and the string itself. *)
Definition strtoll (s : string) : Z * string :=
  let '(neg, body) :=
    match skip_spaces s with
    | c :s s' => if is_char c "-" then (true, s') else if is_char c "+" then (false, s')
                 else (false, c :s s')
    | EmptyString => (false, EmptyString)
    end in
  match body with
  | c :s _ =>
      if isdigit c then
        let '(v, rest) := digits 0 body in
        let v := if neg : bool then - v else v in
        (Z.max LLONG_MIN (Z.min LLONG_MAX v), rest)
      else (0, s)
  | EmptyString => (0, s)
  end.

(** [strncmp(s, p, strlen(p)) == 0] *)
Definition starts_with (p s : string) : bool := String.prefix p s.

(** [strstr(s, p)]: the string from the first occurrence of [p] on. *)
Fixpoint strstr (s p : string) : option string :=
  if starts_with p s then Some s
  else match s with _ :s s' => strstr s' p | EmptyString => None end.

(** [s + n], the string after its first [n] characters. *)
Fixpoint skip (n : nat) (s : string) : string :=
  match n, s with S n, _ :s s => skip n s | _, _ => s end.

(** The first [n] characters of [s]. *)
Fixpoint front (n : nat) (s : string) : string :=
  match n, s with S n, c :s s => c :s front n s | _, _ => EmptyString end.

(** [strsep(&s, delim)]: the token, and the string after the delimiter, or
    NULL when no delimiter follows. *)
Definition elem_str (c : char) (s : string) : bool :=
  bool_decide (c ∈ String.list_ascii_of_string s).
Fixpoint strsep (delim s : string) : string * option string :=
  match s with
  | EmptyString => (EmptyString, None)
  | c :s s =>
      if elem_str c delim then (EmptyString, Some s)
      else let '(tok, rest) := strsep delim s in (c :s tok, rest)
  end.

(** ** Conversions *)

Definition stob (X : option string) : res bool :=
  match X with
  | Some (c :s EmptyString) =>
      if is_char c "0" then Ok false else if is_char c "1" then Ok true else Err
  | _ => Err
  end.

(** [*ptr_Y = strtol(X, &endptr, 10)]: [strtol] has 64 bits, and the
    assignment keeps the low 32 of them. *)
Definition stoi (X : option string) : res Z :=
  match X with
  | None | Some EmptyString => Err
  | Some X => Ok (wrapS 32 (strtoll X).1)
  end.

(** ** Taking strings apart *)

Fixpoint count_char (c : char) (s : string) : Z :=
  match s with
  | EmptyString => 0
  | d :s s => (if is_char d c then 1 else 0) + count_char c s
  end.

(** The second loop of [break_str]: [nY] tokens are left to read. *)
Fixpoint break_loop (nY : nat) (delim : string) (bak_X : option string) : res (list string) :=
  match nY with
  | O => Ok []
  | S nY =>
      match bak_X with
      | None => Err
      | Some X =>
          let '(tok, bak_X) := strsep delim X in
          _ ← go_BYE_if (strcmp_eq tok "");
          Y ← break_loop nY delim bak_X;
          Ok (tok :: Y)
      end
  end.

(** [break_str(X, delim, &Y, &nY)].  The number of tokens is one more than
    the number of colons, whatever [delim] is.  For the empty string the
    function succeeds without setting its results: [None]. *)
Definition break_str (X : option string) (delim : string) : res (option (list string)) :=
  match X with
  | None => Err
  | Some X =>
      if strcmp_eq X "" then Ok None
      else
        Y ← break_loop (Z.to_nat (1 + count_char ":" X)) delim (Some X);
        Ok (Some Y)
  end.

(** [explode(in_X, delim, ...)]: the pieces between colons, empty ones too;
    [delim] is not used. *)
Fixpoint explode (in_X : string) : list string :=
  match in_X with
  | EmptyString => [EmptyString]
  | c :s s =>
      if is_char c ":" then EmptyString :: explode s
      else match explode s with
           | p :: ps => (c :s p) :: ps
           | [] => [c :s EmptyString]
           end
  end.

(** [read_nth_val(in_str, delim, n, out_str, len)]; first loop: skip [n]
    delimiters; the pointer stays on the NUL when there are fewer. *)
Fixpoint nth_skip (delim : char) (n : Z) (s : string) : Z * string :=
  if n <=? 0 then (n, s)
  else match s with
       | EmptyString => (n, EmptyString)
       | c :s s' => nth_skip delim (if is_char c delim then n - 1 else n) s'
       end.
Fixpoint nth_copy (delim : char) (i len : Z) (s : string) : res string :=
  match s with
  | EmptyString => Ok EmptyString
  | c :s s =>
      if is_char c delim then Ok EmptyString
      else
        _ ← go_BYE_if (i =? len);
        out ← nth_copy delim (i + 1) len s; Ok (c :s out)
  end.
Definition read_nth_val (in_str : string) (delim : char) (n len_out_str : Z) : res string :=
  let '(missing, cptr) := nth_skip delim n in_str in
  _ ← go_BYE_if (negb (missing =? 0));
  let cptr := match cptr with
              | c :s s => if is_char c delim then s else cptr
              | EmptyString => cptr
              end in
  nth_copy delim 0 len_out_str cptr.

(** [extract_S(X, start, stop, output, len_output, &is_null)]: [None] for
    [is_null]. *)
Definition extract_S (X : option string) (start_str stop_str : string) (len_output : Z)
    : res (option string) :=
  match X with
  | None => Ok None
  | Some X =>
      match strstr X start_str with
      | None => Ok None
      | Some Y =>
          let Z := skip (String.length start_str) Y in
          match strstr Z stop_str with
          | None => Ok None
          | Some W =>
              let n := strlen Z - strlen W in
              if len_output - 1 <=? n then Err else Ok (Some (front (Z.to_nat n) Z))
          end
      end
  end.

(** [extract_name_value(in_str, start, stop, &val)]: [None] for NULL. *)
Definition extract_name_value (in_str : option string) (start stop : option string)
    : res (option string) :=
  match in_str with
  | None => Err
  | Some s =>
      if null_or_empty start || null_or_empty stop then Err
      else
        let start := default EmptyString start in
        let stop := default EmptyString stop in
        match strstr s start with
        | None => Ok None
        | Some cptr1 =>
            let cptr2 := skip (String.length start) cptr1 in
            match strstr cptr2 stop with
            | None => Ok (Some cptr2)
            | Some cptr3 =>
                let len := strlen cptr2 - strlen cptr3 in
                if len =? 0 then Ok None else Ok (Some (front (Z.to_nat len) cptr2))
            end
        end
  end.

(** The loop of [strip_trailing_slash], from the last character down: drop
    slashes from the end. *)
Fixpoint strip_loop (s : string) : string :=
  match s with
  | EmptyString => EmptyString
  | c :s s =>
      match strip_loop s with
      | EmptyString => if is_char c "/" then EmptyString else c :s EmptyString
      | s' => c :s s'
      end
  end.
Definition strip_trailing_slash (in_str : option string) (out_len : Z) : res string :=
  match in_str with
  | None => Err
  | Some s =>
      _ ← go_BYE_if (out_len <=? 0);
      _ ← go_BYE_if (out_len <=? strlen s);
      let out_str := strip_loop s in
      _ ← go_BYE_if (strlen out_str =? 0);
      Ok out_str
  end.

(** ** Names *)

Definition MAX_LEN_DIR_NAME : Z := 511.
Definition MAX_LEN_FILE_NAME : Z := 15.
Definition MAX_LEN_FLD_NAME : Z := 31.
Definition MAX_LEN_FLD_DISP_NAME : Z := 127.
Definition MAX_LEN_TBL_NAME : Z := 31.
Definition MAX_LEN_TBL_DISP_NAME : Z := 127.

Fixpoint name_chars (s : string) : bool :=
  match s with
  | EmptyString => true
  | c :s s => (isalnum c || is_char c "_") && name_chars s
  end.

Definition chk_tbl_name (X : option string) : res unit :=
  match X with
  | None => Err
  | Some X =>
      _ ← go_BYE_if (strcmp_eq X "" || (MAX_LEN_TBL_NAME <? strlen X));
      go_BYE_if (negb (name_chars X))
  end.

Definition chk_fld_name (in_X : option string) (is_aux : Z) : res unit :=
  match in_X with
  | None => Err
  | Some X =>
      _ ← go_BYE_if (strcmp_eq X "" || (MAX_LEN_FLD_NAME <? strlen X));
      _ ← go_BYE_if (negb (name_chars X));
      if is_aux =? 0 then Ok tt
      else if is_aux =? 1 then go_BYE_if (negb (starts_with "_nn_" X || starts_with "_sz_" X))
      else Err
  end.

(** [AUX_TYPE] of qtypes.h. *)
Inductive AUX_TYPE := undef | nn.
#[export] Instance AUX_TYPE_eq_dec : EqDecision AUX_TYPE.
Proof. solve_decision. Defined.

Definition mk_name_aux_fld (fld : option string) (auxtype : AUX_TYPE) : res string :=
  match fld with
  | None => Err
  | Some fld =>
      match auxtype with
      | nn =>
          _ ← go_BYE_if (MAX_LEN_FLD_NAME <? strlen fld + strlen "_nn_");
          let aux_fld := ("_nn_" +:+ fld)%string in
          _ ← chk_fld_name (Some aux_fld) 1; Ok aux_fld
      | undef => Err
      end
  end.

Definition chk_aux_info (aux_info : string) : res unit :=
  let o := count_char "[" aux_info in
  let c := count_char "]" aux_info in
  go_BYE_if ((o =? 0) || negb (o =? c)).

(** ** [break_str] *)

Lemma is_char_spec c d : is_char c d = true <-> c = d.
Proof. apply bool_decide_eq_true. Qed.

Lemma strcmp_eq_spec a b : strcmp_eq a b = true <-> a = b.
Proof. apply bool_decide_eq_true. Qed.

Lemma count_char_app c (a b : string) :
  count_char c (a +:+ b)%string = count_char c a + count_char c b.
Proof. induction a as [|d a IH]; simpl; [done|]. rewrite IH. lia. Qed.

Lemma count_char_nonneg c s : 0 <= count_char c s.
Proof. induction s as [|d s IH]; simpl; [done|]. case_match; lia. Qed.

Lemma elem_colon c : elem_str c ":" = is_char c ":".
Proof.
  unfold elem_str, is_char. apply bool_decide_ext. simpl. rewrite list_elem_of_singleton. done.
Qed.

(** The string whose pieces [strsep] yields. *)
Definition rejoin (tok : string) (rest : option string) : string :=
  match rest with None => tok | Some r => (tok +:+ ":" +:+ r)%string end.

Lemma strsep_spec s tok rest :
  strsep ":" s = (tok, rest) -> count_char ":" tok = 0 /\ s = rejoin tok rest.
Proof.
  revert tok. induction s as [|c s IH]; simpl; intros tok H; [by simplify_eq|].
  rewrite elem_colon in H. destruct (is_char c ":") eqn:E.
  - apply is_char_spec in E as ->. by simplify_eq.
  - destruct (strsep ":" s) as [tok' rest']. simplify_eq.
    destruct (IH _ eq_refl) as [Hc ->]. simpl. rewrite E, Hc. split; [done|].
    by destruct rest.
Qed.

Lemma strsep_token tok rest :
  count_char ":" tok = 0 -> strsep ":" (rejoin tok rest) = (tok, rest).
Proof.
  induction tok as [|c tok IH]; intros Hc.
  { destruct rest; done. }
  simpl in Hc. pose proof (count_char_nonneg ":" tok).
  destruct (is_char c ":") eqn:E; [lia|].
  assert (rejoin (c :s tok) rest = c :s rejoin tok rest) as -> by (by destruct rest).
  simpl. by rewrite elem_colon, E, IH by lia.
Qed.

(** A token: not empty, without a colon. *)
Definition token (t : string) : Prop := t <> ""%string /\ count_char ":" t = 0.

Lemma concat_rejoin t l :
  String.concat ":" (t :: l) =
    rejoin t (match l with [] => None | _ => Some (String.concat ":" l) end).
Proof. destruct l; done. Qed.

Lemma count_concat l :
  Forall token l -> l <> [] -> count_char ":" (String.concat ":" l) = zlen l - 1.
Proof.
  induction 1 as [|t l [_ Ht] Hl IH]; intros Hne; [done|].
  rewrite concat_rejoin. unfold zlen in *. destruct l as [|t' l].
  { simpl. lia. }
  unfold rejoin. rewrite !count_char_app, Ht, IH by done. simpl. lia.
Qed.

Lemma break_loop_tokens l :
  Forall token l -> l <> [] ->
  break_loop (length l) ":" (Some (String.concat ":" l)) = Ok l.
Proof.
  induction 1 as [|t l [Hne Hc] Hl IH]; intros Hnil; [done|].
  rewrite concat_rejoin. simpl. rewrite strsep_token by done.
  unfold go_BYE_if. destruct (strcmp_eq t "") eqn:E; [by apply strcmp_eq_spec in E|]. simpl.
  destruct l as [|t' l]; [done|]. by rewrite IH.
Qed.

Lemma break_loop_inv n X l :
  break_loop n ":" (Some X) = Ok l -> Z.of_nat n = 1 + count_char ":" X ->
  Forall token l /\ l <> [] /\ X = String.concat ":" l.
Proof.
  revert X l. induction n as [|n IH]; intros X l H Hn.
  { pose proof (count_char_nonneg ":" X). lia. }
  simpl in H. destruct (strsep ":" X) as [tok rest] eqn:E.
  apply strsep_spec in E as [Hc ->]. res_inv.
  assert (token tok) as Htok.
  { split; [|done]. intros ->. done. }
  destruct rest as [r|].
  - unfold rejoin in Hn. rewrite !count_char_app, Hc in Hn. simpl in Hn.
    match goal with H : break_loop n _ _ = Ok _ |- _ => apply IH in H as (? & Hne & ->); [|lia] end.
    split_and!; [by constructor|done|]. rewrite concat_rejoin. by destruct x0.
  - simpl in Hn. rewrite Hc in Hn. assert (n = 0%nat) as -> by lia. simpl in *. simplify_eq.
    split_and!; [by apply Forall_singleton|done|done].
Qed.

Lemma break_loop_no_ub n X : break_loop n ":" X <> Ub /\ break_loop n ":" X <> NoFuel.
Proof.
  revert X. induction n as [|n IH]; intros X; simpl; [done|].
  destruct X as [X|]; [|done]. destruct (strsep ":" X) as [tok rest].
  unfold go_BYE_if. destruct (strcmp_eq tok ""); simpl; [done|].
  destruct (IH rest). by destruct (break_loop n ":" rest).
Qed.

(** [break_str(X, ":")] succeeds on a non-empty string exactly when
    the string is a sequence of tokens (non-empty, without a colon) joined by
    single colons, and then yields these tokens in order; in every other case
    it returns an error. *)
Theorem break_str_correct (X : string) (l : list string) :
  X <> ""%string ->
  (break_str (Some X) ":" = Ok (Some l) <->
     l <> [] /\ Forall token l /\ X = String.concat ":" l) /\
  ((~ exists l, l <> [] /\ Forall token l /\ X = String.concat ":" l) ->
     break_str (Some X) ":" = Err).
Proof.
  intros HX. unfold break_str.
  destruct (strcmp_eq X "") eqn:E; [by apply strcmp_eq_spec in E|].
  pose proof (count_char_nonneg ":" X) as Hc.
  assert (Z.of_nat (Z.to_nat (1 + count_char ":" X)) = 1 + count_char ":" X) as En by lia.
  split; [split|].
  - intros H. res_inv.
    match goal with H : break_loop _ _ _ = _ |- _ => apply break_loop_inv in H; [|done] end.
    tauto.
  - intros (Hne & Hl & ->). rewrite count_concat by done.
    replace (Z.to_nat (1 + (zlen l - 1))) with (length l) by (unfold zlen; lia).
    by rewrite break_loop_tokens.
  - intros Hno. destruct (break_loop _ _ _) as [l'| | |] eqn:EY; simpl; try done.
    + apply break_loop_inv in EY; [|done]. exfalso. apply Hno. exists l'. tauto.
    + by destruct (proj1 (break_loop_no_ub _ _) EY).
    + by destruct (proj2 (break_loop_no_ub _ _) EY).
Qed.

Lemma break_str_correct_witness :
  break_str (Some "f1:f2"%string) ":" = Ok (Some ["f1"; "f2"]%string).
Proof.
  apply (break_str_correct "f1:f2" ["f1"; "f2"]%string); [done|]. split_and!; try done.
  repeat constructor; done.
Defined.

(** ** [strstr] and [extract_S] *)

Lemma strlen_app (a b : string) : strlen (a +:+ b)%string = strlen a + strlen b.
Proof.
  unfold strlen. induction a as [|c a IH]; [done|].
  simpl. rewrite !Nat2Z.inj_succ, IH. lia.
Qed.

Lemma strlen_nonneg s : 0 <= strlen s.
Proof. unfold strlen. lia. Qed.

Lemma append_assoc (a b c : string) : ((a +:+ b) +:+ c = a +:+ (b +:+ c))%string.
Proof. induction a as [|d a IH]; simpl; [done|]. by rewrite IH. Qed.

Lemma starts_with_spec p s : starts_with p s = true <-> exists b, s = (p +:+ b)%string.
Proof.
  unfold starts_with. revert s. induction p as [|c p IH]; intros s; simpl.
  { destruct s; (split; [by eexists|done]). }
  destruct s as [|d s]; [split; [done|]; intros (b & H); discriminate H|].
  simpl. case_match; subst.
  - rewrite IH. split; intros (b & Hb); exists b; simpl in *; congruence.
  - split; [done|]. intros (b & Hb). simpl in Hb. congruence.
Qed.

(** The first occurrence of [p] in [s] comes after [a], and [b] follows it. *)
Definition first_at (s p a b : string) : Prop :=
  s = (a +:+ p +:+ b)%string /\
  forall a' b', s = (a' +:+ p +:+ b')%string -> strlen a <= strlen a'.

Lemma strstr_unfold s p :
  strstr s p = if starts_with p s then Some s
               else match s with _ :s s' => strstr s' p | EmptyString => None end.
Proof. by destruct s. Qed.

Lemma strstr_first s p :
  match strstr s p with
  | Some r => exists a b, first_at s p a b /\ r = (p +:+ b)%string
  | None => forall a b, s <> (a +:+ p +:+ b)%string
  end.
Proof.
  induction s as [|c s IH]; rewrite strstr_unfold;
    (destruct (starts_with p _) eqn:E;
     [apply starts_with_spec in E as (b & E); exists ""%string, b; split; [|done];
      split; [done|]; intros; apply strlen_nonneg|]).
  - intros a b Hab. destruct a; [|done]. assert (starts_with p "" = true) by
      (apply starts_with_spec; by exists b). congruence.
  - assert (forall b, c :s s <> (p +:+ b)%string) as Hno.
    { intros b Hb. assert (starts_with p (c :s s) = true) by
        (apply starts_with_spec; by exists b). congruence. }
    destruct (strstr s p) as [r|].
    + destruct IH as (a & b & [-> Hmin] & ->). exists (c :s a), b. split; [|done].
      split; [done|]. intros [|c' a'] b' Hab; [by apply Hno in Hab|].
      simpl in Hab. injection Hab as -> Hab. apply Hmin in Hab. unfold strlen in *. simpl. lia.
    + intros [|c' a'] b Hab; [by apply Hno in Hab|]. simpl in Hab. injection Hab as -> Hab.
      by apply IH in Hab.
Qed.

Lemma app_inj_len (a a' b b' : string) :
  (a +:+ b = a' +:+ b')%string -> strlen a = strlen a' -> a = a' /\ b = b'.
Proof.
  unfold strlen. revert a'. induction a as [|c a IH]; intros [|c' a'] E Hl; simpl in *;
    try lia; [done|]. injection E as -> E. apply IH in E as [-> ->]; [done|lia].
Qed.

Lemma first_at_unique s p a b a' b' : first_at s p a b -> first_at s p a' b' -> a = a' /\ b = b'.
Proof.
  intros [E1 M1] [E2 M2]. pose proof (M1 _ _ E2). pose proof (M2 _ _ E1).
  rewrite E1 in E2. apply app_inj_len in E2 as [-> E]; [|lia].
  apply app_inj_len in E as [_ ->]; done.
Qed.

Lemma skip_app p b : skip (String.length p) (p +:+ b)%string = b.
Proof. induction p; done. Qed.

Lemma front_app a b : front (String.length a) (a +:+ b)%string = a.
Proof. induction a as [|c a IH]; simpl; [by destruct b|]. by rewrite IH. Qed.

(** [extract_S] looks for the first [start_str], and behind it for
    the first [stop_str]: with both present it yields the text between them,
    if that fits the buffer with its NUL and one byte to spare, and an error
    if it does not; if one of them is missing it reports null. *)
Theorem extract_S_correct (X start_str stop_str : string) (len : Z) :
  (forall a m v b, first_at X start_str a m -> first_at m stop_str v b ->
     extract_S (Some X) start_str stop_str len =
       if strlen v <? len - 1 then Ok (Some v) else Err) /\
  ((forall a m v b, first_at X start_str a m -> ~ first_at m stop_str v b) ->
     extract_S (Some X) start_str stop_str len = Ok None).
Proof.
  unfold extract_S. pose proof (strstr_first X start_str) as HX.
  destruct (strstr X start_str) as [Y|].
  2: { split; [|done]. intros a m v b [E _]. by apply HX in E. }
  destruct HX as (a0 & m0 & H0 & ->). rewrite skip_app.
  pose proof (strstr_first m0 stop_str) as Hm. destruct (strstr m0 stop_str) as [W|].
  - destruct Hm as (v0 & b0 & H1 & ->). split.
    + intros a m v b Ha Hv. destruct (first_at_unique _ _ _ _ _ _ H0 Ha) as [-> ->].
      destruct (first_at_unique _ _ _ _ _ _ H1 Hv) as [-> ->].
      rewrite (proj1 Hv), !strlen_app.
      replace (strlen v + (strlen stop_str + strlen b) - (strlen stop_str + strlen b))
        with (strlen v) by lia.
      destruct (Z.ltb_spec (strlen v) (len - 1)), (Z.leb_spec (len - 1) (strlen v)); try lia; [|done].
      unfold strlen. by rewrite Nat2Z.id, front_app.
    + intros Hno. by destruct (Hno _ _ _ _ H0 H1).
  - split; [|done]. intros a m v b Ha [E _].
    destruct (first_at_unique _ _ _ _ _ _ H0 Ha) as [-> ->]. by apply Hm in E.
Qed.

Lemma extract_S_correct_witness :
  extract_S (Some "fldtype=[I4]:len=[8]"%string) "fldtype=[" "]" 1024 = Ok (Some "I4"%string).
Proof.
  refine (proj1 (extract_S_correct "fldtype=[I4]:len=[8]" "fldtype=[" "]" 1024)
    ""%string "I4]:len=[8]"%string "I4"%string ":len=[8]"%string _ _);
    (split; [reflexivity|]); intros a' b'; destruct a' as [|? [|? a']]; intros H;
    unfold strlen; simpl in *; first [lia|discriminate].
Defined.

(** ** [strip_trailing_slash] *)

Definition all_slashes (t : string) : Prop := count_char "/" t = strlen t.
Definition ends_in_slash (r : string) : Prop := exists r', r = (r' +:+ "/")%string.

Lemma strip_loop_spec s :
  (exists t, s = (strip_loop s +:+ t)%string /\ all_slashes t) /\ ~ ends_in_slash (strip_loop s).
Proof.
  unfold all_slashes. induction s as [|c s [(t & E & Ht) He]]; simpl.
  { split; [by exists ""%string|]. intros ([|d r'] & H0); discriminate H0. }
  destruct (strip_loop s) as [|d r].
  - simpl in E. subst t. destruct (is_char c "/") eqn:Ec.
    + apply is_char_spec in Ec as ->. split.
      * exists ("/" :s s). split; [done|]. simpl. unfold strlen in *. simpl. lia.
      * intros ([|d r'] & H0); discriminate H0.
    + split; [by exists s|]. intros ([|d [|d' r']] & H0); simpl in H0; simplify_eq.
  - split; [exists t; simpl in *; by rewrite E at 1|].
    intros ([|c' r'] & H0); simpl in H0; [discriminate H0|].
    apply He. exists r'. congruence.
Qed.

Lemma strip_loop_slashes t : all_slashes t -> strip_loop t = ""%string.
Proof.
  unfold all_slashes, strlen. induction t as [|c t IH]; [done|]. cbn [count_char String.length].
  assert (count_char "/" t <= Z.of_nat (String.length t)).
  { clear. induction t as [|c t IH]; simpl; [done|]. case_match; lia. }
  intros Ht. simpl. destruct (is_char c "/") eqn:E; [|lia]. by rewrite IH by lia.
Qed.

Lemma strip_loop_unique r t : ~ ends_in_slash r -> all_slashes t -> strip_loop (r +:+ t) = r.
Proof.
  intros Hr Ht. induction r as [|c r IH]; simpl; [by apply strip_loop_slashes|].
  destruct r as [|d r].
  - simpl. rewrite strip_loop_slashes by done. destruct (is_char c "/") eqn:E; [|done].
    apply is_char_spec in E as ->. destruct Hr. by exists ""%string.
  - rewrite IH; [done|]. intros (r' & E). apply Hr. exists (c :s r'). by rewrite E.
Qed.

(** [strip_trailing_slash] into a buffer of [len] bytes succeeds
    exactly when the string fits the buffer and is not made of slashes only,
    and then yields the string without the slashes at its end. *)
Theorem strip_trailing_slash_correct (s r : string) (len : Z) :
  strip_trailing_slash (Some s) len = Ok r <->
    strlen s < len /\ r <> ""%string /\ ~ ends_in_slash r /\
    exists t, s = (r +:+ t)%string /\ all_slashes t.
Proof.
  unfold strip_trailing_slash, go_BYE_if. pose proof (strlen_nonneg s).
  destruct (Z.leb_spec len 0); simpl; [split; [done|lia]|].
  destruct (Z.leb_spec len (strlen s)); simpl; [split; [done|lia]|].
  destruct (strip_loop_spec s) as [Ht He]. split.
  - destruct (Z.eqb_spec (strlen (strip_loop s)) 0) as [|Hne]; simpl; [done|].
    intros [= <-]. split_and!; auto. intros E. rewrite E in Hne. done.
  - intros (_ & Hr & Hslash & t & -> & Hall). rewrite strip_loop_unique by done.
    destruct (Z.eqb_spec (strlen r) 0) as [E|]; [|done].
    destruct r; [done|]. unfold strlen in E. simpl in E. lia.
Qed.

(** ** [sprintf("%d")] and [strtoll] *)

Definition digit_char (d : Z) : char := ascii_of_nat (Z.to_nat (48 + d)).

Fixpoint udec (fuel : nat) (n : Z) (acc : string) : string :=
  match fuel with
  | O => acc
  | S fuel =>
      let acc := digit_char (n mod 10) :s acc in
      if n / 10 =? 0 then acc else udec fuel (n / 10) acc
  end.

(** [sprintf(buf, "%lld", n)]; a [long long] has at most 19 digits. *)
Definition sprintf_d (n : Z) : string :=
  if n <? 0 then "-" :s udec 20 (- n) "" else udec 20 n "".

Lemma digit_char_code d : 0 <= d < 10 -> code (digit_char d) = 48 + d.
Proof. intros Hd. unfold code, digit_char. rewrite nat_ascii_embedding; lia. Qed.

Lemma digit_char_isdigit d : 0 <= d < 10 -> isdigit (digit_char d) = true.
Proof. intros Hd. unfold isdigit, in_range. rewrite digit_char_code by done. lia. Qed.

Lemma digits_udec fuel n acc :
  0 <= n < 10 ^ Z.of_nat fuel -> (0 < fuel)%nat ->
  digits 0 (udec fuel n acc) = digits n acc.
Proof.
  revert n acc. induction fuel as [|fuel IH]; intros n acc Hn Hf; [lia|]. cbn [udec].
  pose proof (Z.mod_pos_bound n 10 ltac:(lia)). pose proof (Z.div_mod n 10 ltac:(lia)) as E.
  assert (forall a, digits a (digit_char (n mod 10) :s acc) = digits (10 * a + n mod 10) acc) as Hd.
  { intros a. simpl. rewrite digit_char_isdigit, digit_char_code by done. f_equal. lia. }
  destruct (Z.eqb_spec (n / 10) 0) as [E0|].
  - rewrite Hd. f_equal. lia.
  - rewrite Nat2Z.inj_succ, Z.pow_succ_r in Hn by lia.
    rewrite IH; [rewrite Hd; f_equal; lia|lia|]. destruct fuel; [|lia]. simpl in *. lia.
Qed.

Lemma udec_head fuel n acc :
  (0 < fuel)%nat -> exists c s, udec fuel n acc = c :s s /\ isdigit c = true.
Proof.
  revert n acc. induction fuel as [|fuel IH]; intros n acc Hf; [lia|]. cbn [udec].
  pose proof (Z.mod_pos_bound n 10 ltac:(lia)).
  case_match; [eexists _, _; split; [done|by apply digit_char_isdigit]|].
  destruct fuel as [|fuel]; [|apply IH; lia].
  eexists _, _; split; [done|by apply digit_char_isdigit].
Qed.

Lemma isdigit_not c :
  isdigit c = true -> isspace c = false /\ is_char c "-" = false /\ is_char c "+" = false.
Proof.
  unfold isdigit, isspace, in_range. intros H0. split; [lia|].
  split; (destruct (is_char c _) eqn:E; [|done]); apply is_char_spec in E as ->; done.
Qed.

(** Printing an integer of the range of [long long] with
    [sprintf("%lld")] and reading it with [strtoll] gives the integer back
    and consumes all characters; a value out of range is read as the nearest
    limit. *)
Theorem strtoll_sprintf (n : Z) :
  - 10 ^ 20 < n < 10 ^ 20 ->
  strtoll (sprintf_d n) = (Z.max LLONG_MIN (Z.min LLONG_MAX n), ""%string).
Proof.
  intros Hn. unfold sprintf_d. destruct (Z.ltb_spec n 0).
  - destruct (udec_head 20 (- n) "" ltac:(lia)) as (c & s & E & Hc).
    assert (strtoll ("-" :s c :s s) =
      let '(v, rest) := digits 0 (c :s s) in (Z.max LLONG_MIN (Z.min LLONG_MAX (- v)), rest))
      as Hstr by (unfold strtoll; change (skip_spaces ("-" :s c :s s)) with ("-" :s c :s s);
        cbn iota beta; change (is_char "-" "-") with true; cbn iota beta; by rewrite Hc).
    rewrite E, Hstr, <- E, digits_udec by (simpl; lia). simpl. by rewrite Z.opp_involutive.
  - destruct (udec_head 20 n "" ltac:(lia)) as (c & s & E & Hc).
    destruct (isdigit_not c Hc) as (Hs & Hm & Hp).
    assert (strtoll (c :s s) =
      let '(v, rest) := digits 0 (c :s s) in (Z.max LLONG_MIN (Z.min LLONG_MAX v), rest))
      as Hstr by (unfold strtoll; cbn [skip_spaces]; rewrite Hs, Hm, Hp; cbn iota beta; by rewrite Hc).
    by rewrite E, Hstr, <- E, digits_udec by (simpl; lia).
Qed.

Lemma strtoll_sprintf_witness : strtoll (sprintf_d (- 42)) = (- 42, ""%string).
Proof. apply (strtoll_sprintf (- 42)). lia. Defined.
