(* ===== verification/Types.v ===== *)
(** * Field types, operators and sizes.

    The enumerations and records of src/src/qtypes.h, and the pure helpers
    over them: [mk_str_fldtype], [unstr_fldtype], [mk_str_sort_type],
    [unstr_auxtype], [get_fld_sz] of dir_dbutils/aux_meta.c; [mk_iop],
    [mk_mjoin_op], [mk_int_auxtype], [get_file_size_B], [partition] and
    [mk_offset] of dir_dbutils/dbauxil.c. *)

From stdpp Require Import prelude strings.
From Stdlib Require Import ZArith Lia.
From S2P Require Import Prelude CString.

Inductive FLD_TYPE := xunknown | B | I1 | I2 | I4 | I8 | F4 | F8 | clob.
Inductive SORT_TYPE := unknown | ascending | descending | unsorted.

#[export] Instance FLD_TYPE_eq_dec : EqDecision FLD_TYPE.
Proof. solve_decision. Defined.
#[export] Instance SORT_TYPE_eq_dec : EqDecision SORT_TYPE.
Proof. solve_decision. Defined.

(** [TBL_REC_TYPE] *)
Record TBL_REC_TYPE := {
  t_nR : Z;
  t_name : string;
  t_dispname : string;
  t_is_dict_tbl : bool
}.

(** [FLD_REC_TYPE].  An index that is negative stands for none. *)
Record FLD_REC_TYPE := {
  tbl_id : Z;
  ddir_id : Z;
  is_external : bool;
  sort_type : SORT_TYPE;
  parent_id : Z;
  nn_fld_id : Z;
  fldtype : FLD_TYPE;
  auxtype : AUX_TYPE;
  name : string;
  filename : string;
  dispname : string;
  dict_tbl_id : Z;
  alias_of_fld_id : Z;
  cnt : Z
}.

(** [zero_tbl_rec] and [zero_fld_rec] *)
Definition zero_tbl_rec : TBL_REC_TYPE :=
  {| t_nR := 0; t_name := ""; t_dispname := ""; t_is_dict_tbl := false |}.
Definition zero_fld_rec : FLD_REC_TYPE :=
  {| tbl_id := -1; ddir_id := INT_MIN; is_external := false; sort_type := unknown;
     parent_id := -1; nn_fld_id := -1; fldtype := xunknown; auxtype := undef;
     name := ""; filename := ""; dispname := ""; dict_tbl_id := INT_MIN;
     alias_of_fld_id := INT_MIN; cnt := LLONG_MIN |}.

(** ** Names of types *)

Definition mk_str_fldtype (t : FLD_TYPE) : res string :=
  match t with
  | B => Ok "B" | I1 => Ok "I1" | I2 => Ok "I2" | I4 => Ok "I4" | F4 => Ok "F4"
  | I8 => Ok "I8" | F8 => Ok "F8" | clob => Ok "clob"
  | xunknown => Err
  end%string.

Definition unstr_fldtype (s : option string) : res FLD_TYPE :=
  match s with
  | None => Err
  | Some s =>
      if strcmp_eq s "B" then Ok B
      else if strcmp_eq s "I1" then Ok I1
      else if strcmp_eq s "I2" then Ok I2
      else if strcmp_eq s "I4" then Ok I4
      else if strcmp_eq s "F4" then Ok F4
      else if strcmp_eq s "I8" then Ok I8
      else if strcmp_eq s "F8" then Ok F8
      else if strcmp_eq s "clob" then Ok clob
      else if strcmp_eq s "str" then Ok I8
      else Err
  end.

Definition mk_str_sort_type (t : SORT_TYPE) : string :=
  match t with
  | unknown => "unknown" | unsorted => "unsorted"
  | ascending => "ascending" | descending => "descending"
  end.

Definition unstr_auxtype (s : option string) : res AUX_TYPE :=
  match s with
  | None => Err
  | Some s => if strcmp_eq s "nn" then Ok nn else if strcmp_eq s "undef" then Ok undef else Err
  end.

(** [sizeof] of an element; bit fields have none. *)
Definition get_fld_sz (t : FLD_TYPE) : res Z :=
  match t with
  | I1 => Ok 1 | I2 => Ok 2 | I4 => Ok 4 | F4 => Ok 4 | I8 => Ok 8 | F8 => Ok 8
  | B | xunknown | clob => Err
  end.

(** ** Operators *)

Definition MJOIN_OP_SUM : Z := 100.
Definition MJOIN_OP_MIN : Z := 200.
Definition MJOIN_OP_MAX : Z := 300.
Definition MJOIN_OP_REG : Z := 500.
Definition MJOIN_OP_OR : Z := 600.
Definition MJOIN_OP_AND : Z := 700.
Definition MJOIN_OP_CNT : Z := 800.

Definition mk_mjoin_op (s : option string) : res Z :=
  match s with
  | None => Err
  | Some s =>
      if strcmp_eq s "sum" then Ok MJOIN_OP_SUM
      else if strcmp_eq s "min" then Ok MJOIN_OP_MIN
      else if strcmp_eq s "max" then Ok MJOIN_OP_MAX
      else if strcmp_eq s "reg" then Ok MJOIN_OP_REG
      else if strcmp_eq s "or" then Ok MJOIN_OP_OR
      else if strcmp_eq s "and" then Ok MJOIN_OP_AND
      else if strcmp_eq s "cnt" then Ok MJOIN_OP_CNT
      else Err
  end.

Definition mk_iop (s : option string) : res Z :=
  match s with
  | None => Err
  | Some s =>
      if strcmp_eq s "+" then Ok 100
      else if strcmp_eq s "-" then Ok 200
      else if strcmp_eq s "*" then Ok 300
      else if strcmp_eq s "/" then Ok 400
      else if strcmp_eq s ">" then Ok 500
      else if strcmp_eq s "<" then Ok 600
      else if strcmp_eq s ">=" then Ok 700
      else if strcmp_eq s "<=" then Ok 800
      else if strcmp_eq s "!=" then Ok 900
      else if strcmp_eq s "==" then Ok 1000
      else if strcmp_eq s "&&" then Ok 201
      else if strcmp_eq s "||" then Ok 101
      else Err
  end.

Definition mk_int_auxtype (s : option string) : res Z :=
  match s with
  | None => Err
  | Some s =>
      _ ← go_BYE_if (strcmp_eq s "");
      if strcmp_eq s "nn" then Ok 1 else if strcmp_eq s "sz" then Ok 2 else Err
  end.

(** ** Sizes *)

(** The size of the file of a bit field: whole kilobytes. *)
Definition get_file_size_B (nR : Z) : res Z :=
  _ ← go_BYE_if (nR <=? 0);
  let nbytes := nR / 8 in
  let nbytes := if negb (nbytes * 8 =? nR) then nbytes + 1 else nbytes in
  let nKB := nbytes / 1024 in
  let nKB := if negb (nKB * 1024 =? nbytes) then nKB + 1 else nKB in
  Ok (nKB * 1024).

(** [partition(num_to_divide, min_block_size, max_num_chunks, ...)]: the block
    size and the number of chunks, an [int].  With 2^31 - 1 chunks the
    expression [num_chunks + 1] overflows. *)
Definition partition (num_to_divide min_block_size max_num_chunks : Z) : res (Z * Z) :=
  _ ← go_BYE_if (num_to_divide <=? 0);
  _ ← go_BYE_if (min_block_size <=? 0);
  let num_chunks := wrapS 32 (num_to_divide / min_block_size) in
  let num_chunks := if num_chunks =? 0 then 1 else num_chunks in
  let num_chunks :=
    if (0 <? max_num_chunks) && (max_num_chunks <? num_chunks)
    then max_num_chunks else num_chunks in
  let block_size := Z.quot num_to_divide num_chunks in
  _ ← go_BYE_if (block_size <=? num_to_divide - block_size * num_chunks);
  _ ← (if num_chunks =? INT_MAX then Ub else Ok tt);
  _ ← go_BYE_if (block_size * (num_chunks + 1) <? num_to_divide);
  Ok (block_size, num_chunks).

(** [mk_offset(szptr, nR, &offset)]: running sums; [offset[0] = 0] is written
    even when [nR] is 0, outside the array. *)
Fixpoint offset_loop (acc : Z) (sz : list Z) (n : nat) {struct n} : res (list Z) :=
  match n with
  | O => Ok []
  | S n =>
      match sz with
      | [] => Ub
      | x :: sz => os ← offset_loop (acc + x) sz n; Ok (acc + x :: os)
      end
  end.
Definition mk_offset (szptr : list Z) (nR : Z) : res (list Z) :=
  if nR <=? 0 then Ub
  else os ← offset_loop 0 szptr (Z.to_nat (nR - 1)); Ok (0 :: os).

(** ** Properties *)

Lemma strcmp_eq_refl s : strcmp_eq s s = true.
Proof. by apply strcmp_eq_spec. Qed.

(** The name of a field type is read back as that type; the only
    other name that [unstr_fldtype] accepts is "str", for an 8-byte hash. *)
Theorem fldtype_roundtrip (t : FLD_TYPE) (s : string) :
  (mk_str_fldtype t = Ok s -> unstr_fldtype (Some s) = Ok t) /\
  (unstr_fldtype (Some s) = Ok t ->
     mk_str_fldtype t = Ok s \/ (s = "str"%string /\ t = I8)).
Proof.
  split.
  - destruct t; simpl; intros [= <-]; vm_compute; reflexivity.
  - unfold unstr_fldtype. intros Ht.
    repeat match type of Ht with
    | (if strcmp_eq s ?w then _ else _) = _ =>
        destruct (strcmp_eq s w) eqn:E;
          [apply strcmp_eq_spec in E as ->; injection Ht as <-;
           first [left; reflexivity|right; split; reflexivity]|clear E]
    end. discriminate Ht.
Qed.

Lemma fldtype_roundtrip_witness : unstr_fldtype (Some "I4"%string) = Ok I4.
Proof. apply (proj1 (fldtype_roundtrip I4 "I4")). reflexivity. Defined.

(** The file of a bit field has the smallest whole number of
    kilobytes that holds one bit per row. *)
Theorem get_file_size_B_correct (nR : Z) :
  (0 < nR -> exists nKB, get_file_size_B nR = Ok (nKB * 1024) /\
     nR <= 8 * (nKB * 1024) /\ 8 * ((nKB - 1) * 1024) < nR) /\
  (nR <= 0 -> get_file_size_B nR = Err).
Proof.
  unfold get_file_size_B, go_BYE_if. destruct (Z.leb_spec nR 0); [by split; [lia|]|].
  split; [intros _|lia]. simpl. set (nb := if negb (nR / 8 * 8 =? nR) then nR / 8 + 1 else nR / 8).
  assert (nR <= 8 * nb < nR + 8) as Hnb.
  { unfold nb. pose proof (Z.div_mod nR 8 ltac:(lia)). pose proof (Z.mod_pos_bound nR 8 ltac:(lia)).
    destruct (Z.eqb_spec (nR / 8 * 8) nR); simpl; lia. }
  eexists; split; [reflexivity|].
  pose proof (Z.div_mod nb 1024 ltac:(lia)). pose proof (Z.mod_pos_bound nb 1024 ltac:(lia)).
  destruct (Z.eqb_spec (nb / 1024 * 1024) nb); simpl; lia.
Qed.

Lemma get_file_size_B_correct_witness :
  exists nKB, get_file_size_B 100 = Ok (nKB * 1024) /\
    100 <= 8 * (nKB * 1024) /\ 8 * ((nKB - 1) * 1024) < 100.
Proof. apply (proj1 (get_file_size_B_correct 100)). reflexivity. Defined.

(** The blocks of a [partition] that succeeds; more than one of them only when
    each has at least [min_block] elements. *)
Lemma partition_Ok (n min_block max_chunks bs nc : Z) :
  0 < min_block -> n / min_block < INT_MAX -> partition n min_block max_chunks = Ok (bs, nc) ->
  0 < n /\ 1 <= nc < INT_MAX /\ (0 < max_chunks -> nc <= max_chunks) /\ 1 <= bs /\ 0 <= n - bs * nc < bs /\
  (nc = 1 \/ min_block <= bs).
Proof.
  intros Hm Hq. unfold partition, go_BYE_if, INT_MAX in *.
  destruct (Z.leb_spec n 0); [done|]. destruct (Z.leb_spec min_block 0); [lia|]. simpl.
  pose proof (Z.div_pos n min_block ltac:(lia) ltac:(lia)) as Hd.
  rewrite wrapS_small by (unfold inS; lia).
  set (q := if n / min_block =? 0 then 1 else n / min_block).
  set (c := if (0 <? max_chunks) && (max_chunks <? q) then max_chunks else q).
  assert (1 <= c <= q /\ (0 < max_chunks -> c <= max_chunks)) as [Hc Hmax].
  { assert (1 <= q) by (unfold q; destruct (Z.eqb_spec (n / min_block) 0); lia).
    unfold c. destruct (Z.ltb_spec 0 max_chunks), (Z.ltb_spec max_chunks q); simpl; lia. }
  rewrite Z.quot_div_nonneg by lia.
  destruct (Z.leb_spec (n / c) (n - n / c * c)) as [Hle|Hlt]; [done|]. simpl.
  destruct (Z.eqb_spec c (2 ^ 31 - 1)); [done|]. simpl.
  destruct (Z.ltb_spec (n / c * (c + 1)) n); [done|]. simpl. intros [= <- <-].
  pose proof (Z.div_mod n c ltac:(lia)). pose proof (Z.mod_pos_bound n c ltac:(lia)).
  pose proof (Z.div_mod n min_block ltac:(lia)). pose proof (Z.mod_pos_bound n min_block ltac:(lia)).
  split_and!; try lia.
  - unfold q in Hc. destruct (Z.eqb_spec (n / min_block) 0); lia.
  - destruct (decide (n / min_block = 0)) as [E|E].
    + left. unfold q in Hc. rewrite E in Hc. simpl in Hc. lia.
    + right. apply Z.div_le_lower_bound; [lia|].
      assert (c <= n / min_block) by (unfold q in Hc; destruct (Z.eqb_spec (n / min_block) 0); lia). nia.
Qed.

(** When [partition] succeeds with fewer than 2^31 blocks to
    choose from, the chunks cover the work: there are between 1 and the
    allowed number of them, each has [block_size] elements, at least one, and
    the leftover of fewer than [block_size] elements goes to the last.  It
    does succeed whenever every chunk has at least as many elements as there
    are chunks. *)
Theorem partition_correct (n min_block max_chunks : Z) :
  0 < n -> 0 < min_block -> n / min_block < INT_MAX ->
  (forall bs nc, partition n min_block max_chunks = Ok (bs, nc) ->
     1 <= nc /\ (0 < max_chunks -> nc <= max_chunks) /\ 1 <= bs /\
     0 <= n - bs * nc < bs) /\
  (max_chunks * max_chunks <= n -> 0 < max_chunks ->
     exists bs nc, partition n min_block max_chunks = Ok (bs, nc)).
Proof.
  intros Hn Hm Hq. unfold partition, go_BYE_if.
  destruct (Z.leb_spec n 0); [lia|]. destruct (Z.leb_spec min_block 0); [lia|]. simpl.
  pose proof (Z.div_pos n min_block ltac:(lia) ltac:(lia)) as Hd.
  unfold INT_MAX in *. rewrite wrapS_small by (unfold inS; lia).
  set (q := if n / min_block =? 0 then 1 else n / min_block).
  assert (1 <= q < 2 ^ 31 - 1) by (unfold q; destruct (Z.eqb_spec (n / min_block) 0); lia).
  set (nc := if (0 <? max_chunks) && (max_chunks <? q) then max_chunks else q).
  assert (1 <= nc <= q /\ (0 < max_chunks -> nc <= max_chunks)) as [Hnc Hmax].
  { unfold nc. destruct (Z.ltb_spec 0 max_chunks), (Z.ltb_spec max_chunks q); simpl; lia. }
  rewrite Z.quot_div_nonneg by lia.
  pose proof (Z.div_mod n nc ltac:(lia)). pose proof (Z.mod_pos_bound n nc ltac:(lia)).
  set (bs := n / nc) in *. destruct (Z.eqb_spec nc (2 ^ 31 - 1)); [lia|].
  destruct (Z.leb_spec bs (n - bs * nc)) as [Hle|Hlt]; simpl.
  - split; [done|]. intros Hsq Hpos. assert (nc <= bs) by (apply Z.div_le_lower_bound; nia). nia.
  - destruct (Z.ltb_spec (bs * (nc + 1)) n); simpl; [nia|]. split; [|eauto].
    intros bs' nc' Heq. injection Heq as <- <-.
    assert (1 <= bs) by (apply Z.div_le_lower_bound; nia). lia.
Qed.

Lemma partition_correct_witness : exists bs nc, partition 1000 10 8 = Ok (bs, nc).
Proof. apply (proj2 (partition_correct 1000 10 8 ltac:(lia) ltac:(lia) ltac:(reflexivity))); lia. Defined.

Lemma offset_loop_ok n sz acc :
  (n <= length sz)%nat ->
  exists os, offset_loop acc sz n = Ok os /\ zlen os = Z.of_nat n /\
    forall k, (k < n)%nat -> os !! k = Some (acc + foldr Z.add 0 (take (S k) sz)).
Proof.
  revert sz acc. induction n as [|n IH]; intros sz acc Hn.
  { exists []. split_and!; [done|done|lia]. }
  destruct sz as [|x sz]; simpl in Hn; [lia|]. simpl.
  destruct (IH sz (acc + x)) as (os & -> & Hl & Hos); [lia|]. simpl.
  eexists; split; [done|]. split; [rewrite zlen_cons; lia|].
  intros [|k] Hk; simpl.
  - f_equal. lia.
  - rewrite Hos by lia. simpl. f_equal. lia.
Qed.

(** [mk_offset] computes the running sums: the offset of every row
    is the total of the sizes of the rows before it. *)
Theorem mk_offset_correct (szptr : list Z) (nR : Z) :
  0 < nR -> nR <= zlen szptr + 1 ->
  exists offset, mk_offset szptr nR = Ok offset /\ zlen offset = nR /\
    forall i, 0 <= i < nR -> offset !z i = Some (foldr Z.add 0 (take (Z.to_nat i) szptr)).
Proof.
  intros Hpos Hlen. unfold mk_offset. destruct (Z.leb_spec nR 0); [lia|].
  destruct (offset_loop_ok (Z.to_nat (nR - 1)) szptr 0) as (os & -> & Hl & Hos).
  { unfold zlen in *. lia. }
  simpl. eexists; split; [done|]. split; [rewrite zlen_cons; lia|].
  intros i Hi. destruct (decide (i = 0)) as [->|]; [done|].
  rewrite zlookup_to_nat by lia. destruct (Z.to_nat i) as [|k] eqn:Ek; [lia|].
  rewrite lookup_cons. simpl. rewrite Hos by lia. done.
Qed.

Lemma mk_offset_correct_witness :
  exists offset, mk_offset [3; 0; 5] 3 = Ok offset /\ zlen offset = 3 /\
    forall i, 0 <= i < 3 -> offset !z i = Some (foldr Z.add 0 (take (Z.to_nat i) [3; 0; 5])).
Proof. apply (mk_offset_correct [3; 0; 5] 3); [lia|unfold zlen; simpl; lia]. Defined.

(** Without a limit on the number of chunks the split always succeeds. *)
Lemma partition_unlimited (n min_block : Z) :
  0 < n -> 0 < min_block -> n / min_block < INT_MAX ->
  exists bs nc, partition n min_block (-1) = Ok (bs, nc) /\ 1 <= nc /\ 1 <= bs /\ bs * nc <= n.
Proof.
  intros Hn Hm Hq. unfold partition, go_BYE_if.
  destruct (Z.leb_spec n 0); [lia|]. destruct (Z.leb_spec min_block 0); [lia|]. simpl.
  pose proof (Z.div_pos n min_block ltac:(lia) ltac:(lia)) as Hd.
  pose proof (Z.div_mod n min_block ltac:(lia)) as Hdm.
  pose proof (Z.mod_pos_bound n min_block ltac:(lia)) as Hmod.
  unfold INT_MAX in *. rewrite wrapS_small by (unfold inS; lia).
  set (nc := if n / min_block =? 0 then 1 else n / min_block).
  assert (1 <= nc < 2 ^ 31 - 1 /\ (nc = n / min_block \/ (nc = 1 /\ n < min_block))) as [Hnc Hc].
  { unfold nc. destruct (Z.eqb_spec (n / min_block) 0); [|lia]. split; [lia|].
    right. split; [done|]. nia. }
  rewrite Z.quot_div_nonneg by lia.
  pose proof (Z.div_mod n nc ltac:(lia)). pose proof (Z.mod_pos_bound n nc ltac:(lia)).
  assert (1 <= n / nc) by (apply Z.div_le_lower_bound; destruct Hc as [->|[-> _]]; nia).
  assert (n mod nc < n / nc) as Hlt.
  { destruct Hc as [Hc|[-> _]]; [|rewrite Z.mod_1_r; lia].
    assert (min_block <= n / nc) by (apply Z.div_le_lower_bound; nia).
    assert (n mod nc <= n mod min_block); [|lia].
    assert (n = nc * min_block + n mod min_block) as E by (rewrite Hc; lia).
    rewrite E at 1. rewrite Z.add_comm, Z.mul_comm, Z_mod_plus_full.
    apply Z.mod_le; lia. }
  set (bs := n / nc) in *. destruct (Z.eqb_spec nc (2 ^ 31 - 1)); [lia|].
  destruct (Z.leb_spec bs (n - bs * nc)); [lia|]. simpl.
  destruct (Z.ltb_spec (bs * (nc + 1)) n); simpl; [nia|].
  exists bs, nc. split; [done|lia].
Qed.

(** Without a limit on the number of chunks a block is less than twice the
    smallest one. *)
Lemma partition_block (n min_block bs nc : Z) :
  0 < n -> 0 < min_block -> n / min_block < INT_MAX -> partition n min_block (-1) = Ok (bs, nc) -> bs < 2 * min_block.
Proof.
  intros Hn Hm Hq. unfold partition, go_BYE_if, INT_MAX in *.
  destruct (Z.leb_spec n 0); [lia|]. destruct (Z.leb_spec min_block 0); [lia|]. simpl.
  pose proof (Z.div_pos n min_block ltac:(lia) ltac:(lia)) as Hd.
  rewrite wrapS_small by (unfold inS; lia).
  set (q := if n / min_block =? 0 then 1 else n / min_block).
  assert (1 <= q /\ n < 2 * min_block * q) as [Hc Hnq].
  { pose proof (Z.div_mod n min_block ltac:(lia)). pose proof (Z.mod_pos_bound n min_block ltac:(lia)).
    unfold q. destruct (Z.eqb_spec (n / min_block) 0); nia. }
  clearbody q. rewrite Z.quot_div_nonneg by lia.
  repeat match goal with |- context [if ?c then _ else _] => destruct c; simpl; try done end.
  intros [= <- <-]. apply Z.div_lt_upper_bound; nia.
Qed.

(** Work whose remainder is a whole block or more is refused. *)
Lemma partition_spurious : partition 7 1 4 = Err.
Proof. reflexivity. Qed.
