(* ===== verification/Join.v ===== *)
(** * The sort-merge join.

    Models the eight kernels src/src/AUX/core_srt_join_{I,L}_{I,L}_{I,L}.c
    (one template: the letters give the integer types of the source link, of
    the value and of the destination link) and the part of
    src/src/dir_wr_verbs/srt_join.c that runs them: operator and sortedness
    checks, the choice of the type of the result, the fresh files of the
    result and of its nn field, and the loop over blocks of destination rows.
    Looking tables and fields up and adding the result to the meta data are
    the operations of Catalog.v and Verbs.v.

    Links are compared only, so that their width does not matter; [w] is the
    width of the values. *)

From stdpp Require Import prelude strings sorting.
From Stdlib Require Import ZArith Lia.
From S2P Require Import Prelude CString Types.

Module Join.

Definition FALSE : Z := 0.
Definition TRUE : Z := 1.

(** ** Initial values *)

(** The loop of [assign_const_I1], [assign_const_I4], [assign_const_I8]:
    [rest] is what the array holds from the pointer [out] on. *)
Fixpoint assign_loop (rest : list Z) (n val : Z) : res (list Z) :=
  if n <=? 0 then Ok rest
  else match rest with
       | [] => Ub
       | _ :: rest => rest ← assign_loop rest (n - 1) val; Ok (val :: rest)
       end.

(** [assign_const_I*(X + pos, n, val)] *)
Definition assign_const (X : list Z) (pos n val : Z) : res (list Z) :=
  rest ← assign_loop (drop (Z.to_nat pos) X) n val;
  Ok (take (Z.to_nat pos) X ++ rest).

(** The arrays and the flag that the blocks share. *)
Record join_state := {
  dst_val : option (list Z);
  nn_dst_val : list Z;
  is_any_null : bool
}.

(** The second argument of the assign_const_I* functions is the number of
    elements and the third one the value: the calls pass them the other way
    round. *)
Definition set_init (w : Z) (st : join_state) (lb ub ijoin_op : Z) : res join_state :=
  nn ← assign_const (nn_dst_val st) lb FALSE (ub - lb);
  dst ← match dst_val st with
        | None => Ok None
        | Some d =>
            n ← (if (ijoin_op =? MJOIN_OP_REG) || (ijoin_op =? MJOIN_OP_SUM)
                    || (ijoin_op =? MJOIN_OP_CNT) || (ijoin_op =? MJOIN_OP_OR)
                 then Ok FALSE
                 else if ijoin_op =? MJOIN_OP_AND
                 then Ok (if w =? 32 then 2 ^ 32 - 1 else -1)
                 else if ijoin_op =? MJOIN_OP_MIN then Ok (2 ^ (w - 1) - 1)
                 else if ijoin_op =? MJOIN_OP_MAX then Ok (- 2 ^ (w - 1))
                 else Err);
            d ← assign_const d lb n (ub - lb); Ok (Some d)
        end;
  Ok {| dst_val := dst; nn_dst_val := nn; is_any_null := is_any_null st |}.

(** ** One destination row *)

(** The switch on the operator: the new value of [dst_val[dst_idx]]. *)
Definition agg_step (w ijoin_op a y : Z) : res Z :=
  if ijoin_op =? MJOIN_OP_SUM then add_to w a y
  else if ijoin_op =? MJOIN_OP_MAX then Ok (if a <? y then y else a)
  else if ijoin_op =? MJOIN_OP_MIN then Ok (if y <? a then y else a)
  else if ijoin_op =? MJOIN_OP_OR then Ok (Z.lor a y)
  else if ijoin_op =? MJOIN_OP_AND then Ok (Z.land a y)
  else if ijoin_op =? MJOIN_OP_REG then Ok y
  else Err.

(** [dst_val[i] = f(dst_val[i])] *)
Definition upd (d : option (list Z)) (i : Z) (f : Z -> res Z) : res (option (list Z)) :=
  match d with
  | None => Ub
  | Some d => a ← rd d i; y ← f a; d ← wr d i y; Ok (Some d)
  end.
Arguments upd : simpl never.

(** The doubling jump: the last probed source row with a link below [v], or
    the row after [src_idx]. *)
Fixpoint jump (fuel : nat) (src_lnk : list Z) (src_nR v src_idx delta prev : Z) : res Z :=
  match fuel with
  | O => NoFuel
  | S fuel =>
      let expt_src_idx := src_idx + delta in
      if src_nR <=? expt_src_idx then Ok prev
      else x ← rd src_lnk expt_src_idx;
           if v <=? x then Ok prev
           else jump fuel src_lnk src_nR v src_idx (delta * 2) expt_src_idx
  end.

(** Advance [src_idx] until its link is at least [v]: found, the new
    [src_idx] and [*ptr_is_any_null]. *)
Fixpoint advance (fuel : nat) (src_lnk : list Z) (src_nR v src_idx : Z) (any : bool)
    : res (bool * Z * bool) :=
  match fuel with
  | O => NoFuel
  | S fuel =>
      if src_nR <=? src_idx then Ok (false, src_idx, any)
      else x ← rd src_lnk src_idx;
           if x =? v then Ok (true, src_idx, any)
           else if v <? x then Ok (false, src_idx, true)
           else i ← jump (S (Z.to_nat src_nR)) src_lnk src_nR v src_idx 1 (src_idx + 1);
                advance fuel src_lnk src_nR v i any
  end.

(** Consume the source rows whose link is [v]. *)
Fixpoint consume (fuel : nat) (w ijoin_op : Z) (src_lnk : list Z)
    (src_val : option (list Z)) (src_nR v dst_idx src_idx : Z) (d : option (list Z))
    : res (Z * option (list Z)) :=
  match fuel with
  | O => NoFuel
  | S fuel =>
      if src_nR <=? src_idx then Ok (src_idx, d)
      else x ← rd src_lnk src_idx;
           if negb (x =? v) then Ok (src_idx - 1, d)
           else d ← match src_val with
                    | Some sv => y ← rd sv src_idx; upd d dst_idx (fun a => agg_step w ijoin_op a y)
                    | None => if ijoin_op =? MJOIN_OP_CNT
                              then upd d dst_idx (fun a => add_to w a 1) else Ok d
                    end;
                consume fuel w ijoin_op src_lnk src_val src_nR v dst_idx (src_idx + 1) d
  end.

(** [dst_idx > 0 && dst_lnk[dst_idx] == dst_lnk[dst_idx-1]] *)
Definition same_as_previous (dst_lnk : list Z) (dst_idx v : Z) : res bool :=
  if 0 <? dst_idx then p ← rd dst_lnk (dst_idx - 1); Ok (v =? p) else Ok false.

(** The body of the loop over destination rows. *)
Definition row (w ijoin_op : Z) (src_lnk : list Z) (src_val : option (list Z)) (src_nR : Z)
    (dst_lnk : list Z) (dst_idx src_idx : Z) (st : join_state) : res (Z * join_state) :=
  v ← rd dst_lnk dst_idx;
  same ← same_as_previous dst_lnk dst_idx v;
  if (same : bool) then
    d ← match dst_val st with
        | None => Ok None
        | Some d => x ← rd d (dst_idx - 1); d ← wr d dst_idx x; Ok (Some d)
        end;
    b ← rd (nn_dst_val st) (dst_idx - 1);
    nn ← wr (nn_dst_val st) dst_idx b;
    Ok (src_idx, {| dst_val := d; nn_dst_val := nn; is_any_null := is_any_null st |})
  else
    r ← advance (S (Z.to_nat src_nR)) src_lnk src_nR v src_idx (is_any_null st);
    let '(found, src_idx, any) := r in
    if (found : bool) then
      nn ← wr (nn_dst_val st) dst_idx TRUE;
      r ← consume (S (Z.to_nat src_nR)) w ijoin_op src_lnk src_val src_nR v dst_idx src_idx (dst_val st);
      Ok (r.1, {| dst_val := r.2; nn_dst_val := nn; is_any_null := any |})
    else
      nn ← wr (nn_dst_val st) dst_idx FALSE;
      Ok (src_idx, {| dst_val := dst_val st; nn_dst_val := nn; is_any_null := true |}).

(** ** A block of destination rows *)

Fixpoint rows (n : nat) (w ijoin_op : Z) (src_lnk : list Z) (src_val : option (list Z))
    (src_nR : Z) (dst_lnk : list Z) (dst_idx src_idx : Z) (st : join_state) : res join_state :=
  match n with
  | O => Ok st
  | S n =>
      r ← row w ijoin_op src_lnk src_val src_nR dst_lnk dst_idx src_idx st;
      rows n w ijoin_op src_lnk src_val src_nR dst_lnk (dst_idx + 1) r.1 r.2
  end.

(** Set the value to 0 where it is not defined. *)
Fixpoint zero_loop (n : nat) (dst_idx : Z) (nn : list Z) (d : option (list Z))
    : res (option (list Z)) :=
  match n with
  | O => Ok d
  | S n =>
      b ← rd nn dst_idx;
      d ← (if b =? FALSE then upd d dst_idx (fun _ => Ok 0) else Ok d);
      zero_loop n (dst_idx + 1) nn d
  end.

Definition core_srt_join (w : Z) (src_lnk : list Z) (src_val : option (list Z)) (src_nR : Z)
    (dst_lnk : list Z) (st : join_state) (dst_lb dst_ub ijoin_op : Z) : res join_state :=
  st ← set_init w st dst_lb dst_ub ijoin_op;
  let n := Z.to_nat (dst_ub - dst_lb) in
  st ← rows n w ijoin_op src_lnk src_val src_nR dst_lnk dst_lb 0 st;
  if is_any_null st then
    d ← zero_loop n dst_lb (nn_dst_val st) (dst_val st);
    Ok {| dst_val := d; nn_dst_val := nn_dst_val st; is_any_null := true |}
  else Ok st.

Definition core_srt_join_I_I_I := core_srt_join 32.
Definition core_srt_join_I_I_L := core_srt_join 32.
Definition core_srt_join_L_I_I := core_srt_join 32.
Definition core_srt_join_L_I_L := core_srt_join 32.
Definition core_srt_join_I_L_I := core_srt_join 64.
Definition core_srt_join_I_L_L := core_srt_join 64.
Definition core_srt_join_L_L_I := core_srt_join 64.
Definition core_srt_join_L_L_L := core_srt_join 64.

(** ** The verb *)

(** The kernel for the types of the source link, the value and the
    destination link. *)
Definition select_kernel (tl tv td : FLD_TYPE) :=
  match tl, tv, td with
  | I4, I4, I4 => Ok core_srt_join_I_I_I
  | I4, I4, I8 => Ok core_srt_join_I_I_L
  | I4, I8, I4 => Ok core_srt_join_I_L_I
  | I4, I8, I8 => Ok core_srt_join_I_L_L
  | I8, I4, I4 => Ok core_srt_join_L_I_I
  | I8, I4, I8 => Ok core_srt_join_L_I_L
  | I8, I8, I4 => Ok core_srt_join_L_L_I
  | I8, I8, I8 => Ok core_srt_join_L_L_L
  | _, _, _ => Err
  end.

(** The loop over blocks.  The status of a kernel is overwritten, not
    checked; a kernel returns -1 only for an operator that the checks of
    [srt_join] have refused. *)
Fixpoint join_blocks (n : nat) (kernel : join_state -> Z -> Z -> res join_state)
    (tid nT block_size dst_nR : Z) (st : join_state) : res join_state :=
  match n with
  | O => Ok st
  | S n =>
      let lb := 0 + tid * block_size in
      let ub := lb + block_size in
      let ub := if tid =? nT - 1 then dst_nR else ub in
      st ← kernel st lb ub;
      join_blocks n kernel (tid + 1) nT block_size dst_nR st
  end.

(** The operator and whether a source value is given agree. *)
Definition check_op (op : option string) (has_val : bool) : res Z :=
  ijoin_op ← mk_mjoin_op op;
  let is_cnt := strcmp_eq (default "" op) "cnt" in
  _ ← (if has_val then go_BYE_if is_cnt else go_BYE_if (negb is_cnt));
  Ok ijoin_op.

(** [srt_join] from the operator to the result files: [src_order] and
    [dst_order] are the answers of the [is_sorted] reduction for the two link
    fields; the result is the type of the new field, its data, its nn data
    and whether the nn field is kept. *)
Definition srt_join (op : option string) (src_order dst_order : string)
    (src_lnk_t : FLD_TYPE) (src_lnk : list Z) (src_val : option (FLD_TYPE * list Z))
    (dst_lnk_t : FLD_TYPE) (dst_lnk : list Z) : res (FLD_TYPE * join_state) :=
  let src_nR := zlen src_lnk in
  let dst_nR := zlen dst_lnk in
  ijoin_op ← check_op op (bool_decide (is_Some src_val));
  _ ← go_BYE_if (negb (strcmp_eq src_order "ascending"));
  _ ← go_BYE_if (negb (strcmp_eq dst_order "ascending"));
  let t := match src_val with
           | Some (t, _) => t
           | None => if src_nR <? INT_MAX then I4 else I8
           end in
  _ ← get_fld_sz t;
  let st := {| dst_val := Some (replicate (length dst_lnk) 0);
               nn_dst_val := replicate (length dst_lnk) 0; is_any_null := false |} in
  '(block_size, nT) ← partition dst_nR 1024 (-1);
  kernel ← select_kernel src_lnk_t t dst_lnk_t;
  st ← join_blocks (Z.to_nat nT)
         (fun st lb ub => kernel src_lnk (snd <$> src_val) src_nR dst_lnk st lb ub ijoin_op)
         0 nT block_size dst_nR st;
  Ok (t, st).

Example join_sum :
  srt_join (Some "sum"%string) "ascending" "ascending" I4 [1; 1; 3; 4] (Some (I4, [10; 20; 5; 7]))
    I4 [0; 1; 1; 2; 4; 9]
  = Ok (I4, {| dst_val := Some [0; 30; 30; 0; 7; 0]; nn_dst_val := [0; 1; 1; 0; 1; 0];
               is_any_null := true |}).
Proof. vm_compute. reflexivity. Qed.

Example join_cnt :
  srt_join (Some "cnt"%string) "ascending" "ascending" I4 [1; 1; 3; 4] None I8 [1; 3]
  = Ok (I4, {| dst_val := Some [2; 1]; nn_dst_val := [1; 1]; is_any_null := false |}).
Proof. vm_compute. reflexivity. Qed.

(** ** Specification *)

(** What the loop makes of the values [ys] of the matching source rows in a
    cell that holds [a]. *)
Definition agg_from (ijoin_op a : Z) (ys : list Z) : Z :=
  if ijoin_op =? MJOIN_OP_SUM then a + foldr Z.add 0 ys
  else if ijoin_op =? MJOIN_OP_MAX then foldr Z.max a ys
  else if ijoin_op =? MJOIN_OP_OR then foldr Z.lor a ys
  else if ijoin_op =? MJOIN_OP_AND then foldr Z.land a ys
  else if ijoin_op =? MJOIN_OP_REG then default a (last ys)
  else a + zlen ys.

(** What the join means to find: the operator on the values [ys] of the
    matching source rows, whatever the cell holds before; 0 when there is none. *)
Definition aggregate (ijoin_op : Z) (ys : list Z) : Z :=
  match ys with
  | [] => 0
  | y :: rest =>
      if ijoin_op =? MJOIN_OP_SUM then foldr Z.add 0 ys
      else if ijoin_op =? MJOIN_OP_MIN then foldr Z.min y rest
      else if ijoin_op =? MJOIN_OP_MAX then foldr Z.max y rest
      else if ijoin_op =? MJOIN_OP_OR then foldr Z.lor 0 ys
      else if ijoin_op =? MJOIN_OP_AND then foldr Z.land y rest
      else if ijoin_op =? MJOIN_OP_REG then default 0 (last ys)
      else zlen ys
  end.

(** The values for which a start from 0 does not show: the maximum of negative
    values and conjunctions are not among them. *)
Definition zero_start_ok (ijoin_op : Z) (ys : list Z) : Prop :=
  ijoin_op <> MJOIN_OP_MIN /\ ijoin_op <> MJOIN_OP_AND /\
  (ijoin_op = MJOIN_OP_MAX -> ys = [] \/ Exists (Z.le 0) ys).

(** Sums and counts stay in the width of the result. *)
Definition fits (w ijoin_op a : Z) (ys : list Z) : Prop :=
  if ijoin_op =? MJOIN_OP_SUM
  then forall k, inS w (a + foldr Z.add 0 (take k ys))
  else if ijoin_op =? MJOIN_OP_CNT then 0 <= a /\ a + zlen ys < 2 ^ (w - 1) else True.

(** The operators whose initial value stays inside the array, with a source
    value present exactly when they read one. *)
Definition op_ok (w ijoin_op : Z) (has_val : bool) : Prop :=
  (has_val = true /\ (ijoin_op = MJOIN_OP_SUM \/ ijoin_op = MJOIN_OP_MAX \/
     ijoin_op = MJOIN_OP_OR \/ ijoin_op = MJOIN_OP_REG \/
     (ijoin_op = MJOIN_OP_AND /\ w <> 32))) \/
  (has_val = false /\ ijoin_op = MJOIN_OP_CNT).

(** The values of the source rows whose link is [v], in order. *)
Definition matching (src_lnk : list Z) (src_val : option (list Z)) (v : Z) : list Z :=
  snd <$> filter (fun p => p.1 = v) (zip src_lnk (default src_lnk src_val)).

(** One step of the loop over source rows, and the loop, on the value alone. *)
Definition cell_step (w op : Z) (has_val : bool) (a y : Z) : res Z :=
  if has_val then agg_step w op a y
  else if op =? MJOIN_OP_CNT then add_to w a 1 else Ok a.

Fixpoint agg_fold (w op : Z) (has_val : bool) (a : Z) (ys : list Z) : res Z :=
  match ys with
  | [] => Ok a
  | y :: ys => a ← cell_step w op has_val a y; agg_fold w op has_val a ys
  end.

Lemma foldr_max_acc a y ys : foldr Z.max (Z.max a y) ys = Z.max y (foldr Z.max a ys).
Proof. induction ys as [|z ys IH]; simpl; [|rewrite IH]; lia. Qed.

Lemma foldr_lor_acc a y ys : foldr Z.lor (Z.lor a y) ys = Z.lor y (foldr Z.lor a ys).
Proof.
  induction ys as [|z ys IH]; simpl; [apply Z.lor_comm|].
  by rewrite IH, !Z.lor_assoc, (Z.lor_comm z y).
Qed.

Lemma foldr_land_acc a y ys : foldr Z.land (Z.land a y) ys = Z.land y (foldr Z.land a ys).
Proof.
  induction ys as [|z ys IH]; simpl; [apply Z.land_comm|].
  by rewrite IH, !Z.land_assoc, (Z.land_comm z y).
Qed.

Lemma first_le_max y ys : y <= foldr Z.max y ys.
Proof. induction ys as [|z ys IH]; simpl; lia. Qed.

Lemma foldr_max_zero y ys : Exists (Z.le 0) (y :: ys) -> foldr Z.max 0 (y :: ys) = foldr Z.max y ys.
Proof.
  assert (foldr Z.max 0 (y :: ys) = Z.max 0 (foldr Z.max y ys)) as ->.
  { simpl. induction ys as [|z ys IH]; simpl; lia. }
  intros H. enough (0 <= foldr Z.max y ys) by lia.
  apply Exists_cons in H as [H|H]; [pose proof (first_le_max y ys); lia|].
  induction H as [z ys Hz|z ys Hz IH]; simpl; lia.
Qed.

Lemma agg_from_zero op ys : zero_start_ok op ys -> agg_from op 0 ys = aggregate op ys.
Proof.
  intros (Hmin & Hand & Hmax). unfold agg_from, aggregate. destruct ys as [|y ys].
  { repeat case_match; reflexivity. }
  destruct (Z.eqb_spec op MJOIN_OP_SUM); [simpl; lia|]. destruct (Z.eqb_spec op MJOIN_OP_MIN); [done|].
  destruct (Z.eqb_spec op MJOIN_OP_MAX) as [E|]; [|by destruct (Z.eqb_spec op MJOIN_OP_AND)].
  destruct (Hmax E) as [?|Hex]; [done|]. by apply foldr_max_zero.
Qed.

Lemma agg_fold_value w op has_val ys : forall a,
  0 < w -> op_ok w op has_val -> fits w op a ys ->
  agg_fold w op has_val a ys = Ok (agg_from op a ys).
Proof.
  induction ys as [|y ys IH]; intros a Hw Hop Hfit.
  { destruct Hop as [[_ [->|[->|[->|[->|[-> _]]]]]]|[_ ->]]; 
      cbn [agg_fold]; f_equal; unfold agg_from; simpl; unfold zlen; simpl; lia. }
  simpl. destruct Hop as [[-> Hc]|[-> ->]].
  - assert (exists a', cell_step w op true a y = Ok a' /\ fits w op a' ys /\
              agg_from op a' ys = agg_from op a (y :: ys)) as (a' & -> & Hf & Hv).
    { destruct Hc as [->|[->|[->|[->|[-> _]]]]];
        unfold cell_step, agg_step, agg_from, fits in *; simpl in *.
      + exists (a + y). split; [apply add_to_Ok|split; [|lia]].
        * specialize (Hfit 1%nat). simpl in Hfit. by rewrite Z.add_0_r in Hfit.
        * intros k. specialize (Hfit (S k)). simpl in Hfit. by rewrite Z.add_assoc in Hfit.
      + exists (Z.max a y). split; [|split; [done|apply foldr_max_acc]].
        f_equal. destruct (Z.ltb_spec a y); lia.
      + exists (Z.lor a y). by rewrite foldr_lor_acc.
      + exists y. split; [done|]. split; [done|]. by rewrite last_cons; destruct (last ys).
      + exists (Z.land a y). by rewrite foldr_land_acc. }
    simpl. rewrite <- Hv. apply IH; [done|by left|done].
  - unfold cell_step, agg_from, fits in *. simpl in *. rewrite zlen_cons in *.
    pose proof (zlen_nonneg ys).
    rewrite add_to_Ok by (unfold inS; lia). simpl. rewrite IH; [|done|by right|simpl; lia].
    f_equal. simpl. lia.
Qed.

(** ** The source cursor *)
Section cursor.
Context (src_lnk : list Z) (Hasc : StronglySorted Z.le src_lnk).
Abbreviation nR := (zlen src_lnk).

(** All links before position [i] are below [v]. *)
Definition all_below (i v : Z) : Prop :=
  forall j x, j < i -> src_lnk !z j = Some x -> x < v.

Lemma all_below_le i y v : src_lnk !z i = Some y -> y < v -> all_below (i + 1) v.
Proof.
  intros Hi Hy j x Hj Hx. pose proof (ascending_le _ j i x y Hasc ltac:(lia) Hx Hi). lia.
Qed.

Lemma jump_ok v i fuel : forall delta prev,
  0 <= i < nR -> 1 <= delta -> 0 < Z.of_nat fuel -> nR - (i + delta) < Z.of_nat fuel ->
  i < prev <= nR -> all_below prev v ->
  exists r, jump fuel src_lnk nR v i delta prev = Ok r /\ i < r <= nR /\ all_below r v.
Proof.
  induction fuel as [|fuel IH]; intros delta prev Hi Hd Hpos Hfuel Hprev Hbelow; [lia|].
  simpl. destruct (Z.leb_spec nR (i + delta)); [by exists prev|].
  destruct (rd_total src_lnk (i + delta) ltac:(lia)) as (x & Hx). rewrite Hx. simpl.
  destruct (Z.leb_spec v x); [by exists prev|].
  apply rd_Ok in Hx. apply IH; try lia.
  intros j y Hj Hy. apply (all_below_le (i + delta) x v Hx ltac:(lia) j y); [lia|done].
Qed.

Lemma advance_ok v fuel : forall i any,
  0 <= i <= nR -> nR - i < Z.of_nat fuel -> all_below i v ->
  exists f i' any', advance fuel src_lnk nR v i any = Ok (f, i', any') /\
    0 <= i' <= nR /\ all_below i' v /\
    (if f : bool then src_lnk !z i' = Some v /\ any' = any else v ∉ src_lnk).
Proof.
  induction fuel as [|fuel IH]; intros i any Hi Hfuel Hbelow; [lia|]. simpl.
  destruct (Z.leb_spec nR i) as [Hend|Hin].
  { exists false, i, any. do 3 (split; [done|]). intros (k & Hk)%list_elem_of_lookup.
    rewrite <- zlookup_nat in Hk. pose proof (zlookup_Some_range _ _ _ Hk).
    specialize (Hbelow (Z.of_nat k) v ltac:(lia) Hk). lia. }
  destruct (rd_total src_lnk i ltac:(lia)) as (x & Hx). rewrite Hx. simpl. apply rd_Ok in Hx.
  destruct (Z.eqb_spec x v) as [->|Hne]; [by exists true, i, any|].
  destruct (Z.ltb_spec v x) as [Hlt|Hge].
  { exists false, i, true. do 3 (split; [done|]). intros (k & Hk)%list_elem_of_lookup.
    rewrite <- zlookup_nat in Hk. destruct (decide (Z.of_nat k < i)) as [Hki|Hki].
    - specialize (Hbelow _ _ Hki Hk). lia.
    - pose proof (ascending_le _ i (Z.of_nat k) x v Hasc ltac:(lia) Hx Hk). lia. }
  destruct (jump_ok v i (S (Z.to_nat nR)) 1 (i + 1)) as (r & Hr & Hri & Hrb); try lia.
  { apply (all_below_le i x); [done|lia]. }
  cbn [jump] in Hr. rewrite Hr. simpl. apply IH; [lia|lia|done].
Qed.

Section values.
Context (w op : Z) (src_val : option (list Z)).
Context (Hlen : zlen (default src_lnk src_val) = nR).
Abbreviation has_val := (bool_decide (is_Some src_val)).

Definition matching_from (i v : Z) : list Z :=
  snd <$> filter (fun p => p.1 = v) (drop (Z.to_nat i) (zip src_lnk (default src_lnk src_val))).

Lemma pairs_lookup (k : nat) p :
  zip src_lnk (default src_lnk src_val) !! k = Some p -> src_lnk !z (Z.of_nat k) = Some p.1.
Proof.
  intros Hp. rewrite zlookup_nat. destruct p as [x y].
  apply lookup_zip_Some in Hp. apply Hp.
Qed.

Lemma matching_skip i v : all_below i v -> matching src_lnk src_val v = matching_from i v.
Proof.
  intros Hb. unfold matching, matching_from.
  rewrite <- (take_drop (Z.to_nat i) (zip _ _)) at 1. rewrite filter_app.
  assert (filter (fun p : Z * Z => p.1 = v)
            (take (Z.to_nat i) (zip src_lnk (default src_lnk src_val))) = []) as ->; [|done].
  apply filter_none. intros k p [Hp Hk]%lookup_take_Some Heq.
  apply pairs_lookup in Hp. specialize (Hb (Z.of_nat k) _ ltac:(lia) Hp). lia.
Qed.

Lemma matching_from_nil i v :
  0 <= i -> (forall j x, i <= j -> src_lnk !z j = Some x -> v < x) -> matching_from i v = [].
Proof.
  intros Hi Hb. unfold matching_from.
  assert (filter (fun p : Z * Z => p.1 = v)
            (drop (Z.to_nat i) (zip src_lnk (default src_lnk src_val))) = []) as ->; [|done].
  apply filter_none. intros k p Hp Heq. rewrite lookup_drop in Hp.
  apply pairs_lookup in Hp.
  specialize (Hb (Z.of_nat (Z.to_nat i + k)) p.1 ltac:(lia) Hp). lia.
Qed.

Lemma matching_from_cons i v y :
  src_lnk !z i = Some v -> default src_lnk src_val !z i = Some y ->
  matching_from i v = y :: matching_from (i + 1) v.
Proof.
  intros Hx Hy. pose proof (zlookup_Some_range _ _ _ Hx). unfold matching_from.
  rewrite zlookup_to_nat in Hx, Hy by lia.
  rewrite (drop_S _ (v, y)); [|apply lookup_zip_Some; done].
  rewrite filter_cons_True by done. simpl. do 4 f_equal. lia.
Qed.

Lemma not_elem_matching v : v ∉ src_lnk -> matching src_lnk src_val v = [].
Proof.
  intros Hv. unfold matching.
  assert (filter (fun p : Z * Z => p.1 = v) (zip src_lnk (default src_lnk src_val)) = []) as ->;
    [|done].
  apply filter_none. intros k p Hp%pairs_lookup Heq. apply Hv.
  rewrite zlookup_nat in Hp. rewrite <- Heq. by apply list_elem_of_lookup_2 in Hp.
Qed.

(** One cell of the destination. *)
Lemma upd_middle (l1 l2 : list Z) a b f :
  f a = Ok b -> upd (Some (l1 ++ a :: l2)) (zlen l1) f = Ok (Some (l1 ++ b :: l2)).
Proof. intros Hf. unfold upd. rewrite rd_middle. simpl. rewrite Hf. simpl. by rewrite wr_middle. Qed.

Lemma upd_cell (l1 l2 : list Z) i a b y :
  default src_lnk src_val !z i = Some y -> cell_step w op has_val a y = Ok b ->
  match src_val with
  | Some sv => y ← rd sv i; upd (Some (l1 ++ a :: l2)) (zlen l1) (fun a => agg_step w op a y)
  | None => if op =? MJOIN_OP_CNT
            then upd (Some (l1 ++ a :: l2)) (zlen l1) (fun a => add_to w a 1)
            else Ok (Some (l1 ++ a :: l2))
  end = Ok (Some (l1 ++ b :: l2)).
Proof.
  intros Hy Hstep. destruct src_val as [sv|]; simpl in *.
  - rewrite (proj2 (rd_Ok sv i y) Hy). simpl. by apply upd_middle.
  - unfold cell_step in Hstep. simpl in Hstep. destruct (op =? MJOIN_OP_CNT).
    + by apply upd_middle.
    + by injection Hstep as ->.
Qed.

Definition upto (i v : Z) : Prop :=
  0 <= i <= nR /\ forall j x, j < i -> src_lnk !z j = Some x -> x <= v.

Lemma consume_ok v l1 l2 r fuel : forall i a,
  nR - i < Z.of_nat fuel -> upto i v ->
  (forall j x, i <= j -> src_lnk !z j = Some x -> v <= x) ->
  (0 < i \/ src_lnk !z i = Some v) ->
  agg_fold w op has_val a (matching_from i v) = Ok r ->
  exists i', consume fuel w op src_lnk src_val nR v (zlen l1) i (Some (l1 ++ a :: l2))
               = Ok (i', Some (l1 ++ r :: l2)) /\ upto i' v.
Proof.
  induction fuel as [|fuel IH]; intros i a Hfuel Hup Hge Hstart Hfold;
    pose proof Hup as [Hi Hle]; [lia|].
  simpl. destruct (Z.leb_spec nR i) as [Hend|Hin].
  { rewrite matching_from_nil in Hfold by
      (try lia; intros j x Hj Hx; apply zlookup_Some_range in Hx; lia).
    injection Hfold as ->. by exists i. }
  destruct (rd_total src_lnk i ltac:(lia)) as (x & Hx). rewrite Hx. simpl. apply rd_Ok in Hx.
  destruct (Z.eqb_spec x v) as [->|Hne]; simpl.
  - destruct (zlookup_is_Some (default src_lnk src_val) i ltac:(lia)) as (y & Hy).
    rewrite (matching_from_cons i v y Hx Hy) in Hfold. simpl in Hfold.
    apply res_bind_Ok in Hfold as (b & Hb & Hfold).
    rewrite (upd_cell l1 l2 i a b y Hy Hb). simpl.
    apply IH; [lia| | |lia|done].
    + split; [lia|]. intros j z Hj Hz. apply (ascending_le src_lnk j i z v Hasc); [lia|done|done].
    + intros j z Hj. apply Hge. lia.
  - assert (v < x) by (pose proof (Hge i x ltac:(lia) Hx); lia).
    rewrite matching_from_nil in Hfold; [|lia|].
    + injection Hfold as ->. exists (i - 1). split; [done|].
      assert (0 < i) by (destruct Hstart; [done|congruence]).
      split; [lia|]. intros j z Hj. apply Hle. lia.
    + intros j z Hj Hz. pose proof (ascending_le src_lnk i j x z Hasc Hj Hx Hz). lia.
Qed.

(** ** Rows *)

(** What the join owes a destination row with link [v]. *)
Definition row_val (v : Z) : Z := agg_from op 0 (matching src_lnk src_val v).
Definition row_nn (v : Z) : Z := if decide (v ∈ src_lnk) then TRUE else FALSE.

(** The shared state when the rows of [pre] are done and those of [post] are
    not. *)
Definition after (pre post : list Z) : join_state := {|
  dst_val := Some ((row_val <$> pre) ++ replicate (length post) 0);
  nn_dst_val := (row_nn <$> pre) ++ replicate (length post) 0;
  is_any_null := bool_decide (Exists (fun v => v ∉ src_lnk) pre)
|}.

Context (Hw : 0 < w) (Hop : op_ok w op has_val).
Context (Hfits : forall v, fits w op 0 (matching src_lnk src_val v)).

Lemma row_val_unmatched v : v ∉ src_lnk -> row_val v = 0.
Proof.
  intros Hv. unfold row_val. rewrite (not_elem_matching v Hv).
  destruct Hop as [[_ [->|[->|[->|[->|[-> _]]]]]]|[_ ->]]; done.
Qed.

Lemma fmap_middle {A} (f : Z -> A) (pre post : list Z) (v : Z) l :
  (f <$> pre ++ v :: post) ++ l = (f <$> pre) ++ f v :: (f <$> post) ++ l.
Proof. by rewrite fmap_app, <- app_assoc. Qed.

Lemma wr_fmap_middle {A} (f : Z -> A) (pre post : list Z) (v : Z) (x : A) :
  wr ((f <$> pre) ++ x :: replicate (length post) x) (zlen pre) (f v)
    = Ok ((f <$> pre ++ [v]) ++ replicate (length post) x).
Proof.
  by rewrite <- (zlen_fmap f pre), wr_middle, fmap_middle.
Qed.

Lemma rd_fmap_last {A} (f : Z -> A) (pre : list Z) (u : Z) (l : list A) :
  rd ((f <$> pre ++ [u]) ++ l) (zlen (pre ++ [u]) - 1) = Ok (f u).
Proof.
  rewrite fmap_app, <- app_assoc, zlen_app. change (zlen [u]) with 1.
  rewrite Z.add_simpl_r, <- (zlen_fmap f pre). apply rd_middle.
Qed.

Lemma after_null pre v post (b : bool) :
  (b = true <-> v ∉ src_lnk \/ Exists (fun v => v ∉ src_lnk) pre) ->
  {| dst_val := Some ((row_val <$> pre ++ [v]) ++ replicate (length post) 0);
     nn_dst_val := (row_nn <$> pre ++ [v]) ++ replicate (length post) 0;
     is_any_null := b |} = after (pre ++ [v]) post.
Proof.
  intros Hb. unfold after. f_equal. apply eq_true_iff_eq.
  rewrite Hb, bool_decide_eq_true, Exists_app, Exists_cons, Exists_nil. tauto.
Qed.

(** Source rows before [i] have links up to that of the last row done. *)
Definition cursor_at (i : Z) (pre : list Z) : Prop :=
  0 <= i <= nR /\
  forall j x, j < i -> src_lnk !z j = Some x -> exists u, last pre = Some u /\ x <= u.

Lemma upto_cursor i v pre : upto i v -> cursor_at i (pre ++ [v]).
Proof.
  intros [Hi Hle]. split; [done|]. intros j x Hj Hx. exists v.
  rewrite last_snoc. split; [done|]. by apply (Hle j).
Qed.

Lemma cursor_below i pre v post :
  StronglySorted Z.le (pre ++ v :: post) -> last pre <> Some v ->
  cursor_at i pre -> all_below i v.
Proof.
  intros Hs Hne [_ Hc] j x Hj Hx. destruct (Hc j x Hj Hx) as (u & Hu & Hxu).
  apply last_Some in Hu as [pre' ->]. rewrite <- app_assoc in Hs. simpl in Hs.
  rewrite SSorted_lookup in Hs.
  assert (u <= v).
  { apply (Hs (length pre') (S (length pre'))); [lia|apply list_lookup_middle; done|].
    change (u :: v :: post) with ([u] ++ v :: post). rewrite app_assoc.
    apply list_lookup_middle. rewrite length_app. simpl. lia. }
  rewrite last_snoc in Hne. assert (u <> v) by congruence. lia.
Qed.

Lemma same_as_previous_ok pre v post :
  same_as_previous (pre ++ v :: post) (zlen pre) v = Ok (bool_decide (last pre = Some v)).
Proof.
  unfold same_as_previous. destruct pre as [|u pre' _] using rev_ind.
  - rewrite bool_decide_false by done. done.
  - rewrite last_snoc, zlen_app. change (zlen [u]) with 1. pose proof (zlen_nonneg pre').
    destruct (Z.ltb_spec 0 (zlen pre' + 1)); [|lia].
    rewrite Z.add_simpl_r, <- app_assoc. simpl. rewrite rd_middle. simpl. f_equal.
    destruct (Z.eqb_spec v u) as [->|Hne].
    + by rewrite bool_decide_true.
    + rewrite bool_decide_false by congruence. done.
Qed.

Lemma row_ok pre v post i :
  StronglySorted Z.le (pre ++ v :: post) -> cursor_at i pre ->
  exists i', row w op src_lnk src_val nR (pre ++ v :: post) (zlen pre) i (after pre (v :: post))
               = Ok (i', after (pre ++ [v]) post) /\ cursor_at i' (pre ++ [v]).
Proof.
  intros Hs Hc. unfold row. rewrite rd_middle. cbn -[advance consume]. rewrite same_as_previous_ok. cbn -[advance consume replicate].
  destruct (decide (last pre = Some v)) as [Hlast|Hlast];
    [rewrite (bool_decide_true _ Hlast)|rewrite (bool_decide_false _ Hlast)].
  - exists i. apply last_Some in Hlast as [pre' ->].
    rewrite !rd_fmap_last. cbn -[advance consume]. rewrite !wr_fmap_middle. cbn -[advance consume replicate]. split.
    + f_equal. f_equal. apply after_null.
      rewrite bool_decide_eq_true, Exists_app, Exists_cons. tauto.
    + destruct Hc as [Hi Hc]. split; [done|]. intros j x Hj Hx.
      destruct (Hc j x Hj Hx) as (u & Hu & Hxu). exists u.
      rewrite last_snoc in Hu. by rewrite last_snoc.
  - pose proof (cursor_below i pre v post Hs Hlast Hc) as Hbelow. destruct Hc as [Hi _].
    destruct (advance_ok v (S (Z.to_nat nR)) i (bool_decide (Exists (fun v => v ∉ src_lnk) pre))
                Hi ltac:(lia) Hbelow) as (f & i1 & any & Ha & Hi1 & Hb1 & Hf).
    rewrite Ha. cbn -[advance consume]. destruct f.
    + destruct Hf as [Hi1v ->].
      assert (v ∈ src_lnk) as Hin.
      { rewrite zlookup_to_nat in Hi1v by lia. by apply list_elem_of_lookup_2 in Hi1v. }
      assert (TRUE = row_nn v) as -> by (unfold row_nn; by rewrite decide_True).
      rewrite wr_fmap_middle. cbn -[advance consume].
      destruct (consume_ok v (row_val <$> pre) (replicate (length post) 0) (row_val v)
                  (S (Z.to_nat nR)) i1 0) as (i' & Hcons & Hup).
      * lia.
      * split; [lia|]. intros j x Hj Hx. pose proof (Hb1 j x Hj Hx). lia.
      * intros j x Hj Hx. by apply (ascending_le src_lnk i1 j v x Hasc).
      * by right.
      * rewrite <- (matching_skip i1 v Hb1). by apply agg_fold_value.
      * rewrite zlen_fmap in Hcons. rewrite Hcons. cbn -[advance consume].
        exists i'. split; [|by apply upto_cursor].
        f_equal. f_equal. rewrite <- (after_null pre v post (bool_decide (Exists (fun v => v ∉ src_lnk) pre))).
        -- by rewrite (fmap_middle row_val).
        -- rewrite bool_decide_eq_true. tauto.
    + assert (FALSE = row_nn v) as -> by (unfold row_nn; by rewrite decide_False).
      rewrite wr_fmap_middle. cbn -[advance consume]. exists i1. split.
      * f_equal. f_equal. rewrite <- (after_null pre v post true); [|tauto].
        by rewrite (fmap_middle row_val), (row_val_unmatched v Hf).
      * apply upto_cursor. split; [lia|]. intros j x Hj Hx. pose proof (Hb1 j x Hj Hx). lia.
Qed.

(** ** Blocks *)

Lemma rows_ok todo : forall pre post i,
  StronglySorted Z.le (pre ++ todo ++ post) -> cursor_at i pre ->
  rows (length todo) w op src_lnk src_val nR (pre ++ todo ++ post) (zlen pre) i
    (after pre (todo ++ post)) = Ok (after (pre ++ todo) post).
Proof.
  induction todo as [|v todo IH]; intros pre post i Hs Hc; [by rewrite app_nil_r|].
  simpl. destruct (row_ok pre v (todo ++ post) i Hs Hc) as (i' & Hrow & Hc').
  simpl in Hrow. rewrite Hrow. simpl.
  specialize (IH (pre ++ [v]) post i'). rewrite <- !app_assoc in IH. simpl in IH.
  rewrite zlen_app in IH. change (zlen [v]) with 1 in IH. by apply IH.
Qed.

(** Rows without a match hold 0 already. *)
Lemma zero_loop_ok todo : forall pre (post : list Z),
  zero_loop (length todo) (zlen pre) ((row_nn <$> pre ++ todo) ++ replicate (length post) 0)
    (Some ((row_val <$> pre ++ todo) ++ replicate (length post) 0))
  = Ok (Some ((row_val <$> pre ++ todo) ++ replicate (length post) 0)).
Proof.
  induction todo as [|v todo IH]; intros pre post; [done|]. simpl.
  rewrite !fmap_middle. rewrite <- (zlen_fmap row_nn pre) at 1. rewrite rd_middle. simpl.
  assert ((if row_nn v =? FALSE
           then upd (Some ((row_val <$> pre) ++ row_val v :: (row_val <$> todo) ++
                  replicate (length post) 0)) (zlen pre) (fun _ => Ok 0)
           else Ok (Some ((row_val <$> pre) ++ row_val v :: (row_val <$> todo) ++
                  replicate (length post) 0)))
          = Ok (Some ((row_val <$> pre) ++ row_val v :: (row_val <$> todo) ++
                  replicate (length post) 0))) as ->.
  { destruct (Z.eqb_spec (row_nn v) FALSE) as [Hn|Hn]; [|done].
    rewrite <- (zlen_fmap row_val pre), (upd_middle _ _ _ 0) by done. do 4 f_equal.
    unfold row_nn in Hn. destruct (decide (v ∈ src_lnk)) as [|Hv]; [done|].
    by rewrite (row_val_unmatched v Hv). }
  simpl. specialize (IH (pre ++ [v]) post). rewrite <- !app_assoc in IH. simpl in IH.
  rewrite zlen_app in IH. change (zlen [v]) with 1 in IH. rewrite !fmap_middle in IH. apply IH.
Qed.

Lemma assign_const_none X pos n val : n <= 0 -> assign_const X pos n val = Ok X.
Proof.
  intros Hn. unfold assign_const.
  destruct (drop (Z.to_nat pos) X) as [|x l] eqn:E; simpl; destruct (Z.leb_spec n 0); try lia;
    simpl; by rewrite <- E, take_drop.
Qed.

(** The arguments of [assign_const_I*] being in the wrong order, nothing is
    initialised. *)
Lemma set_init_nothing st d lb ub : dst_val st = Some d -> set_init w st lb ub op = Ok st.
Proof.
  intros Hd. unfold set_init. rewrite assign_const_none by (unfold FALSE; lia).
  rewrite Hd. simpl. pose proof (Z.pow_nonneg 2 (w - 1) ltac:(lia)).
  assert (forall n, n <= 0 ->
    (d' ← assign_const d lb n (ub - lb); Ok (Some d')) = Ok (Some d)) as Hc.
  { intros n Hn. by rewrite assign_const_none. }
  destruct st as [dv nn any]; simpl in *; subst dv.
  destruct Hop as [[_ [->|[->|[->|[->|[-> Hw32]]]]]]|[_ ->]]; simpl;
    try (rewrite (proj2 (Z.eqb_neq _ _) Hw32)); by rewrite Hc by (unfold FALSE; lia).
Qed.

Lemma core_ok pre todo post :
  StronglySorted Z.le (pre ++ todo ++ post) ->
  core_srt_join w src_lnk src_val nR (pre ++ todo ++ post) (after pre (todo ++ post))
    (zlen pre) (zlen pre + zlen todo) op = Ok (after (pre ++ todo) post).
Proof.
  intros Hs. unfold core_srt_join. erewrite set_init_nothing by reflexivity. simpl.
  rewrite Z.add_simpl_l, to_nat_zlen.
  rewrite (rows_ok todo pre post 0 Hs); [simpl|].
  - destruct (bool_decide (Exists (fun v => v ∉ src_lnk) (pre ++ todo))) eqn:Hany; [|done].
    rewrite zero_loop_ok. simpl. unfold after. by rewrite Hany.
  - split; [pose proof (zlen_nonneg src_lnk); lia|].
    intros j x Hj Hx. apply zlookup_Some_range in Hx. lia.
Qed.

Lemma join_blocks_ok dst_lnk nT bs n : forall tid pre rest,
  StronglySorted Z.le dst_lnk -> dst_lnk = pre ++ rest ->
  0 <= tid < nT -> 1 <= bs -> bs * nT <= zlen dst_lnk ->
  nT = tid + Z.of_nat n -> zlen pre = tid * bs ->
  join_blocks n (fun st lb ub => core_srt_join w src_lnk src_val nR dst_lnk st lb ub op)
    tid nT bs (zlen dst_lnk) (after pre rest) = Ok (after dst_lnk []).
Proof.
  induction n as [|n IH]; intros tid pre rest Hs Hsplit Htid Hbs Hfit HnT Hpre; [lia|].
  cbn [join_blocks]. rewrite Z.add_0_l, <- Hpre.
  assert (zlen dst_lnk = zlen pre + zlen rest) as Hz by (by rewrite Hsplit, zlen_app).
  destruct (Z.eqb_spec tid (nT - 1)) as [Hlast|Hmore].
  - assert (n = 0%nat) as -> by lia. rewrite Hz. subst dst_lnk.
    pose proof (core_ok pre rest []) as Hcore. rewrite app_nil_r in Hcore.
    rewrite Hcore by done. done.
  - assert (bs <= zlen rest) by nia.
    rewrite <- (take_drop (Z.to_nat bs) rest) in Hsplit |- *.
    set (todo := take (Z.to_nat bs) rest) in *. set (post := drop (Z.to_nat bs) rest) in *.
    assert (zlen todo = bs) as Htodo.
    { unfold todo, zlen in *. rewrite length_take. lia. }
    pose proof (core_ok pre todo post) as Hcore. rewrite <- Hsplit, Htodo in Hcore.
    rewrite Hcore by done. simpl. apply IH; try done; try lia.
    + by rewrite <- app_assoc.
    + rewrite zlen_app. lia.
Qed.

End values.
End cursor.

(** The integer types of a value and their widths. *)
Definition width_of (t : FLD_TYPE) : Z := if decide (t = I4) then 32 else 64.
Definition is_int_type (t : FLD_TYPE) : Prop := t = I4 \/ t = I8.

(** The type of the result. *)
Definition result_type (src_nR : Z) (src_val : option (FLD_TYPE * list Z)) : FLD_TYPE :=
  match src_val with
  | Some (t, _) => t
  | None => if src_nR <? INT_MAX then I4 else I8
  end.

Lemma select_kernel_ok tl t td :
  is_int_type tl -> is_int_type t -> is_int_type td ->
  select_kernel tl t td = Ok (core_srt_join (width_of t)).
Proof. by intros [->| ->] [->| ->] [->| ->]. Qed.

Lemma result_int_type n src_val :
  (forall t X, src_val = Some (t, X) -> is_int_type t) -> is_int_type (result_type n src_val).
Proof.
  intros Ht. destruct src_val as [[t X]|]; simpl; [by eapply Ht|].
  destruct (n <? INT_MAX); [by left|by right].
Qed.

Lemma get_fld_sz_int t : is_int_type t -> exists n, get_fld_sz t = Ok n.
Proof. intros [->| ->]; by eexists. Qed.

Lemma check_op_ok op ijoin_op w has_val :
  mk_mjoin_op op = Ok ijoin_op -> op_ok w ijoin_op has_val -> check_op op has_val = Ok ijoin_op.
Proof.
  intros Hmk Hop. unfold check_op. rewrite Hmk. simpl. destruct op as [op|]; [|done]. simpl in *.
  destruct (strcmp_eq op "cnt") eqn:Ecnt.
  - unfold strcmp_eq in Ecnt. apply bool_decide_eq_true in Ecnt as ->. simpl in Hmk.
    injection Hmk as <-.
    destruct Hop as [[_ [Hx|[Hx|[Hx|[Hx|[Hx _]]]]]]|[-> _]]; done.
  - destruct has_val; [done|]. destruct Hop as [[Hx _]|[_ ->]]; [done|]. exfalso.
    repeat match type of Hmk with (if ?c then _ else _) = _ => destruct c end; done.
Qed.

(** What the join computes with the operators whose initial value stays inside
    the array: every cell is aggregated from the 0 of the fresh file. *)
Lemma srt_join_from_zero (op : option string) (ijoin_op : Z) (tl td : FLD_TYPE)
    (src_lnk dst_lnk : list Z) (src_val : option (FLD_TYPE * list Z)) :
  let t := result_type (zlen src_lnk) src_val in
  mk_mjoin_op op = Ok ijoin_op ->
  op_ok (width_of t) ijoin_op (bool_decide (is_Some src_val)) ->
  is_int_type tl -> is_int_type td ->
  (forall t X, src_val = Some (t, X) -> is_int_type t /\ zlen X = zlen src_lnk) ->
  StronglySorted Z.le src_lnk -> StronglySorted Z.le dst_lnk ->
  0 < zlen dst_lnk -> zlen dst_lnk / 1024 < INT_MAX ->
  (forall v, fits (width_of t) ijoin_op 0 (matching src_lnk (snd <$> src_val) v)) ->
  exists st, srt_join op "ascending" "ascending" tl src_lnk src_val td dst_lnk = Ok (t, st) /\
    dst_val st = Some ((fun v => agg_from ijoin_op 0 (matching src_lnk (snd <$> src_val) v))
                         <$> dst_lnk) /\
    nn_dst_val st = (fun v => if decide (v ∈ src_lnk) then 1 else 0) <$> dst_lnk /\
    (is_any_null st = true <-> exists v, v ∈ dst_lnk /\ v ∉ src_lnk).
Proof.
  intros t Hmk Hop Htl Htd Hval Hsrc Hdst Hn Hmax Hfits.
  assert (is_int_type t) as Ht.
  { apply result_int_type. intros t' X HX. by apply (Hval t' X). }
  pose proof (get_fld_sz_int t Ht) as [sz Hsz].
  destruct (partition_unlimited (zlen dst_lnk) 1024 Hn ltac:(lia) Hmax)
    as (bs & nT & Hpart & HnT & Hbs & Hcover).
  unfold srt_join. fold (result_type (zlen src_lnk) src_val). fold t.
  rewrite (check_op_ok op ijoin_op _ _ Hmk Hop). simpl. rewrite Hsz. simpl.
  rewrite Hpart. simpl. rewrite (select_kernel_ok tl t td Htl Ht Htd). simpl.
  assert (bool_decide (is_Some src_val) = bool_decide (is_Some (snd <$> src_val))) as Hsome.
  { apply bool_decide_ext. by rewrite fmap_is_Some. }
  rewrite Hsome in Hop.
  assert (zlen (default src_lnk (snd <$> src_val)) = zlen src_lnk) as Hlen.
  { destruct src_val as [[t' X]|]; [|done]. by apply (Hval t' X). }
  assert (0 < width_of t) as Hw by (unfold width_of; destruct (decide (t = I4)); lia).
  pose proof (join_blocks_ok src_lnk Hsrc (width_of t) ijoin_op _ Hlen Hw Hop Hfits dst_lnk nT bs
    (Z.to_nat nT) 0 [] dst_lnk Hdst eq_refl ltac:(lia) Hbs Hcover ltac:(lia) ltac:(done)) as Hb.
  unfold after at 1 in Hb. simpl in Hb. rewrite Hb. simpl.
  eexists. split; [done|]. unfold after. simpl. rewrite !app_nil_r.
  split; [done|]. split; [done|]. rewrite bool_decide_eq_true, Exists_exists. done.
Qed.

(** Claim C13. The join of two tables on ascending link fields, with the
    operators reg, sum, cnt, or and max: for every destination row, in every
    block and across blocks, the value is the sum, the number, the disjunction,
    the maximum, or the last of the values of all the source rows with the same
    link (0 when there is none), the nn field says whether there is such a row,
    and the nn field is kept exactly when some destination row has none.  The
    doubling jump over source rows, the copy from the previous row and the
    split in blocks do not show.  For max one of the values must not be
    negative: the kernels start from the 0 of the fresh file and not from
    INT_MIN, and the maximum of negative values comes out as 0; for the same
    reason [and] on 64-bit values gives 0 ([srt_join_starts_from_zero]), and
    min writes outside the array ([srt_join_init_overrun]). *)
Theorem srt_join_correct (op : option string) (ijoin_op : Z) (tl td : FLD_TYPE)
    (src_lnk dst_lnk : list Z) (src_val : option (FLD_TYPE * list Z)) :
  let t := result_type (zlen src_lnk) src_val in
  mk_mjoin_op op = Ok ijoin_op ->
  op_ok (width_of t) ijoin_op (bool_decide (is_Some src_val)) ->
  (forall v, v ∈ dst_lnk -> zero_start_ok ijoin_op (matching src_lnk (snd <$> src_val) v)) ->
  is_int_type tl -> is_int_type td ->
  (forall t X, src_val = Some (t, X) -> is_int_type t /\ zlen X = zlen src_lnk) ->
  StronglySorted Z.le src_lnk -> StronglySorted Z.le dst_lnk ->
  0 < zlen dst_lnk -> zlen dst_lnk / 1024 < INT_MAX ->
  (forall v, fits (width_of t) ijoin_op 0 (matching src_lnk (snd <$> src_val) v)) ->
  exists st, srt_join op "ascending" "ascending" tl src_lnk src_val td dst_lnk = Ok (t, st) /\
    dst_val st = Some ((fun v => aggregate ijoin_op (matching src_lnk (snd <$> src_val) v))
                         <$> dst_lnk) /\
    nn_dst_val st = (fun v => if decide (v ∈ src_lnk) then 1 else 0) <$> dst_lnk /\
    (is_any_null st = true <-> exists v, v ∈ dst_lnk /\ v ∉ src_lnk).
Proof.
  intros t Hmk Hop Hstart Htl Htd Hval Hsrc Hdst Hn Hmax Hfits.
  destruct (srt_join_from_zero op ijoin_op tl td src_lnk dst_lnk src_val Hmk Hop Htl Htd Hval Hsrc Hdst Hn Hmax Hfits)
    as (st & E & Hv & Hrest).
  exists st. split; [exact E|]. split; [|exact Hrest]. rewrite Hv. f_equal. apply list_fmap_ext.
  intros i v Hi. apply agg_from_zero, Hstart. by eapply list_elem_of_lookup_2.
Qed.

Lemma srt_join_correct_witness :
  exists st, srt_join (Some "max"%string) "ascending" "ascending" I4 [1; 1; 3; 4]
      (Some (I4, [10; 20; 5; 7])) I8 [0; 1; 1; 4] = Ok (I4, st) /\
    dst_val st = Some [0; 20; 20; 7] /\ nn_dst_val st = [0; 1; 1; 1] /\
    (is_any_null st = true <-> exists v, v ∈ [0; 1; 1; 4] /\ v ∉ [1; 1; 3; 4]).
Proof.
  apply (srt_join_correct (Some "max"%string) MJOIN_OP_MAX I4 I8 [1; 1; 3; 4] [0; 1; 1; 4]
           (Some (I4, [10; 20; 5; 7]))).
  - reflexivity.
  - left. auto.
  - intros v Hv. split; [done|]. split; [done|]. intros _.
    repeat (apply elem_of_cons in Hv as [->|Hv]; [vm_compute; first [by left|right; constructor; done]|]).
    by apply not_elem_of_nil in Hv.
  - by left.
  - by right.
  - intros t X [= <- <-]. split; [by left|done].
  - repeat constructor; lia.
  - repeat constructor; lia.
  - reflexivity.
  - reflexivity.
  - done.
Defined.

(** ** What the initial values do *)

Lemma assign_loop_overrun n val rest : zlen rest < n -> assign_loop rest n val = Ub.
Proof.
  revert n. induction rest as [|x rest IH]; intros n Hn; simpl.
  - change (zlen []) with 0 in Hn. by destruct (Z.leb_spec n 0); [lia|].
  - rewrite zlen_cons in Hn. pose proof (zlen_nonneg rest).
    destruct (Z.leb_spec n 0); [lia|]. by rewrite IH by lia.
Qed.

(** With [min], and with [and] on 32-bit values, the arguments of
    [assign_const_I4] and [assign_const_I8] being swapped makes the kernel
    write at least 2^31 - 1 elements: it leaves every smaller array. *)
Theorem srt_join_init_overrun (w ijoin_op lb ub src_nR : Z) (src_lnk dst_lnk nn d : list Z)
    (src_val : option (list Z)) (any : bool) :
  32 <= w -> ijoin_op = MJOIN_OP_MIN \/ (ijoin_op = MJOIN_OP_AND /\ w = 32) ->
  zlen d < INT_MAX ->
  core_srt_join w src_lnk src_val src_nR dst_lnk
    {| dst_val := Some d; nn_dst_val := nn; is_any_null := any |} lb ub ijoin_op = Ub.
Proof.
  intros Hw Hop Hd. unfold core_srt_join, set_init.
  rewrite assign_const_none by (unfold FALSE; lia). simpl.
  assert (forall n, INT_MAX <= n -> assign_const d lb n (ub - lb) = Ub) as Hover.
  { intros n Hn. unfold assign_const. rewrite assign_loop_overrun; [done|].
    unfold zlen in *. rewrite length_drop. lia. }
  assert (2 ^ 31 <= 2 ^ (w - 1)) by (apply Z.pow_le_mono_r; lia).
  destruct Hop as [->|[-> ->]]; simpl; rewrite Hover; try done; unfold INT_MAX; lia.
Qed.

Lemma srt_join_init_overrun_witness :
  core_srt_join 32 [1] (Some [5]) 1 [1] {| dst_val := Some [0]; nn_dst_val := [0]; is_any_null := false |}
    0 1 MJOIN_OP_MIN = Ub.
Proof.
  apply (srt_join_init_overrun 32 MJOIN_OP_MIN 0 1 1 [1] [1] [0] [0] (Some [5]) false);
    [lia|by left|reflexivity].
Defined.

(** [max] and [and] start from the 0 of the fresh file: the maximum
    of negative values is 0, and so is the conjunction of any 64-bit values,
    where [aggregate] is -5 and 7. *)
Theorem srt_join_starts_from_zero :
  srt_join (Some "max"%string) "ascending" "ascending" I4 [1] (Some (I4, [-5])) I4 [1]
    = Ok (I4, {| dst_val := Some [0]; nn_dst_val := [1]; is_any_null := false |}) /\
  srt_join (Some "and"%string) "ascending" "ascending" I4 [1] (Some (I8, [7])) I4 [1]
    = Ok (I8, {| dst_val := Some [0]; nn_dst_val := [1]; is_any_null := false |}) /\
  aggregate MJOIN_OP_MAX [-5] = -5 /\ aggregate MJOIN_OP_AND [7] = 7.
Proof. split_and!; vm_compute; reflexivity. Qed.

End Join.
