(* ===== verification/Setops.v ===== *)
(** * Distinct values and unions of sorted fields.

    [uniq_*] models src/src/AUX/uniq_*.c, which collapse runs of equal values
    and count them, and [count_vals] the part of
    src/src/dir_wr_verbs/count_vals.c that runs them; [union] models
    src/src/AUX/union_I4.c and union_I8.c, which merge two sorted sets.

    The kernels of a group come from one template.  The instances for [int]
    and [long long] values only compare and move them. *)

From stdpp Require Import prelude strings sorting.
From Stdlib Require Import ZArith Lia.
From S2P Require Import Prelude CString Types.

Module Uniq.

(** ** Kernels *)

Record uniq_state := {
  is_good_val_seen : bool;
  last_good_val : Z;
  out : list Z;
  n_out : Z;
  cnt : list Z;
  cnt_ptr : Z
}.

(** [( nn != NULL ) && ( nn[i] == FALSE )] *)
Definition is_null_row (nnX : option (list Z)) (i : Z) : res bool :=
  match nnX with None => Ok false | Some nnX => b ← rd nnX i; Ok (b =? 0) end.

(** The loop body; [weight i] is [1] or [in_cnt[i]].  Counts are [int]. *)
Definition uniq_step (weight : Z -> res Z) (inp : list Z) (nnX : option (list Z))
    (i : Z) (s : uniq_state) : res uniq_state :=
  null ← is_null_row nnX i;
  if (null : bool) then Ok s else
  v ← rd inp i;
  if negb (is_good_val_seen s) then
    o ← wr (out s) (n_out s) v;
    c ← weight i;
    k ← wr (cnt s) (cnt_ptr s) c;
    Ok {| is_good_val_seen := true; last_good_val := v; out := o; n_out := n_out s + 1;
          cnt := k; cnt_ptr := cnt_ptr s |}
  else if v =? last_good_val s then
    c ← weight i;
    a ← rd (cnt s) (cnt_ptr s);
    a ← add_to 32 a c;
    k ← wr (cnt s) (cnt_ptr s) a;
    Ok {| is_good_val_seen := true; last_good_val := last_good_val s; out := out s;
          n_out := n_out s; cnt := k; cnt_ptr := cnt_ptr s |}
  else
    o ← wr (out s) (n_out s) v;
    c ← weight i;
    k ← wr (cnt s) (cnt_ptr s + 1) c;
    Ok {| is_good_val_seen := true; last_good_val := v; out := o; n_out := n_out s + 1;
          cnt := k; cnt_ptr := cnt_ptr s + 1 |}.

Fixpoint uniq_loop (n : nat) (weight : Z -> res Z) (inp : list Z) (nnX : option (list Z))
    (i : Z) (s : uniq_state) : res uniq_state :=
  match n with
  | O => Ok s
  | S n => s ← uniq_step weight inp nnX i s; uniq_loop n weight inp nnX (i + 1) s
  end.

(** The arrays and [*ptr_n_out]. *)
Definition uniq_with (weight : Z -> res Z) (inp : list Z) (n_in : Z) (nnX : option (list Z))
    (out cnt : list Z) : res (list Z * Z * list Z) :=
  s ← uniq_loop (Z.to_nat n_in) weight inp nnX 0
        {| is_good_val_seen := false; last_good_val := 0; out := out; n_out := 0;
           cnt := cnt; cnt_ptr := 0 |};
  Ok (Uniq.out s, n_out s, Uniq.cnt s).

Definition uniq_cnt (inp in_cnt : list Z) (n_in : Z) (nnX : option (list Z)) (out cnt : list Z) :=
  uniq_with (rd in_cnt) inp n_in nnX out cnt.
Definition uniq (inp : list Z) (n_in : Z) (nnX : option (list Z)) (out cnt : list Z) :=
  uniq_with (fun _ => Ok 1) inp n_in nnX out cnt.
Definition uniq_alldef (inp : list Z) (n_in : Z) (out cnt : list Z) :=
  uniq_with (fun _ => Ok 1) inp n_in None out cnt.

(** [counter] is a [long long], the count stored an [int]. *)
Fixpoint alldef_loop (n : nat) (weight : Z -> res Z) (inp : list Z) (i last_val_seen counter : Z)
    (out : list Z) (n_out : Z) (out_cnt : list Z) : res (list Z * Z * list Z) :=
  match n with
  | O =>
      out ← wr out n_out last_val_seen;
      out_cnt ← wr out_cnt n_out (wrapS 32 counter);
      Ok (out, n_out + 1, out_cnt)
  | S n =>
      inval ← rd inp i;
      incnt ← weight i;
      if inval =? last_val_seen then
        counter ← add_to 64 counter incnt;
        alldef_loop n weight inp (i + 1) last_val_seen counter out n_out out_cnt
      else
        out ← wr out n_out last_val_seen;
        out_cnt ← wr out_cnt n_out (wrapS 32 counter);
        alldef_loop n weight inp (i + 1) inval incnt out (n_out + 1) out_cnt
  end.

Definition uniq_cnt_alldef_with (weight : Z -> res Z) (inp : list Z) (n_in : Z)
    (out out_cnt : list Z) : res (list Z * Z * list Z) :=
  first_val ← rd inp 0;
  alldef_loop (Z.to_nat (n_in - 1)) weight inp 1 first_val 1 out 0 out_cnt.

Definition uniq_cnt_alldef (inp in_cnt : list Z) :=
  uniq_cnt_alldef_with (rd in_cnt) inp.
(** The variants that do not look at the counts they are given. *)
Definition uniq_cnt_alldef_nocnt {A} (inp : list Z) (in_cnt : list A) :=
  uniq_cnt_alldef_with (fun _ => Ok 1) inp.

Definition uniq_I4 := uniq.
Definition uniq_I8 := uniq.
Definition uniq_alldef_I4 := uniq_alldef.
Definition uniq_alldef_I8 := uniq_alldef.
Definition uniq_cnt_I4 := uniq_cnt.
Definition uniq_cnt_I8 := uniq_cnt.
Definition uniq_cnt_alldef_I4 := uniq_cnt_alldef.
Definition uniq_cnt_alldef_I8 := uniq_cnt_alldef.
Definition uniq_cnt_alldef_i_i := @uniq_cnt_alldef_nocnt Z.
Definition uniq_cnt_alldef_ll_ll := @uniq_cnt_alldef_nocnt Z.
Definition uniq_cnt_alldef_ll_dbl {A} := @uniq_cnt_alldef_nocnt A.

(** ** The verb *)

(** 32-bit halves of an array of [long long], as an [int *] sees it on a
    little-endian machine. *)
Definition rd_half (X : list Z) (i : Z) : res Z :=
  x ← rd X (i / 2);
  let u := wrapU 64 x in
  Ok (if i mod 2 =? 0 then u mod 2 ^ 32 else u / 2 ^ 32).
Definition wr_half (X : list Z) (i h : Z) : res (list Z) :=
  x ← rd X (i / 2);
  let u := wrapU 64 x in
  wr X (i / 2) (wrapS 64 (if i mod 2 =? 0 then u / 2 ^ 32 * 2 ^ 32 + h
                          else h * 2 ^ 32 + u mod 2 ^ 32)).

(** [val[wridx] = val[rdidx]]; the pointer is an [int *] for both types. *)
Definition move_val (t : FLD_TYPE) (X : list Z) (wridx rdidx : Z) : res (list Z) :=
  if decide (t = I4) then v ← rd X rdidx; wr X wridx v
  else h ← rd_half X rdidx; wr_half X wridx h.

Fixpoint compact_loop (n : nat) (t : FLD_TYPE) (val cnt : list Z) (rdidx wridx : Z)
    : res (list Z * list Z * Z) :=
  match n with
  | O => Ok (val, cnt, wridx)
  | S n =>
      c ← rd cnt rdidx;
      if 0 <? c then
        val ← move_val t val wridx rdidx;
        cnt ← wr cnt wridx c;
        compact_loop n t val cnt (rdidx + 1) (wridx + 1)
      else compact_loop n t val cnt (rdidx + 1) wridx
  end.

(** The choice of the kernel.  For I8 values without nulls the counts are
    used only if they are of type I8, which the checks before have excluded:
    [dst_nR] is then read without having been set. *)
Definition run_uniq (t : FLD_TYPE) (src : list Z) (nnX : option (list Z))
    (in_cnt : option (list Z)) (out cnt : list Z) : res (list Z * Z * list Z) :=
  let n := zlen src in
  match t, nnX, in_cnt with
  | I4, None, None => uniq_alldef_I4 src n out cnt
  | I4, None, Some c => uniq_cnt_alldef_I4 src c n out cnt
  | I4, Some _, None => uniq_I4 src n nnX out cnt
  | I4, Some _, Some c => uniq_cnt_I4 src c n nnX out cnt
  | I8, None, None => uniq_alldef_I8 src n out cnt
  | I8, None, Some _ => Ub
  | I8, Some _, None => uniq_I8 src n nnX out cnt
  | I8, Some _, Some c => uniq_cnt_I8 src c n nnX out cnt
  | _, _, _ => Err
  end.

(** [count_vals] from the data of its fields to those of the new table:
    [in_cnt] is the type of the count field, whether it has an nn field, and
    its data; [order] the answer of the [is_sorted] reduction.  The result is
    [None] when no value is defined: no table is made then. *)
Definition count_vals (t : FLD_TYPE) (src : list Z) (nnX : option (list Z))
    (in_cnt : option (FLD_TYPE * bool * list Z)) (order : string)
    : res (option (list Z * list Z)) :=
  _ ← (match in_cnt with
       | None => Ok tt
       | Some (ct, has_nn, _) => _ ← go_BYE_if has_nn; go_BYE_if (negb (bool_decide (ct = I4)))
       end);
  _ ← go_BYE_if (negb (strcmp_eq order "ascending"));
  _ ← get_fld_sz t;
  let zeros := replicate (length src) 0 in
  '(val, dst_nR, cnt) ← run_uniq t src nnX (snd <$> in_cnt) zeros zeros;
  if dst_nR =? 0 then Ok None
  else if dst_nR <? zlen src then
    '(val, cnt, wridx) ← compact_loop (length src) t val cnt 0 0;
    _ ← go_BYE_if (negb (wridx =? dst_nR));
    Ok (Some (take (Z.to_nat dst_nR) val, take (Z.to_nat dst_nR) cnt))
  else Ok (Some (val, cnt)).

Example count_vals_plain :
  count_vals I4 [1; 1; 2; 5; 5; 5] None None "ascending" = Ok (Some ([1; 2; 5], [2; 1; 3])).
Proof. vm_compute. reflexivity. Qed.

Example count_vals_nulls :
  count_vals I8 [-1; 1; 0; 5; 5; 0] (Some [1; 1; 0; 1; 1; 0]) (Some (I4, false, [1; 2; 3; 4; 5; 6]))
    "ascending" = Ok (Some ([-1; 1; 5], [1; 2; 9])).
Proof. vm_compute. reflexivity. Qed.

(** ** Runs *)

(** Collapse runs of equal values, adding their counts. *)
Fixpoint runs_from (v c : Z) (l : list (Z * Z)) : list (Z * Z) :=
  match l with
  | [] => [(v, c)]
  | (v', c') :: l => if decide (v' = v) then runs_from v (c + c') l
                     else (v, c) :: runs_from v' c' l
  end.
Definition runs (l : list (Z * Z)) : list (Z * Z) :=
  match l with [] => [] | (v, c) :: l => runs_from v c l end.

(** The total count of a value. *)
Definition tally (v : Z) (l : list (Z * Z)) : Z :=
  foldr (fun p a => if decide (p.1 = v) then p.2 + a else a) 0 l.

(** Each value as often as its count says. *)
Definition expand (l : list (Z * Z)) : list Z :=
  mjoin ((fun p => replicate (Z.to_nat p.2) p.1) <$> l).

Definition total (l : list (Z * Z)) : Z := foldr (fun p a => p.2 + a) 0 l.

Lemma runs_from_elem x l : forall v c, x ∈ (runs_from v c l).*1 <-> x = v \/ x ∈ l.*1.
Proof.
  induction l as [|[v' c'] l IH]; intros v c; simpl; [set_solver|].
  case_decide; subst; simpl; [|rewrite elem_of_cons]; rewrite IH, elem_of_cons; tauto.
Qed.

Lemma runs_elem x l : x ∈ (runs l).*1 <-> x ∈ l.*1.
Proof. destruct l as [|[v c] l]; [done|]. simpl. rewrite runs_from_elem, elem_of_cons. done. Qed.

Lemma runs_from_length l : forall v c, (1 <= length (runs_from v c l) <= S (length l))%nat.
Proof.
  induction l as [|[v' c'] l IH]; intros v c; simpl; [lia|].
  case_decide; simpl; [specialize (IH v (c + c'))|specialize (IH v' c')]; lia.
Qed.

Lemma runs_from_counts (P : Z -> Prop) l :
  (forall x y, P x -> P y -> P (x + y)) -> forall v c,
  P c -> Forall P l.*2 -> Forall P (runs_from v c l).*2.
Proof.
  intros Hadd. induction l as [|[v' c'] l IH]; intros v c Hc Hl; simpl; [by constructor|].
  simpl in Hl. apply Forall_cons in Hl as [Hc' Hl]. case_decide; simpl; [by apply IH; auto|].
  constructor; [done|]. by apply IH.
Qed.

Lemma runs_from_sorted l : forall v c,
  StronglySorted Z.le (v :: l.*1) -> StronglySorted Z.lt (runs_from v c l).*1.
Proof.
  induction l as [|[v' c'] l IH]; intros v c Hs; simpl; [repeat constructor|].
  apply StronglySorted_inv in Hs as [Hs Hv]. pose proof Hs as [Hs' Hv']%StronglySorted_inv.
  simpl in *. apply Forall_cons in Hv as [Hvv Hv]. case_decide as Heq.
  - subst v'. apply IH. by constructor.
  - simpl. constructor; [by apply IH|]. apply Forall_forall. intros x Hx.
    apply runs_from_elem in Hx as [->|Hx]; [lia|].
    rewrite Forall_forall in Hv'. specialize (Hv' x Hx). lia.
Qed.

Lemma tally_absent v l : v ∉ l.*1 -> tally v l = 0.
Proof.
  induction l as [|[v' c'] l IH]; [done|]. simpl. rewrite not_elem_of_cons.
  intros [Hne Hl]. rewrite decide_False by done. by apply IH.
Qed.

Lemma runs_from_tally x y l : forall v c,
  StronglySorted Z.le (v :: l.*1) ->
  (x, y) ∈ runs_from v c l -> y = tally x ((v, c) :: l).
Proof.
  induction l as [|[v' c'] l IH]; intros v c Hs Hin; simpl in Hin.
  - apply list_elem_of_singleton in Hin as [= -> ->]. simpl. rewrite decide_True by done. lia.
  - pose proof Hs as [Hs1 Hv]%StronglySorted_inv.
    simpl in Hs1, Hv. apply Forall_cons in Hv as [Hvv Hv].
    pose proof Hs1 as [Hs2 Hv']%StronglySorted_inv.
    case_decide as Heq.
    + subst v'. rewrite (IH v (c + c')) by (try done; by constructor). simpl.
      destruct (decide (v = x)); lia.
    + apply elem_of_cons in Hin as [[= -> ->]|Hin].
      * simpl. rewrite decide_True by done. rewrite decide_False by done.
        rewrite tally_absent; [lia|]. intros Hin.
        rewrite Forall_forall in Hv'. specialize (Hv' v Hin). lia.
      * rewrite (IH v' c' Hs1 Hin). simpl. destruct (decide (v = x)) as [->|]; [|done].
        assert (x ∈ (runs_from v' c' l).*1) as [->|Hx]%runs_from_elem
          by (apply list_elem_of_fmap; by exists (x, y)); [lia|].
        rewrite Forall_forall in Hv'. specialize (Hv' x Hx). lia.
Qed.

Lemma runs_from_expand l : forall v c,
  0 <= c -> Forall (Z.le 0) l.*2 -> expand (runs_from v c l) = expand ((v, c) :: l).
Proof.
  induction l as [|[v' c'] l IH]; intros v c Hc Hl; simpl; [done|].
  simpl in Hl. apply Forall_cons in Hl as [Hc' Hl]. case_decide as Heq.
  - subst v'. rewrite IH by (try done; lia). unfold expand. simpl.
    rewrite Z2Nat.inj_add by lia. by rewrite replicate_add, <- app_assoc.
  - unfold expand in *. simpl. by rewrite IH.
Qed.

(** ** The kernels compute runs *)

(** The row [i], when its value is defined. *)
Definition row_at (inp : list Z) (c : Z -> Z) (nnX : option (list Z)) (i : Z) : option (Z * Z) :=
  v ← inp !z i;
  match nnX with
  | Some b => if decide (b !z i = Some 0) then None else Some (v, c i)
  | None => Some (v, c i)
  end.
Definition def_rows inp c nnX (i n : Z) : list (Z * Z) := omap (row_at inp c nnX) (seqZ i n).

(** A cell past the end of what is written so far. *)
Lemma wr_next (l : list Z) x r v : wr (l ++ x :: r) (zlen l) v = Ok ((l ++ [v]) ++ r).
Proof. rewrite wr_middle, <- app_assoc. done. Qed.

Lemma fst_snoc (l : list (Z * Z)) v c : (l ++ [(v, c)]).*1 = l.*1 ++ [v].
Proof. by rewrite fmap_app. Qed.
Lemma snd_snoc (l : list (Z * Z)) v c : (l ++ [(v, c)]).*2 = l.*2 ++ [c].
Proof. by rewrite fmap_app. Qed.

Lemma Forall_total l : Forall (Z.le 0) l.*2 -> 0 <= total l.
Proof.
  unfold total. induction l as [|[v c] l IH]; simpl; [by intros _; lia|].
  intros [Hc Hl]%Forall_cons. specialize (IH Hl). lia.
Qed.

Section kernels.
Context (weight : Z -> res Z) (c : Z -> Z) (inp : list Z) (nnX : option (list Z)).
Context (Hweight : forall i, 0 <= i < zlen inp -> weight i = Ok (c i)).
Context (Hpos : forall i, 0 <= i < zlen inp -> 0 <= c i).
Context (Hnn : forall b, nnX = Some b -> zlen b = zlen inp).

Abbreviation row := (row_at inp c nnX).
Abbreviation rows := (def_rows inp c nnX).

Lemma rows_cons i n : 0 < n -> rows i n = option_list (row i) ++ rows (i + 1) (n - 1).
Proof.
  intros Hn. unfold def_rows. rewrite seqZ_cons by lia. simpl.
  replace (Z.succ i) with (i + 1) by lia. replace (Z.pred n) with (n - 1) by lia.
  by destruct (row i).
Qed.

Lemma rows_nonneg i n : 0 <= i -> i + n <= zlen inp -> Forall (Z.le 0) (rows i n).*2.
Proof.
  intros Hi Hin. apply Forall_fmap, Forall_forall. intros p Hp. unfold def_rows in Hp.
  apply list_elem_of_omap in Hp as (k & Hk%elem_of_seqZ & Hrow).
  assert (p.2 = c k) as E.
  { unfold row_at in Hrow. destruct (inp !z k); [|done]. simpl in Hrow.
    destruct nnX; [case_decide; [done|]|]; by injection Hrow as <-. }
  simpl. rewrite E. apply Hpos. lia.
Qed.

Lemma drop_runs_from {A} v k l (x : A) r :
  drop (length (runs_from v k l) - 1) r = drop (length (runs_from v k l)) (x :: r).
Proof.
  pose proof (runs_from_length l v k). destruct (length (runs_from v k l)) as [|m]; [lia|].
  simpl. by rewrite Nat.sub_0_r.
Qed.

(** The state when the runs [done] are complete and the run of [v] has
    count [k] so far; [ro] and [rc] are the cells not yet written. *)
Definition mid_state (done : list (Z * Z)) (v k : Z) (ro rc : list Z) : uniq_state := {|
  is_good_val_seen := true; last_good_val := v;
  out := (done ++ [(v, k)]).*1 ++ ro; n_out := zlen (done ++ [(v, k)]);
  cnt := (done ++ [(v, k)]).*2 ++ rc; cnt_ptr := zlen done |}.

Lemma null_row_ok i :
  0 <= i < zlen inp ->
  (is_null_row nnX i = Ok true /\ row i = None) \/
  (exists v, is_null_row nnX i = Ok false /\ rd inp i = Ok v /\ row i = Some (v, c i)).
Proof.
  intros Hi. destruct (rd_total inp i Hi) as (v & Hv). pose proof Hv as Hv'%rd_Ok.
  unfold is_null_row, row_at. rewrite Hv'. simpl. destruct nnX as [b|]; [|right; by exists v].
  destruct (rd_total b i) as (x & Hx); [rewrite (Hnn b eq_refl); done|].
  rewrite Hx. simpl. apply rd_Ok in Hx. rewrite Hx.
  destruct (Z.eqb_spec x 0) as [->|Hne]; [left|right; exists v]; simpl.
  - done.
  - by rewrite decide_False by congruence.
Qed.

Lemma step_same i done v k ro rc :
  0 <= i < zlen inp -> row i = Some (v, c i) -> inS 32 (k + c i) ->
  uniq_step weight inp nnX i (mid_state done v k ro rc) = Ok (mid_state done v (k + c i) ro rc).
Proof.
  intros Hi Hrow Hfit. destruct (null_row_ok i Hi) as [[_ Hn]|(v' & Hn & Hv & Hr)]; [congruence|].
  assert (v' = v) as -> by congruence. unfold uniq_step. rewrite Hn. simpl. rewrite Hv. simpl.
  rewrite Z.eqb_refl, (Hweight i Hi). simpl.
  rewrite !snd_snoc, <- !app_assoc. simpl. rewrite <- (zlen_fmap snd done), rd_middle. simpl.
  rewrite (add_to_Ok 32 k (c i) Hfit). simpl. rewrite wr_middle. simpl.
  unfold mid_state. by rewrite !snd_snoc, !fst_snoc, <- !app_assoc, !zlen_snoc, zlen_fmap.
Qed.

Lemma step_new i done v k v' x ro y rc :
  0 <= i < zlen inp -> row i = Some (v', c i) -> v' <> v ->
  uniq_step weight inp nnX i (mid_state done v k (x :: ro) (y :: rc))
    = Ok (mid_state (done ++ [(v, k)]) v' (c i) ro rc).
Proof.
  intros Hi Hrow Hne. destruct (null_row_ok i Hi) as [[_ Hn]|(v1 & Hn & Hv & Hr)]; [congruence|].
  assert (v1 = v') as -> by congruence. unfold uniq_step. rewrite Hn. simpl. rewrite Hv. simpl.
  rewrite (proj2 (Z.eqb_neq v' v) Hne), (Hweight i Hi).
  rewrite <- (zlen_fmap fst (done ++ _)) at 1. rewrite wr_next. simpl.
  rewrite <- (zlen_snoc done (v, k)), <- (zlen_fmap snd (done ++ _)). rewrite wr_next. simpl.
  unfold mid_state. rewrite zlen_fmap.
  rewrite !(fst_snoc (done ++ _)), !(snd_snoc (done ++ _)), !(zlen_snoc (done ++ _)). done.
Qed.

Lemma uniq_loop_ok n : forall i done v k ro rc,
  0 <= i -> i + Z.of_nat n <= zlen inp -> (n <= length ro)%nat -> (n <= length rc)%nat ->
  0 <= k -> k + total (rows i (Z.of_nat n)) <= INT_MAX ->
  exists s ro' rc', uniq_loop n weight inp nnX i (mid_state done v k ro rc) = Ok s /\
    out s = (done ++ runs_from v k (rows i (Z.of_nat n))).*1 ++ ro' /\
    n_out s = zlen (done ++ runs_from v k (rows i (Z.of_nat n))) /\
    cnt s = (done ++ runs_from v k (rows i (Z.of_nat n))).*2 ++ rc' /\
    ro' = drop (length (runs_from v k (rows i (Z.of_nat n))) - 1) ro /\
    rc' = drop (length (runs_from v k (rows i (Z.of_nat n))) - 1) rc.
Proof.
  induction n as [|n IH]; intros i done v k ro rc Hi Hin Hro Hrc Hk Htot.
  { eexists _, ro, rc. split; [done|]. unfold def_rows. by rewrite seqZ_nil by lia. }
  rewrite rows_cons in Htot |- * by lia. simpl.
  replace (Z.of_nat (S n) - 1) with (Z.of_nat n) in * by lia.
  pose proof (Forall_total _ (rows_nonneg (i + 1) (Z.of_nat n) ltac:(lia) ltac:(lia))) as Hnn0.
  destruct (null_row_ok i ltac:(lia)) as [[Hn Hr]|(v' & Hn & Hv & Hr)].
  { unfold uniq_step at 1. rewrite Hn, Hr in *. simpl in *. apply IH; lia. }
  pose proof (Hpos i ltac:(lia)) as Hci. rewrite Hr in *. simpl in *. unfold total in *. simpl in Htot.
  destruct (decide (v' = v)) as [->|Hne].
  - rewrite (step_same i done v k ro rc) by (try done; unfold inS, INT_MAX in *; lia). simpl.
    apply IH; lia.
  - destruct ro as [|x ro]; [simpl in Hro; lia|]. destruct rc as [|y rc]; [simpl in Hrc; lia|].
    rewrite (step_new i done v k v' x ro y rc) by (try done; lia). simpl.
    destruct (IH (i + 1) (done ++ [(v, k)]) v' (c i) ro rc) as (s & ro' & rc' & -> & Ho & Hno & Hc & Hs & Hs');
      simpl in *; try lia.
    exists s, ro', rc'. rewrite <- app_assoc in *. simpl in *.
    do 4 (split; [done|]). rewrite Nat.sub_0_r, Hs, Hs'. split; by apply drop_runs_from.
Qed.

(** What a kernel leaves in its output arrays when it finds the runs [rs]. *)
Definition written (out cnt : list Z) (rs : list (Z * Z)) (r : list Z * Z * list Z) : Prop :=
  r = (rs.*1 ++ drop (length rs) out, zlen rs, rs.*2 ++ drop (length rs) cnt).

Lemma first_row_ok n : forall i out cnt,
  0 <= i -> i + Z.of_nat n <= zlen inp -> (n <= length out)%nat -> (n <= length cnt)%nat ->
  total (rows i (Z.of_nat n)) <= INT_MAX ->
  exists s, uniq_loop n weight inp nnX i
      {| is_good_val_seen := false; last_good_val := 0; out := out; n_out := 0;
         cnt := cnt; cnt_ptr := 0 |} = Ok s /\
    written out cnt (runs (rows i (Z.of_nat n))) (Uniq.out s, n_out s, Uniq.cnt s).
Proof.
  induction n as [|n IH]; intros i out cnt Hi Hin Hout Hcnt Htot.
  { eexists. split; [done|]. unfold written, def_rows. by rewrite seqZ_nil by lia. }
  rewrite rows_cons in Htot |- * by lia. cbn [uniq_loop].
  replace (Z.of_nat (S n) - 1) with (Z.of_nat n) in * by lia.
  destruct (null_row_ok i ltac:(lia)) as [[Hn Hr]|(v & Hn & Hv & Hr)].
  { unfold uniq_step at 1. rewrite Hn, Hr in *. simpl in *. apply IH; lia. }
  rewrite Hr in *. simpl in Htot.
  destruct out as [|x ro]; [simpl in Hout; lia|]. destruct cnt as [|y rc]; [simpl in Hcnt; lia|].
  unfold uniq_step at 1. rewrite Hn. simpl. rewrite Hv. simpl.
  rewrite (Hweight i ltac:(lia)). simpl.
  simpl in Hout, Hcnt.
  destruct (uniq_loop_ok n (i + 1) [] v (c i) ro rc) as (s & ro' & rc' & Hs & Ho & Hno & Hc & H1 & H2);
    try lia; [apply Hpos; lia|].
  exists s. split; [exact Hs|]. unfold written. rewrite Ho, Hno, Hc, H1, H2. cbn [app runs option_list].
  by rewrite <- !drop_runs_from.
Qed.

Lemma uniq_with_ok out cnt :
  (length inp <= length out)%nat -> (length inp <= length cnt)%nat ->
  total (rows 0 (zlen inp)) <= INT_MAX ->
  exists r, uniq_with weight inp (zlen inp) nnX out cnt = Ok r /\
    written out cnt (runs (rows 0 (zlen inp))) r.
Proof.
  intros Ho Hc Htot. unfold uniq_with. rewrite to_nat_zlen.
  destruct (first_row_ok (length inp) 0 out cnt) as (s & Hs & Hw); try done; try lia.
  rewrite Hs. simpl. by eexists.
Qed.

End kernels.

(** The kernel that takes the first value apart counts it once, whatever its
    weight. *)
Section alldef.
Context (weight : Z -> res Z) (c : Z -> Z) (inp : list Z).
Context (Hweight : forall i, 0 <= i < zlen inp -> weight i = Ok (c i)).
Context (Hpos : forall i, 0 <= i < zlen inp -> 0 <= c i).
Abbreviation rows := (def_rows inp c None).

Lemma alldef_loop_ok n : forall i done v k ro rc,
  0 <= i -> i + Z.of_nat n <= zlen inp -> (n < length ro)%nat -> (n < length rc)%nat ->
  0 <= k -> k + total (rows i (Z.of_nat n)) <= INT_MAX ->
  exists ro' rc', alldef_loop n weight inp i v k (done.*1 ++ ro) (zlen done) (done.*2 ++ rc)
      = Ok ((done ++ runs_from v k (rows i (Z.of_nat n))).*1 ++ ro',
            zlen (done ++ runs_from v k (rows i (Z.of_nat n))),
            (done ++ runs_from v k (rows i (Z.of_nat n))).*2 ++ rc') /\
    ro' = drop (length (runs_from v k (rows i (Z.of_nat n)))) ro /\
    rc' = drop (length (runs_from v k (rows i (Z.of_nat n)))) rc.
Proof.
  assert (forall (done : list (Z * Z)) v k (x : Z) ro, wr (done.*1 ++ x :: ro) (zlen done) v
            = Ok ((done ++ [(v, k)]).*1 ++ ro)) as Hw1.
  { intros done v k x ro. rewrite <- (zlen_fmap fst done), wr_next, fst_snoc. done. }
  assert (forall (done : list (Z * Z)) v k (x : Z) ro, wr (done.*2 ++ x :: ro) (zlen done) k
            = Ok ((done ++ [(v, k)]).*2 ++ ro)) as Hw2.
  { intros done v k x ro. rewrite <- (zlen_fmap snd done), wr_next, snd_snoc. done. }
  assert (forall k, 0 <= k <= INT_MAX -> wrapS 32 k = k) as Hwrap.
  { intros k Hk. apply wrapS_small; unfold inS, INT_MAX in *; lia. }
  induction n as [|n IH]; intros i done v k ro rc Hi Hin Hro Hrc Hk Htot;
    (destruct ro as [|x ro]; [simpl in Hro; lia|]); (destruct rc as [|y rc]; [simpl in Hrc; lia|]);
    cbn [alldef_loop].
  { unfold def_rows in *. rewrite seqZ_nil in Htot |- * by lia. simpl in Htot.
    rewrite Hwrap by lia. rewrite (Hw1 done v k). simpl. rewrite (Hw2 done v k). simpl.
    exists ro, rc. by rewrite zlen_snoc. }
  rewrite rows_cons in Htot |- * by lia.
  replace (Z.of_nat (S n) - 1) with (Z.of_nat n) in * by lia.
  pose proof (Forall_total _ (rows_nonneg c inp None Hpos ltac:(done) (i + 1) (Z.of_nat n) ltac:(lia) ltac:(lia))) as Ht.
  destruct (rd_total inp i ltac:(lia)) as (v' & Hv). rewrite Hv. simpl. apply rd_Ok in Hv.
  rewrite (Hweight i ltac:(lia)). simpl. pose proof (Hpos i ltac:(lia)) as Hci.
  assert (row_at inp c None i = Some (v', c i)) as Hr by (unfold row_at; by rewrite Hv).
  rewrite Hr in *. simpl in Htot |- *.
  destruct (Z.eqb_spec v' v) as [->|Hne].
  - rewrite decide_True by done.
    rewrite (add_to_Ok 64) by (unfold inS, INT_MAX in *; lia). simpl.
    apply (IH (i + 1) done v (k + c i) (x :: ro) (y :: rc)); simpl in *; lia.
  - rewrite decide_False by done. rewrite Hwrap by lia.
    rewrite (Hw1 done v k). simpl. rewrite (Hw2 done v k). simpl.
    destruct (IH (i + 1) (done ++ [(v, k)]) v' (c i) ro rc) as (ro' & rc' & Hs & H1 & H2);
      simpl in *; try lia.
    rewrite zlen_snoc in Hs. rewrite Hs. rewrite <- app_assoc. simpl.
    by exists ro', rc'.
Qed.

Lemma uniq_cnt_alldef_ok v out cnt :
  inp !z 0 = Some v -> (length inp <= length out)%nat -> (length inp <= length cnt)%nat ->
  1 + total (rows 1 (zlen inp - 1)) <= INT_MAX ->
  exists r, uniq_cnt_alldef_with weight inp (zlen inp) out cnt = Ok r /\
    written out cnt (runs ((v, 1) :: rows 1 (zlen inp - 1))) r.
Proof.
  intros Hv Ho Hc Htot. unfold uniq_cnt_alldef_with. rewrite (proj2 (rd_Ok inp 0 v) Hv). simpl.
  pose proof (zlookup_Some_range _ _ _ Hv) as Hlen. unfold zlen in Hlen.
  destruct (alldef_loop_ok (Z.to_nat (zlen inp - 1)) 1 [] v 1 out cnt) as (ro & rc & Hs & H1 & H2);
    unfold zlen in *; rewrite ?Z2Nat.id in * by lia; try lia; try done.
  simpl in Hs. change (zlen []) with 0 in Hs. eexists. split; [exact Hs|]. by rewrite H1, H2.
Qed.

End alldef.

(** ** Compaction *)

Lemma half_same X i h :
  Forall (inS 64) X -> rd_half X i = Ok h -> wr_half X i h = Ok X.
Proof.
  intros HX Hh. unfold rd_half, wr_half in *. apply res_bind_Ok in Hh as (x & Hx & Hh).
  rewrite Hx. simpl. injection Hh as <-. apply rd_Ok in Hx.
  pose proof (zlookup_Some_range _ _ _ Hx) as Hr.
  assert (inS 64 x) as Hin.
  { rewrite zlookup_to_nat in Hx by lia. rewrite Forall_lookup in HX. by apply (HX (Z.to_nat (i / 2))). }
  assert (wrapS 64 (wrapU 64 x) = x) as Hwrap.
  { unfold wrapS, wrapU, inS in *. rewrite Zplus_mod_idemp_l, Z.mod_small by lia. lia. }
  pose proof (Z.div_mod (wrapU 64 x) (2 ^ 32) ltac:(lia)) as Hdm.
  rewrite wr_Ok by done. f_equal.
  assert ((if i mod 2 =? 0 then wrapU 64 x / 2 ^ 32 * 2 ^ 32 + (if i mod 2 =? 0 then wrapU 64 x mod 2 ^ 32 else wrapU 64 x / 2 ^ 32)
           else (if i mod 2 =? 0 then wrapU 64 x mod 2 ^ 32 else wrapU 64 x / 2 ^ 32) * 2 ^ 32 + wrapU 64 x mod 2 ^ 32)
          = wrapU 64 x) as -> by (destruct (i mod 2 =? 0); lia).
  rewrite Hwrap. unfold zset. rewrite zlookup_to_nat in Hx by lia. by apply list_insert_id.
Qed.

Lemma move_val_same t X i :
  t = I4 \/ (t = I8 /\ Forall (inS 64) X) -> 0 <= i < zlen X -> move_val t X i i = Ok X.
Proof.
  intros Ht Hi. unfold move_val. destruct Ht as [->|[-> HX]]; simpl.
  - destruct (rd_total X i Hi) as (v & Hv). rewrite Hv. simpl. apply rd_Ok in Hv.
    rewrite wr_Ok by done. f_equal. unfold zset. rewrite zlookup_to_nat in Hv by lia.
    by apply list_insert_id.
  - assert (exists h, rd_half X i = Ok h) as (h & Hh).
    { unfold rd_half. destruct (rd_total X (i / 2)) as (x & Hx); [|rewrite Hx; by eexists].
      split; [apply Z.div_pos; lia|]. apply Z.div_lt_upper_bound; lia. }
    rewrite Hh. simpl. by apply half_same.
Qed.

(** Positive counts are followed by zeros only: nothing moves. *)
Lemma compact_zeros t val pre n w :
  compact_loop n t val (pre ++ replicate n 0) (zlen pre) w = Ok (val, pre ++ replicate n 0, w).
Proof.
  revert pre. induction n as [|n IH]; intros pre; [done|]. simpl. rewrite rd_middle. simpl.
  specialize (IH (pre ++ [0])). rewrite <- app_assoc, zlen_snoc in IH. apply IH.
Qed.

Lemma compact_loop_ok t val pos n : forall pre,
  t = I4 \/ (t = I8 /\ Forall (inS 64) val) -> Forall (Z.lt 0) pos ->
  zlen (pre ++ pos) <= zlen val ->
  compact_loop (length pos + n) t val (pre ++ pos ++ replicate n 0) (zlen pre) (zlen pre)
    = Ok (val, pre ++ pos ++ replicate n 0, zlen (pre ++ pos)).
Proof.
  induction pos as [|p pos IH]; intros pre Ht Hpos Hlen; simpl.
  - rewrite app_nil_r. apply compact_zeros.
  - apply Forall_cons in Hpos as [Hp Hpos]. rewrite rd_middle. simpl.
    destruct (Z.ltb_spec 0 p); [|lia]. rewrite zlen_app, zlen_cons in Hlen.
    pose proof (zlen_nonneg pre). pose proof (zlen_nonneg pos).
    rewrite move_val_same by (try done; lia). simpl. rewrite wr_middle. simpl.
    specialize (IH (pre ++ [p])). rewrite <- !app_assoc, zlen_snoc in IH. simpl in IH.
    apply IH; [done..|]. rewrite zlen_app, zlen_cons. lia.
Qed.

(** ** The verb *)

(** The weight of a row: its count, or 1 without a count field. *)
Definition weight_of (in_cnt : option (list Z)) (i : Z) : Z :=
  match in_cnt with None => 1 | Some w => default 0 (w !z i) end.
Definition weighted_rows (src : list Z) (nnX in_cnt : option (list Z)) : list (Z * Z) :=
  def_rows src (weight_of in_cnt) nnX 0 (zlen src).

(** The weight the kernels use: without nulls and with a count field, the
    first row counts once. *)
Definition kernel_weight (nnX in_cnt : option (list Z)) (i : Z) : Z :=
  match in_cnt, nnX with
  | None, _ => 1
  | Some w, Some _ => default 0 (w !z i)
  | Some w, None => if i =? 0 then 1 else default 0 (w !z i)
  end.

(** By how much the number found for [v] is wrong because of that. *)
Definition miscount (src : list Z) (nnX in_cnt : option (list Z)) (v : Z) : Z :=
  match in_cnt, nnX with
  | Some w, None => if decide (src !z 0 = Some v) then 1 - default 0 (w !z 0) else 0
  | _, _ => 0
  end.

Definition kernel_rows (src : list Z) (nnX in_cnt : option (list Z)) : list (Z * Z) :=
  def_rows src (kernel_weight nnX in_cnt) nnX 0 (zlen src).

(** The operands the kernels accept. *)
Record operands_ok (t : FLD_TYPE) (src : list Z) (nnX in_cnt : option (list Z)) : Prop := {
  ok_type : t = I4 \/ (t = I8 /\ (nnX = None -> in_cnt = None));
  ok_width : t = I8 -> Forall (inS 64) src;
  ok_nonempty : 0 < zlen src;
  ok_nn b : nnX = Some b -> zlen b = zlen src;
  ok_cnt w : in_cnt = Some w -> zlen w = zlen src /\ Forall (Z.lt 0) w;
  ok_total : total (weighted_rows src nnX in_cnt) <= INT_MAX
}.

Lemma length_omap_le {A B} (f : A -> option B) (l : list A) :
  (length (omap f l) <= length l)%nat.
Proof. induction l as [|x l IH]; simpl; [lia|]. destruct (f x); simpl; [apply le_n_S|apply Nat.le_le_succ_r]; exact IH. Qed.

Lemma def_rows_ext inp c c' nnX i n :
  (forall j, i <= j < i + n -> c j = c' j) -> def_rows inp c nnX i n = def_rows inp c' nnX i n.
Proof.
  intros Hc. unfold def_rows. assert (Forall (fun j => c j = c' j) (seqZ i n)) as Hall.
  { apply Forall_forall. intros j Hj%elem_of_seqZ. apply Hc. lia. }
  induction Hall as [|j l Hj Hl IH]; [done|]. simpl.
  assert (row_at inp c nnX j = row_at inp c' nnX j) as -> by (unfold row_at; by rewrite Hj).
  destruct (row_at inp c' nnX j); [f_equal|]; exact IH.
Qed.

Section verb.
Context (t : FLD_TYPE) (src : list Z) (nnX in_cnt : option (list Z)).
Context (Hok : operands_ok t src nnX in_cnt).
Abbreviation rs := (runs (kernel_rows src nnX in_cnt)).

Lemma weight_pos i : 0 <= i < zlen src -> 0 < kernel_weight nnX in_cnt i.
Proof.
  intros Hi. unfold kernel_weight. destruct in_cnt as [w|] eqn:Ew; [|lia].
  destruct (ok_cnt _ _ _ _ Hok w eq_refl) as [Hlen Hw].
  destruct (zlookup_is_Some w i ltac:(lia)) as (x & Hx). rewrite Hx. simpl.
  assert (0 < x).
  { rewrite zlookup_to_nat in Hx by lia. rewrite Forall_lookup in Hw. by apply (Hw (Z.to_nat i)). }
  destruct nnX; [lia|]. destruct (i =? 0); lia.
Qed.

(** The rows as the kernels count them differ in the weight of the first one. *)
Lemma kernel_rows_cases :
  (kernel_rows src nnX in_cnt = weighted_rows src nnX in_cnt /\ forall v, miscount src nnX in_cnt v = 0) \/
  exists v w0 l, weighted_rows src nnX in_cnt = (v, w0) :: l /\ kernel_rows src nnX in_cnt = (v, 1) :: l /\ 0 < w0 /\
    forall x, miscount src nnX in_cnt x = if decide (x = v) then 1 - w0 else 0.
Proof.
  unfold kernel_rows, weighted_rows, miscount, weight_of, kernel_weight.
  destruct in_cnt as [w|] eqn:Ew; [|by left]. destruct nnX as [b|]; [by left|]. right.
  pose proof (ok_nonempty _ _ _ _ Hok) as Hpos. destruct (ok_cnt _ _ _ _ Hok w eq_refl) as [Hlen Hw].
  destruct (zlookup_is_Some src 0 ltac:(lia)) as (v & Hv). destruct (zlookup_is_Some w 0 ltac:(lia)) as (w0 & Hw0).
  exists v, w0, (def_rows src (fun i => default 0 (w !z i)) None 1 (zlen src - 1)).
  rewrite (rows_cons (fun i => default 0 (w !z i)) src None), (rows_cons (fun i => if i =? 0 then 1 else default 0 (w !z i)) src None) by lia.
  assert (forall c, row_at src c None 0 = Some (v, c 0)) as Hrow by (intros c; unfold row_at; by rewrite Hv).
  rewrite !Hrow, Hv, Hw0. cbn [option_list app default from_option id Z.eqb Z.add].
  split_and!; [done| | |intros x; repeat case_decide; congruence].
  - f_equal. apply def_rows_ext. intros j Hj. by destruct (Z.eqb_spec j 0); [lia|].
  - exact (Forall_zlookup _ _ _ _ Hw Hw0).
Qed.

Lemma kernel_total : total (kernel_rows src nnX in_cnt) <= INT_MAX.
Proof.
  pose proof (ok_total _ _ _ _ Hok) as Ht. destruct kernel_rows_cases as [[-> _]|(v & w0 & l & E & -> & Hw0 & _)]; [done|].
  rewrite E in Ht. unfold total in *. cbn [fmap list_fmap foldr snd] in *. lia.
Qed.

Lemma kernel_rows_values : (kernel_rows src nnX in_cnt).*1 = (weighted_rows src nnX in_cnt).*1.
Proof. by destruct kernel_rows_cases as [[-> _]|(v & w0 & l & -> & -> & _)]. Qed.

Lemma kernel_rows_tally x :
  tally x (kernel_rows src nnX in_cnt) = tally x (weighted_rows src nnX in_cnt) + miscount src nnX in_cnt x.
Proof.
  destruct kernel_rows_cases as [[-> ->]|(v & w0 & l & -> & -> & _ & ->)]; [lia|].
  cbn [tally foldr fst snd]. repeat case_decide; subst; lia || congruence.
Qed.

Lemma rd_weight w i :
  in_cnt = Some w -> 0 <= i < zlen src -> rd w i = Ok (default 0 (w !z i)).
Proof.
  intros Hw Hi. destruct (ok_cnt _ _ _ _ Hok w Hw) as [Hlen _].
  destruct (zlookup_is_Some w i ltac:(lia)) as (x & Hx). unfold rd. by rewrite Hx.
Qed.

Lemma run_uniq_with out cnt weight :
  (length src <= length out)%nat -> (length src <= length cnt)%nat ->
  (forall i, 0 <= i < zlen src -> weight i = Ok (kernel_weight nnX in_cnt i)) ->
  exists r, uniq_with weight src (zlen src) nnX out cnt = Ok r /\ written out cnt rs r.
Proof.
  intros Ho Hc Hw. apply (uniq_with_ok weight (kernel_weight nnX in_cnt)); try done.
  - intros i Hi. pose proof (weight_pos i Hi). lia.
  - apply (ok_nn _ _ _ _ Hok).
  - apply kernel_total.
Qed.

Lemma run_uniq_first w out cnt :
  nnX = None -> in_cnt = Some w ->
  (length src <= length out)%nat -> (length src <= length cnt)%nat ->
  exists r, uniq_cnt_alldef src w (zlen src) out cnt = Ok r /\ written out cnt rs r.
Proof.
  intros Hn Hw Ho Hc. pose proof (ok_nonempty _ _ _ _ Hok) as Hpos.
  destruct (zlookup_is_Some src 0 ltac:(lia)) as (v & Hv).
  assert (kernel_rows src nnX in_cnt
    = (v, 1) :: def_rows src (fun i => default 0 (w !z i)) None 1 (zlen src - 1)) as E.
  { unfold kernel_rows. rewrite Hn, Hw, rows_cons by lia.
    assert (row_at src (kernel_weight None (Some w)) None 0 = Some (v, 1)) as ->
      by (unfold row_at; by rewrite Hv).
    cbn [option_list app]. f_equal.
    apply def_rows_ext. intros j Hj. unfold kernel_weight. destruct (Z.eqb_spec j 0); [lia|done]. }
  rewrite E. pose proof kernel_total as Ht. rewrite E in Ht.
  unfold uniq_cnt_alldef. apply (uniq_cnt_alldef_ok (rd w)); try done.
  - intros i Hi. by apply rd_weight.
  - intros i Hi. destruct (ok_cnt _ _ _ _ Hok w Hw) as [Hlen Hall].
    destruct (zlookup_is_Some w i ltac:(lia)) as (x & Hx). rewrite Hx. simpl.
    rewrite zlookup_to_nat in Hx by lia. rewrite Forall_lookup in Hall.
    specialize (Hall (Z.to_nat i) x Hx). lia.
Qed.

Lemma run_uniq_ok out cnt :
  (length src <= length out)%nat -> (length src <= length cnt)%nat ->
  exists r, run_uniq t src nnX in_cnt out cnt = Ok r /\ written out cnt rs r.
Proof.
  intros Ho Hc. pose proof (ok_type _ _ _ _ Hok) as Ht.
  pose proof (fun weight => run_uniq_with out cnt weight Ho Hc) as Hwith.
  pose proof (fun w Hn Hw => run_uniq_first w out cnt Hn Hw Ho Hc) as Hfirst.
  pose proof rd_weight as Hrd. revert Ht Hwith Hfirst Hrd. unfold run_uniq.
  destruct in_cnt as [w|], nnX as [b|]; intros Ht Hwith Hfirst Hrd.
  - specialize (Hwith (rd w) (fun i => Hrd w i eq_refl)).
    destruct Ht as [Et|[Et _]]; rewrite Et; exact Hwith.
  - specialize (Hfirst w eq_refl eq_refl). destruct Ht as [Et|[Et Ht]]; [rewrite Et; exact Hfirst|].
    by specialize (Ht eq_refl).
  - specialize (Hwith _ (fun _ _ => eq_refl)).
    destruct Ht as [Et|[Et _]]; rewrite Et; exact Hwith.
  - specialize (Hwith _ (fun _ _ => eq_refl)).
    destruct Ht as [Et|[Et _]]; rewrite Et; exact Hwith.
Qed.

Lemma kernel_rows_pos : Forall (Z.lt 0) (kernel_rows src nnX in_cnt).*2.
Proof.
  apply Forall_fmap, Forall_forall. intros p Hp. unfold kernel_rows, def_rows in Hp.
  apply list_elem_of_omap in Hp as (k & Hk%elem_of_seqZ & Hrow).
  assert (p.2 = kernel_weight nnX in_cnt k) as E.
  { unfold row_at in Hrow. destruct (src !z k); [|done]. simpl in Hrow.
    destruct nnX; [case_decide; [done|]|]; by injection Hrow as <-. }
  simpl. rewrite E. apply weight_pos. lia.
Qed.

Lemma rs_pos : Forall (Z.lt 0) rs.*2.
Proof.
  pose proof kernel_rows_pos as Hp. destruct (kernel_rows src nnX in_cnt) as [|[v k] l]; [done|].
  apply Forall_cons in Hp as [Hk Hl]. apply runs_from_counts; [|done..]. intros x y. lia.
Qed.

Lemma rs_length : (length rs <= length src)%nat.
Proof.
  assert (length (kernel_rows src nnX in_cnt) <= length src)%nat as Hl.
  { unfold kernel_rows, def_rows. etrans; [apply length_omap_le|].
    rewrite length_seqZ, to_nat_zlen. done. }
  destruct (kernel_rows src nnX in_cnt) as [|[v k] l]; simpl in *; [lia|].
  pose proof (runs_from_length l v k). lia.
Qed.

Lemma rs_width : t = I8 -> Forall (inS 64) (rs.*1 ++ drop (length rs) (replicate (length src) 0)).
Proof.
  intros Ht. apply Forall_app. split.
  - apply Forall_forall. intros x Hx. rewrite runs_elem in Hx.
    pose proof (ok_width _ _ _ _ Hok Ht) as Hw. rewrite Forall_forall in Hw. apply Hw.
    apply list_elem_of_fmap in Hx as (p & -> & Hp). unfold kernel_rows, def_rows in Hp.
    apply list_elem_of_omap in Hp as (k & Hk%elem_of_seqZ & Hrow). unfold row_at in Hrow.
    destruct (src !z k) as [v|] eqn:Hv; [|done]. simpl in Hrow.
    assert (p.1 = v) as -> by (destruct nnX; [case_decide; [done|]|]; by injection Hrow as <-).
    rewrite zlookup_to_nat in Hv by lia. by eapply list_elem_of_lookup_2.
  - rewrite drop_replicate. apply Forall_replicate. unfold inS. lia.
Qed.

Lemma count_vals_runs in_cnt_rec :
  match in_cnt_rec with Some (ct, has_nn, _) => ct = I4 /\ has_nn = false | None => True end ->
  snd <$> in_cnt_rec = in_cnt ->
  count_vals t src nnX in_cnt_rec "ascending" =
    Ok (match rs with [] => None | _ => Some (rs.*1, rs.*2) end).
Proof.
  intros Hrec Hsnd. unfold count_vals. rewrite Hsnd.
  assert (exists n, get_fld_sz t = Ok n) as (sz & Hsz).
  { destruct (ok_type _ _ _ _ Hok) as [Et|[Et _]]; rewrite Et; by eexists. }
  destruct (run_uniq_ok (replicate (length src) 0) (replicate (length src) 0))
    as (r & Hr & Hw); [by rewrite length_replicate..|].
  unfold written in Hw. subst r. rewrite Hsz, Hr.
  assert ((match in_cnt_rec with None => Ok tt
     | Some (ct, has_nn, _) => _ ← go_BYE_if has_nn; go_BYE_if (negb (bool_decide (ct = I4))) end)
     = Ok tt) as ->.
  { destruct in_cnt_rec as [[[ct hn] w]|]; [|done]. by destruct Hrec as [-> ->]. }
  simpl. pose proof rs_length as Hlen. pose proof rs_pos as Hpos. pose proof rs_width as Hwid.
  pose proof (ok_type _ _ _ _ Hok) as Ht. set (l := rs) in *. clearbody l.
  destruct (decide (l = [])) as [->|Hne]; [done|].
  assert (match l with [] => None | _ => Some (l.*1, l.*2) end = Some (l.*1, l.*2)) as ->
    by (by destruct l).
  assert (0 < zlen l)
    by (destruct l as [|p l']; [done|rewrite zlen_cons; pose proof (zlen_nonneg l'); lia]).
  destruct (Z.eqb_spec (zlen l) 0); [lia|].
  assert (forall m : list Z, take (Z.to_nat (zlen l)) (m ++ drop (length l) (replicate (length src) 0))
    = take (length l) m ++ take (length l - length m) (drop (length l) (replicate (length src) 0))) as Htake.
  { intros m. by rewrite to_nat_zlen, take_app. }
  destruct (Z.ltb_spec (zlen l) (zlen src)) as [Hlt|Hge].
  - rewrite !drop_replicate in *.
    pose proof (compact_loop_ok t (l.*1 ++ replicate (length src - length l) 0) l.*2
      (length src - length l) []) as Hcomp.
    rewrite length_fmap in Hcomp. replace (length l + (length src - length l))%nat with (length src) in Hcomp by lia.
    simpl app in Hcomp. change (zlen []) with 0 in Hcomp. rewrite Hcomp; [|..|done|].
    + simpl. rewrite zlen_fmap, Z.eqb_refl. simpl. rewrite !Htake.
      rewrite !length_fmap, Nat.sub_diag, !take_0, !app_nil_r.
      by rewrite !take_ge by (by rewrite length_fmap).
    + destruct Ht as [Et|[Et _]]; [by left|right; split; [done|by apply Hwid]].
    + rewrite zlen_app, !zlen_fmap. pose proof (zlen_nonneg (replicate (length src - length l) 0)). lia.
  - rewrite !drop_ge by (rewrite length_replicate; unfold zlen in *; lia). by rewrite !app_nil_r.
Qed.

End verb.

Lemma expand_ones l : Forall (fun p => p.2 = 1) l -> expand l = l.*1.
Proof.
  induction 1 as [|[v k] l Hk Hl IH]; [done|]. simpl in Hk. subst k.
  change (expand ((v, 1) :: l)) with (v :: expand l). by rewrite IH.
Qed.

Lemma total_ones l : Forall (fun p => p.2 = 1) l -> total l = zlen l.
Proof.
  induction 1 as [|[v k] l Hk Hl IH]; [done|]. simpl in *. rewrite zlen_cons. lia.
Qed.

(** Claim C28. [count_vals] on operands its kernels accept and whose defined
    values are ascending: the new table lists every defined value once, in
    ascending order, with the number of its rows, or with the sum of the count
    field over its rows; no table is made when no value is defined.  The sum is
    right with one exception, which [miscount] states: with a count field and
    without an nn field the first row counts 1 instead of its count
    ([uniq_cnt_alldef_I4] begins with counter = 1), so that the number of the
    first value is wrong by that difference.  The arrays are large enough and
    the compaction of the output keeps it as it is. *)
Theorem count_vals_correct (t : FLD_TYPE) (src : list Z) (nnX : option (list Z))
    (in_cnt : option (FLD_TYPE * bool * list Z)) :
  operands_ok t src nnX (snd <$> in_cnt) ->
  match in_cnt with Some (ct, has_nn, _) => ct = I4 /\ has_nn = false | None => True end ->
  let rows := weighted_rows src nnX (snd <$> in_cnt) in
  StronglySorted Z.le rows.*1 ->
  exists r, count_vals t src nnX in_cnt "ascending" = Ok r /\
    match r with
    | None => rows = []
    | Some (vals, cnts) =>
        zlen vals = zlen cnts /\ StronglySorted Z.lt vals /\
        (forall v, v ∈ vals <-> v ∈ rows.*1) /\
        (forall j v, vals !z j = Some v -> cnts !z j = Some (tally v rows + miscount src nnX (snd <$> in_cnt) v))
    end.
Proof.
  intros Hok Hrec rows Hs. eexists.
  split; [by apply (count_vals_runs t src nnX (snd <$> in_cnt))|].
  pose proof (kernel_rows_values t src nnX _ Hok) as Hvals. pose proof (kernel_rows_tally t src nnX _ Hok) as Htally.
  fold rows in Hvals, Htally. set (krows := kernel_rows src nnX (snd <$> in_cnt)) in *.
  destruct krows as [|[v k] l] eqn:Ek.
  { cbn [runs]. by destruct rows. }
  destruct (runs ((v, k) :: l)) as [|p rs'] eqn:E.
  { pose proof (runs_from_length l v k). simpl in E. rewrite E in *. simpl in *. lia. }
  rewrite <- E. split; [by rewrite !zlen_fmap|].
  rewrite <- Hvals in Hs |- *. split; [by apply runs_from_sorted|]. split; [intros x; apply runs_elem|].
  intros j x Hx. pose proof (zlookup_Some_range _ _ _ Hx) as Hj.
  rewrite zlookup_to_nat in Hx |- * by lia.
  apply list_lookup_fmap_Some in Hx as ([x' y] & -> & Hxy).
  rewrite list_lookup_fmap, Hxy. simpl. f_equal. rewrite <- Htally.
  apply list_elem_of_lookup_2 in Hxy. by apply (runs_from_tally x' y l v k).
Qed.

Lemma count_vals_correct_witness :
  exists r, count_vals I8 [-1; 1; 0; 5; 5] (Some [1; 1; 0; 1; 1]) (Some (I4, false, [1; 2; 3; 4; 5]))
    "ascending" = Ok r /\
    match r with
    | None => False
    | Some (vals, cnts) => forall v, v ∈ vals <-> v ∈ [-1; 1; 5; 5]
    end.
Proof.
  assert (Forall (inS 64) [-1; 1; 0; 5; 5]) as Hw by (repeat constructor; unfold inS; lia).
  destruct (count_vals_correct I8 [-1; 1; 0; 5; 5] (Some [1; 1; 0; 1; 1])
    (Some (I4, false, [1; 2; 3; 4; 5]))) as (r & Hr & Hrs).
  - split; [by right|done|done|by intros b [= <-]| |by vm_compute].
    intros w [= <-]. split; [done|]. repeat constructor; lia.
  - done.
  - vm_compute. repeat constructor; by vm_compute.
  - exists r. split; [exact Hr|]. destruct r as [[vals cnts]|]; [apply Hrs|].
    by vm_compute in Hrs.
Defined.

(** The kernels without a count field on values in any order: the
    values and counts they store, each value repeated as often as its count
    says, give back the defined values in order. *)
Theorem uniq_expand (inp : list Z) (nnX : option (list Z)) (out cnt : list Z) :
  (forall b, nnX = Some b -> zlen b = zlen inp) -> zlen inp <= INT_MAX ->
  zlen inp <= zlen out -> zlen inp <= zlen cnt ->
  exists out' n cnt', uniq inp (zlen inp) nnX out cnt = Ok (out', n, cnt') /\
    0 <= n <= zlen inp /\ zlen out' = zlen out /\ zlen cnt' = zlen cnt /\
    expand (zip (take (Z.to_nat n) out') (take (Z.to_nat n) cnt'))
      = (def_rows inp (fun _ => 1) nnX 0 (zlen inp)).*1.
Proof.
  intros Hnn Hmax Hout Hcnt. set (rows := def_rows inp (fun _ => 1) nnX 0 (zlen inp)).
  assert (Forall (fun p => p.2 = 1) rows) as Hones.
  { apply Forall_forall. intros p Hp. unfold rows, def_rows in Hp.
    apply list_elem_of_omap in Hp as (k & _ & Hrow). unfold row_at in Hrow.
    destruct (inp !z k); [|done]. simpl in Hrow.
    destruct nnX; [case_decide; [done|]|]; by injection Hrow as <-. }
  assert (length rows <= length inp)%nat as Hlen.
  { unfold rows, def_rows. etrans; [apply length_omap_le|].
    rewrite length_seqZ, to_nat_zlen. done. }
  destruct (uniq_with_ok (fun _ => Ok 1) (fun _ => 1) inp nnX) with (out := out) (cnt := cnt)
    as (r & Hr & Hw); try done; try (unfold zlen in *; lia).
  { fold rows. rewrite (total_ones _ Hones). unfold zlen in *. lia. }
  unfold written in Hw. fold rows in Hw. subst r. set (rs := runs rows) in *.
  assert (length rs <= length inp)%nat as Hrs.
  { unfold rs. destruct rows as [|[v k] l]; simpl in *; [lia|].
    pose proof (runs_from_length l v k). lia. }
  eexists _, _, _. split; [exact Hr|]. rewrite to_nat_zlen.
  split; [unfold zlen; lia|].
  split; [unfold zlen in *; rewrite length_app, length_fmap, length_drop; lia|].
  split; [unfold zlen in *; rewrite length_app, length_fmap, length_drop; lia|].
  rewrite !take_app_length' by (by rewrite length_fmap). rewrite zip_fst_snd.
  rewrite <- (expand_ones _ Hones). unfold rs. destruct rows as [|[v k] l]; [done|].
  apply Forall_cons in Hones as [Hk Hl]. simpl in Hk. apply runs_from_expand; [lia|].
  apply Forall_fmap. eapply Forall_impl; [exact Hl|]. simpl. intros p ->. done.
Qed.

Lemma uniq_expand_witness :
  exists out' n cnt', uniq [4; 4; 2; 9; 4] 5 (Some [1; 1; 1; 0; 1]) [0; 0; 0; 0; 0] [0; 0; 0; 0; 0]
      = Ok (out', n, cnt') /\
    0 <= n <= 5 /\ zlen out' = 5 /\ zlen cnt' = 5 /\
    expand (zip (take (Z.to_nat n) out') (take (Z.to_nat n) cnt')) = [4; 4; 2; 4].
Proof.
  apply (uniq_expand [4; 4; 2; 9; 4] (Some [1; 1; 1; 0; 1]) [0; 0; 0; 0; 0] [0; 0; 0; 0; 0]);
    [by intros b [= <-]|by vm_compute..].
Defined.

(** Two cases of [count_vals] that do not count what they are
    given: without nulls the count of the first row is taken to be 1, and for
    I8 values without nulls a count field leads to a number of rows that is
    never set. *)
Theorem count_vals_count_field :
  count_vals I4 [7; 7] None (Some (I4, false, [5; 5])) "ascending" = Ok (Some ([7], [6])) /\
  count_vals I4 [7; 7] (Some [1; 1]) (Some (I4, false, [5; 5])) "ascending" = Ok (Some ([7], [10])) /\
  count_vals I8 [7; 7] None (Some (I4, false, [5; 5])) "ascending" = Ub.
Proof. split; [|split]; by vm_compute. Qed.

End Uniq.

Module Union.

(** ** The kernel

    Pointers are indices; [w] is the width of the values.  [f3] is the output
    array; the pointer into it and the count [nR3] advance together. *)
Section kernel.
Context (w mask : Z).

(** [eff_f1val] and [eff_f2val] *)
Definition eff (v : Z) : Z :=
  if negb (mask =? 0) then Z.land (wrapU w v) (wrapU w (Z.lnot mask)) else wrapU w v.

(** What is stored for two values that are taken together. *)
Definition combine (f1val f2val : Z) : Z :=
  if mask =? 0 then f1val
  else
    let cnt1 := Z.land (eff f1val) mask in
    let cnt2 := Z.land (eff f2val) mask in
    let cnt := wrapU w (cnt1 + cnt2) in
    wrapS w (Z.lor (eff f1val) cnt).

Fixpoint union_loop (fuel : nat) (f1 f2 : list Z) (nR1 nR2 i1 i2 : Z) (f3 : list Z) (nR3 : Z)
    : res (list Z * Z) :=
  if (i1 =? nR1) && (i2 =? nR2) then Ok (f3, nR3)
  else match fuel with
  | O => NoFuel
  | S fuel =>
      if i1 =? nR1 then
        f2val ← rd f2 i2;
        f3 ← wr f3 nR3 f2val;
        union_loop fuel f1 f2 nR1 nR2 i1 (i2 + 1) f3 (nR3 + 1)
      else if i2 =? nR2 then
        f1val ← rd f1 i1;
        f3 ← wr f3 nR3 f1val;
        union_loop fuel f1 f2 nR1 nR2 (i1 + 1) i2 f3 (nR3 + 1)
      else
        f1val ← rd f1 i1;
        f2val ← rd f2 i2;
        if eff f1val <? eff f2val then
          f3 ← wr f3 nR3 f1val;
          union_loop fuel f1 f2 nR1 nR2 (i1 + 1) i2 f3 (nR3 + 1)
        else if eff f2val <? eff f1val then
          f3 ← wr f3 nR3 f2val;
          union_loop fuel f1 f2 nR1 nR2 i1 (i2 + 1) f3 (nR3 + 1)
        else
          f3 ← wr f3 nR3 (combine f1val f2val);
          union_loop fuel f1 f2 nR1 nR2 (i1 + 1) (i2 + 1) f3 (nR3 + 1)
  end.

Definition union (f1 : list Z) (nR1 : Z) (f2 : list Z) (nR2 : Z) (f3 : list Z)
    : res (list Z * Z) :=
  union_loop (Z.to_nat (nR1 + nR2)) f1 f2 nR1 nR2 0 0 f3 0.
End kernel.

Definition union_I4 (f1 : list Z) (nR1 : Z) (f2 : list Z) (nR2 : Z) (f3 : list Z) (mask : Z) :=
  union 32 mask f1 nR1 f2 nR2 f3.
Definition union_I8 (f1 : list Z) (nR1 : Z) (f2 : list Z) (nR2 : Z) (f3 : list Z) (mask : Z) :=
  union 64 mask f1 nR1 f2 nR2 f3.

(** ** Merging *)
Section correctness.
Context (w mask : Z).
Abbreviation key := (eff w mask).
Abbreviation comb := (combine w mask).

(** The merge of two lists by their keys. *)
Fixpoint merge (l1 l2 : list Z) : list Z :=
  let fix go l2 :=
    match l1, l2 with
    | [], _ => l2
    | _, [] => l1
    | a :: t1, b :: t2 =>
        if key a <? key b then a :: merge t1 l2
        else if key b <? key a then b :: go t2
        else comb a b :: merge t1 t2
    end in
  go l2.

Lemma merge_nil_l l : merge [] l = l.
Proof. by destruct l. Qed.
Lemma merge_nil_r l : merge l [] = l.
Proof. by destruct l. Qed.
Lemma merge_cons a t1 b t2 :
  merge (a :: t1) (b :: t2) =
    if key a <? key b then a :: merge t1 (b :: t2)
    else if key b <? key a then b :: merge (a :: t1) t2
    else comb a b :: merge t1 t2.
Proof. done. Qed.
Arguments merge : simpl never.

Lemma at_end {A} (p r : list A) : (zlen p =? zlen (p ++ r)) = bool_decide (r = []).
Proof.
  rewrite zlen_app. destruct r as [|x r].
  - rewrite bool_decide_true by done. apply Z.eqb_eq. unfold zlen. simpl. lia.
  - rewrite bool_decide_false by done. apply Z.eqb_neq. rewrite zlen_cons.
    pose proof (zlen_nonneg r). lia.
Qed.

(** One step: a value is stored and the pointers move. *)
Lemma wr_done (done : list Z) x rest v :
  wr (done ++ x :: rest) (zlen done) v = Ok ((done ++ [v]) ++ rest) /\
  zlen done + 1 = zlen (done ++ [v]).
Proof. by rewrite wr_middle, <- app_assoc, zlen_app. Qed.

Lemma step_ptr {A} (p : list A) a r : p ++ a :: r = (p ++ [a]) ++ r /\ zlen p + 1 = zlen (p ++ [a]).
Proof. by rewrite <- app_assoc, zlen_app. Qed.

Lemma union_loop_ok fuel : forall p1 r1 p2 r2 done rest,
  (length r1 + length r2 <= fuel)%nat -> (length r1 + length r2 <= length rest)%nat ->
  exists rest', union_loop w mask fuel (p1 ++ r1) (p2 ++ r2) (zlen (p1 ++ r1)) (zlen (p2 ++ r2))
      (zlen p1) (zlen p2) (done ++ rest) (zlen done)
    = Ok ((done ++ merge r1 r2) ++ rest', zlen (done ++ merge r1 r2)).
Proof.
  induction fuel as [|fuel IH]; intros p1 r1 p2 r2 done rest Hfuel Hrest.
  { destruct r1, r2; simpl in Hfuel; try lia. exists rest. simpl.
    rewrite !at_end. simpl. by rewrite !app_nil_r. }
  cbn [union_loop]. rewrite !at_end.
  destruct r1 as [|a t1], r2 as [|b t2]; rewrite ?merge_nil_l, ?merge_nil_r; simpl in Hfuel, Hrest;
    [exists rest; by rewrite !app_nil_r|..];
    (destruct rest as [|x rest]; [simpl in Hrest; lia|]);
    rewrite ?rd_middle; simpl.
  - destruct (wr_done done x rest b) as [-> ->]. destruct (step_ptr p2 b t2) as [-> ->]. simpl.
    destruct (IH p1 [] (p2 ++ [b]) t2 (done ++ [b]) rest) as (rest' & Hr); simpl in *; try lia.
    rewrite Hr, merge_nil_l, <- (app_assoc done). by exists rest'.
  - destruct (wr_done done x rest a) as [-> ->]. destruct (step_ptr p1 a t1) as [-> ->]. simpl.
    destruct (IH (p1 ++ [a]) t1 p2 [] (done ++ [a]) rest) as (rest' & Hr); simpl in *; try lia.
    rewrite Hr, merge_nil_r, <- (app_assoc done). by exists rest'.
  - rewrite merge_cons. destruct (key a <? key b); [|destruct (key b <? key a)].
    + destruct (wr_done done x rest a) as [-> ->]. destruct (step_ptr p1 a t1) as [-> ->]. simpl.
      destruct (IH (p1 ++ [a]) t1 p2 (b :: t2) (done ++ [a]) rest) as (rest' & Hr); simpl in *; try lia.
      rewrite Hr, <- (app_assoc done). by exists rest'.
    + destruct (wr_done done x rest b) as [-> ->]. destruct (step_ptr p2 b t2) as [-> ->]. simpl.
      destruct (IH p1 (a :: t1) (p2 ++ [b]) t2 (done ++ [b]) rest) as (rest' & Hr); simpl in *; try lia.
      rewrite Hr, <- (app_assoc done). by exists rest'.
    + destruct (wr_done done x rest (comb a b)) as [-> ->].
      destruct (step_ptr p1 a t1) as [-> ->], (step_ptr p2 b t2) as [-> ->]. simpl.
      destruct (IH (p1 ++ [a]) t1 (p2 ++ [b]) t2 (done ++ [comb a b]) rest) as (rest' & Hr);
        simpl in *; try lia.
      rewrite Hr, <- (app_assoc done). by exists rest'.
Qed.

Lemma union_ok f1 f2 f3 :
  zlen f1 + zlen f2 <= zlen f3 ->
  exists rest, union w mask f1 (zlen f1) f2 (zlen f2) f3
    = Ok (merge f1 f2 ++ rest, zlen (merge f1 f2)).
Proof.
  intros Hlen. unfold union.
  destruct (union_loop_ok (Z.to_nat (zlen f1 + zlen f2)) [] f1 [] f2 [] f3) as (rest & Hr);
    unfold zlen in *; try lia. by exists rest.
Qed.

(** A property of the elements of both lists that [combine] keeps. *)
Lemma merge_Forall (P : Z -> Prop) l1 : forall l2,
  (forall a b, P a -> P b -> P (comb a b)) -> Forall P l1 -> Forall P l2 -> Forall P (merge l1 l2).
Proof.
  induction l1 as [|a t1 IH1]; intros l2 Hc H1 H2; [by rewrite merge_nil_l|].
  induction l2 as [|b t2 IH2]; [by rewrite merge_nil_r|].
  rewrite merge_cons. pose proof H1 as [Ha Ht1]%Forall_cons. pose proof H2 as [Hb Ht2]%Forall_cons.
  destruct (key a <? key b); [|destruct (key b <? key a)]; constructor; auto.
Qed.

Definition key_lt (a b : Z) : Prop := key a < key b.

(** Ascending keys, when [combine] keeps the key. *)
Lemma merge_sorted l1 : forall l2,
  (forall a b, key a = key b -> key (comb a b) = key a) ->
  StronglySorted key_lt l1 -> StronglySorted key_lt l2 -> StronglySorted key_lt (merge l1 l2).
Proof.
  assert (forall k a b, (forall a b, key a = key b -> key (comb a b) = key a) -> k < key a -> k < key b ->
    key a = key b -> k < key (comb a b)) as Hk by (intros k a b Hc Ha Hb E; rewrite Hc; lia).
  assert (forall k l1 l2, (forall a b, key a = key b -> key (comb a b) = key a) ->
    Forall (fun x => k < key x) l1 -> Forall (fun x => k < key x) l2 ->
    Forall (fun x => k < key x) (merge l1 l2)) as Hall.
  { intros k l. induction l as [|a t1 IH1]; intros l' Hc H1 H2; [by rewrite merge_nil_l|].
    induction l' as [|b t2 IH2]; [by rewrite merge_nil_r|]. rewrite merge_cons.
    pose proof H1 as [Ha Ht1]%Forall_cons. pose proof H2 as [Hb Ht2]%Forall_cons.
    destruct (Z.ltb_spec (key a) (key b)); [|destruct (Z.ltb_spec (key b) (key a))];
      constructor; auto. apply Hk; auto; lia. }
  induction l1 as [|a t1 IH1]; intros l2 Hc H1 H2; [by rewrite merge_nil_l|].
  induction l2 as [|b t2 IH2]; [by rewrite merge_nil_r|]. rewrite merge_cons.
  pose proof H1 as [Ht1 Ha]%StronglySorted_inv. pose proof H2 as [Ht2 Hb]%StronglySorted_inv.
  unfold key_lt in Ha, Hb.
  destruct (Z.ltb_spec (key a) (key b)) as [Hlt|Hge];
    [|destruct (Z.ltb_spec (key b) (key a)) as [Hlt'|Hge']]; constructor; auto; apply Hall; auto.
  - constructor; [done|]. eapply Forall_impl; [exact Hb|]. simpl. intros x Hx. lia.
  - constructor; [done|]. eapply Forall_impl; [exact Ha|]. simpl. intros x Hx. lia.
  - eapply Forall_impl; [exact Ha|]. simpl. intros x Hx. rewrite (Hc a b); lia.
  - eapply Forall_impl; [exact Hb|]. simpl. intros x Hx. rewrite (Hc a b); lia.
Qed.

Lemma merge_length l1 : forall l2, (length (merge l1 l2) <= length l1 + length l2)%nat.
Proof.
  induction l1 as [|a t1 IH1]; intros l2; [by rewrite merge_nil_l|].
  induction l2 as [|b t2 IH2]; [rewrite merge_nil_r; simpl; lia|].
  rewrite merge_cons. pose proof (IH1 (b :: t2)). pose proof (IH1 t2).
  destruct (key a <? key b); [|destruct (key b <? key a)]; simpl in *; lia.
Qed.

End correctness.

(** ** The plain union *)

Lemma merge_elem w x l1 : forall l2,
  Forall (inS w) l1 -> Forall (inS w) l2 -> x ∈ merge w 0 l1 l2 <-> x ∈ l1 \/ x ∈ l2.
Proof.
  induction l1 as [|a t1 IH1]; intros l2 H1 H2; [rewrite merge_nil_l, elem_of_nil; tauto|].
  induction l2 as [|b t2 IH2]; [rewrite merge_nil_r, elem_of_nil; tauto|].
  rewrite merge_cons. pose proof H1 as [Ha Ht1]%Forall_cons. pose proof H2 as [Hb Ht2]%Forall_cons.
  destruct (Z.ltb_spec (eff w 0 a) (eff w 0 b)) as [Hlt|Hge];
    [|destruct (Z.ltb_spec (eff w 0 b) (eff w 0 a)) as [Hlt'|Hge']]; rewrite elem_of_cons.
  - rewrite (IH1 (b :: t2) Ht1 H2), !elem_of_cons. tauto.
  - rewrite (IH2 Ht2), !elem_of_cons. tauto.
  - rewrite (IH1 t2 Ht1 Ht2), !elem_of_cons.
    assert (a = b) as ->; [|unfold combine; simpl; tauto].
    rewrite <- (wrapU_wrapS w a Ha), <- (wrapU_wrapS w b Hb). unfold eff in *. simpl in *.
    f_equal. lia.
Qed.

(** Unsigned order. *)
Definition ult (w a b : Z) : Prop := wrapU w a < wrapU w b.

(** The union, without a mask, of two lists without duplicates in
    ascending unsigned order: the kernel stays within an output array of the
    size that is allocated, and stores the elements of both lists once each,
    in ascending unsigned order, which for values that are not negative is
    the ascending order. *)
Theorem union_correct (w : Z) (f1 f2 f3 : list Z) :
  Forall (inS w) f1 -> Forall (inS w) f2 ->
  StronglySorted (ult w) f1 -> StronglySorted (ult w) f2 -> zlen f1 + zlen f2 <= zlen f3 ->
  exists out n, union w 0 f1 (zlen f1) f2 (zlen f2) f3 = Ok (out, n) /\
    0 <= n <= zlen f1 + zlen f2 /\
    (forall x, x ∈ take (Z.to_nat n) out <-> x ∈ f1 \/ x ∈ f2) /\
    StronglySorted (ult w) (take (Z.to_nat n) out) /\
    (Forall (Z.le 0) f1 -> Forall (Z.le 0) f2 -> StronglySorted Z.lt (take (Z.to_nat n) out)).
Proof.
  intros H1 H2 Hs1 Hs2 Hlen. destruct (union_ok w 0 f1 f2 f3 Hlen) as (rest & Hu).
  eexists _, _. split; [exact Hu|]. rewrite to_nat_zlen, take_app_length.
  pose proof (merge_length w 0 f1 f2). split; [unfold zlen; lia|].
  split; [intros x; by apply merge_elem|].
  assert (StronglySorted (ult w) (merge w 0 f1 f2)) as Hs by (by apply (merge_sorted w 0)).
  split; [done|]. intros Hp1 Hp2.
  assert (Forall (fun x => 0 <= x /\ inS w x) (merge w 0 f1 f2)) as Hall.
  { apply merge_Forall; [by intros a b Ha Hb|..]; apply Forall_and; done. }
  revert Hs Hall. generalize (merge w 0 f1 f2). clear. intros l0 Hs Hall.
  induction Hs as [|x l Hs IH Hx]; [constructor|]. constructor; apply Forall_cons in Hall as [[Hx0 Hxw] Hl]; [by apply IH|].
  rewrite Forall_forall in Hx, Hl |- *. intros y Hy. specialize (Hx y Hy). specialize (Hl y Hy).
  destruct Hl as [Hy0 Hyw]. unfold ult in Hx.
  assert (forall z, 0 <= z -> inS w z -> wrapU w z = z) as Hsmall.
  { intros z Hz Hw. apply wrapU_small. unfold inS, inU in *.
    assert (2 ^ (w - 1) <= 2 ^ w) by (apply Z.pow_le_mono_r; lia). lia. }
  rewrite !Hsmall in Hx by done. done.
Qed.

Lemma union_correct_witness :
  exists out n, union 32 0 [1; 4; 6] 3 [2; 4] 2 [0; 0; 0; 0; 0] = Ok (out, n) /\
    0 <= n <= 5 /\
    (forall x, x ∈ take (Z.to_nat n) out <-> x ∈ [1; 4; 6] \/ x ∈ [2; 4]) /\
    StronglySorted (ult 32) (take (Z.to_nat n) out) /\
    (Forall (Z.le 0) [1; 4; 6] -> Forall (Z.le 0) [2; 4] ->
     StronglySorted Z.lt (take (Z.to_nat n) out)).
Proof.
  apply (union_correct 32 [1; 4; 6] [2; 4] [0; 0; 0; 0; 0]).
  - repeat constructor; by vm_compute.
  - repeat constructor; by vm_compute.
  - repeat constructor; by vm_compute.
  - repeat constructor; by vm_compute.
  - by vm_compute.
Defined.

(** ** With a mask, and with negative values *)

(** With a mask, the low bits of a value are meant to be a count
    and the counts of equal keys to be added; the kernel takes the counts from
    the values after the mask has cleared them: the stored count is 0, for
    all values and masks. *)
Theorem union_masked_drops_counts (w mask a b x y : Z) :
  0 < mask < 2 ^ w -> eff w mask a = eff w mask b ->
  union w mask [a] 1 [b] 1 [x; y] = Ok ([wrapS w (eff w mask a); y], 1).
Proof.
  intros Hm Heq. unfold union. simpl.
  rewrite Heq, Z.ltb_irrefl. simpl. unfold combine.
  rewrite (proj2 (Z.eqb_neq mask 0)) by lia.
  assert (forall v, Z.land (eff w mask v) mask = 0) as Hz.
  { intros v. unfold eff. rewrite (proj2 (Z.eqb_neq mask 0)) by lia. simpl.
    assert (0 <= w) by (destruct (decide (0 <= w)); [done|rewrite Z.pow_neg_r in Hm; lia]).
    unfold wrapU at 2. rewrite <- Z.land_ones by done. apply Z.bits_inj'. intros n Hn.
    rewrite !Z.land_spec, Z.lnot_spec, Z.bits_0 by done. destruct (Z.testbit mask n); simpl;
      by rewrite ?andb_false_r. }
  rewrite !Hz. simpl. unfold wrapU at 1. rewrite Z.mod_0_l by lia. by rewrite Z.lor_0_r, Heq.
Qed.

Lemma union_masked_drops_counts_witness :
  union 32 15 [16 + 3] 1 [16 + 2] 1 [0; 0] = Ok ([wrapS 32 (eff 32 15 (16 + 3)); 0], 1).
Proof. apply (union_masked_drops_counts 32 15 (16 + 3) (16 + 2) 0 0); [lia|by vm_compute]. Defined.

(** Ascending lists with negative values, which the caller lets
    through, are not merged: the comparison is unsigned. *)
Theorem union_negative_values :
  union_I4 [-2; 1] 2 [-1; 1] 2 [0; 0; 0; 0] 0 = Ok ([-2; 1; -1; 1], 4) /\
  union_I4 [-2; 1] 2 [0; 1] 2 [0; 0; 0; 0] 0 = Ok ([0; 1; -2; 1], 4).
Proof. split; by vm_compute. Qed.

End Union.
