(* ===== verification/Reduce.v ===== *)
(** * Reductions of a field to a value.

    Models the kernels f_to_s_min, f_to_s_max, f_to_s_sum and their variants
    for fields with nulls (nn_f_to_s_...) of src/src/AUX, for every type, the
    number of ones of a bit vector (f_to_s_sum_B.c), and
    dir_helpers/par_f_to_s.c, which cuts the rows in blocks, runs a kernel on
    every block and combines the partial results.

    A column is a list of integers or of floating-point numbers ([spec_float],
    the standard library's IEEE 754).  The two numbers that [rslt_buf] shows,
    the value and the number of defined rows, are the result; their text is
    left out.  [cilkfor] is [for]. *)

From stdpp Require Import prelude strings.
From Stdlib Require Import ZArith Lia SpecFloat.
From S2P Require Import Prelude CString Types.

Module Reduce.

(** ** Floating-point numbers *)

Abbreviation float := spec_float (only parsing).
Definition FLT_MAX : float := S754_finite false 16777215 104.
Definition FLT_MIN : float := S754_finite false 8388608 (-149).
Definition DBL_MAX : float := S754_finite false 9007199254740991 971.
Definition DBL_MIN : float := S754_finite false 4503599627370496 (-1074).
Definition flt_lt : float -> float -> bool := SFltb.
Definition dbl_add : float -> float -> float := SFadd 53 1024.

(** Conversion of [float] on [double]. *)
Definition widen (x : float) : float :=
  match x with
  | S754_finite s m e => binary_normalize 53 1024 (cond_Zopp s (Zpos m)) e s
  | _ => x
  end.

(** ** Kernels

    [X + lb] is the pointer that the kernels get. *)

(** [if ( X[i] < rslt ) { rslt = X[i]; }], [better] being [<] or [>]. *)
Fixpoint f_to_s_loop {A} (better : A -> A -> bool) (n : nat) (X : list A) (i : Z) (rslt : A) : res A :=
  match n with
  | O => Ok rslt
  | S n => x ← rd X i; f_to_s_loop better n X (i + 1) (if better x rslt then x else rslt)
  end.
Definition f_to_s {A} (better : A -> A -> bool) (X : list A) (lb nX : Z) (rslt : A) : res A :=
  f_to_s_loop better (Z.to_nat nX) X lb rslt.

(** With nulls the values are compared with [*ptr_rslt], which does not
    change in the loop. *)
Fixpoint nn_f_to_s_loop {A} (better : A -> A -> bool) (n : nat) (X : list A) (nn_X : list Z) (i : Z)
    (rslt0 rslt : A) (cnt : Z) : res (Z * A) :=
  match n with
  | O => Ok (cnt, rslt)
  | S n =>
      b ← rd nn_X i;
      if b =? 0 then nn_f_to_s_loop better n X nn_X (i + 1) rslt0 rslt cnt
      else
        x ← rd X i;
        nn_f_to_s_loop better n X nn_X (i + 1) rslt0 (if better x rslt0 then x else rslt) (cnt + 1)
  end.
Definition nn_f_to_s {A} (better : A -> A -> bool) (X : list A) (nn_X : list Z) (lb nX : Z)
    (cnt : Z) (rslt : A) : res (Z * A) :=
  nn_f_to_s_loop better (Z.to_nat nX) X nn_X lb rslt rslt cnt.

(** [add] is the addition of [long long] or of [double]. *)
Fixpoint sum_loop {A R} (add : R -> A -> res R) (n : nat) (X : list A) (i : Z) (rslt : R) : res R :=
  match n with
  | O => Ok rslt
  | S n => x ← rd X i; rslt ← add rslt x; sum_loop add n X (i + 1) rslt
  end.
Definition f_to_s_sum {A R} (add : R -> A -> res R) (X : list A) (lb nX : Z) (rslt : R) : res R :=
  sum_loop add (Z.to_nat nX) X lb rslt.

Fixpoint nn_sum_loop {A R} (add : R -> A -> res R) (n : nat) (X : list A) (nn_X : list Z) (i : Z)
    (cnt : Z) (rslt : R) : res (Z * R) :=
  match n with
  | O => Ok (cnt, rslt)
  | S n =>
      b ← rd nn_X i;
      if b =? 0 then nn_sum_loop add n X nn_X (i + 1) cnt rslt
      else x ← rd X i; rslt ← add rslt x; nn_sum_loop add n X nn_X (i + 1) (cnt + 1) rslt
  end.
Definition nn_f_to_s_sum {A R} (add : R -> A -> res R) (X : list A) (nn_X : list Z) (lb nX : Z)
    (cnt : Z) (rslt : R) : res (Z * R) :=
  nn_sum_loop add (Z.to_nat nX) X nn_X lb cnt rslt.

Definition flt_gt (x y : float) : bool := flt_lt y x.
Definition add_F4 (r x : float) : res float := Ok (dbl_add r (widen x)).
Definition add_F8 (r x : float) : res float := Ok (dbl_add r x).

Definition f_to_s_min_I1 := f_to_s Z.ltb.
Definition f_to_s_min_I2 := f_to_s Z.ltb.
Definition f_to_s_min_I4 := f_to_s Z.ltb.
Definition f_to_s_min_I8 := f_to_s Z.ltb.
Definition f_to_s_min_F4 := f_to_s flt_lt.
Definition f_to_s_min_F8 := f_to_s flt_lt.
Definition nn_f_to_s_min_I1 := nn_f_to_s Z.ltb.
Definition nn_f_to_s_min_I2 := nn_f_to_s Z.ltb.
Definition nn_f_to_s_min_I4 := nn_f_to_s Z.ltb.
Definition nn_f_to_s_min_I8 := nn_f_to_s Z.ltb.
Definition nn_f_to_s_min_F4 := nn_f_to_s flt_lt.
Definition nn_f_to_s_min_F8 := nn_f_to_s flt_lt.
Definition f_to_s_max_I1 := f_to_s Z.gtb.
Definition f_to_s_max_I2 := f_to_s Z.gtb.
Definition f_to_s_max_I4 := f_to_s Z.gtb.
Definition f_to_s_max_I8 := f_to_s Z.gtb.
Definition f_to_s_max_F4 := f_to_s flt_gt.
Definition f_to_s_max_F8 := f_to_s flt_gt.
Definition nn_f_to_s_max_I1 := nn_f_to_s Z.gtb.
Definition nn_f_to_s_max_I2 := nn_f_to_s Z.gtb.
Definition nn_f_to_s_max_I4 := nn_f_to_s Z.gtb.
Definition nn_f_to_s_max_I8 := nn_f_to_s Z.gtb.
Definition nn_f_to_s_max_F4 := nn_f_to_s flt_gt.
Definition nn_f_to_s_max_F8 := nn_f_to_s flt_gt.
Definition f_to_s_sum_I1 := f_to_s_sum (add_to 64).
Definition f_to_s_sum_I2 := f_to_s_sum (add_to 64).
Definition f_to_s_sum_I4 := f_to_s_sum (add_to 64).
Definition f_to_s_sum_I8 := f_to_s_sum (add_to 64).
Definition f_to_s_sum_F4 := f_to_s_sum add_F4.
Definition f_to_s_sum_F8 := f_to_s_sum add_F8.
Definition nn_f_to_s_sum_I1 := nn_f_to_s_sum (add_to 64).
Definition nn_f_to_s_sum_I2 := nn_f_to_s_sum (add_to 64).
Definition nn_f_to_s_sum_I4 := nn_f_to_s_sum (add_to 64).
Definition nn_f_to_s_sum_I8 := nn_f_to_s_sum (add_to 64).
Definition nn_f_to_s_sum_F4 := nn_f_to_s_sum add_F4.
Definition nn_f_to_s_sum_F8 := nn_f_to_s_sum add_F8.

(** ** The ones of a bit vector

    The bytes are [char]s, signed. *)

(** [__builtin_popcount] of the [n] low bits *)
Fixpoint popcount (n : nat) (x : Z) : Z :=
  match n with O => 0 | S n => popcount n x + Z.b2z (Z.testbit x (Z.of_nat n)) end.

Definition mask_byte_L (ctemp nbits : Z) : res Z :=
  match nbits with
  | 1 => Ok (wrapS 8 (Z.land ctemp 0x80)) | 2 => Ok (wrapS 8 (Z.land ctemp 0xB0))
  | 3 => Ok (wrapS 8 (Z.land ctemp 0xD0)) | 4 => Ok (wrapS 8 (Z.land ctemp 0xF0))
  | 5 => Ok (wrapS 8 (Z.land ctemp 0xF8)) | 6 => Ok (wrapS 8 (Z.land ctemp 0xFB))
  | 7 => Ok (wrapS 8 (Z.land ctemp 0xFD)) | _ => Err
  end.
Definition mask_byte_R (ctemp nbits : Z) : res Z :=
  match nbits with
  | 1 => Ok (wrapS 8 (Z.land ctemp 0x01)) | 2 => Ok (wrapS 8 (Z.land ctemp 0x03))
  | 3 => Ok (wrapS 8 (Z.land ctemp 0x07)) | 4 => Ok (wrapS 8 (Z.land ctemp 0x0F))
  | 5 => Ok (wrapS 8 (Z.land ctemp 0x1F)) | 6 => Ok (wrapS 8 (Z.land ctemp 0x3F))
  | 7 => Ok (wrapS 8 (Z.land ctemp 0x7F)) | _ => Err
  end.

(** The ones of a byte, the sign counted apart. *)
Definition byte_rslt (ctemp : Z) : Z :=
  if ctemp <? 0 then 1 + popcount 32 (Z.land ctemp 0x7F) else popcount 32 ctemp.

(** The bytes before the first whole word, with the checks of
    [LOCAL_DEBUG], and those after the last one. *)
Fixpoint bytes_L (n : nat) (X : list Z) (p : Z) (rslt : Z) : res Z :=
  match n with
  | O => Ok rslt
  | S n =>
      ctemp ← rd X p;
      let part_rslt := byte_rslt ctemp in
      _ ← go_BYE_if (8 <? part_rslt);
      _ ← go_BYE_if ((ctemp =? 0) && (0 <? part_rslt));
      _ ← go_BYE_if (negb (ctemp =? 0) && (part_rslt =? 0));
      bytes_L n X (p + 1) (rslt + part_rslt)
  end.
Fixpoint bytes_R (n : nat) (X : list Z) (p : Z) (rslt : Z) : res Z :=
  match n with
  | O => Ok rslt
  | S n => ctemp ← rd X p; bytes_R n X (p + 1) (rslt + byte_rslt ctemp)
  end.

(** An [unsigned long long] at byte [p], little-endian, and the whole words. *)
Fixpoint word (n : nat) (X : list Z) (p : Z) : res Z :=
  match n with
  | O => Ok 0
  | S n => b ← rd X p; w ← word n X (p + 1); Ok (wrapU 8 b + 256 * w)
  end.
Fixpoint words (n : nat) (X : list Z) (p : Z) (rslt : Z) : res Z :=
  match n with
  | O => Ok rslt
  | S n => w ← word 8 X p; words n X (p + 8) (rslt + popcount 64 w)
  end.

(** The part before the first word boundary [lb2], and the part from the last
    one, [ub2]. *)
Definition sum_B_head (X : list Z) (lb lb2 : Z) : res Z :=
  if lb <? lb2 then
    let n_bits_left := lb2 - lb in
    let n_bytes_left := Z.quot n_bits_left 8 in
    let X1 := Z.quot lb2 8 - n_bytes_left in
    rslt ← bytes_L (Z.to_nat n_bytes_left) X X1 0;
    let n_bits_left := n_bits_left - n_bytes_left * 8 in
    if 0 <? n_bits_left then
      ctemp ← rd X (X1 - 1 + n_bytes_left);
      ctemp ← mask_byte_L ctemp n_bits_left;
      Ok (rslt + byte_rslt ctemp)
    else Ok rslt
  else Ok 0.

Definition sum_B_tail (X : list Z) (ub2 ub rslt : Z) : res Z :=
  if ub2 <? ub then
    let n_bits_left := ub - ub2 in
    let n_bytes_left := Z.quot n_bits_left 8 in
    let X3 := Z.quot ub2 8 in
    rslt ← bytes_R (Z.to_nat n_bytes_left) X X3 rslt;
    let n_bits_left := n_bits_left - n_bytes_left * 8 in
    if 0 <? n_bits_left then
      ctemp ← rd X (X3 + n_bytes_left);
      ctemp ← mask_byte_R ctemp n_bits_left;
      _ ← go_BYE_if (ctemp <? 0);
      Ok (rslt + popcount 32 ctemp)
    else Ok rslt
  else Ok rslt.

Definition f_to_s_sum_B (X : list Z) (lb ub rslt0 : Z) : res Z :=
  let lb2 := Z.quot lb 64 * 64 in
  let lb2 := if negb (lb2 =? lb) then lb2 + 64 else lb2 in
  let ub2 := Z.quot ub 64 * 64 in
  rslt ← sum_B_head X lb lb2;
  rslt ← words (Z.to_nat (Z.quot (ub2 - lb2) 64)) X (Z.quot lb2 8) rslt;
  rslt ← sum_B_tail X ub2 ub rslt;
  add_to 64 rslt0 rslt.

(** ** Blocks *)

Inductive column := Ints (X : list Z) | Floats (X : list float).

(** [nn_cnt[tid]] and the cell of [part_rslt], [ll_numer] or [dd_numer]. *)
Record part := { nn_cnt : Z; ival : Z; fval : float }.
Definition int_part (c v : Z) : part := {| nn_cnt := c; ival := v; fval := S754_zero false |}.
Definition flt_part (c : Z) (v : float) : part := {| nn_cnt := c; ival := 0; fval := v |}.
Definition int_parts (r : res (Z * Z)) : res part := '(c, v) ← r; Ok (int_part c v).
Definition flt_parts (r : res (Z * float)) : res part := '(c, v) ← r; Ok (flt_part c v).

Definition part_min (t : FLD_TYPE) (X : column) (nn_X : option (list Z)) (lb nX : Z) : res part :=
  match nn_X with
  | None =>
      match t, X with
      | I1, Ints X => v ← f_to_s_min_I1 X lb nX SCHAR_MAX; Ok (int_part nX v)
      | I2, Ints X => v ← f_to_s_min_I2 X lb nX SHRT_MAX; Ok (int_part nX v)
      | I4, Ints X => v ← f_to_s_min_I4 X lb nX INT_MAX; Ok (int_part nX v)
      | I8, Ints X => v ← f_to_s_min_I8 X lb nX LLONG_MAX; Ok (int_part nX v)
      | F4, Floats X => v ← f_to_s_min_F4 X lb nX FLT_MAX; Ok (flt_part nX v)
      | F8, Floats X => v ← f_to_s_min_F8 X lb nX DBL_MAX; Ok (flt_part nX v)
      | (I1 | I2 | I4 | I8), Floats _ | (F4 | F8), Ints _ => Ub
      | _, _ => Err
      end
  | Some nn_X =>
      match t, X with
      | I1, Ints X => int_parts (nn_f_to_s_min_I1 X nn_X lb nX 0 SCHAR_MAX)
      | I2, Ints X => int_parts (nn_f_to_s_min_I2 X nn_X lb nX 0 SHRT_MAX)
      | I4, Ints X => int_parts (nn_f_to_s_min_I4 X nn_X lb nX 0 INT_MAX)
      | I8, Ints X => int_parts (nn_f_to_s_min_I8 X nn_X lb nX 0 LLONG_MAX)
      | F4, Floats X => flt_parts (nn_f_to_s_min_F4 X nn_X lb nX 0 FLT_MAX)
      | F8, Floats X => flt_parts (nn_f_to_s_min_F8 X nn_X lb nX 0 DBL_MAX)
      | (I1 | I2 | I4 | I8), Floats _ | (F4 | F8), Ints _ => Ub
      | _, _ => Err
      end
  end.

Definition part_max (t : FLD_TYPE) (X : column) (nn_X : option (list Z)) (lb nX : Z) : res part :=
  match nn_X with
  | None =>
      match t, X with
      | I1, Ints X => v ← f_to_s_max_I1 X lb nX SCHAR_MIN; Ok (int_part nX v)
      | I2, Ints X => v ← f_to_s_max_I2 X lb nX SHRT_MIN; Ok (int_part nX v)
      | I4, Ints X => v ← f_to_s_max_I4 X lb nX INT_MIN; Ok (int_part nX v)
      | I8, Ints X => v ← f_to_s_max_I8 X lb nX LLONG_MIN; Ok (int_part nX v)
      | F4, Floats X => v ← f_to_s_max_F4 X lb nX FLT_MIN; Ok (flt_part nX v)
      | F8, Floats X => v ← f_to_s_max_F8 X lb nX DBL_MIN; Ok (flt_part nX v)
      | (I1 | I2 | I4 | I8), Floats _ | (F4 | F8), Ints _ => Ub
      | _, _ => Err
      end
  | Some nn_X =>
      match t, X with
      | I1, Ints X => int_parts (nn_f_to_s_max_I1 X nn_X lb nX 0 SCHAR_MIN)
      | I2, Ints X => int_parts (nn_f_to_s_max_I2 X nn_X lb nX 0 SHRT_MIN)
      | I4, Ints X => int_parts (nn_f_to_s_max_I4 X nn_X lb nX 0 INT_MIN)
      | I8, Ints X => int_parts (nn_f_to_s_max_I8 X nn_X lb nX 0 LLONG_MIN)
      | F4, Floats X => flt_parts (nn_f_to_s_max_F4 X nn_X lb nX 0 FLT_MIN)
      | F8, Floats X => flt_parts (nn_f_to_s_max_F8 X nn_X lb nX 0 DBL_MIN)
      | (I1 | I2 | I4 | I8), Floats _ | (F4 | F8), Ints _ => Ub
      | _, _ => Err
      end
  end.

Definition fzero : float := S754_zero false.

Definition part_sum (t : FLD_TYPE) (X : column) (nn_X : option (list Z)) (lb ub : Z) : res part :=
  let nX := ub - lb in
  match nn_X with
  | None =>
      match t, X with
      | B, Ints X => v ← f_to_s_sum_B X lb ub 0; Ok (int_part nX v)
      | I1, Ints X => v ← f_to_s_sum_I1 X lb nX 0; Ok (int_part nX v)
      | I2, Ints X => v ← f_to_s_sum_I2 X lb nX 0; Ok (int_part nX v)
      | I4, Ints X => v ← f_to_s_sum_I4 X lb nX 0; Ok (int_part nX v)
      | I8, Ints X => v ← f_to_s_sum_I8 X lb nX 0; Ok (int_part nX v)
      | F4, Floats X => v ← f_to_s_sum_F4 X lb nX fzero; Ok (flt_part nX v)
      | F8, Floats X => v ← f_to_s_sum_F8 X lb nX fzero; Ok (flt_part nX v)
      | (B | I1 | I2 | I4 | I8), Floats _ | (F4 | F8), Ints _ => Ub
      | _, _ => Err
      end
  | Some nn_X =>
      match t, X with
      | I1, Ints X => int_parts (nn_f_to_s_sum_I1 X nn_X lb nX 0 0)
      | I2, Ints X => int_parts (nn_f_to_s_sum_I2 X nn_X lb nX 0 0)
      | I4, Ints X => int_parts (nn_f_to_s_sum_I4 X nn_X lb nX 0 0)
      | I8, Ints X => int_parts (nn_f_to_s_sum_I8 X nn_X lb nX 0 0)
      | F4, Floats X => flt_parts (nn_f_to_s_sum_F4 X nn_X lb nX 0 fzero)
      | F8, Floats X => flt_parts (nn_f_to_s_sum_F8 X nn_X lb nX 0 fzero)
      | (I1 | I2 | I4 | I8), Floats _ | (F4 | F8), Ints _ => Ub
      | _, _ => Err
      end
  end.

(** The value and the number of defined rows. *)
Inductive value := Int (v : Z) | Flt (v : float).

(** [if ( nn_cnt[i] > 0 ) { cum_nn_cnt += nn_cnt[i]; if ( part_rslt[i] < minval ) ... }] *)
Definition combine_step {A} (better : A -> A -> bool) (get : part -> A) (s : A * Z) (p : part) : A * Z :=
  if 0 <? nn_cnt p then (if better (get p) (fst s) then get p else fst s, snd s + nn_cnt p) else s.
Definition combine_parts {A} (better : A -> A -> bool) (get : part -> A) (v0 : A) (ps : list part) : A * Z :=
  foldl (combine_step better get) (v0, 0) ps.

Definition int_rslt (r : Z * Z) : value * Z := (Int (fst r), snd r).
Definition flt_rslt (r : float * Z) : value * Z := (Flt (fst r), snd r).

Definition combine_min (t : FLD_TYPE) (ps : list part) : res (value * Z) :=
  match t with
  | I1 | I2 | I4 | I8 => Ok (int_rslt (combine_parts Z.ltb ival LLONG_MAX ps))
  | F4 => Ok (flt_rslt (combine_parts flt_lt (fun p => widen (fval p)) DBL_MAX ps))
  | F8 => Ok (flt_rslt (combine_parts flt_lt fval DBL_MAX ps))
  | _ => Err
  end.
Definition combine_max (t : FLD_TYPE) (ps : list part) : res (value * Z) :=
  match t with
  | I1 | I2 | I4 | I8 => Ok (int_rslt (combine_parts Z.gtb ival LLONG_MIN ps))
  | F4 => Ok (flt_rslt (combine_parts flt_gt (fun p => widen (fval p)) DBL_MIN ps))
  | F8 => Ok (flt_rslt (combine_parts flt_gt fval DBL_MIN ps))
  | _ => Err
  end.
Definition combine_sum (t : FLD_TYPE) (ps : list part) : res (value * Z) :=
  let nT := zlen ps in
  cum_nn_cnt ← f_to_s_sum_I8 (nn_cnt <$> ps) 0 nT 0;
  match t with
  | B | I1 | I2 | I4 | I8 => ll_sum ← f_to_s_sum_I8 (ival <$> ps) 0 nT 0; Ok (Int ll_sum, cum_nn_cnt)
  | F4 | F8 => dd_sum ← f_to_s_sum_F8 (fval <$> ps) 0 nT fzero; Ok (Flt dd_sum, cum_nn_cnt)
  | _ => Err
  end.

(** The bounds of block [tid]. *)
Definition chunk (in_lb in_ub block_size nT tid : Z) : Z * Z :=
  let lb := in_lb + tid * block_size in
  (lb, if tid =? nT - 1 then in_ub else lb + block_size).

(** The loop over the blocks: [part_of] runs the kernel on one. *)
Definition run_blocks (in_lb in_ub block_size nT : Z) (part_of : Z -> Z -> res part) : res (list part) :=
  for_map (fun tid =>
    let '(lb, ub) := chunk in_lb in_ub block_size nT tid in
    _ ← go_BYE_if (ub <=? lb);
    part_of lb ub) 0 (Z.to_nat nT).

Definition par_f_to_s (g_num_cores : Z) (X : column) (t : FLD_TYPE) (nn_X : option (list Z))
    (in_lb in_ub : Z) (op : string) : res (value * Z) :=
  _ ← go_BYE_if (negb (Z.quot in_lb 1024 * 1024 =? in_lb));
  '(block_size, nT) ← partition (in_ub - in_lb) 1024 (g_num_cores * g_num_cores);
  let run := run_blocks in_lb in_ub block_size nT in
  if strcmp_eq op "min" then
    ps ← run (fun lb ub => part_min t X nn_X lb (ub - lb)); combine_min t ps
  else if strcmp_eq op "max" then
    ps ← run (fun lb ub => part_max t X nn_X lb (ub - lb)); combine_max t ps
  else if strcmp_eq op "sum" then
    ps ← run (fun lb ub => part_sum t X nn_X lb ub); combine_sum t ps
  else Err.

Example par_min_ex : par_f_to_s 2 (Ints ((fun i => (i * 37) mod 4001) <$> seqZ 1 4000)) I4 None 0 4000 "min" = Ok (Int 1, 4000).
Proof. vm_compute. reflexivity. Qed.

Example par_sum_nn_ex : par_f_to_s 1 (Ints [5; -7; 9]) I8 (Some [1; 0; 1]) 0 3 "sum" = Ok (Int 14, 2).
Proof. vm_compute. reflexivity. Qed.

(** The maximum of negative numbers is the least positive one. *)
Example par_max_neg_ex :
  par_f_to_s 1 (Floats [S754_finite true 4503599627370496 (-52)]) F8 None 0 1 "max" = Ok (Flt DBL_MIN, 1).
Proof. vm_compute. reflexivity. Qed.

(** A one in row 1532 of 3000 is counted twice, in both blocks of 1500 rows. *)
Example par_sum_B_ex :
  par_f_to_s 2 (Ints (zset (replicate 375 0) 191 16)) B None 0 3000 "sum" = Ok (Int 2, 3000).
Proof. vm_compute. reflexivity. Qed.

(** ** Extreme values

    [op] is [Z.min] or [Z.max]; [better x r] says that [x] is the one of the
    two. *)
Class Extreme (better : Z -> Z -> bool) (op : Z -> Z -> Z) : Prop := {
  extreme_comm x y : op x y = op y x;
  extreme_assoc x y z : op x (op y z) = op (op x y) z;
  extreme_idem x : op x x = x;
  extreme_better x r : op r x = if better x r then x else r
}.

#[export] Instance extreme_min : Extreme Z.ltb Z.min.
Proof.
  split; intros; try lia. destruct (Z.ltb_spec x r); lia.
Qed.
#[export] Instance extreme_max : Extreme Z.gtb Z.max.
Proof.
  split; intros; try lia. rewrite Z.gtb_ltb. destruct (Z.ltb_spec r x); lia.
Qed.

Section extreme.
Context {better : Z -> Z -> bool} {op : Z -> Z -> Z} `{Hex : !Extreme better op}.

(** [m] is the least (greatest) element of [l]. *)
Definition is_extreme (l : list Z) (m : Z) : Prop := m ∈ l /\ forall x, x ∈ l -> op m x = m.

Lemma op_comm x y : op x y = op y x.
Proof. apply (@extreme_comm _ _ Hex). Qed.
Lemma op_assoc x y z : op x (op y z) = op (op x y) z.
Proof. apply (@extreme_assoc _ _ Hex). Qed.
Lemma op_idem x : op x x = x.
Proof. apply (@extreme_idem _ _ Hex). Qed.
Lemma op_better x r : op r x = if better x r then x else r.
Proof. apply (@extreme_better _ _ Hex). Qed.

Lemma op_cases a b : op a b = a \/ op a b = b.
Proof. rewrite op_better. destruct (better b a); auto. Qed.

Lemma foldl_acc l : forall e, op (foldl op e l) e = foldl op e l.
Proof.
  induction l as [|y l IH]; intros e; [apply op_idem|]. simpl.
  rewrite <- (IH (op e y)), <- (op_assoc _ (op e y) e).
  by rewrite (op_comm e y), <- (op_assoc y e e), (op_idem e).
Qed.

Lemma foldl_absorbs l : forall e x, x ∈ l -> op (foldl op e l) x = foldl op e l.
Proof.
  induction l as [|y l IH]; intros e x Hx; [by apply not_elem_of_nil in Hx|].
  apply elem_of_cons in Hx as [->|Hx]; [|by apply IH]. simpl.
  rewrite <- (foldl_acc l (op e y)), <- (op_assoc _ (op e y) y).
  by rewrite <- (op_assoc e y y), (op_idem y).
Qed.

Lemma foldl_elem l : forall e, foldl op e l = e \/ foldl op e l ∈ l.
Proof.
  induction l as [|y l IH]; intros e; [by left|]. simpl. rewrite elem_of_cons.
  destruct (IH (op e y)) as [E|]; [|by auto]. rewrite E.
  destruct (op_cases e y); auto.
Qed.

(** The fold from a neutral element. *)
Lemma foldl_extreme l e : l <> [] -> (forall x, x ∈ l -> op e x = x) -> is_extreme l (foldl op e l).
Proof.
  intros Hne He. split; [|by apply foldl_absorbs].
  destruct (foldl_elem l e) as [E|]; [|done]. destruct l as [|y l]; [done|].
  pose proof (foldl_absorbs (y :: l) e y ltac:(left)) as Ha. rewrite E, He in Ha by left.
  rewrite E, <- Ha. left.
Qed.

(** The extreme value of a concatenation from those of the parts. *)
Lemma is_extreme_concat ls ms m :
  Forall2 is_extreme ls ms -> is_extreme ms m -> is_extreme (concat ls) m.
Proof.
  intros Hf [Hin Hm]. split.
  - clear Hm. induction Hf as [|l m' ls ms [Hl _] Hf IH]; [by apply not_elem_of_nil in Hin|].
    simpl. rewrite elem_of_app. apply elem_of_cons in Hin as [->|Hin]; auto.
  - intros x Hx. assert (exists m', m' ∈ ms /\ op m' x = m') as (m' & Hm' & E).
    { clear Hin Hm. induction Hf as [|l m' ls ms [_ Hl] Hf IH]; [by apply not_elem_of_nil in Hx|].
      simpl in Hx. apply elem_of_app in Hx as [Hx|Hx]; [exists m'; split; [left|by apply Hl]|].
      destruct (IH Hx) as (m'' & ? & ?). exists m''. split; [by right|done]. }
    rewrite <- (Hm m' Hm'), <- (op_assoc m m' x). by rewrite E.
Qed.

Lemma f_to_s_loop_ok l : forall X i r,
  (forall k : nat, (k < length l)%nat -> X !z (i + Z.of_nat k) = l !! k) ->
  f_to_s_loop better (length l) X i r = Ok (foldl op r l).
Proof.
  induction l as [|x l IH]; intros X i r Hl; [done|]. simpl.
  pose proof (Hl 0%nat ltac:(simpl; lia)) as H0. rewrite Z.add_0_r in H0.
  rewrite (proj2 (rd_Ok _ _ _) H0). simpl. rewrite <- op_better. apply IH.
  intros k Hk. specialize (Hl (S k) ltac:(simpl; lia)). simpl in Hl. rewrite <- Hl. f_equal. lia.
Qed.
End extreme.

(** ** Slices and blocks *)

(** Elements [lb] to [ub - 1]. *)
Definition slice {A} (X : list A) (lb ub : Z) : list A := take (Z.to_nat (ub - lb)) (drop (Z.to_nat lb) X).

Section slices.
Context {A : Type}.
Implicit Types X : list A.

Lemma slice_length X lb ub : 0 <= lb <= ub -> ub <= zlen X -> zlen (slice X lb ub) = ub - lb.
Proof. intros. unfold slice, zlen in *. rewrite length_take, length_drop. lia. Qed.

Lemma slice_app X a b c : 0 <= a <= b -> b <= c -> slice X a b ++ slice X b c = slice X a c.
Proof.
  intros Hab Hbc. unfold slice.
  replace (Z.to_nat b) with (Z.to_nat a + Z.to_nat (b - a))%nat by lia. rewrite <- drop_drop.
  rewrite take_take_drop. f_equal. lia.
Qed.

Lemma slice_all X : slice X 0 (zlen X) = X.
Proof. unfold slice. rewrite drop_0, firstn_all2; [done|]. unfold zlen. lia. Qed.

Lemma slice_split X lb ub :
  0 <= lb <= ub -> ub <= zlen X -> exists a c, X = a ++ slice X lb ub ++ c.
Proof.
  intros. exists (slice X 0 lb), (slice X ub (zlen X)). rewrite !slice_app by lia. by rewrite slice_all.
Qed.

Lemma slice_sub X lb ub x : x ∈ slice X lb ub -> x ∈ X.
Proof.
  unfold slice. intros [k Hk]%list_elem_of_lookup. apply lookup_take_Some in Hk as [Hk _].
  rewrite lookup_drop in Hk. by apply list_elem_of_lookup_2 in Hk.
Qed.

Lemma slice_lookup X lb ub k :
  0 <= lb -> (k < Z.to_nat (ub - lb))%nat -> X !z (lb + Z.of_nat k) = slice X lb ub !! k.
Proof.
  intros Hlb Hk. unfold slice. rewrite lookup_take_lt, lookup_drop by done.
  rewrite zlookup_to_nat by lia. f_equal. lia.
Qed.

(** The blocks cut the rows. *)
Definition block X (bs nT tid : Z) : list A :=
  let '(lb, ub) := chunk 0 (zlen X) bs nT tid in slice X lb ub.

Lemma blocks_from X bs nT m :
  0 < bs -> 0 < nT -> bs * nT <= zlen X -> 0 <= m < nT ->
  concat (block X bs nT <$> seqZ (nT - 1 - m) (m + 1)) = slice X ((nT - 1 - m) * bs) (zlen X).
Proof.
  intros Hbs HnT Hle Hm. assert (m < nT) as Hlt by lia. revert Hlt.
  pattern m. apply natlike_ind; [| |lia]; clear m Hm.
  - intros _. rewrite seqZ_cons by lia. rewrite fmap_cons. cbn [concat]. rewrite app_nil_r.
    unfold block, chunk. by rewrite Z.sub_0_r, Z.eqb_refl, Z.add_0_l.
  - intros m Hm0 IH Hlt. rewrite seqZ_cons, fmap_cons by lia. cbn [concat].
    replace (Z.succ (nT - 1 - Z.succ m)) with (nT - 1 - m) by lia.
    replace (Z.pred (Z.succ m + 1)) with (m + 1) by lia. rewrite IH by lia.
    unfold block, chunk. destruct (Z.eqb_spec (nT - 1 - Z.succ m) (nT - 1)); [lia|].
    replace ((nT - 1 - m) * bs) with (0 + (nT - 1 - Z.succ m) * bs + bs) by lia.
    rewrite Z.add_0_l. apply slice_app; nia.
Qed.

Lemma blocks_concat X bs nT :
  0 < bs -> 0 < nT -> bs * nT <= zlen X -> concat (block X bs nT <$> seqZ 0 nT) = X.
Proof.
  intros Hbs HnT Hle. pose proof (blocks_from X bs nT (nT - 1) Hbs HnT Hle ltac:(lia)) as Hm.
  replace (nT - 1 - (nT - 1)) with 0 in Hm by lia. replace (nT - 1 + 1) with nT in Hm by lia.
  rewrite Hm. apply slice_all.
Qed.

Lemma chunk_bounds n bs nT tid lb ub :
  0 < bs -> 0 <= n - bs * nT < bs -> 0 <= tid < nT -> chunk 0 n bs nT tid = (lb, ub) ->
  0 <= lb /\ lb < ub /\ ub <= n.
Proof. intros Hbs Hn Ht. unfold chunk. intros [= <- <-]. destruct (Z.eqb_spec tid (nT - 1)); nia. Qed.
End slices.

(** Every block succeeds. *)
Lemma run_chunks_ok n bs nT part_of p :
  0 < bs -> 0 <= n - bs * nT < bs -> 0 < nT ->
  (forall tid lb ub, 0 <= tid < nT -> chunk 0 n bs nT tid = (lb, ub) -> part_of lb ub = Ok (p lb ub)) ->
  run_blocks 0 n bs nT part_of
  = Ok ((fun tid => let '(lb, ub) := chunk 0 n bs nT tid in p lb ub) <$> seqZ 0 nT).
Proof.
  intros Hbs Hn HnT Hp. unfold run_blocks.
  rewrite (for_map_spec _ (fun tid => let '(lb, ub) := chunk 0 n bs nT tid in p lb ub)).
  - by rewrite Z2Nat.id by lia.
  - intros tid Ht. destruct (chunk 0 n bs nT tid) as [lb ub] eqn:E.
    destruct (chunk_bounds n bs nT tid lb ub Hbs Hn ltac:(lia) E) as (? & ? & ?).
    rewrite (proj2 (Z.leb_gt _ _)) by done. apply (Hp tid); [lia|done].
Qed.

Lemma run_blocks_ok n bs nT part_of p :
  0 < bs -> 0 <= n - bs * nT < bs -> 0 < nT ->
  (forall lb ub, 0 <= lb -> lb < ub -> ub <= n -> part_of lb ub = Ok (p lb ub)) ->
  run_blocks 0 n bs nT part_of
  = Ok ((fun tid => let '(lb, ub) := chunk 0 n bs nT tid in p lb ub) <$> seqZ 0 nT).
Proof.
  intros Hbs Hn HnT Hp. apply run_chunks_ok; try done. intros tid lb ub Ht E.
  destruct (chunk_bounds n bs nT tid lb ub Hbs Hn Ht E) as (? & ? & ?). by apply Hp.
Qed.

(** The width of the integer types. *)
Definition int_bits (t : FLD_TYPE) : option Z :=
  match t with I1 => Some 8 | I2 => Some 16 | I4 => Some 32 | I8 => Some 64 | _ => None end.

Lemma f_to_s_ok `{!Extreme better op} X lb ub r :
  0 <= lb <= ub -> ub <= zlen X -> f_to_s better X lb (ub - lb) r = Ok (foldl op r (slice X lb ub)).
Proof.
  intros Hlb Hub. unfold f_to_s. pose proof (slice_length X lb ub Hlb Hub) as Hl.
  replace (Z.to_nat (ub - lb)) with (length (slice X lb ub)) by (unfold zlen in Hl; lia).
  apply f_to_s_loop_ok. intros k Hk. apply slice_lookup; [lia|unfold zlen in Hl; lia].
Qed.

Lemma part_min_ok t w X lb ub :
  int_bits t = Some w -> 0 <= lb -> lb < ub -> ub <= zlen X ->
  part_min t (Ints X) None lb (ub - lb)
  = Ok (int_part (ub - lb) (foldl Z.min (2 ^ (w - 1) - 1) (slice X lb ub))).
Proof.
  intros Ht ???. destruct t; try discriminate Ht; injection Ht as <-; cbn [part_min];
    unfold f_to_s_min_I1, f_to_s_min_I2, f_to_s_min_I4, f_to_s_min_I8; by rewrite f_to_s_ok by lia.
Qed.

Lemma part_max_ok t w X lb ub :
  int_bits t = Some w -> 0 <= lb -> lb < ub -> ub <= zlen X ->
  part_max t (Ints X) None lb (ub - lb)
  = Ok (int_part (ub - lb) (foldl Z.max (- 2 ^ (w - 1)) (slice X lb ub))).
Proof.
  intros Ht ???. destruct t; try discriminate Ht; injection Ht as <-; cbn [part_max];
    unfold f_to_s_max_I1, f_to_s_max_I2, f_to_s_max_I4, f_to_s_max_I8; by rewrite f_to_s_ok by lia.
Qed.

(** The sum of a list. *)
Definition sum (l : list Z) : Z := foldr Z.add 0 l.

Lemma sum_app l1 l2 : sum (l1 ++ l2) = sum l1 + sum l2.
Proof. induction l1 as [|x l1 IH]; simpl; lia. Qed.

Lemma sum_concat ls : sum (sum <$> ls) = sum (concat ls).
Proof. induction ls as [|l ls IH]; [done|]. cbn [concat]. rewrite fmap_cons, sum_app, <- IH. done. Qed.

Lemma sum_zlen_concat {A} (ls : list (list A)) : sum (zlen <$> ls) = zlen (concat ls).
Proof. induction ls as [|l ls IH]; [done|]. cbn [concat]. rewrite fmap_cons, zlen_app, <- IH. done. Qed.

Lemma combine_ok `{!Extreme better op} v0 ps : forall c,
  Forall (fun p => 0 < nn_cnt p) ps ->
  foldl (combine_step better ival) (v0, c) ps = (foldl op v0 (ival <$> ps), c + sum (nn_cnt <$> ps)).
Proof.
  revert v0. induction ps as [|p ps IH]; intros v0 c Hps; [by rewrite Z.add_0_r|].
  apply Forall_cons in Hps as [Hp Hps]. rewrite !fmap_cons. cbn [foldl].
  unfold combine_step at 2. rewrite (proj2 (Z.ltb_lt _ _)) by done. cbn [fst snd].
  rewrite IH by done. rewrite (@op_better _ _ Extreme0). f_equal. unfold sum. cbn [foldr]. lia.
Qed.

Lemma par_extreme `{!Extreme better op} X bs nT e v0 part_of :
  0 < bs -> 0 <= zlen X - bs * nT < bs -> 0 < nT ->
  (forall x, x ∈ X -> op e x = x /\ op v0 x = x) ->
  (forall lb ub, 0 <= lb -> lb < ub -> ub <= zlen X ->
     part_of lb ub = Ok (int_part (ub - lb) (foldl op e (slice X lb ub)))) ->
  exists ps m, run_blocks 0 (zlen X) bs nT part_of = Ok ps /\
    combine_parts better ival v0 ps = (m, zlen X) /\ is_extreme (op:=op) X m.
Proof.
  intros Hbs Hn HnT He Hp. eexists _, _. split; [by apply (run_blocks_ok _ _ _ _ _ Hbs Hn HnT Hp)|].
  set (bl := block X bs nT <$> seqZ 0 nT). set (ps := _ <$> seqZ 0 nT).
  assert (ival <$> ps = foldl op e <$> bl) as Ev.
  { unfold ps, bl. rewrite <- !list_fmap_compose. apply list_fmap_ext. intros i tid _. done. }
  assert (forall tid, tid ∈ seqZ 0 nT -> exists lb ub, chunk 0 (zlen X) bs nT tid = (lb, ub) /\
    zlen (block X bs nT tid) = ub - lb /\ lb < ub) as Hb.
  { intros tid Ht%elem_of_seqZ. destruct (chunk 0 (zlen X) bs nT tid) as [lb ub] eqn:E.
    destruct (chunk_bounds _ bs nT tid lb ub Hbs Hn ltac:(lia) E) as (? & ? & ?).
    exists lb, ub. split_and!; [done| |done]. unfold block. rewrite E. apply slice_length; lia. }
  assert (nn_cnt <$> ps = zlen <$> bl) as Ec.
  { unfold ps, bl. rewrite <- !list_fmap_compose. apply list_fmap_ext. intros i tid Ht.
    apply list_elem_of_lookup_2 in Ht. destruct (Hb tid Ht) as (lb & ub & E & El & _).
    unfold compose. by rewrite E, El. }
  assert (concat bl = X) as Ebl by (apply blocks_concat; lia).
  unfold combine_parts. rewrite (combine_ok (op:=op)).
  - rewrite Ec, Ev, sum_zlen_concat, Ebl, Z.add_0_l. split; [done|]. rewrite <- Ebl at 1.
    assert (Forall (fun l => l <> [] /\ forall x, x ∈ l -> x ∈ X) bl) as Hbl.
    { apply Forall_forall. intros l (tid & -> & Ht)%list_elem_of_fmap.
      destruct (Hb tid Ht) as (lb & ub & E & El & Hlt). split.
      - intros Hnil. rewrite Hnil in El. change (zlen []) with 0 in El. lia.
      - unfold block. rewrite E. apply slice_sub. }
    apply (is_extreme_concat (better:=better) bl (foldl op e <$> bl)).
    + apply Forall2_fmap_r, Forall_Forall2_diag. eapply Forall_impl; [exact Hbl|].
      intros l [Hne Hl]. apply (foldl_extreme (better:=better)); [done|]. intros x Hx. by apply He, Hl.
    + apply (foldl_extreme (better:=better)).
      * unfold bl. rewrite seqZ_cons by lia. done.
      * intros m (l & -> & Hl)%list_elem_of_fmap. rewrite Forall_forall in Hbl.
        destruct (Hbl l Hl) as [Hne Hsub]. apply He, Hsub.
        apply (foldl_extreme (better:=better)); [done|]. intros x Hx. by apply He, Hsub.
  - unfold ps. apply Forall_fmap, Forall_forall. intros tid Ht.
    destruct (Hb tid Ht) as (lb & ub & E & _ & Hlt). unfold compose. rewrite E. cbn [nn_cnt int_part]. lia.
Qed.

(** Claim C32. The least and the greatest value of an integer field without
    nulls: whatever the number of cores, and so the blocks, [par_f_to_s]
    answers an element of the field that no other is below (above), and the
    number of rows. *)
Theorem par_f_to_s_extreme (cores : Z) (t : FLD_TYPE) (w : Z) (X : list Z) bs nT :
  int_bits t = Some w -> Forall (inS w) X -> zlen X < 2 ^ 40 ->
  partition (zlen X) 1024 (cores * cores) = Ok (bs, nT) ->
  (exists m, par_f_to_s cores (Ints X) t None 0 (zlen X) "min" = Ok (Int m, zlen X) /\
     m ∈ X /\ forall x, x ∈ X -> m <= x) /\
  (exists m, par_f_to_s cores (Ints X) t None 0 (zlen X) "max" = Ok (Int m, zlen X) /\
     m ∈ X /\ forall x, x ∈ X -> x <= m).
Proof.
  intros Ht Hw Hlen Hpart. assert (zlen X / 1024 < INT_MAX) as Hq.
  { unfold INT_MAX. apply Z.div_lt_upper_bound; lia. }
  destruct (partition_Ok (zlen X) 1024 (cores * cores) bs nT ltac:(lia) Hq Hpart)
    as (Hn & HnT & _ & Hbs & Hleft & _).
  assert (8 <= w <= 64) as Hw64 by (destruct t; try discriminate Ht; injection Ht as <-; lia).
  pose proof (Z.pow_le_mono_r 2 (w - 1) 63 ltac:(lia) ltac:(lia)) as Hpow.
  rewrite Forall_forall in Hw. unfold par_f_to_s.
  change (go_BYE_if _) with (Ok tt) at 1 2. cbn [mbind res_bind]. rewrite Z.sub_0_r, Hpart.
  cbn [mbind res_bind]. split.
  - change (strcmp_eq "min" "min") with true. cbv iota.
    destruct (par_extreme (better:=Z.ltb) (op:=Z.min) X bs nT (2 ^ (w - 1) - 1) LLONG_MAX
      (fun lb ub => part_min t (Ints X) None lb (ub - lb))) as (ps & m & E & Em & Hin & Hm).
    + lia. + lia. + lia.
    + intros x Hx%Hw. unfold inS, LLONG_MAX in *. lia.
    + intros. by apply part_min_ok.
    + rewrite E. cbn [mbind res_bind]. exists m. split; [|split; [done|intros x Hx%Hm; lia]].
      unfold combine_min. rewrite Em. by destruct t.
  - change (strcmp_eq "max" "min") with false. change (strcmp_eq "max" "max") with true. cbv iota.
    destruct (par_extreme (better:=Z.gtb) (op:=Z.max) X bs nT (- 2 ^ (w - 1)) LLONG_MIN
      (fun lb ub => part_max t (Ints X) None lb (ub - lb))) as (ps & m & E & Em & Hin & Hm).
    + lia. + lia. + lia.
    + intros x Hx%Hw. unfold inS, LLONG_MIN in *. lia.
    + intros. by apply part_max_ok.
    + rewrite E. cbn [mbind res_bind]. exists m. split; [|split; [done|intros x Hx%Hm; lia]].
      unfold combine_max. rewrite Em. by destruct t.
Qed.

(** ** Sums *)

(** The defined values of rows with their flags. *)
Definition sel (l : list (Z * Z)) : list Z := fst <$> filter (fun p => p.2 <> 0) l.
Definition defined (X : list Z) (nn_X : option (list Z)) : list Z :=
  match nn_X with None => X | Some nn_X => sel (zip X nn_X) end.
Definition abs_sum (l : list Z) : Z := sum (Z.abs <$> l).

Lemma sel_cons x b l : sel ((x, b) :: l) = if b =? 0 then sel l else x :: sel l.
Proof.
  unfold sel. rewrite filter_cons. destruct (Z.eqb_spec b 0) as [->|Hb].
  - by rewrite decide_False by (simpl; lia).
  - by rewrite decide_True.
Qed.

Lemma sel_concat ls : concat (sel <$> ls) = sel (concat ls).
Proof.
  induction ls as [|l ls IH]; [done|]. rewrite fmap_cons. cbn [concat]. rewrite IH.
  unfold sel. by rewrite filter_app, fmap_app.
Qed.

Lemma abs_sum_nonneg l : 0 <= abs_sum l.
Proof. unfold abs_sum. induction l as [|x l IH]; [done|]. rewrite fmap_cons. cbn [sum foldr]. unfold sum in IH. lia. Qed.

Lemma abs_sum_cons x l : abs_sum (x :: l) = Z.abs x + abs_sum l.
Proof. done. Qed.

Lemma abs_sum_app l1 l2 : abs_sum (l1 ++ l2) = abs_sum l1 + abs_sum l2.
Proof. unfold abs_sum. by rewrite fmap_app, sum_app. Qed.

Lemma abs_sum_middle a b c : abs_sum b <= abs_sum (a ++ b ++ c).
Proof. rewrite !abs_sum_app. pose proof (abs_sum_nonneg a). pose proof (abs_sum_nonneg c). lia. Qed.

Lemma sum_abs l : Z.abs (sum l) <= abs_sum l.
Proof.
  induction l as [|x l IH]; [done|]. rewrite abs_sum_cons. cbn [sum foldr]. unfold sum in IH. lia.
Qed.

Lemma abs_sum_concat ls : abs_sum (sum <$> ls) <= abs_sum (concat ls).
Proof.
  induction ls as [|l ls IH]; [done|]. rewrite fmap_cons, abs_sum_cons. cbn [concat].
  rewrite abs_sum_app. pose proof (sum_abs l). lia.
Qed.

Lemma sum_loop_ok l : forall X i r,
  (forall k : nat, (k < length l)%nat -> X !z (i + Z.of_nat k) = l !! k) ->
  Z.abs r + abs_sum l < 2 ^ 63 ->
  sum_loop (add_to 64) (length l) X i r = Ok (r + sum l).
Proof.
  induction l as [|x l IH]; intros X i r Hl Hr; [simpl; by rewrite Z.add_0_r|]. cbn [length sum_loop].
  pose proof (Hl 0%nat ltac:(simpl; lia)) as H0. rewrite Z.add_0_r in H0.
  rewrite abs_sum_cons in Hr. pose proof (abs_sum_nonneg l).
  rewrite (proj2 (rd_Ok _ _ _) H0). cbn [mbind res_bind].
  rewrite add_to_Ok by (unfold inS; lia). cbn [mbind res_bind]. rewrite IH.
  - f_equal. unfold sum. cbn [foldr]. lia.
  - intros k Hk. specialize (Hl (S k) ltac:(simpl; lia)). simpl in Hl. rewrite <- Hl. f_equal. lia.
  - lia.
Qed.

Lemma nn_sum_loop_ok l : forall X nn_X i c r,
  (forall k p, l !! k = Some p -> X !z (i + Z.of_nat k) = Some p.1 /\ nn_X !z (i + Z.of_nat k) = Some p.2) ->
  Z.abs r + abs_sum (sel l) < 2 ^ 63 ->
  nn_sum_loop (add_to 64) (length l) X nn_X i c r = Ok (c + zlen (sel l), r + sum (sel l)).
Proof.
  induction l as [|[x b] l IH]; intros X nn_X i c r Hl Hr.
  { simpl. unfold sel. simpl. by rewrite !Z.add_0_r. }
  cbn [length nn_sum_loop]. rewrite sel_cons in *.
  destruct (Hl 0%nat (x, b) eq_refl) as [H1 H2]. rewrite Z.add_0_r in H1, H2. simpl in H1, H2.
  assert (forall k p, l !! k = Some p ->
    X !z (i + 1 + Z.of_nat k) = Some p.1 /\ nn_X !z (i + 1 + Z.of_nat k) = Some p.2) as Hl'.
  { intros k p Hk. destruct (Hl (S k) p Hk) as [<- <-]. split; f_equal; lia. }
  rewrite (proj2 (rd_Ok _ _ _) H2). cbn [mbind res_bind]. destruct (b =? 0); [by apply IH|].
  rewrite abs_sum_cons in Hr. pose proof (abs_sum_nonneg (sel l)).
  rewrite (proj2 (rd_Ok _ _ _) H1). cbn [mbind res_bind fst].
  rewrite add_to_Ok by (unfold inS; lia). cbn [mbind res_bind]. rewrite IH by (done || lia).
  rewrite zlen_cons. do 2 f_equal; [lia|]. unfold sum. cbn [foldr]. lia.
Qed.

Lemma slice_zip (X nn_X : list Z) lb ub : slice (zip X nn_X) lb ub = zip (slice X lb ub) (slice nn_X lb ub).
Proof. unfold slice. by rewrite zip_with_drop, zip_with_take. Qed.

(** What the kernel of a block yields: the number of defined values and their
    sum. *)
Lemma part_sum_ok t w X nn_X lb ub :
  int_bits t = Some w -> 0 <= lb -> lb < ub -> ub <= zlen X ->
  match nn_X with None => True | Some nn_X => zlen nn_X = zlen X end ->
  let D := match nn_X with None => slice X lb ub | Some nn_X => sel (slice (zip X nn_X) lb ub) end in
  abs_sum D < 2 ^ 63 -> part_sum t (Ints X) nn_X lb ub = Ok (int_part (zlen D) (sum D)).
Proof.
  intros Ht ??? Hnn D HD.
  assert (match nn_X with
    | None => f_to_s_sum (add_to 64) X lb (ub - lb) 0 = Ok (sum D) /\ ub - lb = zlen D
    | Some nn_X => nn_f_to_s_sum (add_to 64) X nn_X lb (ub - lb) 0 0 = Ok (zlen D, sum D)
    end) as E.
  { subst D. destruct nn_X as [nn_X|].
    - assert (zlen (zip X nn_X) = zlen X) as Hz by (unfold zlen in *; rewrite length_zip; lia).
      pose proof (slice_length (zip X nn_X) lb ub ltac:(lia) ltac:(lia)) as Hl.
      unfold nn_f_to_s_sum. replace (Z.to_nat (ub - lb)) with (length (slice (zip X nn_X) lb ub))
        by (unfold zlen in Hl; lia).
      rewrite nn_sum_loop_ok; [done| |lia]. intros k p Hk.
      assert (k < Z.to_nat (ub - lb))%nat as Hlt
        by (apply lookup_lt_Some in Hk; unfold zlen in Hl; lia).
      rewrite (slice_lookup X lb ub), (slice_lookup nn_X lb ub) by lia. rewrite slice_zip in Hk. destruct p as [x b].
      apply lookup_zip_Some in Hk as [-> ->]. done.
    - pose proof (slice_length X lb ub ltac:(lia) ltac:(lia)) as Hl. split; [|done].
      unfold f_to_s_sum. replace (Z.to_nat (ub - lb)) with (length (slice X lb ub))
        by (unfold zlen in Hl; lia).
      rewrite sum_loop_ok; [done| |lia]. intros k Hk. apply slice_lookup; [lia|unfold zlen in Hl; lia]. }
  destruct nn_X as [nn_X|].
  - destruct t; try discriminate Ht; cbn [part_sum];
      unfold nn_f_to_s_sum_I1, nn_f_to_s_sum_I2, nn_f_to_s_sum_I4, nn_f_to_s_sum_I8; by rewrite E.
  - destruct E as [E El]. rewrite <- El.
    destruct t; try discriminate Ht; cbn [part_sum];
      unfold f_to_s_sum_I1, f_to_s_sum_I2, f_to_s_sum_I4, f_to_s_sum_I8; by rewrite E.
Qed.

(** The partial results of a list of lists. *)
Lemma combine_sum_ok t Ds :
  t = B \/ int_bits t <> None -> abs_sum (concat Ds) < 2 ^ 63 -> zlen (concat Ds) < 2 ^ 63 ->
  combine_sum t ((fun D => int_part (zlen D) (sum D)) <$> Ds)
  = Ok (Int (sum (concat Ds)), zlen (concat Ds)).
Proof.
  intros Ht Ha Hl. set (ps := _ <$> Ds).
  assert (forall l, length l = length ps -> abs_sum l < 2 ^ 63 ->
    f_to_s_sum_I8 l 0 (zlen ps) 0 = Ok (sum l)) as Hs.
  { intros l El Hl'. unfold f_to_s_sum_I8, f_to_s_sum. rewrite to_nat_zlen, <- El.
    rewrite sum_loop_ok; [done| |lia]. intros k _. by rewrite Z.add_0_l, zlookup_nat. }
  assert (nn_cnt <$> ps = zlen <$> Ds) as Ec by (unfold ps; by rewrite <- list_fmap_compose).
  assert (ival <$> ps = sum <$> Ds) as Ei by (unfold ps; by rewrite <- list_fmap_compose).
  pose proof (abs_sum_concat Ds).
  assert (abs_sum (zlen <$> Ds) = zlen (concat Ds)) as Eabs.
  { rewrite <- sum_zlen_concat. unfold abs_sum. rewrite <- list_fmap_compose. f_equal.
    apply list_fmap_ext. intros _ D _. unfold compose, zlen. lia. }
  unfold combine_sum. rewrite Ec, (Hs (zlen <$> Ds)) by (rewrite ?Eabs; (lia || by (unfold ps; rewrite !length_fmap))).
  cbn [mbind res_bind]. rewrite Ei, (Hs (sum <$> Ds)) by (lia || by (unfold ps; rewrite !length_fmap)).
  rewrite sum_zlen_concat, sum_concat. destruct t, Ht as [Ht|Ht]; done.
Qed.

Lemma defined_blocks X nn_X bs nT :
  0 < bs -> 0 < nT -> bs * nT <= zlen X ->
  match nn_X with None => True | Some nn_X => zlen nn_X = zlen X end ->
  concat ((fun tid => let '(lb, ub) := chunk 0 (zlen X) bs nT tid in
    match nn_X with None => slice X lb ub | Some nn_X => sel (slice (zip X nn_X) lb ub) end) <$> seqZ 0 nT)
  = defined X nn_X.
Proof.
  intros Hbs HnT Hle Hnn. destruct nn_X as [nn_X|]; [|by apply blocks_concat].
  assert (zlen (zip X nn_X) = zlen X) as Hz by (unfold zlen in *; rewrite length_zip; lia).
  cbn [defined]. transitivity (sel (concat (block (zip X nn_X) bs nT <$> seqZ 0 nT)));
    [|by rewrite blocks_concat by lia].
  rewrite <- sel_concat, <- list_fmap_compose. f_equal. apply list_fmap_ext. intros _ tid _.
  unfold compose, block. rewrite Hz. by destruct (chunk 0 (zlen X) bs nT tid).
Qed.

(** The sum of an integer field, with or without nulls: whatever
    the number of cores, [par_f_to_s] answers the sum of the defined values and
    their number.  Intermediate sums do not overflow when the absolute values
    add up to less than 2^63. *)
Theorem par_f_to_s_sum (cores : Z) (t : FLD_TYPE) (w : Z) (X : list Z) (nn_X : option (list Z)) bs nT :
  int_bits t = Some w -> zlen X < 2 ^ 40 ->
  match nn_X with None => True | Some nn_X => zlen nn_X = zlen X end ->
  abs_sum (defined X nn_X) < 2 ^ 63 ->
  partition (zlen X) 1024 (cores * cores) = Ok (bs, nT) ->
  par_f_to_s cores (Ints X) t nn_X 0 (zlen X) "sum"
  = Ok (Int (sum (defined X nn_X)), zlen (defined X nn_X)).
Proof.
  intros Ht Hlen Hnn Habs Hpart. assert (zlen X / 1024 < INT_MAX) as Hq.
  { unfold INT_MAX. apply Z.div_lt_upper_bound; lia. }
  destruct (partition_Ok (zlen X) 1024 (cores * cores) bs nT ltac:(lia) Hq Hpart)
    as (Hn & HnT & _ & Hbs & Hleft & _).
  unfold par_f_to_s. change (go_BYE_if _) with (Ok tt). cbn [mbind res_bind].
  rewrite Z.sub_0_r, Hpart. cbn [mbind res_bind].
  change (strcmp_eq "sum" "min") with false. change (strcmp_eq "sum" "max") with false.
  change (strcmp_eq "sum" "sum") with true. cbv iota.
  set (D := fun lb ub => match nn_X with None => slice X lb ub | Some nn_X => sel (slice (zip X nn_X) lb ub) end).
  pose proof (defined_blocks X nn_X bs nT ltac:(lia) ltac:(lia) ltac:(lia) Hnn) as Ed.
  set (Ds := _ <$> seqZ 0 nT) in Ed.
  assert (forall lb ub, 0 <= lb -> lb < ub -> ub <= zlen X -> abs_sum (D lb ub) <= abs_sum (defined X nn_X)) as HD.
  { intros lb ub ???. unfold D, defined. destruct nn_X as [nn_X|].
    - assert (zlen (zip X nn_X) = zlen X) as Hz by (unfold zlen in *; rewrite length_zip; lia).
      destruct (slice_split (zip X nn_X) lb ub) as (a & c & E); [lia..|].
      rewrite E at 2. unfold sel. rewrite !filter_app, !fmap_app. apply abs_sum_middle.
    - destruct (slice_split X lb ub) as (a & c & E); [lia..|]. rewrite E at 2. apply abs_sum_middle. }
  rewrite (run_blocks_ok _ _ _ _ (fun lb ub => int_part (zlen (D lb ub)) (sum (D lb ub)))); [|lia..|].
  2: { intros lb ub H1 H2 H3. apply (part_sum_ok t w); try done. specialize (HD lb ub H1 H2 H3).
       unfold D in HD. lia. }
  cbn [mbind res_bind].
  assert ((fun tid => let '(lb, ub) := chunk 0 (zlen X) bs nT tid in
      int_part (zlen (D lb ub)) (sum (D lb ub))) <$> seqZ 0 nT
    = (fun D => int_part (zlen D) (sum D)) <$> Ds) as ->.
  { unfold Ds. rewrite <- list_fmap_compose. apply list_fmap_ext. intros _ tid _. unfold compose.
    by destruct (chunk 0 (zlen X) bs nT tid). }
  rewrite <- Ed in *. apply combine_sum_ok; [right; by rewrite Ht|done|].
  rewrite Ed. unfold defined. destruct nn_X as [nn_X|]; [|lia].
  unfold sel, zlen in *. rewrite length_fmap. pose proof (length_filter (fun p : Z * Z => p.2 <> 0) (zip X nn_X)).
  rewrite length_zip in *. lia.
Qed.

(** ** Extreme values with nulls *)

(** The last value that is better than the first one. *)
Definition last_better (better : Z -> Z -> bool) (r0 : Z) (l : list Z) : Z :=
  foldl (fun r x => if better x r0 then x else r) r0 l.

Lemma nn_f_to_s_loop_ok better r0 l : forall X nn_X i r c,
  (forall k p, l !! k = Some p -> X !z (i + Z.of_nat k) = Some p.1 /\ nn_X !z (i + Z.of_nat k) = Some p.2) ->
  nn_f_to_s_loop better (length l) X nn_X i r0 r c
  = Ok (c + zlen (sel l), foldl (fun r x => if better x r0 then x else r) r (sel l)).
Proof.
  induction l as [|[x b] l IH]; intros X nn_X i r c Hl.
  { simpl. unfold sel. simpl. by rewrite !Z.add_0_r. }
  cbn [length nn_f_to_s_loop]. rewrite sel_cons in *.
  destruct (Hl 0%nat (x, b) eq_refl) as [H1 H2]. rewrite Z.add_0_r in H1, H2. simpl in H1, H2.
  assert (forall k p, l !! k = Some p ->
    X !z (i + 1 + Z.of_nat k) = Some p.1 /\ nn_X !z (i + 1 + Z.of_nat k) = Some p.2) as Hl'.
  { intros k p Hk. destruct (Hl (S k) p Hk) as [<- <-]. split; f_equal; lia. }
  rewrite (proj2 (rd_Ok _ _ _) H2). cbn [mbind res_bind]. destruct (b =? 0); [by apply IH|].
  rewrite (proj2 (rd_Ok _ _ _) H1). cbn [mbind res_bind]. rewrite IH by done.
  rewrite zlen_cons. cbn [foldl]. do 2 f_equal. lia.
Qed.

Lemma nn_f_to_s_ok better X nn_X r0 :
  zlen nn_X = zlen X ->
  nn_f_to_s better X nn_X 0 (zlen X) 0 r0
  = Ok (zlen (defined X (Some nn_X)), last_better better r0 (defined X (Some nn_X))).
Proof.
  intros Hnn. unfold nn_f_to_s. assert (zlen (zip X nn_X) = zlen X) as Hz
    by (unfold zlen in *; rewrite length_zip; lia).
  rewrite <- Hz, to_nat_zlen, nn_f_to_s_loop_ok; [done|]. intros k [x b] Hk.
  rewrite Z.add_0_l, !zlookup_nat. by apply lookup_zip_Some in Hk.
Qed.

Lemma last_better_last better r0 l v : last l = Some v -> better v r0 = true -> last_better better r0 l = v.
Proof.
  intros [l' ->]%last_Some Hb. unfold last_better. rewrite foldl_app. simpl. by rewrite Hb.
Qed.

(** Fewer than 2048 rows are one block. *)
Lemma partition_one n m : 0 < n < 2048 -> 0 <= m -> partition n 1024 m = Ok (n, 1).
Proof.
  intros Hn Hm. unfold partition. rewrite (proj2 (Z.leb_gt n 0)) by lia. cbn [go_BYE_if mbind res_bind].
  change (1024 <=? 0) with false. cbn [go_BYE_if mbind res_bind].
  assert (n / 1024 = 0 \/ n / 1024 = 1) as Hq.
  { pose proof (Z.div_pos n 1024 ltac:(lia) ltac:(lia)).
    pose proof (Z.div_lt_upper_bound n 1024 2 ltac:(lia) ltac:(lia)). lia. }
  assert ((if wrapS 32 (n / 1024) =? 0 then 1 else wrapS 32 (n / 1024)) = 1) as ->
    by (by destruct Hq as [-> | ->]).
  assert ((if (0 <? m) && (m <? 1) then m else 1) = 1) as ->
    by (destruct (Z.ltb_spec 0 m), (Z.ltb_spec m 1); simpl; lia).
  rewrite Z.quot_1_r. replace (n - n * 1) with 0 by lia. rewrite (proj2 (Z.leb_gt n 0)) by lia.
  change (1 =? INT_MAX) with false. cbn [go_BYE_if mbind res_bind].
  by rewrite (proj2 (Z.ltb_ge _ _)) by lia.
Qed.

(** One block. *)
Lemma run_blocks_one n part_of p :
  0 < n -> part_of 0 n = Ok p -> run_blocks 0 n n 1 part_of = Ok [p].
Proof.
  intros Hn Hp. unfold run_blocks. change (Z.to_nat 1) with 1%nat. cbn [for_map].
  change (chunk 0 n n 1 0) with (0, n). cbv iota beta. rewrite (proj2 (Z.leb_gt n 0)) by lia.
  cbn [go_BYE_if mbind res_bind]. by rewrite Hp.
Qed.

(** With nulls the kernels for the least and the greatest value
    compare with the value they started from: of fewer than 2048 rows
    [par_f_to_s] answers the last defined value, for "min" and for "max". *)
Theorem par_f_to_s_nn_last (cores : Z) (t : FLD_TYPE) (w : Z) (X nn_X : list Z) v :
  int_bits t = Some w -> 0 < zlen X < 2048 -> zlen nn_X = zlen X ->
  last (defined X (Some nn_X)) = Some v -> - 2 ^ (w - 1) < v < 2 ^ (w - 1) - 1 ->
  par_f_to_s cores (Ints X) t (Some nn_X) 0 (zlen X) "min" = Ok (Int v, zlen (defined X (Some nn_X))) /\
  par_f_to_s cores (Ints X) t (Some nn_X) 0 (zlen X) "max" = Ok (Int v, zlen (defined X (Some nn_X))).
Proof.
  intros Ht Hlen Hnn Hv Hw.
  assert (8 <= w <= 64) as Hw64 by (destruct t; try discriminate Ht; injection Ht as <-; lia).
  pose proof (Z.pow_le_mono_r 2 (w - 1) 63 ltac:(lia) ltac:(lia)) as Hpow.
  assert (0 < zlen (defined X (Some nn_X))) as Hpos.
  { destruct (defined X (Some nn_X)); [done|]. rewrite zlen_cons. pose proof (zlen_nonneg l). lia. }
  unfold par_f_to_s. change (go_BYE_if _) with (Ok tt) at 1 2. cbn [mbind res_bind].
  rewrite Z.sub_0_r, partition_one by nia. cbn [mbind res_bind]. split.
  - change (strcmp_eq "min" "min") with true. cbv iota.
    rewrite (run_blocks_one _ _ (int_part (zlen (defined X (Some nn_X))) v)); [|lia|].
    + cbn [mbind res_bind]. unfold combine_min, combine_parts, combine_step, int_rslt. cbn [foldl nn_cnt int_part ival].
      rewrite (proj2 (Z.ltb_lt _ _)) by done. cbn [fst snd]. rewrite (proj2 (Z.ltb_lt v _)) by (unfold LLONG_MAX; lia).
      by destruct t.
    + rewrite Z.sub_0_r. pose proof (fun r0 => nn_f_to_s_ok Z.ltb X nn_X r0 Hnn) as E.
      pose proof (fun r0 => last_better_last Z.ltb r0 _ v Hv) as El.
      destruct t; try discriminate Ht; injection Ht as <-; cbn [part_min];
        unfold nn_f_to_s_min_I1, nn_f_to_s_min_I2, nn_f_to_s_min_I4, nn_f_to_s_min_I8; rewrite E;
        rewrite El by (apply Z.ltb_lt; apply Hw); done.
  - change (strcmp_eq "max" "min") with false. change (strcmp_eq "max" "max") with true. cbv iota.
    rewrite (run_blocks_one _ _ (int_part (zlen (defined X (Some nn_X))) v)); [|lia|].
    + cbn [mbind res_bind]. unfold combine_max, combine_parts, combine_step, int_rslt. cbn [foldl nn_cnt int_part ival].
      rewrite (proj2 (Z.ltb_lt _ _)) by done. cbn [fst snd]. rewrite Z.gtb_ltb.
      rewrite (proj2 (Z.ltb_lt _ v)) by (unfold LLONG_MIN; lia). by destruct t.
    + rewrite Z.sub_0_r. pose proof (fun r0 => nn_f_to_s_ok Z.gtb X nn_X r0 Hnn) as E.
      pose proof (fun r0 => last_better_last Z.gtb r0 _ v Hv) as El.
      destruct t; try discriminate Ht; injection Ht as <-; cbn [part_max];
        unfold nn_f_to_s_max_I1, nn_f_to_s_max_I2, nn_f_to_s_max_I4, nn_f_to_s_max_I8; rewrite E;
        rewrite El by (rewrite Z.gtb_ltb; apply Z.ltb_lt; apply Hw); done.
Qed.

(** ** Ones of a bit vector

    Row [i] is bit [i mod 8] of byte [i / 8]. *)
Definition bit (X : list Z) (i : Z) : bool :=
  match X !z (i / 8) with Some c => Z.testbit c (i mod 8) | None => false end.
Definition ones (X : list Z) (lb ub : Z) : Z := sum ((fun i => Z.b2z (bit X i)) <$> seqZ lb (ub - lb)).

Lemma ones_split X a b c : a <= b -> b <= c -> ones X a b + ones X b c = ones X a c.
Proof.
  intros Hab Hbc. unfold ones. rewrite <- sum_app, <- fmap_app.
  replace (c - a) with ((b - a) + (c - b)) by lia. rewrite seqZ_app by lia. do 4 f_equal. lia.
Qed.

Lemma ones_bounds X a b : a <= b -> 0 <= ones X a b <= b - a.
Proof.
  intros Hab. unfold ones. replace (b - a) with (Z.of_nat (Z.to_nat (b - a))) by lia.
  generalize (Z.to_nat (b - a)). intros n. clear Hab b. revert a. induction n as [|n IH]; intros a; [done|].
  rewrite seqZ_cons, fmap_cons by lia. specialize (IH (Z.succ a)).
  replace (Z.pred (Z.of_nat (S n))) with (Z.of_nat n) by lia. cbn [sum foldr]. unfold sum in IH.
  destruct (bit X a); cbn [Z.b2z]; lia.
Qed.

Lemma ones_nil X a : ones X a a = 0.
Proof. unfold ones. by rewrite Z.sub_diag. Qed.

(** The first bits of a byte. *)
Lemma ones_byte X k c (n : nat) :
  0 <= k -> X !z k = Some c -> (n <= 8)%nat -> ones X (8 * k) (8 * k + Z.of_nat n) = popcount n c.
Proof.
  intros Hk Hc. induction n as [|n IH]; intros Hn; [by rewrite Z.add_0_r, ones_nil|].
  rewrite <- (ones_split X _ (8 * k + Z.of_nat n)), IH by lia. cbn [popcount]. f_equal. unfold ones.
  replace (8 * k + Z.of_nat (S n) - (8 * k + Z.of_nat n)) with 1 by lia.
  rewrite seqZ_cons by lia. rewrite fmap_cons. cbn [sum foldr fmap list_fmap seqZ Z.pred Z.to_nat].
  unfold bit. replace ((8 * k + Z.of_nat n) / 8) with k by (apply (Z.div_unique_pos _ _ _ (Z.of_nat n)); lia).
  rewrite Hc. replace ((8 * k + Z.of_nat n) mod 8) with (Z.of_nat n)
    by (apply (Z.mod_unique_pos _ _ k); lia). simpl. lia.
Qed.

(** A property of all bytes, by evaluation. *)
Lemma all_bytes (P : Z -> bool) c : forallb P (seqZ (-128) 256) = true -> inS 8 c -> P c = true.
Proof.
  intros Hall Hc. rewrite forallb_forall in Hall. apply Hall, list_elem_of_In, elem_of_seqZ.
  unfold inS in Hc. lia.
Qed.

Lemma byte_rslt_ok c : inS 8 c -> byte_rslt c = popcount 8 c.
Proof.
  intros Hc. apply Z.eqb_eq. revert c Hc. intros c.
  apply (all_bytes (fun c => byte_rslt c =? popcount 8 c)). vm_compute. reflexivity.
Qed.

(** The checks of [LOCAL_DEBUG] pass. *)
Lemma byte_rslt_debug c : inS 8 c ->
  (8 <? byte_rslt c) || ((c =? 0) && (0 <? byte_rslt c)) || (negb (c =? 0) && (byte_rslt c =? 0)) = false.
Proof.
  intros Hc. apply negb_true_iff. revert Hc.
  apply (all_bytes (fun c => negb ((8 <? byte_rslt c) || ((c =? 0) && (0 <? byte_rslt c))
    || (negb (c =? 0) && (byte_rslt c =? 0))))). vm_compute. reflexivity.
Qed.

Definition mask_R_ok (n : nat) (c : Z) : bool :=
  match mask_byte_R c (Z.of_nat n) with
  | Ok d => (0 <=? d) && (popcount 32 d =? popcount n c)
  | _ => false
  end.

Lemma mask_byte_R_ok c (n : nat) :
  inS 8 c -> (0 < n < 8)%nat ->
  exists d, mask_byte_R c (Z.of_nat n) = Ok d /\ 0 <= d /\ popcount 32 d = popcount n c.
Proof.
  intros Hc Hn. assert (mask_R_ok n c = true) as E.
  { apply (all_bytes (fun c => mask_R_ok n c)); [|done].
    do 8 (destruct n as [|n]; [try lia; vm_compute; reflexivity|]). lia. }
  unfold mask_R_ok in E. destruct (mask_byte_R c (Z.of_nat n)) as [d| | |]; try done.
  apply andb_true_iff in E as [E1%Z.leb_le E2%Z.eqb_eq]. by exists d.
Qed.

Section bits.
Context (X : list Z) (HX : Forall (inS 8) X).

Lemma byte_at p : 0 <= p < zlen X -> exists c, X !z p = Some c /\ inS 8 c /\ ones X (8 * p) (8 * (p + 1)) = popcount 8 c.
Proof.
  intros Hp. destruct (zlookup_is_Some X p Hp) as [c Hc]. exists c. split; [done|]. split.
  - rewrite zlookup_to_nat in Hc by lia. by eapply Forall_lookup_1 in Hc.
  - rewrite <- (ones_byte X p c 8) by (done || lia). f_equal. lia.
Qed.

Lemma bytes_R_ok n : forall p r, 0 <= p -> p + Z.of_nat n <= zlen X ->
  bytes_R n X p r = Ok (r + ones X (8 * p) (8 * (p + Z.of_nat n))).
Proof.
  induction n as [|n IH]; intros p r Hp Hn; [by rewrite Z.add_0_r, ones_nil, Z.add_0_r|].
  cbn [bytes_R]. destruct (byte_at p ltac:(lia)) as (c & Hc & Hin & E).
  rewrite (proj2 (rd_Ok _ _ _) Hc). cbn [mbind res_bind]. rewrite IH, byte_rslt_ok, <- E by (done || lia).
  f_equal. rewrite <- (ones_split X (8 * p) (8 * (p + 1)) (8 * (p + Z.of_nat (S n)))) by lia.
  replace (p + 1 + Z.of_nat n) with (p + Z.of_nat (S n)) by lia. lia.
Qed.

Lemma bytes_L_ok n : forall p r, 0 <= p -> p + Z.of_nat n <= zlen X ->
  bytes_L n X p r = Ok (r + ones X (8 * p) (8 * (p + Z.of_nat n))).
Proof.
  induction n as [|n IH]; intros p r Hp Hn; [by rewrite Z.add_0_r, ones_nil, Z.add_0_r|].
  cbn [bytes_L]. destruct (byte_at p ltac:(lia)) as (c & Hc & Hin & E).
  rewrite (proj2 (rd_Ok _ _ _) Hc). cbn [mbind res_bind]. pose proof (byte_rslt_debug c Hin) as Hd.
  apply orb_false_iff in Hd as [[-> ->]%orb_false_iff ->]. cbn [go_BYE_if mbind res_bind].
  rewrite IH, byte_rslt_ok, <- E by (done || lia).
  f_equal. rewrite <- (ones_split X (8 * p) (8 * (p + 1)) (8 * (p + Z.of_nat (S n)))) by lia.
  replace (p + 1 + Z.of_nat n) with (p + Z.of_nat (S n)) by lia. lia.
Qed.
End bits.

Lemma popcount_S n x : popcount (S n) x = popcount n x + Z.b2z (Z.testbit x (Z.of_nat n)).
Proof. reflexivity. Qed.

(** The bits of [b + 256 * w]. *)
Lemma popcount_low n : forall b w, (n <= 8)%nat -> popcount n (wrapU 8 b + 256 * w) = popcount n b.
Proof.
  induction n as [|n IH]; intros b w Hn; [done|]. cbn [popcount]. rewrite IH by lia. do 2 f_equal.
  rewrite <- (Z.mod_pow2_bits_low (wrapU 8 b + 256 * w) 8) by lia. unfold wrapU.
  change 256 with (2 ^ 8). rewrite (Z.mul_comm _ w), Z.mod_add, Z.mod_mod by done.
  apply Z.mod_pow2_bits_low. lia.
Qed.

Lemma popcount_high m b w : popcount (8 + m) (wrapU 8 b + 256 * w) = popcount 8 b + popcount m w.
Proof.
  induction m as [|m IH]; [rewrite Nat.add_0_r, popcount_low by lia; simpl; lia|].
  rewrite Nat.add_succ_r, (popcount_S (8 + m)), (popcount_S m), IH.
  replace (Z.testbit (wrapU 8 b + 256 * w) (Z.of_nat (8 + m))) with (Z.testbit w (Z.of_nat m)); [lia|].
  rewrite Nat2Z.inj_add, (Z.add_comm (Z.of_nat 8)), <- Z.div_pow2_bits by lia. f_equal.
  unfold wrapU. apply (Z.div_unique_pos _ _ _ (b mod 2 ^ 8)); [apply Z.mod_pos_bound; lia|].
  change (2 ^ Z.of_nat 8) with 256. lia.
Qed.

Section words.
Context (X : list Z) (HX : Forall (inS 8) X).

Lemma word_ok n : forall p, 0 <= p -> p + Z.of_nat n <= zlen X ->
  exists w, word n X p = Ok w /\ popcount (8 * n) w = ones X (8 * p) (8 * (p + Z.of_nat n)).
Proof.
  induction n as [|n IH]; intros p Hp Hn; [exists 0; by rewrite Z.add_0_r, ones_nil|].
  destruct (byte_at X HX p ltac:(lia)) as (c & Hc & Hin & E).
  destruct (IH (p + 1) ltac:(lia) ltac:(lia)) as (w & Hw & Ew). exists (wrapU 8 c + 256 * w). cbn [word].
  rewrite (proj2 (rd_Ok _ _ _) Hc). cbn [mbind res_bind]. rewrite Hw. split; [done|].
  replace (8 * S n)%nat with (8 + 8 * n)%nat by lia. rewrite popcount_high, Ew, <- E.
  replace (p + 1 + Z.of_nat n) with (p + Z.of_nat (S n)) by lia. apply ones_split; lia.
Qed.

Lemma words_ok n : forall p r, 0 <= p -> p + 8 * Z.of_nat n <= zlen X ->
  words n X p r = Ok (r + ones X (8 * p) (8 * (p + 8 * Z.of_nat n))).
Proof.
  induction n as [|n IH]; intros p r Hp Hn; [by rewrite Z.mul_0_r, Z.add_0_r, ones_nil, Z.add_0_r|].
  destruct (word_ok 8 p ltac:(lia) ltac:(lia)) as (w & Hw & Ew). cbn [words]. rewrite Hw.
  cbn [mbind res_bind]. change 64%nat with (8 * 8)%nat. rewrite Ew, IH by lia. f_equal.
  change (Z.of_nat 8) with 8.
  rewrite <- (ones_split X (8 * p) (8 * (p + 8)) (8 * (p + 8 * Z.of_nat (S n)))) by lia.
  replace (p + 8 + 8 * Z.of_nat n) with (p + 8 * Z.of_nat (S n)) by lia. lia.
Qed.
Lemma sum_B_head_ok a b :
  0 <= a <= b -> b <= zlen X -> sum_B_head X (8 * a) (8 * b) = Ok (ones X (8 * a) (8 * b)).
Proof.
  intros Ha Hb. unfold sum_B_head. destruct (Z.ltb_spec (8 * a) (8 * b)).
  - assert (forall c, 0 <= c -> Z.quot (8 * c) 8 = c) as Eq.
    { intros c Hc. rewrite Z.quot_div_nonneg by lia. symmetry.
      apply (Z.div_unique_pos _ _ _ 0); lia. }
    replace (8 * b - 8 * a) with (8 * (b - a)) by lia. cbv zeta. rewrite !Eq by lia.
    rewrite bytes_L_ok by (done || lia). cbn [mbind res_bind].
    replace (8 * (b - a) - (b - a) * 8) with 0 by lia. change (0 <? 0) with false. cbv iota.
    rewrite Z2Nat.id, Z.add_0_l by lia. do 2 f_equal; lia.
  - by replace b with a by lia; rewrite ones_nil.
Qed.

Lemma sum_B_tail_ok a ub r :
  0 <= 8 * a <= ub -> ub <= 8 * zlen X -> sum_B_tail X (8 * a) ub r = Ok (r + ones X (8 * a) ub).
Proof.
  intros Ha Hb. unfold sum_B_tail. destruct (Z.ltb_spec (8 * a) ub).
  - cbv zeta. rewrite !Z.quot_div_nonneg by lia.
    replace (8 * a / 8) with a by (apply (Z.div_unique_pos _ _ _ 0); lia).
    set (q := (ub - 8 * a) / 8). pose proof (Z.div_mod (ub - 8 * a) 8 ltac:(lia)) as Eq. fold q in Eq.
    pose proof (Z.mod_pos_bound (ub - 8 * a) 8 ltac:(lia)). set (m := (ub - 8 * a) mod 8) in *.
    rewrite bytes_R_ok by (done || lia). cbn [mbind res_bind]. rewrite Z2Nat.id by lia.
    replace (ub - 8 * a - q * 8) with m by lia. destruct (Z.ltb_spec 0 m).
    + destruct (byte_at X HX (a + q) ltac:(lia)) as (c & Hc & Hin & _).
      rewrite (proj2 (rd_Ok _ _ _) Hc). cbn [mbind res_bind].
      destruct (mask_byte_R_ok c (Z.to_nat m) Hin ltac:(lia)) as (d & E & Hd & Ed).
      rewrite Z2Nat.id in E by lia. rewrite E. cbn [mbind res_bind].
      rewrite (proj2 (Z.ltb_ge d 0)) by done. cbn [go_BYE_if mbind res_bind]. rewrite Ed.
      rewrite <- (ones_byte X (a + q) c) by (done || lia). rewrite Z2Nat.id by lia.
      f_equal. rewrite <- (ones_split X (8 * a) (8 * (a + q)) ub) by lia.
      replace (8 * (a + q) + m) with ub by lia. lia.
    + by replace (8 * (a + q)) with ub by lia.
  - by replace ub with (8 * a) by lia; rewrite ones_nil, Z.add_0_r.
Qed.

End words.

(** The number of ones of rows [lb] to [ub - 1], when [lb] begins a byte and
    the rows reach the next word boundary. *)
Lemma f_to_s_sum_B_ok X a ub r :
  Forall (inS 8) X -> 0 <= 8 * a <= ub -> ub <= 8 * zlen X ->
  a mod 8 = 0 \/ (a / 8 + 1) * 64 <= ub -> inS 64 (r + ones X (8 * a) ub) ->
  f_to_s_sum_B X (8 * a) ub r = Ok (r + ones X (8 * a) ub).
Proof.
  intros HX Ha Hub Hreach Hr. unfold f_to_s_sum_B. cbv zeta.
  rewrite (Z.quot_div_nonneg (8 * a) 64), (Z.quot_div_nonneg ub 64) by lia.
  pose proof (Z.div_mod a 8 ltac:(lia)). pose proof (Z.mod_pos_bound a 8 ltac:(lia)).
  replace (8 * a / 64) with (a / 8) by (apply (Z.div_unique_pos _ _ _ (8 * (a mod 8))); lia).
  set (e := if a mod 8 =? 0 then a else (a / 8 + 1) * 8).
  assert ((if negb (a / 8 * 64 =? 8 * a) then a / 8 * 64 + 64 else a / 8 * 64) = 8 * e) as ->.
  { unfold e. destruct (Z.eqb_spec (a mod 8) 0), (Z.eqb_spec (a / 8 * 64) (8 * a)); simpl; lia. }
  assert (a <= e /\ e mod 8 = 0 /\ 8 * e <= ub) as (Hae & Hem & Heu).
  { unfold e. destruct (Z.eqb_spec (a mod 8) 0); [lia|]. rewrite Z.mod_mul by lia. lia. }
  pose proof (Z.div_mod ub 64 ltac:(lia)). pose proof (Z.mod_pos_bound ub 64 ltac:(lia)).
  pose proof (Z.div_mod e 8 ltac:(lia)).
  assert (e / 8 <= ub / 64) by (apply Z.div_le_lower_bound; lia).
  clearbody e. rewrite (sum_B_head_ok X HX) by lia. cbn [mbind res_bind].
  rewrite !Z.quot_div_nonneg by lia. replace (8 * e / 8) with e by (apply (Z.div_unique_pos _ _ _ 0); lia).
  replace ((ub / 64 * 64 - 8 * e) / 64) with (ub / 64 - e / 8) by (apply (Z.div_unique_pos _ _ _ 0); lia).
  rewrite (words_ok X HX) by lia. cbn [mbind res_bind]. rewrite Z2Nat.id by lia.
  replace (8 * (e + 8 * (ub / 64 - e / 8))) with (8 * (ub / 64 * 8)) by lia.
  replace (ub / 64 * 64) with (8 * (ub / 64 * 8)) by lia.
  rewrite (sum_B_tail_ok X HX) by lia. cbn [mbind res_bind].
  rewrite !ones_split by lia. by apply add_to_Ok.
Qed.

(** The bits of rows [lb] to [ub - 1]. *)
Definition bits_of (X : list Z) (lb ub : Z) : list Z := (fun i => Z.b2z (bit X i)) <$> seqZ lb (ub - lb).

Lemma bits_of_length X lb ub : lb <= ub -> zlen (bits_of X lb ub) = ub - lb.
Proof. intros. unfold bits_of. rewrite zlen_fmap. unfold zlen. rewrite length_seqZ. lia. Qed.

Lemma slice_bits_of X n lb ub : 0 <= lb <= ub -> ub <= n -> slice (bits_of X 0 n) lb ub = bits_of X lb ub.
Proof.
  intros Hlb Hub. unfold bits_of, slice. rewrite <- fmap_drop, <- fmap_take. f_equal.
  rewrite Z.sub_0_r. replace n with (lb + ((ub - lb) + (n - ub))) by lia.
  rewrite !seqZ_app, Z.add_0_l by lia.
  rewrite drop_app_length' by (rewrite length_seqZ; lia).
  by rewrite take_app_length' by (rewrite length_seqZ; lia).
Qed.

Lemma abs_sum_bits X lb ub : lb <= ub -> abs_sum (bits_of X lb ub) <= ub - lb.
Proof.
  intros Hle. pose proof (ones_bounds X lb ub Hle) as Hb. unfold ones in Hb. fold (bits_of X lb ub) in Hb.
  unfold abs_sum. rewrite (list_fmap_ext _ id); [by rewrite list_fmap_id; lia|].
  intros i x Hx%list_elem_of_lookup_2. unfold bits_of in Hx.
  apply list_elem_of_fmap in Hx as (k & -> & _). by destruct (bit X k).
Qed.

(** The sum of a bit vector is the number of its ones, when there
    is one block or the blocks begin at byte boundaries. *)
Theorem par_f_to_s_sum_B (cores : Z) (X : list Z) (n bs nT : Z) :
  Forall (inS 8) X -> n <= 8 * zlen X -> n < 2 ^ 40 ->
  partition n 1024 (cores * cores) = Ok (bs, nT) -> nT = 1 \/ bs mod 8 = 0 ->
  par_f_to_s cores (Ints X) B None 0 n "sum" = Ok (Int (ones X 0 n), n).
Proof.
  intros HX Hlen Hn40 Hpart Hal. assert (n / 1024 < INT_MAX) as Hq.
  { unfold INT_MAX. apply Z.div_lt_upper_bound; lia. }
  destruct (partition_Ok n 1024 (cores * cores) bs nT ltac:(lia) Hq Hpart)
    as (Hn & HnT & _ & Hbs & Hleft & Hbig).
  unfold par_f_to_s. change (go_BYE_if _) with (Ok tt). cbn [mbind res_bind].
  rewrite Z.sub_0_r, Hpart. cbn [mbind res_bind].
  change (strcmp_eq "sum" "min") with false. change (strcmp_eq "sum" "max") with false.
  change (strcmp_eq "sum" "sum") with true. cbv iota.
  rewrite (run_chunks_ok _ _ _ _ (fun lb ub => int_part (ub - lb) (ones X lb ub))); [|lia|lia|lia|].
  2: { intros tid lb ub Ht E. destruct (chunk_bounds n bs nT tid lb ub ltac:(lia) Hleft Ht E) as (? & ? & ?).
       cbn [part_sum]. pose proof (ones_bounds X lb ub ltac:(lia)).
       assert (exists a, lb = 8 * a /\ (a mod 8 = 0 \/ (a / 8 + 1) * 64 <= ub)) as (a & -> & Hreach).
       { unfold chunk in E. injection E as <- <-. destruct Hal as [->|Hal].
         - exists 0. assert (tid = 0) as -> by lia. split; [lia|by left].
         - pose proof (Z.div_mod bs 8 ltac:(lia)). exists (tid * (bs / 8)). split; [lia|].
           set (a := tid * (bs / 8)). assert (tid * bs = 8 * a) as E by (unfold a; lia).
           pose proof (Z.div_mod a 8 ltac:(lia)). pose proof (Z.mod_pos_bound a 8 ltac:(lia)).
           destruct Hbig as [->|Hbig]; [left; unfold a; by replace tid with 0 by lia|]. right.
           destruct (Z.eqb_spec tid (nT - 1)); nia. }
       rewrite f_to_s_sum_B_ok; [cbn [mbind res_bind]; by rewrite Z.add_0_l|done|lia|lia|done|].
       unfold inS. lia. }
  cbn [mbind res_bind]. set (Ds := block (bits_of X 0 n) bs nT <$> seqZ 0 nT).
  assert (concat Ds = bits_of X 0 n) as Ed.
  { apply blocks_concat; rewrite ?bits_of_length; lia. }
  assert ((fun tid => let '(lb, ub) := chunk 0 n bs nT tid in int_part (ub - lb) (ones X lb ub)) <$> seqZ 0 nT
    = (fun D => int_part (zlen D) (sum D)) <$> Ds) as ->.
  { unfold Ds. rewrite <- list_fmap_compose. apply list_fmap_ext.
    intros i tid Ht%list_elem_of_lookup_2%elem_of_seqZ. unfold compose, block.
    rewrite bits_of_length, Z.sub_0_r by lia. destruct (chunk 0 n bs nT tid) as [lb ub] eqn:E.
    destruct (chunk_bounds n bs nT tid lb ub ltac:(lia) Hleft ltac:(lia) E) as (? & ? & ?).
    rewrite slice_bits_of, bits_of_length by lia. done. }
  pose proof (abs_sum_bits X 0 n ltac:(lia)).
  rewrite combine_sum_ok; rewrite ?Ed, ?bits_of_length by lia; [|by left|lia|lia].
  by rewrite Z.sub_0_r.
Qed.

Lemma par_f_to_s_extreme_witness :
  partition 2 1024 4 = Ok (2, 1) /\
  (exists m, par_f_to_s 2 (Ints [3; -1]) I1 None 0 2 "min" = Ok (Int m, 2) /\
     m ∈ [3; -1] /\ forall x, x ∈ [3; -1] -> m <= x) /\
  (exists m, par_f_to_s 2 (Ints [3; -1]) I1 None 0 2 "max" = Ok (Int m, 2) /\
     m ∈ [3; -1] /\ forall x, x ∈ [3; -1] -> x <= m).
Proof.
  split; [vm_compute; reflexivity|].
  apply (par_f_to_s_extreme 2 I1 8 [3; -1] 2 1); [reflexivity| |reflexivity|vm_compute; reflexivity].
  repeat (apply Forall_cons_2; [unfold inS; lia|]). apply Forall_nil_2.
Defined.

Lemma par_f_to_s_sum_witness :
  par_f_to_s 2 (Ints [3; -1; 9]) I4 (Some [1; 0; 1]) 0 3 "sum" = Ok (Int 12, 2).
Proof.
  apply (par_f_to_s_sum 2 I4 32 [3; -1; 9] (Some [1; 0; 1]) 3 1);
    [reflexivity|reflexivity|reflexivity|reflexivity|vm_compute; reflexivity].
Defined.

Lemma par_f_to_s_nn_last_witness :
  par_f_to_s 4 (Ints [5; 1; 3; 0]) I2 (Some [1; 1; 1; 0]) 0 4 "min" = Ok (Int 3, 3) /\
  par_f_to_s 4 (Ints [5; 1; 3; 0]) I2 (Some [1; 1; 1; 0]) 0 4 "max" = Ok (Int 3, 3).
Proof.
  apply (par_f_to_s_nn_last 4 I2 16 [5; 1; 3; 0] [1; 1; 1; 0] 3);
    [reflexivity|split; reflexivity|reflexivity|reflexivity|split; reflexivity].
Defined.

Lemma par_f_to_s_sum_B_witness : par_f_to_s 1 (Ints [-1; 3]) B None 0 10 "sum" = Ok (Int (ones [-1; 3] 0 10), 10).
Proof.
  apply (par_f_to_s_sum_B 1 [-1; 3] 10 10 1);
    [|intros H; discriminate H|reflexivity|vm_compute; reflexivity|left; reflexivity].
  repeat (apply Forall_cons_2; [unfold inS; lia|]). apply Forall_nil_2.
Defined.

End Reduce.
