(* ===== verification/Count.v ===== *)
(** * Counting and summing by group, running sums.

    Models the kernels count_*, count_nn_*, countf_*, countf_nn_* and cum_* of
    src/src/AUX, the verbs dir_wr_verbs/count.c and countf.c from the data of
    their operands to the data of the new field, and
    dir_helpers/f1opf2_cum.c.  A row of the source points to a row of the
    destination, which counts it, or adds its value.

    The Makefile defines [DEBUG], but most kernels undefine it before the code
    that checks the pointers: in them a row that points nowhere is an access
    outside the array.  Only the kernels count_I1 to count_I8 check.  In the
    verbs the tables and fields have been found already; a new file holds
    zeros. *)

From stdpp Require Import prelude.
From Stdlib Require Import ZArith Lia.
From S2P Require Import Prelude Types Setops Reduce.
Import Reduce.

Module Count.

(** ** Kernels *)

(** [cnt[idxI4] += val], for the rows that [cfld] selects; [bad] is the check
    of the pointer. *)
Fixpoint count_loop (n : nat) (bad : Z -> bool) (weight : Z -> res Z) (inp : list Z) (cfld : option (list Z))
    (i : Z) (cnt : list Z) : res (list Z) :=
  match n with
  | O => Ok cnt
  | S n =>
      null ← Uniq.is_null_row cfld i;
      if (null : bool) then count_loop n bad weight inp cfld (i + 1) cnt
      else
        idx ← rd inp i;
        let idxI4 := wrapS 32 idx in
        _ ← go_BYE_if (bad idx);
        val ← weight i;
        c ← rd cnt idxI4;
        c ← add_to 64 c val;
        cnt ← wr cnt idxI4 c;
        count_loop n bad weight inp cfld (i + 1) cnt
  end.

Definition one (i : Z) : res Z := Ok 1.
Definition unchecked (idx : Z) : bool := false.
Definition outside (n_out idx : Z) : bool := (idx <? 0) || (n_out <=? idx).

Definition count_T (inp : list Z) (n : Z) (cnt : list Z) (n_out : Z) :=
  count_loop (Z.to_nat n) (outside n_out) one inp None 0 cnt.
Definition count_nn_T (inp : list Z) (n : Z) (cfld cnt : list Z) :=
  count_loop (Z.to_nat n) unchecked one inp (Some cfld) 0 cnt.

(** [src] reads the array of [int]. *)
Definition countf_T (fk_fld : list Z) (src : Z -> res Z) (n : Z) (cnt : list Z) :=
  count_loop (Z.to_nat n) unchecked src fk_fld None 0 cnt.
Definition countf_nn_T (fk_fld : list Z) (src : Z -> res Z) (n : Z) (cfld cnt : list Z) :=
  count_loop (Z.to_nat n) unchecked src fk_fld (Some cfld) 0 cnt.

Definition count_I1 := count_T.
Definition count_I2 := count_T.
Definition count_I4 := count_T.
Definition count_I8 := count_T.
Definition count_nn_I1 := count_nn_T.
Definition count_nn_I2 := count_nn_T.
Definition count_nn_I4 := count_nn_T.
Definition count_nn_I8 := count_nn_T.
Definition countf_I1 := countf_T.
Definition countf_I2 := countf_T.
Definition countf_I4 := countf_T.
Definition countf_I8 := countf_T.
Definition countf_nn_I1 := countf_nn_T.
Definition countf_nn_I2 := countf_nn_T.
Definition countf_nn_I4 := countf_nn_T.
Definition countf_nn_I8 := countf_nn_T.

(** ** The verbs *)

(** [for ( int i = lb; i < ub; i++ ) { cntI8[i] = 0; }] *)
Fixpoint clear_loop (n : nat) (i : Z) (cnt : list Z) : res (list Z) :=
  match n with
  | O => Ok cnt
  | S n => cnt ← wr cnt i 0; clear_loop n (i + 1) cnt
  end.

(** [for ( int tid = 0; tid < dst_nR; tid++ )]: the bound is the number of
    rows, not of blocks. *)
Fixpoint init_loop (n : nat) (dst_nR block_size nT tid : Z) (cnt : list Z) : res (list Z) :=
  match n with
  | O => Ok cnt
  | S n =>
      let lb := tid * block_size in
      let ub := lb + block_size in
      let ub := if tid =? nT - 1 then dst_nR else ub in
      cnt ← clear_loop (Z.to_nat (ub - lb)) lb cnt;
      init_loop n dst_nR block_size nT (tid + 1) cnt
  end.

Definition count (t : FLD_TYPE) (X : list Z) (has_nn : bool) (cfld : option (list Z)) (dst_nR : Z)
    : res (list Z) :=
  let src_nR := zlen X in
  _ ← go_BYE_if (INT_MAX <=? dst_nR);
  _ ← go_BYE_if (INT_MAX <=? src_nR);
  _ ← go_BYE_if has_nn;
  '(block_size, nT) ← partition dst_nR 4096 (-1);
  cnt ← init_loop (Z.to_nat dst_nR) dst_nR block_size nT 0 (replicate (Z.to_nat dst_nR) 0);
  match cfld, t with
  | Some cfld, I1 => count_nn_I1 X src_nR cfld cnt
  | Some cfld, I2 => count_nn_I2 X src_nR cfld cnt
  | Some cfld, I4 => count_nn_I4 X src_nR cfld cnt
  | Some cfld, I8 => count_nn_I8 X src_nR cfld cnt
  | None, I1 => count_I1 X src_nR cnt dst_nR
  | None, I2 => count_I2 X src_nR cnt dst_nR
  | None, I4 => count_I4 X src_nR cnt dst_nR
  | None, I8 => count_I8 X src_nR cnt dst_nR
  | _, _ => Err
  end.

(** [I4_src_ptr[i]]: the data is read as [int] also when it is [long long]. *)
Definition src_ptr (t : FLD_TYPE) (src : list Z) (i : Z) : res Z :=
  if decide (t = I8) then h ← Uniq.rd_half src i; Ok (wrapS 32 h) else rd src i.

(** [nn_src] is the nn field of the source field: it is read into [cfld_X],
    but the kernel is chosen by [cfld_id]. *)
Definition countf (src_t : FLD_TYPE) (src : list Z) (nn_src : option (list Z)) (fk_t : FLD_TYPE)
    (fk_dst : list Z) (has_nn_fk : bool) (cfld : option (list Z)) (dst_nR : Z) : res (list Z) :=
  let src_nR := zlen fk_dst in
  _ ← go_BYE_if (INT_MAX <=? dst_nR);
  _ ← go_BYE_if (INT_MAX <=? src_nR);
  _ ← go_BYE_if has_nn_fk;
  _ ← go_BYE_if (bool_decide (is_Some nn_src) && bool_decide (is_Some cfld));
  _ ← go_BYE_if (negb (bool_decide (src_t = I4)) && negb (bool_decide (src_t = I8)));
  cnt ← clear_loop (Z.to_nat dst_nR) 0 (replicate (Z.to_nat dst_nR) 0);
  cnt ← clear_loop (Z.to_nat dst_nR) 0 cnt;
  let ptr := src_ptr src_t src in
  match cfld, fk_t with
  | Some cfld, I1 => countf_nn_I1 fk_dst ptr src_nR cfld cnt
  | Some cfld, I2 => countf_nn_I2 fk_dst ptr src_nR cfld cnt
  | Some cfld, I4 => countf_nn_I4 fk_dst ptr src_nR cfld cnt
  | Some cfld, I8 => countf_nn_I8 fk_dst ptr src_nR cfld cnt
  | None, I1 => countf_I1 fk_dst ptr src_nR cnt
  | None, I2 => countf_I2 fk_dst ptr src_nR cnt
  | None, I4 => countf_I4 fk_dst ptr src_nR cnt
  | None, I8 => countf_I8 fk_dst ptr src_nR cnt
  | _, _ => Err
  end.

Example count_one_row : count I4 [0; 0; 0] false (Some [1; 0; 1]) 1 = Ok [2].
Proof. vm_compute. reflexivity. Qed.

Example count_checked : count I4 [0; 1] false None 1 = Err.
Proof. vm_compute. reflexivity. Qed.

Example countf_ex : countf I4 [10; 20; 30; 40] None I1 [1; 0; 1; 2] false (Some [1; 1; 1; 0]) 3 = Ok [20; 40; 0].
Proof. vm_compute. reflexivity. Qed.

(** The nulls of the source field are added like values. *)
Example countf_nulls : countf I4 [10; 20] (Some [1; 0]) I4 [0; 0] false None 1 = Ok [30].
Proof. vm_compute. reflexivity. Qed.

(** Of values of eight bytes the halves are added. *)
Example countf_I8_halves : countf I8 [7; 2 ^ 32] None I4 [0; 1] false None 2 = Ok [7; 0].
Proof. vm_compute. reflexivity. Qed.

(** ** Running sums *)

(** The sum is formed in [w_add] bits and stored in [w_out]. *)
Fixpoint cum_loop (n : nat) (w_add w_out : Z) (inp : list Z) (i prevval : Z) (out : list Z)
    : res (list Z) :=
  match n with
  | O => Ok out
  | S n =>
      inval ← rd inp i;
      s ← add_to w_add inval prevval;
      let newval := wrapS w_out s in
      out ← wr out i newval;
      cum_loop n w_add w_out inp (i + 1) newval out
  end.
Definition cum (w_add w_out : Z) (inp : list Z) (nR : Z) (out : list Z) : res (list Z) :=
  x ← rd inp 0;
  let prevval := wrapS w_out x in
  out ← wr out 0 prevval;
  cum_loop (Z.to_nat (nR - 1)) w_add w_out inp 1 prevval out.

Definition cum_I1_to_I4 := cum 32 32.
Definition cum_I4_to_I4 := cum 32 32.
Definition cum_I8_to_I4 := cum 64 32.
Definition cum_I1_to_I8 := cum 64 64.
Definition cum_I4_to_I8 := cum 64 64.
Definition cum_I8_to_I8 := cum 64 64.

(** The new file has [fldsz * nR] bytes.  The case from I8 to I4 has no
    [break]: the file is then written as an array of [long long], of which it
    holds half as many. *)
Definition f1opf2_cum (in_X : list Z) (nR : Z) (f1type f2type : FLD_TYPE) : res (list Z) :=
  fldsz ← get_fld_sz f2type;
  let op_X sz := replicate (Z.to_nat (fldsz * nR / sz)) 0 in
  match f1type, f2type with
  | I4, I4 => cum_I4_to_I4 in_X nR (op_X 4)
  | I4, I8 => cum_I4_to_I8 in_X nR (op_X 8)
  | I8, I4 => _ ← cum_I8_to_I4 in_X nR (op_X 4); cum_I8_to_I8 in_X nR (op_X 8)
  | I8, I8 => cum_I8_to_I8 in_X nR (op_X 8)
  | I1, I4 => cum_I1_to_I4 in_X nR (op_X 4)
  | I1, I8 => cum_I1_to_I8 in_X nR (op_X 8)
  | _, _ => Err
  end.

Example cum_ex : f1opf2_cum [3; -1; 4] 3 I1 I8 = Ok [3; 2; 6].
Proof. vm_compute. reflexivity. Qed.

(** ** Counting *)

(** The rows that [cfld] selects, as pairs of pointer and value. *)
Definition group_rows (fk val : list Z) (cfld : option (list Z)) : list (Z * Z) :=
  match cfld with
  | None => zip fk val
  | Some c => fst <$> filter (fun p => p.2 <> 0) (zip (zip fk val) c)
  end.

(** The sum of the values of the rows that point to [j]. *)
Definition group_sum (j : Z) (l : list (Z * Z)) : Z := sum (snd <$> filter (fun p => p.1 = j) l).

Lemma group_sum_cons j k v l : group_sum j ((k, v) :: l) = (if decide (k = j) then v else 0) + group_sum j l.
Proof.
  unfold group_sum. rewrite filter_cons. cbn [fst]. destruct (decide (k = j)); [|done].
  rewrite fmap_cons. done.
Qed.

Lemma group_sum_bound j l : Z.abs (group_sum j l) <= abs_sum (snd <$> l).
Proof.
  induction l as [|[k v] l IH]; [done|]. rewrite group_sum_cons, fmap_cons, abs_sum_cons. cbn [snd].
  case_decide; lia.
Qed.

(** The loop over rows given as a list of pointer, value and selection. *)
Lemma count_loop_ok bad weight inp cfld l : forall i cnt,
  (forall k fk v (b : bool), l !! k = Some (fk, v, b) ->
     Uniq.is_null_row cfld (i + Z.of_nat k) = Ok b /\
     inp !z (i + Z.of_nat k) = Some fk /\ weight (i + Z.of_nat k) = Ok v) ->
  let sl := (fun p => (p.1.1, p.1.2)) <$> filter (fun p => p.2 = false) l in
  Forall (fun p => bad p.1 = false /\ 0 <= p.1 < zlen cnt /\ p.1 < 2 ^ 31) sl ->
  (forall j c, cnt !z j = Some c -> Z.abs c + abs_sum (snd <$> sl) < 2 ^ 63) ->
  exists cnt', count_loop (length l) bad weight inp cfld i cnt = Ok cnt' /\ zlen cnt' = zlen cnt /\
    forall j c, cnt !z j = Some c -> cnt' !z j = Some (c + group_sum j sl).
Proof.
  induction l as [|[[fk v] b] l IH]; intros i cnt Hl sl Hin Hb.
  { exists cnt. split_and!; [done..|]. intros j c Hc. rewrite Hc. f_equal. unfold group_sum. simpl. lia. }
  destruct (Hl 0%nat fk v b eq_refl) as (H1 & H2 & H3). rewrite Z.add_0_r in H1, H2, H3.
  assert (forall k fk v (b : bool), l !! k = Some (fk, v, b) ->
     Uniq.is_null_row cfld (i + 1 + Z.of_nat k) = Ok b /\
     inp !z (i + 1 + Z.of_nat k) = Some fk /\ weight (i + 1 + Z.of_nat k) = Ok v) as Hl'.
  { intros k fk' v' b' Hk. destruct (Hl (S k) fk' v' b' Hk) as (<- & <- & <-). split_and!; f_equal; lia. }
  cbn [length count_loop]. rewrite H1. cbn [mbind res_bind]. destruct b.
  { subst sl. rewrite filter_cons_False in Hin, Hb |- * by done. by apply IH. }
  subst sl. rewrite filter_cons_True in Hin, Hb |- * by done. rewrite fmap_cons in Hin, Hb |- *.
  cbn [fst snd] in Hin, Hb |- *. set (sl := _ <$> filter _ l) in *.
  apply Forall_cons in Hin as [(Hbad & Hfk & Hfk31) Hin]. cbn [fst] in Hbad, Hfk, Hfk31.
  rewrite (proj2 (rd_Ok _ _ _) H2). cbn [mbind res_bind]. rewrite Hbad, H3.
  cbn [go_BYE_if mbind res_bind]. rewrite wrapS_small by (unfold inS; lia).
  destruct (zlookup_is_Some cnt fk Hfk) as [c Hc]. rewrite (proj2 (rd_Ok _ _ _) Hc). cbn [mbind res_bind].
  rewrite fmap_cons in Hb. setoid_rewrite abs_sum_cons in Hb. cbn [snd] in Hb.
  pose proof (Hb fk c Hc). pose proof (abs_sum_nonneg (snd <$> sl)).
  rewrite add_to_Ok by (unfold inS; lia). cbn [mbind res_bind]. rewrite wr_Ok by done. cbn [mbind res_bind].
  destruct (IH (i + 1) (zset cnt fk (c + v)) Hl') as (cnt' & E & El & Hcnt').
  - by rewrite zlen_zset.
  - intros j d. rewrite zlookup_zset by done. case_decide as Ej.
    + intros [= <-]. fold sl. lia.
    + intros Hd. specialize (Hb j d Hd). fold sl. lia.
  - exists cnt'. rewrite E. rewrite zlen_zset in El. split_and!; [done..|]. intros j d Hd.
    rewrite group_sum_cons. destruct (decide (fk = j)) as [->|Hne].
    + rewrite (Hcnt' j (c + v)) by (by rewrite zlookup_zset_eq). rewrite Hc in Hd. injection Hd as <-.
      f_equal. lia.
    + rewrite (Hcnt' j d) by (by rewrite zlookup_zset_ne by lia). done.
Qed.

(** The rows as the loop sees them. *)
Definition flags (n : nat) (cfld : option (list Z)) : list bool :=
  match cfld with None => replicate n false | Some c => (fun b => b =? 0) <$> c end.

Lemma selected_rows fk val cfld :
  length val = length fk -> match cfld with None => True | Some c => length c = length fk end ->
  (fun p => (p.1.1, p.1.2)) <$> filter (fun p => p.2 = false) (zip (zip fk val) (flags (length fk) cfld))
  = group_rows fk val cfld.
Proof.
  intros Hv Hc. destruct cfld as [c|]; cbn [flags group_rows].
  - revert val c Hv Hc. induction fk as [|k fk IH]; intros [|v val] [|b c] Hv Hc; try done.
    rewrite fmap_cons. cbn [zip_with]. rewrite !filter_cons. cbn [snd]. injection Hv as Hv. injection Hc as Hc.
    destruct (Z.eqb_spec b 0) as [->|Hb].
    + rewrite (decide_False (P := true = false)) by done. rewrite decide_False by lia. by apply IH.
    + rewrite (decide_True (P := false = false)) by done. rewrite decide_True by done.
      rewrite !fmap_cons. cbn [fst snd]. by rewrite (IH val c).
  - revert val Hv. clear Hc. induction fk as [|k fk IH]; intros [|v val] Hv; try done.
    cbn [length replicate zip_with]. rewrite filter_cons_True by done. rewrite fmap_cons. cbn [fst snd].
    injection Hv as Hv. by rewrite IH.
Qed.

Lemma rows_sub fk val cfld p : p ∈ group_rows fk val cfld -> p ∈ zip fk val.
Proof.
  destruct cfld as [c|]; cbn [group_rows]; [|done].
  intros ([p' b] & -> & [_ Hp]%list_elem_of_filter)%list_elem_of_fmap.
  apply list_elem_of_lookup in Hp as [i Hi]. apply lookup_zip_Some in Hi as [Hi _].
  by apply list_elem_of_lookup_2 in Hi.
Qed.

Lemma rows_length fk val cfld : (length (group_rows fk val cfld) <= length fk)%nat.
Proof.
  destruct cfld as [c|]; cbn [group_rows]; [|rewrite length_zip; lia].
  rewrite length_fmap. etrans; [apply length_filter|]. rewrite !length_zip. lia.
Qed.

(** The kernels: every cell is increased by the values of its rows. *)
Lemma count_rows_ok bad weight fk val cfld cnt :
  zlen val = zlen fk -> match cfld with None => True | Some c => zlen c = zlen fk end ->
  (forall i v, val !z i = Some v -> weight i = Ok v) ->
  Forall (fun p => bad p.1 = false /\ 0 <= p.1 < zlen cnt /\ p.1 < 2 ^ 31) (group_rows fk val cfld) ->
  (forall j c, cnt !z j = Some c -> Z.abs c + abs_sum (snd <$> group_rows fk val cfld) < 2 ^ 63) ->
  exists cnt', count_loop (Z.to_nat (zlen fk)) bad weight fk cfld 0 cnt = Ok cnt' /\ zlen cnt' = zlen cnt /\
    forall j c, cnt !z j = Some c -> cnt' !z j = Some (c + group_sum j (group_rows fk val cfld)).
Proof.
  intros Hv Hc Hw Hin Hb. assert (length val = length fk) as Hv' by (unfold zlen in Hv; lia).
  assert (match cfld with None => True | Some c => length c = length fk end) as Hc'
    by (destruct cfld; [unfold zlen in Hc; lia|done]).
  rewrite <- (selected_rows fk val cfld Hv' Hc') in *.
  set (l := zip (zip fk val) (flags (length fk) cfld)) in *.
  assert (length l = length fk) as El.
  { unfold l. rewrite !length_zip. destruct cfld as [c|]; cbn [flags]; rewrite ?length_fmap, ?length_replicate; lia. }
  rewrite to_nat_zlen, <- El. apply count_loop_ok; [|done|done].
  intros k f v b Hk. unfold l in Hk. apply lookup_zip_Some in Hk as [Hk Hb'].
  apply lookup_zip_Some in Hk as [Hf Hv'']. rewrite Z.add_0_l, zlookup_nat. split_and!; [|done|].
  - unfold Uniq.is_null_row. destruct cfld as [c|]; cbn [flags] in Hb'.
    + apply list_lookup_fmap_Some in Hb' as (x & -> & Hx).
      rewrite (proj2 (rd_Ok c (Z.of_nat k) x)) by (by rewrite zlookup_nat). done.
    + apply lookup_replicate in Hb' as [-> _]. done.
  - apply Hw. by rewrite zlookup_nat.
Qed.

Lemma clear_loop_ok m n : forall i, 0 <= i -> i + Z.of_nat n <= Z.of_nat m ->
  clear_loop n i (replicate m 0) = Ok (replicate m 0).
Proof.
  induction n as [|n IH]; intros i Hi Hn; [done|]. cbn [clear_loop].
  rewrite wr_Ok by (unfold zlen; rewrite length_replicate; lia). cbn [mbind res_bind].
  rewrite zset_id; [apply IH; lia|]. rewrite zlookup_to_nat by lia. apply lookup_replicate_2. lia.
Qed.

Lemma abs_sum_small b l : Forall (fun x => Z.abs x <= b) l -> abs_sum l <= b * zlen l.
Proof.
  induction 1 as [|x l Hx Hl IH]; [by rewrite Z.mul_0_r|]. rewrite abs_sum_cons, zlen_cons. lia.
Qed.

(** [countf] on an I4 field without nulls: every row of the
    destination gets the sum of the values of the selected source rows that
    point to it.  The sums cannot overflow. *)
Theorem countf_correct (fk_t : FLD_TYPE) (src fk : list Z) (cfld : option (list Z)) (dst_nR : Z) :
  is_Some (int_bits fk_t) -> 0 <= dst_nR < INT_MAX -> zlen fk < INT_MAX -> zlen src = zlen fk ->
  match cfld with None => True | Some c => zlen c = zlen fk end -> Forall (inS 32) src ->
  Forall (fun p => 0 <= p.1 < dst_nR) (group_rows fk src cfld) ->
  exists out, countf I4 src None fk_t fk false cfld dst_nR = Ok out /\ zlen out = dst_nR /\
    forall j, 0 <= j < dst_nR -> out !z j = Some (group_sum j (group_rows fk src cfld)).
Proof.
  intros Ht Hd Hn Hs Hc Hsrc Hin. set (cnt := replicate (Z.to_nat dst_nR) 0).
  assert (zlen cnt = dst_nR) as El by (unfold cnt, zlen; rewrite length_replicate; lia).
  assert (Forall (fun x => Z.abs x <= 2 ^ 31) (snd <$> group_rows fk src cfld)) as Hsmall.
  { apply Forall_forall. intros x ([f v] & -> & Hp%rows_sub)%list_elem_of_fmap.
    apply list_elem_of_lookup in Hp as [i Hi]. apply lookup_zip_Some in Hi as [_ Hi].
    eapply Forall_lookup_1 in Hi; [|exact Hsrc]. unfold inS in Hi. cbn [snd]. lia. }
  destruct (count_rows_ok unchecked (src_ptr I4 src) fk src cfld cnt) as (out & E & Elen & Hout); try done.
  - intros i v Hi. unfold src_ptr. rewrite decide_False by done. by apply rd_Ok.
  - eapply Forall_impl; [exact Hin|]. intros p Hp. cbv beta in Hp. split; [done|]. unfold INT_MAX in *. lia.
  - intros j c Hj. pose proof (zlookup_Some_range _ _ _ Hj). rewrite zlookup_to_nat in Hj by lia.
    apply lookup_replicate in Hj as [-> _]. apply abs_sum_small in Hsmall. rewrite zlen_fmap in Hsmall.
    pose proof (rows_length fk src cfld). unfold zlen, INT_MAX in *. lia.
  - exists out. split_and!; [|lia|].
    + unfold countf. rewrite (proj2 (Z.leb_gt INT_MAX dst_nR)), (proj2 (Z.leb_gt INT_MAX (zlen fk))) by lia.
      cbn [go_BYE_if mbind res_bind]. change (bool_decide (is_Some None)) with false.
      change (negb (bool_decide (I4 = I4))) with false. cbn [go_BYE_if mbind res_bind andb].
      rewrite clear_loop_ok by lia. cbn [mbind res_bind].
      rewrite clear_loop_ok by lia. cbn [mbind res_bind].
      destruct cfld, fk_t; try (by destruct Ht); exact E.
    + intros j Hj. rewrite (Hout j 0); [done|]. rewrite zlookup_to_nat by lia.
      apply lookup_replicate_2. lia.
Qed.

(** ** The initialisation of [count] *)

Lemma clear_loop_Ub m n : forall i, 0 <= i -> Z.of_nat m < i + Z.of_nat n -> (0 < n)%nat ->
  clear_loop n i (replicate m 0) = Ub.
Proof.
  induction n as [|n IH]; intros i Hi Hm Hn; [lia|]. cbn [clear_loop].
  destruct (decide (i < Z.of_nat m)) as [Hlt|Hge].
  - rewrite wr_Ok by (unfold zlen; rewrite length_replicate; lia). cbn [mbind res_bind].
    rewrite zset_id; [apply IH; lia|]. rewrite zlookup_to_nat by lia. apply lookup_replicate_2. lia.
  - unfold wr. rewrite decide_False; [done|]. unfold zlen. rewrite length_replicate. lia.
Qed.

(** Block [nT] is behind the array. *)
Lemma init_loop_Ub R bs nT n : forall tid,
  0 < bs -> 0 <= R - bs * nT < bs -> 0 <= tid <= nT -> nT - tid < Z.of_nat n ->
  init_loop n R bs nT tid (replicate (Z.to_nat R) 0) = Ub.
Proof.
  induction n as [|n IH]; intros tid Hbs HR Ht Hn; [lia|]. cbn [init_loop]. cbv zeta.
  destruct (decide (tid = nT)) as [->|Hne].
  - rewrite (proj2 (Z.eqb_neq nT (nT - 1))) by lia. by rewrite clear_loop_Ub by nia.
  - assert (tid * bs + bs <= R) by nia.
    destruct (Z.eqb_spec tid (nT - 1)); rewrite clear_loop_ok by nia; cbn [mbind res_bind]; apply IH; lia.
Qed.

(** The loop of [count] that sets the counters to 0 runs over the
    blocks up to the number of rows instead of the number of blocks: for every
    destination of at least two rows it writes behind the new file. *)
Theorem count_overrun (t : FLD_TYPE) (X : list Z) (cfld : option (list Z)) (dst_nR bs nT : Z) :
  2 <= dst_nR < INT_MAX -> zlen X < INT_MAX -> partition dst_nR 4096 (-1) = Ok (bs, nT) ->
  count t X false cfld dst_nR = Ub.
Proof.
  intros Hd Hn Hp. unfold count. rewrite (proj2 (Z.leb_gt INT_MAX dst_nR)), (proj2 (Z.leb_gt INT_MAX (zlen X))) by lia.
  cbn [go_BYE_if mbind res_bind]. rewrite Hp. cbn [mbind res_bind].
  assert (dst_nR / 4096 < INT_MAX) as Hq by (unfold INT_MAX in *; apply Z.div_lt_upper_bound; lia).
  destruct (partition_Ok dst_nR 4096 (-1) bs nT ltac:(lia) Hq Hp) as (_ & HnT & _ & Hbs & Hleft & Hbig).
  rewrite init_loop_Ub; [done|lia|lia|lia|]. rewrite Z2Nat.id by lia.
  destruct Hbig as [->|Hbig]; [lia|nia].
Qed.

(** ** Running sums *)

(** The sums of the first elements, in range of the result. *)
Definition prefix_sums_fit (w : Z) (l : list Z) : Prop :=
  forall k, (k <= length l)%nat -> inS w (sum (take k l)).

Lemma sum_take_S (l : list Z) k x : l !! k = Some x -> sum (take (S k) l) = sum (take k l) + x.
Proof. intros Hk. rewrite (take_S_r _ _ _ Hk), sum_app. unfold sum. simpl. lia. Qed.

Lemma cum_loop_ok w_add w_out inp n : forall i out,
  0 < w_out <= w_add -> 0 < i -> i + Z.of_nat n <= zlen inp -> zlen out = zlen inp ->
  prefix_sums_fit w_out inp ->
  (forall k : nat, Z.of_nat k < i -> out !! k = Some (sum (take (S k) inp))) ->
  exists out', cum_loop n w_add w_out inp i (sum (take (Z.to_nat i) inp)) out = Ok out' /\
    zlen out' = zlen inp /\
    forall k : nat, Z.of_nat k < i + Z.of_nat n -> out' !! k = Some (sum (take (S k) inp)).
Proof.
  induction n as [|n IH]; intros i out Hw Hi Hn Hlen Hfit Hout.
  { exists out. split_and!; [done..|]. intros k Hk. apply Hout. lia. }
  cbn [cum_loop]. destruct (zlookup_is_Some inp i ltac:(lia)) as [x Hx].
  rewrite (proj2 (rd_Ok _ _ _) Hx). cbn [mbind res_bind]. rewrite zlookup_to_nat in Hx by lia.
  pose proof (sum_take_S inp (Z.to_nat i) x Hx) as Es.
  assert (inS w_out (sum (take (S (Z.to_nat i)) inp))) as Hin
    by (apply Hfit; apply lookup_lt_Some in Hx; lia).
  pose proof (Z.pow_le_mono_r 2 (w_out - 1) (w_add - 1) ltac:(lia) ltac:(lia)).
  rewrite add_to_Ok by (unfold inS in *; lia). cbn [mbind res_bind].
  replace (x + sum (take (Z.to_nat i) inp)) with (sum (take (S (Z.to_nat i)) inp)) by lia.
  rewrite wrapS_small by (done || lia). rewrite wr_Ok by lia. cbn [mbind res_bind].
  replace (S (Z.to_nat i)) with (Z.to_nat (i + 1)) by lia.
  destruct (IH (i + 1) (zset out i (sum (take (Z.to_nat (i + 1)) inp)))) as (out' & E & El & Hout');
    [done|lia|lia|by rewrite zlen_zset|done| |].
  - intros k Hk. unfold zset. destruct (decide (k = Z.to_nat i)) as [->|Hne].
    + rewrite list_lookup_insert_eq by (unfold zlen in *; lia). do 3 f_equal. lia.
    + rewrite list_lookup_insert_ne by done. apply Hout. lia.
  - exists out'. split_and!; [done..|]. intros k Hk. apply Hout'. lia.
Qed.

Lemma cum_ok w_add w_out inp out :
  0 < w_out <= w_add -> inp <> [] -> zlen out = zlen inp -> prefix_sums_fit w_out inp ->
  exists out', cum w_add w_out inp (zlen inp) out = Ok out' /\ zlen out' = zlen inp /\
    forall k, (k < length inp)%nat -> out' !! k = Some (sum (take (S k) inp)).
Proof.
  intros Hw Hne Hlen Hfit. unfold cum. destruct inp as [|x inp]; [done|].
  assert (1 <= zlen (x :: inp)) by (rewrite zlen_cons; pose proof (zlen_nonneg inp); lia).
  assert (sum (take 1 (x :: inp)) = x) as Ex by (unfold sum; simpl; lia).
  pose proof (Hfit 1%nat ltac:(simpl; lia)) as Hx. rewrite Ex in Hx.
  change (rd (x :: inp) 0) with (Ok x). cbn [mbind res_bind].
  rewrite wrapS_small by (done || lia). rewrite wr_Ok by lia. cbn [mbind res_bind].
  destruct (cum_loop_ok w_add w_out (x :: inp) (Z.to_nat (zlen (x :: inp) - 1)) 1 (zset out 0 x))
    as (out' & E & El & Hout'); [done|lia|lia|by rewrite zlen_zset|done| |].
  - intros k Hk. assert (k = 0%nat) as -> by lia. unfold zset. change (Z.to_nat 0) with 0%nat.
    rewrite list_lookup_insert_eq by (unfold zlen in *; lia). by rewrite Ex.
  - change (Z.to_nat 1) with 1%nat in E. rewrite Ex in E. exists out'. split_and!; [done..|].
    intros k Hk. apply Hout'. unfold zlen in *. lia.
Qed.

(** The result has fewer cells than rows are left. *)
Lemma cum_loop_Ub w_add w_out inp n : forall i out,
  0 < w_out <= w_add -> 0 < i -> i + Z.of_nat n <= zlen inp -> zlen out < i + Z.of_nat n -> (0 < n)%nat ->
  prefix_sums_fit w_out inp ->
  cum_loop n w_add w_out inp i (sum (take (Z.to_nat i) inp)) out = Ub.
Proof.
  induction n as [|n IH]; intros i out Hw Hi Hn Hlen Hpos Hfit; [lia|].
  cbn [cum_loop]. destruct (zlookup_is_Some inp i ltac:(lia)) as [x Hx].
  rewrite (proj2 (rd_Ok _ _ _) Hx). cbn [mbind res_bind]. rewrite zlookup_to_nat in Hx by lia.
  pose proof (sum_take_S inp (Z.to_nat i) x Hx) as Es.
  assert (inS w_out (sum (take (S (Z.to_nat i)) inp))) as Hin
    by (apply Hfit; apply lookup_lt_Some in Hx; lia).
  pose proof (Z.pow_le_mono_r 2 (w_out - 1) (w_add - 1) ltac:(lia) ltac:(lia)).
  rewrite add_to_Ok by (unfold inS in *; lia). cbn [mbind res_bind].
  replace (x + sum (take (Z.to_nat i) inp)) with (sum (take (S (Z.to_nat i)) inp)) by lia.
  rewrite wrapS_small by (done || lia). destruct (decide (i < zlen out)) as [Hlt|Hge].
  - rewrite wr_Ok by lia. cbn [mbind res_bind].
    replace (S (Z.to_nat i)) with (Z.to_nat (i + 1)) by lia. apply IH; rewrite ?zlen_zset; (done || lia).
  - unfold wr. by rewrite decide_False by lia.
Qed.

Lemma cum_Ub w_add w_out inp out :
  0 < w_out <= w_add -> inp <> [] -> zlen out < zlen inp -> prefix_sums_fit w_out inp ->
  cum w_add w_out inp (zlen inp) out = Ub.
Proof.
  intros Hw Hne Hlen Hfit. unfold cum. destruct inp as [|x inp]; [done|].
  assert (sum (take 1 (x :: inp)) = x) as Ex by (unfold sum; simpl; lia).
  pose proof (Hfit 1%nat ltac:(simpl; lia)) as Hx. rewrite Ex in Hx.
  change (rd (x :: inp) 0) with (Ok x). cbn [mbind res_bind]. rewrite wrapS_small by (done || lia).
  pose proof (zlen_nonneg out). destruct (decide (0 < zlen out)) as [Hlt|Hge].
  - rewrite wr_Ok by lia. cbn [mbind res_bind].
    pose proof (cum_loop_Ub w_add w_out (x :: inp) (Z.to_nat (zlen (x :: inp) - 1)) 1 (zset out 0 x)
      Hw ltac:(lia)) as E.
    change (Z.to_nat 1) with 1%nat in E. rewrite Ex in E. apply E; rewrite ?zlen_zset; (done || lia).
  - unfold wr. by rewrite decide_False by lia.
Qed.

(** The pairs of types that [f1opf2_cum] handles, but one. *)
Definition cum_types (f1 f2 : FLD_TYPE) : option Z :=
  match f1, f2 with
  | I1, I4 | I4, I4 => Some 32
  | I1, I8 | I4, I8 | I8, I8 => Some 64
  | _, _ => None
  end.

(** Running sums: when the sums of the first elements fit the type
    of the result, the new field holds in every row the sum of the values up
    to it; the file has exactly one cell per row. *)
Theorem f1opf2_cum_correct (f1 f2 : FLD_TYPE) (w : Z) (inp : list Z) :
  cum_types f1 f2 = Some w -> inp <> [] -> prefix_sums_fit w inp ->
  exists out, f1opf2_cum inp (zlen inp) f1 f2 = Ok out /\ zlen out = zlen inp /\
    forall k, (k < length inp)%nat -> out !! k = Some (sum (take (S k) inp)).
Proof.
  intros Ht Hne Hfit. pose proof (zlen_nonneg inp).
  assert (forall c, 0 < c -> zlen (replicate (Z.to_nat (c * zlen inp / c)) 0) = zlen inp) as Hl.
  { intros c Hc. rewrite (Z.mul_comm c), Z.div_mul by lia. unfold zlen at 1. rewrite length_replicate. lia. }
  destruct f1, f2; try discriminate Ht; injection Ht as <-; unfold f1opf2_cum; cbn [get_fld_sz mbind res_bind];
    apply cum_ok; try done; try lia; apply Hl; lia.
Qed.

(** Running sums of an I8 field into an I4 field: the switch falls
    through to the next case, which fills the file again with cells of eight
    bytes and writes behind its end. *)
Theorem f1opf2_cum_overrun (inp : list Z) :
  inp <> [] -> prefix_sums_fit 32 inp -> f1opf2_cum inp (zlen inp) I8 I4 = Ub.
Proof.
  intros Hne Hfit. assert (0 < zlen inp) as Hpos.
  { destruct inp; [done|]. rewrite zlen_cons. pose proof (zlen_nonneg inp). lia. }
  unfold f1opf2_cum. cbn [get_fld_sz mbind res_bind].
  destruct (cum_ok 64 32 inp (replicate (Z.to_nat (4 * zlen inp / 4)) 0)) as (o & E & _); [lia|done| |done|].
  { rewrite (Z.mul_comm 4), Z.div_mul by lia. unfold zlen at 1. rewrite length_replicate. lia. }
  unfold cum_I8_to_I4. rewrite E. cbn [mbind res_bind]. clear E o.
  apply cum_Ub; [lia|done| |].
  - unfold zlen at 1. rewrite length_replicate.
    assert (4 * zlen inp / 8 < zlen inp) by (apply Z.div_lt_upper_bound; lia). lia.
  - intros k Hk. specialize (Hfit k Hk). unfold inS in *. lia.
Qed.

Lemma countf_correct_witness :
  exists out, countf I4 [10; -20; 30] None I1 [1; 0; 1] false (Some [1; 1; 0]) 2 = Ok out /\ zlen out = 2 /\
    forall j, 0 <= j < 2 -> out !z j = Some (group_sum j (group_rows [1; 0; 1] [10; -20; 30] (Some [1; 1; 0]))).
Proof.
  apply (countf_correct I1 [10; -20; 30] [1; 0; 1] (Some [1; 1; 0]) 2);
    [by eexists|split; [lia|reflexivity]|reflexivity|reflexivity|reflexivity| |].
  - repeat (apply Forall_cons_2; [unfold inS; lia|]). apply Forall_nil_2.
  - change (group_rows [1; 0; 1] [10; -20; 30] (Some [1; 1; 0])) with [(1, 10); (0, -20)].
    repeat (apply Forall_cons_2; [simpl; lia|]). apply Forall_nil_2.
Defined.

Lemma count_overrun_witness : count I4 [0; 1; 1] false None 2 = Ub.
Proof.
  apply (count_overrun I4 [0; 1; 1] None 2 2 1); [split; [lia|reflexivity]|reflexivity|vm_compute; reflexivity].
Defined.

(** Whether the sums fit, by evaluation. *)
Lemma prefix_sums_fit_bool w l :
  forallb (fun k => (- 2 ^ (w - 1) <=? sum (take k l)) && (sum (take k l) <? 2 ^ (w - 1))) (seq 0 (S (length l))) = true ->
  prefix_sums_fit w l.
Proof.
  intros Hall k Hk. rewrite forallb_forall in Hall. specialize (Hall k).
  rewrite in_seq in Hall. specialize (Hall ltac:(lia)). apply andb_true_iff in Hall as [H1 H2].
  apply Z.leb_le in H1. apply Z.ltb_lt in H2. done.
Qed.

Lemma f1opf2_cum_correct_witness :
  exists out, f1opf2_cum [5; -2; 7] (zlen [5; -2; 7]) I4 I8 = Ok out /\ zlen out = zlen [5; -2; 7] /\
    forall k, (k < length [5; -2; 7]%Z)%nat -> out !! k = Some (sum (take (S k) [5; -2; 7])).
Proof.
  apply (f1opf2_cum_correct I4 I8 64 [5; -2; 7]%Z); [reflexivity|discriminate|].
  apply prefix_sums_fit_bool. reflexivity.
Defined.

Lemma f1opf2_cum_overrun_witness : f1opf2_cum [5; -2; 7] (zlen [5; -2; 7]) I8 I4 = Ub.
Proof.
  apply (f1opf2_cum_overrun [5; -2; 7]); [discriminate|]. apply prefix_sums_fit_bool. reflexivity.
Defined.

End Count.
