(* ===== verification/IsSorted.v ===== *)
(** * Is a field sorted?

    Models src/src/AUX/is_sorted_alldef_I1.c, _I2.c, _I4.c and _I8.c, which the
    reduction is_sorted of dir_helpers/ext_f_to_s.c runs on a field without
    nulls.  [count_vals] trusts the answer (Setops.v). *)

From stdpp Require Import prelude sorting.
From Stdlib Require Import ZArith Lia.
From S2P Require Import Prelude Types.

Module IsSorted.

(** The first value that differs from [first_val], and its index. *)
Fixpoint find_second (n : nat) (iX : list Z) (i first_val : Z) : res (option (Z * Z)) :=
  match n with
  | O => Ok None
  | S n =>
      v ← rd iX i;
      if negb (v =? first_val) then Ok (Some (i, v)) else find_second n iX (i + 1) first_val
  end.

(** The last loop: [iX] has been moved by [off], [i] has not been reset.
    [Err] stands for the call of [exit] in the default case. *)
Fixpoint order_loop (n : nat) (iX : list Z) (off i : Z) (sort_order : SORT_TYPE) (prev_val : Z)
    : res SORT_TYPE :=
  match n with
  | O => Ok sort_order
  | S n =>
      curr_val ← rd iX (off + i);
      match sort_order with
      | ascending =>
          if curr_val <? prev_val then Ok unsorted
          else order_loop n iX off (i + 1) sort_order curr_val
      | descending =>
          if prev_val <? curr_val then Ok unsorted
          else order_loop n iX off (i + 1) sort_order curr_val
      | _ => Err
      end
  end.

Definition is_sorted_alldef (iX : list Z) (nR : Z) : res SORT_TYPE :=
  if nR =? 0 then Ok unknown
  else if nR =? 1 then Ok ascending
  else
    first_val ← rd iX 0;
    second ← find_second (Z.to_nat (nR - 1)) iX 1 first_val;
    match second with
    | None => Ok ascending
    | Some (i, second_val) =>
        let sort_order := if first_val <? second_val then ascending else descending in
        let nR := nR - i in
        order_loop (Z.to_nat (nR - i)) iX i i sort_order second_val
    end.

Definition is_sorted_alldef_I1 := is_sorted_alldef.
Definition is_sorted_alldef_I2 := is_sorted_alldef.
Definition is_sorted_alldef_I4 := is_sorted_alldef.
Definition is_sorted_alldef_I8 := is_sorted_alldef.

Example is_sorted_ex : is_sorted_alldef [1; 2; 2; 7] 4 = Ok ascending.
Proof. vm_compute. reflexivity. Qed.

(** The last value is not looked at. *)
Example is_sorted_misses_ex : is_sorted_alldef [1; 1; 2; 0] 4 = Ok ascending.
Proof. vm_compute. reflexivity. Qed.

(** ** What it looks at *)

(** No value breaks the order after [prev]. *)
Fixpoint in_order (up : bool) (prev : Z) (l : list Z) : bool :=
  match l with
  | [] => true
  | x :: l => (if up then prev <=? x else x <=? prev) && in_order up x l
  end.

Definition order_of (up : bool) : SORT_TYPE := if up then ascending else descending.

Lemma order_loop_ok up l : forall pre off i prev, zlen pre = off + i ->
  order_loop (length l) (pre ++ l) off i (order_of up) prev
  = Ok (if in_order up prev l then order_of up else unsorted).
Proof.
  induction l as [|x l IH]; intros pre off i prev Hpre; [done|]. cbn [length order_loop in_order].
  rewrite <- Hpre, rd_middle. cbn [mbind res_bind]. rewrite app_cons_snoc.
  assert (zlen (pre ++ [x]) = off + (i + 1)) as Hpre'.
  { rewrite zlen_app, zlen_cons. change (zlen []) with 0. lia. }
  destruct up; cbn [order_of].
  - destruct (Z.ltb_spec x prev), (Z.leb_spec prev x); try lia; [done|]. by apply (IH _ off (i + 1)).
  - destruct (Z.ltb_spec prev x), (Z.leb_spec x prev); try lia; [done|]. by apply (IH _ off (i + 1)).
Qed.

Lemma find_second_ok n : forall pre a b rest,
  a <> b -> find_second (n + S (length rest)) (pre ++ replicate n a ++ b :: rest) (zlen pre) a
  = Ok (Some (zlen pre + Z.of_nat n, b)).
Proof.
  induction n as [|n IH]; intros pre a b rest Hab.
  - cbn [Nat.add find_second replicate app]. rewrite rd_middle. cbn [mbind res_bind].
    destruct (Z.eqb_spec b a); [congruence|]. cbn [negb]. by rewrite Z.add_0_r.
  - cbn [Nat.add find_second replicate app]. rewrite rd_middle. cbn [mbind res_bind].
    rewrite Z.eqb_refl. cbn [negb]. rewrite app_cons_snoc.
    specialize (IH (pre ++ [a]) a b rest Hab). rewrite zlen_app, zlen_cons in IH.
    change (zlen []) with 0 in IH. rewrite Z.add_0_r in IH. rewrite IH. do 3 f_equal. lia.
Qed.

Lemma find_second_none n : forall pre a,
  find_second n (pre ++ replicate n a) (zlen pre) a = Ok None.
Proof.
  induction n as [|n IH]; intros pre a; [done|]. cbn [find_second replicate]. rewrite rd_middle.
  cbn [mbind res_bind]. rewrite Z.eqb_refl. cbn [negb]. rewrite app_cons_snoc.
  specialize (IH (pre ++ [a]) a). rewrite zlen_app, zlen_cons in IH.
  change (zlen []) with 0 in IH. by rewrite Z.add_0_r in IH.
Qed.

(** A value [a], [k] times, then another one: of the rest the first [k - 1]
    values are skipped. *)
Lemma is_sorted_two k a b rest :
  a <> b -> (0 < k)%nat ->
  is_sorted_alldef (replicate k a ++ b :: rest) (zlen (replicate k a ++ b :: rest))
  = Ok (if in_order (a <? b) b (drop (k - 1) rest) then order_of (a <? b) else unsorted).
Proof.
  intros Hab Hk. destruct k as [|k]; [lia|]. set (X := replicate (S k) a ++ b :: rest).
  assert (zlen X = Z.of_nat (S k) + 1 + zlen rest) as HX.
  { unfold X. rewrite zlen_app, zlen_cons. unfold zlen at 1. rewrite length_replicate. lia. }
  pose proof (zlen_nonneg rest). unfold is_sorted_alldef.
  rewrite (proj2 (Z.eqb_neq (zlen X) 0)), (proj2 (Z.eqb_neq (zlen X) 1)) by lia.
  change (rd X 0) with (Ok a). cbn [mbind res_bind].
  pose proof (find_second_ok k [a] a b rest Hab) as E. change (zlen [a]) with 1 in E.
  replace (Z.to_nat (zlen X - 1)) with (k + S (length rest))%nat by (unfold zlen in *; lia).
  change ([a] ++ replicate k a ++ b :: rest) with X in E. rewrite E. cbn [mbind res_bind]. clear E.
  fold (order_of (a <? b)). set (off := 1 + Z.of_nat k). replace (S k - 1)%nat with k by lia.
  destruct (decide (k <= length rest)%nat) as [Hle|Hgt].
  - pose proof (order_loop_ok (a <? b) (drop k rest) (replicate (S k) a ++ b :: take k rest) off off b) as E.
    rewrite <- app_assoc in E. cbn [app] in E. rewrite take_drop in E.
    replace (Z.to_nat (zlen X - off - off)) with (length (drop k rest))
      by (rewrite length_drop; unfold off, zlen in *; lia).
    apply E. rewrite zlen_app, zlen_cons. unfold zlen. rewrite length_replicate, length_take. lia.
  - rewrite drop_ge by lia. cbn [in_order].
    by replace (Z.to_nat (zlen X - off - off)) with 0%nat by (unfold off, zlen in *; lia).
Qed.

Lemma is_sorted_constant n a : (0 < n)%nat -> is_sorted_alldef (replicate n a) (zlen (replicate n a)) = Ok ascending.
Proof.
  intros Hn. destruct n as [|n]; [lia|]. unfold is_sorted_alldef. destruct n as [|n]; [done|].
  assert (zlen (replicate (S (S n)) a) = Z.of_nat (S (S n))) as El by (unfold zlen; by rewrite length_replicate).
  rewrite El, (proj2 (Z.eqb_neq _ 0)), (proj2 (Z.eqb_neq _ 1)) by lia.
  change (rd (replicate (S (S n)) a) 0) with (Ok a). cbn [mbind res_bind].
  replace (Z.to_nat (Z.of_nat (S (S n)) - 1)) with (S n) by lia.
  pose proof (find_second_none (S n) [a] a) as E. change (zlen [a]) with 1 in E.
  change ([a] ++ replicate (S n) a) with (replicate (S (S n)) a) in E. by rewrite E.
Qed.

(** Every array is of one of the two forms. *)
Lemma leading_run (X : list Z) a X' :
  X = a :: X' -> X = replicate (length X) a \/
  exists k b rest, X = replicate k a ++ b :: rest /\ a <> b /\ (0 < k)%nat.
Proof.
  intros ->. induction X' as [|x X' IH]; [by left|]. destruct (decide (x = a)) as [->|Hne].
  - destruct IH as [IH|(k & b & rest & E & Hab & Hk)].
    + left. cbn [length replicate]. f_equal. exact IH.
    + right. exists (S k), b, rest. split_and!; [|done|lia]. cbn [replicate app]. by f_equal.
  - right. exists 1%nat, x, X'. split_and!; [done|congruence|lia].
Qed.

Lemma in_order_up prev l : in_order true prev l = true <-> StronglySorted Z.le (prev :: l).
Proof.
  revert prev. induction l as [|x l IH]; intros prev; [split; [by repeat constructor|done]|].
  cbn [in_order]. rewrite andb_true_iff, IH, Z.leb_le. split.
  - intros [Hx Hs]. constructor; [done|]. constructor; [done|]. apply StronglySorted_inv in Hs as [_ Hs].
    eapply Forall_impl; [exact Hs|]. intros y Hy. cbv beta in Hy. lia.
  - intros [Hs Hf]%StronglySorted_inv. apply Forall_cons in Hf as [Hx _]. done.
Qed.

Lemma in_order_down prev l : in_order false prev l = true <-> StronglySorted Z.ge (prev :: l).
Proof.
  revert prev. induction l as [|x l IH]; intros prev; [split; [by repeat constructor|done]|].
  cbn [in_order]. rewrite andb_true_iff, IH, Z.leb_le. split.
  - intros [Hx Hs]. constructor; [done|]. constructor; [lia|]. apply StronglySorted_inv in Hs as [_ Hs].
    eapply Forall_impl; [exact Hs|]. intros y Hy. cbv beta in Hy. lia.
  - intros [Hs Hf]%StronglySorted_inv. apply Forall_cons in Hf as [Hx _]. split; [lia|done].
Qed.

Lemma sorted_app_r {A} (R : A -> A -> Prop) (l1 l2 : list A) :
  StronglySorted R (l1 ++ l2) -> StronglySorted R l2.
Proof. induction l1 as [|x l1 IH]; [done|]. intros [Hs _]%StronglySorted_inv. by apply IH. Qed.

(** Skipping elements keeps the order. *)
Lemma sorted_skip {A} (R : A -> A -> Prop) (x : A) l n :
  StronglySorted R (x :: l) -> StronglySorted R (x :: drop n l).
Proof.
  intros [Hs Hf]%StronglySorted_inv. rewrite <- (take_drop n l) in Hs, Hf. constructor.
  - by apply sorted_app_r in Hs.
  - by apply Forall_app in Hf as [_ Hf].
Qed.

(** A field that is sorted is found to be: ascending when its
    values never fall, descending when they never rise and are not all equal.
    When the first two values differ the converse holds as well: the answer is
    right for every field. *)
Theorem is_sorted_alldef_correct (X : list Z) :
  X <> [] ->
  (StronglySorted Z.le X -> is_sorted_alldef X (zlen X) = Ok ascending) /\
  (StronglySorted Z.ge X -> ~ StronglySorted Z.le X -> is_sorted_alldef X (zlen X) = Ok descending) /\
  (X !z 0 <> X !z 1 ->
     (is_sorted_alldef X (zlen X) = Ok ascending -> StronglySorted Z.le X) /\
     (is_sorted_alldef X (zlen X) = Ok descending -> StronglySorted Z.ge X)).
Proof.
  intros Hne. destruct X as [|a X']; [done|]. clear Hne.
  destruct (leading_run (a :: X') a X' eq_refl) as [E|(k & b & rest & E & Hab & Hk)].
  - assert (is_sorted_alldef (a :: X') (zlen (a :: X')) = Ok ascending) as Hr.
    { rewrite E at 1 2. apply is_sorted_constant. simpl. lia. }
    assert (StronglySorted Z.le (a :: X')) as Hs.
    { rewrite E. apply SSorted_lookup. intros i j x y _ Hx Hy.
      apply lookup_replicate in Hx as [-> _]. apply lookup_replicate in Hy as [-> _]. lia. }
    rewrite Hr. split_and!; [done|done|]. intros _. by split.
  - rewrite E. rewrite is_sorted_two by done. split_and!.
    + intros Hs. assert (a < b) as Hlt.
      { destruct k as [|k]; [lia|]. apply StronglySorted_inv in Hs as [_ Hf].
        apply Forall_app in Hf as [_ Hf]. apply Forall_cons in Hf as [Hf _]. lia. }
      rewrite (proj2 (Z.ltb_lt a b)) by done. apply sorted_app_r in Hs.
      by rewrite (proj2 (in_order_up b _)) by (by apply sorted_skip).
    + intros Hs _. assert (b < a) as Hlt.
      { destruct k as [|k]; [lia|]. apply StronglySorted_inv in Hs as [_ Hf].
        apply Forall_app in Hf as [_ Hf]. apply Forall_cons in Hf as [Hf _]. lia. }
      rewrite (proj2 (Z.ltb_ge a b)) by lia. apply sorted_app_r in Hs.
      by rewrite (proj2 (in_order_down b _)) by (by apply sorted_skip).
    + intros Hfirst. destruct k as [|[|k]]; [lia| |done].
      change (drop (1 - 1) rest) with rest. cbn [replicate app].
      destruct (Z.ltb_spec a b);
        [destruct (in_order true b rest) eqn:Ho|destruct (in_order false b rest) eqn:Ho];
        split; intros Hr; simpl in Hr; try discriminate Hr; clear Hr.
      * apply in_order_up in Ho. constructor; [done|]. constructor; [lia|].
        apply StronglySorted_inv in Ho as [_ Hf]. eapply Forall_impl; [exact Hf|]. intros y Hy. cbv beta in Hy. lia.
      * apply in_order_down in Ho. constructor; [done|]. constructor; [lia|].
        apply StronglySorted_inv in Ho as [_ Hf]. eapply Forall_impl; [exact Hf|]. intros y Hy. cbv beta in Hy. lia.
Qed.

(** After [k] equal values and a greater one the next [k - 1]
    values are not looked at: whatever they are, the answer is ascending. *)
Theorem is_sorted_alldef_misses (k : nat) (a b : Z) (rest : list Z) :
  a < b -> (length rest < k)%nat ->
  is_sorted_alldef (replicate k a ++ b :: rest) (zlen (replicate k a ++ b :: rest)) = Ok ascending.
Proof.
  intros Hab Hk. rewrite is_sorted_two by lia. rewrite drop_ge by lia.
  by rewrite (proj2 (Z.ltb_lt a b)) by done.
Qed.

Lemma is_sorted_alldef_correct_witness :
  is_sorted_alldef [1; 2; 2] 3 = Ok ascending /\ StronglySorted Z.le [1; 2; 2].
Proof.
  split; [reflexivity|].
  apply (is_sorted_alldef_correct [1; 2; 2]); [discriminate|intros H; discriminate H|reflexivity].
Defined.

Lemma is_sorted_alldef_misses_witness : is_sorted_alldef [4; 4; 4; 5; 1; 2] 6 = Ok ascending.
Proof. apply (is_sorted_alldef_misses 3 4 5 [1; 2]); [lia|simpl; lia]. Defined.

End IsSorted.
