(* ===== verification/Elem.v ===== *)
(** * Element-wise kernels.

    The kernels of src/src/AUX that compute every row of a field from the same
    row of one or two other fields: arithmetic, shifts, comparisons, logical
    and bitwise operations on two fields (add2_I4.c, ..., cmp_eq_F4.c) or on a
    field and a scalar (add_scalar_I4.c, ...), operations on one field
    (incr_I4.c, bitcount_I4.c, vec_sqrt_F4.c, ...) and conversions
    (conv_I4_to_F4.c, ...); nn_core.c, concat_I4_I4_to_I8.c,
    vec_normal_cdf_inverse.c and vec_pval_from_zval.c of dir_helpers.

    A cell of an integer type is its signed value ([char] is signed); kernels
    for unsigned cells convert what they read and write.  An overflow of signed
    arithmetic, a division by zero and a shift by the width or more are [Ub]. *)

From stdpp Require Import prelude.
From Stdlib Require Import ZArith Lia SpecFloat.
From S2P Require Import Prelude Types Reduce.
Import Reduce.

(** ** Arithmetic of C on [w] bits *)

Definition sint (w z : Z) : res Z := if decide (- 2 ^ (w - 1) <= z < 2 ^ (w - 1)) then Ok z else Ub.
Definition c_add (w x y : Z) : res Z := sint w (x + y).
Definition c_sub (w x y : Z) : res Z := sint w (x - y).
Definition c_mul (w x y : Z) : res Z := sint w (x * y).
Definition c_div (w x y : Z) : res Z := if y =? 0 then Ub else sint w (Z.quot x y).
Definition c_rem (w x y : Z) : res Z := if y =? 0 then Ub else _ ← sint w (Z.quot x y); Ok (Z.rem x y).
Definition c_shl (w x y : Z) : res Z :=
  if (0 <=? y) && (y <? w) && (0 <=? x) then sint w (Z.shiftl x y) else Ub.
(** Both operands are converted to unsigned. *)
Definition c_shr (w x y : Z) : res Z :=
  if wrapU w y <? w then Ok (wrapS w (Z.shiftr (wrapU w x) (wrapU w y))) else Ub.
(** Operands of type [short] are promoted to [int], the result is stored in
    a [short]. *)
Definition c_short (f : Z -> Z -> Z -> res Z) (x y : Z) : res Z := z ← f 32 x y; Ok (wrapS 16 z).

Definition pure2 {A B C} (f : A -> B -> C) (x : A) (y : B) : res C := Ok (f x y).
Definition c_cmp {A} (r : A -> A -> bool) (x y : A) : res Z := Ok (Z.b2z (r x y)).
Definition c_and (x y : Z) : bool := negb (x =? 0) && negb (y =? 0).
Definition c_or (x y : Z) : bool := negb (x =? 0) || negb (y =? 0).
Definition neqb (x y : Z) : bool := negb (x =? y).
Definition flt_ne (x y : float) : bool := negb (SFeqb x y).
Definition flt_ge (x y : float) : bool := SFleb y x.
Definition and_not (x y : Z) : Z := Z.land x (Z.lnot y).

(** ** Loops

    [for ( i = 0; i < nR; i++ ) { out[i] = f(in1[i], in2[i]); }], the pointers
    being at [lb]. *)
Fixpoint map2_loop {A B C} (f : A -> B -> res C) (n : nat) (in1 : list A) (in2 : list B) (i : Z)
    (out : list C) : res (list C) :=
  match n with
  | O => Ok out
  | S n =>
      x ← rd in1 i; y ← rd in2 i;
      z ← f x y;
      out ← wr out i z;
      map2_loop f n in1 in2 (i + 1) out
  end.
Definition map2 {A B C} (f : A -> B -> res C) (in1 : list A) (in2 : list B) (lb nR : Z) (out : list C) : res (list C) :=
  map2_loop f (Z.to_nat nR) in1 in2 lb out.

(** One field: the input is read from [i], the output written from [j]. *)
Fixpoint map1_loop {A C} (f : A -> res C) (n : nat) (inp : list A) (i : Z) (out : list C) (j : Z) : res (list C) :=
  match n with
  | O => Ok out
  | S n =>
      x ← rd inp i;
      z ← f x;
      out ← wr out j z;
      map1_loop f n inp (i + 1) out (j + 1)
  end.
Definition map_scalar {A B C} (f : A -> B -> res C) (in1 : list A) (in2 : B) (lb nR : Z) (out : list C) : res (list C) :=
  map1_loop (fun x => f x in2) (Z.to_nat nR) in1 lb out lb.
(** The kernels on one field get the number of rows as an [int]. *)
Definition map1 {A C} (f : A -> res C) (inp : list A) (i nR : Z) (out : list C) (j : Z) : res (list C) :=
  map1_loop f (Z.to_nat (wrapS 32 nR)) inp i out j.

(** ** Two fields *)

Definition add2_I4 := map2 (c_add 32).
Definition add2_I8 := map2 (c_add 64).
Definition sub2_I4 := map2 (c_sub 32).
Definition sub2_I8 := map2 (c_sub 64).
Definition mul2_I4 := map2 (c_mul 32).
Definition mul2_I8 := map2 (c_mul 64).
Definition div2_I4 := map2 (c_div 32).
Definition div2_I8 := map2 (c_div 64).
Definition rem2_I4 := map2 (c_rem 32).
Definition rem2_I8 := map2 (c_rem 64).
Definition shiftleft2_I4 := map2 (c_shl 32).
Definition shiftleft2_I8 := map2 (c_shl 64).
Definition shiftright2_UI4 := map2 (c_shr 32).
Definition shiftright2_UI8 := map2 (c_shr 64).

Definition flt_add := SFadd 24 128.
Definition flt_sub := SFsub 24 128.
Definition flt_mul := SFmul 24 128.
Definition flt_div := SFdiv 24 128.
Definition dbl_sub := SFsub 53 1024.
Definition dbl_mul := SFmul 53 1024.
Definition dbl_div := SFdiv 53 1024.

Definition add2_F4 := map2 (pure2 flt_add).
Definition add2_F8 := map2 (pure2 dbl_add).
Definition sub2_F4 := map2 (pure2 flt_sub).
Definition sub2_F8 := map2 (pure2 dbl_sub).
Definition mul2_F4 := map2 (pure2 flt_mul).
Definition mul2_F8 := map2 (pure2 dbl_mul).
Definition div2_F4 := map2 (pure2 flt_div).
Definition div2_F8 := map2 (pure2 dbl_div).

Definition and2_I1 := map2 (c_cmp c_and).
Definition or2_I1 := map2 (c_cmp c_or).
Definition a_and_not_b_I1 := map2 (pure2 and_not).
Definition bwise_and2_I1 := map2 (pure2 Z.land).
Definition bwise_and2_I4 := map2 (pure2 Z.land).
Definition bwise_and2_I8 := map2 (pure2 Z.land).
Definition bwise_or2_I1 := map2 (pure2 Z.lor).
Definition bwise_or2_I4 := map2 (pure2 Z.lor).
Definition bwise_or2_I8 := map2 (pure2 Z.lor).
Definition bwise_xor2_I1 := map2 (pure2 Z.lxor).
Definition bwise_xor2_I4 := map2 (pure2 Z.lxor).
Definition bwise_xor2_I8 := map2 (pure2 Z.lxor).
Definition bwise_a_and_not_b_I8 := map2 (pure2 and_not).
Definition nn_core := map2 (pure2 Z.land).

Definition cmp_eq_I1 := map2 (c_cmp Z.eqb).
Definition cmp_eq_I4 := map2 (c_cmp Z.eqb).
Definition cmp_eq_I8 := map2 (c_cmp Z.eqb).
Definition cmp_eq_F4 := map2 (c_cmp SFeqb).
Definition cmp_ne_I1 := map2 (c_cmp neqb).
Definition cmp_ne_I4 := map2 (c_cmp neqb).
Definition cmp_ne_I8 := map2 (c_cmp neqb).
Definition cmp_ne_F4 := map2 (c_cmp flt_ne).
Definition cmp_lt_I1 := map2 (c_cmp Z.ltb).
Definition cmp_lt_I4 := map2 (c_cmp Z.ltb).
Definition cmp_lt_I8 := map2 (c_cmp Z.ltb).
Definition cmp_lt_F4 := map2 (c_cmp SFltb).
Definition cmp_le_I1 := map2 (c_cmp Z.leb).
Definition cmp_le_I4 := map2 (c_cmp Z.leb).
Definition cmp_le_I8 := map2 (c_cmp Z.leb).
Definition cmp_le_F4 := map2 (c_cmp SFleb).
Definition cmp_gt_I1 := map2 (c_cmp Z.gtb).
Definition cmp_gt_I4 := map2 (c_cmp Z.gtb).
Definition cmp_gt_I8 := map2 (c_cmp Z.gtb).
Definition cmp_gt_F4 := map2 (c_cmp flt_gt).
Definition cmp_ge_I1 := map2 (c_cmp Z.geb).
Definition cmp_ge_I4 := map2 (c_cmp Z.geb).
Definition cmp_ge_I8 := map2 (c_cmp Z.geb).
Definition cmp_ge_F4 := map2 (c_cmp flt_ge).

(** Two words of 32 bits in one of 64; the index is an [int]. *)
Definition concat_words (x y : Z) : Z := wrapS 64 (Z.lor (Z.shiftl (wrapU 32 x) 32) (wrapU 32 y)).
Definition concat_I4_I4_to_I8 (X Y : list Z) (lb n : Z) (out : list Z) : res (list Z) :=
  if INT_MAX <? n then Ub else map2 (pure2 concat_words) X Y lb n out.

(** ** A field and a scalar *)

Definition add_scalar_I2 := map_scalar (c_short c_add).
Definition add_scalar_I4 := map_scalar (c_add 32).
Definition add_scalar_I8 := map_scalar (c_add 64).
Definition add_scalar_F4 := map_scalar (pure2 flt_add).
Definition add_scalar_F8 := map_scalar (pure2 dbl_add).
Definition sub_scalar_I2 := map_scalar (c_short c_sub).
Definition sub_scalar_I4 := map_scalar (c_sub 32).
Definition sub_scalar_I8 := map_scalar (c_sub 64).
Definition sub_scalar_F4 := map_scalar (pure2 flt_sub).
Definition sub_scalar_F8 := map_scalar (pure2 dbl_sub).
Definition mul_scalar_I2 := map_scalar (c_short c_mul).
Definition mul_scalar_I4 := map_scalar (c_mul 32).
Definition mul_scalar_I8 := map_scalar (c_mul 64).
Definition mul_scalar_F4 := map_scalar (pure2 flt_mul).
Definition mul_scalar_F8 := map_scalar (pure2 dbl_mul).
Definition div_scalar_I2 := map_scalar (c_short c_div).
Definition div_scalar_I4 := map_scalar (c_div 32).
Definition div_scalar_I8 := map_scalar (c_div 64).
Definition div_scalar_F4 := map_scalar (pure2 flt_div).
Definition div_scalar_F8 := map_scalar (pure2 dbl_div).
Definition rem_scalar_I2 := map_scalar (c_short c_rem).
Definition rem_scalar_I4 := map_scalar (c_rem 32).
Definition rem_scalar_I8 := map_scalar (c_rem 64).
Definition shift_left_scalar_I4 := map_scalar (c_shl 32).
Definition shift_left_scalar_I8 := map_scalar (c_shl 64).
Definition shift_right_scalar_UI4 := map_scalar (c_shr 32).
Definition shift_right_scalar_UI8 := map_scalar (c_shr 64).
Definition and_scalar_I1 := map_scalar (c_cmp c_and).
Definition or_scalar_I1 := map_scalar (c_cmp c_or).
Definition bwise_and_scalar_I1 := map_scalar (pure2 Z.land).
Definition bwise_and_scalar_I4 := map_scalar (pure2 Z.land).
Definition bwise_and_scalar_I8 := map_scalar (pure2 Z.land).
Definition bwise_or_scalar_I1 := map_scalar (pure2 Z.lor).
Definition bwise_or_scalar_I4 := map_scalar (pure2 Z.lor).
Definition bwise_or_scalar_I8 := map_scalar (pure2 Z.lor).
Definition bwise_xor_scalar_I1 := map_scalar (pure2 Z.lxor).
Definition bwise_xor_scalar_I4 := map_scalar (pure2 Z.lxor).
Definition bwise_xor_scalar_I8 := map_scalar (pure2 Z.lxor).

Definition cmp_eq_scalar_I1 := map_scalar (c_cmp Z.eqb).
Definition cmp_eq_scalar_I2 := map_scalar (c_cmp Z.eqb).
Definition cmp_eq_scalar_I4 := map_scalar (c_cmp Z.eqb).
Definition cmp_eq_scalar_I8 := map_scalar (c_cmp Z.eqb).
Definition cmp_eq_scalar_F4 := map_scalar (c_cmp SFeqb).
Definition cmp_eq_scalar_F8 := map_scalar (c_cmp SFeqb).
Definition cmp_ne_scalar_I1 := map_scalar (c_cmp neqb).
Definition cmp_ne_scalar_I4 := map_scalar (c_cmp neqb).
Definition cmp_ne_scalar_I8 := map_scalar (c_cmp neqb).
Definition cmp_ne_scalar_F4 := map_scalar (c_cmp flt_ne).
Definition cmp_ne_scalar_F8 := map_scalar (c_cmp flt_ne).
Definition cmp_lt_scalar_I1 := map_scalar (c_cmp Z.ltb).
Definition cmp_lt_scalar_I4 := map_scalar (c_cmp Z.ltb).
Definition cmp_lt_scalar_I8 := map_scalar (c_cmp Z.ltb).
Definition cmp_lt_scalar_F4 := map_scalar (c_cmp SFltb).
Definition cmp_lt_scalar_F8 := map_scalar (c_cmp SFltb).
Definition cmp_le_scalar_I1 := map_scalar (c_cmp Z.leb).
Definition cmp_le_scalar_I4 := map_scalar (c_cmp Z.leb).
Definition cmp_le_scalar_I8 := map_scalar (c_cmp Z.leb).
Definition cmp_le_scalar_F4 := map_scalar (c_cmp SFleb).
Definition cmp_le_scalar_F8 := map_scalar (c_cmp SFleb).
Definition cmp_gt_scalar_I1 := map_scalar (c_cmp Z.gtb).
Definition cmp_gt_scalar_I4 := map_scalar (c_cmp Z.gtb).
Definition cmp_gt_scalar_I8 := map_scalar (c_cmp Z.gtb).
Definition cmp_gt_scalar_F4 := map_scalar (c_cmp flt_gt).
Definition cmp_gt_scalar_F8 := map_scalar (c_cmp flt_gt).
Definition cmp_ge_scalar_I1 := map_scalar (c_cmp Z.geb).
Definition cmp_ge_scalar_I4 := map_scalar (c_cmp Z.geb).
Definition cmp_ge_scalar_I8 := map_scalar (c_cmp Z.geb).
Definition cmp_ge_scalar_F4 := map_scalar (c_cmp flt_ge).
Definition cmp_ge_scalar_F8 := map_scalar (c_cmp flt_ge).

(** Two scalars; the test of [cmp_gt_and_lt_I4] is the one of the code. *)
Definition map_two_scalars (r : Z -> Z -> Z -> bool) (in1 : list Z) (lb nR s1 s2 : Z) (out : list Z) : res (list Z) :=
  map1_loop (fun inval => Ok (Z.b2z (r inval s1 s2))) (Z.to_nat nR) in1 lb out lb.
Definition cmp_lt_or_gt_I4 := map_two_scalars (fun inval s1 s2 => (inval <? s1) || (s2 <? inval)).
Definition cmp_le_or_ge_I4 := map_two_scalars (fun inval s1 s2 => (inval <=? s1) || (s2 <=? inval)).
Definition cmp_gt_and_lt_I4 := map_two_scalars (fun inval s1 s2 => (s1 <? inval) && (s2 <=? inval)).
Definition cmp_ge_and_le_I4 := map_two_scalars (fun inval s1 s2 => (s1 <=? inval) && (inval <=? s2)).

(** ** One field *)

Definition c_not (x : Z) : res Z := Ok (Z.b2z (x =? 0)).
Definition c_compl (x : Z) : res Z := Ok (Z.lnot x).
Definition not_I1 := map1 c_not.
Definition not_I4 := map1 c_not.
Definition not_I8 := map1 c_not.
Definition ones_complement_I1 := map1 c_compl.
Definition ones_complement_I4 := map1 c_compl.
Definition ones_complement_I8 := map1 c_compl.
Definition incr_I4 := map1 (fun val => c_add 32 val 1).
Definition incr_I8 := map1 (fun val => c_add 64 val 1).
Definition decr_I4 := map1 (fun val => c_sub 32 val 1).
Definition decr_I8 := map1 (fun val => c_sub 64 val 1).

Fixpoint bit_loop (iters : nat) (temp irslt : Z) : Z :=
  match iters with
  | O => irslt
  | S iters => bit_loop iters (Z.shiftr temp 1) (irslt + Z.land temp 1)
  end.
Definition bitcount_I4 := map1 (fun x => Ok (bit_loop 32 (wrapU 32 x) 0)).
Definition bitcount_I8 := map1 (fun x => Ok (bit_loop 64 (wrapU 64 x) 0)).

(** ** Conversions *)

Definition flt_of_Z (x : Z) : float := binary_normalize 24 128 x 0 false.
Definition dbl_of_Z (x : Z) : float := binary_normalize 53 1024 x 0 false.
(** [double] to [float] *)
Definition narrow (x : float) : float :=
  match x with
  | S754_finite s m e => binary_normalize 24 128 (cond_Zopp s (Zpos m)) e s
  | _ => x
  end.
(** Towards zero; a value that the type of [w] bits does not have is
    undefined. *)
Definition trunc_Z (w : Z) (x : float) : res Z :=
  match x with
  | S754_zero _ => Ok 0
  | S754_finite s m e => sint w (cond_Zopp s (Z.shiftl (Zpos m) e))
  | S754_infinity _ | S754_nan => Ub
  end.

Definition conv_I1_to_I4 := map1 (fun x => Ok (x : Z)).
Definition conv_I1_to_I8 := map1 (fun x => Ok (x : Z)).
Definition conv_I2_to_I4 := map1 (fun x => Ok (x : Z)).
Definition conv_I2_to_I8 := map1 (fun x => Ok (x : Z)).
Definition conv_I4_to_I1 := map1 (fun x => Ok (wrapS 8 x)).
Definition conv_I4_to_I2 := map1 (fun x => Ok (wrapS 16 x)).
Definition conv_I4_to_I8 := map1 (fun x => Ok (x : Z)).
Definition conv_I4_to_F4 := map1 (fun x => Ok (flt_of_Z x)).
Definition conv_I4_to_F8 := map1 (fun x => Ok (dbl_of_Z x)).
Definition conv_I8_to_I1 := map1 (fun x => Ok (wrapS 8 x)).
Definition conv_I8_to_I4 := map1 (fun x => Ok (wrapS 32 x)).
Definition conv_I8_to_F4 := map1 (fun x => Ok (flt_of_Z x)).
Definition conv_I8_to_F8 := map1 (fun x => Ok (dbl_of_Z x)).
Definition conv_F4_to_I4 := map1 (trunc_Z 32).
Definition conv_F4_to_I8 := map1 (trunc_Z 64).
Definition conv_F4_to_F8 := map1 (fun x => Ok (widen x)).
Definition conv_F8_to_I4 := map1 (trunc_Z 32).
Definition conv_F8_to_I8 := map1 (trunc_Z 64).
Definition conv_F8_to_F4 := map1 (fun x => Ok (narrow x)).

(** ** Functions of a [double] *)

Definition one_F8 : float := dbl_of_Z 1.
Definition vec_sqrt_F4 := map1 (fun x => Ok (narrow (SFsqrt 53 1024 (widen x)))).
Definition vec_sqrt_F8 := map1 (fun x => Ok (SFsqrt 53 1024 x)).
Definition vec_abs_F4 := map1 (fun x => Ok (SFabs x)).
Definition vec_abs_F8 := map1 (fun x => Ok (SFabs x)).
Definition vec_reciprocal_F4 := map1 (fun x => Ok (narrow (dbl_div one_F8 (widen x)))).
Definition vec_reciprocal_F8 := map1 (fun x => Ok (dbl_div one_F8 x)).

(** The constant [m / 10^k]: both numbers are exact in double precision. *)
Definition dec_const (m k : Z) : float := dbl_div (dbl_of_Z m) (dbl_of_Z (10 ^ k)).

Definition rational_approximation (t : float) : float :=
  let '(c0, c1, c2) := (dec_const 2515517 6, dec_const 802853 6, dec_const 10328 6) in
  let '(d0, d1, d2) := (dec_const 1432788 6, dec_const 189269 6, dec_const 1308 6) in
  let poly a2 a1 a0 := dbl_add (dbl_mul (dbl_add (dbl_mul a2 t) a1) t) a0 in
  dbl_sub t (dbl_div (poly c2 c1 c0) (dbl_add (dbl_mul (poly d2 d1 d0) t) one_F8)).

Section libm.
(** The functions of the mathematical library whose results C leaves open. *)
Variables log exp : float -> float.

Definition minus_one_F8 : float := dbl_of_Z (-1).
Definition normal_cdf_inverse (inval : float) : float :=
  let root x := SFsqrt 53 1024 (dbl_mul (dbl_of_Z (-2)) (log x)) in
  if SFltb inval (dec_const 5 1) then dbl_mul minus_one_F8 (rational_approximation (root inval))
  else rational_approximation (root (dbl_sub one_F8 inval)).

(** [nn_X] is indexed and moved: row [i] has its flag in [nn_X[2 * i]]. *)
Fixpoint cdf_loop (n : nat) (inp : list float) (i : Z) (nn_X : list Z) (k : Z) (out : list float) (j : Z)
    : res (list float * list Z) :=
  match n with
  | O => Ok (out, nn_X)
  | S n =>
      inval ← rd inp i;
      let outside := SFleb inval fzero || SFleb one_F8 inval in
      nn_X ← wr nn_X (2 * k) (if outside then 0 else 1);
      out ← wr out j (if outside then fzero else normal_cdf_inverse inval);
      cdf_loop n inp (i + 1) nn_X (k + 1) out (j + 1)
  end.
Definition vec_normal_cdf_inverse (inp : list float) (i nR : Z) (nn_X : option (list Z)) (out : list float) (j : Z)
    : res (list float * list Z) :=
  cdf_loop (Z.to_nat (wrapS 32 nR)) inp i (default [] nn_X) 0 out j.

Definition horner (x : float) (cs : list float) : float :=
  match cs with
  | [] => fzero
  | c :: cs => foldl (fun build c => dbl_add (dbl_mul build x) c) c cs
  end.
Definition normcdf (tvalue : float) : float :=
  let xabs := SFabs tvalue in
  let cumnorm :=
    if SFltb (dbl_of_Z 37) xabs then fzero
    else
      let exponential := exp (dbl_div (dbl_mul minus_one_F8 (dbl_mul xabs xabs)) (dbl_of_Z 2)) in
      let cumnorm :=
        if SFltb xabs (dec_const 707106781186547 14) then
          let p := horner xabs [dec_const 352624965998911 16; dec_const 700383064443688 15; dec_const 637396220353165 14;
            dec_const 339128660783830 13; dec_const 112079291497871 12; dec_const 221213596169931 12; dec_const 220206867912376 12] in
          let q := horner xabs [dec_const 883883476483184 16; dec_const 175566716318264 14; dec_const 160641775792070 13;
            dec_const 867807322029461 13; dec_const 296564248779674 12; dec_const 637333633378831 12; dec_const 793826512519948 12;
            dec_const 440413735824752 12] in
          dbl_div (dbl_mul exponential p) q
        else
          let build := dbl_add xabs (dec_const 65 2) in
          let build := foldl (fun b k => dbl_add xabs (dbl_div (dbl_of_Z k) b)) build [4; 3; 2; 1] in
          dbl_div (dbl_div exponential build) (dec_const 2506628274631 12) in
      if SFltb fzero tvalue then dbl_sub one_F8 cumnorm else cumnorm in
  cumnorm.
Definition normPvalue (tvalue : float) : float := dbl_mul (dbl_of_Z 2) (dbl_sub one_F8 (normcdf tvalue)).
Definition vec_pval_from_zval := map1 (fun x => Ok (normPvalue x)).
End libm.

(** ** The loops

    [patched Zs a b out out']: [out'] is [out] with the cells from [a] to [b]
    taken from [Zs]. *)
Section patched.
Context {C : Type}.
Implicit Types Zs out : list C.

Definition patched Zs (a b : Z) out out' : Prop :=
  zlen out' = zlen out /\ forall j, out' !z j = if decide (a <= j < b) then Zs !z j else out !z j.

Lemma patched_refl Zs a out : patched Zs a a out out.
Proof. split; [done|]. intros j. by rewrite decide_False by lia. Qed.

Lemma patched_trans Zs a b c out1 out2 out3 :
  a <= b -> b <= c -> patched Zs a b out1 out2 -> patched Zs b c out2 out3 -> patched Zs a c out1 out3.
Proof.
  intros Hab Hbc [L1 H1] [L2 H2]. split; [congruence|]. intros j. rewrite H2, H1.
  repeat case_decide; done || lia.
Qed.

Lemma patched_all Zs out out' : zlen Zs = zlen out -> patched Zs 0 (zlen Zs) out out' -> out' = Zs.
Proof.
  intros Hl [L H]. apply zlookup_ext; [congruence|]. intros j Hj. rewrite H. by rewrite decide_True by lia.
Qed.

Lemma patched_wr Zs i z out :
  0 <= i < zlen out -> Zs !z i = Some z -> exists out', wr out i z = Ok out' /\ patched Zs i (i + 1) out out'.
Proof.
  intros Hi Hz. eexists. split; [by apply wr_Ok|]. split; [apply zlen_zset|].
  intros j. rewrite zlookup_zset by done. repeat case_decide; subst; done || lia.
Qed.
End patched.

(** A row of two inputs and one output. *)
Definition row2 {A B C} (f : A -> B -> res C) (in1 : list A) (in2 : list B) (Zs : list C) (k : Z) : Prop :=
  exists x y z, in1 !z k = Some x /\ in2 !z k = Some y /\ f x y = Ok z /\ Zs !z k = Some z.
Definition row1 {A C} (f : A -> res C) (inp : list A) (Zs : list C) (i j : Z) : Prop :=
  exists x z, inp !z i = Some x /\ f x = Ok z /\ Zs !z j = Some z.

Lemma map2_loop_ok {A B C} (f : A -> B -> res C) n in1 in2 Zs : forall i out,
  0 <= i -> i + Z.of_nat n <= zlen out -> (forall k, i <= k < i + Z.of_nat n -> row2 f in1 in2 Zs k) ->
  exists out', map2_loop f n in1 in2 i out = Ok out' /\ patched Zs i (i + Z.of_nat n) out out'.
Proof.
  induction n as [|n IH]; intros i out Hi Hl Hr.
  { exists out. split; [done|]. rewrite Z.add_0_r. apply patched_refl. }
  destruct (Hr i ltac:(lia)) as (x & y & z & Hx & Hy & Hf & Hz). cbn [map2_loop].
  apply rd_Ok in Hx as ->. apply rd_Ok in Hy as ->. cbn [mbind res_bind]. rewrite Hf. cbn [mbind res_bind].
  destruct (patched_wr Zs i z out ltac:(lia) Hz) as (out1 & -> & P1). cbn [mbind res_bind].
  destruct (IH (i + 1) out1) as (out2 & -> & P2); [lia|destruct P1 as [-> _]; lia|intros; apply Hr; lia|].
  exists out2. split; [done|].
  replace (i + Z.of_nat (S n)) with (i + 1 + Z.of_nat n) by lia. by eapply (patched_trans Zs i (i + 1)); try lia.
Qed.

Lemma map2_ok {A B C} (f : A -> B -> res C) in1 in2 Zs lb ub out :
  0 <= lb <= ub -> ub <= zlen out -> (forall k, lb <= k < ub -> row2 f in1 in2 Zs k) ->
  exists out', map2 f in1 in2 lb (ub - lb) out = Ok out' /\ patched Zs lb ub out out'.
Proof.
  intros Hlb Hub Hr. destruct (map2_loop_ok f (Z.to_nat (ub - lb)) in1 in2 Zs lb out) as (out' & H1 & H2).
  - lia.
  - lia.
  - intros k Hk. apply Hr. lia.
  - exists out'. split; [done|]. replace ub with (lb + Z.of_nat (Z.to_nat (ub - lb))) at 1 by lia. done.
Qed.

Lemma map1_loop_ok {A C} (f : A -> res C) n inp Zs : forall i j out,
  0 <= j -> j + Z.of_nat n <= zlen out -> (forall k, 0 <= k < Z.of_nat n -> row1 f inp Zs (i + k) (j + k)) ->
  exists out', map1_loop f n inp i out j = Ok out' /\ patched Zs j (j + Z.of_nat n) out out'.
Proof.
  induction n as [|n IH]; intros i j out Hj Hl Hr.
  { exists out. split; [done|]. rewrite Z.add_0_r. apply patched_refl. }
  destruct (Hr 0 ltac:(lia)) as (x & z & Hx & Hf & Hz). rewrite !Z.add_0_r in *. cbn [map1_loop].
  apply rd_Ok in Hx as ->. cbn [mbind res_bind]. rewrite Hf. cbn [mbind res_bind].
  destruct (patched_wr Zs j z out ltac:(lia) Hz) as (out1 & -> & P1). cbn [mbind res_bind].
  destruct (IH (i + 1) (j + 1) out1) as (out2 & -> & P2); [lia|destruct P1 as [-> _]; lia| |].
  { intros k Hk. specialize (Hr (k + 1) ltac:(lia)).
    by replace (i + 1 + k) with (i + (k + 1)) by lia; replace (j + 1 + k) with (j + (k + 1)) by lia. }
  exists out2. split; [done|].
  replace (j + Z.of_nat (S n)) with (j + 1 + Z.of_nat n) by lia. by eapply (patched_trans Zs j (j + 1)); try lia.
Qed.

Lemma map_scalar_ok {A B C} (f : A -> B -> res C) in1 in2 Zs lb ub out :
  0 <= lb <= ub -> ub <= zlen out -> (forall k, lb <= k < ub -> row1 (fun x => f x in2) in1 Zs k k) ->
  exists out', map_scalar f in1 in2 lb (ub - lb) out = Ok out' /\ patched Zs lb ub out out'.
Proof.
  intros Hlb Hub Hr.
  destruct (map1_loop_ok (fun x => f x in2) (Z.to_nat (ub - lb)) in1 Zs lb lb out) as (out' & H1 & H2).
  - lia.
  - lia.
  - intros k Hk. apply Hr. lia.
  - exists out'. split; [done|]. replace ub with (lb + Z.of_nat (Z.to_nat (ub - lb))) at 1 by lia. done.
Qed.

Lemma map1_ok {A C} (f : A -> res C) inp Zs i j n out :
  0 <= j -> 0 <= n <= INT_MAX -> j + n <= zlen out -> (forall k, 0 <= k < n -> row1 f inp Zs (i + k) (j + k)) ->
  exists out', map1 f inp i n out j = Ok out' /\ patched Zs j (j + n) out out'.
Proof.
  intros Hj Hn Hl Hr. unfold map1, INT_MAX in *. rewrite wrapS_small by (unfold inS; lia).
  destruct (map1_loop_ok f (Z.to_nat n) inp Zs i j out) as (out' & H1 & H2).
  - lia.
  - lia.
  - intros k Hk. apply Hr. lia.
  - exists out'. split; [done|]. replace n with (Z.of_nat (Z.to_nat n)) at 1 by lia. done.
Qed.

Lemma map1_loop_ext {A C} (f g : A -> res C) n inp : (forall x, f x = g x) ->
  forall i out j, map1_loop f n inp i out j = map1_loop g n inp i out j.
Proof.
  intros Hfg. induction n as [|n IH]; intros i out j; cbn [map1_loop]; [done|].
  destruct (rd inp i) as [x| | |]; cbn [mbind res_bind]; try done. rewrite Hfg.
  destruct (g x) as [z| | |]; cbn [mbind res_bind]; try done. by destruct (wr out j z); cbn [mbind res_bind].
Qed.

(** A whole file. *)
Lemma map1_all {A C} (f : A -> res C) inp Zs n out :
  0 <= n <= INT_MAX -> zlen out = n -> zlen Zs = n -> (forall k, 0 <= k < n -> row1 f inp Zs k k) ->
  map1 f inp 0 n out 0 = Ok Zs.
Proof.
  intros Hn Lo Lz Hr. destruct (map1_ok f inp Zs 0 0 n out) as (o & -> & P); try lia; [by intros; apply Hr|].
  f_equal. apply (patched_all Zs out); [lia|]. by rewrite Lz.
Qed.

(** A row that is not defined stops the loop. *)
Lemma map2_loop_Ub {A B C} (f : A -> B -> res C) n in1 in2 : forall i out,
  0 <= i -> i + Z.of_nat n <= zlen out -> i + Z.of_nat n <= zlen in1 -> i + Z.of_nat n <= zlen in2 ->
  (forall x y, f x y = Ub \/ exists z, f x y = Ok z) ->
  (exists k x y, i <= k < i + Z.of_nat n /\ in1 !z k = Some x /\ in2 !z k = Some y /\ f x y = Ub) ->
  map2_loop f n in1 in2 i out = Ub.
Proof.
  induction n as [|n IH]; intros i out Hi Hl H1 H2 Hf (k & x & y & Hk & Hx & Hy & Hu); [lia|].
  cbn [map2_loop]. destruct (rd_total in1 i) as [a Ha]; [lia|]. destruct (rd_total in2 i) as [b Hb]; [lia|].
  rewrite Ha, Hb. cbn [mbind res_bind]. destruct (decide (k = i)) as [->|Hne].
  - apply rd_Ok in Ha, Hb. simplify_eq. by rewrite Hu.
  - destruct (Hf a b) as [->|[z ->]]; [done|]. cbn [mbind res_bind].
    rewrite wr_Ok by lia. cbn [mbind res_bind]. apply IH; rewrite ?zlen_zset; try lia; try done.
    exists k, x, y. split; [lia|done].
Qed.

Lemma map2_loop_len {A B C} (f : A -> B -> res C) n in1 in2 : forall i out out',
  map2_loop f n in1 in2 i out = Ok out' -> zlen out' = zlen out.
Proof.
  induction n as [|n IH]; intros i out out'; cbn [map2_loop]; [by intros [= <-]|].
  intros (x & _ & (y & _ & (z & _ & (o & Ho & H)%res_bind_Ok)%res_bind_Ok)%res_bind_Ok)%res_bind_Ok.
  apply IH in H. unfold wr in Ho. case_decide; [|done]. injection Ho as <-. by rewrite zlen_zset in H.
Qed.

Lemma map2_loop_no_Err {A B C} (f : A -> B -> res C) n in1 in2 (P : A -> B -> C -> Prop) :
  (forall x y, f x y = Ub \/ exists z, f x y = Ok z /\ P x y z) -> forall i out,
  map2_loop f n in1 in2 i out <> Err /\ map2_loop f n in1 in2 i out <> NoFuel.
Proof.
  intros Hf. induction n as [|n IH]; intros i out; cbn [map2_loop]; [done|].
  unfold rd, wr. destruct (in1 !z i) as [x|]; [|done]. destruct (in2 !z i) as [y|]; [|done]. cbn [mbind res_bind].
  destruct (Hf x y) as [->|(z & -> & _)]; [done|]. cbn [mbind res_bind]. case_decide; [|done]. cbn [mbind res_bind].
  apply IH.
Qed.

(** ** Ranges *)
Lemma sint_Ok w z : inS w z -> sint w z = Ok z.
Proof. unfold inS, sint. intros. by rewrite decide_True. Qed.
Lemma sint_inv w z v : sint w z = Ok v -> v = z /\ inS w z.
Proof. unfold inS, sint. case_decide; [intros [= <-]; done|done]. Qed.
Lemma sint_cases w z : sint w z = Ub \/ sint w z = Ok z.
Proof. unfold sint. case_decide; auto. Qed.

(** A number has [w] bits when the bits from [w - 1] on are all equal. *)
Lemma inS_shiftr w z : 0 < w -> inS w z <-> Z.shiftr z (w - 1) = 0 \/ Z.shiftr z (w - 1) = -1.
Proof.
  intros Hw. rewrite Z.shiftr_div_pow2 by lia. unfold inS.
  assert (0 < 2 ^ (w - 1)) by (apply Z.pow_pos_nonneg; lia). set (m := 2 ^ (w - 1)) in *.
  pose proof (Z.div_mod z m ltac:(lia)). pose proof (Z.mod_pos_bound z m ltac:(lia)). clearbody m. split; nia.
Qed.

Section ranges.
Context (w : Z) (Hw : 0 < w).

Lemma land_inS x y : inS w x -> inS w y -> inS w (Z.land x y).
Proof. rewrite !inS_shiftr, Z.shiftr_land by done. intros [->| ->] [->| ->]; rewrite ?Z.land_0_r, ?Z.land_m1_r; auto. Qed.
Lemma lor_inS x y : inS w x -> inS w y -> inS w (Z.lor x y).
Proof. rewrite !inS_shiftr, Z.shiftr_lor by done. intros [->| ->] [->| ->]; rewrite ?Z.lor_0_r, ?Z.lor_m1_r; auto. Qed.
Lemma lxor_inS x y : inS w x -> inS w y -> inS w (Z.lxor x y).
Proof. rewrite !inS_shiftr, Z.shiftr_lxor by done. intros [->| ->] [->| ->]; rewrite ?Z.lxor_0_r; auto. Qed.
Lemma lnot_inS x : inS w x -> inS w (Z.lnot x).
Proof. unfold inS, Z.lnot. lia. Qed.
End ranges.
