(* ===== verification/Vec.v ===== *)
(** * Element-wise operators.

    Models how an operator on two fields selects a kernel and runs it block by
    block (dir_helpers/vec_f1f2opf3.c), the types of the results of operators
    (dir_dbutils/get_type_op_fld.c) and the size test of dir_dbutils/mk_file.c;
    the loops over blocks and the files are those of VecScalar.v and VecUnary.v
    too.

    A file is a column of cells of its type, zeros when it is new.  A bit field
    is the list of its words of 64 bits. *)

From stdpp Require Import prelude strings.
From Stdlib Require Import ZArith Lia SpecFloat Ascii.
From S2P Require Import Prelude Search CString Types Reduce Elem.
Import Reduce.

(** ** Types of results

    [old] is what the variable for the result holds before: some branches
    leave it as it is. *)
Definition one_of (op : string) (l : list string) : bool := existsb (strcmp_eq op) l.

Definition get_type_binary (op : string) (f1_fldtype f2_fldtype old : FLD_TYPE) : res FLD_TYPE :=
  if one_of op ["+"; "-"; "*"; "/"; "^"; "|"; "&"; "%"; "<<"; ">>"]%string then
    match f1_fldtype, f2_fldtype with
    | I4, I4 => Ok I4 | I2, I2 => Ok I2 | F4, F4 => Ok F4 | I8, I8 => Ok I8 | F8, F8 => Ok F8
    | _, _ => Err
    end
  else if one_of op ["<="; ">="; "=="; "!="; "<"; ">"; "<||>"; "<=||>="; ">&&<"; ">=&&<="]%string then
    _ ← go_BYE_if (bool_decide (f1_fldtype <> f2_fldtype));
    match f1_fldtype with
    | I1 | I2 | I4 | I8 | F4 | F8 => Ok I1
    | _ => Err
    end
  else if one_of op ["&&"; "&&!"; "||"]%string then
    match f1_fldtype, f2_fldtype with
    | I1, I1 => Ok I1 | B, B => Ok B
    | _, _ => Err
    end
  else Ok old.

Definition get_type_unary (op : string) (f1_fldtype : FLD_TYPE) (aux_info : option string) (old : FLD_TYPE)
    : res FLD_TYPE :=
  let aux := default EmptyString aux_info in
  let no_aux := null_or_empty aux_info in
  match f1_fldtype with
  | I4 =>
      if one_of op ["++"; "--"; "!"; "~"; "bitcount"; "cum"]%string then Ok I4
      else if strcmp_eq op "conv" then
        _ ← go_BYE_if no_aux;
        if strcmp_eq aux "I8" then Ok I8
        else if strcmp_eq aux "F4" then Ok F4
        else if strcmp_eq aux "I1" then Ok I1
        else Err
      else Err
  | I8 =>
      if strcmp_eq op "conv" then
        _ ← go_BYE_if no_aux;
        if strcmp_eq aux "I4" then Ok I4
        else if strcmp_eq aux "I8" then Ok I8
        else if strcmp_eq aux "F4" then Ok F4
        else Ok old
      else if strcmp_eq op "bitcount" then Ok I4
      else if one_of op ["++"; "--"; "!"; "~"; "cum"]%string then Ok I8
      else Err
  | I1 =>
      if strcmp_eq op "conv" then
        _ ← go_BYE_if no_aux;
        if strcmp_eq aux "I4" then Ok I4
        else if strcmp_eq aux "I8" then Ok I8
        else if strcmp_eq aux "F4" then Ok F4
        else Err
      else if one_of op ["!"; "~"]%string then Ok I1
      else if strcmp_eq op "cum" then Ok I4
      else Ok old
  | F4 =>
      if strcmp_eq op "conv" then
        _ ← go_BYE_if no_aux;
        if strcmp_eq aux "I4" then Ok I4
        else if strcmp_eq aux "I8" then Ok I8
        else if strcmp_eq aux "I1" then Ok I1
        else if strcmp_eq aux "F8" then Ok F8
        else Err
      else if one_of op ["sqrt"; "abs"]%string then Ok F4
      else Err
  | F8 => if one_of op ["sqrt"; "abs"; "normal_cdf_inverse"]%string then Ok F8 else Err
  | _ => Err
  end.

Definition get_type_op_fld (fn op : string) (f1_fldtype f2_fldtype : FLD_TYPE) (aux_info : option string)
    (old : FLD_TYPE) : res FLD_TYPE :=
  if strcmp_eq fn "f1f2opf3" && strcmp_eq op "concat" then Ok I8
  else if strcmp_eq fn "f1f2opf3" || strcmp_eq fn "f1s1opf2" then get_type_binary op f1_fldtype f2_fldtype old
  else if strcmp_eq fn "f1opf2" then get_type_unary op f1_fldtype aux_info old
  else Err.

(** ** Files *)

(** The size in [mk_file]: [lseek] returns the position [filesize - 1], which is kept in
    an [int]; -1 is taken for a failure. *)
Definition mk_size (filesize : Z) : res unit :=
  _ ← go_BYE_if (filesize <=? 0);
  go_BYE_if (wrapS 32 (filesize - 1) =? -1).

Definition new_column (t : FLD_TYPE) (nR : Z) : column :=
  match t with
  | F4 | F8 => Floats (replicate (Z.to_nat nR) fzero)
  | _ => Ints (replicate (Z.to_nat nR) 0)
  end.

(** A kernel that writes cells of type [t] in a file of type [f3type].  The
    other cases would write cells of one size in a file of another. *)
Definition out_ints (t f3type : FLD_TYPE) (op_X : column) (kernel : list Z -> res (list Z)) : res column :=
  match op_X with
  | Ints out => if decide (t = f3type) then out ← kernel out; Ok (Ints out) else Ub
  | Floats _ => Ub
  end.
Definition out_floats (t f3type : FLD_TYPE) (op_X : column) (kernel : list float -> res (list float)) : res column :=
  match op_X with
  | Floats out => if decide (t = f3type) then out ← kernel out; Ok (Floats out) else Ub
  | Ints _ => Ub
  end.

(** ** Blocks

    [for ( int tid = 0; tid < nT; tid++ ) { ... }], the body being run with the
    status so far ([true] for 0) and the output; [cBYE(status)] follows. *)
Fixpoint for_tids {S} (n : nat) (tid : Z) (body : Z -> bool -> S -> res (bool * S)) (ok : bool) (s : S) : res S :=
  match n with
  | O => if ok then Ok s else Err
  | Datatypes.S n => '(ok, s) ← body tid ok s; for_tids n (tid + 1) body ok s
  end.

(** [status = -1; continue;] on failure; on success the status stays
    ([keep]). *)
Definition keep {S} (ok : bool) (s : S) (r : res S) : res (bool * S) :=
  match r with
  | Ok s => Ok (ok, s)
  | Err => Ok (false, s)
  | Ub => Ub
  | NoFuel => NoFuel
  end.

(** ** Two fields *)

Definition f1f2opf3_I4 (f1_X f2_X : list Z) (op : string) (lb nX : Z) (f3type : FLD_TYPE) (op_X : column) : res column :=
  let run t kernel := out_ints t f3type op_X (kernel f1_X f2_X lb nX) in
  if strcmp_eq op "+" then run I4 add2_I4
  else if strcmp_eq op "-" then run I4 sub2_I4
  else if strcmp_eq op "*" then run I4 mul2_I4
  else if strcmp_eq op "/" then run I4 div2_I4
  else if strcmp_eq op "%" then run I4 rem2_I4
  else if strcmp_eq op "concat" then run I8 concat_I4_I4_to_I8
  else if strcmp_eq op ">=" then run I1 cmp_ge_I4
  else if strcmp_eq op "<=" then run I1 cmp_le_I4
  else if strcmp_eq op "==" then run I1 cmp_eq_I4
  else if strcmp_eq op "!=" then run I1 cmp_ne_I4
  else if strcmp_eq op ">" then run I1 cmp_gt_I4
  else if strcmp_eq op "<" then run I1 cmp_lt_I4
  else if strcmp_eq op "&" then run I4 bwise_and2_I4
  else if strcmp_eq op "|" then run I4 bwise_or2_I4
  else if strcmp_eq op "^" then run I4 bwise_xor2_I4
  else if strcmp_eq op "<<" then run I4 shiftleft2_I4
  else if strcmp_eq op ">>" then run I4 shiftright2_UI4
  else Err.

Definition f1f2opf3_I8 (f1_X f2_X : list Z) (op : string) (lb nX : Z) (f3type : FLD_TYPE) (op_X : column) : res column :=
  let run t kernel := out_ints t f3type op_X (kernel f1_X f2_X lb nX) in
  if strcmp_eq op "+" then run I8 add2_I8
  else if strcmp_eq op "-" then run I8 sub2_I8
  else if strcmp_eq op "*" then run I8 mul2_I8
  else if strcmp_eq op "/" then run I8 div2_I8
  else if strcmp_eq op "%" then run I8 rem2_I8
  else if strcmp_eq op ">=" then run I1 cmp_ge_I8
  else if strcmp_eq op "<=" then run I1 cmp_le_I8
  else if strcmp_eq op "==" then run I1 cmp_eq_I8
  else if strcmp_eq op "!=" then run I1 cmp_ne_I8
  else if strcmp_eq op ">" then run I1 cmp_gt_I8
  else if strcmp_eq op "<" then run I1 cmp_lt_I8
  else if strcmp_eq op "&" then run I8 bwise_and2_I8
  else if strcmp_eq op "a_and_not_b" then run I8 bwise_a_and_not_b_I8
  else if strcmp_eq op "|" then run I8 bwise_or2_I8
  else if strcmp_eq op "^" then run I8 bwise_xor2_I8
  else if strcmp_eq op "<<" then run I8 shiftleft2_I8
  else if strcmp_eq op ">>" then run I8 shiftright2_UI8
  else Err.

Definition f1f2opf3_F4 (f1_X f2_X : list float) (op : string) (lb nX : Z) (f3type : FLD_TYPE) (op_X : column) : res column :=
  let arith kernel := out_floats F4 f3type op_X (kernel f1_X f2_X lb nX) in
  let cmp kernel := out_ints I1 f3type op_X (kernel f1_X f2_X lb nX) in
  if strcmp_eq op "+" then arith add2_F4
  else if strcmp_eq op "-" then arith sub2_F4
  else if strcmp_eq op "*" then arith mul2_F4
  else if strcmp_eq op "/" then arith div2_F4
  else if strcmp_eq op ">=" then cmp cmp_ge_F4
  else if strcmp_eq op "<=" then cmp cmp_le_F4
  else if strcmp_eq op "==" then cmp cmp_eq_F4
  else if strcmp_eq op "!=" then cmp cmp_ne_F4
  else if strcmp_eq op ">" then cmp cmp_gt_F4
  else if strcmp_eq op "<" then cmp cmp_lt_F4
  else Err.

Definition f1f2opf3_F8 (f1_X f2_X : list float) (op : string) (lb nX : Z) (f3type : FLD_TYPE) (op_X : column) : res column :=
  let arith kernel := out_floats F8 f3type op_X (kernel f1_X f2_X lb nX) in
  if strcmp_eq op "+" then arith add2_F8
  else if strcmp_eq op "-" then arith sub2_F8
  else if strcmp_eq op "*" then arith mul2_F8
  else if strcmp_eq op "/" then arith div2_F8
  else Err.

Definition f1f2opf3_I1 (f1_X f2_X : list Z) (op : string) (lb nX : Z) (f3type : FLD_TYPE) (op_X : column) : res column :=
  let run kernel := out_ints I1 f3type op_X (kernel f1_X f2_X lb nX) in
  if strcmp_eq op "||" then run or2_I1
  else if strcmp_eq op "&&" then run and2_I1
  else if strcmp_eq op "&&!" then run a_and_not_b_I1
  else if strcmp_eq op "!=" then run cmp_ne_I1
  else if strcmp_eq op "==" then run cmp_eq_I1
  else Err.

(** Words of 64 bits: a block that begins inside a word is refused, the rows
    behind the last whole word of a block are left out. *)
Definition f1f2opf3_B (f1_X f2_X : list Z) (op : string) (lb nX : Z) (f3type : FLD_TYPE) (op_X : column) : res column :=
  _ ← go_BYE_if (negb (Z.quot lb 64 * 64 =? lb));
  let run kernel := out_ints B f3type op_X (kernel f1_X f2_X (Z.quot lb 64) (Z.quot nX 64)) in
  if strcmp_eq op "||" then run bwise_or2_I8
  else if strcmp_eq op "&&" then run bwise_and2_I8
  else if strcmp_eq op "&&!" then run bwise_a_and_not_b_I8
  else Err.

Definition f1f2opf3_block (f1type : FLD_TYPE) (f1_X f2_X : column) (op : string) (lb nX : Z) (f3type : FLD_TYPE)
    (op_X : column) : res column :=
  match f1type, f1_X, f2_X with
  | I4, Ints X, Ints Y => f1f2opf3_I4 X Y op lb nX f3type op_X
  | I8, Ints X, Ints Y => f1f2opf3_I8 X Y op lb nX f3type op_X
  | F4, Floats X, Floats Y => f1f2opf3_F4 X Y op lb nX f3type op_X
  | F8, Floats X, Floats Y => f1f2opf3_F8 X Y op lb nX f3type op_X
  | I1, Ints X, Ints Y => f1f2opf3_I1 X Y op lb nX f3type op_X
  | B, Ints X, Ints Y => f1f2opf3_B X Y op lb nX f3type op_X
  | (I4 | I8 | I1 | B | F4 | F8), _, _ => Ub
  | _, _, _ => Err
  end.

(** [memcpy(dst+lb, src+lb, nX)] and [assign_I1(dst+lb, src+lb, nX)] *)
Definition copy_bytes (src : list Z) (lb nX : Z) (dst : list Z) : res (list Z) :=
  map1_loop (fun x => Ok x) (Z.to_nat nX) src lb dst lb.
Definition assign_I1 := copy_bytes.

Definition nn_block (nn_f1_X nn_f2_X : option (list Z)) (lb nX : Z) (nn_op_X : list Z) : res (list Z) :=
  match nn_f1_X, nn_f2_X with
  | None, Some nn_f2_X => copy_bytes nn_f2_X lb nX nn_op_X
  | Some nn_f1_X, None => copy_bytes nn_f1_X lb nX nn_op_X
  | Some nn_f1_X, Some nn_f2_X => nn_core nn_f1_X nn_f2_X lb nX nn_op_X
  | None, None => Ok nn_op_X
  end.

(** The loop over blocks that all end without error or with [continue]. *)
Definition tid_blocks {S} (in_lb in_ub block_size nT : Z) (body : Z -> Z -> S -> res S) (s : S) : res S :=
  for_tids (Z.to_nat nT) 0
    (fun tid ok s => let '(lb, ub) := chunk in_lb in_ub block_size nT tid in keep ok s (body lb (ub - lb) s)) true s.

(** [nn_op_X] is [None] when it is NULL. *)
Definition vec_f1f2opf3 (in_lb in_ub : Z) (f1type f2type : FLD_TYPE) (f1_X : column) (nn_f1_X : option (list Z))
    (f2_X : column) (nn_f2_X : option (list Z)) (op : string) (f3type : FLD_TYPE) (op_X : column)
    (nn_op_X : option (list Z)) : res (column * option (list Z)) :=
  _ ← go_BYE_if (bool_decide (f1type <> f2type));
  '(block_size, nT) ← partition (in_ub - in_lb) 8192 (-1);
  nn_op_X ← match nn_f1_X, nn_f2_X with
    | None, None => Ok nn_op_X
    | _, _ => nn_op_X ← tid_blocks in_lb in_ub block_size nT (nn_block nn_f1_X nn_f2_X) (default [] nn_op_X);
              Ok (Some nn_op_X)
    end;
  op_X ← tid_blocks in_lb in_ub block_size nT
           (fun lb nX op_X => f1f2opf3_block f1type f1_X f2_X op lb nX f3type op_X) op_X;
  Ok (op_X, nn_op_X).

(** ** Reference semantics

    What an operator gives for a row, independent of kernels and blocks. *)

(** Arithmetic of integers of [w] bits, where it is defined. *)
Inductive int_sem (w : Z) : string -> Z -> Z -> Z -> Prop :=
| sem_add x y : inS w (x + y) -> int_sem w "+" x y (x + y)
| sem_sub x y : inS w (x - y) -> int_sem w "-" x y (x - y)
| sem_mul x y : inS w (x * y) -> int_sem w "*" x y (x * y)
| sem_div x y : y <> 0 -> inS w (Z.quot x y) -> int_sem w "/" x y (Z.quot x y)
| sem_rem x y : y <> 0 -> inS w (Z.quot x y) -> int_sem w "%" x y (Z.rem x y)
| sem_shl x y : 0 <= x -> 0 <= y < w -> inS w (x * 2 ^ y) -> int_sem w "<<" x y (x * 2 ^ y)
| sem_shr x y : 0 <= y < w -> int_sem w ">>" x y (wrapS w (x mod 2 ^ w / 2 ^ y))
| sem_and x y : int_sem w "&" x y (Z.land x y)
| sem_or x y : int_sem w "|" x y (Z.lor x y)
| sem_xor x y : int_sem w "^" x y (Z.lxor x y).

(** Comparisons, by the order of the operands; floating-point numbers may
    have none. *)
Definition cmp_rslt (op : string) (c : option comparison) : option bool :=
  if one_of op ["=="]%string then Some (bool_decide (c = Some Eq))
  else if one_of op ["!="]%string then Some (bool_decide (c <> Some Eq))
  else if one_of op ["<"]%string then Some (bool_decide (c = Some Lt))
  else if one_of op [">"]%string then Some (bool_decide (c = Some Gt))
  else if one_of op ["<="]%string then Some (bool_decide (c = Some Lt \/ c = Some Eq))
  else if one_of op [">="]%string then Some (bool_decide (c = Some Gt \/ c = Some Eq))
  else None.

Inductive flt_sem (prec emax : Z) : string -> float -> float -> float -> Prop :=
| sem_fadd x y : flt_sem prec emax "+" x y (SFadd prec emax x y)
| sem_fsub x y : flt_sem prec emax "-" x y (SFsub prec emax x y)
| sem_fmul x y : flt_sem prec emax "*" x y (SFmul prec emax x y)
| sem_fdiv x y : flt_sem prec emax "/" x y (SFdiv prec emax x y).

(** Logical operators on bytes. *)
Inductive logic_sem : string -> Z -> Z -> Z -> Prop :=
| sem_land x y : logic_sem "&&" x y (Z.b2z (bool_decide (x <> 0 /\ y <> 0)))
| sem_lor x y : logic_sem "||" x y (Z.b2z (bool_decide (x <> 0 \/ y <> 0)))
| sem_landn x y : logic_sem "&&!" x y (Z.land x (Z.lnot y)).

Inductive sem : FLD_TYPE -> string -> value -> value -> value -> Prop :=
| sem_I4 op x y z : int_sem 32 op x y z -> sem I4 op (Int x) (Int y) (Int z)
| sem_I8 op x y z : int_sem 64 op x y z -> sem I8 op (Int x) (Int y) (Int z)
| sem_cmp_I4 op x y b : cmp_rslt op (Some (x ?= y)) = Some b -> sem I4 op (Int x) (Int y) (Int (Z.b2z b))
| sem_cmp_I8 op x y b : cmp_rslt op (Some (x ?= y)) = Some b -> sem I8 op (Int x) (Int y) (Int (Z.b2z b))
| sem_eq_I1 x y : sem I1 "==" (Int x) (Int y) (Int (Z.b2z (bool_decide (x = y))))
| sem_ne_I1 x y : sem I1 "!=" (Int x) (Int y) (Int (Z.b2z (bool_decide (x <> y))))
| sem_I1 op x y z : logic_sem op x y z -> sem I1 op (Int x) (Int y) (Int z)
| sem_concat x y : sem I4 "concat" (Int x) (Int y) (Int (wrapS 64 (x mod 2 ^ 32 * 2 ^ 32 + y mod 2 ^ 32)))
| sem_F4 op x y z : flt_sem 24 128 op x y z -> sem F4 op (Flt x) (Flt y) (Flt z)
| sem_cmp_F4 op x y b : cmp_rslt op (SFcompare x y) = Some b -> sem F4 op (Flt x) (Flt y) (Int (Z.b2z b))
| sem_F8 op x y z : flt_sem 53 1024 op x y z -> sem F8 op (Flt x) (Flt y) (Flt z).

Definition cells (X : column) : list value :=
  match X with Ints X => Int <$> X | Floats X => Flt <$> X end.

(** A file has cells of its type. *)
Definition cells_of (t : FLD_TYPE) (X : column) : Prop :=
  match X with Ints _ => t <> F4 /\ t <> F8 | Floats _ => t = F4 \/ t = F8 end.

(** The kernel of a block as a loop over rows. *)
Inductive kernel := II (f : Z -> Z -> res Z) | FF (f : float -> float -> res float) | FI (f : float -> float -> res Z).

Definition run_kernel (k : kernel) (X Y : column) (lb nX : Z) (op_X : column) : res column :=
  match k, X, Y, op_X with
  | II f, Ints X, Ints Y, Ints out => out ← map2 f X Y lb nX out; Ok (Ints out)
  | FF f, Floats X, Floats Y, Floats out => out ← map2 f X Y lb nX out; Ok (Floats out)
  | FI f, Floats X, Floats Y, Ints out => out ← map2 f X Y lb nX out; Ok (Ints out)
  | _, _, _, _ => Ub
  end.
Definition row_kernel (k : kernel) (x y z : value) : Prop :=
  match k, x, y, z with
  | II f, Int x, Int y, Int z => f x y = Ok z
  | FF f, Flt x, Flt y, Flt z => f x y = Ok z
  | FI f, Flt x, Flt y, Int z => f x y = Ok z
  | _, _, _, _ => False
  end.

(** The type of its results. *)
Definition kernel_type (k : kernel) (t : FLD_TYPE) : Prop :=
  match k with FF _ => t = F4 \/ t = F8 | II _ | FI _ => t <> F4 /\ t <> F8 end.

(** ** Kernels and reference *)

Lemma c_shl_ok w x y : 0 <= x -> 0 <= y < w -> inS w (x * 2 ^ y) -> c_shl w x y = Ok (x * 2 ^ y).
Proof.
  intros Hx Hy Hz. unfold c_shl. rewrite (proj2 (Z.leb_le 0 y)), (proj2 (Z.ltb_lt y w)), (proj2 (Z.leb_le 0 x)) by lia.
  cbn [andb]. rewrite Z.shiftl_mul_pow2 by lia. by apply sint_Ok.
Qed.

Lemma c_shr_ok w x y : 0 < w -> 0 <= y < w -> c_shr w x y = Ok (wrapS w (x mod 2 ^ w / 2 ^ y)).
Proof.
  intros Hw Hy. unfold c_shr. assert (wrapU w y = y) as ->.
  { apply wrapU_small. unfold inU. pose proof (Z.pow_gt_lin_r 2 w ltac:(lia) ltac:(lia)). lia. }
  rewrite (proj2 (Z.ltb_lt _ _)) by lia. unfold wrapU. by rewrite Z.shiftr_div_pow2 by lia.
Qed.

Lemma concat_words_eq x y : concat_words x y = wrapS 64 (x mod 2 ^ 32 * 2 ^ 32 + y mod 2 ^ 32).
Proof.
  unfold concat_words, wrapU. f_equal. rewrite Z.shiftl_mul_pow2 by lia.
  pose proof (Z.mod_pos_bound y (2 ^ 32) ltac:(lia)) as Hy. set (a := x mod 2 ^ 32). set (b := y mod 2 ^ 32) in *.
  rewrite <- Z.lxor_lor, <- Z.add_nocarry_lxor; [done| |]; apply Z.bits_inj; intros i; rewrite Z.land_spec, Z.bits_0;
    (destruct (Z.ltb_spec i 0); [by rewrite !Z.testbit_neg_r by done|]);
    (destruct (Z.ltb_spec i 32);
      [by rewrite Z.mul_pow2_bits_low by lia|];
      rewrite (Z.bits_above_log2 b); [by rewrite andb_false_r|lia|];
      destruct (decide (b = 0)) as [->|]; [simpl; lia|]; apply Z.log2_lt_pow2; [lia|];
      apply (Z.lt_le_trans _ (2 ^ 32)); [lia|]; apply Z.pow_le_mono_r; lia).
Qed.

Lemma c_div_ok w x y : y <> 0 -> inS w (Z.quot x y) -> c_div w x y = Ok (Z.quot x y).
Proof. intros Hy Hq. unfold c_div. rewrite (proj2 (Z.eqb_neq _ _)) by done. by apply sint_Ok. Qed.
Lemma c_rem_ok w x y : y <> 0 -> inS w (Z.quot x y) -> c_rem w x y = Ok (Z.rem x y).
Proof. intros Hy Hq. unfold c_rem. rewrite (proj2 (Z.eqb_neq _ _)) by done. by rewrite sint_Ok. Qed.

(** The comparisons of the code are those of the reference. *)
Lemma cmp_eq_spec x y : (x =? y) = bool_decide (Some (x ?= y) = Some Eq).
Proof. rewrite Z.eqb_compare. by destruct (x ?= y). Qed.
Lemma cmp_ne_spec x y : neqb x y = bool_decide (Some (x ?= y) <> Some Eq).
Proof. unfold neqb. rewrite Z.eqb_compare. by destruct (x ?= y). Qed.
Lemma cmp_lt_spec x y : (x <? y) = bool_decide (Some (x ?= y) = Some Lt).
Proof. unfold Z.ltb. by destruct (x ?= y). Qed.
Lemma cmp_gt_spec x y : (x >? y) = bool_decide (Some (x ?= y) = Some Gt).
Proof. unfold Z.gtb. by destruct (x ?= y). Qed.
Lemma cmp_le_spec x y : (x <=? y) = bool_decide (Some (x ?= y) = Some Lt \/ Some (x ?= y) = Some Eq).
Proof. unfold Z.leb. by destruct (x ?= y). Qed.
Lemma cmp_ge_spec x y : (x >=? y) = bool_decide (Some (x ?= y) = Some Gt \/ Some (x ?= y) = Some Eq).
Proof. unfold Z.geb. by destruct (x ?= y). Qed.

(** Comparing the other way round. *)
Lemma SFcompare_swap x y : SFcompare y x = option_map CompOpp (SFcompare x y).
Proof.
  destruct x as [s|s| |s m e], y as [s'|s'| |s' m' e']; try destruct s; try destruct s'; try reflexivity;
    cbn; rewrite (Z.compare_antisym e e'); destruct (e ?= e'); cbn; try reflexivity;
    rewrite (Pos.compare_cont_antisym m m' Eq); by destruct (Pos.compare_cont _ m' m).
Qed.

Lemma flt_eq_spec x y : SFeqb x y = bool_decide (SFcompare x y = Some Eq).
Proof. unfold SFeqb. by destruct (SFcompare x y) as [[]|]. Qed.
Lemma flt_ne_spec x y : flt_ne x y = bool_decide (SFcompare x y <> Some Eq).
Proof. unfold flt_ne, SFeqb. by destruct (SFcompare x y) as [[]|]. Qed.
Lemma flt_lt_spec x y : SFltb x y = bool_decide (SFcompare x y = Some Lt).
Proof. unfold SFltb. by destruct (SFcompare x y) as [[]|]. Qed.
Lemma flt_gt_spec x y : flt_gt x y = bool_decide (SFcompare x y = Some Gt).
Proof. unfold flt_gt, flt_lt, SFltb. rewrite SFcompare_swap. by destruct (SFcompare x y) as [[]|]. Qed.
Lemma flt_le_spec x y : SFleb x y = bool_decide (SFcompare x y = Some Lt \/ SFcompare x y = Some Eq).
Proof. unfold SFleb. by destruct (SFcompare x y) as [[]|]. Qed.
Lemma flt_ge_spec x y : flt_ge x y = bool_decide (SFcompare x y = Some Gt \/ SFcompare x y = Some Eq).
Proof. unfold flt_ge, SFleb. rewrite SFcompare_swap. by destruct (SFcompare x y) as [[]|]. Qed.

Lemma c_add_ok w x y : inS w (x + y) -> c_add w x y = Ok (x + y).
Proof. apply sint_Ok. Qed.
Lemma c_sub_ok w x y : inS w (x - y) -> c_sub w x y = Ok (x - y).
Proof. apply sint_Ok. Qed.
Lemma c_mul_ok w x y : inS w (x * y) -> c_mul w x y = Ok (x * y).
Proof. apply sint_Ok. Qed.
Lemma eqb_spec x y : (x =? y) = bool_decide (x = y).
Proof. symmetry. destruct (Z.eqb_spec x y); [by apply bool_decide_true|by apply bool_decide_false]. Qed.
Lemma neqb_spec x y : neqb x y = bool_decide (x <> y).
Proof. unfold neqb. rewrite eqb_spec. symmetry. apply bool_decide_not. Qed.
Lemma c_and_spec x y : c_and x y = bool_decide (x <> 0 /\ y <> 0).
Proof. unfold c_and. rewrite !eqb_spec, <- !bool_decide_not, <- bool_decide_and. done. Qed.
Lemma c_or_spec x y : c_or x y = bool_decide (x <> 0 \/ y <> 0).
Proof. unfold c_or. rewrite !eqb_spec, <- !bool_decide_not, <- bool_decide_or. done. Qed.

Create HintDb row.
#[export] Hint Resolve c_add_ok c_sub_ok c_mul_ok eqb_spec neqb_spec c_and_spec c_or_spec c_div_ok c_rem_ok c_shl_ok c_shr_ok concat_words_eq cmp_eq_spec cmp_ne_spec cmp_lt_spec
  cmp_gt_spec cmp_le_spec cmp_ge_spec flt_eq_spec flt_ne_spec flt_lt_spec flt_gt_spec flt_le_spec flt_ge_spec : row.
#[export] Hint Extern 1 (0 < Zpos _) => reflexivity : row.

(** The comparison operators, one by one. *)
Ltac cmp_cases H :=
  unfold cmp_rslt, one_of in H; cbn [existsb] in H; rewrite ?orb_false_r in H;
  repeat match type of H with
  | (if strcmp_eq ?op ?s then _ else _) = Some _ =>
      let E := fresh "E" in destruct (strcmp_eq op s) eqn:E; [apply strcmp_eq_spec in E as -> | clear E]
  end; try discriminate H.

(** An operator that has a meaning and a type for its result is run by one
    kernel, which computes that meaning. *)
Ltac row_kernel_tac :=
  let x := fresh "x" in let y := fresh "y" in let z := fresh "z" in let H := fresh "H" in
  intros x y z H; inversion H; subst;
    repeat match goal with
    | H : int_sem _ _ _ _ _ |- _ => inversion H; subst; clear H
    | H : flt_sem _ _ _ _ _ _ |- _ => inversion H; subst; clear H
    | H : logic_sem _ _ _ _ |- _ => inversion H; subst; clear H
    | H : cmp_rslt _ _ = Some _ |- _ => cmp_cases H; injection H as <-
    end;
    cbn [row_kernel]; unfold pure2, c_cmp; repeat f_equal; auto with row.
Ltac block_kernel_tac :=
  intros [X|X] [Y|Y] lb nX [out|out] Hn HX HY Ho; cbn in HX, HY, Ho; try reflexivity; try (intuition discriminate);
    cbn [f1f2opf3_block f1f2opf3_I4]; unfold f1f2opf3_I4, concat_I4_I4_to_I8; cbn; rewrite (proj2 (Z.ltb_ge _ _)) by done;
    reflexivity.
Ltac by_kernel k := eexists (k _); split; [block_kernel_tac|split; [cbn; auto; done|row_kernel_tac]].

Lemma sem_kernel t op t3 old x0 y0 z0 :
  get_type_op_fld "f1f2opf3" op t t (Some ""%string) old = Ok t3 -> sem t op x0 y0 z0 ->
  exists k,
    (forall X Y lb nX op_X, nX <= INT_MAX -> cells_of t X -> cells_of t Y -> cells_of t3 op_X ->
       f1f2opf3_block t X Y op lb nX t3 op_X = run_kernel k X Y lb nX op_X) /\
    kernel_type k t3 /\
    (forall x y z, sem t op x y z -> row_kernel k x y z).
Proof.
  intros Ht Hs. inversion Hs; subst;
    repeat match goal with
    | H : int_sem _ _ _ _ _ |- _ => inversion H; subst; clear H
    | H : flt_sem _ _ _ _ _ _ |- _ => inversion H; subst; clear H
    | H : logic_sem _ _ _ _ |- _ => inversion H; subst; clear H
    | H : cmp_rslt _ _ = Some _ |- _ => cmp_cases H; clear H
    end; vm_compute in Ht; injection Ht as <-; clear Hs.
  all: first [by_kernel II | by_kernel FF | by_kernel FI].
Qed.

(** ** Blocks *)

(** An invariant of the rows written so far. *)
Lemma for_tids_ok {S} (Inv : Z -> S -> Prop) (body : Z -> bool -> S -> res (bool * S)) (bnd : Z -> Z) n : forall tid s,
  Inv (bnd tid) s ->
  (forall k s, tid <= k < tid + Z.of_nat n -> Inv (bnd k) s ->
     exists s', body k true s = Ok (true, s') /\ Inv (bnd (k + 1)) s') ->
  exists s', for_tids n tid body true s = Ok s' /\ Inv (bnd (tid + Z.of_nat n)) s'.
Proof.
  induction n as [|n IH]; intros tid s Hs Hb.
  { exists s. by rewrite Z.add_0_r. }
  cbn [for_tids]. destruct (Hb tid s ltac:(lia) Hs) as (s1 & -> & H1). cbn [mbind res_bind].
  replace (tid + Z.of_nat (Datatypes.S n)) with (tid + 1 + Z.of_nat n) by lia.
  apply IH; [done|]. intros k s2 Hk. apply Hb. lia.
Qed.

(** The blocks of a run: the rows from [tid * bs] to the next block, or to the
    end. *)
Lemma chunks_ok {S} (Inv : Z -> S -> Prop) n bs nT (body : Z -> Z -> bool -> S -> res (bool * S)) (s : S) :
  0 < bs -> 0 <= n - bs * nT < bs -> 0 < nT -> Inv 0 s ->
  (forall tid lb ub s, 0 <= tid < nT -> lb = tid * bs -> ub = (if tid =? nT - 1 then n else lb + bs) ->
     0 <= lb -> lb < ub -> ub <= n -> ub - lb < 2 * bs -> Inv lb s ->
     exists s', body lb (ub - lb) true s = Ok (true, s') /\ Inv ub s') ->
  exists s', for_tids (Z.to_nat nT) 0
      (fun tid ok s => let '(lb, ub) := chunk 0 n bs nT tid in body lb (ub - lb) ok s) true s = Ok s' /\ Inv n s'.
Proof.
  intros Hbs Hn HnT H0 Hb. set (bnd := fun tid => if tid =? nT then n else tid * bs).
  destruct (for_tids_ok Inv (fun tid ok s => let '(lb, ub) := chunk 0 n bs nT tid in body lb (ub - lb) ok s)
    bnd (Z.to_nat nT) 0 s) as (s' & H1 & H2).
  - unfold bnd. destruct (Z.eqb_spec 0 nT); [lia|done].
  - intros k s1 Hk Hs1. destruct (chunk 0 n bs nT k) as [lb ub] eqn:E.
    destruct (chunk_bounds n bs nT k lb ub Hbs Hn ltac:(lia) E) as (? & ? & ?).
    unfold chunk in E. injection E as Elb Eub.
    assert (bnd k = lb /\ bnd (k + 1) = ub) as [B1 B2].
    { unfold bnd. destruct (Z.eqb_spec k nT), (Z.eqb_spec (k + 1) nT), (Z.eqb_spec k (nT - 1)); lia. }
    rewrite B1 in Hs1. destruct (Hb k lb ub s1) as (s2 & -> & HI); try done; try lia.
    { subst. by rewrite Z.add_0_l. }
    { destruct (Z.eqb_spec k (nT - 1)); nia. }
    exists s2. by rewrite B2.
  - exists s'. split; [done|]. revert H2. unfold bnd. rewrite Z2Nat.id by lia. by rewrite Z.add_0_l, Z.eqb_refl.
Qed.

(** The blocks of the operators: [min_block] is 8192 or 1024. *)
Lemma blocks_partition {S} (Inv : Z -> S -> Prop) n min_block (s : S) :
  0 < n -> 0 < min_block -> n / min_block < INT_MAX ->
  exists bs nT, partition n min_block (-1) = Ok (bs, nT) /\
    forall s body, Inv 0 s ->
      (forall lb ub s, 0 <= lb -> lb < ub -> ub <= n -> ub - lb <= 4 * min_block -> Inv lb s ->
         exists s', body lb (ub - lb) s = Ok s' /\ Inv ub s') ->
      exists s', tid_blocks 0 n bs nT body s = Ok s' /\ Inv n s'.
Proof.
  intros Hn Hm Hq. destruct (partition_unlimited n min_block Hn Hm Hq) as (bs & nT & E & _).
  exists bs, nT. split; [done|]. intros s0 body H0 Hb.
  destruct (partition_Ok _ _ _ _ _ Hm Hq E) as (_ & ? & _ & ? & ? & _).
  pose proof (partition_block n min_block bs nT Hn Hm Hq E).
  apply (chunks_ok Inv n bs nT (fun lb nX ok s => keep ok s (body lb nX s)) s0); try done; try lia.
  intros tid lb ub s1 ? ? _ ? ? ? ? HI. destruct (Hb lb ub s1) as (s2 & -> & ?); try done; [lia|]. by exists s2.
Qed.

Lemma Forall3_rows {A B C VA VB VC} (i1 : A -> VA) (i2 : B -> VB) (i3 : C -> VC) (R : VA -> VB -> VC -> Prop)
    (f : A -> B -> res C) X Y Zs :
  (forall x y z, R (i1 x) (i2 y) z -> exists z', z = i3 z' /\ f x y = Ok z') ->
  Forall3 R (i1 <$> X) (i2 <$> Y) Zs ->
  exists zs, Zs = i3 <$> zs /\ zlen zs = zlen X /\ forall k, 0 <= k < zlen X -> row2 f X Y zs k.
Proof.
  intros HR. revert Y Zs. induction X as [|x X IH]; intros Y Zs H.
  { inversion H; subst. exists []. split; [done|]. split; [done|]. intros k Hk. unfold zlen in Hk. simpl in Hk. lia. }
  rewrite fmap_cons in H. apply Forall3_cons_inv_l in H as (v & k2 & z & Zs' & EY & -> & Hr & Ht).
  destruct Y as [|y Y]; [done|]. rewrite fmap_cons in EY. injection EY as <- <-.
  destruct (HR _ _ _ Hr) as (z' & -> & Hf). destruct (IH _ _ Ht) as (zs & -> & Hl & Hk).
  exists (z' :: zs). split; [done|]. split; [rewrite !zlen_cons; lia|]. intros k Hb. rewrite zlen_cons in Hb.
  destruct (decide (k = 0)) as [->|Hne].
  - exists x, y, z'. by rewrite !(zlookup_to_nat _ 0) by lia.
  - destruct (Hk (k - 1) ltac:(lia)) as (a & b & c & Ha & Hb' & Hc & Hz). exists a, b, c.
    rewrite zlookup_to_nat in Ha by lia. rewrite zlookup_to_nat in Hb' by lia. rewrite zlookup_to_nat in Hz by lia.
    rewrite !zlookup_to_nat by lia.
    replace (Z.to_nat k) with (Datatypes.S (Z.to_nat (k - 1))) by lia. done.
Qed.

(** The flags of rows that are defined: both operands are. *)
Definition nn_rslt (nn1 nn2 : option (list Z)) : option (list Z) :=
  match nn1, nn2 with
  | None, None => None
  | Some a, None | None, Some a => Some a
  | Some a, Some b => Some (zip_with Z.land a b)
  end.
Definition has_len (n : Z) (l : option (list Z)) : Prop := forall a, l = Some a -> zlen a = n.

Lemma nn_rslt_len n nn1 nn2 a : has_len n nn1 -> has_len n nn2 -> nn_rslt nn1 nn2 = Some a -> zlen a = n.
Proof.
  unfold has_len. intros H1 H2 Ha. destruct nn1 as [a1|], nn2 as [a2|]; simplify_eq/=; auto.
  unfold zlen in *. rewrite length_zip_with. specialize (H1 _ eq_refl). specialize (H2 _ eq_refl). lia.
Qed.

Lemma nn_blocks_ok n nn1 nn2 a out lb ub :
  has_len n nn1 -> has_len n nn2 -> nn_rslt nn1 nn2 = Some a -> zlen out = n -> 0 <= lb -> lb < ub -> ub <= n ->
  exists out', nn_block nn1 nn2 lb (ub - lb) out = Ok out' /\ patched a lb ub out out'.
Proof.
  intros H1 H2 Ha Hl Hlb Hlt Hub. unfold has_len in *.
  assert (forall src, zlen src = n -> exists out', copy_bytes src lb (ub - lb) out = Ok out' /\ patched src lb ub out out')
    as Hcopy.
  { intros src Hs. apply (map_scalar_ok (fun x (_ : unit) => Ok x) src tt); [lia|lia|]. intros k Hk.
    destruct (zlookup_is_Some src k) as [v Hv]; [lia|]. by exists v, v. }
  destruct nn1 as [a1|], nn2 as [a2|]; simpl in Ha; [|injection Ha as <-; cbn [nn_block]; apply Hcopy; auto..|done].
  injection Ha as <-. cbn [nn_block]. apply map2_ok; [lia|lia|]. intros k Hk.
  specialize (H1 _ eq_refl). specialize (H2 _ eq_refl).
  destruct (zlookup_is_Some a1 k) as [x Hx]; [lia|]. destruct (zlookup_is_Some a2 k) as [y Hy]; [lia|].
  exists x, y, (Z.land x y). split_and!; [done|done|done|].
  rewrite zlookup_to_nat in * by lia. rewrite lookup_zip_with, Hx. simpl. by rewrite Hy.
Qed.

(** A kernel that fills a file block by block. *)
Lemma map2_blocks {A B C S} (f : A -> B -> res C) X Y zs out (inj : list C -> S) min_block body :
  0 < zlen X -> 0 < min_block <= 8192 -> zlen X / min_block < INT_MAX ->
  (forall k, 0 <= k < zlen X -> row2 f X Y zs k) -> zlen zs = zlen X -> zlen out = zlen X ->
  (forall lb nX out, nX <= INT_MAX -> body lb nX (inj out) = out ← map2 f X Y lb nX out; Ok (inj out)) ->
  exists bs nT, partition (zlen X) min_block (-1) = Ok (bs, nT) /\ tid_blocks 0 (zlen X) bs nT body (inj out) = Ok (inj zs).
Proof.
  intros Hn Hm Hq Hr Hz Ho Hb. set (n := zlen X) in *.
  destruct (blocks_partition (fun lb s => exists o, s = inj o /\ patched zs 0 lb out o) n min_block (inj out))
    as (bs & nT & Hp & H); [done|lia|done|]. exists bs, nT. split; [done|].
  destruct (H (inj out) body) as (s & -> & o & -> & P).
  - exists out. split; [done|apply patched_refl].
  - intros lb ub s Hlb Hlt Hub Hs (o & -> & P).
    destruct (map2_ok f X Y zs lb ub o) as (o' & Ho' & P'); [lia|destruct P as [-> _]; lia|intros; apply Hr; lia|].
    exists (inj o'). split; [rewrite Hb by (unfold INT_MAX; lia); by rewrite Ho'|].
    exists o'. split; [done|]. apply (patched_trans zs 0 lb ub out o o'); try lia; done.
  - do 2 f_equal. apply (patched_all zs out); [lia|]. by rewrite Hz.
Qed.

Lemma nn_blocks n nn1 nn2 a out :
  0 < n -> n / 8192 < INT_MAX -> has_len n nn1 -> has_len n nn2 -> nn_rslt nn1 nn2 = Some a -> zlen out = n ->
  exists bs nT, partition n 8192 (-1) = Ok (bs, nT) /\ tid_blocks 0 n bs nT (nn_block nn1 nn2) out = Ok a.
Proof.
  intros Hn Hq H1 H2 Ha Hl.
  destruct (blocks_partition (fun lb o => patched a 0 lb out o) n 8192 out) as (bs & nT & Hp & H); [done..|].
  exists bs, nT. split; [done|]. destruct (H out (nn_block nn1 nn2)) as (o & -> & P).
  - apply patched_refl.
  - intros lb ub o Hlb Hlt Hub _ P.
    destruct (nn_blocks_ok n nn1 nn2 a o lb ub) as (o' & -> & P'); try done; [by destruct P as [-> _]|].
    exists o'. split; [done|]. by apply (patched_trans a 0 lb ub out o o'); try lia.
  - pose proof (nn_rslt_len n nn1 nn2 a H1 H2 Ha) as La. f_equal. apply (patched_all a out); [lia|].
    by rewrite La.
Qed.

Lemma kernel_blocks k X Y t3 op_X (P : value -> value -> value -> Prop) Zs body n :
  0 < n -> n / 8192 < INT_MAX -> zlen (cells X) = n -> zlen (cells op_X) = n ->
  kernel_type k t3 -> cells_of t3 op_X -> (forall x y z, P x y z -> row_kernel k x y z) ->
  Forall3 P (cells X) (cells Y) Zs ->
  (forall lb nX op_X, nX <= INT_MAX -> cells_of t3 op_X -> body lb nX op_X = run_kernel k X Y lb nX op_X) ->
  exists bs nT R, partition n 8192 (-1) = Ok (bs, nT) /\ tid_blocks 0 n bs nT body op_X = Ok R /\ cells R = Zs /\ cells_of t3 R.
Proof.
  intros Hn Hq HX HO Hk Hc HP HF Hb. apply (Forall3_impl _ (row_kernel k)) in HF; [|exact HP].
  assert (exists x y z, row_kernel k x y z /\ x ∈ cells X /\ y ∈ cells Y) as (x & y & z & Hr & Ex & Ey).
  { destruct (zlookup_is_Some (cells X) 0) as [x Hx]; [lia|]. rewrite zlookup_to_nat in Hx by lia.
    destruct (Forall3_lookup_l _ _ _ _ _ _ HF Hx) as (y & z & Hy & _ & Hr). exists x, y, z.
    split; [done|]. split; by eapply list_elem_of_lookup_2. }
  destruct k as [f|f|f], X as [X|X], Y as [Y|Y], op_X as [out|out]; cbn in Hk, Hc; try tauto;
    try (destruct x, y, z; cbn in Hr; try done; cbn in Ex, Ey;
         apply list_elem_of_fmap in Ex as (? & ? & _); apply list_elem_of_fmap in Ey as (? & ? & _); congruence).
  all: cbn in HX, HO; rewrite zlen_fmap in HX; rewrite zlen_fmap in HO; cbn [cells] in HF; subst n.
  1: apply (Forall3_rows _ _ Int _ f) in HF as (zs & -> & Hl & Hrow); [|by intros a b [c|c]; cbn; eauto].
  2: apply (Forall3_rows _ _ Flt _ f) in HF as (zs & -> & Hl & Hrow); [|by intros a b [c|c]; cbn; eauto].
  3: apply (Forall3_rows _ _ Int _ f) in HF as (zs & -> & Hl & Hrow); [|by intros a b [c|c]; cbn; eauto].
  1,3: destruct (map2_blocks f X Y zs out Ints 8192 body) as (bs & nT & E1 & E2); try lia; try done;
    [intros; by apply Hb|by exists bs, nT, (Ints zs)].
  destruct (map2_blocks f X Y zs out Floats 8192 body) as (bs & nT & E1 & E2); try lia; try done;
    [intros; by apply Hb|by exists bs, nT, (Floats zs)].
Qed.

(** Equal types and nn fields of the right length: the run is that of its
    blocks. *)
Lemma vec_f1f2opf3_run t X Y nn1 nn2 op t3 op_X nn_op_X n bs nT :
  0 < n -> n / 8192 < INT_MAX -> partition n 8192 (-1) = Ok (bs, nT) ->
  has_len n nn1 -> has_len n nn2 -> has_len n nn_op_X -> (nn_op_X = None -> nn_rslt nn1 nn2 = None) ->
  vec_f1f2opf3 0 n t t X nn1 Y nn2 op t3 op_X nn_op_X
  = R ← tid_blocks 0 n bs nT (fun lb nX op_X => f1f2opf3_block t X Y op lb nX t3 op_X) op_X;
    Ok (R, match nn_rslt nn1 nn2 with Some a => Some a | None => nn_op_X end).
Proof.
  intros Hn Hq Hp L1 L2 Ln Hnn. unfold vec_f1f2opf3, go_BYE_if. rewrite bool_decide_false by tauto.
  cbn [mbind res_bind]. rewrite Z.sub_0_r, Hp. cbn [mbind res_bind].
  destruct (nn_rslt nn1 nn2) as [a|] eqn:Ea.
  - destruct nn_op_X as [out|]; [|by specialize (Hnn eq_refl)].
    destruct (nn_blocks n nn1 nn2 a out) as (bs' & nT' & Hp' & Hnb); try done; [by apply Ln|].
    rewrite Hp in Hp'. injection Hp' as <- <-. change (default [] (Some out)) with out.
    destruct nn1, nn2; try done; by rewrite Hnb.
  - destruct nn1, nn2; done.
Qed.

(** Rows that all have a value: the blocks fill the file with these values. *)
Lemma op_blocks t op t3 old X Y op_X n Zs :
  0 < n -> n / 8192 < INT_MAX ->
  get_type_op_fld "f1f2opf3" op t t (Some ""%string) old = Ok t3 ->
  cells_of t X -> cells_of t Y -> cells_of t3 op_X -> zlen (cells X) = n -> zlen (cells op_X) = n ->
  Forall3 (sem t op) (cells X) (cells Y) Zs ->
  exists bs nT R, partition n 8192 (-1) = Ok (bs, nT) /\
    tid_blocks 0 n bs nT (fun lb nX op_X => f1f2opf3_block t X Y op lb nX t3 op_X) op_X = Ok R /\ cells R = Zs /\ cells_of t3 R.
Proof.
  intros Hn Hq Ht HX HY HO LX LO HF.
  destruct (zlookup_is_Some (cells X) 0) as [x Hx]; [lia|]. rewrite zlookup_to_nat in Hx by lia.
  destruct (Forall3_lookup_l _ _ _ _ _ _ HF Hx) as (y & z & _ & _ & Hs).
  destruct (sem_kernel t op t3 old x y z Ht Hs) as (k & Hb & Hk & Hr).
  apply (kernel_blocks k X Y t3 op_X (sem t op)); try done. intros; by apply Hb.
Qed.

(** Claim C5. An operator on two fields of any type, cut in blocks of rows:
    when every row has a value by the reference semantics, [vec_f1f2opf3]
    succeeds and writes exactly these values into the new file, whose cells
    are of the type that [get_type_op_fld] gave for the file; a row of the
    result is defined when the operands are (both flags, when both fields have
    nulls).  Bit fields have a theorem of their own. *)
Theorem vec_f1f2opf3_correct t op t3 old X Y nn1 nn2 op_X nn_op_X n Zs :
  0 < n -> n / 8192 < INT_MAX ->
  get_type_op_fld "f1f2opf3" op t t (Some ""%string) old = Ok t3 ->
  cells_of t X -> cells_of t Y -> cells_of t3 op_X ->
  zlen (cells X) = n -> zlen (cells op_X) = n ->
  has_len n nn1 -> has_len n nn2 -> has_len n nn_op_X -> (nn_op_X = None -> nn_rslt nn1 nn2 = None) ->
  Forall3 (sem t op) (cells X) (cells Y) Zs ->
  exists R,
    vec_f1f2opf3 0 n t t X nn1 Y nn2 op t3 op_X nn_op_X
    = Ok (R, match nn_rslt nn1 nn2 with Some a => Some a | None => nn_op_X end) /\
    cells R = Zs /\ cells_of t3 R.
Proof.
  intros Hn Hq Ht HX HY HO LX LO L1 L2 Ln Hnn HF.
  destruct (op_blocks t op t3 old X Y op_X n Zs) as (bs & nT & R & Hp & HR & HZ & Hc); try done.
  exists R. split; [|done]. rewrite (vec_f1f2opf3_run _ _ _ _ _ _ _ _ _ n bs nT) by done. by rewrite HR.
Qed.

Lemma vec_f1f2opf3_correct_witness :
  exists R,
    vec_f1f2opf3 0 3 I4 I4 (Ints [7; -7; 9]) (Some [1; 1; 0]) (Ints [2; 2; 3]) (Some [1; 0; 1]) "/" I4
      (new_column I4 3) (Some [0; 0; 0]) = Ok (R, Some [1; 0; 0]) /\
    cells R = [Int 3; Int (-3); Int 3] /\ cells_of I4 R.
Proof.
  apply (vec_f1f2opf3_correct I4 "/" I4 B (Ints [7; -7; 9]) (Ints [2; 2; 3]) (Some [1; 1; 0]) (Some [1; 0; 1])
    (new_column I4 3) (Some [0; 0; 0]) 3 [Int 3; Int (-3); Int 3]); try reflexivity; try (split; discriminate).
  - intros a [= <-]. reflexivity.
  - intros a [= <-]. reflexivity.
  - intros a [= <-]. reflexivity.
  - discriminate.
  - cbn [cells fmap list_fmap]. repeat (apply Forall3_cons || apply Forall3_nil).
    + apply sem_I4. apply (sem_div 32 7 2); [discriminate|split; [vm_compute; discriminate|reflexivity]].
    + apply sem_I4. apply (sem_div 32 (-7) 2); [discriminate|split; [vm_compute; discriminate|reflexivity]].
    + apply sem_I4. apply (sem_div 32 9 3); [discriminate|split; [vm_compute; discriminate|reflexivity]].
Defined.

(** ** Rows without a value *)

Lemma for_tids_Ub {S} (Inv : S -> Prop) (body : Z -> bool -> S -> res (bool * S)) n : forall tid s,
  Inv s ->
  (forall k s, tid <= k < tid + Z.of_nat n -> Inv s ->
     body k true s = Ub \/ exists s', body k true s = Ok (true, s') /\ Inv s') ->
  (exists k, tid <= k < tid + Z.of_nat n /\ forall s, Inv s -> body k true s = Ub) ->
  for_tids n tid body true s = Ub.
Proof.
  induction n as [|n IH]; intros tid s Hs Hb (k & Hk & Hu); [lia|]. cbn [for_tids].
  destruct (decide (k = tid)) as [->|Hne]; [by rewrite Hu|].
  destruct (Hb tid s ltac:(lia) Hs) as [->|(s' & -> & Hs')]; [done|]. cbn [mbind res_bind].
  apply IH; [done| |].
  - intros k' s1 Hk'. apply Hb. lia.
  - exists k. split; [lia|done].
Qed.

(** The block of a row. *)
Lemma chunk_of_row n bs nT k :
  0 < bs -> 0 <= n - bs * nT < bs -> 0 < nT -> 0 <= k < n ->
  exists tid lb ub, 0 <= tid < nT /\ chunk 0 n bs nT tid = (lb, ub) /\ lb <= k < ub.
Proof.
  intros Hbs Hn HnT Hk. exists (Z.min (k / bs) (nT - 1)).
  pose proof (Z.div_mod k bs ltac:(lia)). pose proof (Z.mod_pos_bound k bs ltac:(lia)).
  pose proof (Z.div_pos k bs ltac:(lia) ltac:(lia)). eexists _, _. split; [lia|]. split; [reflexivity|].
  destruct (Z.eqb_spec (Z.min (k / bs) (nT - 1)) (nT - 1)); nia.
Qed.

Definition arith_op (op : string) : Prop := op ∈ ["+"; "-"; "*"; "/"; "%"; "<<"; ">>"]%string.

(** Arithmetic gives the value of the reference, or is undefined. *)
Definition decides (w : Z) (op : string) (f : Z -> Z -> res Z) : Prop :=
  forall x y, f x y = Ub \/ exists z, f x y = Ok z /\ (inS w y -> int_sem w op x y z).

Section decides.
Context (w : Z) (Hw : 2 <= w).

Lemma sint_decides op (f : Z -> Z -> Z) :
  (forall x y, inS w (f x y) -> int_sem w op x y (f x y)) -> decides w op (fun x y => sint w (f x y)).
Proof.
  intros Hf x y. destruct (sint w (f x y)) eqn:E; unfold sint in E; case_decide; try done; [|by left].
  injection E as <-. right. eexists. split; [done|]. intros _. by apply Hf.
Qed.
Lemma c_div_decides : decides w "/" (c_div w).
Proof.
  intros x y. unfold c_div. destruct (Z.eqb_spec y 0); [by left|]. destruct (sint w (Z.quot x y)) eqn:E;
    unfold sint in E; case_decide; try done; [|by left].
  injection E as <-. right. eexists. split; [done|]. intros _. by apply sem_div.
Qed.
Lemma c_rem_decides : decides w "%" (c_rem w).
Proof.
  intros x y. unfold c_rem. destruct (Z.eqb_spec y 0); [by left|]. unfold sint. case_decide; [|by left].
  right. eexists. split; [done|]. intros _. by apply sem_rem.
Qed.
Lemma c_shl_decides : decides w "<<" (c_shl w).
Proof.
  intros x y. unfold c_shl. destruct (Z.leb_spec 0 y), (Z.ltb_spec y w), (Z.leb_spec 0 x); simpl; try by left.
  rewrite Z.shiftl_mul_pow2 by lia. unfold sint. case_decide; [|by left].
  right. eexists. split; [done|]. intros _. by apply sem_shl.
Qed.
Lemma c_shr_decides : decides w ">>" (c_shr w).
Proof.
  intros x y. unfold c_shr. destruct (Z.ltb_spec (wrapU w y) w) as [Hlt|]; [|by left].
  right. eexists. split; [done|]. intros Hy.
  pose proof (Z.pow_gt_lin_r 2 (w - 1) ltac:(lia) ltac:(lia)) as Hp.
  assert (2 ^ w = 2 * 2 ^ (w - 1)) as E2 by (rewrite <- (Z.pow_succ_r 2 (w - 1)) by lia; f_equal; lia).
  assert (0 <= y < w) as Hyw.
  { unfold wrapU, inS in *. destruct (Z.ltb_spec y 0).
    - replace (y mod 2 ^ w) with (y + 2 ^ w) in Hlt; [lia|]. symmetry.
      rewrite <- (Z.mod_add y 1) by lia. rewrite Z.mul_1_l. apply Z.mod_small. lia.
    - rewrite Z.mod_small in Hlt by lia. lia. }
  rewrite (wrapU_small w y) by (unfold inU; lia). unfold wrapU. rewrite Z.shiftr_div_pow2 by lia. by apply sem_shr.
Qed.
End decides.

Lemma arith_kernel t w op : (t = I4 /\ w = 32 \/ t = I8 /\ w = 64) -> arith_op op ->
  exists f, decides w op f /\
    forall X Y lb nX out, f1f2opf3_block t (Ints X) (Ints Y) op lb nX t (Ints out) = out ← map2 f X Y lb nX out; Ok (Ints out).
Proof.
  intros Ht Hop. unfold arith_op in Hop. rewrite !elem_of_cons in Hop.
  destruct Ht as [[-> ->]|[-> ->]]; destruct Hop as [->|[->|[->|[->|[->|[->|[->|Hno]]]]]]];
    try (by apply not_elem_of_nil in Hno); eexists; (split; [|intros; reflexivity]).
  all: first [apply (sint_decides _ _ Z.add); constructor; done | apply (sint_decides _ _ Z.sub); constructor; done
    | apply (sint_decides _ _ Z.mul); constructor; done | apply c_div_decides | apply c_rem_decides
    | apply c_shl_decides | apply c_shr_decides; by vm_compute].
Qed.

(** The block of a row without a value is undefined; the others succeed or are
    undefined too. *)
Lemma arith_blocks_Ub t w op f X Y n bs nT k x y out :
  decides w op f ->
  (forall X Y lb nX out, f1f2opf3_block t (Ints X) (Ints Y) op lb nX t (Ints out) = out ← map2 f X Y lb nX out; Ok (Ints out)) ->
  0 < bs -> 0 <= n - bs * nT < bs -> 0 < nT -> zlen X = n -> zlen Y = n -> zlen out = n ->
  X !z k = Some x -> Y !z k = Some y -> inS w y -> (forall z, ~ int_sem w op x y z) ->
  tid_blocks 0 n bs nT (fun lb nX op_X => f1f2opf3_block t (Ints X) (Ints Y) op lb nX t op_X) (Ints out) = Ub.
Proof.
  intros Hf Hb Hbs Hn HnT LX LY LO Hx Hy Hw Hno.
  assert (f x y = Ub) as Hfu by (destruct (Hf x y) as [|(z & _ & Hz)]; [done|]; by destruct (Hno z (Hz Hw))).
  pose proof (zlookup_Some_range _ _ _ Hx). destruct (chunk_of_row n bs nT k) as (tid & lb & ub & Htid & Ec & Hk); try lia.
  unfold tid_blocks. apply (for_tids_Ub (fun s => exists o, s = Ints o /\ zlen o = n)); [by eauto| |].
  - intros j s Hj (o & -> & Lo). destruct (chunk 0 n bs nT j) as [lb' ub'] eqn:Ej. rewrite Hb.
    destruct (map2 f X Y lb' (ub' - lb') o) as [o'| | |] eqn:E; cbn [mbind res_bind keep]; auto; unfold map2 in E.
    + right. exists (Ints o'). split; [done|]. exists o'. split; [done|]. apply map2_loop_len in E. lia.
    + by apply (map2_loop_no_Err f _ _ _ _ Hf) in E.
    + by apply (map2_loop_no_Err f _ _ _ _ Hf) in E.
  - exists tid. split; [lia|]. intros s (o & -> & Lo). rewrite Ec, Hb.
    destruct (chunk_bounds n bs nT tid lb ub Hbs Hn Htid Ec) as (? & ? & ?).
    unfold map2. rewrite map2_loop_Ub; [done|lia..| |].
    + intros a b. destruct (Hf a b) as [|(z & ? & _)]; [by left|right; by exists z].
    + exists k, x, y. split_and!; try done; lia.
Qed.

(** Arithmetic on integer fields that has no value in some row (a
    division by zero, an overflow, a shift by the width or more): the run is
    undefined, whatever the blocks. *)
Theorem vec_f1f2opf3_undefined t w op X Y nn1 nn2 out nn_op_X n k x y :
  (t = I4 /\ w = 32 \/ t = I8 /\ w = 64) -> arith_op op ->
  0 < n -> n / 8192 < INT_MAX -> zlen X = n -> zlen Y = n -> zlen out = n ->
  has_len n nn1 -> has_len n nn2 -> has_len n nn_op_X -> (nn_op_X = None -> nn_rslt nn1 nn2 = None) ->
  X !z k = Some x -> Y !z k = Some y -> inS w y -> (forall z, ~ int_sem w op x y z) ->
  vec_f1f2opf3 0 n t t (Ints X) nn1 (Ints Y) nn2 op t (Ints out) nn_op_X = Ub.
Proof.
  intros Ht Hop Hn Hq LX LY LO L1 L2 Ln Hnn Hx Hy Hw Hno.
  destruct (arith_kernel t w op Ht Hop) as (f & Hf & Hb).
  destruct (partition_unlimited n 8192 Hn ltac:(lia) Hq) as (bs & nT & Hp & _).
  destruct (partition_Ok n 8192 (-1) bs nT ltac:(lia) Hq Hp) as (_ & ? & _ & ? & ? & _).
  rewrite (vec_f1f2opf3_run _ _ _ _ _ _ _ _ _ n bs nT) by done.
  rewrite (arith_blocks_Ub t w op f X Y n bs nT k x y out); try done; lia.
Qed.

Lemma vec_f1f2opf3_undefined_witness :
  vec_f1f2opf3 0 2 I4 I4 (Ints [- 2 ^ 31; 1]) None (Ints [-1; 1]) None "/" I4 (Ints [0; 0]) None = Ub.
Proof.
  apply (vec_f1f2opf3_undefined I4 32 "/" [- 2 ^ 31; 1] [-1; 1] None None [0; 0] None 2 0 (- 2 ^ 31) (-1));
    try reflexivity; try done.
  - by left.
  - unfold arith_op. rewrite !elem_of_cons. tauto.
  - intros z Hz. inversion Hz as [| | |? ? ? Hr| | | | | |]; subst. destruct Hr as [_ Hr]. by vm_compute in Hr.
Defined.

(** ** Concatenation *)

(** Powers of two as numerals, division by its defining equations. *)
Ltac word_lia :=
  unfold wrapS, inS in *; change (2 ^ (64 - 1)) with 9223372036854775808 in *;
  change (2 ^ 64) with 18446744073709551616 in *; change (2 ^ (32 - 1)) with 2147483648 in *;
  change (2 ^ 32) with 4294967296 in *; Z.to_euclidean_division_equations; lia.

Lemma concat_low x y : inS 32 y -> wrapS 32 (concat_words x y) = y.
Proof. intros Hy. rewrite concat_words_eq. word_lia. Qed.
Lemma concat_high x y : inS 32 x -> inS 32 y -> wrapS 32 (Z.shiftr (concat_words x y) 32) = x.
Proof. intros Hx Hy. rewrite concat_words_eq, Z.shiftr_div_pow2 by lia. word_lia. Qed.

Lemma concat_lookup X Y k v :
  zip_with concat_words X Y !z k = Some v -> exists x y, X !z k = Some x /\ Y !z k = Some y /\ v = concat_words x y.
Proof.
  intros Hv. pose proof (zlookup_Some_range _ _ _ Hv). rewrite zlookup_to_nat in Hv by lia.
  apply lookup_zip_with_Some in Hv as (x & y & -> & Hx & Hy). exists x, y. by rewrite !zlookup_to_nat by lia.
Qed.

(** Concatenating two integer fields loses nothing: the field of 64
    bits that the kernel fills gives the second operand back when it is
    converted to I4, and the first one when the high words are. *)
Theorem concat_I4_I4_to_I8_halves X Y out :
  zlen X <= INT_MAX -> zlen Y = zlen X -> zlen out = zlen X -> Forall (inS 32) X -> Forall (inS 32) Y ->
  exists V, concat_I4_I4_to_I8 X Y 0 (zlen X) out = Ok V /\ Forall (inS 64) V /\
    conv_I8_to_I4 V 0 (zlen X) out 0 = Ok Y /\
    conv_I8_to_I4 ((fun v => Z.shiftr v 32) <$> V) 0 (zlen X) out 0 = Ok X.
Proof.
  intros Hmax LY LO HX HY. set (V := zip_with concat_words X Y). pose proof (zlen_nonneg X).
  assert (zlen V = zlen X) as LV by (unfold V, zlen in *; rewrite length_zip_with; lia).
  exists V. split_and!.
  - unfold concat_I4_I4_to_I8. rewrite (proj2 (Z.ltb_ge _ _)) by done. replace (zlen X) with (zlen X - 0) by lia.
    destruct (map2_ok (pure2 concat_words) X Y V 0 (zlen X) out) as (o & -> & P); [lia|lia| |].
    + intros k Hk. destruct (zlookup_is_Some V k) as [v Hv]; [lia|].
      destruct (concat_lookup X Y k v Hv) as (x & y & Hx & Hy & ->). by exists x, y, (concat_words x y).
    + f_equal. apply (patched_all V out); [lia|]. by rewrite LV.
  - apply Forall_lookup. intros i v Hv. rewrite <- zlookup_nat in Hv.
    destruct (concat_lookup _ _ _ _ Hv) as (x & y & _ & _ & ->). by apply wrapS_range.
  - apply map1_all; [lia..|]. intros k Hk. destruct (zlookup_is_Some V k) as [v Hv]; [lia|].
    destruct (concat_lookup X Y k v Hv) as (x & y & Hx & Hy & ->). exists (concat_words x y), y. split_and!; try done.
    f_equal. apply concat_low. by apply (Forall_zlookup _ Y k).
  - apply map1_all; [lia..|]. intros k Hk. destruct (zlookup_is_Some V k) as [v Hv]; [lia|].
    destruct (concat_lookup X Y k v Hv) as (x & y & Hx & Hy & ->). eexists _, x.
    split; [apply rd_Ok; by apply (rd_fmap (fun v => Z.shiftr v 32)) in Hv|]. split; [|done].
    f_equal. apply concat_high; [by apply (Forall_zlookup _ X k)|by apply (Forall_zlookup _ Y k)].
Qed.

Lemma concat_I4_I4_to_I8_halves_witness :
  exists V, concat_I4_I4_to_I8 [-5; 7] [8; -1] 0 2 [0; 0] = Ok V /\ Forall (inS 64) V /\
    conv_I8_to_I4 V 0 2 [0; 0] 0 = Ok [8; -1] /\
    conv_I8_to_I4 ((fun v => Z.shiftr v 32) <$> V) 0 2 [0; 0] 0 = Ok [-5; 7].
Proof.
  apply (concat_I4_I4_to_I8_halves [-5; 7] [8; -1] [0; 0]); try reflexivity.
  - by vm_compute.
  - repeat constructor; by vm_compute.
  - repeat constructor; by vm_compute.
Defined.

(** ** Bit fields *)

(** Row [i] of a bit field. *)
Definition row_bit (X : list Z) (i : Z) : bool :=
  match X !z (i / 64) with Some w => Z.testbit w (i mod 64) | None => false end.

Definition bool_op (op : string) : option (bool -> bool -> bool) :=
  if strcmp_eq op "||" then Some orb
  else if strcmp_eq op "&&" then Some andb
  else if strcmp_eq op "&&!" then Some (fun a b => a && negb b)
  else None.

Lemma bool_op_kernel op f : bool_op op = Some f ->
  exists g, (forall x y i, 0 <= i -> Z.testbit (g x y) i = f (Z.testbit x i) (Z.testbit y i)) /\
    forall X Y lb nX out, f1f2opf3_block B (Ints X) (Ints Y) op lb nX B (Ints out)
      = if Z.quot lb 64 * 64 =? lb
        then out ← map2 (pure2 g) X Y (Z.quot lb 64) (Z.quot nX 64) out; Ok (Ints out) else Err.
Proof.
  unfold bool_op.
  destruct (strcmp_eq op "||") eqn:E; [|destruct (strcmp_eq op "&&") eqn:E1; [|destruct (strcmp_eq op "&&!") eqn:E2; [|done]]];
    intros [= <-]; [exists Z.lor|exists Z.land|exists and_not]; (split; [intros x y i Hi|intros X Y lb nX out]).
  1: apply Z.lor_spec. 2: apply Z.land_spec. 3: unfold and_not; by rewrite Z.land_spec, Z.lnot_spec.
  all: cbn [f1f2opf3_block]; unfold f1f2opf3_B, go_BYE_if; rewrite ?E, ?E1, ?E2;
    destruct (Z.quot lb 64 * 64 =? lb); reflexivity.
Qed.

Lemma word_map (g : Z -> Z -> Z) (X Y : list Z) lb nX out :
  0 <= lb -> 0 <= nX -> lb + nX <= zlen X -> lb + nX <= zlen Y -> lb + nX <= zlen out ->
  exists out', map2 (pure2 g) X Y lb nX out = Ok out' /\ patched (zip_with g X Y) lb (lb + nX) out out'.
Proof.
  intros Hlb HnX LX LY LO.
  destruct (map2_ok (pure2 g) X Y (zip_with g X Y) lb (lb + nX) out) as (o & E & P); [lia|lia| |];
    [|exists o; split; [by replace (lb + nX - lb) with nX in E by lia|done]].
  intros k Hk. destruct (zlookup_is_Some X k) as [x Hx]; [lia|]. destruct (zlookup_is_Some Y k) as [y Hy]; [lia|].
  exists x, y, (g x y). split_and!; [done|done|done|]. rewrite zlookup_to_nat in * by lia.
  rewrite lookup_zip_with, Hx. simpl. by rewrite Hy.
Qed.

(** A logical operator on bit fields of fewer than 16384 rows: in
    the whole words the rows are combined as they should be, the rows behind
    the last whole word of 64 are left as the file was, zeros. *)
Theorem vec_f1f2opf3_B_whole_words op f X Y out n :
  0 < n < 16384 -> bool_op op = Some f -> n / 64 <= zlen X -> n / 64 <= zlen Y -> n / 64 <= zlen out ->
  exists R, vec_f1f2opf3 0 n B B (Ints X) None (Ints Y) None op B (Ints out) None = Ok (Ints R, None) /\
    zlen R = zlen out /\
    forall i, 0 <= i -> row_bit R i = if i <? n / 64 * 64 then f (row_bit X i) (row_bit Y i) else row_bit out i.
Proof.
  intros Hn Hop LX LY LO. destruct (bool_op_kernel op f Hop) as (g & Hg & Hb).
  assert (n / 8192 = 0 \/ n / 8192 = 1) as Hq.
  { pose proof (Z.div_mod n 8192 ltac:(lia)). pose proof (Z.mod_pos_bound n 8192 ltac:(lia)). lia. }
  assert (partition n 8192 (-1) = Ok (n, 1)) as Hp.
  { unfold partition, go_BYE_if. rewrite (proj2 (Z.leb_gt n 0)) by lia. cbn [mbind res_bind].
    replace (wrapS 32 (n / 8192)) with (n / 8192) by (destruct Hq as [-> | ->]; reflexivity).
    destruct Hq as [-> | ->]; cbn; rewrite Z.quot_1_r, Z.mul_1_r, Z.sub_diag, (proj2 (Z.leb_gt n 0)) by lia; cbn;
      rewrite (proj2 (Z.ltb_ge _ _)) by lia; reflexivity. }
  pose proof (Z.div_pos n 64 ltac:(lia) ltac:(lia)).
  destruct (word_map g X Y 0 (n / 64) out) as (R & HR & LR & PR); try lia. rewrite Z.add_0_l in PR.
  exists R. split; [|split; [done|]].
  - rewrite (vec_f1f2opf3_run _ _ _ _ _ _ _ _ _ n n 1); try done; try (unfold INT_MAX; lia).
    unfold tid_blocks. change (Z.to_nat 1) with 1%nat. cbn [for_tids]. unfold chunk. rewrite Z.eqb_refl, Hb.
    rewrite Z.sub_0_r, (Z.quot_div_nonneg n) by lia. change (0 + 0 * n) with 0.
    change (Z.quot 0 64) with 0. change (0 * 64 =? 0) with true. cbn iota. by rewrite HR.
  - intros i Hi. unfold row_bit. pose proof (Z.div_pos i 64 ltac:(lia) ltac:(lia)). rewrite PR.
    assert ((i <? n / 64 * 64) = bool_decide (0 <= i / 64 < n / 64)) as ->.
    { pose proof (Z.div_mod i 64 ltac:(lia)). pose proof (Z.mod_pos_bound i 64 ltac:(lia)).
      destruct (Z.ltb_spec i (n / 64 * 64)); symmetry; [apply bool_decide_true|apply bool_decide_false]; lia. }
    case_decide as Hd; [rewrite bool_decide_true by done|by rewrite bool_decide_false by done].
    destruct (zlookup_is_Some X (i / 64)) as [x Hx]; [lia|]. destruct (zlookup_is_Some Y (i / 64)) as [y Hy]; [lia|].
    rewrite Hx, Hy. rewrite zlookup_to_nat in * by lia. rewrite lookup_zip_with, Hx. simpl. rewrite Hy. simpl.
    apply Hg. apply Z.mod_pos_bound. lia.
Qed.

Lemma vec_f1f2opf3_B_whole_words_witness :
  exists R, vec_f1f2opf3 0 70 B B (Ints [6; -1]) None (Ints [12; -1]) None "&&!" B (Ints [0; 0]) None = Ok (Ints R, None) /\
    zlen R = 2 /\
    forall i, 0 <= i -> row_bit R i
      = if i <? 70 / 64 * 64 then row_bit [6; -1] i && negb (row_bit [12; -1] i) else row_bit [0; 0] i.
Proof.
  apply (vec_f1f2opf3_B_whole_words "&&!" (fun a b => a && negb b) [6; -1] [12; -1] [0; 0] 70);
    [lia|reflexivity|by vm_compute..].
Defined.

(** A block that fails makes the run fail, if none is undefined. *)
Lemma for_tids_Err {S} (Inv : S -> Prop) (body : Z -> bool -> S -> res (bool * S)) n : forall tid ok s,
  Inv s ->
  (forall k ok s, tid <= k < tid + Z.of_nat n -> Inv s ->
     exists ok' s', body k ok s = Ok (ok', s') /\ Inv s' /\ (ok' = true -> ok = true)) ->
  ok = false \/ (exists k, tid <= k < tid + Z.of_nat n /\ forall ok s, Inv s -> exists s', body k ok s = Ok (false, s')) ->
  for_tids n tid body ok s = Err.
Proof.
  induction n as [|n IH]; intros tid ok s Hs Hb Hf; cbn [for_tids].
  { destruct Hf as [->|(k & Hk & _)]; [done|lia]. }
  destruct (Hb tid ok s ltac:(lia) Hs) as (ok' & s' & E & Hs' & Hok). rewrite E. cbn [mbind res_bind].
  apply IH; [done| |].
  - intros k ok1 s1 Hk. apply Hb. lia.
  - destruct Hf as [->|(k & Hk & Hf)].
    { left. destruct ok'; [by specialize (Hok eq_refl)|done]. }
    destruct (decide (k = tid)) as [->|Hne].
    + left. destruct (Hf ok s Hs) as (s1 & E1). congruence.
    + right. exists k. split; [lia|done].
Qed.

(** A logical operator on larger bit fields fails as soon as the
    blocks do not begin at words: the size of a block is the number of rows
    divided by the number of blocks, rarely a multiple of 64. *)
Theorem vec_f1f2opf3_B_refused op f X Y out n bs nT :
  n / 8192 < INT_MAX -> partition n 8192 (-1) = Ok (bs, nT) -> 2 <= nT -> bs mod 64 <> 0 ->
  bool_op op = Some f -> n / 64 <= zlen X -> n / 64 <= zlen Y -> n / 64 <= zlen out ->
  vec_f1f2opf3 0 n B B (Ints X) None (Ints Y) None op B (Ints out) None = Err.
Proof.
  intros Hq Hp HnT Hbs Hop LX LY LO. destruct (bool_op_kernel op f Hop) as (g & _ & Hb).
  destruct (partition_Ok n 8192 (-1) bs nT ltac:(lia) Hq Hp) as (Hn & _ & _ & ? & Hcut & _).
  rewrite (vec_f1f2opf3_run _ _ _ _ _ _ _ _ _ n bs nT) by done. unfold tid_blocks.
  rewrite (for_tids_Err (fun s => exists o, s = Ints o /\ n / 64 <= zlen o)); [done|by eauto| |].
  - intros k ok s Hk (o & -> & Lo). destruct (chunk 0 n bs nT k) as [lb ub] eqn:E.
    destruct (chunk_bounds n bs nT k lb ub ltac:(lia) Hcut ltac:(lia) E) as (? & ? & ?). rewrite Hb.
    pose proof (Z.div_mod lb 64 ltac:(lia)). pose proof (Z.mod_pos_bound lb 64 ltac:(lia)).
    pose proof (Z.div_mod (ub - lb) 64 ltac:(lia)). pose proof (Z.mod_pos_bound (ub - lb) 64 ltac:(lia)).
    pose proof (Z.div_mod n 64 ltac:(lia)). pose proof (Z.mod_pos_bound n 64 ltac:(lia)).
    rewrite !Z.quot_div_nonneg by lia. destruct (lb / 64 * 64 =? lb) eqn:El; [|exists false, (Ints o); split; [done|split; [by eauto|done]]].
    apply Z.eqb_eq in El. destruct (word_map g X Y (lb / 64) ((ub - lb) / 64) o) as (o' & -> & Lo' & _); try lia.
    exists ok, (Ints o'). split; [done|]. split; [exists o'; split; [done|lia]|done].
  - right. exists 1. split; [lia|]. intros ok s (o & -> & _). unfold chunk. rewrite Z.add_0_l, Z.mul_1_l, Hb.
    destruct (Z.eqb_spec (Z.quot bs 64 * 64) bs) as [E|]; [|by exists (Ints o)].
    destruct Hbs. rewrite Z.quot_div_nonneg in E by lia. pose proof (Z.div_mod bs 64 ltac:(lia)). lia.
Qed.

Lemma vec_f1f2opf3_B_refused_witness :
  vec_f1f2opf3 0 20000 B B (Ints (replicate 313 0)) None (Ints (replicate 313 0)) None "||" B (Ints (replicate 313 0)) None
  = Err.
Proof.
  apply (vec_f1f2opf3_B_refused "||" orb _ _ _ 20000 10000 2); try reflexivity; try by vm_compute.
Defined.

(** ** Kernels with one input

    Shared by the operators on a field and a scalar and on one field. *)
Lemma patched_fmap {C D} (inj : C -> D) Zs a b (out out' : list C) :
  patched Zs a b out out' -> patched (inj <$> Zs) a b (inj <$> out) (inj <$> out').
Proof.
  assert (forall (l : list C) j, (inj <$> l) !z j = inj <$> (l !z j)) as E.
  { intros l j. unfold zlookup. case_decide; [apply list_lookup_fmap|done]. }
  intros [L H]. split; [by rewrite !zlen_fmap|]. intros j. rewrite !E, H. by case_decide.
Qed.

Inductive kernel1 :=
| KII (f : Z -> res Z) | KFF (f : float -> res float) | KFI (f : float -> res Z) | KIF (f : Z -> res float).

Definition run_kernel1 (k : kernel1) (X : column) (lb nX : Z) (op_X : column) : res column :=
  match k, X, op_X with
  | KII f, Ints X, Ints out => out ← map1_loop f (Z.to_nat nX) X lb out lb; Ok (Ints out)
  | KFF f, Floats X, Floats out => out ← map1_loop f (Z.to_nat nX) X lb out lb; Ok (Floats out)
  | KFI f, Floats X, Ints out => out ← map1_loop f (Z.to_nat nX) X lb out lb; Ok (Ints out)
  | KIF f, Ints X, Floats out => out ← map1_loop f (Z.to_nat nX) X lb out lb; Ok (Floats out)
  | _, _, _ => Ub
  end.
Definition row_kernel1 (k : kernel1) (x z : value) : Prop :=
  match k, x, z with
  | KII f, Int x, Int z => f x = Ok z
  | KFF f, Flt x, Flt z => f x = Ok z
  | KFI f, Flt x, Int z => f x = Ok z
  | KIF f, Int x, Flt z => f x = Ok z
  | _, _, _ => False
  end.
Definition kernel1_type (k : kernel1) (t : FLD_TYPE) : Prop :=
  match k with KFF _ | KIF _ => t = F4 \/ t = F8 | KII _ | KFI _ => t <> F4 /\ t <> F8 end.

Lemma Forall2_rows {A C VA VC} (i1 : A -> VA) (i3 : C -> VC) (R : VA -> VC -> Prop) (f : A -> res C) X Zs :
  (forall x z, R (i1 x) z -> exists z', z = i3 z' /\ f x = Ok z') -> Forall2 R (i1 <$> X) Zs ->
  exists zs, Zs = i3 <$> zs /\ forall k, 0 <= k < zlen X -> row1 f X zs k k.
Proof.
  intros HR. revert Zs. induction X as [|x X IH]; intros Zs H.
  { inversion H; subst. exists []. split; [done|]. intros k Hk. unfold zlen in Hk. simpl in Hk. lia. }
  rewrite fmap_cons in H. apply Forall2_cons_inv_l in H as (z & Zs' & Hr & Ht & ->).
  destruct (HR _ _ Hr) as (z' & -> & Hf). destruct (IH _ Ht) as (zs & -> & Hk).
  exists (z' :: zs). split; [done|]. intros k Hb. rewrite zlen_cons in Hb. destruct (decide (k = 0)) as [->|Hne].
  - exists x, z'. by rewrite !(zlookup_to_nat _ 0) by lia.
  - destruct (Hk (k - 1) ltac:(lia)) as (a & c & Ha & Hc & Hz). exists a, c.
    rewrite zlookup_to_nat in Ha by lia. rewrite zlookup_to_nat in Hz by lia. rewrite !zlookup_to_nat by lia.
    replace (Z.to_nat k) with (Datatypes.S (Z.to_nat (k - 1))) by lia. done.
Qed.

(** One kind of kernel, on lists. *)
Lemma map1_block {A C VA VC} (i1 : A -> VA) (i3 : C -> VC) (R : VA -> VC -> Prop) (f : A -> res C) X Zs lb ub out :
  (forall x z, R (i1 x) z -> exists z', z = i3 z' /\ f x = Ok z') -> Forall2 R (i1 <$> X) Zs ->
  0 <= lb <= ub -> ub <= zlen X -> zlen (i3 <$> out) = zlen (i1 <$> X) ->
  exists out', map1_loop f (Z.to_nat (ub - lb)) X lb out lb = Ok out' /\
    patched Zs lb ub (i3 <$> out) (i3 <$> out').
Proof.
  intros HR HF Hlb Hub Hl. rewrite !zlen_fmap in Hl.
  destruct (Forall2_rows i1 i3 R f X Zs HR HF) as (zs & -> & Hrow).
  destruct (map1_loop_ok f (Z.to_nat (ub - lb)) X zs lb lb out) as (out' & E & P); [lia|lia| |].
  - intros k Hk. apply Hrow. lia.
  - exists out'. split; [done|]. apply patched_fmap. by replace (lb + Z.of_nat (Z.to_nat (ub - lb))) with ub in P by lia.
Qed.

Lemma kernel1_block k X t (P : value -> value -> Prop) Zs lb ub op_X :
  kernel1_type k t -> cells_of t op_X -> (forall x z, P x z -> row_kernel1 k x z) -> Forall2 P (cells X) Zs ->
  0 <= lb < ub -> ub <= zlen (cells X) -> zlen (cells op_X) = zlen (cells X) ->
  exists R, run_kernel1 k X lb (ub - lb) op_X = Ok R /\ cells_of t R /\ patched Zs lb ub (cells op_X) (cells R).
Proof.
  intros Hk Hc HP HF Hlb Hub Hl. apply (Forall2_impl _ (row_kernel1 k)) in HF; [|exact HP].
  destruct (zlookup_is_Some (cells X) lb) as [x Hx]; [lia|]. rewrite zlookup_to_nat in Hx by lia.
  destruct (Forall2_lookup_l _ _ _ _ _ HF Hx) as (z & _ & Hr). apply list_elem_of_lookup_2 in Hx.
  destruct k as [f|f|f|f], X as [X|X], op_X as [out|out]; cbn in Hk, Hc; try tauto; cbn [cells] in *;
    try (apply list_elem_of_fmap in Hx as (v & -> & _); done); rewrite zlen_fmap in Hub.
  1: destruct (map1_block Int Int (row_kernel1 (KII f)) f X Zs lb ub out) as (out' & E & Pt).
  7: destruct (map1_block Flt Flt (row_kernel1 (KFF f)) f X Zs lb ub out) as (out' & E & Pt).
  13: destruct (map1_block Flt Int (row_kernel1 (KFI f)) f X Zs lb ub out) as (out' & E & Pt).
  19: destruct (map1_block Int Flt (row_kernel1 (KIF f)) f X Zs lb ub out) as (out' & E & Pt).
  all: try done; try lia; try (by intros a [c|c]; cbn; eauto); cbn [run_kernel1]; rewrite E; eauto.
Qed.

(** ** Files and types *)

Lemma mk_size_ok sz : 0 < sz < 2 ^ 32 -> mk_size sz = Ok tt.
Proof.
  intros Hs. unfold mk_size, go_BYE_if. rewrite (proj2 (Z.leb_gt _ _)) by lia. cbn [mbind res_bind].
  destruct (Z.eqb_spec (wrapS 32 (sz - 1)) (-1)) as [E|]; [|done]. exfalso. word_lia.
Qed.

Lemma new_column_len t n : 0 <= n -> zlen (cells (new_column t n)) = n.
Proof. intros Hn. destruct t; cbn; rewrite zlen_fmap; unfold zlen; rewrite length_replicate; lia. Qed.
Lemma new_column_cells t n : cells_of t (new_column t n).
Proof. by destruct t; cbn; auto. Qed.

(** Comparisons of given strings, computed. *)
Ltac strcmp_tac :=
  repeat match goal with |- context [strcmp_eq ?a ?b] =>
    let c := eval vm_compute in (strcmp_eq a b) in change (strcmp_eq a b) with c end; cbn iota.
(** Tests of given types, computed. *)
Ltac types_tac :=
  repeat match goal with |- context [bool_decide ?P] =>
    let c := eval vm_compute in (bool_decide P) in
    lazymatch c with true => idtac | false => idtac end; change (bool_decide P) with c end; cbn [andb]; cbn iota.
