(* ===== verification/VecScalar.v ===== *)
(** * Operators on a field and a scalar.

    Models dir_helpers/vec_f1s1opf2.c, which selects a kernel for a field and a
    scalar, or several scalars, and runs it block by block, and the reading of
    the scalars (break_into_scalars of dir_dbutils/dbauxil.c).  [strtod] of the
    standard library is an argument. *)

From stdpp Require Import prelude strings sorting.
From Stdlib Require Import ZArith Lia SpecFloat Ascii.
From S2P Require Import Prelude Search CString Types Reduce Elem Vec.
Import Reduce.

(** ** A field and a scalar *)

Definition MAX_NUM_SCALARS : Z := 32.

Record scalars := {
  num_scalar_vals : Z;
  sval_I8 : Z; sval_I4 : Z; sval_I2 : Z; sval_I1 : Z;
  sval_F4 : float; sval_F8 : float;
  svals_I8 : list Z; svals_I4 : list Z; svals_I2 : list Z; svals_I1 : list Z;
  svals_F4 : list float; svals_F8 : list float
}.
Definition no_scalars (n : Z) : scalars :=
  {| num_scalar_vals := n; sval_I8 := LLONG_MAX; sval_I4 := INT_MAX; sval_I2 := SHRT_MAX; sval_I1 := SCHAR_MAX;
     sval_F4 := FLT_MAX; sval_F8 := DBL_MAX; svals_I8 := []; svals_I4 := []; svals_I2 := []; svals_I1 := [];
     svals_F4 := []; svals_F8 := [] |}.

(** [svals[i] = strtoll(Y[i], &endptr, 10); if ( *endptr != 0 ) { go_BYE(-1); }]:
    the array has [MAX_NUM_SCALARS] cells. *)
Fixpoint scan_scalars {A} (parse : string -> A * string) (Y : list string) (i : Z) : res (list A) :=
  match Y with
  | [] => Ok []
  | y :: Y =>
      if MAX_NUM_SCALARS <=? i then Ub
      else
        let '(v, endptr) := parse y in
        _ ← go_BYE_if (negb (strcmp_eq endptr ""));
        vs ← scan_scalars parse Y (i + 1); Ok (v :: vs)
  end.

Section scalars.
(** [strtod(s, &endptr)] of the standard library. *)
Variable strtod : string -> float * string.

(** One scalar or the sorted list of them, before the type's limits. *)
Definition read_scalars {A} (parse : string -> A * string) (le : A -> A -> bool) (str_scalar : string) (num : Z)
    : res (A * list A) :=
  let '(v, endptr) := parse str_scalar in
  if num =? 1 then _ ← go_BYE_if (negb (strcmp_eq endptr "")); Ok (v, [])
  else
    Y ← break_str (Some str_scalar) ":";
    let Y := default [] Y in
    _ ← go_BYE_if (negb (zlen Y =? num));
    vs ← scan_scalars parse Y 0;
    Ok (v, merge_sort (fun x y => Is_true (le x y)) vs).

(** The narrower copies of the scalars, checked. *)
Definition limit (lo hi : Z) (num v : Z) (vs : list Z) : res unit :=
  go_BYE_if (if num =? 1 then (hi <? v) || (v <? lo) else existsb (fun v => (hi <? v) || (v <? lo)) vs).
Definition outside_F4 (v : float) : bool := SFltb (widen FLT_MAX) v || SFltb v (widen FLT_MIN).
Definition limit_F4 (num : Z) (v : float) (vs : list float) : res unit :=
  go_BYE_if (if num =? 1 then outside_F4 v else existsb outside_F4 vs).

Definition break_ints (str_scalar : string) (fldtype : FLD_TYPE) (num : Z) : res scalars :=
  '(v, vs) ← read_scalars strtoll Z.leb str_scalar num;
  let one := num =? 1 in
  let v8 := if one then v else LLONG_MAX in
  let s w4 w2 w1 := {| num_scalar_vals := num; sval_I8 := v8;
    sval_I4 := if w4 && one then v else INT_MAX; sval_I2 := if w2 && one then v else SHRT_MAX;
    sval_I1 := if w1 && one then v else SCHAR_MAX; sval_F4 := FLT_MAX; sval_F8 := DBL_MAX;
    svals_I8 := vs; svals_I4 := if w4 : bool then vs else []; svals_I2 := if w2 : bool then vs else [];
    svals_I1 := if w1 : bool then vs else []; svals_F4 := []; svals_F8 := [] |} in
  match fldtype with
  | I1 => _ ← limit SCHAR_MIN SCHAR_MAX num v vs; Ok (s false false true)
  | I2 => (* falls through to the case of I4 *)
      _ ← limit SHRT_MIN SHRT_MAX num v vs; _ ← limit INT_MIN INT_MAX num v vs; Ok (s true true false)
  | I4 => _ ← limit INT_MIN INT_MAX num v vs; Ok (s true false false)
  | _ => Ok (s false false false)
  end.

Definition break_floats (str_scalar : string) (fldtype : FLD_TYPE) (num : Z) : res scalars :=
  '(v, vs) ← read_scalars strtod SFleb str_scalar num;
  let one := num =? 1 in
  let s f4 f4s := {| num_scalar_vals := num; sval_I8 := LLONG_MAX; sval_I4 := INT_MAX; sval_I2 := SHRT_MAX;
    sval_I1 := SCHAR_MAX; sval_F4 := f4; sval_F8 := if one then v else DBL_MAX;
    svals_I8 := []; svals_I4 := []; svals_I2 := []; svals_I1 := []; svals_F4 := f4s; svals_F8 := vs |} in
  match fldtype with
  | F4 => _ ← limit_F4 num v vs; Ok (s (if one then narrow v else FLT_MAX) (narrow <$> vs))
  | _ => Ok (s FLT_MAX [])
  end.

Definition break_into_scalars (str_scalar : string) (fldtype : FLD_TYPE) : res scalars :=
  let num := 1 + count_char ":"%char str_scalar in
  match fldtype with
  | I1 | I2 | I4 | I8 => break_ints str_scalar fldtype num
  | F4 | F8 => break_floats str_scalar fldtype num
  | _ => Err
  end.

(** The kernel for several scalars writes a row for every element that it
    reads from the pointer. *)
Fixpoint wr_list (out : list Z) (i : Z) (l : list Z) : res (list Z) :=
  match l with
  | [] => Ok out
  | v :: l => out ← wr out i v; wr_list out (i + 1) l
  end.
Definition eq_mult (kernel : list Z -> Z -> list Z -> Z -> res (list Z)) (f1_X svals : list Z) (n2 lb nX : Z)
    (out : list Z) : res (list Z) :=
  l ← kernel (slice f1_X lb (lb + nX)) nX svals n2; wr_list out lb l.

Definition f1s1opf2_I2 (f1_X : list Z) (s : scalars) (op : string) (lb nX : Z) (f2type : FLD_TYPE) (op_X : column)
    : res column :=
  let run t kernel := out_ints t f2type op_X (kernel f1_X (sval_I2 s) lb nX) in
  if strcmp_eq op "==" then
    if num_scalar_vals s =? 1 then run I1 cmp_eq_scalar_I2
    else out_ints I1 f2type op_X
           (eq_mult MultScalar.cmp_eq_mult_scalar_I2 f1_X (svals_I2 s) (num_scalar_vals s) lb nX)
  else if strcmp_eq op "+" then run I2 add_scalar_I2
  else if strcmp_eq op "-" then run I2 sub_scalar_I2
  else if strcmp_eq op "*" then run I2 mul_scalar_I2
  else if strcmp_eq op "/" then run I2 div_scalar_I2
  else if strcmp_eq op "%" then run I2 rem_scalar_I2
  else Err.

(** The output of [>>] goes to a null pointer. *)
Definition f1s1opf2_I4 (f1_X : list Z) (s : scalars) (op : string) (lb nX : Z) (f2type : FLD_TYPE) (op_X : column)
    : res column :=
  let run t kernel := out_ints t f2type op_X (kernel f1_X (sval_I4 s) lb nX) in
  let run2 kernel :=
    _ ← go_BYE_if (negb (num_scalar_vals s =? 2));
    s0 ← rd (svals_I4 s) 0; s1 ← rd (svals_I4 s) 1;
    out_ints I1 f2type op_X (kernel f1_X lb nX s0 s1) in
  if strcmp_eq op "+" then run I4 add_scalar_I4
  else if strcmp_eq op "-" then run I4 sub_scalar_I4
  else if strcmp_eq op "*" then run I4 mul_scalar_I4
  else if strcmp_eq op "/" then run I4 div_scalar_I4
  else if strcmp_eq op "%" then run I4 rem_scalar_I4
  else if strcmp_eq op "<<" then run I4 shift_left_scalar_I4
  else if strcmp_eq op ">>" then _ ← shift_right_scalar_UI4 f1_X (sval_I4 s) lb nX []; Ok op_X
  else if strcmp_eq op ">=" then run I1 cmp_ge_scalar_I4
  else if strcmp_eq op "<=" then run I1 cmp_le_scalar_I4
  else if strcmp_eq op "<||>" then run2 cmp_lt_or_gt_I4
  else if strcmp_eq op "<=||>=" then run2 cmp_le_or_ge_I4
  else if strcmp_eq op ">&&<" then run2 cmp_gt_and_lt_I4
  else if strcmp_eq op ">=&&<=" then run2 cmp_ge_and_le_I4
  else if strcmp_eq op "==" then
    if num_scalar_vals s =? 1 then run I1 cmp_eq_scalar_I4
    else out_ints I1 f2type op_X
           (eq_mult MultScalar.cmp_eq_mult_scalar_I4 f1_X (svals_I4 s) (num_scalar_vals s) lb nX)
  else if strcmp_eq op "!=" then run I1 cmp_ne_scalar_I4
  else if strcmp_eq op ">" then run I1 cmp_gt_scalar_I4
  else if strcmp_eq op "<" then run I1 cmp_lt_scalar_I4
  else if strcmp_eq op "&" then run I4 bwise_and_scalar_I4
  else if strcmp_eq op "|" then run I4 bwise_or_scalar_I4
  else if strcmp_eq op "^" then run I4 bwise_xor_scalar_I4
  else Err.

Definition f1s1opf2_I8 (f1_X : list Z) (s : scalars) (op : string) (lb nX : Z) (f2type : FLD_TYPE) (op_X : column)
    : res column :=
  let run t kernel := out_ints t f2type op_X (kernel f1_X (sval_I8 s) lb nX) in
  if strcmp_eq op "+" then run I8 add_scalar_I8
  else if strcmp_eq op "-" then run I8 sub_scalar_I8
  else if strcmp_eq op "*" then run I8 mul_scalar_I8
  else if strcmp_eq op "/" then run I8 div_scalar_I8
  else if strcmp_eq op "%" then run I8 rem_scalar_I8
  else if strcmp_eq op "<<" then run I8 shift_left_scalar_I8
  else if strcmp_eq op ">>" then run I8 shift_right_scalar_UI8
  else if strcmp_eq op ">=" then run I1 cmp_ge_scalar_I8
  else if strcmp_eq op "<=" then run I1 cmp_le_scalar_I8
  else if strcmp_eq op "==" then run I1 cmp_eq_scalar_I8
  else if strcmp_eq op "!=" then run I1 cmp_ne_scalar_I8
  else if strcmp_eq op ">" then run I1 cmp_gt_scalar_I8
  else if strcmp_eq op "<" then run I1 cmp_lt_scalar_I8
  else if strcmp_eq op "&" then run I8 bwise_and_scalar_I8
  else if strcmp_eq op "|" then run I8 bwise_or_scalar_I8
  else if strcmp_eq op "^" then run I8 bwise_xor_scalar_I8
  else Err.

Definition f1s1opf2_F4 (f1_X : list float) (s : scalars) (op : string) (lb nX : Z) (f2type : FLD_TYPE) (op_X : column)
    : res column :=
  let arith kernel := out_floats F4 f2type op_X (kernel f1_X (sval_F4 s) lb nX) in
  let cmp kernel := out_ints I1 f2type op_X (kernel f1_X (sval_F4 s) lb nX) in
  if strcmp_eq op "+" then arith add_scalar_F4
  else if strcmp_eq op "-" then arith sub_scalar_F4
  else if strcmp_eq op "*" then arith mul_scalar_F4
  else if strcmp_eq op "/" then arith div_scalar_F4
  else if strcmp_eq op ">=" then cmp cmp_ge_scalar_F4
  else if strcmp_eq op "<=" then cmp cmp_le_scalar_F4
  else if strcmp_eq op "==" then cmp cmp_eq_scalar_F4
  else if strcmp_eq op "!=" then cmp cmp_ne_scalar_F4
  else if strcmp_eq op ">" then cmp cmp_gt_scalar_F4
  else if strcmp_eq op "<" then cmp cmp_lt_scalar_F4
  else Err.

Definition f1s1opf2_F8 (f1_X : list float) (s : scalars) (op : string) (lb nX : Z) (f2type : FLD_TYPE) (op_X : column)
    : res column :=
  let arith kernel := out_floats F8 f2type op_X (kernel f1_X (sval_F8 s) lb nX) in
  if strcmp_eq op "+" then arith add_scalar_F8
  else if strcmp_eq op "-" then arith sub_scalar_F8
  else if strcmp_eq op "*" then arith mul_scalar_F8
  else if strcmp_eq op "/" then arith div_scalar_F8
  else Err.

Definition f1s1opf2_I1 (f1_X : list Z) (s : scalars) (op : string) (lb nX : Z) (f2type : FLD_TYPE) (op_X : column)
    : res column :=
  let run kernel := out_ints I1 f2type op_X (kernel f1_X (sval_I1 s) lb nX) in
  if strcmp_eq op "&" then run bwise_and_scalar_I1
  else if strcmp_eq op "|" then run bwise_or_scalar_I1
  else if strcmp_eq op "^" then run bwise_xor_scalar_I1
  else if strcmp_eq op ">=" then run cmp_ge_scalar_I1
  else if strcmp_eq op "<=" then run cmp_le_scalar_I1
  else if strcmp_eq op "==" then
    if num_scalar_vals s =? 1 then run cmp_eq_scalar_I1
    else out_ints I1 f2type op_X
           (eq_mult MultScalar.cmp_eq_mult_scalar_I1 f1_X (svals_I1 s) (num_scalar_vals s) lb nX)
  else if strcmp_eq op "!=" then run cmp_ne_scalar_I1
  else if strcmp_eq op ">" then run cmp_gt_scalar_I1
  else if strcmp_eq op "<" then run cmp_lt_scalar_I1
  else Err.

Definition f1s1opf2_block (f1_fldtype : FLD_TYPE) (f1_X : column) (s : scalars) (op : string) (lb nX : Z)
    (f2type : FLD_TYPE) (op_X : column) : res column :=
  match f1_fldtype, f1_X with
  | I2, Ints X => f1s1opf2_I2 X s op lb nX f2type op_X
  | I4, Ints X => f1s1opf2_I4 X s op lb nX f2type op_X
  | I8, Ints X => f1s1opf2_I8 X s op lb nX f2type op_X
  | F4, Floats X => f1s1opf2_F4 X s op lb nX f2type op_X
  | F8, Floats X => f1s1opf2_F8 X s op lb nX f2type op_X
  | I1, Ints X => f1s1opf2_I1 X s op lb nX f2type op_X
  | (I2 | I4 | I8 | I1 | F4 | F8), _ => Ub
  | _, _ => Err
  end.

(** The loop over blocks, on the new files. *)
Definition f1s1opf2_blocks (nR : Z) (f1_fldtype : FLD_TYPE) (f1_X : column) (in_nn_f1_X : option (list Z))
    (s : scalars) (op : string) (op_fldtype : FLD_TYPE) (block_size nT : Z) : column * option (list Z) -> res (column * option (list Z)) :=
  tid_blocks 0 nR block_size nT (fun lb nX '(op_X, nn_op_X) =>
    nn_op_X ← match in_nn_f1_X, nn_op_X with
      | Some nn_f1_X, Some out => out ← assign_I1 nn_f1_X lb nX out; Ok (Some out)
      | _, _ => Ok nn_op_X
      end;
    op_X ← f1s1opf2_block f1_fldtype f1_X s op lb nX op_fldtype op_X;
    Ok (op_X, nn_op_X)).

(** The result: the field, its nn field and its type. *)
Definition vec_f1s1opf2 (nR : Z) (f1_fldtype : FLD_TYPE) (f1_X : column) (in_nn_f1_X : option (list Z))
    (str_scalar op : string) (old : FLD_TYPE) : res (column * option (list Z) * FLD_TYPE) :=
  s ← break_into_scalars str_scalar f1_fldtype;
  '(block_size, nT) ← partition nR 8192 (-1);
  op_fldtype ← get_type_op_fld "f1s1opf2" op f1_fldtype f1_fldtype (Some EmptyString) old;
  let fldsz := match get_fld_sz op_fldtype with Ok sz => sz | _ => INT_MAX end in
  _ ← mk_size (fldsz * nR);
  _ ← match in_nn_f1_X with Some _ => mk_size nR | None => Ok tt end;
  let nn_op_X := match in_nn_f1_X with Some _ => Some (replicate (Z.to_nat nR) 0) | None => None end in
  '(op_X, nn_op_X) ← f1s1opf2_blocks nR f1_fldtype f1_X in_nn_f1_X s op op_fldtype block_size nT
    (new_column op_fldtype nR, nn_op_X);
  Ok (op_X, nn_op_X, op_fldtype).
End scalars.

(** ** Reference semantics *)

(** The value of one scalar of a type. *)
Definition scalar_of (s : scalars) (t : FLD_TYPE) : option value :=
  match t with
  | I1 => Some (Int (sval_I1 s)) | I2 => Some (Int (sval_I2 s)) | I4 => Some (Int (sval_I4 s))
  | I8 => Some (Int (sval_I8 s)) | F4 => Some (Flt (sval_F4 s)) | F8 => Some (Flt (sval_F8 s))
  | _ => None
  end.

(** What a row [x] and the scalar [v] give.  Shifting an I4 field to the right
    has no meaning here: see [vec_f1s1opf2_shift_right]. *)
Inductive sem1 : FLD_TYPE -> string -> value -> value -> value -> Prop :=
| sem1_I2 op v x z : op <> "<<"%string -> op <> ">>"%string -> op <> "&"%string -> op <> "|"%string -> op <> "^"%string ->
    int_sem 32 op x v z -> sem1 I2 op (Int v) (Int x) (Int (wrapS 16 z))
| sem1_I4 op v x z : op <> ">>"%string -> int_sem 32 op x v z -> sem1 I4 op (Int v) (Int x) (Int z)
| sem1_I8 op v x z : int_sem 64 op x v z -> sem1 I8 op (Int v) (Int x) (Int z)
| sem1_cmp t op v x b : t = I1 \/ t = I4 \/ t = I8 -> cmp_rslt op (Some (x ?= v)) = Some b ->
    sem1 t op (Int v) (Int x) (Int (Z.b2z b))
| sem1_eq_I2 v x : sem1 I2 "==" (Int v) (Int x) (Int (Z.b2z (bool_decide (x = v))))
| sem1_F4 op v x z : flt_sem 24 128 op x v z -> sem1 F4 op (Flt v) (Flt x) (Flt z)
| sem1_F8 op v x z : flt_sem 53 1024 op x v z -> sem1 F8 op (Flt v) (Flt x) (Flt z)
| sem1_cmp_F4 op v x b : cmp_rslt op (SFcompare x v) = Some b -> sem1 F4 op (Flt v) (Flt x) (Int (Z.b2z b)).

Lemma c_short_ok f x y z : f 32 x y = Ok z -> c_short f x y = Ok (wrapS 16 z).
Proof. intros E. unfold c_short. by rewrite E. Qed.
#[export] Hint Resolve c_short_ok : row.

Ltac row_kernel1_tac :=
  let v := fresh "v" in let x := fresh "x" in let z := fresh "z" in let H := fresh "H" in
  intros x z H; inversion H; subst;
    repeat match goal with
    | H : _ \/ _ |- _ => destruct H; subst
    | H : int_sem _ _ _ _ _ |- _ => inversion H; subst; clear H
    | H : flt_sem _ _ _ _ _ _ |- _ => inversion H; subst; clear H
    | H : cmp_rslt _ _ = Some _ |- _ => cmp_cases H; injection H as <-
    end; try congruence;
    cbn [row_kernel1]; unfold pure2, c_cmp; repeat f_equal; auto with row.
Ltac block_kernel1_tac :=
  intros [X|X] lb nX [out|out] HX Ho; cbn in HX, Ho; try reflexivity; intuition discriminate.
Ltac by_kernel1 k := eexists (k _); split; [block_kernel1_tac|split; [cbn; auto; done|row_kernel1_tac]].

Lemma sem1_kernel t op t2 old s v x0 z0 :
  get_type_op_fld "f1s1opf2" op t t (Some ""%string) old = Ok t2 -> num_scalar_vals s = 1 ->
  scalar_of s t = Some v -> sem1 t op v x0 z0 ->
  exists k,
    (forall X lb nX op_X, cells_of t X -> cells_of t2 op_X ->
       f1s1opf2_block t X s op lb nX t2 op_X = run_kernel1 k X lb nX op_X) /\
    kernel1_type k t2 /\
    (forall x z, sem1 t op v x z -> row_kernel1 k x z).
Proof.
  intros Ht Hs Hv Hsem. destruct s as [num s8 s4 s2 s1 f4 f8 l8 l4 l2 l1 lf4 lf8]. cbn in Hs. subst num.
  inversion Hsem; subst; cbn in Hv; simplify_eq/=;
    repeat match goal with
    | H : _ \/ _ |- _ => destruct H; subst
    | H : int_sem _ _ _ _ _ |- _ => inversion H; subst; clear H
    | H : flt_sem _ _ _ _ _ _ |- _ => inversion H; subst; clear H
    | H : cmp_rslt _ _ = Some _ |- _ => cmp_cases H; clear H
    end; try congruence; simplify_eq/=; vm_compute in Ht; injection Ht as <-; clear Hsem.
  all: first [by_kernel1 KII | by_kernel1 KFF | by_kernel1 KFI].
Qed.

(** ** Runs *)

(** The state of the blocks: the rows before [lb] are done. *)
Definition rows_filled (t2 : FLD_TYPE) (Zs : list value) (o0 : column) (in_nn : option (list Z)) (nn0 : option (list Z)) (lb : Z)
    (s : column * option (list Z)) : Prop :=
  cells_of t2 (fst s) /\ patched Zs 0 lb (cells o0) (cells (fst s)) /\
  match in_nn, nn0 with
  | Some a, Some q0 => exists q, snd s = Some q /\ patched a 0 lb q0 q
  | _, _ => snd s = nn0
  end.

(** A kernel on one input fills the file and the flags are copied. *)
Lemma scalar_blocks k X t2 Zs n in_nn (P : value -> value -> Prop) body :
  0 < n -> n / 8192 < INT_MAX -> zlen (cells X) = n -> has_len n in_nn ->
  kernel1_type k t2 -> (forall x z, P x z -> row_kernel1 k x z) -> Forall2 P (cells X) Zs ->
  (forall lb ub op_X, 0 <= lb < ub -> ub <= n -> cells_of t2 op_X -> zlen (cells op_X) = n ->
     body lb (ub - lb) op_X = run_kernel1 k X lb (ub - lb) op_X) ->
  let zeros := match in_nn with Some _ => Some (replicate (Z.to_nat n) 0) | None => None end in
  exists bs nT R, partition n 8192 (-1) = Ok (bs, nT) /\ cells R = Zs /\ cells_of t2 R /\
    tid_blocks 0 n bs nT (fun lb nX '(op_X, nn_op_X) =>
      nn_op_X ← match in_nn, nn_op_X with
        | Some nn_f1_X, Some out => out ← assign_I1 nn_f1_X lb nX out; Ok (Some out)
        | _, _ => Ok nn_op_X
        end;
      op_X ← body lb nX op_X; Ok (op_X, nn_op_X)) (new_column t2 n, zeros) = Ok (R, in_nn).
Proof.
  intros Hn Hq LX Lnn Hk HP HF Hb zeros. pose proof (Forall2_length _ _ _ HF) as LZ.
  destruct (blocks_partition (rows_filled t2 Zs (new_column t2 n) in_nn zeros) n 8192 (new_column t2 n, zeros))
    as (bs & nT & Hp & Hrun); [done..|]. exists bs, nT.
  match goal with |- context [tid_blocks 0 n bs nT ?b _] => destruct (Hrun (new_column t2 n, zeros) b) as ([R nn'] & E & F) end.
  - split; [apply new_column_cells|]. split; [apply patched_refl|].
    unfold zeros. destruct in_nn; [|done]. eexists. split; [done|apply patched_refl].
  - intros lb ub [o nn1] Hlb Hlt Hub _ (Hc & Hpt & Hnn). cbn [fst snd] in *.
    pose proof (proj1 Hpt) as Lo. rewrite new_column_len in Lo by lia.
    destruct (kernel1_block k X t2 P Zs lb ub o) as (o' & Ho' & Hc' & Hpt'); try done; [lia|lia|].
    destruct in_nn as [a|]; cbn [zeros] in *.
    + destruct Hnn as (q & -> & Hq'). pose proof (proj1 Hq') as Lq. unfold zlen in Lq. rewrite length_replicate in Lq.
      destruct (nn_blocks_ok n (Some a) None a q lb ub) as (q' & Eq & Hq2); try done; [unfold zlen; lia|].
      cbn [nn_block] in Eq. unfold assign_I1. rewrite Eq. cbn [mbind res_bind]. rewrite Hb, Ho' by (done || lia).
      eexists. split; [done|]. split; [done|]. split; [by apply (patched_trans _ 0 lb ub _ (cells o)); try lia|].
      eexists. split; [done|]. by apply (patched_trans _ 0 lb ub _ q); try lia.
    + cbn [mbind res_bind]. rewrite Hb, Ho' by (done || lia). eexists. split; [done|]. split; [done|].
      split; [|done]. by apply (patched_trans _ 0 lb ub _ (cells o)); try lia.
  - destruct F as (Hc & Hpt & Hnn). cbn [fst snd] in *. exists R. split; [done|].
    assert (zlen Zs = n) as Lz by (unfold zlen in *; lia).
    split; [|split; [done|]].
    + apply (patched_all Zs (cells (new_column t2 n))); [rewrite new_column_len; lia|by rewrite Lz].
    + rewrite E. do 2 f_equal. destruct in_nn as [a|]; cbn [zeros] in *; [|done].
      destruct Hnn as (q & -> & Hq'). f_equal. specialize (Lnn a eq_refl).
      apply (patched_all a (replicate (Z.to_nat n) 0)); [unfold zlen at 2; rewrite length_replicate; lia|by rewrite Lnn].
Qed.

Lemma sem1_size t op t2 old v x z :
  get_type_op_fld "f1s1opf2" op t t (Some ""%string) old = Ok t2 -> sem1 t op v x z ->
  exists sz, get_fld_sz t2 = Ok sz /\ 1 <= sz <= 8.
Proof.
  intros Ht Hsem. destruct t2; cbn; try (eexists; split; [done|lia]); exfalso;
    inversion Hsem; subst; repeat match goal with
    | H : _ \/ _ |- _ => destruct H; subst
    | H : int_sem _ _ _ _ _ |- _ => inversion H; subst; clear H
    | H : flt_sem _ _ _ _ _ _ |- _ => inversion H; subst; clear H
    | H : cmp_rslt _ _ = Some _ |- _ => cmp_cases H; clear H
    end; try congruence; vm_compute in Ht; discriminate Ht.
Qed.

(** The loop over the blocks. *)
Lemma f1s1opf2_rows t op s v t2 old X nn n Zs :
  0 < n < 2 ^ 29 -> num_scalar_vals s = 1 -> scalar_of s t = Some v ->
  get_type_op_fld "f1s1opf2" op t t (Some ""%string) old = Ok t2 ->
  cells_of t X -> zlen (cells X) = n -> has_len n nn -> Forall2 (sem1 t op v) (cells X) Zs ->
  exists bs nT R sz, partition n 8192 (-1) = Ok (bs, nT) /\ get_fld_sz t2 = Ok sz /\ 1 <= sz <= 8 /\
    cells R = Zs /\ cells_of t2 R /\
    f1s1opf2_blocks n t X nn s op t2 bs nT
      (new_column t2 n, match nn with Some _ => Some (replicate (Z.to_nat n) 0) | None => None end) = Ok (R, nn).
Proof.
  intros Hn Hone Hv Ht Hc LX Lnn HF.
  destruct (zlookup_is_Some (cells X) 0) as [x Hx]; [lia|]. rewrite zlookup_to_nat in Hx by lia.
  destruct (Forall2_lookup_l _ _ _ _ _ HF Hx) as (z & _ & Hsem).
  destruct (sem1_kernel t op t2 old s v x z Ht Hone Hv Hsem) as (k & Hb & Hk & Hr).
  assert (n / 8192 < INT_MAX) as Hq by (apply Z.div_lt_upper_bound; unfold INT_MAX; lia).
  destruct (scalar_blocks k X t2 Zs n nn (sem1 t op v) (fun lb nX op_X => f1s1opf2_block t X s op lb nX t2 op_X))
    as (bs & nT & R & Hp & HZ & Hc' & E); try done; [lia|by intros; apply Hb|].
  destruct (sem1_size t op t2 old v x z Ht Hsem) as (sz & Esz & Hsz). by exists bs, nT, R, sz.
Qed.

(** An operator on a field and one scalar: when the text is that of a
    scalar of the field's type and every row has a value by the reference
    semantics, [vec_f1s1opf2] succeeds, for every number of blocks, with
    exactly these values, the flags of the field and the type that
    [get_type_op_fld] gives. *)
Theorem vec_f1s1opf2_correct strtod t op str s v t2 old X nn n Zs :
  0 < n < 2 ^ 29 ->
  break_into_scalars strtod str t = Ok s -> num_scalar_vals s = 1 -> scalar_of s t = Some v ->
  get_type_op_fld "f1s1opf2" op t t (Some ""%string) old = Ok t2 ->
  cells_of t X -> zlen (cells X) = n -> has_len n nn ->
  Forall2 (sem1 t op v) (cells X) Zs ->
  exists R, vec_f1s1opf2 strtod n t X nn str op old = Ok (R, nn, t2) /\ cells R = Zs /\ cells_of t2 R.
Proof.
  intros Hn Hs Hone Hv Ht Hc LX Lnn HF.
  destruct (f1s1opf2_rows t op s v t2 old X nn n Zs) as (bs & nT & R & sz & Hp & Esz & Hsz & HZ & Hc' & E); try done.
  exists R. split; [|done]. unfold vec_f1s1opf2. rewrite Hs. cbn [mbind res_bind]. rewrite Hp. cbn [mbind res_bind].
  rewrite Ht. cbn [mbind res_bind]. rewrite Esz.
  rewrite (mk_size_ok (sz * n)) by (split; [nia|apply (Z.le_lt_trans _ (8 * n)); [nia|lia]]). cbn [mbind res_bind].
  replace (match nn with Some _ => mk_size n | None => Ok tt end) with (Ok tt) by (destruct nn; [by rewrite mk_size_ok by lia|done]).
  cbn [mbind res_bind]. by rewrite E.
Qed.

Lemma vec_f1s1opf2_correct_witness :
  exists R, vec_f1s1opf2 (fun s => (fzero, s)) 3 I2 (Ints [7; -7; 32767]) (Some [1; 0; 1]) "2" "*" B
      = Ok (R, Some [1; 0; 1], I2) /\ cells R = [Int 14; Int (-14); Int (-2)] /\ cells_of I2 R.
Proof.
  eapply (vec_f1s1opf2_correct (fun s => (fzero, s)) I2 "*" "2" _ (Int 2) I2 B (Ints [7; -7; 32767]) (Some [1; 0; 1]) 3);
    [lia|vm_compute; reflexivity|reflexivity|reflexivity|reflexivity|by split|reflexivity|by intros a [= <-]|].
  change (Forall2 (sem1 I2 "*" (Int 2)) [Int 7; Int (-7); Int 32767]
    [Int (wrapS 16 14); Int (wrapS 16 (-14)); Int (wrapS 16 65534)]).
  apply Forall2_cons; split; [|apply Forall2_cons; split; [|apply Forall2_cons; split; [|by apply Forall2_nil]]].
  - apply (sem1_I2 "*" 2 7 14); try discriminate. apply (sem_mul 32 7 2). split; [vm_compute; discriminate|reflexivity].
  - apply (sem1_I2 "*" 2 (-7) (-14)); try discriminate. apply (sem_mul 32 (-7) 2). split; [vm_compute; discriminate|reflexivity].
  - apply (sem1_I2 "*" 2 32767 65534); try discriminate. apply (sem_mul 32 32767 2). split; [vm_compute; discriminate|reflexivity].
Defined.

(** ** Several scalars *)

#[export] Instance Int_inj : Inj (=) (=) Int.
Proof. by intros x y [= ->]. Qed.

Lemma merge_sort_le vs : StronglySorted Z.le (merge_sort (fun x y => Is_true (Z.leb x y)) vs).
Proof.
  assert (StronglySorted (fun x y => Is_true (Z.leb x y)) (merge_sort (fun x y => Is_true (Z.leb x y)) vs)) as H.
  { apply StronglySorted_merge_sort.
    - intros x y z. destruct (Z.leb_spec x y), (Z.leb_spec y z), (Z.leb_spec x z); simpl; done || lia.
    - intros x y. destruct (Z.leb_spec x y), (Z.leb_spec y x); simpl; auto; lia. }
  rewrite SSorted_lookup in *. intros i j x y Hij Hx Hy. specialize (H i j x y Hij Hx Hy).
  apply Is_true_true in H. by apply Z.leb_le.
Qed.

Lemma scan_scalars_ok {A} (parse : string -> A * string) ts vs : forall i,
  Forall2 (fun t v => parse t = (v, ""%string)) ts vs -> i + zlen ts <= MAX_NUM_SCALARS ->
  scan_scalars parse ts i = Ok vs.
Proof.
  intros i H. revert i. induction H as [|t v ts vs Ht _ IH]; intros i Hi; [done|].
  rewrite zlen_cons in Hi. pose proof (zlen_nonneg ts). cbn [scan_scalars].
  rewrite (proj2 (Z.leb_gt _ _)), Ht by lia. cbn. by rewrite IH by lia.
Qed.

Definition svals_of (t : FLD_TYPE) (s : scalars) : list Z :=
  match t with I1 => svals_I1 s | I2 => svals_I2 s | _ => svals_I4 s end.

(** Two to 32 scalars of a type, separated by colons, are read and sorted. *)
Lemma break_several strtod t w ts vs :
  t = I1 /\ w = 8 \/ t = I2 /\ w = 16 \/ t = I4 /\ w = 32 ->
  2 <= zlen ts <= MAX_NUM_SCALARS -> Forall token ts -> Forall2 (fun t v => strtoll t = (v, ""%string)) ts vs ->
  Forall (inS w) vs ->
  exists s, break_into_scalars strtod (String.concat ":" ts) t = Ok s /\ num_scalar_vals s = zlen ts /\
    svals_of t s = merge_sort (fun x y => Is_true (Z.leb x y)) vs.
Proof.
  intros Ht Hn Htok Hvs Hin. assert (ts <> []) as Hne by (intros ->; unfold zlen in Hn; simpl in Hn; lia).
  set (l := merge_sort (fun x y => Is_true (Z.leb x y)) vs).
  assert (forall lo hi, Forall (fun v => lo <= v <= hi) vs -> existsb (fun v => (hi <? v) || (v <? lo)) l = false) as Hex.
  { intros lo hi H. apply not_true_is_false. rewrite existsb_exists. intros (v & Hv & Hb).
    apply list_elem_of_In in Hv. unfold l in Hv. rewrite (merge_sort_Permutation _ vs) in Hv.
    rewrite Forall_forall in H. specialize (H v Hv). lia. }
  assert (forall w', w <= w' -> Forall (fun v => - 2 ^ (w' - 1) <= v <= 2 ^ (w' - 1) - 1) vs) as Hlim.
  { intros w' Hw. apply (Forall_impl _ _ _ Hin). unfold inS. intros v Hv.
    pose proof (Z.pow_le_mono_r 2 (w - 1) (w' - 1) ltac:(lia) ltac:(lia)). lia. }
  unfold break_into_scalars. rewrite count_concat by done. replace (1 + (zlen ts - 1)) with (zlen ts) by lia.
  assert (exists v0, read_scalars strtoll Z.leb (String.concat ":" ts) (zlen ts) = Ok (v0, l)) as (v0 & Hread).
  { unfold read_scalars. destruct (strtoll _) as [v0 e]. exists v0.
    rewrite (proj2 (Z.eqb_neq _ _)) by lia. unfold break_str.
    destruct (strcmp_eq (String.concat ":" ts) "") eqn:E.
    { apply strcmp_eq_spec in E. pose proof (count_concat ts Htok Hne) as Hc. rewrite E in Hc. simpl in Hc. lia. }
    rewrite count_concat by done. replace (Z.to_nat (1 + (zlen ts - 1))) with (length ts) by (unfold zlen; lia).
    rewrite break_loop_tokens by done. cbn [mbind res_bind]. change (default [] (Some ts)) with ts.
    unfold go_BYE_if. rewrite Z.eqb_refl. cbn [negb mbind res_bind]. by rewrite (scan_scalars_ok _ ts vs 0) by (done || lia). }
  destruct Ht as [[-> ->]|[[-> ->]|[-> ->]]]; unfold break_ints; rewrite Hread; cbn [mbind res_bind];
    unfold limit, go_BYE_if; rewrite (proj2 (Z.eqb_neq _ _)) by lia;
    rewrite ?(Hex SCHAR_MIN SCHAR_MAX (Hlim 8 ltac:(lia))), ?(Hex SHRT_MIN SHRT_MAX (Hlim 16 ltac:(lia))),
      ?(Hex INT_MIN INT_MAX (Hlim 32 ltac:(lia))); cbn [mbind res_bind]; eauto.
Qed.

Lemma wr_list_map1 {A} (g : A -> Z) X n : forall i j out,
  0 <= i -> i + Z.of_nat n <= zlen X ->
  map1_loop (fun x => Ok (g x)) n X i out j = wr_list out j (g <$> slice X i (i + Z.of_nat n)).
Proof.
  induction n as [|n IH]; intros i j out Hi Hl.
  { unfold slice. rewrite Z.add_0_r, Z.sub_diag. done. }
  cbn [map1_loop]. destruct (rd_total X i) as [x Hx]; [lia|]. rewrite Hx. cbn [mbind res_bind].
  rewrite <- (slice_app X i (i + 1)) by lia. rewrite fmap_app.
  replace (slice X i (i + 1)) with [x].
  2: { apply rd_Ok in Hx. unfold slice. replace (Z.to_nat (i + 1 - i)) with 1%nat by lia.
       rewrite zlookup_to_nat in Hx by lia. erewrite drop_S by done. by rewrite firstn_cons, take_0. }
  cbn [fmap list_fmap app wr_list]. destruct (wr out j (g x)) as [o| | |]; cbn [mbind res_bind]; try done.
  rewrite IH by lia. by replace (i + 1 + Z.of_nat n) with (i + Z.of_nat (Datatypes.S n)) by lia.
Qed.

(** The kernel for several scalars, at a block, is a loop over its rows. *)
Lemma eq_mult_loop (X svals vs : list Z) lb ub out :
  StronglySorted Z.le svals -> (forall x, x ∈ svals <-> x ∈ vs) -> 0 <= lb < ub -> ub <= zlen X ->
  eq_mult MultScalar.cmp_eq_mult_scalar X svals (zlen svals) lb (ub - lb) out
  = map1_loop (fun x => Ok (Z.b2z (bool_decide (x ∈ vs)))) (Z.to_nat (ub - lb)) X lb out lb.
Proof.
  intros Hs Hin Hlb Hub. unfold eq_mult. replace (lb + (ub - lb)) with ub by lia.
  pose proof (slice_length X lb ub ltac:(lia) Hub) as Hl. rewrite <- Hl.
  rewrite MultScalar.cmp_eq_mult_scalar_correct by done. cbn [mbind res_bind]. rewrite to_nat_zlen, wr_list_map1 by (unfold zlen in *; lia).
  f_equal. replace (lb + Z.of_nat (length (slice X lb ub))) with ub by (unfold zlen in Hl; lia).
  unfold MultScalar.members. apply list_fmap_ext. intros _ x _. unfold MultScalar.b2z.
  rewrite (bool_decide_ext _ _ (Hin x)). by case_bool_decide.
Qed.

Lemma eq_block t w X s lb nX out :
  t = I1 /\ w = 8 \/ t = I2 /\ w = 16 \/ t = I4 /\ w = 32 -> num_scalar_vals s <> 1 ->
  f1s1opf2_block t (Ints X) s "==" lb nX I1 (Ints out)
  = out ← eq_mult MultScalar.cmp_eq_mult_scalar X (svals_of t s) (num_scalar_vals s) lb nX out; Ok (Ints out).
Proof.
  intros Ht Hn. apply Z.eqb_neq in Hn. destruct Ht as [[-> _]|[[-> _]|[-> _]]]; cbn [f1s1opf2_block svals_of];
    unfold f1s1opf2_I1, f1s1opf2_I2, f1s1opf2_I4; strcmp_tac; rewrite Hn; reflexivity.
Qed.

(** A run whose blocks write a flag for every row. *)
Lemma flag_rows strtod t str s op (g : Z -> Z) (X : list Z) nn n old :
  break_into_scalars strtod str t = Ok s -> get_type_op_fld "f1s1opf2" op t t (Some ""%string) old = Ok I1 ->
  0 < n < 2 ^ 29 -> zlen X = n -> has_len n nn ->
  (forall lb ub out, 0 <= lb < ub -> ub <= n -> zlen out = n ->
     f1s1opf2_block t (Ints X) s op lb (ub - lb) I1 (Ints out)
     = out ← map1_loop (fun x => Ok (g x)) (Z.to_nat (ub - lb)) X lb out lb; Ok (Ints out)) ->
  vec_f1s1opf2 strtod n t (Ints X) nn str op old = Ok (Ints (g <$> X), nn, I1).
Proof.
  intros Hs Ht Hn LX Lnn Hb.
  assert (n / 8192 < INT_MAX) as Hq by (apply Z.div_lt_upper_bound; unfold INT_MAX; lia).
  destruct (scalar_blocks (KII (fun x => Ok (g x))) (Ints X) I1 (Int <$> (g <$> X)) n nn
    (fun x z => row_kernel1 (KII (fun x => Ok (g x))) x z)
    (fun lb nX op_X => f1s1opf2_block t (Ints X) s op lb nX I1 op_X)) as (bs & nT & R & Hp & HZ & Hc & E); try done; try lia.
  - cbn [cells]. by rewrite zlen_fmap.
  - cbn [cells]. apply Forall2_fmap_l, Forall2_fmap_r, Forall2_fmap_r, Forall_Forall2_diag, Forall_forall. done.
  - intros lb ub [out|out] Hlb Hub Ho Lo; [|by destruct Ho as [Ho|Ho]]. cbn [cells] in Lo. rewrite zlen_fmap in Lo.
    cbn [run_kernel1]. by apply Hb.
  - destruct R as [R|R]; [|by destruct Hc as [Hc|Hc]]. cbn [cells] in HZ. apply (inj (fmap Int)) in HZ as ->.
    unfold vec_f1s1opf2, f1s1opf2_blocks. rewrite Hs. cbn [mbind res_bind]. rewrite Hp. cbn [mbind res_bind]. rewrite Ht.
    cbn [mbind res_bind get_fld_sz]. rewrite (mk_size_ok (1 * n)) by lia. cbn [mbind res_bind].
    replace (match nn with Some _ => mk_size n | None => Ok tt end) with (Ok tt) by (destruct nn; [by rewrite mk_size_ok by lia|done]).
    cbn [mbind res_bind]. by rewrite E.
Qed.

(** [==] with several scalars: a row gives 1 when it is one of them,
    however many they are (up to 32), in whatever order, by linear or binary
    search, in one block or many. *)
Theorem vec_f1s1opf2_member strtod t w ts (vs X : list Z) nn n old :
  t = I1 /\ w = 8 \/ t = I2 /\ w = 16 \/ t = I4 /\ w = 32 ->
  2 <= zlen ts <= MAX_NUM_SCALARS -> Forall token ts -> Forall2 (fun t v => strtoll t = (v, ""%string)) ts vs ->
  Forall (inS w) vs -> 0 < n < 2 ^ 29 -> zlen X = n -> has_len n nn ->
  vec_f1s1opf2 strtod n t (Ints X) nn (String.concat ":" ts) "==" old
  = Ok (Ints ((fun x => Z.b2z (bool_decide (x ∈ vs))) <$> X), nn, I1).
Proof.
  intros Ht Hts Htok Hvs Hin Hn LX Lnn.
  destruct (break_several strtod t w ts vs Ht Hts Htok Hvs Hin) as (s & Hs & Hnum & Hsv).
  set (sv := merge_sort (fun x y => Is_true (Z.leb x y)) vs) in *.
  assert (forall x, x ∈ sv <-> x ∈ vs) as Hmem by (intros x; unfold sv; by rewrite (merge_sort_Permutation _ vs)).
  assert (zlen sv = zlen ts) as Lsv.
  { unfold zlen, sv. rewrite (Permutation_length (merge_sort_Permutation _ vs)). by rewrite (Forall2_length _ _ _ Hvs). }
  apply (flag_rows strtod t _ s); try done.
  - destruct Ht as [[-> _]|[[-> _]|[-> _]]]; reflexivity.
  - intros lb ub out Hlb Hub Lo.
    rewrite <- (eq_mult_loop X sv vs lb ub out) by (try apply merge_sort_le; try done; lia).
    rewrite (eq_block t w) by (done || lia). by rewrite Hsv, Hnum, Lsv.
Qed.

Lemma vec_f1s1opf2_member_witness :
  vec_f1s1opf2 (fun s => (fzero, s)) 4 I4 (Ints [7; 8; -3; 0]) (Some [1; 0; 1; 1]) (String.concat ":" ["7"; "-3"]%string) "==" B
  = Ok (Ints [1; 0; 1; 0], Some [1; 0; 1; 1], I1).
Proof.
  apply (vec_f1s1opf2_member (fun s => (fzero, s)) I4 32 ["7"; "-3"]%string [7; -3] [7; 8; -3; 0] (Some [1; 0; 1; 1]) 4 B).
  - auto.
  - split; vm_compute; discriminate.
  - repeat constructor; done.
  - repeat constructor.
  - repeat constructor; done.
  - done.
  - reflexivity.
  - by intros a [= <-].
Defined.

(** ** Ranges of two scalars

    What the code tests: [>&&<] is not the open interval, its second test is
    [>=]. *)
Definition range_rslt (op : string) (a b x : Z) : option bool :=
  if strcmp_eq op "<||>" then Some ((x <? a) || (b <? x))
  else if strcmp_eq op "<=||>=" then Some ((x <=? a) || (b <=? x))
  else if strcmp_eq op ">=&&<=" then Some ((a <=? x) && (x <=? b))
  else if strcmp_eq op ">&&<" then Some ((a <? x) && (b <=? x))
  else None.

Lemma range_block op s0 s1 s X lb nX out r :
  num_scalar_vals s = 2 -> svals_I4 s = [s0; s1] -> (forall x, range_rslt op s0 s1 x = Some (r x)) ->
  f1s1opf2_block I4 (Ints X) s op lb nX I1 (Ints out)
  = out ← map1_loop (fun x => Ok (Z.b2z (r x))) (Z.to_nat nX) X lb out lb; Ok (Ints out).
Proof.
  intros Hn Hs Hr. cbn [f1s1opf2_block].
  assert (forall kernel, out_ints I1 I1 (Ints out) (kernel X lb nX s0 s1)
    = (_ ← go_BYE_if (negb (num_scalar_vals s =? 2)); a ← rd (svals_I4 s) 0; b ← rd (svals_I4 s) 1;
       out_ints I1 I1 (Ints out) (kernel X lb nX a b))) as Hrun by (intros; by rewrite Hn, Hs).
  assert (forall test, (forall x, test x s0 s1 = r x) -> out_ints I1 I1 (Ints out) (map_two_scalars test X lb nX s0 s1)
    = out ← map1_loop (fun x => Ok (Z.b2z (r x))) (Z.to_nat nX) X lb out lb; Ok (Ints out)) as Hmap.
  { intros test Ht. cbn. unfold map_two_scalars.
    by rewrite (map1_loop_ext _ (fun x => Ok (Z.b2z (r x)))) by (intros x; by rewrite Ht). }
  unfold range_rslt in Hr.
  repeat match type of Hr with
  | context [strcmp_eq op ?o] =>
      let E := fresh "E" in destruct (strcmp_eq op o) eqn:E; [apply strcmp_eq_spec in E as ->|]
  end; [..|by specialize (Hr 0)].
  all: unfold f1s1opf2_I4; strcmp_tac; rewrite <- Hrun; apply Hmap; intros x; specialize (Hr x); congruence.
Qed.

Lemma sort_two v0 v1 : merge_sort (fun x y => Is_true (Z.leb x y)) [v0; v1] = [Z.min v0 v1; Z.max v0 v1].
Proof.
  pose proof (merge_sort_le [v0; v1]) as Hs. pose proof (merge_sort_Permutation (fun x y => Is_true (Z.leb x y)) [v0; v1]) as Hp.
  symmetry in Hp. apply Permutation_length_2_inv in Hp.
  destruct Hp as [E|E]; rewrite E in *; inversion Hs as [|? ? _ Hf]; inversion Hf; subst; repeat f_equal; lia.
Qed.

(** The operators with two scalars on an I4 field: whatever the order
    of the scalars in the text, a row is compared with the smaller and the
    larger of them as [range_rslt] says.  For [>&&<] that is what the code
    tests, not the interval that the name promises. *)
Theorem vec_f1s1opf2_range strtod op t0 t1 v0 v1 r X nn n old :
  token t0 -> token t1 -> strtoll t0 = (v0, ""%string) -> strtoll t1 = (v1, ""%string) ->
  inS 32 v0 -> inS 32 v1 -> (forall x, range_rslt op (Z.min v0 v1) (Z.max v0 v1) x = Some (r x)) ->
  0 < n < 2 ^ 29 -> zlen X = n -> has_len n nn ->
  vec_f1s1opf2 strtod n I4 (Ints X) nn (String.concat ":" [t0; t1]) op old = Ok (Ints ((fun x => Z.b2z (r x)) <$> X), nn, I1).
Proof.
  intros Ht0 Ht1 H0 H1 I0 I1' Hr Hn LX Lnn.
  destruct (break_several strtod I4 32 [t0; t1] [v0; v1]) as (s & Hs & Hnum & Hsv); auto.
  { split; by vm_compute. }
  cbn [svals_of] in Hsv. rewrite sort_two in Hsv. apply (flag_rows strtod I4 _ s op (fun x => Z.b2z (r x))); try done.
  - specialize (Hr 0). unfold range_rslt in Hr. repeat match type of Hr with
    | context [strcmp_eq op ?o] =>
        let E := fresh "E" in destruct (strcmp_eq op o) eqn:E; [apply strcmp_eq_spec in E as ->; reflexivity|]
    end. discriminate Hr.
  - intros lb ub out Hlb Hub Lo. by apply (range_block op (Z.min v0 v1) (Z.max v0 v1)).
Qed.

Lemma vec_f1s1opf2_range_witness :
  vec_f1s1opf2 (fun s => (fzero, s)) 4 I4 (Ints [1; 5; 9; 12]) None (String.concat ":" ["9"; "3"]%string) ">&&<" B
  = Ok (Ints [0; 0; 1; 1], None, I1).
Proof.
  apply (vec_f1s1opf2_range (fun s => (fzero, s)) ">&&<" "9" "3" 9 3 (fun x => (3 <? x) && (9 <=? x)) [1; 5; 9; 12] None 4 B);
    try reflexivity; try done; split; by vm_compute.
Defined.

(** ** What the code does not do *)

Lemma shift_null X v nX : 0 < nX -> 0 < zlen X -> shift_right_scalar_UI4 X v 0 nX [] = Ub.
Proof.
  intros Hn HX. unfold shift_right_scalar_UI4, map_scalar.
  replace (Z.to_nat nX) with (Datatypes.S (Z.to_nat (nX - 1))) by lia. cbn [map1_loop].
  destruct (rd_total X 0) as [x ->]; [lia|]. cbn [mbind res_bind].
  unfold c_shr. by case_match.
Qed.

(** Shifting an I4 field to the right by a scalar: the operator has a
    result type and a kernel, but the kernel gets a null pointer for its
    output, so every run on a field with a row is undefined. *)
Theorem vec_f1s1opf2_shift_right strtod str s (X : list Z) nn n old :
  break_into_scalars strtod str I4 = Ok s -> 0 < n < 2 ^ 29 -> zlen X = n -> has_len n nn ->
  vec_f1s1opf2 strtod n I4 (Ints X) nn str ">>" old = Ub.
Proof.
  intros Hs Hn LX Lnn. unfold vec_f1s1opf2, f1s1opf2_blocks. rewrite Hs. cbn [mbind res_bind].
  assert (n / 8192 < INT_MAX) as Hq by (apply Z.div_lt_upper_bound; unfold INT_MAX; lia).
  destruct (partition_unlimited n 8192 ltac:(lia) ltac:(lia) Hq) as (bs & nT & Hp & _).
  destruct (partition_Ok n 8192 (-1) bs nT ltac:(lia) Hq Hp) as (_ & ? & _ & ? & Hcut & _). rewrite Hp.
  replace (get_type_op_fld "f1s1opf2" ">>" I4 I4 (Some ""%string) old) with (Ok I4) by reflexivity.
  cbn [mbind res_bind get_fld_sz]. rewrite (mk_size_ok (4 * n)) by lia. cbn [mbind res_bind].
  replace (match nn with Some _ => mk_size n | None => Ok tt end) with (Ok tt) by (destruct nn; [by rewrite mk_size_ok by lia|done]).
  cbn [mbind res_bind]. unfold tid_blocks. destruct (Z.to_nat nT) as [|m] eqn:Em; [lia|]. cbn [for_tids].
  destruct (chunk 0 n bs nT 0) as [lb ub] eqn:Ec.
  destruct (chunk_bounds n bs nT 0 lb ub ltac:(lia) Hcut ltac:(lia) Ec) as (? & ? & ?).
  unfold chunk in Ec. injection Ec as <- _. change (0 + 0 * bs) with 0 in *.
  destruct nn as [a|]; [|by cbn [f1s1opf2_block]; unfold f1s1opf2_I4; strcmp_tac; rewrite shift_null by lia].
  destruct (nn_blocks_ok n (Some a) None a (replicate (Z.to_nat n) 0) 0 ub) as (q & Eq & _); try done; try lia.
  { unfold zlen. rewrite length_replicate. lia. }
  cbn [nn_block] in Eq. unfold assign_I1. rewrite Eq. cbn [mbind res_bind f1s1opf2_block]. unfold f1s1opf2_I4.
  strcmp_tac. by rewrite shift_null by lia.
Qed.

Lemma vec_f1s1opf2_shift_right_witness :
  vec_f1s1opf2 (fun s => (fzero, s)) 2 I4 (Ints [8; 4]) (Some [1; 1]) "1" ">>" B = Ub.
Proof.
  eapply (vec_f1s1opf2_shift_right (fun s => (fzero, s)) "1" _ [8; 4]);
    [vm_compute; reflexivity|lia|reflexivity|by intros a [= <-]].
Defined.

(** A scalar for an F4 field must be larger than [FLT_MIN], the
    smallest positive normal number that the code takes for the least float:
    zero and the negative numbers are refused, whatever the operator. *)
Theorem vec_f1s1opf2_F4_refused strtod str v op X nn n old :
  count_char ":"%char str = 0 -> strtod str = (v, ""%string) -> SFltb v (widen FLT_MIN) = true ->
  vec_f1s1opf2 strtod n F4 X nn str op old = Err.
Proof.
  intros Hc Hv Hlt. unfold vec_f1s1opf2, f1s1opf2_blocks, break_into_scalars, break_floats, read_scalars, limit_F4, outside_F4.
  rewrite Hc, Hv. change (1 + 0 =? 1) with true. strcmp_tac. cbn [negb go_BYE_if mbind res_bind].
  rewrite Hlt, orb_true_r. reflexivity.
Qed.

Lemma vec_f1s1opf2_F4_refused_witness :
  vec_f1s1opf2 (fun s => (S754_finite true 1 0, ""%string)) 1 F4 (Floats [fzero]) None "-1" "+" B = Err.
Proof.
  apply (vec_f1s1opf2_F4_refused _ _ (S754_finite true 1 0)); by vm_compute.
Defined.
