(* ===== verification/VecUnary.v ===== *)
(** * Operators on one field.

    Models dir_helpers/vec_f1opf2.c, which selects a kernel or a conversion for
    a field and runs it block by block, and the conversions between bytes and
    bits (AUX/conv_I1_to_B.c, conv_B_to_I1.c).  Here a bit field is the list of
    its bytes.  [log] and [exp] of the mathematical library are arguments. *)

From stdpp Require Import prelude strings.
From Stdlib Require Import ZArith Lia SpecFloat Ascii.
From S2P Require Import Prelude CString Types Reduce Elem Vec.
Import Reduce.

(** ** Bytes and bits

    The kernels return their status and the output, which they leave partly
    written on failure. *)

(** [if ( ( uix != 0 ) && ( uix != 1 ) ) { status = -1; continue; } uix <<= j; uiy |= uix;],
    the test being made only in whole bytes ([chk]). *)
Fixpoint pack_byte (chk : bool) (n : nat) (X : list Z) (xindex j : Z) (uiy : Z) (ok : bool) : res (bool * Z) :=
  match n with
  | O => Ok (ok, uiy)
  | Datatypes.S n =>
      uix ← rd X xindex;
      let uix := wrapU 32 uix in
      if chk && negb (uix =? 0) && negb (uix =? 1) then pack_byte chk n X (xindex + 1) (j + 1) uiy false
      else pack_byte chk n X (xindex + 1) (j + 1) (Z.lor uiy (wrapU 32 (Z.shiftl uix j))) ok
  end.
Fixpoint pack_bytes (n : nat) (X : list Z) (xindex : Z) (Y : list Z) (yindex : Z) (ok : bool) : res (bool * list Z) :=
  match n with
  | O => Ok (ok, Y)
  | Datatypes.S n =>
      '(ok, uiy) ← pack_byte true 8 X xindex 0 0 ok;
      Y ← wr Y yindex (wrapU 8 uiy);
      pack_bytes n X (xindex + 8) Y (yindex + 1) ok
  end.
Definition conv_I1_to_B (X : list Z) (xi nX : Z) (Y : list Z) (yi : Z) : res (bool * list Z) :=
  let n := Z.quot nX 8 in
  '(ok, Y) ← pack_bytes (Z.to_nat n) X xi Y yi true;
  if n * 8 <? nX then
    '(ok, uiy) ← pack_byte false (Z.to_nat (nX - n * 8)) X (xi + n * 8) 0 0 ok;
    Y ← wr Y (yi + n) (wrapU 8 uiy); Ok (ok, Y)
  else Ok (ok, Y).

(** Bytes of a bit field are unsigned here. *)
Fixpoint unpack_byte (n : nat) (uix : Z) (Y : list Z) (yindex : Z) : res (list Z) :=
  match n with
  | O => Ok Y
  | Datatypes.S n =>
      Y ← wr Y yindex (if Z.land uix 1 =? 1 then 1 else 0);
      unpack_byte n (Z.shiftr uix 1) Y (yindex + 1)
  end.
Fixpoint unpack_bytes (n : nat) (X : list Z) (xindex : Z) (Y : list Z) (yindex : Z) : res (list Z) :=
  match n with
  | O => Ok Y
  | Datatypes.S n =>
      uix ← rd X xindex;
      Y ← unpack_byte 8 uix Y yindex;
      unpack_bytes n X (xindex + 1) Y (yindex + 8)
  end.
Definition conv_B_to_I1 (X : list Z) (xi nX : Z) (Y : list Z) (yi : Z) : res (list Z) :=
  let n := Z.quot nX 8 in
  Y ← unpack_bytes (Z.to_nat n) X xi Y yi;
  if n * 8 <? nX then
    uix ← rd X (xi + n);
    unpack_byte (Z.to_nat (nX - n * 8)) uix Y (yi + n * 8)
  else Ok Y.

Example conv_I1_to_B_ex : conv_I1_to_B [1;0;1;1;0;0;0;1; 0;1] 0 10 [0; 0] 0 = Ok (true, [141; 2]).
Proof. vm_compute. reflexivity. Qed.
Example conv_B_to_I1_ex : conv_B_to_I1 [141; 2] 0 10 (replicate 10 7) 0 = Ok [1;0;1;1;0;0;0;1; 0;1].
Proof. vm_compute. reflexivity. Qed.

(** ** One field *)

Section one_field.
Variables log exp : float -> float.

Definition f1opf2_F8 (f1_X : list float) (op : string) (lb nX : Z) (dst : FLD_TYPE) (op_X : column)
    (nn_op_X : option (list Z)) : res (column * option (list Z)) :=
  let conv := strcmp_eq op "conv" in
  let only_op r := op_X ← r; Ok (op_X, nn_op_X) in
  let flt t kernel := only_op (out_floats t dst op_X (fun out => kernel f1_X lb nX out lb)) in
  let int t kernel := only_op (out_ints t dst op_X (fun out => kernel f1_X lb nX out lb)) in
  if conv && bool_decide (dst = F4) then flt F4 conv_F8_to_F4
  else if conv && bool_decide (dst = I8) then int I8 conv_F8_to_I8
  else if conv && bool_decide (dst = I4) then int I4 conv_F8_to_I4
  else if strcmp_eq op "sqrt" then flt F8 vec_sqrt_F8
  else if strcmp_eq op "abs" then flt F8 vec_abs_F8
  else if strcmp_eq op "reciprocal" then flt F8 vec_reciprocal_F8
  else if strcmp_eq op "normal_cdf_inverse" then
    match op_X with
    | Floats out =>
        if decide (dst = F8) then
          '(out, flags) ← vec_normal_cdf_inverse log f1_X lb nX nn_op_X out lb;
          Ok (Floats out, match nn_op_X with Some _ => Some flags | None => None end)
        else Ub
    | Ints _ => Ub
    end
  else if strcmp_eq op "pval_from_zval" then flt F8 (vec_pval_from_zval exp)
  else Err.

Definition f1opf2_I4 (f1_X : list Z) (op : string) (lb nX : Z) (dst : FLD_TYPE) (op_X : column) : res column :=
  let conv := strcmp_eq op "conv" in
  let flt t kernel := out_floats t dst op_X (fun out => kernel f1_X lb nX out lb) in
  let int t kernel := out_ints t dst op_X (fun out => kernel f1_X lb nX out lb) in
  if conv && bool_decide (dst = I1) then int I1 conv_I4_to_I1
  else if conv && bool_decide (dst = I2) then int I2 conv_I4_to_I2
  else if conv && bool_decide (dst = I8) then int I8 conv_I4_to_I8
  else if conv && bool_decide (dst = F4) then flt F4 conv_I4_to_F4
  else if conv && bool_decide (dst = F8) then flt F8 conv_I4_to_F8
  else if strcmp_eq op "!" then int I4 not_I4
  else if strcmp_eq op "~" then int I4 ones_complement_I4
  else if strcmp_eq op "++" then int I4 incr_I4
  else if strcmp_eq op "--" then int I4 decr_I4
  else if strcmp_eq op "bitcount" then int I4 bitcount_I4
  else Err.

Definition f1opf2_I8 (f1_X : list Z) (op : string) (lb nX : Z) (dst : FLD_TYPE) (op_X : column) : res column :=
  let conv := strcmp_eq op "conv" in
  let flt t kernel := out_floats t dst op_X (fun out => kernel f1_X lb nX out lb) in
  let int t kernel := out_ints t dst op_X (fun out => kernel f1_X lb nX out lb) in
  if conv && bool_decide (dst = I1) then int I1 conv_I8_to_I1
  else if conv && bool_decide (dst = I4) then int I4 conv_I8_to_I4
  else if conv && bool_decide (dst = F4) then flt F4 conv_I8_to_F4
  else if strcmp_eq op "!" then int I8 not_I8
  else if strcmp_eq op "~" then int I8 ones_complement_I8
  else if strcmp_eq op "++" then int I8 incr_I8
  else if strcmp_eq op "--" then int I8 decr_I8
  else if strcmp_eq op "bitcount" then int I4 bitcount_I8
  else if conv && bool_decide (dst = F8) then flt F8 conv_I8_to_F8
  else Err.

(** The pointer to the input is not moved to the block ([f1I4] is, instead of
    [f1F4]), and the one to an I4 output is null. *)
Definition f1opf2_F4 (f1_X : list float) (op : string) (lb nX : Z) (dst : FLD_TYPE) (op_X : column) : res column :=
  let conv := strcmp_eq op "conv" in
  let flt t kernel := out_floats t dst op_X (fun out => kernel f1_X 0 nX out lb) in
  if conv && bool_decide (dst = I4) then _ ← conv_F4_to_I4 f1_X 0 nX [] 0; Ok op_X
  else if conv && bool_decide (dst = I8) then
    out_ints I8 dst op_X (fun out => conv_F4_to_I8 f1_X 0 nX out lb)
  else if conv && bool_decide (dst = F8) then flt F8 conv_F4_to_F8
  else if strcmp_eq op "sqrt" then flt F4 vec_sqrt_F4
  else if strcmp_eq op "abs" then flt F4 vec_abs_F4
  else if strcmp_eq op "reciprocal" then flt F4 vec_reciprocal_F4
  else Err.

(** The conversion's status replaces the one of the blocks before. *)
Definition f1opf2_B (f1_X : list Z) (op : string) (lb nX : Z) (dst : FLD_TYPE) (ok : bool) (op_X : column)
    : res (bool * column) :=
  if negb (Z.quot lb 8 * 8 =? lb) then Ok (false, op_X)
  else if strcmp_eq op "conv" && bool_decide (dst = I1) then
    op_X ← out_ints I1 dst op_X (fun out => conv_B_to_I1 f1_X (Z.quot lb 8) nX out lb);
    Ok (true, op_X)
  else Ok (false, op_X).

(** The pointers are moved by [lb] bytes after each block, [f1_X] once and
    [op_X] twice; [a] and [b] are how far.  A cell that is not aligned is
    undefined. *)
Definition f1opf2_I2 (f1_X : list Z) (op : string) (nX a b lb : Z) (dst : FLD_TYPE) (op_X : column) : res column :=
  let conv := strcmp_eq op "conv" in
  let at_byte off size := if off mod size =? 0 then Ok (off / size) else Ub in
  if conv && bool_decide (dst = I8) then
    i ← at_byte a 2; j ← at_byte (b + lb) 8;
    out_ints I8 dst op_X (fun out => conv_I2_to_I8 f1_X i nX out j)
  else if conv && bool_decide (dst = I4) then
    i ← at_byte a 2; j ← at_byte b 4;
    out_ints I4 dst op_X (fun out => conv_I2_to_I4 f1_X i nX out j)
  else Err.

Definition f1opf2_I1 (f1_X : list Z) (op : string) (lb nX : Z) (dst : FLD_TYPE) (ok : bool) (op_X : column)
    : res (bool * column) :=
  let conv := strcmp_eq op "conv" in
  let int t kernel := keep ok op_X (out_ints t dst op_X (fun out => kernel f1_X lb nX out lb)) in
  if conv && bool_decide (dst = I8) then int I8 conv_I1_to_I8
  else if conv && bool_decide (dst = I4) then int I4 conv_I1_to_I4
  else if conv && bool_decide (dst = B) then
    if negb (Z.rem lb 8 =? 0) then Ok (false, op_X)
    else
      match op_X with
      | Ints out => '(ok, out) ← conv_I1_to_B f1_X lb nX out (Z.quot lb 8); Ok (ok, Ints out)
      | Floats _ => Ub
      end
  else if strcmp_eq op "!" then int I1 not_I1
  else if strcmp_eq op "~" then int I1 ones_complement_I1
  else Ok (false, op_X).

(** The output, and how far the pointers are moved. *)
Record f1opf2_state := { o_X : column; o_nn : option (list Z); in_off : Z; op_off : Z }.

Definition f1opf2_block (src_fldtype : FLD_TYPE) (f1_X : column) (op : string) (dst : FLD_TYPE) (lb nX : Z)
    (ok : bool) (s : f1opf2_state) : res (bool * f1opf2_state) :=
  let upd op_X := {| o_X := op_X; o_nn := o_nn s; in_off := in_off s; op_off := op_off s |} in
  let plain r := keep ok s (op_X ← r; Ok (upd op_X)) in
  match src_fldtype, f1_X with
  | F8, Floats X =>
      keep ok s ('(op_X, flags) ← f1opf2_F8 X op lb nX dst (o_X s) (o_nn s);
                 Ok {| o_X := op_X; o_nn := flags; in_off := in_off s; op_off := op_off s |})
  | I4, Ints X => plain (f1opf2_I4 X op lb nX dst (o_X s))
  | I8, Ints X => plain (f1opf2_I8 X op lb nX dst (o_X s))
  | F4, Floats X => plain (f1opf2_F4 X op lb nX dst (o_X s))
  | B, Ints X => '(ok, op_X) ← f1opf2_B X op lb nX dst ok (o_X s); Ok (ok, upd op_X)
  | I2, Ints X =>
      keep ok s (op_X ← f1opf2_I2 X op nX (in_off s) (op_off s) lb dst (o_X s);
                 Ok {| o_X := op_X; o_nn := o_nn s; in_off := in_off s + lb; op_off := op_off s + 2 * lb |})
  | I1, Ints X => '(ok, op_X) ← f1opf2_I1 X op lb nX dst ok (o_X s); Ok (ok, upd op_X)
  | (F8 | I4 | I8 | F4 | B | I2 | I1), _ => Ub
  | _, _ => Ok (false, s)
  end.

Definition BUFLEN : Z := 32.
Definition dst_type (src_fldtype : FLD_TYPE) (op str_op_spec : string) (old : FLD_TYPE) : res FLD_TYPE :=
  if strcmp_eq op "conv" then
    s ← extract_S (Some str_op_spec) "newtype=[" "]" BUFLEN;
    _ ← go_BYE_if (bool_decide (s = None));
    unstr_fldtype s
  else get_type_op_fld "f1opf2" op src_fldtype src_fldtype (Some str_op_spec) old.

(** The sizes of the two files, and the number of cells of the first. *)
Definition file_sizes (src_fldtype dst : FLD_TYPE) (nR : Z) : res (Z * Z * Z) :=
  if bool_decide (src_fldtype = I1) && bool_decide (dst = B) then
    filesz ← get_file_size_B nR; Ok (filesz, -1, filesz)
  else if bool_decide (dst = I1) && bool_decide (src_fldtype = B) then Ok (nR, -1, nR)
  else fldsz ← get_fld_sz dst; Ok (nR * fldsz, nR, nR).

(** The loop over blocks, on the new files. *)
Definition f1opf2_blocks (nR : Z) (src_fldtype : FLD_TYPE) (f1_X : column) (op : string) (dst : FLD_TYPE) (block_size nT : Z)
    (s : f1opf2_state) : res f1opf2_state :=
  for_tids (Z.to_nat nT) 0
    (fun tid ok s => let '(lb, ub) := chunk 0 nR block_size nT tid in
                     f1opf2_block src_fldtype f1_X op dst lb (ub - lb) ok s) true s.

(** [filesz] is a [size_t] in [mk_temp_file]: -1 is a size that no file
    has. *)
Definition vec_f1opf2 (nR : Z) (src_fldtype : FLD_TYPE) (f1_X : column) (nn_f1_X : option (list Z))
    (op str_op_spec : string) (old : FLD_TYPE) : res (column * option (list Z) * FLD_TYPE) :=
  '(block_size, nT) ← partition nR 1024 (-1);
  dst ← dst_type src_fldtype op str_op_spec old;
  '(filesz, nn_filesz, cells) ← file_sizes src_fldtype dst nR;
  _ ← mk_size filesz;
  nn_op_X ← match nn_f1_X with
    | None => Ok None
    | Some nn_f1_X =>
        if bool_decide (dst = B) then Ok None
        else _ ← mk_size nn_filesz;
             out ← assign_I1 nn_f1_X 0 nR (replicate (Z.to_nat nR) 0); Ok (Some out)
    end;
  s ← f1opf2_blocks nR src_fldtype f1_X op dst block_size nT
    {| o_X := new_column dst cells; o_nn := nn_op_X; in_off := 0; op_off := 0 |};
  Ok (o_X s, o_nn s, dst).
End one_field.

(** ** Reference semantics

    What an operator gives for a row, independent of kernels and blocks. *)

(** The number of ones among the [w] bits of [x]. *)
Definition bit_count (w x : Z) : Z := zlen (filter (fun i => Z.testbit x (Z.of_nat i) = true) (seq 0 (Z.to_nat w))).

(** The integer conversions that have a kernel. *)
Definition conv_pair (src dst : FLD_TYPE) : Prop :=
  (src, dst) ∈ [(I4, I1); (I4, I2); (I4, I8); (I8, I1); (I8, I4); (I1, I4); (I1, I8)].

Inductive usem : FLD_TYPE -> string -> FLD_TYPE -> value -> value -> Prop :=
| usem_conv src dst w w' x : conv_pair src dst -> int_bits src = Some w -> int_bits dst = Some w' -> inS w x ->
    usem src "conv" dst (Int x) (Int (wrapS w' x))
| usem_conv_F4 src x : src = I4 \/ src = I8 -> usem src "conv" F4 (Int x) (Flt (binary_normalize 24 128 x 0 false))
| usem_conv_F8 src x : src = I4 \/ src = I8 -> usem src "conv" F8 (Int x) (Flt (binary_normalize 53 1024 x 0 false))
| usem_trunc dst w x z : dst = I4 \/ dst = I8 -> int_bits dst = Some w -> trunc_Z w x = Ok z ->
    usem F8 "conv" dst (Flt x) (Int z)
| usem_narrow x : usem F8 "conv" F4 (Flt x) (Flt (narrow x))
| usem_not t x : t = I1 \/ t = I4 \/ t = I8 -> usem t "!" t (Int x) (Int (if decide (x = 0) then 1 else 0))
| usem_compl t x : t = I1 \/ t = I4 \/ t = I8 -> usem t "~" t (Int x) (Int (- x - 1))
| usem_incr t w x : t = I4 \/ t = I8 -> int_bits t = Some w -> inS w (x + 1) -> usem t "++" t (Int x) (Int (x + 1))
| usem_decr t w x : t = I4 \/ t = I8 -> int_bits t = Some w -> inS w (x - 1) -> usem t "--" t (Int x) (Int (x - 1))
| usem_bitcount t w x : t = I4 \/ t = I8 -> int_bits t = Some w -> usem t "bitcount" I4 (Int x) (Int (bit_count w x))
| usem_sqrt x : usem F8 "sqrt" F8 (Flt x) (Flt (SFsqrt 53 1024 x))
| usem_abs x : usem F8 "abs" F8 (Flt x) (Flt (SFabs x)).

Lemma filter_ext_Forall {A} (P Q : A -> Prop) `{!forall x, Decision (P x), !forall x, Decision (Q x)} (l : list A) :
  Forall (fun x => P x <-> Q x) l -> filter P l = filter Q l.
Proof.
  induction 1 as [|x l Hx _ IH]; [done|]. rewrite !filter_cons, IH. repeat case_decide; tauto || done.
Qed.

Lemma length_filter_fmap {A C} (f : C -> A) (P : A -> Prop) (Q : C -> Prop) `{!forall x, Decision (P x), !forall x, Decision (Q x)} l :
  (forall x, P (f x) <-> Q x) -> length (filter P (f <$> l)) = length (filter Q l).
Proof.
  intros HPQ. induction l as [|x l IH]; [done|]. rewrite fmap_cons, !filter_cons. specialize (HPQ x).
  repeat case_decide; cbn [length]; rewrite ?IH; tauto || done.
Qed.

(** Shifting the value moves the bits. *)
Lemma bit_count_shift n x : 0 <= n -> bit_count (1 + n) x = Z.b2z (Z.odd x) + bit_count n (Z.shiftr x 1).
Proof.
  intros Hn. unfold bit_count. rewrite (Z2Nat.inj_add 1 n) by lia. change (Z.to_nat 1 + Z.to_nat n)%nat with (Datatypes.S (Z.to_nat n)).
  cbn [seq]. rewrite <- (fmap_S_seq 0), filter_cons, Z.bit0_odd. unfold zlen.
  assert (forall l, length (filter (fun i => Z.testbit x (Z.of_nat i) = true) (Datatypes.S <$> l))
    = length (filter (fun i => Z.testbit (Z.shiftr x 1) (Z.of_nat i) = true) l)) as E.
  { intros l. apply length_filter_fmap. intros i. rewrite Z.shiftr_spec by lia.
    by replace (Z.of_nat i + 1) with (Z.of_nat (Datatypes.S i)) by lia. }
  destruct (Z.odd x); case_decide; try done; cbn [length]; rewrite E; simpl; lia.
Qed.

Lemma bit_loop_popcount n : forall x acc, bit_loop n x acc = acc + bit_count (Z.of_nat n) x.
Proof.
  induction n as [|n IH]; intros x acc; cbn [bit_loop]; [unfold bit_count, zlen; simpl; lia|].
  rewrite IH. replace (Z.of_nat (Datatypes.S n)) with (1 + Z.of_nat n) by lia. rewrite bit_count_shift by lia.
  change (Z.land x 1) with (Z.land x (Z.ones 1)). rewrite Z.land_ones by lia. change (2 ^ 1) with 2.
  rewrite Zmod_odd. destruct (Z.odd x); simpl; lia.
Qed.

Lemma bit_count_wrapU w x : 0 <= w -> bit_count w (wrapU w x) = bit_count w x.
Proof.
  intros Hw. unfold bit_count. f_equal. apply filter_ext_Forall, Forall_seq. intros i Hi.
  unfold wrapU. by rewrite Z.mod_pow2_bits_low by lia.
Qed.

(** ** One kernel for an operator *)

Lemma map1_loop_of {A C} (f : A -> res C) inp i nX out j :
  0 <= nX <= INT_MAX -> map1 f inp i nX out j = map1_loop f (Z.to_nat nX) inp i out j.
Proof. intros Hn. unfold map1, INT_MAX in *. by rewrite wrapS_small by (unfold inS; lia). Qed.

Lemma not_row x : Z.b2z (x =? 0) = if decide (x = 0) then 1 else 0.
Proof. destruct (Z.eqb_spec x 0); case_decide; done. Qed.
Lemma compl_row x : Z.lnot x = - x - 1.
Proof. unfold Z.lnot. lia. Qed.
Lemma conv_row w w' x : 0 < w -> w <= w' -> inS w x -> x = wrapS w' x.
Proof.
  intros Hw Hww Hx. rewrite wrapS_small; [done|lia|]. unfold inS in *.
  pose proof (Z.pow_le_mono_r 2 (w - 1) (w' - 1) ltac:(lia) ltac:(lia)). lia.
Qed.

Definition with_X (s : f1opf2_state) (op_X : column) : f1opf2_state :=
  {| o_X := op_X; o_nn := o_nn s; in_off := in_off s; op_off := op_off s |}.

(** The kernel [k] runs the operator on a block. *)
Definition runs_block log exp (src : FLD_TYPE) (op : string) (dst : FLD_TYPE) (k : kernel1) : Prop :=
  forall X lb nX s, 0 <= nX <= INT_MAX -> cells_of src X -> cells_of dst (o_X s) ->
    f1opf2_block log exp src X op dst lb nX true s
    = keep true s (op_X ← run_kernel1 k X lb nX (o_X s); Ok (with_X s op_X)).

Ltac unfold_kernels :=
  unfold f1opf2_F8, f1opf2_I4, f1opf2_I8, f1opf2_I1,
    conv_I1_to_I4, conv_I1_to_I8, conv_I4_to_I1, conv_I4_to_I2, conv_I4_to_I8, conv_I4_to_F4, conv_I4_to_F8,
    conv_I8_to_I1, conv_I8_to_I4, conv_I8_to_F4, conv_I8_to_F8, conv_F8_to_I4, conv_F8_to_I8, conv_F8_to_F4,
    not_I1, not_I4, not_I8, ones_complement_I1, ones_complement_I4, ones_complement_I8, incr_I4, incr_I8,
    decr_I4, decr_I8, bitcount_I4, bitcount_I8, vec_sqrt_F8, vec_abs_F8.
Ltac unary_block_tac :=
  let X := fresh "X" in let lb := fresh "lb" in let nX := fresh "nX" in let out := fresh "out" in
  let Hn := fresh "Hn" in let HX := fresh "HX" in let Ho := fresh "Ho" in
  intros [X|X] lb nX [[out|out] q a b] Hn HX Ho; cbn in HX, Ho; try (intuition discriminate);
    cbn [f1opf2_block o_X o_nn in_off op_off run_kernel1]; unfold_kernels; strcmp_tac;
    types_tac; cbn [out_ints out_floats]; rewrite ?decide_True by done;
    lazymatch goal with
    | |- context [map1 ?g X lb nX out lb] =>
        lazymatch goal with
        | |- context [map1_loop ?f (Z.to_nat nX) X lb out lb] =>
            unify f g; rewrite (map1_loop_of g X lb nX out lb Hn); by destruct (map1_loop g (Z.to_nat nX) X lb out lb)
        end
    end.
Ltac unary_row_tac :=
  let x := fresh "x" in let z := fresh "z" in let H := fresh "H" in
  intros x z H; inversion H; subst; cbn [row_kernel1];
    unfold c_not, c_compl; rewrite ?bit_loop_popcount; change (Z.of_nat 32) with 32; change (Z.of_nat 64) with 64;
    repeat match goal with
    | H : _ \/ _ |- _ => destruct H; subst; try discriminate
    | H : conv_pair _ _ |- _ => unfold conv_pair in H; rewrite !elem_of_cons in H
    | H : _ ∈ [] |- _ => by apply not_elem_of_nil in H
    | H : int_bits _ = Some _ |- _ => injection H as <-
    end;
    rewrite ?bit_count_wrapU, ?not_row, ?compl_row, ?c_add_ok, ?c_sub_ok by done; try done; f_equal;
    (eapply conv_row; [..|eassumption]; done).
Ltac by_unary k := eexists (k _); split; [unary_block_tac|split; [cbn; auto; done|unary_row_tac]].

Lemma usem_kernel log exp src op dst x0 z0 :
  usem src op dst x0 z0 ->
  exists k, runs_block log exp src op dst k /\ kernel1_type k dst /\ (forall x z, usem src op dst x z -> row_kernel1 k x z).
Proof.
  intros Hs. inversion Hs; subst; clear Hs;
    repeat match goal with
    | H : _ \/ _ |- _ => destruct H; subst; try discriminate
    | H : conv_pair _ _ |- _ => unfold conv_pair in H; rewrite !elem_of_cons in H
    | H : _ ∈ [] |- _ => by apply not_elem_of_nil in H
    end; simplify_eq/=.
  all: first [by_unary KII | by_unary KFF | by_unary KFI | by_unary KIF].
Qed.

(** ** Runs *)

Lemma replicate_len {A} (n : Z) (x : A) : 0 <= n -> zlen (replicate (Z.to_nat n) x) = n.
Proof. intros Hn. unfold zlen. rewrite length_replicate. lia. Qed.

(** The flags are copied at once. *)
Lemma assign_all (a : list Z) n : 0 <= n -> zlen a = n -> assign_I1 a 0 n (replicate (Z.to_nat n) 0) = Ok a.
Proof.
  intros Hn La. destruct (map_scalar_ok (fun x (_ : unit) => Ok x) a tt a 0 n (replicate (Z.to_nat n) 0)) as (o & E & P);
    [lia|rewrite replicate_len; lia| |].
  - intros k Hk. destruct (zlookup_is_Some a k) as [v Hv]; [lia|]. by exists v, v.
  - rewrite Z.sub_0_r in E. trans (Ok o); [exact E|]. f_equal.
    apply (patched_all a (replicate (Z.to_nat n) 0)); [rewrite replicate_len; lia|by rewrite La].
Qed.

(** Everything before the loop over blocks. *)
Lemma vec_f1opf2_run log exp src X nn op spec old dst sz n bs nT :
  0 < n < 2 ^ 29 -> has_len n nn -> partition n 1024 (-1) = Ok (bs, nT) ->
  dst_type src op spec old = Ok dst -> get_fld_sz dst = Ok sz -> 1 <= sz <= 8 -> dst <> B -> src <> B ->
  vec_f1opf2 log exp n src X nn op spec old
  = s ← for_tids (Z.to_nat nT) 0
      (fun tid ok s => let '(lb, ub) := chunk 0 n bs nT tid in f1opf2_block log exp src X op dst lb (ub - lb) ok s) true
      {| o_X := new_column dst n; o_nn := nn; in_off := 0; op_off := 0 |};
    Ok (o_X s, o_nn s, dst).
Proof.
  intros Hn Lnn Hp Hd Hsz Hr HB HB'. unfold vec_f1opf2, f1opf2_blocks. rewrite Hp. cbn [mbind res_bind]. rewrite Hd. cbn [mbind res_bind].
  unfold file_sizes. rewrite (bool_decide_eq_false_2 (dst = B)), (bool_decide_eq_false_2 (src = B)) by done.
  rewrite !andb_false_r, Hsz. cbn [mbind res_bind].
  rewrite (mk_size_ok (n * sz)) by (split; [nia|apply (Z.le_lt_trans _ (n * 8)); [nia|lia]]). cbn [mbind res_bind].
  destruct nn as [a|]; [|done]. rewrite (mk_size_ok n) by lia. cbn [mbind res_bind].
  rewrite assign_all by (by auto || lia). done.
Qed.

Lemma usem_types src op dst x z :
  usem src op dst x z -> exists sz, get_fld_sz dst = Ok sz /\ 1 <= sz <= 8 /\ src <> B /\ dst <> B.
Proof.
  intros H. inversion H; subst; repeat match goal with
    | H : _ \/ _ |- _ => destruct H; simplify_eq
    | H : conv_pair _ _ |- _ => unfold conv_pair in H; rewrite !elem_of_cons in H
    | H : _ ∈ [] |- _ => by apply not_elem_of_nil in H
    end; eexists; (split; [reflexivity|]); (split; [lia|done]).
Qed.

(** The loop over the blocks. *)
Lemma f1opf2_rows log exp src op dst X nn n Zs :
  0 < n < 2 ^ 29 -> cells_of src X -> zlen (cells X) = n -> Forall2 (usem src op dst) (cells X) Zs ->
  exists bs nT s sz, partition n 1024 (-1) = Ok (bs, nT) /\ get_fld_sz dst = Ok sz /\ 1 <= sz <= 8 /\ src <> B /\ dst <> B /\
    f1opf2_blocks log exp n src X op dst bs nT {| o_X := new_column dst n; o_nn := nn; in_off := 0; op_off := 0 |} = Ok s /\
    o_nn s = nn /\ cells (o_X s) = Zs /\ cells_of dst (o_X s).
Proof.
  intros Hn Hc LX HF. pose proof (Forall2_length _ _ _ HF) as LZ.
  destruct (zlookup_is_Some (cells X) 0) as [x Hx]; [lia|]. rewrite zlookup_to_nat in Hx by lia.
  destruct (Forall2_lookup_l _ _ _ _ _ HF Hx) as (z & _ & Hsem).
  destruct (usem_kernel log exp src op dst x z Hsem) as (k & Hb & Hk & Hr).
  destruct (usem_types src op dst x z Hsem) as (sz & Hsz & Hbnd & HsB & HdB).
  assert (n / 1024 < INT_MAX) as Hq by (apply Z.div_lt_upper_bound; unfold INT_MAX; lia).
  destruct (partition_unlimited n 1024 ltac:(lia) ltac:(lia) Hq) as (bs & nT & Hp & _).
  destruct (partition_Ok n 1024 (-1) bs nT ltac:(lia) Hq Hp) as (_ & ? & _ & ? & Hcut & _).
  pose proof (partition_block n 1024 bs nT ltac:(lia) ltac:(lia) Hq Hp).
  set (s0 := {| o_X := new_column dst n; o_nn := nn; in_off := 0; op_off := 0 |}).
  destruct (chunks_ok (fun lb s => cells_of dst (o_X s) /\ patched Zs 0 lb (cells (new_column dst n)) (cells (o_X s)) /\ o_nn s = nn)
    n bs nT (fun lb nX ok s => f1opf2_block log exp src X op dst lb nX ok s) s0) as (s & E & Hc' & Hpt & Hnn); try lia.
  - split; [apply new_column_cells|]. split; [apply patched_refl|done].
  - intros tid lb ub s _ _ _ Hlb Hlt Hub Hsmall (Hcs & Hps & Hns). pose proof (proj1 Hps) as Lo. rewrite new_column_len in Lo by lia.
    rewrite Hb by (try done; unfold INT_MAX; lia).
    destruct (kernel1_block k X dst (usem src op dst) Zs lb ub (o_X s)) as (o' & -> & Hc' & Hpt'); try done; [lia|lia|].
    cbn [mbind res_bind keep]. eexists. split; [done|]. split; [done|]. split; [|done].
    by apply (patched_trans _ 0 lb ub _ (cells (o_X s))); try lia.
  - exists bs, nT, s, sz. split_and!; try done; try lia. assert (zlen Zs = n) as Lz by (unfold zlen in *; lia).
    apply (patched_all Zs (cells (new_column dst n))); [rewrite new_column_len; lia|by rewrite Lz].
Qed.

(** An operator on one field: when every row has a value by the
    reference semantics, [vec_f1opf2] succeeds, for every number of blocks,
    with exactly these values, the flags of the field and the type computed for
    the result. *)
Theorem vec_f1opf2_correct log exp src op spec old dst X nn n Zs :
  0 < n < 2 ^ 29 -> dst_type src op spec old = Ok dst ->
  cells_of src X -> zlen (cells X) = n -> has_len n nn ->
  Forall2 (usem src op dst) (cells X) Zs ->
  exists R, vec_f1opf2 log exp n src X nn op spec old = Ok (R, nn, dst) /\ cells R = Zs /\ cells_of dst R.
Proof.
  intros Hn Hd Hc LX Lnn HF.
  destruct (f1opf2_rows log exp src op dst X nn n Zs) as (bs & nT & s & sz & Hp & Hsz & Hb & HsB & HdB & E & Hnn & HZ & Hc'); try done.
  exists (o_X s). split; [|done]. rewrite (vec_f1opf2_run _ _ _ _ _ _ _ _ dst sz n bs nT) by done.
  unfold f1opf2_blocks in E. rewrite E. by rewrite <- Hnn.
Qed.

Lemma vec_f1opf2_correct_witness :
  exists R, vec_f1opf2 (fun x => x) (fun x => x) 3 I4 (Ints [7; -1; 0]) (Some [1; 0; 1]) "bitcount" "" B
      = Ok (R, Some [1; 0; 1], I4) /\ cells R = [Int 3; Int 32; Int 0] /\ cells_of I4 R.
Proof.
  apply (vec_f1opf2_correct (fun x => x) (fun x => x) I4 "bitcount" "" B I4 (Ints [7; -1; 0]) (Some [1; 0; 1]) 3);
    [lia|reflexivity|by split|reflexivity|by intros a [= <-]|].
  change (Forall2 (usem I4 "bitcount" I4) [Int 7; Int (-1); Int 0] [Int (bit_count 32 7); Int (bit_count 32 (-1)); Int (bit_count 32 0)]).
  repeat (apply Forall2_cons; split); try (by apply Forall2_nil); apply usem_bitcount; auto.
Defined.

(** ** Blocks of an F4 field

    The pointer to the input stays at the beginning of the field. *)

Inductive F4_op : string -> FLD_TYPE -> (float -> float) -> Prop :=
| F4_abs : F4_op "abs" F4 SFabs
| F4_sqrt : F4_op "sqrt" F4 (fun x => narrow (SFsqrt 53 1024 (widen x)))
| F4_conv : F4_op "conv" F8 widen.

Lemma F4_block log exp op dst g X lb nX s out : F4_op op dst g -> 0 <= nX <= INT_MAX -> o_X s = Floats out ->
  f1opf2_block log exp F4 (Floats X) op dst lb nX true s
  = keep true s (out ← map1_loop (fun x => Ok (g x)) (Z.to_nat nX) X 0 out lb; Ok (with_X s (Floats out))).
Proof.
  intros Hop Hn Hs. destruct s as [op_X q a b]. cbn in Hs. subst op_X. rewrite <- map1_loop_of by done.
  destruct Hop; cbn [f1opf2_block o_X]; unfold f1opf2_F4; strcmp_tac; types_tac; cbn [out_floats]; rewrite decide_True by done;
    unfold vec_abs_F4, vec_sqrt_F4, conv_F4_to_F8; by destruct (map1 _ X 0 nX out lb).
Qed.

(** The beginning of the block of a row. *)
Definition block_of (bs nT k : Z) : Z := Z.min (k / bs) (nT - 1) * bs.
Lemma block_of_row n bs nT tid lb ub k : 0 < bs -> 0 <= tid < nT -> lb = tid * bs ->
  ub = (if tid =? nT - 1 then n else lb + bs) -> lb <= k < ub -> block_of bs nT k = lb.
Proof.
  intros Hbs Htid -> -> Hk. unfold block_of. f_equal.
  pose proof (Z.div_le_lower_bound k bs tid Hbs ltac:(lia)). destruct (Z.eqb_spec tid (nT - 1)); [lia|].
  pose proof (Z.div_lt_upper_bound k bs (tid + 1) Hbs ltac:(lia)). lia.
Qed.

(** An operator on an F4 field gives row [k] the value of the row
    that is as far from the beginning of the field as [k] is from the beginning
    of its block: right for the first block only. *)
Theorem vec_f1opf2_F4_blocks log exp op spec old dst g X nn n bs nT :
  0 < n < 2 ^ 29 -> partition n 1024 (-1) = Ok (bs, nT) -> zlen X = n -> has_len n nn ->
  dst_type F4 op spec old = Ok dst -> F4_op op dst g ->
  exists R, vec_f1opf2 log exp n F4 (Floats X) nn op spec old = Ok (Floats R, nn, dst) /\ zlen R = n /\
    forall k, 0 <= k < n -> R !z k = g <$> X !z (k - block_of bs nT k).
Proof.
  intros Hn Hp LX Lnn Hd Hop.
  assert (n / 1024 < INT_MAX) as Hq by (apply Z.div_lt_upper_bound; unfold INT_MAX; lia).
  destruct (partition_Ok n 1024 (-1) bs nT ltac:(lia) Hq Hp) as (_ & ? & _ & ? & Hcut & _).
  pose proof (partition_block n 1024 bs nT ltac:(lia) ltac:(lia) Hq Hp).
  set (Zs := (fun k => g (default fzero (X !z (k - block_of bs nT k)))) <$> seqZ 0 n).
  set (z := replicate (Z.to_nat n) fzero). assert (zlen z = n) as Lz by (apply replicate_len; lia).
  destruct (chunks_ok (fun lb s => o_nn s = nn /\ exists o, o_X s = Floats o /\ patched Zs 0 lb z o) n bs nT
    (fun lb nX ok s => f1opf2_block log exp F4 (Floats X) op dst lb nX ok s)
    {| o_X := Floats z; o_nn := nn; in_off := 0; op_off := 0 |}) as (s & E & Hs & o & Ho & P); try lia.
  - split; [done|]. exists z. split; [done|apply patched_refl].
  - intros tid lb ub s Htid Elb Eub Hlb Hlt Hub Hsm (Hs & o & Ho & P).
    rewrite (F4_block _ _ _ _ g X lb (ub - lb) s o) by (done || unfold INT_MAX; lia).
    destruct (map1_loop_ok (fun x => Ok (g x)) (Z.to_nat (ub - lb)) X Zs 0 lb o) as (o' & -> & P'); [lia|destruct P as [-> _]; lia| |].
    { intros k Hk. rewrite Z.add_0_l. destruct (zlookup_is_Some X k) as [x Hx]; [lia|].
      exists x, (g x). split; [done|]. split; [done|]. unfold Zs. rewrite zlookup_to_nat, list_lookup_fmap, lookup_seqZ_lt by lia.
      simpl. do 3 f_equal. rewrite (block_of_row n bs nT tid lb ub) by (done || lia). by replace (_ - lb) with k by lia; rewrite Hx. }
    cbn [mbind res_bind keep]. eexists. split; [done|]. split; [done|]. exists o'. split; [done|].
    replace (lb + Z.of_nat (Z.to_nat (ub - lb))) with ub in P' by lia. by apply (patched_trans _ 0 lb ub _ o); try lia.
  - exists o. split; [|split; [by destruct P as [-> _]; rewrite Lz|]].
    + rewrite (vec_f1opf2_run _ _ _ _ _ _ _ _ dst (match dst with F8 => 8 | _ => 4 end) n bs nT); try done;
        try (by destruct Hop). replace (new_column dst n) with (Floats z) by (by destruct Hop).
      rewrite E. cbn [mbind res_bind]. by rewrite Ho, Hs.
    + intros k Hk. destruct P as [_ P]. rewrite P, decide_True by lia. unfold Zs.
      rewrite zlookup_to_nat, list_lookup_fmap, lookup_seqZ_lt by lia. simpl. replace (0 + Z.of_nat (Z.to_nat k)) with k by lia.
      assert (0 <= k - block_of bs nT k <= k) as Hb.
      { unfold block_of. pose proof (Z.div_mod k bs ltac:(lia)). pose proof (Z.mod_pos_bound k bs ltac:(lia)).
        pose proof (Z.div_pos k bs ltac:(lia) ltac:(lia)). split; nia. }
      destruct (zlookup_is_Some X (k - block_of bs nT k)) as [x Hx]; [lia|]. by rewrite Hx.
Qed.

Lemma vec_f1opf2_F4_blocks_witness :
  exists R, vec_f1opf2 (fun x => x) (fun x => x) 2048 F4 (Floats (replicate 1024 fzero ++ replicate 1024 (flt_of_Z 1))) None "abs" "" I8
      = Ok (Floats R, None, F4) /\ zlen R = 2048 /\
    forall k, 0 <= k < 2048 ->
      R !z k = SFabs <$> (replicate 1024 fzero ++ replicate 1024 (flt_of_Z 1)) !z (k - block_of 1024 2 k).
Proof.
  apply (vec_f1opf2_F4_blocks (fun x => x) (fun x => x) "abs" "" I8 F4 SFabs
    (replicate 1024 fzero ++ replicate 1024 (flt_of_Z 1)) None 2048 1024 2).
  - split; by vm_compute.
  - by vm_compute.
  - by vm_compute.
  - done.
  - reflexivity.
  - apply F4_abs.
Defined.
