(* ===== verification/VecBits.v ===== *)
(** * Bytes and bits.

    The conversions between an I1 field and a bit field, by the kernels of
    AUX/conv_I1_to_B.c and conv_B_to_I1.c and as dir_helpers/vec_f1opf2.c runs
    them on blocks (definitions in VecUnary.v): the round trip, when the blocks
    begin at bytes, and what happens when they do not. *)

From stdpp Require Import prelude strings.
From Stdlib Require Import ZArith Lia SpecFloat Ascii.
From S2P Require Import Prelude CString Types Reduce Elem Vec VecUnary.
Import Reduce.

(** ** Reference *)

Definition boolean (x : Z) : Prop := x = 0 \/ x = 1.
Definition row_of (X : list Z) (i : Z) : Z := default 0 (X !z i).

(** Rows [i], [i + 1], ... as the bits [j], [j + 1], ... *)
Fixpoint bits (n : nat) (f : Z -> Z) (i j u : Z) : Z :=
  match n with
  | O => u
  | Datatypes.S n => bits n f (i + 1) (j + 1) (Z.lor u (Z.shiftl (f i) j))
  end.

(** Byte [k] of the first [m] rows, and all of them. *)
Definition packed_byte (X : list Z) (m k : Z) : Z := bits 8 (fun i => if i <? m then row_of X i else 0) (8 * k) 0 0.
Definition bytes (X : list Z) (m : Z) : list Z := packed_byte X m <$> seqZ 0 ((m + 7) / 8).

(** The bit of row [k]. *)
Definition bit_row (Bs : list Z) (k : Z) : bool := Z.testbit (row_of Bs (k / 8)) (k mod 8).

Lemma bits_ext n f g : forall i j u, (forall k, i <= k < i + Z.of_nat n -> f k = g k) -> bits n f i j u = bits n g i j u.
Proof.
  induction n as [|n IH]; intros i j u H; cbn [bits]; [done|].
  rewrite (H i) by lia. apply IH. intros k Hk. apply H. lia.
Qed.
Lemma bits_app r s f : forall i j u,
  bits (r + s) f i j u = bits s f (i + Z.of_nat r) (j + Z.of_nat r) (bits r f i j u).
Proof.
  induction r as [|r IH]; intros i j u; cbn [bits Nat.add]; [by rewrite !Z.add_0_r|].
  rewrite IH. f_equal; lia.
Qed.
Lemma bits_zero n f : forall i j u, (forall k, i <= k < i + Z.of_nat n -> f k = 0) -> bits n f i j u = u.
Proof.
  induction n as [|n IH]; intros i j u H; cbn [bits]; [done|].
  rewrite (H i), Z.shiftl_0_l, Z.lor_0_r by lia. apply IH. intros k Hk. apply H. lia.
Qed.
Lemma bits_testbit n f : forall i j u m, (forall k, boolean (f k)) -> 0 <= j -> 0 <= m ->
  Z.testbit (bits n f i j u) m
  = Z.testbit u m || (bool_decide (j <= m < j + Z.of_nat n) && (f (i + (m - j)) =? 1)).
Proof.
  induction n as [|n IH]; intros i j u m Hb Hj Hm; cbn [bits].
  { rewrite bool_decide_eq_false_2 by lia. by rewrite orb_false_r. }
  rewrite IH by (done || lia). rewrite Z.lor_spec, Z.shiftl_spec, <- orb_assoc by done. f_equal.
  replace (i + 1 + (m - (j + 1))) with (i + (m - j)) by lia.
  assert (forall k, Z.testbit (f i) k = (k =? 0) && (f i =? 1)) as Hf.
  { intros k. destruct (Hb i) as [->| ->]; [by rewrite Z.bits_0, andb_false_r|].
    by destruct k. }
  rewrite Hf. destruct (Z.eqb_spec (m - j) 0) as [E|E]; cbn [andb orb].
  - replace (i + (m - j)) with i by lia. rewrite (bool_decide_eq_false_2 (j + 1 <= m < _)), orb_false_r by lia.
    by rewrite bool_decide_eq_true_2 by lia.
  - f_equal. apply bool_decide_ext. lia.
Qed.
Lemma bits_range n f : forall i j u, (forall k, boolean (f k)) -> 0 <= j -> 0 <= u < 2 ^ j ->
  0 <= bits n f i j u < 2 ^ (j + Z.of_nat n).
Proof.
  induction n as [|n IH]; intros i j u Hb Hj Hu; cbn [bits]; [by rewrite Z.add_0_r|].
  replace (j + Z.of_nat (Datatypes.S n)) with (j + 1 + Z.of_nat n) by lia. apply IH; [done|lia|].
  assert (0 <= Z.shiftl (f i) j < 2 ^ (j + 1)) as Hs.
  { rewrite Z.shiftl_mul_pow2, Z.pow_add_r by lia. destruct (Hb i) as [->| ->]; lia. }
  assert (inS (j + 2) u /\ inS (j + 2) (Z.shiftl (f i) j)) as [H1 H2].
  { unfold inS. replace (j + 2 - 1) with (j + 1) by lia. rewrite (Z.pow_add_r 2 j 1) in * by lia. lia. }
  pose proof (lor_inS (j + 2) ltac:(lia) _ _ H1 H2) as H3. unfold inS in H3. replace (j + 2 - 1) with (j + 1) in H3 by lia.
  split; [apply Z.lor_nonneg; lia|lia].
Qed.

Lemma row_boolean X : Forall boolean X -> forall i, boolean (row_of X i).
Proof.
  intros H i. unfold row_of. destruct (X !z i) eqn:E; [|by left]. by apply (Forall_zlookup _ _ _ _ H E).
Qed.
Lemma row_of_rd X i : 0 <= i < zlen X -> rd X i = Ok (row_of X i).
Proof. intros Hi. destruct (zlookup_is_Some X i Hi) as [x Hx]. unfold row_of. rewrite Hx. by apply rd_Ok. Qed.

Lemma byte_bit X m k j : Forall boolean X -> 0 <= j < 8 ->
  Z.testbit (packed_byte X m k) j = (8 * k + j <? m) && (row_of X (8 * k + j) =? 1).
Proof.
  intros HX Hj. unfold packed_byte. rewrite bits_testbit; [|intros i; destruct (i <? m); [by apply row_boolean|by left]|lia..].
  rewrite Z.bits_0, bool_decide_eq_true_2 by lia. cbn [andb orb]. replace (8 * k + (j - 0)) with (8 * k + j) by lia.
  by destruct (8 * k + j <? m).
Qed.
Lemma bytes_lookup X m k : 0 <= k -> 8 * k < m -> bytes X m !z k = Some (packed_byte X m k).
Proof.
  intros H0 Hm. pose proof (Z.div_le_lower_bound (m + 7) 8 (k + 1)). unfold bytes. rewrite zlookup_to_nat, list_lookup_fmap by lia.
  rewrite lookup_seqZ_lt by lia. simpl. f_equal. f_equal. lia.
Qed.

(** ** Packing *)

Lemma pack_byte_ok chk n X : forall i j u ok,
  Forall boolean X -> 0 <= j -> j + Z.of_nat n <= 8 -> 0 <= i -> i + Z.of_nat n <= zlen X ->
  pack_byte chk n X i j u ok = Ok (ok, bits n (row_of X) i j u).
Proof.
  induction n as [|n IH]; intros i j u ok HX Hj Hn Hi Hl; [done|]. cbn [pack_byte bits].
  rewrite row_of_rd by lia. cbn [mbind res_bind]. pose proof (row_boolean X HX i) as Hb.
  assert (wrapU 32 (row_of X i) = row_of X i) as -> by (destruct Hb as [->| ->]; reflexivity).
  replace (chk && negb (row_of X i =? 0) && negb (row_of X i =? 1)) with false
    by (destruct Hb as [->| ->]; cbn; by rewrite ?andb_false_r).
  rewrite wrapU_small; [apply IH; done || lia|].
  unfold inU. rewrite Z.shiftl_mul_pow2 by lia. pose proof (Z.pow_le_mono_r 2 j 7 ltac:(lia) ltac:(lia)).
  pose proof (Z.pow_pos_nonneg 2 j ltac:(lia) ltac:(lia)). destruct Hb as [->| ->]; lia.
Qed.

Lemma byte_small X m k : Forall boolean X -> wrapU 8 (packed_byte X m k) = packed_byte X m k.
Proof.
  intros HX. apply wrapU_small. unfold inU, packed_byte. apply (bits_range 8); [|lia|lia].
  intros i. destruct (i <? m); [by apply row_boolean|by left].
Qed.
Lemma byte_whole X m k : 8 * k + 8 <= m -> packed_byte X m k = bits 8 (row_of X) (8 * k) 0 0.
Proof. intros Hk. apply bits_ext. intros i Hi. by rewrite (proj2 (Z.ltb_lt _ _)) by lia. Qed.
Lemma byte_tail X m k n : 8 * k + Z.of_nat n = m -> (n <= 8)%nat -> packed_byte X m k = bits n (row_of X) (8 * k) 0 0.
Proof.
  intros Hm Hn. unfold packed_byte. replace 8%nat with (n + (8 - n))%nat by lia. rewrite bits_app, bits_zero.
  - apply bits_ext. intros i Hi. by rewrite (proj2 (Z.ltb_lt _ _)) by lia.
  - intros i Hi. by rewrite (proj2 (Z.ltb_ge _ _)) by lia.
Qed.

Lemma pack_bytes_ok n X m : forall y Y,
  Forall boolean X -> 0 <= y -> 8 * (y + Z.of_nat n) <= m -> m <= zlen X -> y + Z.of_nat n <= zlen Y ->
  exists Y', pack_bytes n X (8 * y) Y y true = Ok (true, Y') /\ patched (bytes X m) y (y + Z.of_nat n) Y Y'.
Proof.
  induction n as [|n IH]; intros y Y HX Hy Hm Hl HY.
  { exists Y. rewrite Z.add_0_r. split; [done|apply patched_refl]. }
  cbn [pack_bytes]. rewrite pack_byte_ok by (done || lia). cbn [mbind res_bind].
  rewrite <- (byte_whole X m), byte_small by (done || lia).
  destruct (patched_wr (bytes X m) y (packed_byte X m y) Y) as (Y1 & -> & P1); [lia|apply bytes_lookup; lia|].
  cbn [mbind res_bind]. replace (8 * y + 8) with (8 * (y + 1)) by lia.
  destruct (IH (y + 1) Y1) as (Y2 & E2 & P2); try done; try lia; [destruct P1 as [-> _]; lia|].
  exists Y2. split; [exact E2|]. apply (patched_trans _ y (y + 1) _ Y Y1 Y2); try lia; [done|].
  by replace (y + Z.of_nat (Datatypes.S n)) with (y + 1 + Z.of_nat n) by lia.
Qed.

(** The kernel writes the bytes of the rows up to [m], the last one filled up
    with zeros. *)
Lemma conv_I1_to_B_ok X y m Y :
  Forall boolean X -> 0 <= y -> 8 * y <= m -> m <= zlen X -> (m + 7) / 8 <= zlen Y ->
  exists Y', conv_I1_to_B X (8 * y) (m - 8 * y) Y y = Ok (true, Y') /\ patched (bytes X m) y ((m + 7) / 8) Y Y'.
Proof.
  intros HX Hy Hm Hl HY. unfold conv_I1_to_B. rewrite Z.quot_div_nonneg by lia.
  set (n := (m - 8 * y) / 8). pose proof (Z.div_mod (m - 8 * y) 8 ltac:(lia)) as Hd.
  pose proof (Z.mod_pos_bound (m - 8 * y) 8 ltac:(lia)) as Hr. fold n in Hd.
  pose proof (Z.div_mod (m + 7) 8 ltac:(lia)) as Hd'. pose proof (Z.mod_pos_bound (m + 7) 8 ltac:(lia)) as Hr'.
  assert (0 <= n) as Hn by (unfold n; apply Z.div_pos; lia).
  destruct (pack_bytes_ok (Z.to_nat n) X m y Y) as (Y1 & E & P); try done; try lia. rewrite E. cbn [mbind res_bind].
  rewrite Z2Nat.id in P by lia. destruct (Z.ltb_spec (n * 8) (m - 8 * y)).
  - rewrite pack_byte_ok by (done || lia). cbn [mbind res_bind].
    replace (8 * y + n * 8) with (8 * (y + n)) by lia.
    rewrite <- (byte_tail X m), byte_small by (done || lia).
    destruct (patched_wr (bytes X m) (y + n) (packed_byte X m (y + n)) Y1) as (Y2 & -> & P2);
      [destruct P as [-> _]; lia|apply bytes_lookup; lia|].
    exists Y2. split; [done|]. replace ((m + 7) / 8) with (y + n + 1) by lia. by apply (patched_trans _ y (y + n) _ Y Y1 Y2); try lia.
  - exists Y1. split; [done|]. by replace ((m + 7) / 8) with (y + n) by lia.
Qed.

(** ** Unpacking *)

Lemma unpack_byte_ok n Zs : forall u Y y,
  0 <= y -> y + Z.of_nat n <= zlen Y ->
  (forall j, 0 <= j < Z.of_nat n -> Zs !z (y + j) = Some (Z.b2z (Z.testbit u j))) ->
  exists Y', unpack_byte n u Y y = Ok Y' /\ patched Zs y (y + Z.of_nat n) Y Y'.
Proof.
  induction n as [|n IH]; intros u Y y Hy Hl Hz.
  { exists Y. rewrite Z.add_0_r. split; [done|apply patched_refl]. }
  cbn [unpack_byte]. replace (if Z.land u 1 =? 1 then 1 else 0) with (Z.b2z (Z.testbit u 0)).
  2: { change (Z.land u 1) with (Z.land u (Z.ones 1)). rewrite Z.land_ones by lia. change (2 ^ 1) with 2.
       rewrite Z.bit0_odd, Zmod_odd. by destruct (Z.odd u). }
  destruct (patched_wr Zs y (Z.b2z (Z.testbit u 0)) Y) as (Y1 & -> & P1); [lia|by rewrite <- (Hz 0), Z.add_0_r by lia|].
  cbn [mbind res_bind]. destruct (IH (Z.shiftr u 1) Y1 (y + 1)) as (Y2 & E2 & P2); [lia|destruct P1 as [-> _]; lia| |].
  { intros j Hj. rewrite Z.shiftr_spec by lia. rewrite <- (Hz (j + 1)) by lia. f_equal. lia. }
  exists Y2. split; [done|]. replace (y + Z.of_nat (Datatypes.S n)) with (y + 1 + Z.of_nat n) by lia.
  by apply (patched_trans Zs y (y + 1) _ Y Y1 Y2); try lia.
Qed.

(** The bytes [Bs] hold the rows [X]. *)
Definition holds_rows (Bs X : list Z) : Prop :=
  (zlen X + 7) / 8 <= zlen Bs /\ forall i, 0 <= i < zlen X -> X !z i = Some (Z.b2z (bit_row Bs i)).

Lemma holds_byte Bs X k j : holds_rows Bs X -> 0 <= k -> 0 <= j < 8 -> 8 * k + j < zlen X ->
  X !z (8 * k + j) = Some (Z.b2z (Z.testbit (row_of Bs k) j)).
Proof.
  intros [_ H] Hk Hj Hl. rewrite H by lia. unfold bit_row. rewrite (Z.mul_comm 8), Z.div_add_l, Z.div_small, Z.add_0_r by lia.
  by rewrite Z.add_comm, Z.mod_add, Z.mod_small by lia.
Qed.

Lemma unpack_bytes_ok n Bs X : forall k Y,
  holds_rows Bs X -> 0 <= k -> 8 * (k + Z.of_nat n) <= zlen X -> zlen X <= zlen Y ->
  exists Y', unpack_bytes n Bs k Y (8 * k) = Ok Y' /\ patched X (8 * k) (8 * (k + Z.of_nat n)) Y Y'.
Proof.
  induction n as [|n IH]; intros k Y HB Hk Hl HY.
  { exists Y. rewrite Z.add_0_r. split; [done|apply patched_refl]. }
  cbn [unpack_bytes]. rewrite row_of_rd by (destruct HB as [HB _]; pose proof (Z.div_le_lower_bound (zlen X + 7) 8 (k + 1)); lia).
  cbn [mbind res_bind].
  destruct (unpack_byte_ok 8 X (row_of Bs k) Y (8 * k)) as (Y1 & -> & P1); [lia..| |].
  { intros j Hj. apply holds_byte; done || lia. }
  cbn [mbind res_bind]. replace (8 * k + 8) with (8 * (k + 1)) in * by lia.
  destruct (IH (k + 1) Y1) as (Y2 & E2 & P2); try done; try lia; [destruct P1 as [-> _]; lia|].
  replace (8 * k + Z.of_nat 8) with (8 * (k + 1)) in P1 by lia.
  exists Y2. split; [exact E2|]. replace (k + Z.of_nat (Datatypes.S n)) with (k + 1 + Z.of_nat n) by lia.
  apply (patched_trans X (8 * k) (8 * (k + 1)) _ Y Y1 Y2); try lia; done.
Qed.

Lemma conv_B_to_I1_ok Bs X k m Y :
  holds_rows Bs X -> 0 <= k -> 8 * k <= m -> m <= zlen X -> zlen X <= zlen Y ->
  exists Y', conv_B_to_I1 Bs k (m - 8 * k) Y (8 * k) = Ok Y' /\ patched X (8 * k) m Y Y'.
Proof.
  intros HB Hk Hm Hl HY. unfold conv_B_to_I1. rewrite Z.quot_div_nonneg by lia.
  set (n := (m - 8 * k) / 8). pose proof (Z.div_mod (m - 8 * k) 8 ltac:(lia)) as Hd.
  pose proof (Z.mod_pos_bound (m - 8 * k) 8 ltac:(lia)) as Hr. fold n in Hd.
  assert (0 <= n) as Hn by (unfold n; apply Z.div_pos; lia).
  destruct (unpack_bytes_ok (Z.to_nat n) Bs X k Y) as (Y1 & -> & P); try done; try lia. cbn [mbind res_bind].
  rewrite Z2Nat.id in P by lia. destruct (Z.ltb_spec (n * 8) (m - 8 * k)).
  - rewrite row_of_rd by (destruct HB as [HB _]; pose proof (Z.div_le_lower_bound (zlen X + 7) 8 (k + n + 1)); lia).
    cbn [mbind res_bind]. replace (8 * k + n * 8) with (8 * (k + n)) by lia.
    destruct (unpack_byte_ok (Z.to_nat (m - 8 * k - n * 8)) X (row_of Bs (k + n)) Y1 (8 * (k + n))) as (Y2 & -> & P2);
      [lia|destruct P as [-> _]; lia| |].
    { intros j Hj. apply holds_byte; done || lia. }
    exists Y2. split; [done|]. replace (8 * (k + n) + Z.of_nat (Z.to_nat (m - 8 * k - n * 8))) with m in P2 by lia.
    by apply (patched_trans X (8 * k) (8 * (k + n)) _ Y Y1 Y2); try lia.
  - exists Y1. split; [done|]. by replace m with (8 * (k + n)) by lia.
Qed.

(** ** Runs *)

Lemma get_file_size_ok n : 0 < n < 2 ^ 29 -> exists sz, get_file_size_B n = Ok sz /\ (n + 7) / 8 <= sz < 2 ^ 29.
Proof.
  intros Hn. unfold get_file_size_B, go_BYE_if. rewrite (proj2 (Z.leb_gt _ _)) by lia. cbn [mbind res_bind].
  set (nb := if negb (n / 8 * 8 =? n) then n / 8 + 1 else n / 8).
  assert ((n + 7) / 8 = nb /\ 0 < nb <= 2 ^ 26) as [-> Hnb].
  { unfold nb. pose proof (Z.div_mod n 8 ltac:(lia)). pose proof (Z.mod_pos_bound n 8 ltac:(lia)).
    pose proof (Z.div_mod (n + 7) 8 ltac:(lia)). pose proof (Z.mod_pos_bound (n + 7) 8 ltac:(lia)).
    destruct (Z.eqb_spec (n / 8 * 8) n); simpl; lia. }
  eexists. split; [reflexivity|]. pose proof (Z.div_mod nb 1024 ltac:(lia)). pose proof (Z.mod_pos_bound nb 1024 ltac:(lia)).
  destruct (Z.eqb_spec (nb / 1024 * 1024) nb); simpl; lia.
Qed.

Definition start_state (op_X : list Z) : f1opf2_state := {| o_X := Ints op_X; o_nn := None; in_off := 0; op_off := 0 |}.

Section runs.
Context (log exp : float -> float) (n bs nT : Z) (Hn : 0 < n < 2 ^ 29) (Hp : partition n 1024 (-1) = Ok (bs, nT)).

Lemma blocks_cut : 1 <= nT /\ 1 <= bs /\ 0 <= n - bs * nT < bs.
Proof using Hn Hp.
  assert (n / 1024 < INT_MAX) as Hq by (apply Z.div_lt_upper_bound; unfold INT_MAX; lia).
  destruct (partition_Ok n 1024 (-1) bs nT ltac:(lia) Hq Hp) as (_ & ? & _ & ? & ? & _). lia.
Qed.

Lemma to_bits_run X nn old : exists sz, (n + 7) / 8 <= sz /\
  vec_f1opf2 log exp n I1 (Ints X) nn "conv" "newtype=[B]" old
  = s ← for_tids (Z.to_nat nT) 0
      (fun tid ok s => let '(lb, ub) := chunk 0 n bs nT tid in
                       f1opf2_block log exp I1 (Ints X) "conv" B lb (ub - lb) ok s) true
      (start_state (replicate (Z.to_nat sz) 0));
    Ok (o_X s, o_nn s, B).
Proof using Hn Hp.
  destruct (get_file_size_ok n Hn) as (sz & Hsz & Hb). exists sz. split; [lia|]. unfold vec_f1opf2, f1opf2_blocks. rewrite Hp.
  cbn [mbind res_bind]. replace (dst_type I1 "conv" "newtype=[B]" old) with (Ok B : res FLD_TYPE) by reflexivity.
  cbn [mbind res_bind]. unfold file_sizes. types_tac. rewrite Hsz. cbn [mbind res_bind].
  pose proof (Z.div_le_lower_bound (n + 7) 8 1). rewrite mk_size_ok by lia. by destruct nn.
Qed.

Lemma to_bytes_run Bs old :
  vec_f1opf2 log exp n B (Ints Bs) None "conv" "newtype=[I1]" old
  = s ← for_tids (Z.to_nat nT) 0
      (fun tid ok s => let '(lb, ub) := chunk 0 n bs nT tid in
                       f1opf2_block log exp B (Ints Bs) "conv" I1 lb (ub - lb) ok s) true
      (start_state (replicate (Z.to_nat n) 0));
    Ok (o_X s, o_nn s, I1).
Proof using Hn Hp.
  unfold vec_f1opf2, f1opf2_blocks. rewrite Hp. cbn [mbind res_bind].
  replace (dst_type B "conv" "newtype=[I1]" old) with (Ok I1 : res FLD_TYPE) by reflexivity.
  cbn [mbind res_bind]. unfold file_sizes. types_tac. cbn [mbind res_bind]. by rewrite mk_size_ok by lia.
Qed.
End runs.

(** The blocks of the two conversions. *)
Lemma to_bits_block log exp X lb nX ok out :
  f1opf2_block log exp I1 (Ints X) "conv" B lb nX ok (start_state out)
  = if negb (Z.rem lb 8 =? 0) then Ok (false, start_state out)
    else '(ok, out) ← conv_I1_to_B X lb nX out (Z.quot lb 8); Ok (ok, start_state out).
Proof.
  cbn [f1opf2_block o_X start_state]. unfold f1opf2_I1. strcmp_tac. types_tac.
  destruct (Z.rem lb 8 =? 0); [|done]. cbn [negb]. by destruct (conv_I1_to_B X lb nX out (Z.quot lb 8)) as [[ok' out']| | |].
Qed.
Lemma to_bytes_block log exp Bs lb nX ok out :
  f1opf2_block log exp B (Ints Bs) "conv" I1 lb nX ok (start_state out)
  = if negb (Z.quot lb 8 * 8 =? lb) then Ok (false, start_state out)
    else out ← conv_B_to_I1 Bs (Z.quot lb 8) nX out lb; Ok (true, start_state out).
Proof.
  cbn [f1opf2_block o_X start_state]. unfold f1opf2_B. strcmp_tac. types_tac.
  destruct (Z.quot lb 8 * 8 =? lb); [|done]. cbn [negb out_ints]. rewrite decide_True by done. by destruct (conv_B_to_I1 Bs (Z.quot lb 8) nX out lb).
Qed.

Lemma byte_prefix X m n k : 8 * k + 8 <= m -> m <= n -> packed_byte X m k = packed_byte X n k.
Proof. intros Hm Hn. by rewrite !byte_whole by lia. Qed.

(** Going up to a whole byte, or to the end, the bytes are those of all rows. *)
Lemma patched_prefix X m n a out out' :
  0 <= a -> m <= n -> m mod 8 = 0 \/ m = n ->
  patched (bytes X m) a ((m + 7) / 8) out out' -> patched (bytes X n) a ((m + 7) / 8) out out'.
Proof.
  intros Ha Hmn Hm [L H]. split; [done|]. intros j. rewrite H. case_decide as Hj; [|done].
  destruct Hm as [Hm| ->]; [|done].
  pose proof (Z.div_mod m 8 ltac:(lia)). pose proof (Z.div_mod (m + 7) 8 ltac:(lia)).
  pose proof (Z.mod_pos_bound (m + 7) 8 ltac:(lia)).
  rewrite !bytes_lookup by lia. f_equal. apply byte_prefix; lia.
Qed.

Lemma bytes_hold X out n : Forall boolean X -> zlen X = n -> (n + 7) / 8 <= zlen out ->
  (forall k, 0 <= k < (n + 7) / 8 -> out !z k = bytes X n !z k) -> holds_rows out X.
Proof.
  intros HX LX Hl H. split; [by rewrite LX|]. intros i Hi. rewrite LX in Hi. unfold bit_row.
  pose proof (Z.div_mod i 8 ltac:(lia)) as E. pose proof (Z.mod_pos_bound i 8 ltac:(lia)).
  pose proof (Z.div_mod (n + 7) 8 ltac:(lia)). pose proof (Z.mod_pos_bound (n + 7) 8 ltac:(lia)).
  unfold row_of at 1. rewrite H, bytes_lookup by lia. cbn [default from_option id].
  rewrite byte_bit, (proj2 (Z.ltb_lt _ _)), <- E by (done || lia). cbn [andb].
  destruct (zlookup_is_Some X i) as [x Hx]; [lia|]. unfold row_of. rewrite Hx. cbn [default from_option id].
  by destruct (Forall_zlookup _ _ _ _ HX Hx) as [->| ->].
Qed.

(** From bytes to bits, when the blocks begin at bytes. *)
Lemma to_bits log exp X nn old n bs nT :
  0 < n < 2 ^ 29 -> zlen X = n -> Forall boolean X -> partition n 1024 (-1) = Ok (bs, nT) -> nT = 1 \/ bs mod 8 = 0 ->
  exists Bs, vec_f1opf2 log exp n I1 (Ints X) nn "conv" "newtype=[B]" old = Ok (Ints Bs, None, B) /\ holds_rows Bs X.
Proof.
  intros Hn LX HX Hp Ha. destruct (blocks_cut n bs nT Hn Hp) as (HnT & Hbs & Hcut).
  destruct (to_bits_run log exp n bs nT Hn Hp X nn old) as (sz & Hsz & ->).
  set (z := replicate (Z.to_nat sz) 0). pose proof (Z.div_pos (n + 7) 8 ltac:(lia) ltac:(lia)).
  assert (zlen z = sz) as Lz by (apply replicate_len; lia).
  destruct (chunks_ok (fun lb s => exists o, s = start_state o /\ patched (bytes X n) 0 ((lb + 7) / 8) z o) n bs nT
    (fun lb nX ok s => f1opf2_block log exp I1 (Ints X) "conv" B lb nX ok s) (start_state z)) as (s & -> & o & -> & P); try lia.
  - exists z. split; [done|]. change ((0 + 7) / 8) with 0. apply patched_refl.
  - intros tid lb ub s Htid -> Eub Hlb Hlt Hub Hsm (o & -> & P). rewrite to_bits_block.
    assert (tid * bs mod 8 = 0) as Hal.
    { destruct Ha as [->|Ha]; [by replace tid with 0 by lia|]. by rewrite Z.mul_mod, Ha, Z.mul_0_r by lia. }
    rewrite Z.rem_mod_nonneg, Hal by lia. cbn [Z.eqb negb].
    pose proof (Z.div_mod (tid * bs) 8 ltac:(lia)) as Hd. rewrite Hal, Z.add_0_r in Hd. set (y := tid * bs / 8) in *.
    rewrite Z.quot_div_nonneg by lia. fold y. rewrite Hd in *.
    assert ((8 * y + 7) / 8 = y) as Hy by (rewrite (Z.mul_comm 8), Z.div_add_l by lia; change (7 / 8) with 0; lia).
    rewrite Hy in P. pose proof (Z.div_le_mono (ub + 7) (n + 7) 8 ltac:(lia) ltac:(lia)).
    destruct (conv_I1_to_B_ok X y ub o) as (o' & -> & P'); try done; try lia; [destruct P as [-> _]; lia|].
    cbn [mbind res_bind]. eexists. split; [done|]. exists o'. split; [done|].
    apply patched_prefix with (n := n) in P'; try lia.
    + apply (patched_trans _ 0 y _ z o o'); try done; [lia|]. apply Z.div_le_lower_bound; lia.
    + destruct (Z.eqb_spec tid (nT - 1)); [by right|left]. destruct Ha as [->|Ha]; [lia|].
      by rewrite Eub, Z.add_comm, (Z.mul_comm 8), Z.mod_add by lia.
  - exists o. split; [done|]. apply (bytes_hold X o n); try done; [by destruct P as [-> _]; rewrite Lz|].
    intros k Hk. destruct P as [_ P]. rewrite P. by rewrite decide_True by lia.
Qed.

(** And back. *)
Lemma to_bytes log exp Bs X old n bs nT :
  0 < n < 2 ^ 29 -> zlen X = n -> holds_rows Bs X -> partition n 1024 (-1) = Ok (bs, nT) -> nT = 1 \/ bs mod 8 = 0 ->
  vec_f1opf2 log exp n B (Ints Bs) None "conv" "newtype=[I1]" old = Ok (Ints X, None, I1).
Proof.
  intros Hn LX HB Hp Ha. destruct (blocks_cut n bs nT Hn Hp) as (HnT & Hbs & Hcut).
  rewrite (to_bytes_run log exp n bs nT Hn Hp). set (z := replicate (Z.to_nat n) 0).
  assert (zlen z = n) as Lz by (apply replicate_len; lia).
  destruct (chunks_ok (fun lb s => exists o, s = start_state o /\ patched X 0 lb z o) n bs nT
    (fun lb nX ok s => f1opf2_block log exp B (Ints Bs) "conv" I1 lb nX ok s) (start_state z)) as (s & -> & o & -> & P); try lia.
  - exists z. split; [done|apply patched_refl].
  - intros tid lb ub s Htid -> _ Hlb Hlt Hub Hsm (o & -> & P). rewrite to_bytes_block.
    assert (tid * bs mod 8 = 0) as Hal.
    { destruct Ha as [->|Ha]; [by replace tid with 0 by lia|]. by rewrite Z.mul_mod, Ha, Z.mul_0_r by lia. }
    pose proof (Z.div_mod (tid * bs) 8 ltac:(lia)) as Hd. rewrite Hal, Z.add_0_r in Hd. set (y := tid * bs / 8) in *.
    rewrite Z.quot_div_nonneg by lia. fold y. rewrite Hd in *. rewrite (proj2 (Z.eqb_eq _ _)) by lia. cbn [negb].
    destruct (conv_B_to_I1_ok Bs X y ub o) as (o' & -> & P'); try done; try lia; [destruct P as [-> _]; lia|].
    cbn [mbind res_bind]. eexists. split; [done|]. exists o'. split; [done|].
    by apply (patched_trans _ 0 (8 * y) _ z o o'); try lia.
  - cbn [mbind res_bind o_X o_nn start_state]. do 4 f_equal. apply (patched_all X z); [lia|by rewrite LX].
Qed.

(** Claim C16. An I1 field of zeros and ones converted to bits and back: when the
    rows are in one block, or the blocks begin at bytes, the conversion
    succeeds, row [k] is bit [k mod 8] of byte [k / 8], and converting the bits
    gives the field again.  The flags are lost. *)
Theorem vec_f1opf2_bits_roundtrip log exp X nn old old' n bs nT :
  0 < n < 2 ^ 29 -> zlen X = n -> Forall boolean X -> partition n 1024 (-1) = Ok (bs, nT) -> nT = 1 \/ bs mod 8 = 0 ->
  exists Bs, vec_f1opf2 log exp n I1 (Ints X) nn "conv" "newtype=[B]" old = Ok (Ints Bs, None, B) /\
    (forall k, 0 <= k < n -> X !z k = Some (Z.b2z (bit_row Bs k))) /\
    vec_f1opf2 log exp n B (Ints Bs) None "conv" "newtype=[I1]" old' = Ok (Ints X, None, I1).
Proof.
  intros Hn LX HX Hp Ha. destruct (to_bits log exp X nn old n bs nT Hn LX HX Hp Ha) as (Bs & E & HB).
  exists Bs. split; [done|]. split; [rewrite <- LX; apply HB|]. by apply (to_bytes log exp Bs X old' n bs nT).
Qed.

Lemma vec_f1opf2_bits_roundtrip_witness :
  exists Bs, vec_f1opf2 (fun x => x) (fun x => x) 2064 I1 (Ints (replicate 2064 1)) None "conv" "newtype=[B]" I8 = Ok (Ints Bs, None, B) /\
    (forall k, 0 <= k < 2064 -> replicate 2064 1 !z k = Some (Z.b2z (bit_row Bs k))) /\
    vec_f1opf2 (fun x => x) (fun x => x) 2064 B (Ints Bs) None "conv" "newtype=[I1]" I8 = Ok (Ints (replicate 2064 1), None, I1).
Proof.
  apply (vec_f1opf2_bits_roundtrip (fun x => x) (fun x => x) (replicate 2064 1) None I8 I8 2064 1032 2).
  - split; by vm_compute.
  - by vm_compute.
  - apply Forall_replicate. by right.
  - by vm_compute.
  - by right.
Defined.

(** ** Blocks that do not begin at bytes *)

(** The last block decides: a failure of another one is forgotten. *)
Lemma for_tids_last {S} (Inv : S -> Prop) (body : Z -> bool -> S -> res (bool * S)) n : forall tid ok s,
  (0 < n)%nat -> Inv s ->
  (forall k ok s, tid <= k < tid + Z.of_nat n -> Inv s -> exists ok' s', body k ok s = Ok (ok', s') /\ Inv s') ->
  (forall ok s, Inv s -> exists s', body (tid + Z.of_nat n - 1) ok s = Ok (true, s') /\ Inv s') ->
  exists s', for_tids n tid body ok s = Ok s' /\ Inv s'.
Proof.
  induction n as [|n IH]; intros tid ok s Hpos Hs Hb Hl; [lia|]. cbn [for_tids]. destruct n as [|n].
  - destruct (Hl ok s Hs) as (s' & E & Hs'). replace (tid + Z.of_nat 1 - 1) with tid in E by lia.
    rewrite E. cbn. eauto.
  - destruct (Hb tid ok s ltac:(lia) Hs) as (ok' & s' & -> & Hs'). cbn [mbind res_bind]. apply IH; [lia|done| |].
    + intros k ok1 s1 Hk. apply Hb. lia.
    + by replace (tid + 1 + Z.of_nat (Datatypes.S n) - 1) with (tid + Z.of_nat (Datatypes.S (Datatypes.S n)) - 1) by lia.
Qed.

(** What a block that begins at a byte leaves of the first row of the second
    block, when that does not. *)
Lemma to_bits_row X n bs out lb ub :
  Forall boolean X -> 0 <= lb -> lb mod 8 = 0 -> lb = 0 /\ ub = bs \/ 2 * bs <= lb -> 8 <= bs -> bs mod 8 <> 0 ->
  lb < ub <= n -> zlen X = n -> (n + 7) / 8 <= zlen out -> bit_row out bs = false ->
  exists out', conv_I1_to_B X lb (ub - lb) out (Z.quot lb 8) = Ok (true, out') /\ zlen out' = zlen out /\
    bit_row out' bs = false.
Proof.
  intros HX Hlb Hal Hcase Hbs Hno Hub LX LO Hbit.
  pose proof (Z.div_mod lb 8 ltac:(lia)) as Hd. rewrite Hal, Z.add_0_r in Hd. set (y := lb / 8) in *.
  rewrite Z.quot_div_nonneg by lia. fold y. rewrite Hd in *.
  pose proof (Z.div_le_mono (ub + 7) (n + 7) 8 ltac:(lia) ltac:(lia)).
  destruct (conv_I1_to_B_ok X y ub out) as (out' & E & L & H'); try done; try lia.
  exists out'. split; [done|]. split; [done|]. unfold bit_row, row_of in *. rewrite H'. case_decide as Hc; [|done].
  pose proof (Z.div_mod bs 8 ltac:(lia)) as Eb. pose proof (Z.mod_pos_bound bs 8 ltac:(lia)).
  destruct Hcase as [[Hz ->]|Hge]; [|lia].
  rewrite bytes_lookup by lia. cbn [default from_option id]. rewrite byte_bit, <- Eb, Z.ltb_irrefl by done. done.
Qed.

(** A block keeps the row unset; one that begins at a byte succeeds. *)
Definition unset (sz bs : Z) (s : f1opf2_state) : Prop := exists o, s = start_state o /\ zlen o = sz /\ bit_row o bs = false.

Lemma to_bits_unset log exp X n bs nT sz tid lb ub ok s :
  Forall boolean X -> zlen X = n -> 8 <= bs -> bs mod 8 <> 0 -> 2 <= nT -> 0 <= n - bs * nT < bs -> (n + 7) / 8 <= sz ->
  0 <= tid < nT -> chunk 0 n bs nT tid = (lb, ub) -> unset sz bs s ->
  exists ok' s', f1opf2_block log exp I1 (Ints X) "conv" B lb (ub - lb) ok s = Ok (ok', s') /\ unset sz bs s' /\
    (lb mod 8 = 0 -> ok' = true).
Proof.
  intros HX LX Hbs Hno HnT Hcut Hsz Htid Ec (o & -> & Lo & Ho).
  destruct (chunk_bounds n bs nT tid lb ub ltac:(lia) Hcut Htid Ec) as (? & ? & ?).
  unfold chunk in Ec. injection Ec as Elb Eub. rewrite Z.add_0_l in *. rewrite to_bits_block, Z.rem_mod_nonneg by lia.
  destruct (Z.eqb_spec (lb mod 8) 0) as [Hal|Hal]; cbn [negb]; [|exists false, (start_state o); split; [done|split; [by exists o|done]]].
  destruct (to_bits_row X n bs o lb ub) as (o' & E & Lo' & Ho'); try done; try lia.
  - destruct (decide (tid = 0)) as [->|]; [left|right].
    + rewrite (proj2 (Z.eqb_neq 0 (nT - 1))) in Eub by lia. lia.
    + assert (tid <> 1) by (intros ->; rewrite Z.mul_1_l in Elb; congruence). nia.
  - rewrite E. cbn [mbind res_bind]. exists true, (start_state o'). split; [done|]. split; [|done]. exists o'. split; [done|]. split; [lia|done].
Qed.

(** Converting an I1 field to bits in several blocks: a block that
    does not begin at a byte is refused, but the last block replaces the
    status.  When the last one begins at a byte the run reports success, and
    rows are lost: the bit of the first row of the second block is 0, whatever
    the row. *)
Theorem vec_f1opf2_bits_lost log exp X nn old n bs nT :
  0 < n < 2 ^ 29 -> zlen X = n -> Forall boolean X -> partition n 1024 (-1) = Ok (bs, nT) ->
  2 <= nT -> bs mod 8 <> 0 -> (nT - 1) * bs mod 8 = 0 ->
  exists Bs, vec_f1opf2 log exp n I1 (Ints X) nn "conv" "newtype=[B]" old = Ok (Ints Bs, None, B) /\ bit_row Bs bs = false.
Proof.
  intros Hn LX HX Hp H2 Hno Hlast. destruct (blocks_cut n bs nT Hn Hp) as (HnT & Hbs & Hcut).
  assert (n / 1024 < INT_MAX) as Hq by (apply Z.div_lt_upper_bound; unfold INT_MAX; lia).
  destruct (partition_Ok n 1024 (-1) bs nT ltac:(lia) Hq Hp) as (_ & _ & _ & _ & _ & Hbig).
  destruct (to_bits_run log exp n bs nT Hn Hp X nn old) as (sz & Hsz & ->).
  pose proof (Z.div_pos (n + 7) 8 ltac:(lia) ltac:(lia)). set (z := replicate (Z.to_nat sz) 0).
  assert (8 <= bs) as H8 by lia.
  destruct (for_tids_last (unset sz bs) (fun tid ok s => let '(lb, ub) := chunk 0 n bs nT tid in
      f1opf2_block log exp I1 (Ints X) "conv" B lb (ub - lb) ok s) (Z.to_nat nT) 0 true (start_state z))
    as (s & -> & o & -> & _ & Ho); [lia| | |..].
  - exists z. split; [done|]. split; [apply replicate_len; lia|].
    unfold bit_row, row_of, z. rewrite zlookup_to_nat by (apply Z.div_pos; lia). destruct (_ !! _) eqn:E; [|apply Z.bits_0].
    apply lookup_replicate in E as [-> _]. apply Z.bits_0.
  - intros k ok s Hk Hs. destruct (chunk 0 n bs nT k) as [lb ub] eqn:Ec.
    destruct (to_bits_unset log exp X n bs nT sz k lb ub ok s) as (ok' & s' & E & Hs' & _); try done; [lia|]. eauto.
  - intros ok s Hs. rewrite Z2Nat.id, Z.add_0_l by lia. destruct (chunk 0 n bs nT (nT - 1)) as [lb ub] eqn:Ec.
    destruct (to_bits_unset log exp X n bs nT sz (nT - 1) lb ub ok s) as (ok' & s' & E & Hs' & Hok); try done; [lia|]. unfold chunk in Ec. injection Ec as <- _.
    rewrite (Hok Hlast) in E. eauto.
  - by exists o.
Qed.

Lemma vec_f1opf2_bits_lost_witness :
  exists Bs, vec_f1opf2 (fun x => x) (fun x => x) 9225 I1 (Ints (replicate 9225 1)) None "conv" "newtype=[B]" I8
    = Ok (Ints Bs, None, B) /\ bit_row Bs 1025 = false.
Proof.
  apply (vec_f1opf2_bits_lost (fun x => x) (fun x => x) (replicate 9225 1) None I8 9225 1025 9); try reflexivity.
  - split; by vm_compute.
  - apply Forall_replicate. by right.
  - by vm_compute.
  - by vm_compute.
Defined.
