(* ===== verification/Fill.v ===== *)
(** * Filling, shifting and smearing columns.

    Models dir_helpers/par_s_to_f.c, which fills a column with a constant or a
    sequence described by a string (the kernels AUX/s_to_f_*.c and the readers
    AUX/extract_I*.c and [extract_F4] of dir_utils/extract_S.c), and
    f1opf2_shift.c, smear.c and zero_after_n.c of dir_helpers. *)

From stdpp Require Import prelude strings.
From Stdlib Require Import ZArith Lia SpecFloat Ascii.
From S2P Require Import Prelude CString Types Reduce Elem Vec.
Import Reduce.

(** ** Reading numbers in a string

    [extract_I4(X, start, stop, &ival, &is_null)] and its siblings: whether the
    status is 0, the integer ([old] when it is not stored) and the flag.  The
    limits are tested after the conversion to the type. *)
Definition MAX_LEN : Z := 32.

Definition extract_I (w : Z) (X : option string) (start_str stop_str : string) (old : Z) : bool * Z * bool :=
  match X with
  | None => (true, old, true)
  | Some X =>
      match strstr X start_str with
      | None => (true, old, true)
      | Some Y =>
          let Z := skip (String.length start_str) Y in
          match strstr Z stop_str with
          | None => (true, old, true)
          | Some W =>
              let n := strlen Z - strlen W in
              if MAX_LEN <=? n then (false, old, true)
              else
                let buffer := front (Z.to_nat n) Z in
                if strcmp_eq buffer "" then (true, old, true)
                else
                  let '(v, endptr) := strtoll buffer in
                  let ival := wrapS w v in
                  if (ival <? - 2 ^ (w - 1)) || (2 ^ (w - 1) - 1 <? ival) then (false, ival, true)
                  else if negb (strcmp_eq endptr "") then (false, ival, true)
                  else (true, ival, false)
          end
      end
  end.
Definition extract_I1 := extract_I 8.
Definition extract_I2 := extract_I 16.
Definition extract_I4 := extract_I 32.
Definition extract_I8 := extract_I 64.

(** [status = extract_I4(...); cBYE(status);] *)
Definition extracted (r : bool * Z * bool) : res (Z * bool) :=
  let '(ok, v, is_null) := r in if ok then Ok (v, is_null) else Err.

Section scalar.
(** [strtod(s, &endptr)] of the standard library. *)
Variable strtod : string -> float * string.

Definition extract_F4 (X : option string) (start_str stop_str : string) (old : float) : res (float * bool) :=
  s ← extract_S X start_str stop_str 32;
  match s with
  | None => Ok (old, true)
  | Some bufstr =>
      let '(dval, endptr) := strtod bufstr in
      if negb (strcmp_eq endptr "") then Ok (old, true)
      else _ ← go_BYE_if (SFltb dval (widen FLT_MIN) || SFltb (widen FLT_MAX) dval); Ok (narrow dval, false)
  end.

(** ** Kernels *)

(** [for ( i = 0; i < nX; i++ ) { X[i] = val; }] from cell [i] on. *)
Fixpoint s_to_f_const {A} (n : nat) (X : list A) (i : Z) (val : A) : res (list A) :=
  match n with
  | O => Ok X
  | Datatypes.S n => X ← wr X i val; s_to_f_const n X (i + 1) val
  end.
Definition s_to_f_const_I1 := s_to_f_const (A := Z).
Definition s_to_f_const_I2 := s_to_f_const (A := Z).
Definition s_to_f_const_I4 := s_to_f_const (A := Z).
Definition s_to_f_const_I8 := s_to_f_const (A := Z).
Definition s_to_f_const_F4 := s_to_f_const (A := float).

(** [X[i] = val; val += incr;]: the sum is also computed behind the last cell;
    it wraps around in the types narrower than [int]. *)
Fixpoint s_to_f_seq (next : Z -> Z -> res Z) (n : nat) (X : list Z) (i val incr : Z) : res (list Z) :=
  match n with
  | O => Ok X
  | Datatypes.S n => X ← wr X i val; val ← next val incr; s_to_f_seq next n X (i + 1) val incr
  end.
Definition s_to_f_seq_I1 := s_to_f_seq (fun val incr => Ok (wrapS 8 (val + incr))).
Definition s_to_f_seq_I2 := s_to_f_seq (fun val incr => Ok (wrapS 16 (val + incr))).
Definition s_to_f_seq_I4 := s_to_f_seq (c_add 32).
Definition s_to_f_seq_I8 := s_to_f_seq (c_add 64).

(** ** [par_s_to_f] *)

(** What the string asks for. *)
Inductive fill := Const (t : FLD_TYPE) (val : value) | Seq (t : FLD_TYPE) (start incr : Z).

Definition seq_width (fldtype : string) : option (FLD_TYPE * Z) :=
  if strcmp_eq fldtype "I1" then Some (I1, 8)
  else if strcmp_eq fldtype "I2" then Some (I2, 16)
  else if strcmp_eq fldtype "I4" then Some (I4, 32)
  else if strcmp_eq fldtype "I8" then Some (I8, 64)
  else None.

(** [if ( is_null ) { go_BYE(status); }] leaves with status 0: [None]. *)
Definition read_fill (str_scalar op fldtype : string) : res (option fill) :=
  let s := Some str_scalar in
  if strcmp_eq op "const" then
    match seq_width fldtype with
    | Some (t, w) =>
        '(v, is_null) ← extracted (extract_I w s "val=[" "]" 0);
        Ok (if is_null : bool then None else Some (Const t (Int v)))
    | None =>
        if strcmp_eq fldtype "F4" then
          '(v, is_null) ← extract_F4 s "val=[" "]" FLT_MAX;
          Ok (if is_null : bool then None else Some (Const F4 (Flt v)))
        else Err
    end
  else if strcmp_eq op "seq" then
    match seq_width fldtype with
    | Some (t, w) =>
        '(start, is_null) ← extracted (extract_I w s "start=[" "]" 0);
        if is_null : bool then Ok None
        else
          '(incr, is_null) ← extracted (extract_I w s "incr=[" "]" 0);
          Ok (if is_null : bool then None else Some (Seq t start incr))
    | None => Err
    end
  else Err.

(** One block. *)
Definition fill_block (f : fill) (lb nX : Z) (X : column) : res column :=
  let n := Z.to_nat nX in
  match f with
  | Const t (Int v) => out_ints t t X (fun X => s_to_f_const n X lb v)
  | Const t (Flt v) => out_floats t t X (fun X => s_to_f_const n X lb v)
  | Seq t start incr =>
      l_start ← c_mul 64 lb incr;
      l_start ← c_add 64 start l_start;
      match t with
      | I1 => _ ← go_BYE_if (SCHAR_MAX <? l_start); out_ints I1 t X (fun X => s_to_f_seq_I1 n X lb (wrapS 8 l_start) incr)
      | I2 => _ ← go_BYE_if (SHRT_MAX <? l_start); out_ints I2 t X (fun X => s_to_f_seq_I2 n X lb (wrapS 16 l_start) incr)
      | I4 => _ ← go_BYE_if (INT_MAX <? l_start); out_ints I4 t X (fun X => s_to_f_seq_I4 n X lb (wrapS 32 l_start) incr)
      | _ => out_ints I8 t X (fun X => s_to_f_seq_I8 n X lb l_start incr)
      end
  end.

(** [X] is a column of the type that the string names. *)
Definition par_s_to_f (X : column) (in_lb in_ub : Z) (str_scalar : string) : res column :=
  op ← extract_S (Some str_scalar) "op=[" "]" MAX_LEN;
  match op with
  | None => Err
  | Some op =>
      fldtype ← extract_S (Some str_scalar) "fldtype=[" "]" MAX_LEN;
      match fldtype with
      | None => Err
      | Some fldtype =>
          '(block_size, nT) ← partition (in_ub - in_lb) 1024 (-1);
          f ← read_fill str_scalar op fldtype;
          match f with
          | None => Ok X
          | Some f => tid_blocks in_lb in_ub block_size nT (fill_block f) X
          end
      end
  end.
End scalar.

(** The text that says nothing of the value: status 0, and the column as it
    was. *)
Example fill_no_value strtod : par_s_to_f strtod (Ints [7; 7]) 0 2 "op=[const]fldtype=[I4]" = Ok (Ints [7; 7]).
Proof. reflexivity. Qed.
(** A value too large for the type is cut, not refused. *)
Example fill_cut strtod : par_s_to_f strtod (Ints [7; 7]) 0 2 "op=[const]fldtype=[I1]val=[300]" = Ok (Ints [44; 44]).
Proof. vm_compute. reflexivity. Qed.

(** ** Filled columns *)

Lemma s_to_f_const_ok {A} n (v : A) Zs : forall i X,
  0 <= i -> i + Z.of_nat n <= zlen X -> (forall k, i <= k < i + Z.of_nat n -> Zs !z k = Some v) ->
  exists X', s_to_f_const n X i v = Ok X' /\ patched Zs i (i + Z.of_nat n) X X'.
Proof.
  induction n as [|n IH]; intros i X Hi Hl HZ.
  { exists X. rewrite Z.add_0_r. split; [done|apply patched_refl]. }
  cbn [s_to_f_const]. destruct (patched_wr Zs i v X) as (X1 & -> & P1); [lia|apply HZ; lia|]. cbn [mbind res_bind].
  destruct (IH (i + 1) X1) as (X2 & E2 & P2); [lia|destruct P1 as [-> _]; lia|intros; apply HZ; lia|].
  exists X2. split; [exact E2|]. replace (i + Z.of_nat (Datatypes.S n)) with (i + 1 + Z.of_nat n) by lia.
  by apply (patched_trans Zs i (i + 1) _ X X1 X2); try lia.
Qed.

Lemma s_to_f_seq_ok next incr (f : Z -> Z) n Zs : forall i X,
  0 <= i -> i + Z.of_nat n <= zlen X ->
  (forall k, i <= k < i + Z.of_nat n -> Zs !z k = Some (f k) /\ next (f k) incr = Ok (f (k + 1))) ->
  exists X', s_to_f_seq next n X i (f i) incr = Ok X' /\ patched Zs i (i + Z.of_nat n) X X'.
Proof.
  induction n as [|n IH]; intros i X Hi Hl HZ.
  { exists X. rewrite Z.add_0_r. split; [done|apply patched_refl]. }
  cbn [s_to_f_seq]. destruct (HZ i ltac:(lia)) as [HZi Hn].
  destruct (patched_wr Zs i (f i) X) as (X1 & -> & P1); [lia|done|]. cbn [mbind res_bind]. rewrite Hn. cbn [mbind res_bind].
  destruct (IH (i + 1) X1) as (X2 & E2 & P2); [lia|destruct P1 as [-> _]; lia|intros; apply HZ; lia|].
  exists X2. split; [exact E2|]. replace (i + Z.of_nat (Datatypes.S n)) with (i + 1 + Z.of_nat n) by lia.
  by apply (patched_trans Zs i (i + 1) _ X X1 X2); try lia.
Qed.

Lemma wrapS_add w a b : 0 < w -> wrapS w (wrapS w a + b) = wrapS w (a + b).
Proof.
  intros Hw. unfold wrapS. f_equal. replace ((a + 2 ^ (w - 1)) mod 2 ^ w - 2 ^ (w - 1) + b + 2 ^ (w - 1))
    with ((a + 2 ^ (w - 1)) mod 2 ^ w + b) by lia.
  replace (a + b + 2 ^ (w - 1)) with (a + 2 ^ (w - 1) + b) by lia. apply Z.add_mod_idemp_l. by apply Z.pow_nonzero; lia.
Qed.

(** The sequence of [n] cells, and the rows for which it must fit the type: in
    the types that do not wrap around the code also computes the cell behind
    the last one. *)
Definition seq_cells (start incr n : Z) : list Z := (fun k => start + k * incr) <$> seqZ 0 n.
Definition fits_type (w start incr n : Z) : Prop :=
  inS 64 (n * incr) /\ forall k, 0 <= k < n + (if w <? 32 then 0 else 1) -> inS w (start + k * incr).

Lemma seq_cells_lookup start incr n k : 0 <= k < n -> seq_cells start incr n !z k = Some (start + k * incr).
Proof.
  intros Hk. unfold seq_cells. rewrite zlookup_to_nat, list_lookup_fmap, lookup_seqZ_lt by lia. simpl.
  by replace (0 + Z.of_nat (Z.to_nat k)) with k by lia.
Qed.

(** A block of a sequence, in the types that wrap around and in the others. *)
Lemma seq_narrow w start incr n lb ub X :
  0 < w < 32 -> fits_type w start incr n -> 0 <= lb < ub -> ub <= n -> zlen X = n ->
  exists X', s_to_f_seq (fun val incr => Ok (wrapS w (val + incr))) (Z.to_nat (ub - lb)) X lb (wrapS w (start + lb * incr)) incr
    = Ok X' /\ patched (seq_cells start incr n) lb ub X X'.
Proof.
  intros Hw [_ Hfit] Hlb Hub LX. rewrite (proj2 (Z.ltb_lt w 32)) in Hfit by lia.
  destruct (s_to_f_seq_ok (fun val incr => Ok (wrapS w (val + incr))) incr (fun k => wrapS w (start + k * incr))
    (Z.to_nat (ub - lb)) (seq_cells start incr n) lb X) as (X' & E & P); [lia|lia| |].
  - intros k Hk. rewrite seq_cells_lookup by lia. rewrite (wrapS_small w (start + k * incr)) by (apply Hfit || idtac; lia).
    split; [done|]. do 2 f_equal. lia.
  - exists X'. split; [exact E|]. by replace ub with (lb + Z.of_nat (Z.to_nat (ub - lb))) by lia.
Qed.
Lemma seq_wide w start incr n lb ub X :
  32 <= w -> fits_type w start incr n -> 0 <= lb < ub -> ub <= n -> zlen X = n ->
  exists X', s_to_f_seq (c_add w) (Z.to_nat (ub - lb)) X lb (start + lb * incr) incr
    = Ok X' /\ patched (seq_cells start incr n) lb ub X X'.
Proof.
  intros Hw [_ Hfit] Hlb Hub LX. rewrite (proj2 (Z.ltb_ge w 32)) in Hfit by lia.
  destruct (s_to_f_seq_ok (c_add w) incr (fun k => start + k * incr)
    (Z.to_nat (ub - lb)) (seq_cells start incr n) lb X) as (X' & E & P); [lia|lia| |].
  - intros k Hk. rewrite seq_cells_lookup by lia. split; [done|].
    replace (start + (k + 1) * incr) with (start + k * incr + incr) by lia. apply c_add_ok.
    replace (start + k * incr + incr) with (start + (k + 1) * incr) by lia. apply Hfit. lia.
  - exists X'. split; [exact E|]. by replace ub with (lb + Z.of_nat (Z.to_nat (ub - lb))) by lia.
Qed.

Lemma seq_block t w start incr n lb ub X :
  t = I1 /\ w = 8 \/ t = I2 /\ w = 16 \/ t = I4 /\ w = 32 \/ t = I8 /\ w = 64 ->
  fits_type w start incr n -> 0 <= lb < ub -> ub <= n -> zlen X = n ->
  exists X', fill_block (Seq t start incr) lb (ub - lb) (Ints X) = Ok (Ints X') /\
    patched (seq_cells start incr n) lb ub X X'.
Proof.
  intros Ht Hfit Hlb Hub LX. cbn [fill_block].
  assert (inS w (start + lb * incr)) as Hs by (apply Hfit; destruct (w <? 32); lia).
  rewrite c_mul_ok by (destruct Hfit as [Hinc _]; unfold inS in *; nia). cbn [mbind res_bind].
  rewrite c_add_ok by (unfold inS in *; destruct Ht as [[-> ->]|[[-> ->]|[[-> ->]|[-> ->]]]]; lia). cbn [mbind res_bind].
  destruct Ht as [[-> ->]|[[-> ->]|[[-> ->]|[-> ->]]]]; unfold go_BYE_if;
    try (rewrite (proj2 (Z.ltb_ge _ _)) by (unfold inS in Hs; unfold SCHAR_MAX, SHRT_MAX, INT_MAX; lia));
    cbn [mbind res_bind out_ints]; rewrite decide_True by done.
  - destruct (seq_narrow 8 start incr n lb ub X) as (X' & E & P); try done. unfold s_to_f_seq_I1. rewrite E. by exists X'.
  - destruct (seq_narrow 16 start incr n lb ub X) as (X' & E & P); try done. unfold s_to_f_seq_I2. rewrite E. by exists X'.
  - rewrite (wrapS_small 32) by done. destruct (seq_wide 32 start incr n lb ub X) as (X' & E & P); try done.
    unfold s_to_f_seq_I4. rewrite E. by exists X'.
  - destruct (seq_wide 64 start incr n lb ub X) as (X' & E & P); try done. unfold s_to_f_seq_I8. rewrite E. by exists X'.
Qed.

(** What [par_s_to_f] runs. *)
Lemma par_s_to_f_run strtod X n str op fldtype f bs nT :
  extract_S (Some str) "op=[" "]" MAX_LEN = Ok (Some op) -> extract_S (Some str) "fldtype=[" "]" MAX_LEN = Ok (Some fldtype) ->
  read_fill strtod str op fldtype = Ok (Some f) -> partition n 1024 (-1) = Ok (bs, nT) ->
  par_s_to_f strtod X 0 n str = tid_blocks 0 n bs nT (fill_block f) X.
Proof.
  intros H1 H2 H3 H4. unfold par_s_to_f. rewrite H1. cbn [mbind res_bind]. rewrite H2. cbn [mbind res_bind].
  rewrite Z.sub_0_r, H4. cbn [mbind res_bind]. by rewrite H3.
Qed.

(** Claim C23. A column filled with a sequence: cell [k] is [start + k * incr],
    for every integer type and every number of blocks, when the numbers fit the
    type; for I4 and I8 the number behind the last cell must fit too. *)
Theorem par_s_to_f_seq strtod X n str fldtype t w start incr :
  extract_S (Some str) "op=[" "]" MAX_LEN = Ok (Some "seq"%string) ->
  extract_S (Some str) "fldtype=[" "]" MAX_LEN = Ok (Some fldtype) -> seq_width fldtype = Some (t, w) ->
  extract_I w (Some str) "start=[" "]" 0 = (true, start, false) -> extract_I w (Some str) "incr=[" "]" 0 = (true, incr, false) ->
  0 < n -> n / 1024 < INT_MAX -> zlen X = n -> fits_type w start incr n ->
  par_s_to_f strtod (Ints X) 0 n str = Ok (Ints ((fun k => start + k * incr) <$> seqZ 0 n)).
Proof.
  intros Hop Hty Hw Hs Hi Hn Hq LX Hfit.
  destruct (blocks_partition (fun lb s => exists o, s = Ints o /\ patched (seq_cells start incr n) 0 lb X o) n 1024 (Ints X))
    as (bs & nT & Hp & Hrun); [done..|].
  rewrite (par_s_to_f_run strtod (Ints X) n str "seq" fldtype (Seq t start incr) bs nT); try done.
  2: { unfold read_fill. strcmp_tac. rewrite Hw. unfold extracted. rewrite Hs. cbn [mbind res_bind]. by rewrite Hi. }
  assert (t = I1 /\ w = 8 \/ t = I2 /\ w = 16 \/ t = I4 /\ w = 32 \/ t = I8 /\ w = 64) as Ht.
  { unfold seq_width in Hw. repeat case_match; simplify_eq; tauto. }
  destruct (Hrun (Ints X) (fill_block (Seq t start incr))) as (s & -> & o & -> & P).
  - exists X. split; [done|apply patched_refl].
  - intros lb ub s Hlb Hlt Hub _ (o & -> & P).
    destruct (seq_block t w start incr n lb ub o) as (o' & -> & P'); try done; [by destruct P as [-> _]|].
    exists (Ints o'). split; [done|]. exists o'. split; [done|]. by apply (patched_trans _ 0 lb ub X o o'); try lia.
  - do 2 f_equal. assert (zlen (seq_cells start incr n) = n) as L by (unfold seq_cells, zlen; rewrite length_fmap, length_seqZ; lia).
    apply (patched_all (seq_cells start incr n) X); [lia|by rewrite L].
Qed.

Lemma par_s_to_f_seq_witness :
  par_s_to_f (fun s => (fzero, s)) (Ints [0; 0; 0]) 0 3 "op=[seq]fldtype=[I1]start=[125]incr=[1]" = Ok (Ints [125; 126; 127]).
Proof.
  apply (par_s_to_f_seq (fun s => (fzero, s)) [0; 0; 0] 3 "op=[seq]fldtype=[I1]start=[125]incr=[1]" "I1" I1 8 125 1);
    try reflexivity.
  split; [by vm_compute|]. change (8 <? 32) with true. cbn iota. unfold inS. change (2 ^ (8 - 1)) with 128. lia.
Defined.

(** A column filled with a constant: every cell has the value, for
    every number of blocks. *)
Theorem par_s_to_f_const strtod X n str op fldtype t val :
  extract_S (Some str) "op=[" "]" MAX_LEN = Ok (Some op) ->
  extract_S (Some str) "fldtype=[" "]" MAX_LEN = Ok (Some fldtype) ->
  read_fill strtod str op fldtype = Ok (Some (Const t val)) ->
  0 < n -> n / 1024 < INT_MAX -> zlen (cells X) = n -> match val, X with Int _, Ints _ | Flt _, Floats _ => True | _, _ => False end ->
  exists R, par_s_to_f strtod X 0 n str = Ok R /\ cells R = replicate (Z.to_nat n) val.
Proof.
  intros Hop Hty Hf Hn Hq LX Hval. set (Zs := replicate (Z.to_nat n) val).
  assert (forall k, 0 <= k < n -> Zs !z k = Some val) as HZ.
  { intros k Hk. rewrite zlookup_to_nat by lia. apply lookup_replicate_2. lia. }
  assert (zlen Zs = n) as LZ by (unfold Zs, zlen; rewrite length_replicate; lia).
  destruct (blocks_partition (fun lb s => patched Zs 0 lb (cells X) (cells s) /\
      match val, s with Int _, Ints _ | Flt _, Floats _ => True | _, _ => False end) n 1024 X) as (bs & nT & Hp & Hrun); [done..|].
  rewrite (par_s_to_f_run strtod X n str op fldtype (Const t val) bs nT) by done.
  destruct (Hrun X (fill_block (Const t val))) as (s & -> & P & _).
  - split; [apply patched_refl|done].
  - intros lb ub s Hlb Hlt Hub _ [P Hs]. pose proof (proj1 P) as L.
    assert (forall {A} (inj : A -> value) (v : A) (o : list A), val = inj v -> zlen o = n ->
      exists o', s_to_f_const (Z.to_nat (ub - lb)) o lb v = Ok o' /\ patched Zs lb ub (inj <$> o) (inj <$> o')) as Hfill.
    { intros A inj v o -> Lo. destruct (s_to_f_const_ok (Z.to_nat (ub - lb)) v (replicate (Z.to_nat n) v) lb o) as (o' & E & P'); [lia|lia| |].
      - intros k Hk. rewrite zlookup_to_nat by lia. apply lookup_replicate_2. lia.
      - exists o'. split; [done|]. apply (patched_fmap inj) in P'. rewrite fmap_replicate in P'.
        by replace (lb + Z.of_nat (Z.to_nat (ub - lb))) with ub in P' by lia. }
    destruct val as [v|v], s as [o|o]; try done; cbn [fill_block out_ints out_floats]; rewrite decide_True by done;
      cbn [cells] in *; rewrite zlen_fmap in L.
    + destruct (Hfill _ Int v o) as (o' & -> & P'); [done|lia|]. exists (Ints o'). split; [done|]. split; [|done].
      by apply (patched_trans Zs 0 lb ub (cells X) (Int <$> o)); try lia.
    + destruct (Hfill _ Flt v o) as (o' & -> & P'); [done|lia|]. exists (Floats o'). split; [done|]. split; [|done].
      by apply (patched_trans Zs 0 lb ub (cells X) (Flt <$> o)); try lia.
  - exists s. split; [done|]. apply (patched_all Zs (cells X)); [lia|by rewrite LZ].
Qed.

Lemma par_s_to_f_const_witness :
  exists R, par_s_to_f (fun s => (fzero, s)) (Ints [0; 0; 0]) 0 3 "op=[const]fldtype=[I4]val=[-5]" = Ok R /\
    cells R = [Int (-5); Int (-5); Int (-5)].
Proof.
  apply (par_s_to_f_const (fun s => (fzero, s)) (Ints [0; 0; 0]) 3 "op=[const]fldtype=[I4]val=[-5]" "const" "I4" I4 (Int (-5)));
    try reflexivity; done.
Defined.

(** ** [smear] *)

(** [for ( j = lb; j < ub; j++ ) { out[j] = 1; }] *)
Fixpoint smear_loop (n : nat) (inp : list Z) (i nR plus minus : Z) (out : list Z) : res (list Z) :=
  match n with
  | O => Ok out
  | Datatypes.S n =>
      x ← rd inp i;
      out ← (if x =? 1 then
               let lb := i - minus in
               let lb := if lb <? 0 then 0 else lb in
               let ub := i + 1 + plus in
               let ub := if nR <=? ub then nR else ub in
               s_to_f_const (Z.to_nat (ub - lb)) out lb 1
             else Ok out);
      smear_loop n inp (i + 1) nR plus minus out
  end.
Definition smear (inp : list Z) (nR plus minus : Z) (out : list Z) : res (list Z) :=
  _ ← go_BYE_if (minus <? 0);
  _ ← go_BYE_if (plus <? 0);
  smear_loop (Z.to_nat nR) inp 0 nR plus minus out.

(** A one of the first [i] cells reaches cell [j]. *)
Definition reached (inp : list Z) (plus minus i j : Z) : Prop :=
  exists k, 0 <= k < i /\ inp !z k = Some 1 /\ k - minus <= j <= k + plus.
Definition smeared (inp : list Z) (plus minus i : Z) (out0 out : list Z) : Prop :=
  zlen out = zlen out0 /\
  forall j, 0 <= j < zlen out0 -> (reached inp plus minus i j -> out !z j = Some 1) /\
                             (~ reached inp plus minus i j -> out !z j = out0 !z j).

Lemma reached_succ inp plus minus i j : 0 <= i ->
  reached inp plus minus (i + 1) j <-> reached inp plus minus i j \/ inp !z i = Some 1 /\ i - minus <= j <= i + plus.
Proof.
  intros Hi. split.
  - intros (k & Hk & H1 & Hj). destruct (decide (k = i)) as [->|]; [by right|]. left. exists k. split; [lia|done].
  - intros [(k & Hk & H1 & Hj)|[H1 Hj]]; [exists k|exists i]; (split; [lia|done]).
Qed.

Lemma smear_loop_ok inp nR plus minus out0 n : forall i out,
  0 <= plus -> 0 <= minus -> 0 <= i -> i + Z.of_nat n = nR -> zlen inp = nR -> zlen out0 = nR ->
  smeared inp plus minus i out0 out ->
  exists out', smear_loop n inp i nR plus minus out = Ok out' /\ smeared inp plus minus nR out0 out'.
Proof.
  induction n as [|n IH]; intros i out Hp Hm Hi Hn LI LO [Lo Hs].
  { exists out. by replace nR with i by lia. }
  cbn [smear_loop]. destruct (rd_total inp i) as [x Hx]; [lia|]. rewrite Hx. apply rd_Ok in Hx. cbn [mbind res_bind].
  destruct (Z.eqb_spec x 1) as [->|Hne].
  - set (lb := if i - minus <? 0 then 0 else i - minus). set (ub := if nR <=? i + 1 + plus then nR else i + 1 + plus).
    assert (0 <= lb <= i /\ i < ub <= nR /\ (forall j, 0 <= j < nR -> lb <= j < ub <-> i - minus <= j <= i + plus)) as (Hlb & Hub & Hin).
    { unfold lb, ub. destruct (Z.ltb_spec (i - minus) 0), (Z.leb_spec nR (i + 1 + plus)); (split; [lia|split; [lia|lia]]). }
    destruct (s_to_f_const_ok (Z.to_nat (ub - lb)) 1 (replicate (Z.to_nat nR) 1) lb out) as (out1 & E & P); [lia|lia| |].
    { intros k Hk. rewrite zlookup_to_nat by lia. apply lookup_replicate_2. lia. }
    rewrite E. cbn [mbind res_bind]. replace (lb + Z.of_nat (Z.to_nat (ub - lb))) with ub in P by lia.
    apply IH; try done; try lia. destruct P as [L1 P]. split; [lia|]. intros j Hj. rewrite reached_succ, P by done.
    destruct (Hs j Hj) as [H1 H2]. case_decide as Hd.
    + rewrite (zlookup_to_nat (replicate _ _)), lookup_replicate_2 by lia. split; [done|]. intros Hno. destruct Hno. right. split; [done|]. apply Hin; lia.
    + split; [|tauto]. intros [Hr|[_ Hr]]; [auto|]. destruct Hd. apply Hin; lia.
  - cbn [mbind res_bind]. apply IH; try done; try lia. split; [done|]. intros j Hj. rewrite reached_succ by done.
    destruct (Hs j Hj) as [H1 H2]. split; [|tauto]. intros [Hr|[Hr _]]; [auto|congruence].
Qed.

(** [smear]: a cell gets 1 exactly when a one stands at most [plus]
    cells before it or [minus] cells behind it; the other cells keep what they
    had, also at both ends. *)
Theorem smear_correct inp nR plus minus out :
  0 <= plus -> 0 <= minus -> 0 <= nR -> zlen inp = nR -> zlen out = nR ->
  exists out', smear inp nR plus minus out = Ok out' /\ zlen out' = nR /\
    forall j, 0 <= j < nR ->
      ((exists k, 0 <= k < nR /\ inp !z k = Some 1 /\ k - minus <= j <= k + plus) -> out' !z j = Some 1) /\
      (~ (exists k, 0 <= k < nR /\ inp !z k = Some 1 /\ k - minus <= j <= k + plus) -> out' !z j = out !z j).
Proof.
  intros Hp Hm Hn LI LO. unfold smear, go_BYE_if. rewrite !(proj2 (Z.ltb_ge _ _)) by lia. cbn [mbind res_bind].
  destruct (smear_loop_ok inp nR plus minus out (Z.to_nat nR) 0 out) as (out' & E & L & H); try done; try lia.
  - split; [done|]. intros j Hj. split; [|done]. intros (k & Hk & _). lia.
  - exists out'. split; [done|]. split; [lia|]. intros j Hj. apply H. lia.
Qed.

Lemma smear_correct_witness :
  exists out', smear [0; 0; 1; 0; 0] 5 1 0 [0; 0; 0; 0; 0] = Ok out' /\ zlen out' = 5 /\
    forall j, 0 <= j < 5 ->
      ((exists k, 0 <= k < 5 /\ [0; 0; 1; 0; 0] !z k = Some 1 /\ k - 0 <= j <= k + 1) -> out' !z j = Some 1) /\
      (~ (exists k, 0 <= k < 5 /\ [0; 0; 1; 0; 0] !z k = Some 1 /\ k - 0 <= j <= k + 1) -> out' !z j = [0; 0; 0; 0; 0] !z j).
Proof. apply (smear_correct [0; 0; 1; 0; 0] 5 1 0 [0; 0; 0; 0; 0]); try reflexivity; lia. Defined.

(** ** [f1opf2_shift]

    [memcpy] moves whole cells ([copy_cells]); the zeros come from a buffer of 8192 bytes,
    enough for 1023 cells. *)
Definition copy_cells {A} (dst : list A) (d : Z) (src : list A) (s n : Z) : res (list A) :=
  map1_loop (fun x => Ok x) (Z.to_nat n) src s dst d.
Definition fill_from {A} (dst : list A) (d n : Z) (v : A) : res (list A) := s_to_f_const (Z.to_nat n) dst d v.

Definition f1opf2_shift {A} (zero : A) (X : list A) (nn_X : option (list Z)) (nR : Z) (fldtype : FLD_TYPE) (shift_by : Z)
    (op_X : list A) (nn_op_X : list Z) : res (list A * list Z) :=
  _ ← go_BYE_if ((shift_by <=? -1024) || (1024 <=? shift_by));
  _ ← go_BYE_if ((shift_by <=? -1 * nR) || (nR <=? shift_by));
  _ ← get_fld_sz fldtype;
  if 0 <? shift_by then
    op_X ← copy_cells op_X shift_by X 0 (nR - shift_by);
    op_X ← fill_from op_X 0 shift_by zero;
    nn_op_X ← match nn_X with
      | Some _ => fill_from nn_op_X (nR - shift_by) shift_by 0
      | None => fill_from nn_op_X shift_by (nR - shift_by) 1
      end;
    nn_op_X ← fill_from nn_op_X 0 shift_by 0;
    Ok (op_X, nn_op_X)
  else if shift_by <? 0 then
    let shift_by := shift_by * -1 in
    op_X ← copy_cells op_X 0 X shift_by (nR - shift_by);
    op_X ← fill_from op_X (nR - shift_by) shift_by zero;
    '(op_X, nn_op_X) ← match nn_X with
      | Some _ => op_X ← fill_from op_X (nR - shift_by) shift_by zero; Ok (op_X, nn_op_X)
      | None => nn_op_X ← fill_from nn_op_X 0 (nR - shift_by) 1; Ok (op_X, nn_op_X)
      end;
    nn_op_X ← fill_from nn_op_X (nR - shift_by) shift_by 0;
    Ok (op_X, nn_op_X)
  else Err.

Lemma copy_cells_ok {A} (dst src : list A) d s n :
  0 <= d -> 0 <= s -> 0 <= n -> d + n <= zlen dst -> s + n <= zlen src ->
  exists dst', copy_cells dst d src s n = Ok dst' /\ zlen dst' = zlen dst /\
    forall k, dst' !z k = if decide (d <= k < d + n) then src !z (k - d + s) else dst !z k.
Proof.
  intros Hd Hs Hn Ld Ls. set (Zs := take (Z.to_nat d) dst ++ slice src s (s + n)).
  pose proof (slice_length src s (s + n) ltac:(lia) ltac:(lia)) as Lsl.
  assert (forall k, 0 <= k < n -> Zs !z (d + k) = src !z (s + k)) as HZ.
  { intros k Hk. unfold Zs. rewrite !zlookup_to_nat by lia. rewrite lookup_app_r by (rewrite length_take; unfold zlen in *; lia).
    rewrite length_take. unfold slice. rewrite lookup_take_lt by (unfold zlen in *; lia). rewrite lookup_drop. f_equal. unfold zlen in *. lia. }
  destruct (map1_loop_ok (fun x => Ok x) (Z.to_nat n) src Zs s d dst) as (dst' & E & L & P); [lia|lia| |].
  - intros k Hk. destruct (zlookup_is_Some src (s + k)) as [x Hx]; [lia|]. exists x, x. split_and!; try done. by rewrite HZ by lia.
  - exists dst'. split; [exact E|]. split; [done|]. intros k. rewrite P. rewrite Z2Nat.id by lia. case_decide; [|done].
    replace k with (d + (k - d)) at 1 by lia. rewrite HZ by lia. f_equal. lia.
Qed.
Lemma fill_from_ok {A} (dst : list A) d n v : 0 <= d -> 0 <= n -> d + n <= zlen dst ->
  exists dst', fill_from dst d n v = Ok dst' /\ zlen dst' = zlen dst /\
    forall k, dst' !z k = if decide (d <= k < d + n) then Some v else dst !z k.
Proof.
  intros Hd Hn Hl.
  destruct (s_to_f_const_ok (Z.to_nat n) v (replicate (Z.to_nat (d + n)) v) d dst) as (dst' & E & L & P); [lia|lia| |].
  - intros k Hk. rewrite zlookup_to_nat by lia. apply lookup_replicate_2. lia.
  - exists dst'. split; [exact E|]. split; [done|]. intros k. rewrite P, Z2Nat.id by lia. case_decide; [|done].
    rewrite zlookup_to_nat by lia. apply lookup_replicate_2. lia.
Qed.

(** Runs the copies and fills of a goal. *)
Ltac run_copies :=
  repeat match goal with
  | |- context [copy_cells ?dst ?d ?src ?s ?n] =>
      let o := fresh "o" in let E := fresh "E" in let L := fresh "L" in let H := fresh "H" in
      destruct (copy_cells_ok dst src d s n) as (o & E & L & H); [lia..|]; rewrite E; clear E; cbn [mbind res_bind]
  | |- context [fill_from ?dst ?d ?n ?v] =>
      let o := fresh "o" in let E := fresh "E" in let L := fresh "L" in let H := fresh "H" in
      destruct (fill_from_ok dst d n v) as (o & E & L & H); [lia..|]; rewrite E; clear E; cbn [mbind res_bind]
  end.

(** The tests at the beginning. *)
Lemma shift_guards (shift_by nR : Z) {B} (k : res B) :
  -1024 < shift_by < 1024 -> - nR < shift_by < nR ->
  (_ ← go_BYE_if ((shift_by <=? -1024) || (1024 <=? shift_by));
   _ ← go_BYE_if ((shift_by <=? -1 * nR) || (nR <=? shift_by)); k) = k.
Proof. intros H1 H2. rewrite !(proj2 (Z.leb_gt _ _)) by lia. done. Qed.

(** Claim C33. Shifting a field without nulls by [shift_by] rows, down when it is
    positive and up when it is negative, at most 1023 rows and less than the
    length: row [k] gets the value of row [k - shift_by] and the flag 1; the
    rows without such a row (the first [shift_by] ones, or the last ones) get
    zero and the flag 0, so they are null in the new field.  A shift by 0, by
    more rows or by the whole length fails.

    The manual (op [SHIFT] of f1opf2 in q.tex) writes f2[i] = f1[i+N], the
    other direction, but describes the shift for N > 0 as downwards with N new
    values at the top, as the code does; it names a value for the new rows,
    and a limit of 16, which the code does not have. *)
Theorem f1opf2_shift_correct {A} (zero : A) X nR fldtype sz shift_by op_X nn_op_X :
  get_fld_sz fldtype = Ok sz -> zlen X = nR -> zlen op_X = nR -> zlen nn_op_X = nR ->
  if decide (-1024 < shift_by < 1024 /\ - nR < shift_by < nR /\ shift_by <> 0) then
    exists op nn, f1opf2_shift zero X None nR fldtype shift_by op_X nn_op_X = Ok (op, nn) /\ zlen op = nR /\ zlen nn = nR /\
      forall k, 0 <= k < nR ->
        op !z k = (if decide (0 <= k - shift_by < nR) then X !z (k - shift_by) else Some zero) /\
        nn !z k = Some (if decide (0 <= k - shift_by < nR) then 1 else 0)
  else f1opf2_shift zero X None nR fldtype shift_by op_X nn_op_X = Err.
Proof.
  intros Hsz LX LO LN. case_decide as Hin; [destruct Hin as (H1 & H2 & H0)|].
  2: { unfold f1opf2_shift, go_BYE_if. rewrite Hsz. cbn [mbind res_bind]. repeat case_match; cbn [mbind res_bind]; try done; lia. }
  unfold f1opf2_shift. rewrite shift_guards, Hsz by done. cbn [mbind res_bind].
  destruct (Z.ltb_spec 0 shift_by); [|rewrite (proj2 (Z.ltb_lt shift_by 0)) by lia].
  all: run_copies; eexists _, _; split; [reflexivity|]; split; [lia|]; split; [lia|]; intros k Hk.
  all: repeat match goal with H : forall k, ?o !z k = _ |- context [?o !z _] => rewrite H end; repeat case_decide; try lia.
  all: split; try done; f_equal; lia.
Qed.

Lemma f1opf2_shift_correct_witness :
  (exists op nn, f1opf2_shift 0 [5; 6; 7] None 3 I4 (-1) [0; 0; 0] [0; 0; 0] = Ok (op, nn) /\ zlen op = 3 /\ zlen nn = 3 /\
    forall k, 0 <= k < 3 ->
      op !z k = (if decide (0 <= k - -1 < 3) then [5; 6; 7] !z (k - -1) else Some 0) /\
      nn !z k = Some (if decide (0 <= k - -1 < 3) then 1 else 0)) /\
  f1opf2_shift 0 [5; 6; 7] None 3 I4 3 [0; 0; 0] [0; 0; 0] = Err.
Proof.
  split.
  - apply (f1opf2_shift_correct 0 [5; 6; 7] 3 I4 4 (-1) [0; 0; 0] [0; 0; 0]); reflexivity.
  - apply (f1opf2_shift_correct 0 [5; 6; 7] 3 I4 4 3 [0; 0; 0] [0; 0; 0]); reflexivity.
Defined.

(** Shifting a field with nulls: the flags of the field are not
    copied; in a new file every flag of the result is 0, all rows are null. *)
Theorem f1opf2_shift_nulls {A} (zero : A) X nn_X nR fldtype sz shift_by op_X :
  -1024 < shift_by < 1024 -> - nR < shift_by < nR -> shift_by <> 0 -> get_fld_sz fldtype = Ok sz ->
  zlen X = nR -> zlen op_X = nR ->
  exists op nn, f1opf2_shift zero X (Some nn_X) nR fldtype shift_by op_X (replicate (Z.to_nat nR) 0) = Ok (op, nn) /\
    nn = replicate (Z.to_nat nR) 0.
Proof.
  intros H1 H2 H0 Hsz LX LO. assert (zlen (replicate (Z.to_nat nR) 0) = nR) as LN by (unfold zlen; rewrite length_replicate; lia).
  assert (forall k, 0 <= k < nR -> replicate (Z.to_nat nR) 0 !z k = Some 0) as HR.
  { intros k Hk. rewrite zlookup_to_nat by lia. apply lookup_replicate_2. lia. }
  unfold f1opf2_shift. rewrite shift_guards, Hsz by done. cbn [mbind res_bind].
  destruct (Z.ltb_spec 0 shift_by); [|rewrite (proj2 (Z.ltb_lt shift_by 0)) by lia].
  all: run_copies; eexists _, _; split; [reflexivity|]; apply zlookup_ext; [lia|]; intros k Hk; rewrite HR by lia.
  all: repeat match goal with H : forall k, ?o !z k = _ |- context [?o !z _] => rewrite H end; repeat case_decide; try done.
  all: apply HR; lia.
Qed.

Lemma f1opf2_shift_nulls_witness :
  exists op nn, f1opf2_shift 0 [5; 6; 7] (Some [1; 1; 1]) 3 I4 1 [0; 0; 0] (replicate (Z.to_nat 3) 0) = Ok (op, nn) /\
    nn = replicate (Z.to_nat 3) 0.
Proof. apply (f1opf2_shift_nulls 0 [5; 6; 7] [1; 1; 1] 3 I4 4 1 [0; 0; 0]); try reflexivity; lia. Defined.

(** ** [zero_after_n]

    [X] is the list of the 64-bit words of a bit field. *)
Fixpoint count_words (n : nat) (Y : list Z) (i cnt one_cnt : Z) : res Z :=
  match n with
  | O => Ok i
  | Datatypes.S n =>
      y ← rd Y i;
      let cnt := cnt + popcount 64 y in
      if one_cnt <=? cnt then Ok (i + 1) else count_words n Y (i + 1) cnt one_cnt
  end.
Definition zero_after_n (X : option (list Z)) (nR one_cnt : Z) : res (list Z) :=
  match X with
  | None => Err
  | Some Y =>
      let nY := Z.quot nR 64 in
      let nY := if negb (Z.quot nY 64 =? nR) then nY + 1 else nY in
      i ← count_words (Z.to_nat nY) Y 0 0 one_cnt;
      fill_from Y i (nY - i) 0
  end.

(** The ones of the first [m] words. *)
Definition ones_before (Y : list Z) (m : Z) : Z := foldr Z.add 0 (popcount 64 <$> take (Z.to_nat m) Y).

Lemma ones_before_succ Y i y : 0 <= i -> Y !z i = Some y -> ones_before Y (i + 1) = ones_before Y i + popcount 64 y.
Proof.
  intros Hi Hy. rewrite zlookup_to_nat in Hy by done. unfold ones_before.
  replace (Z.to_nat (i + 1)) with (Datatypes.S (Z.to_nat i)) by lia. rewrite (take_S_r _ _ _ Hy), fmap_app, foldr_app, fmap_cons, fmap_nil.
  generalize (popcount 64 <$> take (Z.to_nat i) Y). generalize (popcount 64 y). intros p l. cbn [foldr]. rewrite Z.add_0_r. induction l as [|x l IH]; simpl; lia.
Qed.

Lemma count_words_ok Y one_cnt n : forall i,
  0 <= i -> i + Z.of_nat n <= zlen Y -> (forall j, 0 < j <= i -> ones_before Y j < one_cnt) ->
  exists m, count_words n Y i (ones_before Y i) one_cnt = Ok m /\ i <= m <= i + Z.of_nat n /\
    (forall j, 0 < j < m -> ones_before Y j < one_cnt) /\ (m < i + Z.of_nat n -> one_cnt <= ones_before Y m).
Proof.
  induction n as [|n IH]; intros i Hi Hl Hj; cbn [count_words].
  { exists i. split; [done|]. split; [lia|]. split; [|lia]. intros j Hjj. apply Hj. lia. }
  destruct (zlookup_is_Some Y i) as [y Hy]; [lia|]. rewrite (proj2 (rd_Ok _ _ _) Hy). cbn [mbind res_bind].
  rewrite <- ones_before_succ by done. destruct (Z.leb_spec one_cnt (ones_before Y (i + 1))).
  - exists (i + 1). split; [done|]. split; [lia|]. split; [|done]. intros j Hjj. apply Hj. lia.
  - destruct (IH (i + 1)) as (m & E & Hm & H1 & H2); [lia|lia| |].
    + intros j Hjj. destruct (decide (j = i + 1)) as [->|]; [done|]. apply Hj. lia.
    + exists m. split; [exact E|]. split; [lia|]. split; [done|]. intros. apply H2. lia.
Qed.

(** [zero_after_n], when the file has the [nR / 64 + 1] words that the
    code looks at: the words up to the first with which the ones reach
    [one_cnt] stay, the words behind them are cleared. *)
Theorem zero_after_n_correct Y nR one_cnt :
  0 < nR -> nR / 64 + 1 <= zlen Y ->
  exists m R, zero_after_n (Some Y) nR one_cnt = Ok R /\ 0 <= m <= nR / 64 + 1 /\
    (forall j, 0 < j < m -> ones_before Y j < one_cnt) /\ (m < nR / 64 + 1 -> one_cnt <= ones_before Y m) /\
    zlen R = zlen Y /\ forall k, R !z k = if decide (m <= k < nR / 64 + 1) then Some 0 else Y !z k.
Proof.
  intros Hn Hl. unfold zero_after_n. pose proof (Z.div_pos nR 64 ltac:(lia) ltac:(lia)).
  rewrite (Z.quot_div_nonneg nR 64), (Z.quot_div_nonneg (nR / 64) 64) by lia.
  destruct (Z.eqb_spec (nR / 64 / 64) nR) as [E|_]; cbn [negb].
  { exfalso. pose proof (Z.div_le_upper_bound nR 64 nR ltac:(lia) ltac:(lia)).
    pose proof (Z.div_lt_upper_bound (nR / 64) 64 nR ltac:(lia) ltac:(lia)). lia. }
  destruct (count_words_ok Y one_cnt (Z.to_nat (nR / 64 + 1)) 0) as (m & E & Hm & H1 & H2); [lia|lia|intros; lia|].
  change (ones_before Y 0) with 0 in E. rewrite E. cbn [mbind res_bind].
  destruct (fill_from_ok Y m (nR / 64 + 1 - m) 0) as (R & -> & L & H3); [lia..|].
  exists m, R. split; [done|]. split; [lia|]. split; [done|]. split; [intros; apply H2; lia|]. split; [done|].
  intros k. rewrite H3. repeat case_decide; done || lia.
Qed.

Lemma zero_after_n_correct_witness :
  exists m R, zero_after_n (Some [7; 1; 255]) 130 4 = Ok R /\ 0 <= m <= 130 / 64 + 1 /\
    (forall j, 0 < j < m -> ones_before [7; 1; 255] j < 4) /\ (m < 130 / 64 + 1 -> 4 <= ones_before [7; 1; 255] m) /\
    zlen R = zlen [7; 1; 255] /\ forall k, R !z k = if decide (m <= k < 130 / 64 + 1) then Some 0 else [7; 1; 255] !z k.
Proof. apply (zero_after_n_correct [7; 1; 255] 130 4); [lia|by vm_compute]. Defined.

Lemma s_to_f_const_overrun {A} n (v : A) : forall X i, 0 <= i -> zlen X < i + Z.of_nat n -> s_to_f_const n X i v = Ub \/ zlen X < i.
Proof.
  induction n as [|n IH]; intros X i Hi Hl; [right; lia|]. cbn [s_to_f_const].
  destruct (decide (i < zlen X)) as [Hlt|].
  - rewrite wr_Ok by lia. cbn [mbind res_bind]. left. destruct (IH (zset X i v) (i + 1)) as [->|Hbad]; [lia|rewrite zlen_zset; lia|done|].
    rewrite zlen_zset in Hbad. lia.
  - destruct (decide (i = zlen X)) as [->|]; [|right; lia]. left. unfold wr. by rewrite decide_False by lia.
Qed.

Lemma count_words_overrun Y one_cnt n : forall i cnt, 0 <= i <= zlen Y -> i + Z.of_nat n = zlen Y + 1 ->
  count_words n Y i cnt one_cnt = Ub \/ exists m, count_words n Y i cnt one_cnt = Ok m /\ 0 <= m <= zlen Y.
Proof.
  induction n as [|n IH]; intros i cnt Hi Hl; cbn [count_words]; [lia|].
  destruct (decide (i < zlen Y)) as [Hlt|].
  - destruct (rd_total Y i) as [y ->]; [lia|]. cbn [mbind res_bind]. destruct (one_cnt <=? cnt + popcount 64 y).
    + right. exists (i + 1). split; [done|lia].
    + apply IH; lia.
  - left. unfold rd. by rewrite zlookup_None by lia.
Qed.

(** The number of words is taken to be one too many when [nR] is a
    multiple of 64: in a file that has exactly its words the code reads or
    writes behind the end, whatever the bits. *)
Theorem zero_after_n_overrun Y nR one_cnt :
  0 < nR -> nR mod 64 = 0 -> zlen Y = nR / 64 -> zero_after_n (Some Y) nR one_cnt = Ub.
Proof.
  intros Hn Hmod HY. pose proof (Z.div_mod nR 64 ltac:(lia)). unfold zero_after_n.
  rewrite (Z.quot_div_nonneg nR 64), (Z.quot_div_nonneg (nR / 64) 64) by lia.
  destruct (Z.eqb_spec (nR / 64 / 64) nR) as [E|_]; cbn [negb].
  { exfalso. pose proof (Z.div_lt_upper_bound (nR / 64) 64 nR ltac:(lia) ltac:(lia)). lia. }
  destruct (count_words_overrun Y one_cnt (Z.to_nat (nR / 64 + 1)) 0 0) as [->|(m & -> & Hm)]; [lia|lia|done|].
  cbn [mbind res_bind]. unfold fill_from.
  destruct (s_to_f_const_overrun (Z.to_nat (nR / 64 + 1 - m)) 0 Y m) as [->|Hbad]; [lia|lia|done|lia].
Qed.

Lemma zero_after_n_overrun_witness : zero_after_n (Some [7; 0]) 128 1 = Ub.
Proof. apply (zero_after_n_overrun [7; 0] 128 1); [lia|reflexivity|reflexivity]. Defined.
