(* ===== verification/Positions.v ===== *)
(** * Selection by position, and sets as sorted fields.

    Models dir_wr_verbs/t1f1t2f2opt3f3.c from the data of its two fields to the
    data of the new one, with the kernels AUX/pos_*.c: copying and counting the
    values of a field at the positions that another field holds, their minimum,
    maximum and sum; intersection and difference of sorted fields. *)

From stdpp Require Import prelude strings.
From Stdlib Require Import ZArith Lia SpecFloat Sorted.
From S2P Require Import Prelude CString Types Reduce Elem Vec Fill.
Import Reduce.

(** ** Kernels

    A kernel returns its status and what it has written so far: the caller
    does not always test the status. *)

(** [( nn != NULL ) && ( nn[i] == FALSE )] *)
Definition is_null (nn : option (list Z)) (i : Z) : res bool :=
  match nn with None => Ok false | Some l => b ← rd l i; Ok (b =? 0) end.
Definition out_of (nR i : Z) : bool := (i <? 0) || (nR <=? i).

Fixpoint pos_copy_loop (n : nat) (f1 : list Z) (nR1 : Z) (f2 : list Z) (i : Z) (f3 : list Z) : res (bool * list Z) :=
  match n with
  | O => Ok (true, f3)
  | Datatypes.S n =>
      f1idx ← rd f2 i;
      if out_of nR1 f1idx then Ok (false, f3)
      else
        ival ← rd f1 f1idx;
        f3 ← wr f3 i ival;
        pos_copy_loop n f1 nR1 f2 (i + 1) f3
  end.
Definition pos_copy (f1 : list Z) (nR1 : Z) (f2 : list Z) (nR2 : Z) (f3 : list Z) : res (bool * list Z) :=
  pos_copy_loop (Z.to_nat nR2) f1 nR1 f2 0 f3.

(** The kernels that select: what an iteration does. *)
Inductive action := Fail | Skip | Put (v : Z).

(** [*ptr_cnt = cnt] is not reached on failure. *)
Fixpoint gather (act : Z -> res action) (n : nat) (i : Z) (f3 : list Z) (cnt : Z) : res (bool * list Z * Z) :=
  match n with
  | O => Ok (true, f3, cnt)
  | Datatypes.S n =>
      s ← act i;
      match s with
      | Fail => Ok (false, f3, cnt)
      | Skip => gather act n (i + 1) f3 cnt
      | Put v => f3 ← wr f3 cnt v; gather act n (i + 1) f3 (cnt + 1)
      end
  end.
Definition gather_all (act : Z -> res action) (nR2 : Z) (f3 : list Z) (cnt : Z) : res (bool * list Z * Z) :=
  '(ok, f3, n) ← gather act (Z.to_nat nR2) 0 f3 0;
  Ok (ok, f3, if ok : bool then n else cnt).

Definition pos_nn_copy (f1 : list Z) (nn_f1 : option (list Z)) (nR1 : Z) (f2 : list Z) (nn_f2 : option (list Z)) (nR2 : Z)
    (f3 : list Z) (cnt : Z) : res (bool * list Z * Z) :=
  gather_all (fun i =>
    null2 ← is_null nn_f2 i;
    if null2 : bool then Ok Skip
    else
      f1idx ← rd f2 i;
      if out_of nR1 f1idx then Ok Fail
      else
        null1 ← is_null nn_f1 f1idx;
        if null1 : bool then Ok Skip else ival ← rd f1 f1idx; Ok (Put ival)) nR2 f3 cnt.

Definition pos_sel_copy (f1 : list Z) (nR1 : Z) (f2 : list Z) (nR2 lb ub : Z) (f3 : list Z) (cnt : Z)
    : res (bool * list Z * Z) :=
  gather_all (fun i2 =>
    f1idx ← rd f2 i2;
    if out_of nR1 f1idx then Ok Fail
    else
      val ← rd f1 f1idx;
      Ok (if (lb <=? val) && (val <=? ub) then Put val else Skip)) nR2 f3 cnt.

Definition pos_sel_aux_copy (f1_select f1_copy : list Z) (nR1 : Z) (f2 : list Z) (nR2 lb ub : Z) (f3 : list Z) (cnt : Z)
    : res (bool * list Z * Z) :=
  gather_all (fun i2 =>
    f1idx ← rd f2 i2;
    if out_of nR1 f1idx then Ok Fail
    else
      val ← rd f1_select f1idx;
      if (lb <=? val) && (val <=? ub) then val ← rd f1_copy f1idx; Ok (Put val) else Ok Skip) nR2 f3 cnt.

Definition pos_sel_aux_nn_copy (f1_select : list Z) (nn_f1_select : option (list Z)) (f1_copy : list Z)
    (nn_f1_copy : option (list Z)) (nR1 : Z) (f2 : list Z) (nn_f2 : option (list Z)) (nR2 lb ub : Z) (f3 : list Z) (cnt : Z)
    : res (bool * list Z * Z) :=
  gather_all (fun i2 =>
    null2 ← is_null nn_f2 i2;
    if null2 : bool then Ok Skip
    else
      f1idx ← rd f2 i2;
      if out_of nR1 f1idx then Ok Fail
      else
        null_select ← is_null nn_f1_select f1idx;
        if null_select : bool then Ok Skip
        else
          val ← rd f1_select f1idx;
          if (lb <=? val) && (val <=? ub) then
            null_copy ← is_null nn_f1_copy f1idx;
            if null_copy : bool then Ok Skip else val ← rd f1_copy f1idx; Ok (Put val)
          else Ok Skip) nR2 f3 cnt.

(** [f3[f3idx]++] on an [int] *)
Definition count_one (f3 : list Z) (f3idx : Z) : res (list Z) :=
  c ← rd f3 f3idx; c ← c_add 32 c 1; wr f3 f3idx c.

Fixpoint pos_count_loop (n : nat) (f1 : list Z) (nR1 : Z) (f2 : list Z) (i : Z) (f3 : list Z) (nR3 : Z) : res (bool * list Z) :=
  match n with
  | O => Ok (true, f3)
  | Datatypes.S n =>
      f1idx ← rd f2 i;
      if out_of nR1 f1idx then Ok (false, f3)
      else
        f3idx ← rd f1 f1idx;
        if out_of nR3 f3idx then Ok (false, f3)
        else f3 ← count_one f3 f3idx; pos_count_loop n f1 nR1 f2 (i + 1) f3 nR3
  end.
Definition pos_count (f1 : list Z) (nR1 : Z) (f2 : list Z) (nR2 : Z) (f3 : list Z) (nR3 : Z) : res (bool * list Z) :=
  pos_count_loop (Z.to_nat nR2) f1 nR1 f2 0 f3 nR3.

(** The bits of a word are counted in the first [nR3] cells. *)
Fixpoint bitvec_loop (n : nat) (bitvec i : Z) (f3 : list Z) : res (list Z) :=
  match n with
  | O => Ok f3
  | Datatypes.S n =>
      if bitvec =? 0 then Ok f3
      else
        f3 ← (if Z.land bitvec 1 =? 1 then count_one f3 i else Ok f3);
        bitvec_loop n (Z.shiftr bitvec 1) (i + 1) f3
  end.
Fixpoint pos_count_bitvec_loop (w : Z) (n : nat) (f1 : list Z) (nR1 : Z) (f2 : list Z) (i : Z) (f3 : list Z) (nR3 : Z)
    : res (bool * list Z) :=
  match n with
  | O => Ok (true, f3)
  | Datatypes.S n =>
      f1idx ← rd f2 i;
      if out_of nR1 f1idx then Ok (false, f3)
      else
        bitvec ← rd f1 f1idx;
        f3 ← bitvec_loop (Z.to_nat nR3) (wrapU w bitvec) 0 f3;
        pos_count_bitvec_loop w n f1 nR1 f2 (i + 1) f3 nR3
  end.
Definition pos_count_bitvec (w : Z) (f1 : list Z) (nR1 : Z) (f2 : list Z) (nR2 : Z) (f3 : list Z) (nR3 : Z)
    : res (bool * list Z) :=
  pos_count_bitvec_loop w (Z.to_nat nR2) f1 nR1 f2 0 f3 nR3.

(** Minimum, maximum and sum; not stored on failure. *)
Definition mms : Type := Z * Z * Z.
Definition mms_add (s : mms) (f1val : Z) : res mms :=
  let '(minval, maxval, sum) := s in
  sum ← c_add 64 sum f1val;
  Ok (if f1val <? minval then f1val else minval, if maxval <? f1val then f1val else maxval, sum).
Fixpoint pos_mmad_loop (n : nat) (f1 : list Z) (nR1 : Z) (f2 : list Z) (i : Z) (s : mms) : res (option mms) :=
  match n with
  | O => Ok (Some s)
  | Datatypes.S n =>
      f1idx ← rd f2 i;
      if out_of nR1 f1idx then Ok None
      else f1val ← rd f1 f1idx; s ← mms_add s f1val; pos_mmad_loop n f1 nR1 f2 (i + 1) s
  end.
(** From row [lb] on: the status and what is stored. *)
Definition pos_mmad (f1 : list Z) (nR1 : Z) (f2 : list Z) (lb nX : Z) (s : mms) : res (bool * mms) :=
  r ← pos_mmad_loop (Z.to_nat nX) f1 nR1 f2 lb s;
  Ok (match r with Some s => (true, s) | None => (false, s) end).

(** With null values: [nn_f1] is read before the index is tested. *)
Fixpoint pos_mmad_nn_loop (n : nat) (f1 : list Z) (nn_f1 : option (list Z)) (nR1 : Z) (f2 : list Z) (nn_f2 : option (list Z))
    (i : Z) (s : mms) (cnt : Z) : res (option (mms * Z)) :=
  match n with
  | O => Ok (Some (s, cnt))
  | Datatypes.S n =>
      null2 ← is_null nn_f2 i;
      if null2 : bool then pos_mmad_nn_loop n f1 nn_f1 nR1 f2 nn_f2 (i + 1) s cnt
      else
        f1idx ← rd f2 i;
        null1 ← is_null nn_f1 f1idx;
        if null1 : bool then pos_mmad_nn_loop n f1 nn_f1 nR1 f2 nn_f2 (i + 1) s cnt
        else if out_of nR1 f1idx then Ok None
        else
          f1val ← rd f1 f1idx;
          s ← mms_add s f1val;
          pos_mmad_nn_loop n f1 nn_f1 nR1 f2 nn_f2 (i + 1) s (cnt + 1)
  end.
Definition pos_mmad_nn (f1 : list Z) (nn_f1 : option (list Z)) (nR1 : Z) (f2 : list Z) (nn_f2 : option (list Z)) (lb nX : Z)
    (s : mms) (cnt : Z) : res (bool * mms * Z) :=
  r ← pos_mmad_nn_loop (Z.to_nat nX) f1 nn_f1 nR1 f2 nn_f2 lb s cnt;
  Ok (match r with Some (s, cnt) => (true, s, cnt) | None => (false, s, cnt) end).

(** The kernels by the types of the values and of the positions. *)
Definition pos_copy_I4_I4 := pos_copy.
Definition pos_copy_I4_I8 := pos_copy.
Definition pos_copy_I8_I4 := pos_copy.
Definition pos_copy_I8_I8 := pos_copy.
Definition pos_nn_copy_I4_I4 := pos_nn_copy.
Definition pos_nn_copy_I4_I8 := pos_nn_copy.
Definition pos_nn_copy_I8_I4 := pos_nn_copy.
Definition pos_nn_copy_I8_I8 := pos_nn_copy.
Definition pos_sel_copy_I4_I4 := pos_sel_copy.
Definition pos_sel_copy_I4_I8 := pos_sel_copy.
Definition pos_sel_copy_I8_I4 := pos_sel_copy.
Definition pos_sel_copy_I8_I8 := pos_sel_copy.
Definition pos_sel_aux_copy_I4_I4 := pos_sel_aux_copy.
Definition pos_sel_aux_copy_I4_I8 := pos_sel_aux_copy.
Definition pos_sel_aux_copy_I8_I4 := pos_sel_aux_copy.
Definition pos_sel_aux_copy_I8_I8 := pos_sel_aux_copy.
Definition pos_sel_aux_nn_copy_I4_I4 := pos_sel_aux_nn_copy.
Definition pos_sel_aux_nn_copy_I4_I8 := pos_sel_aux_nn_copy.
Definition pos_sel_aux_nn_copy_I8_I4 := pos_sel_aux_nn_copy.
Definition pos_sel_aux_nn_copy_I8_I8 := pos_sel_aux_nn_copy.
Definition pos_count_I4_I4 := pos_count.
Definition pos_count_I4_I8 := pos_count.
Definition pos_count_I8_I4 := pos_count.
Definition pos_count_I8_I8 := pos_count.
Definition pos_mmad_I4_I4 := pos_mmad.
Definition pos_mmad_I4_I8 := pos_mmad.
Definition pos_mmad_I8_I4 := pos_mmad.
Definition pos_mmad_I8_I8 := pos_mmad.
Definition pos_nn_copy_I1_I4 := pos_nn_copy.
Definition pos_nn_copy_I1_I8 := pos_nn_copy.
Definition pos_count_bitvec_I4_I4 := pos_count_bitvec 32.
Definition pos_count_bitvec_I4_I8 := pos_count_bitvec 32.
Definition pos_mmad_I4_I4_nn := pos_mmad_nn.
Definition pos_mmad_I4_I8_nn := pos_mmad_nn.

(** ** Operators on two fields of two tables

    A field with its type, its order, its values and its flags. *)
Record operand := { f_type : FLD_TYPE; f_sort : SORT_TYPE; f_X : list Z; f_nn : option (list Z) }.

(** [q_trunc(ddir_id, filename, filesz)]: [file] is the size of the file, if
    there is one.  With [filesz] 0 the name is also removed from the current
    directory, where the new file is not. *)
Definition q_trunc (file : option Z) (filesz : Z) : res unit :=
  match file with None => Err | Some curr_size => go_BYE_if (curr_size <? filesz) end.

(** The new field: [None] when the operation returns 0 without one. *)
Definition output : Type := option (list Z).

(** What follows an operator that has written [nR3] of [nR3_allocated] cells:
    a file that was removed is not found by [q_trunc].  The new file is in
    [g_data_dir]. *)
Definition finish_output (exists_file : bool) (fldsz nR3 nR3_allocated : Z) (f3 : list Z) : res output :=
  _ ← (if nR3 =? nR3_allocated then Ok tt
       else q_trunc (if exists_file then Some (nR3_allocated * fldsz) else None) (nR3 * fldsz));
  Ok (if nR3 =? 0 then None else Some (take (Z.to_nat nR3) f3)).

(** *** Intersection and difference *)

Definition sorted_sets (a b : operand) : res unit :=
  _ ← go_BYE_if (bool_decide (f_sort a <> ascending));
  _ ← go_BYE_if (bool_decide (f_sort b <> ascending));
  _ ← go_BYE_if (bool_decide (f_nn a <> None));
  _ ← go_BYE_if (bool_decide (f_nn b <> None));
  _ ← go_BYE_if (bool_decide (f_type a <> I4));
  go_BYE_if (bool_decide (f_type b <> I4)).

Fixpoint inter_loop (fuel : nat) (f1 : list Z) (nR1 : Z) (f2 : list Z) (nR2 : Z) (i1 i2 : Z) (f3 : list Z) (nR3 : Z)
    : res (list Z * Z) :=
  match fuel with
  | O => NoFuel
  | Datatypes.S fuel =>
      if i1 =? nR1 then Ok (f3, nR3)
      else if i2 =? nR2 then Ok (f3, nR3)
      else
        f1val ← rd f1 i1;
        f2val ← rd f2 i2;
        if f1val =? f2val then
          f3 ← wr f3 nR3 f1val;
          _ ← go_BYE_if (nR1 + nR2 <? nR3 + 1);
          inter_loop fuel f1 nR1 f2 nR2 (i1 + 1) (i2 + 1) f3 (nR3 + 1)
        else if f1val <? f2val then inter_loop fuel f1 nR1 f2 nR2 (i1 + 1) i2 f3 nR3
        else inter_loop fuel f1 nR1 f2 nR2 i1 (i2 + 1) f3 nR3
  end.
Definition intersection (a b : operand) (nR1 nR2 : Z) : res output :=
  _ ← sorted_sets a b;
  let nR3_allocated := Z.min nR1 nR2 in
  _ ← mk_size (nR3_allocated * 4);
  '(f3, nR3) ← inter_loop (Z.to_nat (nR1 + nR2 + 1)) (f_X a) nR1 (f_X b) nR2 0 0 (replicate (Z.to_nat nR3_allocated) 0) 0;
  exists_file ← (if nR3 =? 0 then Ok false
                 else
                   _ ← (if nR3 <? nR3_allocated then q_trunc (Some (nR3_allocated * 4)) (nR3 * 4)
                        else go_BYE_if (nR3_allocated <? nR3));
                   Ok true);
  finish_output exists_file 4 nR3 nR3_allocated f3.

Fixpoint minus_loop (fuel : nat) (f1 : list Z) (nR1 : Z) (f2 : list Z) (nR2 : Z) (i1 i2 : Z) (f3 : list Z) (nR3 : Z)
    : res (list Z * Z) :=
  match fuel with
  | O => NoFuel
  | Datatypes.S fuel =>
      if (i1 =? nR1) && (i2 =? nR2) then Ok (f3, nR3)
      else if i2 =? nR2 then
        f1val ← rd f1 i1;
        f3 ← wr f3 nR3 f1val;
        minus_loop fuel f1 nR1 f2 nR2 (i1 + 1) i2 f3 (nR3 + 1)
      else if i1 =? nR1 then Ok (f3, nR3)
      else
        f1val ← rd f1 i1;
        f2val ← rd f2 i2;
        if f1val <? f2val then
          f3 ← wr f3 nR3 f1val;
          minus_loop fuel f1 nR1 f2 nR2 (i1 + 1) i2 f3 (nR3 + 1)
        else if f1val =? f2val then minus_loop fuel f1 nR1 f2 nR2 (i1 + 1) (i2 + 1) f3 nR3
        else minus_loop fuel f1 nR1 f2 nR2 i1 (i2 + 1) f3 nR3
  end.
Definition a_minus_b (a b : operand) (nR1 nR2 : Z) : res output :=
  _ ← sorted_sets a b;
  let nR3_allocated := nR1 in
  _ ← mk_size (nR3_allocated * 4);
  '(f3, nR3) ← minus_loop (Z.to_nat (nR1 + nR2 + 1)) (f_X a) nR1 (f_X b) nR2 0 0 (replicate (Z.to_nat nR3_allocated) 0) 0;
  _ ← q_trunc (Some (nR3_allocated * 4)) (nR3 * 4);
  finish_output true 4 nR3 nR3_allocated f3.

(** *** Copying by position *)

(** The end of [pos_copy] and [pos_sel_copy]: the status [ok] of the kernel
    survives only when nothing was copied. *)
Definition finish_copy (ok : bool) (cnt nR2 : Z) (f3 : list Z) : res output :=
  _ ← go_BYE_if (cnt =? LLONG_MIN);
  if cnt <? nR2 then
    if cnt =? 0 then if ok then Ok None else Err
    else Ok (Some (take (Z.to_nat cnt) f3))
  else Ok (Some f3).

Definition new_cells (a : operand) (nR : Z) : res (list Z) :=
  f3_fldsz ← get_fld_sz (f_type a);
  _ ← mk_size (nR * f3_fldsz);
  Ok (replicate (Z.to_nat nR) 0).

(** [is_null_vals] is true when one of the fields has no nulls. *)
Definition is_null_vals (a b : operand) : bool := bool_decide (f_nn a = None \/ f_nn b = None).

Definition pos_copy_op (a b : operand) (nR1 nR2 : Z) : res output :=
  f3 ← new_cells a nR2;
  if negb (is_null_vals a b) then
    '(ok, f3) ← match f_type a, f_type b with
      | I4, I4 => pos_copy_I4_I4 (f_X a) nR1 (f_X b) nR2 f3
      | I4, I8 => pos_copy_I4_I8 (f_X a) nR1 (f_X b) nR2 f3
      | I8, I4 => pos_copy_I8_I4 (f_X a) nR1 (f_X b) nR2 f3
      | I8, I8 => pos_copy_I8_I8 (f_X a) nR1 (f_X b) nR2 f3
      | _, _ => Err
      end;
    finish_copy ok nR2 nR2 f3
  else
    '(ok, f3, cnt) ← match f_type a, f_type b with
      | I4, I4 => pos_nn_copy_I4_I4 (f_X a) (f_nn a) nR1 (f_X b) (f_nn b) nR2 f3 0
      | I4, I8 => pos_nn_copy_I4_I8 (f_X a) (f_nn a) nR1 (f_X b) (f_nn b) nR2 f3 0
      | I8, I4 => pos_nn_copy_I8_I4 (f_X a) (f_nn a) nR1 (f_X b) (f_nn b) nR2 f3 0
      | I8, I8 => pos_nn_copy_I8_I8 (f_X a) (f_nn a) nR1 (f_X b) (f_nn b) nR2 f3 0
      | I1, I4 => pos_nn_copy_I1_I4 (f_X a) (f_nn a) nR1 (f_X b) (f_nn b) nR2 f3 0
      | I1, I8 => pos_nn_copy_I1_I8 (f_X a) (f_nn a) nR1 (f_X b) (f_nn b) nR2 f3 0
      | _, _ => Err
      end;
    finish_copy ok cnt nR2 f3.

(** *** Copying the values between two bounds

    [options] is ["lb=[...]"] and ["ub=[...]"]; with ["sel_fld=[...]"] the
    values of another field of the first table are copied, [sel_fld] giving its
    values or failing.  The statuses of [extract_I8], [extract_I4] and
    [extract_S] are not tested. *)
Record bounds := { lbI8 : Z; ubI8 : Z; lbI4 : Z; ubI4 : Z; is_lb_null : bool; is_ub_null : bool }.

Definition read_bounds (options : string) (t : FLD_TYPE) : res bounds :=
  let '(_, lb8, lb_null) := extract_I8 (Some options) "lb=[" "]" LLONG_MIN in
  let '(_, ub8, ub_null) := extract_I8 (Some options) "ub=[" "]" LLONG_MAX in
  _ ← go_BYE_if (lb_null && ub_null);
  _ ← go_BYE_if (negb lb_null && negb ub_null && (ub8 <? lb8));
  match t with
  | I4 =>
      let '(_, lb4, lb_null) := extract_I4 (Some options) "lb=[" "]" INT_MIN in
      let '(_, ub4, ub_null) := extract_I4 (Some options) "ub=[" "]" INT_MAX in
      Ok {| lbI8 := lb8; ubI8 := ub8; lbI4 := if lb_null : bool then INT_MIN else lb4;
            ubI4 := if ub_null : bool then INT_MAX else ub4; is_lb_null := lb_null; is_ub_null := ub_null |}
  | I8 =>
      Ok {| lbI8 := if lb_null : bool then LLONG_MIN else lb8; ubI8 := if ub_null : bool then LLONG_MAX else ub8;
            lbI4 := INT_MIN; ubI4 := INT_MAX; is_lb_null := lb_null; is_ub_null := ub_null |}
  | _ => Err
  end.

(** A null [lb] is still [LLONG_MIN] in [lbI8]: it fails the test for I4. *)
Definition sel_copy (a b : operand) (nR1 nR2 : Z) (s : bounds) (f3 : list Z) : res (bool * list Z * Z) :=
  match f_type a with
  | I4 =>
      _ ← go_BYE_if (lbI8 s <? INT_MIN);
      _ ← go_BYE_if (INT_MAX <? ubI8 s);
      let lb := wrapS 32 (lbI8 s) in
      let ub := wrapS 32 (ubI8 s) in
      match f_type b with
      | I4 => pos_sel_copy_I4_I4 (f_X a) nR1 (f_X b) nR2 lb ub f3 LLONG_MIN
      | I8 => pos_sel_copy_I4_I8 (f_X a) nR1 (f_X b) nR2 lb ub f3 LLONG_MIN
      | _ => Err
      end
  | I8 =>
      match f_type b with
      | I4 => pos_sel_copy_I8_I4 (f_X a) nR1 (f_X b) nR2 (lbI8 s) (ubI8 s) f3 LLONG_MIN
      | I8 => pos_sel_copy_I8_I8 (f_X a) nR1 (f_X b) nR2 (lbI8 s) (ubI8 s) f3 LLONG_MIN
      | _ => Err
      end
  | _ => Err
  end.

(** With [sel_fld], whose cells are read with the type of the first field; the
    kernels for I8 get the bounds for I4, which are not set.  A field of another
    type is outside the model. *)
Definition sel_aux_copy (a b : operand) (sel : operand) (nR1 nR2 : Z) (s : bounds) (f3 : list Z) : res (bool * list Z * Z) :=
  if bool_decide (f_type sel <> f_type a) then Ub
  else if negb (is_null_vals a b) then
    match f_type a, f_type b with
    | I4, I4 => pos_sel_aux_copy_I4_I4 (f_X a) (f_X sel) nR1 (f_X b) nR2 (lbI4 s) (ubI4 s) f3 0
    | I4, I8 => pos_sel_aux_copy_I4_I8 (f_X a) (f_X sel) nR1 (f_X b) nR2 (lbI4 s) (ubI4 s) f3 0
    | I8, I4 => pos_sel_aux_copy_I8_I4 (f_X a) (f_X sel) nR1 (f_X b) nR2 (lbI4 s) (ubI4 s) f3 0
    | I8, I8 => pos_sel_aux_copy_I8_I8 (f_X a) (f_X sel) nR1 (f_X b) nR2 (lbI4 s) (ubI4 s) f3 0
    | _, _ => Err
    end
  else
    match f_type a, f_type b with
    | I4, I4 => pos_sel_aux_nn_copy_I4_I4 (f_X a) (f_nn a) (f_X sel) None nR1 (f_X b) (f_nn b) nR2 (lbI4 s) (ubI4 s) f3 0
    | I4, I8 => pos_sel_aux_nn_copy_I4_I8 (f_X a) (f_nn a) (f_X sel) None nR1 (f_X b) (f_nn b) nR2 (lbI4 s) (ubI4 s) f3 0
    | I8, I4 => pos_sel_aux_nn_copy_I8_I4 (f_X a) (f_nn a) (f_X sel) None nR1 (f_X b) (f_nn b) nR2 (lbI4 s) (ubI4 s) f3 0
    | I8, I8 => pos_sel_aux_nn_copy_I8_I8 (f_X a) (f_nn a) (f_X sel) None nR1 (f_X b) (f_nn b) nR2 (lbI4 s) (ubI4 s) f3 0
    | _, _ => Err
    end.

Definition pos_sel_copy_op (a b : operand) (nR1 nR2 : Z) (options : option string) (sel_fld : string -> res operand)
    : res output :=
  f3 ← new_cells a nR2;
  match options with
  | None | Some EmptyString => Err
  | Some options =>
      let sel := match extract_S (Some options) "sel_fld=[" "]" MAX_LEN_FLD_NAME with Ok sel => sel | _ => None end in
      s ← read_bounds options (f_type a);
      '(ok, f3, cnt) ← match sel with
        | None => sel_copy a b nR1 nR2 s f3
        | Some name => sel ← sel_fld name; sel_aux_copy a b sel nR1 nR2 s f3
        end;
      finish_copy ok cnt nR2 f3
  end.

(** *** Counting by position

    The status of the kernel is lost: [q_trunc] and [add_fld] follow. *)
Definition pos_count_op (a b : operand) (nR1 nR2 nR3 : Z) (options : option string) : res (list Z) :=
  is_bitvec ← match options with
    | None | Some EmptyString => Ok false
    | Some options => if strcmp_eq options "bitvec" then Ok true else Err
    end;
  _ ← go_BYE_if (bool_decide (f_nn a <> None));
  _ ← go_BYE_if (bool_decide (f_nn b <> None));
  _ ← mk_size (nR3 * 4);
  let f3 := replicate (Z.to_nat nR3) 0 in
  '(_, f3) ← match f_type a, f_type b with
    | I4, I4 => if is_bitvec : bool then pos_count_bitvec_I4_I4 (f_X a) nR1 (f_X b) nR2 f3 nR3
                else pos_count_I4_I4 (f_X a) nR1 (f_X b) nR2 f3 nR3
    | I4, I8 => if is_bitvec : bool then pos_count_bitvec_I4_I8 (f_X a) nR1 (f_X b) nR2 f3 nR3
                else pos_count_I4_I8 (f_X a) nR1 (f_X b) nR2 f3 nR3
    | I8, I4 => if is_bitvec : bool then pos_count_I8_I4 (f_X a) nR1 (f_X b) nR2 f3 nR3
                else pos_count_I8_I4 (f_X a) nR1 (f_X b) nR2 f3 nR3
    | I8, I8 => if is_bitvec : bool then pos_count_I8_I8 (f_X a) nR1 (f_X b) nR2 f3 nR3
                else pos_count_I8_I8 (f_X a) nR1 (f_X b) nR2 f3 nR3
    | _, _ => Err
    end;
  Ok f3.

(** *** Minimum, maximum and sum by position *)

(** A pointer moved by [lb] cells from NULL can be tested, but not read. *)
Definition moved (nn : option (list Z)) (lb : Z) : res (option (list Z)) :=
  match nn with
  | None => if lb =? 0 then Ok None else Ub
  | Some l => Ok (Some (drop (Z.to_nat lb) l))
  end.

(** The entries of a block in the arrays [i4minval], [i4maxval], [i8minval],
    [i8maxval] and [sum]. *)
Record mmad_part := { p_i4 : Z * Z; p_i8 : Z * Z; p_sum : Z }.
Definition part0 : mmad_part := {| p_i4 := (INT_MAX, INT_MIN); p_i8 := (LLONG_MAX, LLONG_MIN); p_sum := 0 |}.

Definition mmad_block (a b : operand) (nR1 nR2 lb nX : Z) : res (bool * mmad_part) :=
  let with_nulls := negb (bool_decide (f_nn a = None)) || negb (bool_decide (f_nn b = None)) in
  let i4 (r : bool * mms) := let '(ok, (mn, mx, sum)) := r in (ok, {| p_i4 := (mn, mx); p_i8 := p_i8 part0; p_sum := sum |}) in
  let s0 := (INT_MAX, INT_MIN, 0) in
  match f_type a, f_type b with
  | I4, I4 =>
      if with_nulls then
        nnf2 ← moved (f_nn b) lb;
        '(ok, s, _) ← pos_mmad_I4_I4_nn (f_X a) (f_nn a) nR1 (drop (Z.to_nat lb) (f_X b)) nnf2 0 nR2 s0 0; Ok (i4 (ok, s))
      else r ← pos_mmad_I4_I4 (f_X a) nR1 (f_X b) lb nX s0; Ok (i4 r)
  | I4, I8 =>
      if with_nulls then
        nnf2 ← moved (f_nn b) lb;
        '(ok, s, _) ← pos_mmad_I4_I8_nn (f_X a) (f_nn a) nR1 (drop (Z.to_nat lb) (f_X b)) nnf2 0 nX s0 0; Ok (i4 (ok, s))
      else r ← pos_mmad_I4_I8 (f_X a) nR1 (f_X b) lb nX s0; Ok (i4 r)
  | I8, (I4 | I8) => (* the kernel gets a null pointer for the positions *) Ub
  | _, _ => Err
  end.

(** The blocks, with the status of the last one. *)
Fixpoint mmad_blocks (n : nat) (tid : Z) (a b : operand) (nR1 nR2 block_size nT : Z) (ok : bool) : res (bool * list mmad_part) :=
  match n with
  | O => Ok (ok, [])
  | Datatypes.S n =>
      let '(lb, ub) := chunk 0 nR2 block_size nT tid in
      '(ok, p) ← mmad_block a b nR1 nR2 lb (ub - lb);
      '(ok, ps) ← mmad_blocks n (tid + 1) a b nR1 nR2 block_size nT ok;
      Ok (ok, p :: ps)
  end.

(** [if ( i4maxval[tid] < final_i4maxval ) { final_i4maxval = i4maxval[tid]; }] *)
Definition combine_mmad (get : mmad_part -> Z * Z) (s : mms) (p : mmad_part) : res mms :=
  let '(final_min, final_max, final_sum) := s in
  let '(minval, maxval) := get p in
  final_sum ← c_add 64 final_sum (p_sum p);
  Ok (if minval <? final_min then minval else final_min, if maxval <? final_max then maxval else final_max, final_sum).
Fixpoint combine_all (get : mmad_part -> Z * Z) (ps : list mmad_part) (s : mms) : res mms :=
  match ps with [] => Ok s | p :: ps => s ← combine_mmad get s p; combine_all get ps s end.

(** What is printed: minimum, maximum and sum.  The arrays of the blocks have
    [num_cores * num_cores] entries. *)
Definition pos_mmad_op (a b : operand) (nR1 nR2 num_cores : Z) : res mms :=
  '(block_size, nT) ← partition nR2 1024 (num_cores * num_cores);
  _ ← (if num_cores * num_cores <? nT then Ub else Ok tt);
  '(ok, ps) ← mmad_blocks (Z.to_nat nT) 0 a b nR1 nR2 block_size nT true;
  s ← match f_type b with
    | I4 => combine_all p_i4 ps (INT_MAX, INT_MIN, 0)
    | I8 => combine_all p_i8 ps (LLONG_MAX, LLONG_MIN, 0)
    | _ => Err
    end;
  if ok : bool then Ok s else Err.

(** ** Selected rows *)

Lemma gather_ok act (g : Z -> option Z) n : forall i f3 cnt,
  (forall k, i <= k < i + Z.of_nat n -> act k = Ok (match g k with Some v => Put v | None => Skip end)) ->
  0 <= cnt -> cnt + Z.of_nat n <= zlen f3 ->
  let vs := omap g (seqZ i (Z.of_nat n)) in
  gather act n i f3 cnt = Ok (true, take (Z.to_nat cnt) f3 ++ vs ++ drop (Z.to_nat (cnt + zlen vs)) f3, cnt + zlen vs).
Proof.
  induction n as [|n IH]; intros i f3 cnt Hact Hc Hl vs.
  { unfold vs. simpl. change (zlen (@nil Z)) with 0. rewrite Z.add_0_r. by rewrite take_drop. }
  cbn [gather]. rewrite Hact by lia. cbn [mbind res_bind].
  assert (vs = match g i with Some v => v :: omap g (seqZ (i + 1) (Z.of_nat n)) | None => omap g (seqZ (i + 1) (Z.of_nat n)) end) as ->.
  { unfold vs. replace (Z.of_nat (Datatypes.S n)) with (Z.succ (Z.of_nat n)) by lia.
    rewrite seqZ_cons by lia. cbn [omap list_omap]. replace (Z.pred (Z.succ (Z.of_nat n))) with (Z.of_nat n) by lia.
    replace (Z.succ i) with (i + 1) by lia. by destruct (g i). }
  destruct (g i) as [v|].
  - rewrite wr_Ok by lia. cbn [mbind res_bind]. rewrite IH; [|intros k Hk; apply Hact; lia|lia|rewrite zlen_zset; lia].
    rewrite zlen_cons. f_equal. f_equal; [|lia]. f_equal.
    replace (Z.to_nat (cnt + 1)) with (Datatypes.S (Z.to_nat cnt)) by lia. unfold zset.
    rewrite (take_S_r _ _ v) by (apply list_lookup_insert_eq; unfold zlen in Hl; lia).
    rewrite take_insert_ge by lia. rewrite drop_insert_lt by (pose proof (zlen_nonneg (omap g (seqZ (i + 1) (Z.of_nat n)))); lia).
    rewrite <- app_assoc. cbn [app]. do 4 f_equal. lia.
  - rewrite IH; [done|intros k Hk; apply Hact; lia|lia|lia].
Qed.

(** A row of a field that is not null. *)
Definition row_defined (nn : option (list Z)) (i : Z) : Prop := match nn with None => True | Some l => l !z i <> Some 0 end.
#[export] Instance row_defined_dec nn i : Decision (row_defined nn i).
Proof. destruct nn; simpl; apply _. Defined.

(** The value of the first field at the position in row [i] of the second. *)
Definition at_pos (a b : operand) (i : Z) : option Z := idx ← f_X b !z i; f_X a !z idx.
Definition pos_row (a b : operand) (i : Z) : option Z :=
  if decide (row_defined (f_nn b) i) then
    idx ← f_X b !z i; if decide (row_defined (f_nn a) idx) then f_X a !z idx else None
  else None.

(** What the verbs assume of the files. *)
Record fits_rows (a : operand) (nR : Z) : Prop := {
  fit_X : zlen (f_X a) = nR;
  fit_nn : forall l, f_nn a = Some l -> zlen l = nR
}.
(** Every position that is not null is a row of the first field. *)
Definition positions_in_range (b : operand) (nR1 nR2 : Z) : Prop :=
  forall i idx, 0 <= i < nR2 -> row_defined (f_nn b) i -> f_X b !z i = Some idx -> 0 <= idx < nR1.

Definition listed (vs : list Z) : output := if decide (vs = []) then None else Some vs.

Lemma is_null_ok a nR i : fits_rows a nR -> 0 <= i < nR -> is_null (f_nn a) i = Ok (negb (bool_decide (row_defined (f_nn a) i))).
Proof.
  intros [_ Hnn] Hi. unfold is_null. destruct (f_nn a) as [l|]; [|done]. specialize (Hnn l eq_refl). simpl.
  destruct (rd_total l i) as [b Hb]; [lia|]. rewrite Hb. cbn [mbind res_bind]. apply rd_Ok in Hb. rewrite Hb. f_equal.
  case_bool_decide as Hd; simpl; [apply Z.eqb_neq; congruence|]. apply Z.eqb_eq. destruct (decide (b = 0)) as [|Hn]; [done|]. exfalso. first [congruence|apply Hd; congruence].
Qed.
Lemma out_of_spec nR i : out_of nR i = negb (bool_decide (0 <= i < nR)).
Proof. unfold out_of. destruct (Z.ltb_spec i 0), (Z.leb_spec nR i); case_bool_decide; simpl; done || lia. Qed.

(** The end of a copy that met no bad position. *)
Lemma finish_listed vs nR2 : 0 < nR2 < LLONG_MAX -> zlen vs <= nR2 ->
  finish_copy true (zlen vs) nR2 (vs ++ drop (Z.to_nat (zlen vs)) (replicate (Z.to_nat nR2) 0)) = Ok (listed vs).
Proof.
  intros Hn Hl. pose proof (zlen_nonneg vs). unfold finish_copy, go_BYE_if.
  rewrite (proj2 (Z.eqb_neq (zlen vs) LLONG_MIN)) by (unfold LLONG_MIN; lia).
  cbn [mbind res_bind]. rewrite to_nat_zlen. unfold listed. destruct (Z.ltb_spec (zlen vs) nR2).
  - destruct (Z.eqb_spec (zlen vs) 0) as [E|].
    + destruct vs; [done|]. rewrite zlen_cons in E. pose proof (zlen_nonneg vs). lia.
    + rewrite decide_False by (by intros ->). by rewrite take_app_length.
  - rewrite drop_ge by (rewrite length_replicate; unfold zlen in *; lia). rewrite app_nil_r, decide_False; [done|].
    intros ->. unfold zlen in *. simpl in *. lia.
Qed.

Lemma gather_all_ok act g nR2 cnt :
  0 <= nR2 -> (forall k, 0 <= k < nR2 -> act k = Ok (match g k with Some v => Put v | None => Skip end)) ->
  let vs := omap g (seqZ 0 nR2) in
  gather_all act nR2 (replicate (Z.to_nat nR2) 0) cnt
  = Ok (true, vs ++ drop (Z.to_nat (zlen vs)) (replicate (Z.to_nat nR2) 0), zlen vs) /\ zlen vs <= nR2.
Proof.
  intros Hn Hact vs. unfold gather_all. rewrite (gather_ok act g);
    [|intros k Hk; apply Hact; lia|lia|unfold zlen; rewrite length_replicate; lia].
  rewrite Z2Nat.id by done. cbn [mbind res_bind]. rewrite take_0. split; [done|].
  assert (forall l : list Z, zlen (omap g l) <= zlen l) as Hlen.
  { induction l as [|x l IH]; [done|]. cbn [omap list_omap]. destruct (g x); unfold zlen in *; simpl in *; lia. }
  etransitivity; [apply Hlen|]. unfold zlen. rewrite length_seqZ. lia.
Qed.

(** Claim C26. [pos_copy], when not both fields have nulls and every position is
    a row of the first field: the new field has the values at the positions,
    row by row, without those where the position or the value is null; without
    any value there is no new field. *)
Theorem pos_copy_op_correct a b nR1 nR2 sz :
  (f_type a = I1 \/ f_type a = I4 \/ f_type a = I8) -> (f_type b = I4 \/ f_type b = I8) ->
  (f_nn a = None \/ f_nn b = None) -> get_fld_sz (f_type a) = Ok sz -> 0 < nR2 < 2 ^ 29 ->
  fits_rows a nR1 -> fits_rows b nR2 -> positions_in_range b nR1 nR2 ->
  pos_copy_op a b nR1 nR2 = Ok (listed (omap (pos_row a b) (seqZ 0 nR2))).
Proof.
  intros Ha Hb Hnn Hsz Hn Fa Fb Hin. unfold pos_copy_op, new_cells. rewrite Hsz. cbn [mbind res_bind].
  assert (1 <= sz <= 8) as Hs by (destruct Ha as [E|[E|E]]; rewrite E in Hsz; injection Hsz as <-; lia).
  rewrite mk_size_ok by (split; [nia|apply (Z.le_lt_trans _ (nR2 * 8)); [nia|lia]]). cbn [mbind res_bind].
  unfold is_null_vals. rewrite bool_decide_eq_true_2 by done. cbn [negb].
  assert (pos_nn_copy (f_X a) (f_nn a) nR1 (f_X b) (f_nn b) nR2 (replicate (Z.to_nat nR2) 0) 0
    = Ok (true, omap (pos_row a b) (seqZ 0 nR2) ++ drop (Z.to_nat (zlen (omap (pos_row a b) (seqZ 0 nR2)))) (replicate (Z.to_nat nR2) 0),
          zlen (omap (pos_row a b) (seqZ 0 nR2))) /\ zlen (omap (pos_row a b) (seqZ 0 nR2)) <= nR2) as [E Hl].
  { apply gather_all_ok; [lia|]. intros k Hk. rewrite (is_null_ok b nR2) by done. cbn [mbind res_bind]. unfold pos_row.
    destruct (bool_decide_reflect (row_defined (f_nn b) k)) as [Hd|Hd]; cbn [negb]; [rewrite decide_True by done|by rewrite decide_False].
    destruct (zlookup_is_Some (f_X b) k) as [idx Hidx]; [rewrite (fit_X _ _ Fb); lia|]. rewrite (proj2 (rd_Ok _ _ _) Hidx), Hidx.
    cbn [mbind res_bind option_bind]. specialize (Hin k idx Hk Hd Hidx). rewrite out_of_spec, bool_decide_eq_true_2 by done. cbn [negb].
    rewrite (is_null_ok a nR1) by done. cbn [mbind res_bind].
    destruct (bool_decide_reflect (row_defined (f_nn a) idx)); cbn [negb]; [rewrite decide_True by done|by rewrite decide_False].
    destruct (zlookup_is_Some (f_X a) idx) as [v Hv]; [rewrite (fit_X _ _ Fa); lia|]. by rewrite (proj2 (rd_Ok _ _ _) Hv), Hv. }
  assert (match f_type a, f_type b with
    | I4, I4 | I4, I8 | I8, I4 | I8, I8 | I1, I4 | I1, I8 => True | _, _ => False end) as Ht.
  { destruct Ha as [->|[->| ->]], Hb as [->| ->]; done. }
  destruct (f_type a), (f_type b); try done; unfold pos_nn_copy_I4_I4, pos_nn_copy_I4_I8, pos_nn_copy_I8_I4, pos_nn_copy_I8_I8,
    pos_nn_copy_I1_I4, pos_nn_copy_I1_I8; rewrite E; cbn [mbind res_bind]; apply finish_listed; unfold LLONG_MAX; lia.
Qed.

Lemma pos_copy_op_correct_witness :
  pos_copy_op {| f_type := I4; f_sort := unsorted; f_X := [10; 20; 30]; f_nn := Some [1; 0; 1] |}
    {| f_type := I8; f_sort := unsorted; f_X := [2; 1; 0; 2]; f_nn := None |} 3 4 = Ok (Some [30; 10; 30]).
Proof.
  apply (pos_copy_op_correct {| f_type := I4; f_sort := unsorted; f_X := [10; 20; 30]; f_nn := Some [1; 0; 1] |}
    {| f_type := I8; f_sort := unsorted; f_X := [2; 1; 0; 2]; f_nn := None |} 3 4 4); simpl; auto; try lia.
  - split; [reflexivity|]. by intros l [= <-].
  - split; [reflexivity|]. done.
  - intros i idx Hi _ H. apply (Forall_zlookup (fun z => 0 <= z < 3) _ i _) in H; [done|]. repeat constructor; lia.
Defined.

(** *** Nulls on both sides *)

(** [pos_copy_loop] up to a bad position, or the end. *)
Lemma pos_copy_loop_ok f1 nR1 f2 nR2 n : forall i f3 m,
  zlen f1 = nR1 -> zlen f2 = nR2 -> 0 <= i -> i + Z.of_nat n = nR2 -> zlen f3 = nR2 -> i <= m <= nR2 ->
  (forall k idx, i <= k < m -> f2 !z k = Some idx -> 0 <= idx < nR1) ->
  (forall idx, m < nR2 -> f2 !z m = Some idx -> ~ 0 <= idx < nR1) ->
  exists ok, pos_copy_loop n f1 nR1 f2 i f3
    = Ok (ok, take (Z.to_nat i) f3 ++ omap (fun k => idx ← f2 !z k; f1 !z idx) (seqZ i (m - i)) ++ drop (Z.to_nat m) f3).
Proof.
  induction n as [|n IH]; intros i f3 m L1 L2 Hi Hn L3 Hm Hin Hbad; cbn [pos_copy_loop].
  { exists true. replace m with i by lia. rewrite Z.sub_diag. simpl. by rewrite take_drop. }
  destruct (zlookup_is_Some f2 i) as [idx Hidx]; [lia|]. rewrite (proj2 (rd_Ok _ _ _) Hidx). cbn [mbind res_bind].
  rewrite out_of_spec. destruct (decide (i = m)) as [->|Hne].
  - rewrite bool_decide_eq_false_2 by (apply Hbad; [lia|done]). cbn [negb]. exists false. rewrite Z.sub_diag. simpl. by rewrite take_drop.
  - assert (0 <= idx < nR1) as Hr by (apply (Hin i); [lia|done]). rewrite bool_decide_eq_true_2 by done. cbn [negb].
    destruct (zlookup_is_Some f1 idx) as [v Hv]; [lia|]. rewrite (proj2 (rd_Ok _ _ _) Hv). cbn [mbind res_bind].
    rewrite wr_Ok by lia. cbn [mbind res_bind].
    destruct (IH (i + 1) (zset f3 i v) m) as (ok & ->); try done; try lia; [by rewrite zlen_zset|intros k x Hk; apply Hin; lia|].
    exists ok. do 2 f_equal. rewrite (seqZ_cons i (m - i)) by lia. cbn [omap list_omap]. rewrite Hidx. cbn [mbind option_bind]. rewrite Hv.
    replace (Z.to_nat (i + 1)) with (Datatypes.S (Z.to_nat i)) by lia. unfold zset.
    rewrite (take_S_r _ _ v) by (apply list_lookup_insert_eq; unfold zlen in L3; lia).
    rewrite take_insert_ge by lia. rewrite drop_insert_lt by lia. rewrite <- app_assoc. cbn [app].
    replace (Z.succ i) with (i + 1) by lia. by replace (Z.pred (m - i)) with (m - (i + 1)) by lia.
Qed.

(** Claim C34. [pos_copy] when both fields have nulls takes the branch for fields
    without: null rows are copied as if they had values, and a position that is
    no row of the first field ends the copy but not the verb, which returns 0
    with a field whose remaining cells are zero. *)
Theorem pos_copy_op_nulls a b nR1 nR2 m sz :
  (f_type a = I4 \/ f_type a = I8) -> (f_type b = I4 \/ f_type b = I8) -> is_Some (f_nn a) -> is_Some (f_nn b) ->
  get_fld_sz (f_type a) = Ok sz -> 0 < nR2 < 2 ^ 29 -> fits_rows a nR1 -> fits_rows b nR2 -> 0 <= m <= nR2 ->
  (forall k idx, 0 <= k < m -> f_X b !z k = Some idx -> 0 <= idx < nR1) ->
  (forall idx, m < nR2 -> f_X b !z m = Some idx -> ~ 0 <= idx < nR1) ->
  pos_copy_op a b nR1 nR2 = Ok (Some (omap (at_pos a b) (seqZ 0 m) ++ replicate (Z.to_nat (nR2 - m)) 0)).
Proof.
  intros Ha Hb [l1 N1] [l2 N2] Hsz Hn Fa Fb Hm Hin Hbad. unfold pos_copy_op, new_cells. rewrite Hsz. cbn [mbind res_bind].
  assert (1 <= sz <= 8) as Hs by (destruct Ha as [E|E]; rewrite E in Hsz; injection Hsz as <-; lia).
  rewrite mk_size_ok by (split; [nia|apply (Z.le_lt_trans _ (nR2 * 8)); [nia|lia]]). cbn [mbind res_bind].
  unfold is_null_vals. rewrite bool_decide_eq_false_2 by (rewrite N1, N2; intros [H|H]; done). cbn [negb].
  destruct (pos_copy_loop_ok (f_X a) nR1 (f_X b) nR2 (Z.to_nat nR2) 0 (replicate (Z.to_nat nR2) 0) m) as (ok & E); try lia.
  { apply Fa. } { apply Fb. } { unfold zlen. rewrite length_replicate. lia. } { apply Hin. } { apply Hbad. }
  rewrite take_0, Z.sub_0_r, drop_replicate in E. replace (Z.to_nat nR2 - Z.to_nat m)%nat with (Z.to_nat (nR2 - m)) in E by lia.
  assert (forall ok f3, finish_copy ok nR2 nR2 f3 = Ok (Some f3)) as Hfin.
  { intros ok' f3. unfold finish_copy, go_BYE_if. rewrite (proj2 (Z.eqb_neq nR2 LLONG_MIN)) by (unfold LLONG_MIN; lia).
    cbn [mbind res_bind]. by rewrite Z.ltb_irrefl. }
  destruct Ha as [->| ->], Hb as [->| ->]; unfold pos_copy_I4_I4, pos_copy_I4_I8, pos_copy_I8_I4, pos_copy_I8_I8, pos_copy;
    rewrite E; cbn [mbind res_bind]; apply Hfin.
Qed.

Lemma pos_copy_op_nulls_witness :
  pos_copy_op {| f_type := I4; f_sort := unsorted; f_X := [10; 20; 30]; f_nn := Some [1; 0; 1] |}
    {| f_type := I4; f_sort := unsorted; f_X := [1; 2; 9; 0]; f_nn := Some [1; 0; 1; 1] |} 3 4 = Ok (Some [20; 30; 0; 0]).
Proof.
  apply (pos_copy_op_nulls {| f_type := I4; f_sort := unsorted; f_X := [10; 20; 30]; f_nn := Some [1; 0; 1] |}
    {| f_type := I4; f_sort := unsorted; f_X := [1; 2; 9; 0]; f_nn := Some [1; 0; 1; 1] |} 3 4 2 4); simpl; auto; try lia.
  - split; [reflexivity|]. by intros l [= <-].
  - split; [reflexivity|]. by intros l [= <-].
  - intros k idx Hk H. assert (k = 0 \/ k = 1) as [->| ->] by lia; injection H as <-; lia.
  - intros idx _ H. injection H as <-. lia.
Defined.

(** *** Between two bounds *)

(** [pos_sel_copy] without [sel_fld]: the values at the positions that
    lie between the bounds, in the order of the rows. *)
Theorem pos_sel_copy_op_correct a b nR1 nR2 options s sel_fld sz :
  (f_type a = I4 /\ INT_MIN <= lbI8 s /\ ubI8 s <= INT_MAX /\ lbI8 s <= ubI8 s \/ f_type a = I8) ->
  (f_type b = I4 \/ f_type b = I8) ->
  options <> ""%string -> extract_S (Some options) "sel_fld=[" "]" MAX_LEN_FLD_NAME = Ok None ->
  read_bounds options (f_type a) = Ok s -> get_fld_sz (f_type a) = Ok sz -> 0 < nR2 < 2 ^ 29 ->
  zlen (f_X a) = nR1 -> zlen (f_X b) = nR2 -> (forall i idx, f_X b !z i = Some idx -> 0 <= idx < nR1) ->
  pos_sel_copy_op a b nR1 nR2 (Some options) sel_fld
  = Ok (listed (filter (fun v => lbI8 s <= v <= ubI8 s) (omap (at_pos a b) (seqZ 0 nR2)))).
Proof.
  intros Ha Hb Ho Hsel Hs Hsz Hn La Lb Hin. unfold pos_sel_copy_op, new_cells. rewrite Hsz. cbn [mbind res_bind].
  assert (1 <= sz <= 8) as Hsb by (destruct Ha as [[E _]|E]; rewrite E in Hsz; injection Hsz as <-; lia).
  rewrite mk_size_ok by (split; [nia|apply (Z.le_lt_trans _ (nR2 * 8)); [nia|lia]]). cbn [mbind res_bind].
  destruct options as [|c options]; [done|]. rewrite Hsel, Hs. cbn [mbind res_bind].
  set (g := fun k => v ← at_pos a b k; if decide (lbI8 s <= v <= ubI8 s) then Some v else None).
  assert (filter (fun v => lbI8 s <= v <= ubI8 s) (omap (at_pos a b) (seqZ 0 nR2)) = omap g (seqZ 0 nR2)) as ->.
  { unfold g. induction (seqZ 0 nR2) as [|k l IH]; [done|]. cbn [omap list_omap]. destruct (at_pos a b k) as [v|]; cbn [mbind option_bind]; [|done].
    rewrite filter_cons. case_decide; by rewrite IH. }
  assert (forall cnt, pos_sel_copy (f_X a) nR1 (f_X b) nR2 (lbI8 s) (ubI8 s) (replicate (Z.to_nat nR2) 0) cnt
    = Ok (true, omap g (seqZ 0 nR2) ++ drop (Z.to_nat (zlen (omap g (seqZ 0 nR2)))) (replicate (Z.to_nat nR2) 0),
          zlen (omap g (seqZ 0 nR2))) /\ zlen (omap g (seqZ 0 nR2)) <= nR2) as E.
  { intros cnt. apply gather_all_ok; [lia|]. intros k Hk. unfold g, at_pos.
    destruct (zlookup_is_Some (f_X b) k) as [idx Hidx]; [lia|]. rewrite (proj2 (rd_Ok _ _ _) Hidx), Hidx.
    cbn [mbind res_bind option_bind]. specialize (Hin k idx Hidx). rewrite out_of_spec, bool_decide_eq_true_2 by done. cbn [negb].
    destruct (zlookup_is_Some (f_X a) idx) as [v Hv]; [lia|]. rewrite (proj2 (rd_Ok _ _ _) Hv), Hv. cbn [mbind res_bind option_bind].
    f_equal. destruct (Z.leb_spec (lbI8 s) v), (Z.leb_spec v (ubI8 s)); case_decide; simpl; done || lia. }
  destruct (E LLONG_MIN) as [Er Hl]. unfold sel_copy, go_BYE_if. destruct Ha as [(Ea & B1 & B2 & B3)|Ea]; rewrite Ea.
  - rewrite !(proj2 (Z.ltb_ge _ _)) by done. cbn [mbind res_bind].
    rewrite !wrapS_small by (unfold inS, INT_MIN, INT_MAX in *; lia).
    destruct Hb as [->| ->]; unfold pos_sel_copy_I4_I4, pos_sel_copy_I4_I8; rewrite Er; apply finish_listed; unfold LLONG_MAX; lia.
  - destruct Hb as [->| ->]; unfold pos_sel_copy_I8_I4, pos_sel_copy_I8_I8; rewrite Er; apply finish_listed; unfold LLONG_MAX; lia.
Qed.

Lemma pos_sel_copy_op_correct_witness :
  pos_sel_copy_op {| f_type := I4; f_sort := unsorted; f_X := [10; 20; 30]; f_nn := None |}
    {| f_type := I4; f_sort := unsorted; f_X := [2; 1; 0; 2]; f_nn := None |} 3 4 (Some "lb=[15]:ub=[40]"%string) (fun _ => Err)
  = Ok (Some [30; 20; 30]).
Proof.
  eapply (pos_sel_copy_op_correct {| f_type := I4; f_sort := unsorted; f_X := [10; 20; 30]; f_nn := None |}
    {| f_type := I4; f_sort := unsorted; f_X := [2; 1; 0; 2]; f_nn := None |} 3 4 "lb=[15]:ub=[40]"
    {| lbI8 := 15; ubI8 := 40; lbI4 := 15; ubI4 := 40; is_lb_null := false; is_ub_null := false |} (fun _ => Err) 4);
    simpl; auto; try lia; try reflexivity; try done.
  - left. split; [done|]. unfold INT_MIN, INT_MAX. lia.
  - intros i idx H. apply (Forall_zlookup (fun z => 0 <= z < 3) _ i _) in H; [done|]. repeat constructor; lia.
Defined.

(** With one bound only, [pos_sel_copy] on an I4 field fails: the
    bound that is missing is still that of [long long] when it is tested. *)
Theorem pos_sel_copy_op_one_bound a b nR1 nR2 options sel_fld ok :
  f_type a = I4 -> options <> ""%string -> extract_S (Some options) "sel_fld=[" "]" MAX_LEN_FLD_NAME = Ok None ->
  extract_I8 (Some options) "lb=[" "]" LLONG_MIN = (ok, LLONG_MIN, true) \/
  extract_I8 (Some options) "ub=[" "]" LLONG_MAX = (ok, LLONG_MAX, true) ->
  pos_sel_copy_op a b nR1 nR2 (Some options) sel_fld = Err.
Proof.
  intros Ha Ho Hsel Hnull. unfold pos_sel_copy_op, new_cells. rewrite Ha. cbn [mbind res_bind get_fld_sz]. unfold mk_size, go_BYE_if.
  destruct (nR2 * 4 <=? 0); [done|]. cbn [mbind res_bind]. destruct (wrapS 32 (nR2 * 4 - 1) =? -1); [done|]. cbn [mbind res_bind].
  destruct options as [|c options]; [done|]. rewrite Hsel. unfold read_bounds, go_BYE_if.
  destruct (extract_I8 _ "lb=[" _ _) as [[ok1 lb8] lb_null]. destruct (extract_I8 _ "ub=[" _ _) as [[ok2 ub8] ub_null].
  destruct (lb_null && ub_null); [done|]. cbn [mbind res_bind].
  destruct (negb lb_null && negb ub_null && (ub8 <? lb8)); [done|]. cbn [mbind res_bind].
  destruct (extract_I4 _ "lb=[" _ _) as [[? ?] ?]. destruct (extract_I4 _ "ub=[" _ _) as [[? ?] ?]. cbn [mbind res_bind].
  unfold sel_copy, go_BYE_if. rewrite Ha. cbn [lbI8 ubI8].
  destruct Hnull as [[= _ -> _]|[= _ -> _]]; [done|]. by destruct (lb8 <? INT_MIN).
Qed.

Lemma pos_sel_copy_op_one_bound_witness :
  pos_sel_copy_op {| f_type := I4; f_sort := unsorted; f_X := [10; 20; 30]; f_nn := None |}
    {| f_type := I4; f_sort := unsorted; f_X := [2; 1]; f_nn := None |} 3 2 (Some "lb=[15]"%string) (fun _ => Err) = Err.
Proof. apply (pos_sel_copy_op_one_bound _ _ 3 2 "lb=[15]" (fun _ => Err) true); try reflexivity; [done|]. right. reflexivity. Defined.

(** *** Counting *)

Lemma count_one_ok f3 v : 0 <= v < zlen f3 -> (forall c, f3 !z v = Some c -> inS 32 (c + 1)) ->
  exists f3', count_one f3 v = Ok f3' /\ zlen f3' = zlen f3 /\
    forall u, f3' !z u = (fun c => c + (if decide (v = u) then 1 else 0)) <$> f3 !z u.
Proof.
  intros Hv Hc. destruct (zlookup_is_Some f3 v Hv) as [c E]. unfold count_one. rewrite (proj2 (rd_Ok _ _ _) E). cbn [mbind res_bind].
  rewrite c_add_ok by auto. cbn [mbind res_bind]. rewrite wr_Ok by done. eexists. split; [done|]. split; [apply zlen_zset|].
  intros u. destruct (decide (v = u)) as [<-|Hne].
  - by rewrite zlookup_zset_eq, E by done.
  - rewrite zlookup_zset_ne by lia. destruct (f3 !z u); simpl; [|done]. f_equal. lia.
Qed.

Lemma pos_count_loop_ok a b nR1 nR2 nR3 n : forall i f3,
  zlen (f_X a) = nR1 -> zlen (f_X b) = nR2 -> (forall k idx, f_X b !z k = Some idx -> 0 <= idx < nR1) ->
  (forall k v, at_pos a b k = Some v -> 0 <= v < nR3) -> nR2 < 2 ^ 31 -> 0 <= i -> i + Z.of_nat n = nR2 -> zlen f3 = nR3 ->
  (forall v c, f3 !z v = Some c -> 0 <= c <= i) ->
  exists f3', pos_count_loop n (f_X a) nR1 (f_X b) i f3 nR3 = Ok (true, f3') /\ zlen f3' = nR3 /\
    forall v, f3' !z v = (fun c => c + occ v (omap (at_pos a b) (seqZ i (Z.of_nat n)))) <$> f3 !z v.
Proof.
  induction n as [|n IH]; intros i f3 La Lb Hin Hv Hbig Hi Hn L3 Hc; cbn [pos_count_loop].
  { exists f3. split; [done|]. split; [done|]. intros v. simpl. change (occ v []) with 0. destruct (f3 !z v); simpl; [|done]. f_equal. lia. }
  destruct (zlookup_is_Some (f_X b) i) as [idx Hidx]; [lia|]. rewrite (proj2 (rd_Ok _ _ _) Hidx). cbn [mbind res_bind].
  specialize (Hin i idx Hidx) as Hr. rewrite out_of_spec, bool_decide_eq_true_2 by done. cbn [negb].
  destruct (zlookup_is_Some (f_X a) idx) as [x Hx]; [lia|]. rewrite (proj2 (rd_Ok _ _ _) Hx). cbn [mbind res_bind].
  assert (at_pos a b i = Some x) as Hat by (unfold at_pos; by rewrite Hidx).
  specialize (Hv i x Hat) as Hx3. rewrite out_of_spec, bool_decide_eq_true_2 by done. cbn [negb].
  destruct (count_one_ok f3 x) as (f3' & -> & L3' & H3'); [lia| |].
  { intros c Ec. specialize (Hc x c Ec). unfold inS. lia. }
  cbn [mbind res_bind]. destruct (IH (i + 1) f3') as (r & Er & Lr & Hr'); try done; try lia.
  { intros v c. rewrite H3'. destruct (f3 !z v) as [c0|] eqn:E0; simpl; [|done]. intros [= <-]. specialize (Hc v c0 E0). case_decide; lia. }
  exists r. split; [exact Er|]. split; [done|]. intros v. rewrite Hr', H3'. destruct (f3 !z v) as [c0|]; simpl; [|done]. f_equal.
  rewrite (seqZ_cons i) by lia. cbn [omap list_omap]. rewrite Hat, occ_cons.
  replace (Z.succ i) with (i + 1) by lia. replace (Z.pred (Z.of_nat (Datatypes.S n))) with (Z.of_nat n) by lia.
  repeat case_decide; simplify_eq; lia.
Qed.

(** [pos_count]: cell [v] of the new field is the number of rows of the
    second field whose position holds [v] in the first. *)
Theorem pos_count_op_correct a b nR1 nR2 nR3 :
  (f_type a = I4 \/ f_type a = I8) -> (f_type b = I4 \/ f_type b = I8) -> f_nn a = None -> f_nn b = None ->
  0 <= nR2 < 2 ^ 31 -> 0 < nR3 < 2 ^ 29 -> zlen (f_X a) = nR1 -> zlen (f_X b) = nR2 ->
  (forall k idx, f_X b !z k = Some idx -> 0 <= idx < nR1) -> (forall k v, at_pos a b k = Some v -> 0 <= v < nR3) ->
  exists R, pos_count_op a b nR1 nR2 nR3 None = Ok R /\ zlen R = nR3 /\
    forall v, 0 <= v < nR3 -> R !z v = Some (occ v (omap (at_pos a b) (seqZ 0 nR2))).
Proof.
  intros Ha Hb Na Nb Hn2 Hn3 La Lb Hin Hv. unfold pos_count_op. rewrite Na, Nb. cbn [mbind res_bind]. types_tac. cbn [go_BYE_if mbind res_bind].
  rewrite mk_size_ok by lia. cbn [mbind res_bind].
  destruct (pos_count_loop_ok a b nR1 nR2 nR3 (Z.to_nat nR2) 0 (replicate (Z.to_nat nR3) 0)) as (R & E & L & H); try done; try lia.
  { unfold zlen. rewrite length_replicate. lia. }
  { intros v c. intros Hz. pose proof (zlookup_Some_range _ _ _ Hz). rewrite zlookup_to_nat in Hz by lia.
    apply lookup_replicate in Hz as [-> _]. lia. }
  exists R. split; [|split; [done|]].
  - destruct Ha as [->| ->], Hb as [->| ->]; unfold pos_count_I4_I4, pos_count_I4_I8, pos_count_I8_I4, pos_count_I8_I8, pos_count;
      by rewrite E.
  - intros v Hvr. rewrite H, zlookup_to_nat, lookup_replicate_2 by lia. simpl. by rewrite Z2Nat.id by lia.
Qed.

Lemma pos_count_op_correct_witness :
  exists R, pos_count_op {| f_type := I4; f_sort := unsorted; f_X := [1; 0; 1]; f_nn := None |}
      {| f_type := I8; f_sort := unsorted; f_X := [2; 1; 0; 2]; f_nn := None |} 3 4 2 None = Ok R /\ zlen R = 2 /\
    forall v, 0 <= v < 2 -> R !z v = Some (occ v (omap (at_pos {| f_type := I4; f_sort := unsorted; f_X := [1; 0; 1]; f_nn := None |}
      {| f_type := I8; f_sort := unsorted; f_X := [2; 1; 0; 2]; f_nn := None |}) (seqZ 0 4))).
Proof.
  apply (pos_count_op_correct {| f_type := I4; f_sort := unsorted; f_X := [1; 0; 1]; f_nn := None |}
    {| f_type := I8; f_sort := unsorted; f_X := [2; 1; 0; 2]; f_nn := None |} 3 4 2); simpl; auto; try lia; try reflexivity.
  - intros i idx H. apply (Forall_zlookup (fun z => 0 <= z < 3) _ i _) in H; [done|]. repeat constructor; lia.
  - intros k v H. unfold at_pos in H. simpl in H. destruct ([2; 1; 0; 2] !z k) as [x|]; [|done]. simpl in H.
    apply (Forall_zlookup (fun z => 0 <= z < 2) _ x _) in H; [done|]. repeat constructor; lia.
Defined.

(** *** Sorted fields as multisets

    The two merges, on lists. *)
Fixpoint inter (a : list Z) : list Z -> list Z :=
  match a with
  | [] => fun _ => []
  | x :: a =>
      fix inter_a (b : list Z) : list Z :=
        match b with
        | [] => []
        | y :: b => if x =? y then x :: inter a b else if x <? y then inter a (y :: b) else inter_a b
        end
  end.
Fixpoint minus (a : list Z) : list Z -> list Z :=
  match a with
  | [] => fun _ => []
  | x :: a =>
      fix minus_a (b : list Z) : list Z :=
        match b with
        | [] => x :: a
        | y :: b => if x <? y then x :: minus a (y :: b) else if x =? y then minus a b else minus_a b
        end
  end.

Lemma inter_nil_r a : inter a [] = [].
Proof. by destruct a. Qed.
Lemma inter_cons x a y b :
  inter (x :: a) (y :: b) = if x =? y then x :: inter a b else if x <? y then inter a (y :: b) else inter (x :: a) b.
Proof. done. Qed.
Lemma minus_nil_r a : minus a [] = a.
Proof. by destruct a. Qed.
Lemma minus_cons x a y b :
  minus (x :: a) (y :: b) = if x <? y then x :: minus a (y :: b) else if x =? y then minus a b else minus (x :: a) b.
Proof. done. Qed.

Lemma occ_below x l : (forall y, y ∈ l -> x < y) -> occ x l = 0.
Proof.
  intros H. unfold occ. rewrite (filter_none (fun z => z = x) l); [done|]. intros i y Hy%list_elem_of_lookup_2 ->. specialize (H x Hy). lia.
Qed.
Lemma ascending_inv x l : StronglySorted Z.le (x :: l) -> StronglySorted Z.le l /\ forall y, y ∈ l -> x <= y.
Proof. intros H. apply StronglySorted_inv in H as [H1 H2]. split; [done|]. by apply Forall_forall. Qed.

Lemma inter_occ a : forall b v, StronglySorted Z.le a -> StronglySorted Z.le b ->
  occ v (inter a b) = Z.min (occ v a) (occ v b).
Proof.
  induction a as [|x a IHa]; intros b v Ha; [intros _; pose proof (occ_bounds v b); change (occ v (inter [] b)) with 0; change (occ v []) with 0; lia|].
  destruct (ascending_inv x a Ha) as [Ha' Hxa]. pose proof (occ_bounds v (x :: a)) as Hxav.
  induction b as [|y b IHb]; intros Hb; [change (occ v (inter (x :: a) [])) with 0; change (occ v []) with 0; lia|].
  destruct (ascending_inv y b Hb) as [Hb' Hyb]. rewrite inter_cons.
  destruct (Z.eqb_spec x y) as [<-|Hne].
  - rewrite !occ_cons, IHa by done. lia.
  - pose proof (occ_bounds v (y :: b)). destruct (Z.ltb_spec x y).
    + rewrite IHa, (occ_cons v x a) by done. case_decide as Hd; [subst v|lia].
      rewrite (occ_below x (y :: b)); [pose proof (occ_bounds x a); lia|].
      intros z Hz. apply elem_of_cons in Hz as [->|Hz]; [lia|]. specialize (Hyb z Hz). lia.
    + rewrite IHb, (occ_cons v y b) by done. case_decide as Hd; [subst v|lia].
      rewrite (occ_below y (x :: a)); [pose proof (occ_bounds y b); lia|].
      intros z Hz. apply elem_of_cons in Hz as [->|Hz]; [lia|]. specialize (Hxa z Hz). lia.
Qed.

Lemma minus_occ a : forall b v, StronglySorted Z.le a -> StronglySorted Z.le b ->
  occ v (minus a b) = Z.max 0 (occ v a - occ v b).
Proof.
  induction a as [|x a IHa]; intros b v Ha; [intros _; pose proof (occ_bounds v b); change (occ v (minus [] b)) with 0; change (occ v []) with 0; lia|].
  destruct (ascending_inv x a Ha) as [Ha' Hxa]. pose proof (occ_bounds v (x :: a)) as Hxav.
  induction b as [|y b IHb]; intros Hb; [change (minus (x :: a) []) with (x :: a); change (occ v []) with 0; lia|].
  destruct (ascending_inv y b Hb) as [Hb' Hyb]. rewrite minus_cons.
  pose proof (occ_bounds v (y :: b)). destruct (Z.ltb_spec x y).
  - rewrite !(occ_cons v x), IHa by done. case_decide as Hd; [subst v|lia].
    rewrite (occ_below x (y :: b)); [pose proof (occ_bounds x a); lia|].
    intros z Hz. apply elem_of_cons in Hz as [->|Hz]; [lia|]. specialize (Hyb z Hz). lia.
  - destruct (Z.eqb_spec x y) as [<-|Hne].
    + rewrite !occ_cons, IHa by done. lia.
    + rewrite IHb, (occ_cons v y b) by done. case_decide as Hd; [subst v|lia].
      rewrite (occ_below y (x :: a)); [pose proof (occ_bounds y b); lia|].
      intros z Hz. apply elem_of_cons in Hz as [->|Hz]; [lia|]. specialize (Hxa z Hz). lia.
Qed.

(** Both are sublists of the first list. *)
Lemma inter_sub a : forall b, sublist (inter a b) a.
Proof.
  induction a as [|x a IHa]; [constructor|]. induction b as [|y b IHb]; [apply sublist_nil_l|]. rewrite inter_cons.
  destruct (x =? y); [by apply sublist_skip|]. destruct (x <? y); [by apply sublist_cons|exact IHb].
Qed.
Lemma minus_sub a : forall b, sublist (minus a b) a.
Proof.
  induction a as [|x a IHa]; [constructor|]. induction b as [|y b IHb]; [done|]. rewrite minus_cons.
  destruct (x <? y); [by apply sublist_skip|]. destruct (x =? y); [by apply sublist_cons|exact IHb].
Qed.
Lemma inter_length a : forall b, zlen (inter a b) <= zlen b.
Proof.
  induction a as [|x a IHa]; intros b; [apply zlen_nonneg|]. induction b as [|y b IHb]; [done|]. rewrite inter_cons.
  destruct (x =? y); [rewrite !zlen_cons; specialize (IHa b); lia|].
  destruct (x <? y); [apply IHa|]. rewrite zlen_cons. etransitivity; [exact IHb|lia].
Qed.
Lemma sublist_ascending (l1 l2 : list Z) : sublist l1 l2 -> StronglySorted Z.le l2 -> StronglySorted Z.le l1.
Proof.
  induction 1 as [|x l1 l2 Hs IH|x l1 l2 Hs IH]; intros H; [constructor|apply StronglySorted_inv in H as [H1 H2]..].
  - constructor; [by apply IH|]. rewrite Forall_forall in *. intros y Hy. apply H2. by eapply elem_of_sublist.
  - by apply IH.
Qed.


(** The merges of the code follow the lists: [out] is what was written, [rest]
    the cells that are left. *)
Lemma drop_next (l : list Z) i : 0 <= i < zlen l ->
  exists x, rd l i = Ok x /\ drop (Z.to_nat i) l = x :: drop (Z.to_nat (i + 1)) l.
Proof.
  intros Hi. destruct (rd_total l i Hi) as [x Hx]. exists x. split; [done|]. apply rd_Ok in Hx.
  rewrite zlookup_to_nat in Hx by lia. replace (Z.to_nat (i + 1)) with (Datatypes.S (Z.to_nat i)) by lia. by apply drop_S.
Qed.
Lemma drop_end (l : list Z) : drop (Z.to_nat (zlen l)) l = [].
Proof. by rewrite to_nat_zlen, drop_all. Qed.
Lemma put_next (out rest : list Z) x : 0 < zlen rest ->
  exists rest', wr (out ++ rest) (zlen out) x = Ok ((out ++ [x]) ++ rest') /\ zlen rest' = zlen rest - 1.
Proof.
  destruct rest as [|r rest]; [done|]. intros _. exists rest. rewrite wr_middle, <- app_assoc, zlen_cons. split; [done|lia].
Qed.

Lemma inter_loop_ok f1 f2 fuel : forall i1 i2 (out rest : list Z),
  0 <= i1 <= zlen f1 -> 0 <= i2 <= zlen f2 -> zlen f1 - i1 + (zlen f2 - i2) < Z.of_nat fuel -> zlen out <= i1 ->
  let vs := inter (drop (Z.to_nat i1) f1) (drop (Z.to_nat i2) f2) in
  zlen vs <= zlen rest ->
  exists rest', inter_loop fuel f1 (zlen f1) f2 (zlen f2) i1 i2 (out ++ rest) (zlen out)
    = Ok (out ++ vs ++ rest', zlen out + zlen vs) /\ zlen rest' = zlen rest - zlen vs.
Proof.
  induction fuel as [|fuel IH]; intros i1 i2 out rest H1 H2 Hf Ho vs Hl; [lia|]. unfold vs in *. clear vs. cbn [inter_loop].
  destruct (Z.eqb_spec i1 (zlen f1)) as [->|].
  { exists rest. rewrite drop_end. change (zlen (inter [] _)) with 0. rewrite Z.add_0_r. split; [done|lia]. }
  destruct (Z.eqb_spec i2 (zlen f2)) as [->|].
  { exists rest. rewrite drop_end, inter_nil_r. change (zlen []) with 0. rewrite Z.add_0_r. split; [done|lia]. }
  destruct (drop_next f1 i1) as (x & Hx & E1); [lia|]. destruct (drop_next f2 i2) as (y & Hy & E2); [lia|].
  rewrite Hx, Hy. cbn [mbind res_bind]. rewrite E1, E2, inter_cons in *. destruct (x =? y).
  - rewrite zlen_cons in *. destruct (put_next out rest x) as (rest1 & -> & Hr); [pose proof (zlen_nonneg (inter (drop (Z.to_nat (i1 + 1)) f1) (drop (Z.to_nat (i2 + 1)) f2))); lia|].
    cbn [mbind res_bind]. unfold go_BYE_if. rewrite (proj2 (Z.ltb_ge _ (zlen out + 1))) by lia. cbn [mbind res_bind].
    destruct (IH (i1 + 1) (i2 + 1) (out ++ [x]) rest1) as (rest' & E & El); [lia|lia|lia|rewrite zlen_snoc; lia|lia|].
    exists rest'. rewrite zlen_snoc in E. rewrite E, <- app_assoc. split; [|lia]. f_equal. f_equal. lia.
  - destruct (x <? y).
    + rewrite <- E2 in *. apply IH; lia.
    + rewrite <- E1 in *. apply IH; lia.
Qed.

Lemma minus_loop_ok f1 f2 fuel : forall i1 i2 (out rest : list Z),
  0 <= i1 <= zlen f1 -> 0 <= i2 <= zlen f2 -> zlen f1 - i1 + (zlen f2 - i2) < Z.of_nat fuel ->
  let vs := minus (drop (Z.to_nat i1) f1) (drop (Z.to_nat i2) f2) in
  zlen vs <= zlen rest ->
  exists rest', minus_loop fuel f1 (zlen f1) f2 (zlen f2) i1 i2 (out ++ rest) (zlen out)
    = Ok (out ++ vs ++ rest', zlen out + zlen vs) /\ zlen rest' = zlen rest - zlen vs.
Proof.
  induction fuel as [|fuel IH]; intros i1 i2 out rest H1 H2 Hf vs Hl; [lia|]. unfold vs in *. clear vs. cbn [minus_loop].
  assert (forall (vs : list Z) x (rest1 : list Z) R, zlen rest1 = zlen rest - 1 ->
    (exists rest', R = Ok ((out ++ [x]) ++ vs ++ rest', zlen (out ++ [x]) + zlen vs) /\ zlen rest' = zlen rest1 - zlen vs) ->
    exists rest', R = Ok (out ++ (x :: vs) ++ rest', zlen out + zlen (x :: vs)) /\ zlen rest' = zlen rest - zlen (x :: vs)) as Hput.
  { intros vs x rest1 R Hr (rest' & -> & Hr'). exists rest'. rewrite <- app_assoc, zlen_snoc, zlen_cons. split; [|lia]. do 2 f_equal. lia. }
  destruct (Z.eqb_spec i1 (zlen f1)) as [->|].
  { destruct (Z.eqb_spec i2 (zlen f2)) as [->|]; cbn [andb]; exists rest; rewrite drop_end;
      change (zlen (minus [] _)) with 0; rewrite Z.add_0_r; (split; [done|lia]). }
  cbn [andb]. destruct (drop_next f1 i1) as (x & Hx & E1); [lia|]. rewrite Hx. cbn [mbind res_bind].
  destruct (Z.eqb_spec i2 (zlen f2)) as [->|].
  { rewrite drop_end, minus_nil_r, E1 in *. rewrite zlen_cons in Hl. pose proof (zlen_nonneg (drop (Z.to_nat (i1 + 1)) f1)).
    destruct (put_next out rest x) as (rest1 & -> & Hr); [lia|]. cbn [mbind res_bind]. apply (Hput _ _ rest1); [done|].
    specialize (IH (i1 + 1) (zlen f2) (out ++ [x]) rest1). rewrite zlen_snoc, drop_end, minus_nil_r in IH. rewrite zlen_snoc. apply IH; lia. }
  destruct (drop_next f2 i2) as (y & Hy & E2); [lia|]. rewrite Hy. cbn [mbind res_bind]. rewrite E1, E2, minus_cons in *.
  destruct (x <? y).
  - rewrite zlen_cons in Hl. pose proof (zlen_nonneg (minus (drop (Z.to_nat (i1 + 1)) f1) (y :: drop (Z.to_nat (i2 + 1)) f2))).
    destruct (put_next out rest x) as (rest1 & -> & Hr); [lia|]. cbn [mbind res_bind]. apply (Hput _ _ rest1); [done|].
    rewrite <- E2 in *. specialize (IH (i1 + 1) i2 (out ++ [x]) rest1). rewrite zlen_snoc in IH. rewrite zlen_snoc. apply IH; lia.
  - destruct (x =? y); [apply IH; lia|]. rewrite <- E1 in *. apply IH; lia.
Qed.

(** A sorted I4 field without nulls: what the set operations ask for. *)
Record sorted_set (a : operand) (nR : Z) : Prop := {
  ss_type : f_type a = I4;
  ss_flag : f_sort a = ascending;
  ss_nn : f_nn a = None;
  ss_len : nR = zlen (f_X a);
  ss_rows : 0 < nR /\ nR * 4 < 2 ^ 31;
  ss_sorted : StronglySorted Z.le (f_X a) }.

Lemma sorted_sets_ok a b nR1 nR2 : sorted_set a nR1 -> sorted_set b nR2 -> sorted_sets a b = Ok tt.
Proof. intros [] []. unfold sorted_sets, go_BYE_if. rewrite ss_type0, ss_type1, ss_flag0, ss_flag1, ss_nn0, ss_nn1. done. Qed.

(** Claim C20. [intersection] of two sorted I4 fields without nulls: when they
    share a value, the new field is sorted and has every value as often as the
    field that has it the less often; when they share none, the operation fails,
    for the file is removed before [q_trunc] looks for it. *)
Theorem intersection_correct a b nR1 nR2 : sorted_set a nR1 -> sorted_set b nR2 ->
  let both v := Z.min (occ v (f_X a)) (occ v (f_X b)) in
  (exists R, intersection a b nR1 nR2 = Ok (Some R) /\ StronglySorted Z.le R /\ R <> [] /\ forall v, occ v R = both v) \/
  (intersection a b nR1 nR2 = Err /\ forall v, both v = 0).
Proof.
  intros Ha Hb both. pose proof (sorted_sets_ok _ _ _ _ Ha Hb) as Hs. destruct Ha, Hb. unfold intersection. rewrite Hs. cbn [mbind res_bind].
  rewrite mk_size_ok by lia. cbn [mbind res_bind]. set (n := Z.min nR1 nR2). set (vs := inter (f_X a) (f_X b)).
  pose proof (inter_length (f_X a) (f_X b)). pose proof (sublist_length _ _ (inter_sub (f_X a) (f_X b))). fold vs in H, H0.
  destruct (inter_loop_ok (f_X a) (f_X b) (Z.to_nat (nR1 + nR2 + 1)) 0 0 [] (replicate (Z.to_nat n) 0)) as (rest' & E & El);
    try (unfold zlen in *; rewrite ?length_replicate; simpl; lia); [change (zlen vs <= zlen (replicate (Z.to_nat n) 0)); unfold n, zlen in *; rewrite length_replicate; lia|].
  change (drop (Z.to_nat 0) (f_X a)) with (f_X a) in *. change (drop (Z.to_nat 0) (f_X b)) with (f_X b) in *. fold vs in E, El.
  rewrite ss_len0, ss_len1 in *. cbn [app] in E. change (zlen []) with 0 in E. rewrite E. cbn [mbind res_bind]. rewrite Z.add_0_l.
  assert (forall v, occ v vs = both v) as Hocc by (intros v; by apply inter_occ).
  unfold zlen in El at 2. rewrite length_replicate in El. destruct (Z.eqb_spec (zlen vs) 0) as [Ev|Ev].
  - right. unfold finish_output. cbn [mbind res_bind]. rewrite (proj2 (Z.eqb_neq (zlen vs) n)) by (unfold n; lia). split; [done|].
    intros v. rewrite <- Hocc. pose proof (occ_bounds v vs). lia.
  - left. exists vs. split; [|split; [by eapply sublist_ascending; [apply inter_sub|]|split; [by intros ->|done]]].
    unfold finish_output, q_trunc, go_BYE_if. pose proof (zlen_nonneg vs). assert (zlen vs <= n) by (unfold n, zlen in *; lia).
    rewrite (proj2 (Z.ltb_ge n (zlen vs))), (proj2 (Z.ltb_ge (n * 4) (zlen vs * 4))), (proj2 (Z.eqb_neq (zlen vs) 0)), to_nat_zlen, take_app_length by lia.
    destruct (zlen vs <? n), (zlen vs =? n); cbn [mbind res_bind]; rewrite ?(proj2 (Z.ltb_ge (n * 4) (zlen vs * 4))) by lia; done.
Qed.

Lemma intersection_correct_witness :
  let a := {| f_type := I4; f_sort := ascending; f_X := [1; 2; 2; 5]; f_nn := None |} in
  let b := {| f_type := I4; f_sort := ascending; f_X := [2; 2; 2; 7]; f_nn := None |} in
  (exists R, intersection a b 4 4 = Ok (Some R) /\ StronglySorted Z.le R /\ R <> [] /\
     forall v, occ v R = Z.min (occ v (f_X a)) (occ v (f_X b))) \/
  (intersection a b 4 4 = Err /\ forall v, Z.min (occ v (f_X a)) (occ v (f_X b)) = 0).
Proof.
  intros a b. apply (intersection_correct a b 4 4); constructor; try done; try lia; simpl; repeat constructor; lia.
Defined.

(** Claim C29. [a_minus_b] of two sorted I4 fields without nulls: the new field
    is sorted and has every value as often as the first field has it more than
    the second; when nothing is left there is no new field. *)
Theorem a_minus_b_correct a b nR1 nR2 : sorted_set a nR1 -> sorted_set b nR2 ->
  exists R, a_minus_b a b nR1 nR2 = Ok (listed R) /\ StronglySorted Z.le R /\
    forall v, occ v R = Z.max 0 (occ v (f_X a) - occ v (f_X b)).
Proof.
  intros Ha Hb. pose proof (sorted_sets_ok _ _ _ _ Ha Hb) as Hs. destruct Ha, Hb. unfold a_minus_b. rewrite Hs. cbn [mbind res_bind].
  rewrite mk_size_ok by lia. cbn [mbind res_bind]. set (vs := minus (f_X a) (f_X b)).
  pose proof (sublist_length _ _ (minus_sub (f_X a) (f_X b))) as Hl. fold vs in Hl.
  destruct (minus_loop_ok (f_X a) (f_X b) (Z.to_nat (nR1 + nR2 + 1)) 0 0 [] (replicate (Z.to_nat nR1) 0)) as (rest' & E & El);
    try (unfold zlen in *; rewrite ?length_replicate; simpl; lia);
    [change (zlen vs <= zlen (replicate (Z.to_nat nR1) 0)); unfold zlen in *; rewrite length_replicate; lia|].
  change (drop (Z.to_nat 0) (f_X a)) with (f_X a) in *. change (drop (Z.to_nat 0) (f_X b)) with (f_X b) in *. fold vs in E, El.
  rewrite <- ss_len0, <- ss_len1 in *. cbn [app] in E. change (zlen []) with 0 in E. rewrite E. cbn [mbind res_bind]. rewrite Z.add_0_l.
  assert (zlen vs <= nR1) as Hv by (rewrite ss_len0; unfold zlen in *; lia).
  exists vs. split; [|split; [by eapply sublist_ascending; [apply minus_sub|]|intros v; by apply minus_occ]].
  unfold finish_output, q_trunc, go_BYE_if. rewrite (proj2 (Z.ltb_ge (nR1 * 4) (zlen vs * 4))), to_nat_zlen, take_app_length by lia.
  cbn [mbind res_bind]. rewrite ?(proj2 (Z.ltb_ge (nR1 * 4) (zlen vs * 4))) by lia. unfold listed. pose proof (zlen_nonneg vs).
  destruct (Z.eqb_spec (zlen vs) 0) as [Ev|Ev], (decide (vs = [])) as [En|En]; try (by destruct (zlen vs =? nR1)).
  - destruct vs as [|x vs']; [done|]. rewrite zlen_cons in Ev. pose proof (zlen_nonneg vs'). lia.
  - by rewrite En in Ev.
Qed.

Lemma a_minus_b_correct_witness :
  let a := {| f_type := I4; f_sort := ascending; f_X := [1; 2; 2; 5]; f_nn := None |} in
  let b := {| f_type := I4; f_sort := ascending; f_X := [2; 7]; f_nn := None |} in
  exists R, a_minus_b a b 4 2 = Ok (listed R) /\ StronglySorted Z.le R /\
    forall v, occ v R = Z.max 0 (occ v (f_X a) - occ v (f_X b)).
Proof.
  intros a b. apply (a_minus_b_correct a b 4 2); constructor; try done; try lia; simpl; repeat constructor; lia.
Defined.

(** ** Minimum and sum over the blocks *)
Lemma abs_sum_bound l m : Forall (fun x => Z.abs x <= m) l -> abs_sum l <= zlen l * m.
Proof.
  induction 1 as [|x l Hx Hl IH]; [done|]. rewrite abs_sum_cons, zlen_cons. lia.
Qed.
Lemma foldl_min_acc l : forall e x, foldl Z.min (Z.min e x) l = Z.min x (foldl Z.min e l).
Proof.
  induction l as [|y l IH]; intros e x; simpl; [lia|]. rewrite <- IH. f_equal. lia.
Qed.
Lemma foldl_min_concat e ls : forall c, c <= e -> foldl Z.min c (foldl Z.min e <$> ls) = foldl Z.min c (concat ls).
Proof.
  induction ls as [|l ls IH]; intros c Hc; [done|]. cbn [concat]. rewrite fmap_cons, foldl_app. cbn [foldl].
  rewrite <- foldl_min_acc, Z.min_r by lia. apply IH. rewrite <- (Z.min_r e c) by lia. rewrite foldl_min_acc. lia.
Qed.

Lemma foldl_min_const m l : Forall (fun x => x = m) l -> foldl Z.min m l = m.
Proof. induction 1 as [|x l -> _ IH]; [done|]. simpl. by rewrite Z.min_id. Qed.
Lemma foldl_max_ge l : forall m, m <= foldl Z.max m l.
Proof. induction l as [|x l IH]; intros m; simpl; [lia|]. specialize (IH (Z.max m x)). lia. Qed.

(** The values of the rows from [lb] on. *)
Lemma pos_mmad_loop_ok f1 nR1 f2 W : forall lb mn mx s,
  (forall k : nat, (k < length W)%nat -> exists idx, f2 !z (lb + Z.of_nat k) = Some idx /\ 0 <= idx < nR1 /\ f1 !z idx = W !! k) ->
  Forall (inS 32) W -> Z.abs s + zlen W * 2 ^ 31 < 2 ^ 63 ->
  pos_mmad_loop (length W) f1 nR1 f2 lb (mn, mx, s)
  = Ok (Some (foldl Z.min mn W, foldl Z.max mx W, s + sum W)).
Proof.
  induction W as [|x W IH]; intros lb mn mx s Hrow HW Hs; [cbn; by rewrite Z.add_0_r|].
  apply Forall_cons in HW as [Hx HW]. rewrite zlen_cons in Hs. pose proof (zlen_nonneg W).
  destruct (Hrow 0%nat) as (idx & H1 & Hi & H2); [simpl; lia|]. rewrite Z.add_0_r in H1. simpl in H2.
  cbn [length pos_mmad_loop]. rewrite (proj2 (rd_Ok _ _ _) H1). cbn [mbind res_bind].
  rewrite out_of_spec, bool_decide_eq_true_2, (proj2 (rd_Ok _ _ _) H2) by done. cbn [negb mbind res_bind mms_add].
  unfold inS in Hx. unfold c_add. rewrite sint_Ok by (unfold inS; lia). cbn [mbind res_bind].
  rewrite IH; [|intros k Hk; destruct (Hrow (Datatypes.S k)) as (idx' & ? & ? & ?); [simpl; lia|]; exists idx'; split;
    [by replace (lb + 1 + Z.of_nat k) with (lb + Z.of_nat (Datatypes.S k)) by lia|done]|done|lia].
  cbn [foldl]. do 3 f_equal; [|cbn [sum foldr]; unfold sum; cbn [foldr]; lia].
  f_equal; f_equal; [destruct (Z.ltb_spec x mn); lia|destruct (Z.ltb_spec mx x); lia].
Qed.

Section mmad.
Context (a b : operand) (nR1 nR2 bs nT : Z) (V : list Z).
Context (Ha : f_type a = I4) (Hb : f_type b = I4 \/ f_type b = I8) (Na : f_nn a = None) (Nb : f_nn b = None).
Context (HV : zlen V = nR2) (HVs : Forall (inS 32) V) (Hn : nR2 < 2 ^ 31).
Context (Hrow : forall k x, V !z k = Some x -> exists idx, f_X b !z k = Some idx /\ 0 <= idx < nR1 /\ f_X a !z idx = Some x).
Context (Hbs : 0 < bs) (HnT : 0 < nT) (Hcut : 0 <= nR2 - bs * nT < bs).

Definition block_part (W : list Z) : mmad_part :=
  {| p_i4 := (foldl Z.min INT_MAX W, foldl Z.max INT_MIN W); p_i8 := p_i8 part0; p_sum := sum W |}.

Lemma mmad_block_ok lb ub : 0 <= lb -> lb < ub -> ub <= nR2 ->
  mmad_block a b nR1 nR2 lb (ub - lb) = Ok (true, block_part (slice V lb ub)).
Proof.
  intros H1 H2 H3. unfold mmad_block. rewrite Ha, Na, Nb.
  pose proof (slice_length V lb ub ltac:(lia) ltac:(lia)) as Hl.
  assert (pos_mmad (f_X a) nR1 (f_X b) lb (ub - lb) (INT_MAX, INT_MIN, 0)
    = Ok (true, (foldl Z.min INT_MAX (slice V lb ub), foldl Z.max INT_MIN (slice V lb ub), sum (slice V lb ub)))) as E.
  { unfold pos_mmad. replace (Z.to_nat (ub - lb)) with (length (slice V lb ub)) by (unfold zlen in Hl; lia).
    rewrite (pos_mmad_loop_ok (f_X a) nR1 (f_X b) (slice V lb ub)); [done| | |].
    - intros k Hk. pose proof (slice_lookup V lb ub k H1 ltac:(unfold zlen in Hl; lia)) as Es.
      destruct (slice V lb ub !! k) as [x|] eqn:Ek; [|apply lookup_ge_None in Ek; lia].
      destruct (Hrow _ _ Es) as (idx & ? & ? & ?). by exists idx.
    - apply Forall_forall. intros x Hx. rewrite Forall_forall in HVs. by eapply HVs, slice_sub.
    - rewrite Hl. cbn [Z.abs]. lia. }
  unfold pos_mmad_I4_I4, pos_mmad_I4_I8. rewrite E. by destruct Hb as [->| ->].
Qed.

Lemma mmad_blocks_ok n : forall tid ok, 0 <= tid -> tid + Z.of_nat n <= nT ->
  mmad_blocks n tid a b nR1 nR2 bs nT ok
  = Ok (match n with O => ok | _ => true end, (block_part ∘ block V bs nT) <$> seqZ tid (Z.of_nat n)).
Proof.
  induction n as [|n IH]; intros tid ok Ht Hle; [done|]. cbn [mmad_blocks].
  destruct (chunk 0 nR2 bs nT tid) as [lb ub] eqn:E.
  destruct (chunk_bounds nR2 bs nT tid lb ub Hbs Hcut ltac:(lia) E) as (? & ? & ?).
  rewrite mmad_block_ok by done. cbn [mbind res_bind]. rewrite IH by lia. cbn [mbind res_bind].
  rewrite (seqZ_cons tid (Z.of_nat (Datatypes.S n))), fmap_cons by lia.
  replace (Z.pred (Z.of_nat (Datatypes.S n))) with (Z.of_nat n) by lia. replace (Z.succ tid) with (tid + 1) by lia.
  replace ((block_part ∘ block V bs nT) tid) with (block_part (slice V lb ub)) by (unfold compose, block; by rewrite HV, E).
  by destruct n.
Qed.

Lemma combine_all_ok (get : mmad_part -> Z * Z) ps : forall mn mx s,
  (forall p, p ∈ ps -> mx <= (get p).2) -> Z.abs s + abs_sum (p_sum <$> ps) < 2 ^ 63 ->
  combine_all get ps (mn, mx, s) = Ok (foldl Z.min mn ((fst ∘ get) <$> ps), mx, s + sum (p_sum <$> ps)).
Proof.
  induction ps as [|p ps IH]; intros mn mx s Hmx Hs; [cbn; by rewrite Z.add_0_r|].
  rewrite !fmap_cons, ?abs_sum_cons in *. pose proof (abs_sum_nonneg (p_sum <$> ps)).
  cbn [combine_all]. unfold combine_mmad. destruct (get p) as [minval maxval] eqn:Eg.
  unfold c_add. rewrite sint_Ok by (unfold inS; lia). cbn [mbind res_bind].
  specialize (Hmx p ltac:(left)) as Hp. rewrite Eg in Hp. simpl in Hp. rewrite (proj2 (Z.ltb_ge maxval mx)) by done.
  rewrite IH; [|intros q Hq; apply Hmx; by right|lia]. unfold sum. cbn [foldl foldr]. 
  replace ((fst ∘ get) p) with minval by (unfold compose; by rewrite Eg).
  do 2 f_equal; [|lia]. do 2 f_equal. destruct (Z.ltb_spec minval mn); lia.
Qed.
End mmad.

Lemma omap_total {A B} (g : A -> option B) (h : A -> B) (l : list A) :
  (forall x, x ∈ l -> g x = Some (h x)) -> omap g l = h <$> l.
Proof.
  induction l as [|x l IH]; intros H; [done|]. rewrite fmap_cons. cbn [omap list_omap]. rewrite (H x) by left.
  f_equal. apply IH. intros y Hy. apply H. by right.
Qed.

(** Without nulls and with positions in range, each row has a value. *)
Lemma rows_at a b nR1 nR2 :
  f_nn b = None -> zlen (f_X a) = nR1 -> zlen (f_X b) = nR2 -> positions_in_range b nR1 nR2 ->
  let vs := omap (at_pos a b) (seqZ 0 nR2) in
  zlen vs = nR2 /\
  forall k x, vs !z k = Some x -> exists idx, f_X b !z k = Some idx /\ 0 <= idx < nR1 /\ f_X a !z idx = Some x.
Proof.
  intros Nb La Lb Hpos vs. pose proof (zlen_nonneg (f_X b)). set (row := fun i => default 0 (at_pos a b i)).
  assert (forall i, 0 <= i < nR2 -> exists idx x, f_X b !z i = Some idx /\ 0 <= idx < nR1 /\ f_X a !z idx = Some x /\ at_pos a b i = Some x) as Hr.
  { intros i Hi. destruct (zlookup_is_Some (f_X b) i) as [idx E]; [lia|]. assert (0 <= idx < nR1) by (apply (Hpos i); [done|by rewrite Nb|done]).
    destruct (zlookup_is_Some (f_X a) idx) as [x E2]; [lia|]. exists idx, x. unfold at_pos. rewrite E. split_and!; (done || lia || exact E2). }
  assert (vs = row <$> seqZ 0 nR2) as Evs.
  { apply omap_total. intros i Hi%elem_of_seqZ. destruct (Hr i ltac:(lia)) as (idx & x & _ & _ & _ & E). unfold row. by rewrite E. }
  assert (zlen vs = nR2) as Hlen by (rewrite Evs; unfold zlen in *; rewrite length_fmap, length_seqZ; lia).
  split; [done|]. intros k x Hx. pose proof (zlookup_Some_range _ _ _ Hx). destruct (Hr k ltac:(lia)) as (idx & y & E1 & Hi & E2 & E3).
  exists idx. split_and!; try done || lia. rewrite E2. rewrite Evs, zlookup_to_nat, list_lookup_fmap, lookup_seqZ_lt in Hx by lia.
  simpl in Hx. replace (0 + Z.of_nat (Z.to_nat k)) with k in Hx by lia. unfold row in Hx. rewrite E3 in Hx. exact Hx.
Qed.

(** Claim C31. [pos_mmad] of an I4 field at positions that are all rows of it,
    both without nulls, whatever the number of blocks: with I4 positions the
    answer is the least value and the sum, and INT_MIN in place of the greatest
    value; with I8 positions the sum alone is right, the minimum and maximum
    are LLONG_MAX and LLONG_MIN. *)
Theorem pos_mmad_op_correct a b nR1 nR2 num_cores bs nT :
  f_type a = I4 -> f_type b = I4 \/ f_type b = I8 -> f_nn a = None -> f_nn b = None ->
  zlen (f_X a) = nR1 -> zlen (f_X b) = nR2 -> 0 < nR2 < 2 ^ 31 -> Forall (inS 32) (f_X a) -> positions_in_range b nR1 nR2 ->
  0 < num_cores -> partition nR2 1024 (num_cores * num_cores) = Ok (bs, nT) ->
  let vs := omap (at_pos a b) (seqZ 0 nR2) in
  pos_mmad_op a b nR1 nR2 num_cores
  = Ok (if decide (f_type b = I4) then (foldl Z.min INT_MAX vs, INT_MIN, sum vs) else (LLONG_MAX, LLONG_MIN, sum vs)).
Proof.
  intros Ha Hb Na Nb La Lb Hn Hin Hpos Hcores Hpart vs.
  destruct (partition_Ok nR2 1024 (num_cores * num_cores) bs nT) as (_ & HnT & Hmax & Hbs & Hcut & _);
    [lia|apply Z.div_lt_upper_bound; unfold INT_MAX; lia|done|].
  destruct (rows_at a b nR1 nR2 Nb La Lb Hpos) as [Hlen Hrow]. fold vs in Hlen, Hrow.
  assert (Forall (inS 32) vs) as Hvs.
  { apply Forall_lookup. intros k x Hx. rewrite <- zlookup_nat in Hx. destruct (Hrow _ x Hx) as (idx & _ & _ & E). by eapply Forall_zlookup. }
  unfold pos_mmad_op. rewrite Hpart. cbn [mbind res_bind]. rewrite (proj2 (Z.ltb_ge _ nT)) by lia. cbn [mbind res_bind].
  rewrite (mmad_blocks_ok a b nR1 nR2 bs nT vs) by (done || lia). cbn [mbind res_bind]. rewrite Z2Nat.id by lia.
  set (bl := block vs bs nT <$> seqZ 0 nT). assert (concat bl = vs) as Ebl by (apply blocks_concat; lia).
  rewrite list_fmap_compose. fold bl. assert (p_sum <$> (block_part <$> bl) = sum <$> bl) as Es by by rewrite <- list_fmap_compose.
  assert (abs_sum (sum <$> bl) < 2 ^ 63) as Hsum.
  { pose proof (abs_sum_concat bl) as Hc. rewrite Ebl in Hc. 
    assert (abs_sum vs <= zlen vs * 2 ^ 31) by (apply abs_sum_bound; eapply Forall_impl; [exact Hvs|]; unfold inS; simpl; lia). lia. }
  replace (match Z.to_nat nT with O => true | _ => true end) with true by (by destruct (Z.to_nat nT)).
  destruct Hb as [Eb|Eb]; rewrite Eb; [rewrite decide_True by done|rewrite decide_False by done];
    (rewrite combine_all_ok; [cbn [mbind res_bind]|intros p (W & -> & _)%list_elem_of_fmap|by rewrite Es]);
    rewrite ?Es, ?sum_concat, ?Ebl; rewrite ?Z.add_0_l; [|apply foldl_max_ge|..].
  - rewrite <- list_fmap_compose. change (fst ∘ p_i4 ∘ block_part) with (foldl Z.min INT_MAX). by rewrite foldl_min_concat, Ebl.
  - rewrite foldl_min_const; [done|]. by apply Forall_fmap, Forall_fmap, Forall_true.
  - done.
Qed.

Lemma pos_mmad_op_correct_witness :
  let a := {| f_type := I4; f_sort := unsorted; f_X := [7; -3; 9]; f_nn := None |} in
  let b := {| f_type := I4; f_sort := unsorted; f_X := [2; 1; 2; 0]; f_nn := None |} in
  pos_mmad_op a b 3 4 2
  = Ok (let vs := omap (at_pos a b) (seqZ 0 4) in
        if decide (f_type b = I4) then (foldl Z.min INT_MAX vs, INT_MIN, sum vs) else (LLONG_MAX, LLONG_MIN, sum vs)).
Proof.
  intros a b. apply (pos_mmad_op_correct a b 3 4 2 4 1); try done; try lia; [by left|repeat constructor; unfold inS; lia|].
  intros i idx _ _ H. apply (Forall_zlookup (fun z => 0 <= z < 3) _ i _) in H; [done|]. repeat constructor; lia.
Defined.
