(* ===== verification/Ranges.v ===== *)
(** * Ranges of rows.

    Models cfld_to_range.c, range_to_cfld.c, num_in_range.c and rng_join.c of
    src/src/dir_wr_verbs, from the data of the operands to the data of the new
    fields.  A condition field and a table of ranges of rows are turned into
    each other; the values of a field are counted by ranges of values, or
    joined with them. *)

From stdpp Require Import prelude strings sorting.
From Stdlib Require Import ZArith Lia.
From S2P Require Import Prelude Types CString Reduce Vec VecBits Positions.
Import Reduce.

(** ** [cfld_to_range] *)

(** The end of the range: [for ( ; i < src_nR; i++ ) { ... }]; [n] rows are
    left.  The index is an [int]. *)
Fixpoint range_end (n : nat) (src_X : list Z) (src_nR i rangeub : Z) : res (Z * Z) :=
  match n with
  | O => Ok (i, rangeub)
  | Datatypes.S n =>
      x ← rd src_X i;
      if x =? 0 then Ok (i, i)
      else
        i' ← add_to 32 i 1;
        range_end n src_X src_nR i' (if rangeub <? 0 then src_nR else rangeub)
  end.

(** [dst_nR] and the files [lbI8] and [ubI8].  After a range that reaches the
    end the outer loop adds 1 to [src_nR]. *)
Fixpoint ranges_loop (fuel : nat) (src_X : list Z) (src_nR i dst_nR : Z) (lbI8 ubI8 : list Z) : res (Z * list Z * list Z) :=
  if i <? src_nR then
    match fuel with
    | O => NoFuel
    | Datatypes.S fuel =>
        x ← rd src_X i;
        if x =? 0 then
          i' ← add_to 32 i 1;
          ranges_loop fuel src_X src_nR i' dst_nR lbI8 ubI8
        else
          '(j, rangeub) ← range_end (Z.to_nat (src_nR - i)) src_X src_nR i (-1);
          lbI8 ← wr lbI8 dst_nR i;
          ubI8 ← wr ubI8 dst_nR rangeub;
          j' ← add_to 32 j 1;
          ranges_loop fuel src_X src_nR j' (dst_nR + 1) lbI8 ubI8
    end
  else Ok (dst_nR, lbI8, ubI8).

(** [None]: without a range the verb succeeds and makes no table.  The files
    are cut to the ranges that were found. *)
Definition cfld_to_range (src : operand) (src_nR : Z) : res (option (list Z * list Z)) :=
  _ ← mk_size (src_nR * 8);
  _ ← go_BYE_if (bool_decide (f_nn src <> None));
  _ ← go_BYE_if (bool_decide (f_type src <> I1));
  let zeros := replicate (Z.to_nat src_nR) 0 in
  '(dst_nR, lbI8, ubI8) ← ranges_loop (Z.to_nat src_nR) (f_X src) src_nR 0 0 zeros zeros;
  Ok (if dst_nR =? 0 then None else Some (take (Z.to_nat dst_nR) lbI8, take (Z.to_nat dst_nR) ubI8)).

Example cfld_to_range_ex : cfld_to_range {| f_type := I1; f_sort := unknown; f_X := [0; 1; 1; 0; 7; 0; 1]; f_nn := None |} 7 = Ok (Some ([1; 4; 6], [3; 5; 7])).
Proof. vm_compute. reflexivity. Qed.

(** *** What the loops do *)

Lemma next_row (X : list Z) i : 0 <= i <= zlen X -> zlen X < INT_MAX -> add_to 32 i 1 = Ok (i + 1).
Proof. intros Hi Hl. apply add_to_Ok. unfold inS, INT_MAX in *. lia. Qed.

Lemma range_end_ok X n : zlen X < INT_MAX -> forall i ub, Z.of_nat n = zlen X - i -> 0 <= i ->
  (ub = -1 /\ (forall x, X !z i = Some x -> x <> 0) \/ ub = zlen X) ->
  exists i' ub', range_end n X (zlen X) i ub = Ok (i', ub') /\ i <= i' <= zlen X /\
    (forall k x, i <= k < i' -> X !z k = Some x -> x <> 0) /\ (i' < zlen X -> X !z i' = Some 0) /\
    ((n = 0%nat /\ ub' = ub) \/ ub' = i').
Proof.
  intros Hmax. induction n as [|n IH]; intros i ub Hn Hi Hub.
  { exists i, ub. split_and!; (lia || done || by left). }
  cbn [range_end]. destruct (rd_total X i) as [x Hx]; [lia|]. rewrite Hx. apply rd_Ok in Hx. cbn [mbind res_bind].
  destruct (Z.eqb_spec x 0) as [->|Hx0].
  { exists i, i. split_and!; (lia || done || by right). }
  rewrite (next_row X) by lia. cbn [mbind res_bind].
  destruct (IH (i + 1) (if ub <? 0 then zlen X else ub)) as (i' & ub' & -> & Hb & Hr & He & Hu); [lia|lia| |].
  { right. destruct Hub as [[-> _]| ->]; [done|]. by rewrite (proj2 (Z.ltb_ge _ _)) by apply zlen_nonneg. }
  exists i', ub'. split_and!; try lia; try done.
  - intros k y Hk Hy. destruct (decide (k = i)) as [->|]; [congruence|]. apply (Hr k y); [lia|done].
  - right. destruct Hu as [[-> ->]|]; [|done]. destruct Hub as [[-> _]| ->]; cbn; [lia|].
    rewrite (proj2 (Z.ltb_ge _ _)) by apply zlen_nonneg. lia.
Qed.

(** The ranges of the rows from [i] on that are not 0: between two ranges
    there is a row that is 0. *)
Record ranges_from (X : list Z) (i : Z) (l : list (Z * Z)) : Prop := {
  rf_in lb ub : (lb, ub) ∈ l -> i <= lb < ub /\ ub <= zlen X;
  rf_row k x : i <= k -> X !z k = Some x -> x <> 0 <-> exists lb ub, (lb, ub) ∈ l /\ lb <= k < ub;
  rf_sep : StronglySorted (fun p q : Z * Z => p.2 < q.1) l
}.

Lemma ranges_from_zero X i l : X !z i = Some 0 -> ranges_from X (i + 1) l -> ranges_from X i l.
Proof.
  intros Hi [H1 H2 H3]. split; [|intros k x Hk Hx|done].
  - intros lb ub Hin. specialize (H1 lb ub Hin). lia.
  - destruct (decide (k = i)) as [->|]; [|apply H2; [lia|done]]. assert (x = 0) as -> by congruence.
    split; [done|]. intros (lb & ub & Hin & Hk'). specialize (H1 lb ub Hin). lia.
Qed.

Lemma ranges_from_end X i : zlen X <= i -> ranges_from X i [].
Proof.
  intros Hi. split; [intros lb ub []%elem_of_nil| |constructor].
  intros k x Hk Hx%zlookup_Some_range. lia.
Qed.

Lemma ranges_from_range X i j l : 0 <= i < j -> j <= zlen X -> (forall k x, i <= k < j -> X !z k = Some x -> x <> 0) ->
  (j < zlen X -> X !z j = Some 0) -> ranges_from X (j + 1) l -> ranges_from X i ((i, j) :: l).
Proof.
  intros Hij Hj Hnz Hz [H1 H2 H3]. split.
  - intros lb ub [[= -> ->]|Hin]%elem_of_cons; [lia|]. specialize (H1 lb ub Hin). lia.
  - intros k x Hk Hx. pose proof (zlookup_Some_range _ _ _ Hx). split.
    + intros Hx0. destruct (decide (k < j)); [exists i, j; split; [apply elem_of_cons; by left|lia]|].
      destruct (decide (k = j)) as [->|]; [rewrite Hz in Hx by lia; congruence|].
      destruct (proj1 (H2 k x ltac:(lia) Hx) Hx0) as (lb & ub & Hin & Hk'). exists lb, ub. split; [apply elem_of_cons; by right|lia].
    + intros (lb & ub & [[= -> ->]|Hin]%elem_of_cons & Hk').
      * by apply (Hnz k).
      * pose proof (H1 lb ub Hin). apply (H2 k x); [lia|done|]. by exists lb, ub.
  - constructor; [done|]. apply Forall_forall. intros [lb ub] Hin. specialize (H1 lb ub Hin). cbn. lia.
Qed.

Lemma wr_middle_at {A} (l1 l2 : list A) x i v : i = zlen l1 -> wr (l1 ++ x :: l2) i v = Ok (l1 ++ v :: l2).
Proof. intros ->. apply wr_middle. Qed.

Lemma rd_middle_at {A} (l1 l2 : list A) x i : i = zlen l1 -> rd (l1 ++ x :: l2) i = Ok x.
Proof. intros ->. apply rd_middle. Qed.

Lemma ranges_loop_ok X fuel : zlen X < INT_MAX -> forall i P z, 0 <= i -> zlen X <= i + Z.of_nat fuel -> zlen P <= i ->
  Z.of_nat z = zlen X - zlen P \/ zlen X <= i ->
  exists l z', ranges_loop fuel X (zlen X) i (zlen P) (P.*1 ++ replicate z 0) (P.*2 ++ replicate z 0) =
      Ok (zlen (P ++ l), (P ++ l).*1 ++ z', (P ++ l).*2 ++ z') /\ ranges_from X i l.
Proof.
  intros Hmax. induction fuel as [|fuel IH]; intros i P z Hi Hf HP Hz; cbn [ranges_loop]; destruct (Z.ltb_spec i (zlen X)) as [Hlt|Hge];
    try lia; [exists [], (replicate z 0); rewrite app_nil_r; split; [done|by apply ranges_from_end]| |
              exists [], (replicate z 0); rewrite app_nil_r; split; [done|by apply ranges_from_end]].
  destruct Hz as [Hz|]; [|lia]. destruct (rd_total X i) as [x Hx]; [lia|]. rewrite Hx. apply rd_Ok in Hx. cbn [mbind res_bind].
  destruct (Z.eqb_spec x 0) as [->|Hx0].
  { rewrite (next_row X) by lia. destruct (IH (i + 1) P z) as (l & z' & E & Hl); [lia..|]. exists l, z'. split; [done|]. by apply ranges_from_zero. }
  destruct (range_end_ok X (Z.to_nat (zlen X - i)) Hmax i (-1)) as (j & ub & -> & Hb & Hr & He & Hu); [lia|lia| |].
  { left. split; [done|]. intros y Hy. congruence. }
  destruct Hu as [[? _]| ->]; [lia|]. cbn [mbind res_bind].
  assert (i < j) as Hij. { destruct (decide (i = j)) as [<-|]; [|lia]. rewrite He in Hx by lia. congruence. }
  destruct z as [|z]; [lia|]. cbn [replicate].
  assert (zlen P = zlen P.*1) as E1 by (by rewrite zlen_fmap). assert (zlen P = zlen P.*2) as E2 by (by rewrite zlen_fmap).
  rewrite (wr_middle_at (P.*1)) by done. cbn [mbind res_bind]. rewrite (wr_middle_at (P.*2)) by done. cbn [mbind res_bind].
  rewrite (next_row X) by lia. cbn [mbind res_bind].
  destruct (IH (j + 1) (P ++ [(i, j)]) z) as (l & z' & E & Hl); [lia|lia|rewrite zlen_snoc; lia|rewrite zlen_snoc; lia|].
  exists ((i, j) :: l), z'. split; [|apply ranges_from_range; (done || lia)].
  rewrite zlen_snoc, !fmap_app, <- !(assoc_L (++)) in E. cbn [fmap list_fmap app fst snd] in E. rewrite E.
  rewrite !fmap_app, <- !(assoc_L (++)). done.
Qed.

Lemma cfld_to_range_run src nR :
  f_nn src = None -> f_type src = I1 -> zlen (f_X src) = nR -> 0 < nR < 2 ^ 29 ->
  exists l, ranges_from (f_X src) 0 l /\
    cfld_to_range src nR = Ok (if decide (l = []) then None else Some (l.*1, l.*2)).
Proof.
  intros Hnn Ht Hl HnR. unfold cfld_to_range. rewrite mk_size_ok, Hnn, Ht by lia.
  rewrite !bool_decide_eq_false_2 by (intros H; by apply H). cbn [go_BYE_if mbind res_bind].
  destruct (ranges_loop_ok (f_X src) (Z.to_nat nR) ltac:(unfold INT_MAX; lia) 0 [] (Z.to_nat nR)) as (l & z & E & Hr);
    [done|lia|done|left; rewrite Hl; unfold zlen; change (length []) with 0%nat; lia|].
  exists l. split; [done|]. rewrite Hl in E. cbn [fmap list_fmap app] in E. unfold zlen in E at 1. cbn [length] in E.
  change (Z.of_nat 0) with 0 in E. rewrite E. cbn [mbind res_bind].
  pose proof (zlen_nonneg l). destruct (decide (l = [])) as [->|Hne]; [done|].
  destruct (Z.eqb_spec (zlen l) 0) as [H0|_]; [destruct l; [done|rewrite zlen_cons in H0; pose proof (zlen_nonneg l); lia]|].
  unfold zlen. rewrite Nat2Z.id.
  by rewrite !take_app_length' by by rewrite length_fmap.
Qed.

(** ** [range_to_cfld] *)

(** The check of the ranges; [idx_nR] is the number of rows in them. *)
Fixpoint check_ranges (n : nat) (lbI8 ubI8 : list Z) (nR i idx_nR : Z) : res Z :=
  match n with
  | O => Ok idx_nR
  | Datatypes.S n =>
      lb ← rd lbI8 i;
      ub ← rd ubI8 i;
      _ ← go_BYE_if ((lb <? 0) || (nR <? lb));
      _ ← go_BYE_if ((ub <? 0) || (nR <? ub));
      _ ← go_BYE_if (ub <=? lb);
      idx_nR ← add_to 64 idx_nR (ub - lb);
      i ← add_to 32 i 1;
      check_ranges n lbI8 ubI8 nR i idx_nR
  end.

(** [for ( j = lb; j < ub; j++ )]: [n] rows are left, and the next one goes
    to [idxI8[k]]. *)
Fixpoint copy_indexes (n : nat) (src : list Z) (j : Z) (idxI8 : list Z) (k : Z) : res (list Z) :=
  match n with
  | O => Ok idxI8
  | Datatypes.S n =>
      idx ← rd src j;
      idxI8 ← wr idxI8 k idx;
      copy_indexes n src (j + 1) idxI8 (k + 1)
  end.
Fixpoint list_indexes (n : nat) (src lbI8 ubI8 : list Z) (i : Z) (idxI8 : list Z) (idxctr : Z) : res (list Z) :=
  match n with
  | O => Ok idxI8
  | Datatypes.S n =>
      lb ← rd lbI8 i;
      ub ← rd ubI8 i;
      idxI8 ← copy_indexes (Z.to_nat (ub - lb)) src lb idxI8 idxctr;
      i ← add_to 32 i 1;
      list_indexes n src lbI8 ubI8 i idxI8 (idxctr + (ub - lb))
  end.

(** The bit of row [idx]: the word index goes through an [unsigned int], and
    the shift is by an [int]. *)
Definition set_bit (dst : list Z) (idx : Z) : res (list Z) :=
  let word_idx := Z.shiftr (wrapU 32 idx) 3 in
  let bit_idx := wrapS 32 (idx - Z.shiftl word_idx 3) in
  if decide (0 <= bit_idx < 31) then
    let uchar := wrapU 8 (Z.shiftl 1 bit_idx) in
    d ← rd dst word_idx;
    wr dst word_idx (Z.lor d uchar)
  else Ub.
Definition set_byte (dst : list Z) (idx : Z) : res (list Z) := wr dst idx 1.

Fixpoint set_rows (set : list Z -> Z -> res (list Z)) (n : nat) (idxI8 : list Z) (i : Z) (dst : list Z) : res (list Z) :=
  match n with
  | O => Ok dst
  | Datatypes.S n =>
      idx ← rd idxI8 i;
      dst ← set dst idx;
      set_rows set n idxI8 (i + 1) dst
  end.

(** A field of ranges. *)
Definition bound_field (b : operand) : res unit :=
  _ ← go_BYE_if (bool_decide (f_nn b <> None));
  go_BYE_if (bool_decide (f_type b <> I8)).

(** The size of the new file, with the statement that marks a row. *)
Definition condition_file (nR : Z) (str_dst_fldtype : string) : res (Z * (list Z -> Z -> res (list Z))) :=
  if strcmp_eq str_dst_fldtype "B" then filesz ← get_file_size_B nR; Ok (filesz, set_bit)
  else if strcmp_eq str_dst_fldtype "I1" then Ok (nR, set_byte)
  else Err.

(** The new file, and the number for its meta datum [cnt].  The new file holds
    zeros already when the verb clears it. *)
Definition range_to_cfld (rng_lb rng_ub : operand) (rng_nR : Z) (src : operand) (nR : Z) (str_dst_fldtype : string) : res (list Z * Z) :=
  '(filesz, set) ← condition_file nR str_dst_fldtype;
  _ ← mk_size filesz;
  _ ← bound_field rng_lb;
  _ ← bound_field rng_ub;
  _ ← go_BYE_if (bool_decide (f_nn src <> None));
  idx_nR ← check_ranges (Z.to_nat rng_nR) (f_X rng_lb) (f_X rng_ub) nR 0 0;
  _ ← mk_size (idx_nR * 8);
  _ ← go_BYE_if (negb (bool_decide (f_type src = I4 \/ f_type src = I8)));
  idxI8 ← list_indexes (Z.to_nat rng_nR) (f_X src) (f_X rng_lb) (f_X rng_ub) 0 (replicate (Z.to_nat idx_nR) 0) 0;
  dst_X ← set_rows set (Z.to_nat idx_nR) idxI8 0 (replicate (Z.to_nat filesz) 0);
  Ok (dst_X, idx_nR).

Definition plain_field (t : FLD_TYPE) (X : list Z) : operand := {| f_type := t; f_sort := unknown; f_X := X; f_nn := None |}.

Example range_to_cfld_ex :
  range_to_cfld (plain_field I8 [0; 2]) (plain_field I8 [2; 4]) 2 (plain_field I4 [5; 1; 3; 0; 2]) 5 "I1" = Ub /\
  range_to_cfld (plain_field I8 [0; 2]) (plain_field I8 [2; 2]) 2 (plain_field I4 [5; 1; 3; 0; 2]) 5 "I1" = Err /\
  range_to_cfld (plain_field I8 [1; 2]) (plain_field I8 [2; 4]) 2 (plain_field I4 [5; 1; 3; 0; 2]) 5 "I1" = Ok ([1; 1; 0; 1; 0], 3) /\
  prod_map (take 2) id <$> range_to_cfld (plain_field I8 [1; 2]) (plain_field I8 [2; 4]) 2 (plain_field I4 [5; 1; 3; 9; 2]) 5 "B" = Ok ([10; 2], 3).
Proof. vm_compute. done. Qed.

(** A row in two ranges is counted twice. *)
Example range_to_cfld_twice :
  range_to_cfld (plain_field I8 [0; 1]) (plain_field I8 [2; 3]) 2 (plain_field I4 [0; 1; 2]) 3 "I1" = Ok ([1; 1; 1], 4).
Proof. vm_compute. done. Qed.

(** *** The rows of the ranges *)

Definition rows_of (l : list (Z * Z)) : list Z := l ≫= fun p => seqZ p.1 (p.2 - p.1).
Definition range_ok (n m : Z) (p : Z * Z) : Prop := 0 <= p.1 < p.2 /\ p.2 <= n /\ p.2 <= m.

Lemma rows_of_cons p l : rows_of (p :: l) = seqZ p.1 (p.2 - p.1) ++ rows_of l.
Proof. done. Qed.

Lemma elem_rows_of l k : k ∈ rows_of l <-> exists lb ub, (lb, ub) ∈ l /\ lb <= k < ub.
Proof.
  unfold rows_of. rewrite list_elem_of_bind. split.
  - intros ([lb ub] & Hk%elem_of_seqZ & Hin). exists lb, ub. cbn in Hk. split; [done|lia].
  - intros (lb & ub & Hin & Hk). exists (lb, ub). split; [apply elem_of_seqZ; cbn; lia|done].
Qed.

Lemma zlen_seqZ a n : 0 <= n -> zlen (seqZ a n) = n.
Proof. intros Hn. unfold zlen. rewrite length_seqZ. lia. Qed.

Lemma rd_pair {A B} (P l : list (A * B)) p :
  rd (P ++ p :: l).*1 (zlen P) = Ok p.1 /\ rd (P ++ p :: l).*2 (zlen P) = Ok p.2.
Proof.
  assert ((P ++ p :: l) !z (zlen P) = Some p) as H by (unfold zlen; rewrite zlookup_nat; by apply list_lookup_middle).
  by rewrite !(rd_fmap _ _ _ _ H).
Qed.

(** Ranges [i], [i + 1], ... of the two fields. *)
Lemma check_ranges_ok P l nR m : forall s,
  Forall (range_ok nR m) l -> zlen (P ++ l) <= INT_MAX -> 0 <= s -> s + zlen (rows_of l) < 2 ^ 63 ->
  check_ranges (length l) (P ++ l).*1 (P ++ l).*2 nR (zlen P) s = Ok (s + zlen (rows_of l)).
Proof.
  revert P. induction l as [|p l IH]; intros P s Hl Hn Hs Hsum; cbn [check_ranges length].
  { change (zlen (rows_of [])) with 0. by rewrite Z.add_0_r. }
  apply Forall_cons in Hl as [(H1 & H2 & _) Hl]. destruct (rd_pair P l p) as [-> ->]. cbn [mbind res_bind]. rewrite rows_of_cons, zlen_app, zlen_seqZ in * by lia.
  pose proof (zlen_nonneg (rows_of l)). pose proof (zlen_nonneg P). pose proof (zlen_nonneg l). rewrite zlen_app, zlen_cons in Hn.
  unfold go_BYE_if. replace ((p.1 <? 0) || (nR <? p.1)) with false by lia. replace ((p.2 <? 0) || (nR <? p.2)) with false by lia.
  replace (p.2 <=? p.1) with false by lia. cbn [mbind res_bind]. rewrite !add_to_Ok by (unfold inS, INT_MAX in *; lia).
  cbn [mbind res_bind]. specialize (IH (P ++ [p]) (s + (p.2 - p.1))). rewrite <- (assoc_L (++)), zlen_snoc in IH. cbn [app] in IH.
  rewrite IH; [f_equal; lia|done| |lia|lia]. rewrite zlen_app, zlen_cons. lia.
Qed.

Lemma copy_indexes_ok src n : forall j out rest, 0 <= j -> j + Z.of_nat n <= zlen src -> (n <= length rest)%nat ->
  copy_indexes n src j (out ++ rest) (zlen out) = Ok (out ++ (row_of src <$> seqZ j (Z.of_nat n)) ++ drop n rest).
Proof.
  induction n as [|n IH]; intros j out rest Hj Hn Hr; cbn [copy_indexes]; [done|].
  rewrite row_of_rd by lia. cbn [mbind res_bind]. destruct rest as [|z rest]; [cbn in Hr; lia|]. rewrite wr_middle. cbn [mbind res_bind].
  specialize (IH (j + 1) (out ++ [row_of src j]) rest). rewrite zlen_snoc, <- !(assoc_L (++)) in IH. cbn [app length] in *.
  rewrite IH by lia. rewrite (seqZ_cons j) by lia.
  by replace (Z.pred (Z.of_nat (Datatypes.S n))) with (Z.of_nat n) by lia.
Qed.

Lemma list_indexes_ok src nR P l : forall out rest,
  Forall (range_ok nR (zlen src)) l -> zlen (P ++ l) <= INT_MAX -> zlen rest = zlen (rows_of l) ->
  list_indexes (length l) src (P ++ l).*1 (P ++ l).*2 (zlen P) (out ++ rest) (zlen out) =
    Ok (out ++ (row_of src <$> rows_of l)).
Proof.
  revert P. induction l as [|p l IH]; intros P out rest Hl Hn Hr; cbn [list_indexes length].
  { destruct rest; [done|]. change (zlen (rows_of [])) with 0 in Hr. rewrite zlen_cons in Hr. pose proof (zlen_nonneg rest). lia. }
  apply Forall_cons in Hl as [(H1 & H2 & H3) Hl]. destruct (rd_pair P l p) as [-> ->]. cbn [mbind res_bind]. rewrite rows_of_cons, zlen_app, zlen_seqZ in Hr by lia.
  pose proof (zlen_nonneg (rows_of l)). pose proof (zlen_nonneg P). pose proof (zlen_nonneg l). rewrite zlen_app, zlen_cons in Hn.
  assert (Z.to_nat (p.2 - p.1) <= length rest)%nat as Hle by (unfold zlen in *; lia).
  rewrite copy_indexes_ok by lia. cbn [mbind res_bind]. rewrite add_to_Ok by (unfold inS, INT_MAX in *; lia). cbn [mbind res_bind].
  rewrite Z2Nat.id by lia. set (f := row_of src <$> seqZ p.1 (p.2 - p.1)).
  assert (zlen out + (p.2 - p.1) = zlen (out ++ f)) as -> by (unfold f; rewrite zlen_app, zlen_fmap, zlen_seqZ; lia).
  specialize (IH (P ++ [p]) (out ++ f) (drop (Z.to_nat (p.2 - p.1)) rest)). rewrite <- !(assoc_L (++)), zlen_snoc in IH. cbn [app] in IH.
  rewrite IH; [by rewrite rows_of_cons, fmap_app|done|rewrite zlen_app, zlen_cons; lia|unfold zlen in *; rewrite length_drop; lia].
Qed.

Lemma check_ranges_all l nR m : Forall (range_ok nR m) l -> zlen l <= INT_MAX -> zlen (rows_of l) < 2 ^ 63 ->
  check_ranges (length l) l.*1 l.*2 nR 0 0 = Ok (zlen (rows_of l)).
Proof. intros Hl Hn Hs. exact (check_ranges_ok [] l nR m 0 Hl Hn (Z.le_refl 0) Hs). Qed.
Lemma list_indexes_all src nR l : Forall (range_ok nR (zlen src)) l -> zlen l <= INT_MAX ->
  list_indexes (length l) src l.*1 l.*2 0 (replicate (Z.to_nat (zlen (rows_of l))) 0) 0 = Ok (row_of src <$> rows_of l).
Proof.
  intros Hl Hn. apply (list_indexes_ok src nR [] l [] _ Hl Hn). unfold zlen. rewrite length_replicate. lia.
Qed.

(** *** Marking rows *)

Lemma row_of_zset d i v k : 0 <= i < zlen d -> row_of (zset d i v) k = if decide (k = i) then v else row_of d k.
Proof.
  intros Hi. unfold row_of. case_decide as Hk.
  - subst. by rewrite zlookup_zset_eq by done.
  - by rewrite zlookup_zset_ne by lia.
Qed.

Record marks_rows (set : list Z -> Z -> res (list Z)) (m : Z) (Inv : list Z -> Prop) (mark : list Z -> Z -> bool) : Prop := {
  mark_one d i : Inv d -> 0 <= i < m -> exists d', set d i = Ok d' /\ Inv d' /\
    forall k, 0 <= k < m -> mark d' k = mark d k || bool_decide (k = i)
}.

Lemma set_byte_marks m : marks_rows set_byte m (fun d => zlen d = m /\ Forall boolean d) (fun d k => row_of d k =? 1).
Proof.
  split. intros d i [Hl Hd] Hi. unfold set_byte. rewrite wr_Ok by lia. eexists. split; [done|]. split; [split|].
  - by rewrite zlen_zset.
  - apply Forall_insert; [done|by right].
  - intros k Hk. rewrite row_of_zset by lia. case_decide as E; [by rewrite bool_decide_eq_true_2, orb_true_r|].
    by rewrite bool_decide_eq_false_2, orb_false_r.
Qed.

Lemma set_bit_marks m sz : m < 2 ^ 29 -> (m + 7) / 8 <= sz -> marks_rows set_bit m (fun d => zlen d = sz) bit_row.
Proof.
  intros Hm Hsz. split. intros d i Hl Hi. unfold set_bit. rewrite wrapU_small by (unfold inU; lia).
  rewrite Z.shiftr_div_pow2, !Z.shiftl_mul_pow2 by lia. change (2 ^ 3) with 8.
  pose proof (Z.div_mod i 8 ltac:(lia)). pose proof (Z.mod_pos_bound i 8 ltac:(lia)).
  replace (i - i / 8 * 8) with (i mod 8) by lia. rewrite wrapS_small by (unfold inS; lia). rewrite decide_True by lia.
  pose proof (Z.div_le_mono (i + 8) (m + 7) 8 ltac:(lia) ltac:(lia)) as Hw. replace (i + 8) with (i + 1 * 8) in Hw by lia.
  rewrite Z.div_add in Hw by lia. pose proof (Z.div_pos i 8 ltac:(lia) ltac:(lia)).
  rewrite row_of_rd by lia. cbn [mbind res_bind]. rewrite wr_Ok, (Z.shiftl_mul_pow2 1), Z.mul_1_l by lia.
  assert (0 <= 2 ^ (i mod 8) <= 2 ^ 7) as Hp by (split; [lia|apply Z.pow_le_mono_r; lia]). rewrite wrapU_small by (unfold inU; lia).
  eexists. split; [done|]. split; [by rewrite zlen_zset|]. intros k Hk. unfold bit_row. rewrite row_of_zset by lia.
  pose proof (Z.div_mod k 8 ltac:(lia)). pose proof (Z.mod_pos_bound k 8 ltac:(lia)). case_decide as E.
  - rewrite Z.lor_spec, E, Z.pow2_bits_eqb by lia. f_equal. apply eq_bool_prop_intro. rewrite bool_decide_spec, Is_true_true, Z.eqb_eq. lia.
  - rewrite (bool_decide_eq_false_2 (k = i)), orb_false_r; [done|]. intros ->. done.
Qed.

Lemma set_rows_ok set m Inv mark : marks_rows set m Inv mark -> forall l P d, Inv d -> Forall (fun i => 0 <= i < m) l ->
  exists d', set_rows set (length l) (P ++ l) (zlen P) d = Ok d' /\ Inv d' /\
    forall k, 0 <= k < m -> mark d' k = mark d k || bool_decide (k ∈ l).
Proof.
  intros [Hset]. induction l as [|i l IH]; intros P d Hd Hl; cbn [set_rows length].
  { exists d. split_and!; [done..|]. intros k Hk. rewrite (bool_decide_eq_false_2 (k ∈ [])), orb_false_r; [done|apply not_elem_of_nil]. }
  apply Forall_cons in Hl as [Hi Hl]. rewrite rd_middle. cbn [mbind res_bind].
  destruct (Hset d i Hd Hi) as (d1 & -> & H1 & M1). cbn [mbind res_bind].
  destruct (IH (P ++ [i]) d1 H1 Hl) as (d2 & E & H2 & M2). rewrite <- (assoc_L (++)), zlen_snoc in E.
  exists d2. split_and!; [done..|]. intros k Hk. rewrite M2, M1, <- orb_assoc by done. f_equal.
  apply eq_bool_prop_intro. rewrite orb_True, !bool_decide_spec. by rewrite elem_of_cons.
Qed.

(** *** The verb *)

(** A table of ranges of rows of a table of [nR] rows, and the field [src] of
    positions that takes the rows of the ranges to rows of the new field. *)
Record ranges_table (rng_lb rng_ub : operand) (l : list (Z * Z)) (src : operand) (nR : Z) : Prop := {
  rt_lb : f_nn rng_lb = None /\ f_type rng_lb = I8 /\ f_X rng_lb = l.*1;
  rt_ub : f_nn rng_ub = None /\ f_type rng_ub = I8 /\ f_X rng_ub = l.*2;
  rt_src : f_nn src = None /\ (f_type src = I4 \/ f_type src = I8) /\ zlen (f_X src) = nR;
  rt_ranges : l <> [] /\ Forall (range_ok nR nR) l;
  rt_size : 0 < nR < 2 ^ 29 /\ zlen (rows_of l) < 2 ^ 29;
  rt_rows : Forall (fun j => 0 <= row_of (f_X src) j < nR) (rows_of l)
}.

Definition row_set (str_dst_fldtype : string) (dst : list Z) (k : Z) : bool :=
  if strcmp_eq str_dst_fldtype "B" then bit_row dst k else row_of dst k =? 1.

Lemma rows_of_length l n m : Forall (range_ok n m) l -> zlen l <= zlen (rows_of l).
Proof.
  induction l as [|p l IH]; [done|]. intros [(Hp & _) Hl]%Forall_cons. rewrite rows_of_cons, zlen_app, zlen_cons, zlen_seqZ by lia.
  specialize (IH Hl). lia.
Qed.

Lemma bound_field_ok b : f_nn b = None -> f_type b = I8 -> bound_field b = Ok tt.
Proof. intros Hn Ht. unfold bound_field. by rewrite Hn, Ht, !bool_decide_eq_false_2 by (intros H; by apply H). Qed.

Lemma row_of_zeros n k : row_of (replicate n 0) k = 0.
Proof.
  unfold row_of. destruct (replicate n 0 !z k) as [x|] eqn:E; [|done].
  assert (Forall (fun x => x = 0) (replicate n 0)) as H by by apply Forall_replicate. exact (Forall_zlookup _ _ _ _ H E).
Qed.

(** The new file of either type, with what holds of it. *)
Lemma condition_file_ok nR str : 0 < nR < 2 ^ 29 -> str = "B"%string \/ str = "I1"%string ->
  exists filesz set Inv, condition_file nR str = Ok (filesz, set) /\ mk_size filesz = Ok tt /\
    marks_rows set nR Inv (row_set str) /\ Inv (replicate (Z.to_nat filesz) 0) /\
    (forall k, row_set str (replicate (Z.to_nat filesz) 0) k = false) /\
    (str = "I1"%string -> forall d, Inv d -> zlen d = nR /\ Forall boolean d).
Proof.
  intros HnR [->| ->]; unfold condition_file, row_set; cbn [strcmp_eq].
  - destruct (get_file_size_ok nR HnR) as (sz & Hsz & Hb). rewrite Hsz. exists sz, set_bit, (fun d => zlen d = sz).
    pose proof (Z.div_str_pos (nR + 7) 8 ltac:(lia)).
    split_and!; [done|apply mk_size_ok; lia|apply set_bit_marks; lia| | |done].
    + unfold zlen. rewrite length_replicate. lia.
    + intros k. unfold bit_row. change (strcmp_eq "B" "B") with true. by rewrite row_of_zeros, Z.bits_0.
  - exists nR, set_byte, (fun d => zlen d = nR /\ Forall boolean d).
    split_and!; [done|apply mk_size_ok; lia|apply set_byte_marks| | | |done].
    + unfold zlen. rewrite length_replicate. lia.
    + apply Forall_replicate. by left.
    + intros k. change (strcmp_eq "I1" "B") with false. by rewrite row_of_zeros.
Qed.

Lemma range_to_cfld_run rng_lb rng_ub l src nR str : ranges_table rng_lb rng_ub l src nR -> str = "B"%string \/ str = "I1"%string ->
  exists out, range_to_cfld rng_lb rng_ub (zlen l) src nR str = Ok (out, zlen (rows_of l)) /\
    (forall k, 0 <= k < nR -> row_set str out k = bool_decide (k ∈ row_of (f_X src) <$> rows_of l)) /\
    (str = "I1"%string -> zlen out = nR /\ Forall boolean out).
Proof.
  intros [(Hl1 & Hl2 & Hl3) (Hu1 & Hu2 & Hu3) (Hs1 & Hs2 & Hs3) [Hne Hl] [HnR Hsz] Hrows] Hstr. unfold range_to_cfld.
  destruct (condition_file_ok nR str HnR Hstr) as (filesz & set & Inv & -> & Hmk & Hset & H0 & Hz & HI1).
  cbn [mbind res_bind]. rewrite Hmk, !bound_field_ok, Hs1, Hl3, Hu3 by done. cbn [mbind res_bind].
  rewrite (bool_decide_eq_false_2 (@None (list Z) <> None)) by (intros H; by apply H). cbn [go_BYE_if mbind res_bind].
  pose proof (rows_of_length l _ _ Hl) as Hlen. assert (0 < zlen l) as Hpos by (destruct l; [done|rewrite zlen_cons; pose proof (zlen_nonneg l); lia]).
  replace (Z.to_nat (zlen l)) with (length l) by (unfold zlen; lia).
  rewrite (check_ranges_all l nR nR) by (unfold INT_MAX; done || lia). cbn [mbind res_bind]. rewrite mk_size_ok by lia.
  rewrite (bool_decide_eq_true_2 _ Hs2). cbn [negb go_BYE_if mbind res_bind].
  rewrite (list_indexes_all (f_X src) nR l) by (rewrite ?Hs3; unfold INT_MAX; done || lia). cbn [mbind res_bind].
  destruct (set_rows_ok set nR Inv (row_set str) Hset (row_of (f_X src) <$> rows_of l) [] _ H0) as (out & E & HInv & HM); [by apply Forall_fmap|].
  cbn [app] in E. rewrite length_fmap in E. replace (Z.to_nat (zlen (rows_of l))) with (length (rows_of l)) by (unfold zlen; lia).
  change (zlen []) with 0 in E. rewrite E. cbn [mbind res_bind]. exists out. split_and!; [done| |intros HI; by apply HI1].
  intros k Hk. by rewrite HM, Hz by done.
Qed.

(** ** The two verbs together *)

Lemma zlen_filter_fmap {A B} (f : A -> B) (P : B -> Prop) `{!forall y, Decision (P y)} (l : list A) :
  zlen (filter P (f <$> l)) = zlen (filter (fun x => P (f x)) l).
Proof.
  induction l as [|x l IH]; [done|]. rewrite fmap_cons, !filter_cons. case_decide; [|done]. by rewrite !zlen_cons, IH.
Qed.

Section roundtrip.
Context (X : list Z) (l : list (Z * Z)) (Hl : ranges_from X 0 l).

Lemma rows_of_ranges k x : X !z k = Some x -> k ∈ rows_of l <-> x <> 0.
Proof. intros Hx. rewrite elem_rows_of. symmetry. apply (rf_row _ _ _ Hl); [|done]. apply zlookup_Some_range in Hx. lia. Qed.

Lemma rows_of_bounds k : k ∈ rows_of l -> 0 <= k < zlen X.
Proof. intros (lb & ub & Hin & Hk)%elem_rows_of. destruct (rf_in _ _ _ Hl _ _ Hin). lia. Qed.

Lemma rows_of_NoDup : NoDup (rows_of l).
Proof.
  destruct Hl as [_ _ Hsep]. clear Hl. induction Hsep as [|p l' _ IH Hp]; [constructor|].
  rewrite rows_of_cons. apply NoDup_app. split_and!; [apply NoDup_seqZ| |done].
  intros k Hk%elem_of_seqZ (lb & ub & Hin & Hk')%elem_rows_of. rewrite Forall_forall in Hp. specialize (Hp _ Hin). cbn in Hp. lia.
Qed.

Lemma rows_of_count : zlen (rows_of l) = zlen (filter (fun x => x <> 0) X).
Proof.
  assert (X = row_of X <$> seqZ 0 (zlen X)) as HX.
  { pose proof (zlen_nonneg X). apply zlookup_ext; [rewrite zlen_fmap, zlen_seqZ; lia|]. intros k Hk.
    rewrite (zlookup_to_nat (_ <$> _)), list_lookup_fmap, lookup_seqZ_lt by lia. destruct (zlookup_is_Some X k Hk) as [x Hx].
    cbn [fmap option_fmap option_map]. replace (0 + Z.of_nat (Z.to_nat k)) with k by lia. unfold row_of. by rewrite Hx. }
  rewrite HX at 1. rewrite zlen_filter_fmap. unfold zlen. f_equal. apply Permutation_length.
  apply NoDup_Permutation; [apply rows_of_NoDup|apply NoDup_filter, NoDup_seqZ|].
  intros k. rewrite list_elem_of_filter, elem_of_seqZ. change (Z.of_nat (length X)) with (zlen X). split.
  - intros Hk. pose proof (rows_of_bounds k Hk) as Hb. destruct (zlookup_is_Some X k Hb) as [x Hx]. split; [|lia].
    unfold row_of. rewrite Hx. by apply (rows_of_ranges k x Hx).
  - intros [Hk0 Hb]. destruct (zlookup_is_Some X k) as [x Hx]; [lia|]. apply (rows_of_ranges k x Hx).
    unfold row_of in Hk0. by rewrite Hx in Hk0.
Qed.

Lemma ranges_valid n : zlen X = n -> Forall (range_ok n n) l.
Proof. intros <-. apply Forall_forall. intros [lb ub] Hin. destruct (rf_in _ _ _ Hl _ _ Hin). unfold range_ok. cbn. lia. Qed.
End roundtrip.

(** Claim C19. A condition field becomes a table of ranges and the table a
    condition field again.  The ranges that [cfld_to_range] writes are not empty
    and inside the table, in ascending order with a row in between that is not
    in the condition, and together they have the rows of the condition and no
    others; when no row is in the condition there is no table.  Through a field
    of positions that takes each row to itself, [range_to_cfld] makes from them
    a field, of bytes or of bits, in which exactly the rows of the condition are
    set, and counts these rows; the bytes are those of the condition field, if
    it has zeros and ones only. *)
Theorem cfld_range_roundtrip (src pos : operand) (nR : Z) (str : string) :
  f_nn src = None -> f_type src = I1 -> zlen (f_X src) = nR -> 0 < nR < 2 ^ 29 ->
  f_nn pos = None -> f_type pos = I4 \/ f_type pos = I8 -> f_X pos = seqZ 0 nR -> str = "B"%string \/ str = "I1"%string ->
  exists r, cfld_to_range src nR = Ok r /\
    match r with
    | None => Forall (fun x => x = 0) (f_X src)
    | Some (lb, ub) =>
        ranges_from (f_X src) 0 (zip lb ub) /\ zlen lb = zlen ub /\
        exists out, range_to_cfld (plain_field I8 lb) (plain_field I8 ub) (zlen lb) pos nR str =
            Ok (out, zlen (filter (fun x => x <> 0) (f_X src))) /\
          (forall k x, f_X src !z k = Some x -> row_set str out k = negb (x =? 0)) /\
          (str = "I1"%string -> Forall boolean (f_X src) -> out = f_X src)
    end.
Proof.
  intros Hnn Ht Hlen HnR Hpn Hpt Hpos Hstr. destruct (cfld_to_range_run src nR Hnn Ht Hlen HnR) as (l & Hl & ->).
  set (X := f_X src) in *. eexists. split; [done|]. destruct (decide (l = [])) as [->|Hne].
  { apply Forall_forall. intros x (i & Hi)%list_elem_of_lookup. destruct (decide (x = 0)) as [|Hx]; [done|exfalso].
    rewrite <- zlookup_nat in Hi. 
    apply (rf_row _ _ _ Hl (Z.of_nat i) x ltac:(lia) Hi) in Hx as (lb & ub & []%elem_of_nil & _). }
  rewrite zip_fst_snd. split; [done|]. split; [by rewrite !zlen_fmap|].
  assert (row_of (f_X pos) <$> rows_of l = rows_of l) as Hid.
  { rewrite <- (list_fmap_id (rows_of l)) at 2. apply list_fmap_ext. intros i k Hi%list_elem_of_lookup_2.
    apply (rows_of_bounds X l Hl) in Hi. unfold row_of. rewrite Hpos, zlookup_to_nat, lookup_seqZ_lt by lia. cbn. lia. }
  pose proof (rows_of_count X l Hl) as Hcount. pose proof (rows_of_bounds X l Hl) as Hb.
  assert (zlen (rows_of l) <= nR) as Hsz.
  { rewrite Hcount, <- Hlen. unfold zlen. pose proof (length_filter (fun x => x <> 0) X). lia. }
  destruct (range_to_cfld_run (plain_field I8 l.*1) (plain_field I8 l.*2) l pos nR str) as (out & E & Hset & HI1); [|done|].
  { split; cbn; [done..| | | |].
    - split_and!; [done..|]. rewrite Hpos. apply zlen_seqZ. lia.
    - split; [done|]. by apply (ranges_valid X).
    - lia.
    - apply (Forall_fmap (row_of (f_X pos)) (fun j => 0 <= j < nR)). rewrite Hid. apply Forall_forall. intros k Hk%Hb. lia. }
  exists out. rewrite zlen_fmap, <- Hcount. split; [exact E|]. rewrite Hid in Hset.
  assert (forall k x, X !z k = Some x -> row_set str out k = negb (x =? 0)) as Hrow.
  { intros k x Hx. pose proof (zlookup_Some_range _ _ _ Hx). rewrite Hset by lia. apply eq_bool_prop_intro.
    rewrite bool_decide_spec, (rows_of_ranges X l Hl k x Hx), negb_True, Is_true_true, Z.eqb_eq. done. }
  split; [exact Hrow|]. intros Hs HX. destruct (HI1 Hs) as [Ho Hbo]. apply zlookup_ext; [lia|]. intros k Hk.
  destruct (zlookup_is_Some X k) as [x Hx]; [lia|]. destruct (zlookup_is_Some out k Hk) as [y Hy]. rewrite Hx, Hy. f_equal.
  specialize (Hrow k x Hx). subst str. unfold row_set, row_of in Hrow. cbn in Hrow. rewrite Hy in Hrow. cbn in Hrow.
  destruct (Forall_zlookup _ _ _ _ HX Hx) as [->| ->], (Forall_zlookup _ _ _ _ Hbo Hy) as [->| ->]; done.
Qed.

Lemma cfld_range_roundtrip_witness :
  exists r, cfld_to_range (plain_field I1 [0; 1; 1; 0; 1]) 5 = Ok r /\
    match r with
    | None => False
    | Some (lb, ub) => exists out, range_to_cfld (plain_field I8 lb) (plain_field I8 ub) (zlen lb) (plain_field I4 [0; 1; 2; 3; 4]) 5 "I1" = Ok (out, 3) /\
        out = [0; 1; 1; 0; 1]
    end.
Proof.
  destruct (cfld_range_roundtrip (plain_field I1 [0; 1; 1; 0; 1]) (plain_field I4 [0; 1; 2; 3; 4]) 5 "I1") as (r & E & H);
    [done|done|done|lia|done|by left|done|by right|].
  exists r. split; [exact E|]. destruct r as [[lb ub]|].
  - destruct H as (_ & _ & out & Ho & _ & Hout). exists out. split; [exact Ho|]. apply Hout; [done|].
    repeat constructor; (by left) || by right.
  - cbn in H. by apply Forall_cons in H as [_ [H _]%Forall_cons].
Defined.

(** ** [num_in_range] *)

(** The cell [cnt] of one bin: the values from [I4ptr] to the first one above
    [ubval]; those below [lbval] are passed over. *)
Fixpoint count_bin (n : nat) (inptr : list Z) (I4ptr lbval ubval cnt : Z) : res Z :=
  match n with
  | O => Ok cnt
  | Datatypes.S n =>
      I4val ← rd inptr I4ptr;
      if I4val <? lbval then count_bin n inptr (I4ptr + 1) lbval ubval cnt
      else if ubval <? I4val then Ok cnt
      else count_bin n inptr (I4ptr + 1) lbval ubval (cnt + 1)
  end.

(** The loop over the bins of a field that is sorted; [offsets] begins with
    what [malloc] returns. *)
Fixpoint sorted_bins (n : nat) (inptr : list Z) (nR1 : Z) (lbptr ubptr : list Z) (tid : Z) (cntptr offsets : list Z) (chk_nR1 : Z)
    : res (list Z * Z) :=
  match n with
  | O => Ok (cntptr, chk_nR1)
  | Datatypes.S n =>
      lbval ← rd lbptr tid;
      ubval ← rd ubptr tid;
      offset ← (if 0 <? tid then o ← rd offsets (tid - 1); Ok (if 0 <? o then o else 0) else Ok 0);
      cnt ← count_bin (Z.to_nat (nR1 - offset)) inptr offset lbval ubval 0;
      cntptr ← wr cntptr tid (wrapS 32 cnt);
      offsets ← wr offsets tid (offset + cnt);
      sorted_bins n inptr nR1 lbptr ubptr (tid + 1) cntptr offsets (chk_nR1 + cnt)
  end.

(** The first bin that a value belongs to, when the field is not sorted. *)
Fixpoint count_in_bins (n : nat) (I4val : Z) (lbptr ubptr : list Z) (j : Z) (cntptr : list Z) (chk_nR1 : Z) : res (list Z * Z) :=
  match n with
  | O => Ok (cntptr, chk_nR1)
  | Datatypes.S n =>
      lbval ← rd lbptr j;
      ubval ← rd ubptr j;
      if (lbval <=? I4val) && (I4val <=? ubval) then
        c ← rd cntptr j;
        c ← add_to 32 c 1;
        cntptr ← wr cntptr j c;
        Ok (cntptr, chk_nR1 + 1)
      else count_in_bins n I4val lbptr ubptr (j + 1) cntptr chk_nR1
  end.
Fixpoint unsorted_bins (n : nat) (inptr : list Z) (lbptr ubptr : list Z) (nR2 i : Z) (cntptr : list Z) (chk_nR1 : Z) : res (list Z * Z) :=
  match n with
  | O => Ok (cntptr, chk_nR1)
  | Datatypes.S n =>
      I4val ← rd inptr i;
      '(cntptr, chk_nR1) ← count_in_bins (Z.to_nat nR2) I4val lbptr ubptr 0 cntptr chk_nR1;
      unsorted_bins n inptr lbptr ubptr nR2 (i + 1) cntptr chk_nR1
  end.

Definition bin_field (b : operand) : res unit :=
  _ ← go_BYE_if (bool_decide (f_nn b <> None));
  go_BYE_if (bool_decide (f_type b <> I4)).

(** The new field and the number that is reported; [fresh] is what [malloc]
    returns for [offsets]. *)
Definition num_in_range (f1 : operand) (nR1 : Z) (lb ub : operand) (nR2 : Z) (fresh : list Z) : res (list Z * Z) :=
  _ ← bin_field f1;
  _ ← go_BYE_if (INT_MAX <? nR2);
  _ ← bin_field lb;
  _ ← bin_field ub;
  _ ← mk_size (nR2 * 4);
  if decide (f_sort f1 = ascending) then
    sorted_bins (Z.to_nat nR2) (f_X f1) nR1 (f_X lb) (f_X ub) 0 (replicate (Z.to_nat nR2) INT_MIN) fresh 0
  else unsorted_bins (Z.to_nat nR1) (f_X f1) (f_X lb) (f_X ub) nR2 0 (replicate (Z.to_nat nR2) 0) 0.

Definition sorted_field (X : list Z) : operand := {| f_type := I4; f_sort := ascending; f_X := X; f_nn := None |}.

(** Bins that have values in common are counted differently. *)
Example num_in_range_overlap :
  num_in_range (sorted_field [0; 0; 0; 1; 2; 3; 4; 5; 6]) 9 (plain_field I4 [1; 3]) (plain_field I4 [5; 8]) 2 [0; 0] = Ok ([5; 4], 9) /\
  num_in_range (plain_field I4 [0; 0; 0; 1; 2; 3; 4; 5; 6]) 9 (plain_field I4 [1; 3]) (plain_field I4 [5; 8]) 2 [0; 0] = Ok ([5; 1], 6).
Proof. vm_compute. done. Qed.

(** *** What the loops count *)

Definition in_bin (p : Z * Z) (v : Z) : Prop := p.1 <= v <= p.2.
#[export] Instance in_bin_dec p v : Decision (in_bin p v).
Proof. unfold in_bin. apply _. Defined.

Definition in_count (X : list Z) (p : Z * Z) : Z := zlen (filter (in_bin p) X).
Definition sum_of (l : list Z) : Z := foldr Z.add 0 l.

(** The bins are in ascending order and have no value in common. *)
Abbreviation apart := (StronglySorted (fun p q : Z * Z => p.2 < q.1)).

Lemma in_count_bounds X p : 0 <= in_count X p <= zlen X.
Proof. unfold in_count, zlen. pose proof (length_filter (in_bin p) X). lia. Qed.

Lemma in_count_app X Y p : in_count (X ++ Y) p = in_count X p + in_count Y p.
Proof. unfold in_count. by rewrite filter_app, zlen_app. Qed.

Lemma in_count_none X p : Forall (fun v => v < p.1 \/ p.2 < v) X -> in_count X p = 0.
Proof.
  unfold in_count. induction 1 as [|v X Hv HX IH]; [done|]. rewrite filter_cons_False; [done|]. unfold in_bin. lia.
Qed.

Lemma count_bin_ok p suf : forall pre cnt, StronglySorted Z.le suf ->
  count_bin (length suf) (pre ++ suf) (zlen pre) p.1 p.2 cnt = Ok (cnt + in_count suf p).
Proof.
  induction suf as [|v suf IH]; intros pre cnt Hs; cbn [count_bin length].
  { f_equal. change (in_count [] p) with 0. lia. }
  apply StronglySorted_inv in Hs as [Hs Hv]. rewrite rd_middle. cbn [mbind res_bind].
  specialize (fun c => IH (pre ++ [v]) c Hs). rewrite <- (assoc_L (++)), zlen_snoc in IH. cbn [app] in IH.
  unfold in_count in *. destruct (Z.ltb_spec v p.1); [rewrite filter_cons_False; [apply IH|unfold in_bin; lia]|].
  destruct (Z.ltb_spec p.2 v) as [Hub|].
  - assert (in_count (v :: suf) p = 0) as H0.
    { apply in_count_none. constructor; [lia|]. eapply Forall_impl; [exact Hv|]. cbn. lia. }
    unfold in_count in H0. rewrite H0. f_equal. lia.
  - rewrite filter_cons_True, zlen_cons, IH by (unfold in_bin; lia). f_equal. lia.
Qed.

(** As many values as a bin has are at the beginning not above the bin. *)
Lemma counted_below p X : StronglySorted Z.le X -> Forall (fun v => v <= p.2) (take (Z.to_nat (in_count X p)) X).
Proof.
  unfold in_count, zlen. rewrite Nat2Z.id. induction X as [|v X IH]; intros Hs; [done|].
  apply StronglySorted_inv in Hs as [Hs Hv]. specialize (IH Hs). rewrite filter_cons. case_decide as Hin.
  { cbn [length take]. constructor; [by destruct Hin|done]. }
  destruct (length (filter (in_bin p) X)) as [|m] eqn:E; [constructor|]. cbn [take].
  assert (exists x, x ∈ X /\ in_bin p x) as (x & Hx & Hb).
  { destruct (filter (in_bin p) X) as [|x F] eqn:EF; [done|]. exists x.
    assert (x ∈ filter (in_bin p) X) as [? ?]%list_elem_of_filter by (rewrite EF; by left). done. }
  rewrite Forall_forall in Hv. specialize (Hv x Hx). unfold in_bin in *. constructor; [lia|].
  apply Forall_forall. intros y Hy. rewrite Forall_forall in IH. apply IH.
  apply elem_of_take in Hy as (i & Hi & Him). apply elem_of_take. exists i. split; [done|lia].
Qed.

Section counting.
Context (X : list Z) (HX : zlen X <= INT_MAX).

Lemma bin_from_offset p o : StronglySorted Z.le X -> 0 <= o <= zlen X -> Forall (fun v => v < p.1) (take (Z.to_nat o) X) ->
  count_bin (Z.to_nat (zlen X - o)) X o p.1 p.2 0 = Ok (in_count X p) /\ o + in_count X p <= zlen X /\
  forall b, p.2 < b -> Forall (fun v => v < b) (take (Z.to_nat o) X) -> Forall (fun v => v < b) (take (Z.to_nat (o + in_count X p)) X).
Proof.
  intros Hs Ho Hb. set (pre := take (Z.to_nat o) X) in *. set (suf := drop (Z.to_nat o) X).
  assert (X = pre ++ suf) as EX by (symmetry; apply take_drop).
  assert (zlen pre = o) as Hpre by (unfold pre, zlen in *; rewrite length_take; lia).
  assert (in_count X p = in_count suf p) as Hc.
  { rewrite EX, in_count_app, in_count_none; [lia|]. eapply Forall_impl; [exact Hb|]. cbn. lia. }
  assert (StronglySorted Z.le suf) as Hsuf by (rewrite EX in Hs; by apply StronglySorted_app in Hs as (_ & _ & ?)).
  assert (zlen X = o + zlen suf) as Hlen by (rewrite EX, zlen_app; lia).
  pose proof (in_count_bounds suf p). rewrite Hc. split_and!; [|lia|].
  - replace (Z.to_nat (zlen X - o)) with (length suf) by (unfold zlen in *; lia). rewrite EX at 1. rewrite <- Hpre.
    rewrite count_bin_ok by done. f_equal.
  - intros b Hpb Hpre_b. rewrite EX, take_app, Z2Nat.inj_add by lia.
    replace (length pre) with (Z.to_nat o) by (unfold zlen in *; lia).
    rewrite take_ge by (unfold zlen in *; lia). apply Forall_app. split; [done|].
    replace (Z.to_nat o + Z.to_nat (in_count suf p) - Z.to_nat o)%nat with (Z.to_nat (in_count suf p)) by lia.
    eapply Forall_impl; [apply counted_below, Hsuf|]. cbn. lia.
Qed.

Lemma sorted_bins_ok l : StronglySorted Z.le X -> apart l -> forall P cs rest offsets o chk,
  zlen cs = zlen P -> length rest = length l -> zlen offsets = zlen (P ++ l) ->
  (P = [] /\ o = 0) \/ offsets !z (zlen P - 1) = Some o -> 0 <= o <= zlen X ->
  Forall (fun q => Forall (fun v => v < q.1) (take (Z.to_nat o) X)) l ->
  sorted_bins (length l) X (zlen X) (P ++ l).*1 (P ++ l).*2 (zlen P) (cs ++ rest) offsets chk =
    Ok (cs ++ (in_count X <$> l), chk + sum_of (in_count X <$> l)).
Proof.
  intros Hs. induction 1 as [|p l Hl IH Hp]; intros P cs rest offsets o chk Hcs Hrest Hoff Ho Hob Hb; cbn [sorted_bins length].
  { destruct rest; [|done]. by rewrite Z.add_0_r. }
  destruct (rd_pair P l p) as [-> ->]. cbn [mbind res_bind]. apply Forall_cons in Hb as [Hbp Hbl].
  assert ((if 0 <? zlen P then o ← rd offsets (zlen P - 1); Ok (if 0 <? o then o else 0) else Ok 0) = Ok o) as ->.
  { destruct Ho as [[-> ->]|Ho]; [done|]. pose proof (zlookup_Some_range _ _ _ Ho). rewrite (proj2 (Z.ltb_lt _ _)) by lia.
    apply rd_Ok in Ho as ->. cbn. f_equal. destruct (Z.ltb_spec 0 o); lia. }
  cbn [mbind res_bind]. destruct (bin_from_offset p o Hs Hob Hbp) as (-> & Hle & Hnext). cbn [mbind res_bind].
  pose proof (in_count_bounds X p). rewrite wrapS_small by (unfold inS, INT_MAX in *; lia).
  destruct rest as [|z rest]; [done|]. rewrite (wr_middle_at cs) by done. cbn [mbind res_bind].
  pose proof (zlen_nonneg P). pose proof (zlen_nonneg l). rewrite zlen_app, zlen_cons in Hoff.
  rewrite wr_Ok by lia. cbn [mbind res_bind]. specialize (IH (P ++ [p]) (cs ++ [in_count X p]) rest (zset offsets (zlen P) (o + in_count X p)) (o + in_count X p)).
  rewrite !zlen_snoc, <- !(assoc_L (++)) in IH. cbn [app] in IH. rewrite IH; clear IH.
  - f_equal. f_equal. cbn [fmap list_fmap sum_of foldr]. unfold sum_of. lia.
  - lia.
  - by injection Hrest.
  - rewrite zlen_zset, zlen_app, zlen_cons. lia.
  - right. rewrite Z.add_simpl_r. apply zlookup_zset_eq. lia.
  - lia.
  - apply Forall_forall. intros q Hq. rewrite Forall_forall in Hbl, Hp. apply Hnext; [by apply Hp|by apply Hbl].
Qed.

Lemma count_in_bins_ok Y v l : zlen Y < INT_MAX -> apart l -> forall P cs chk, zlen cs = zlen P ->
  count_in_bins (length l) v (P ++ l).*1 (P ++ l).*2 (zlen P) (cs ++ (in_count Y <$> l)) chk =
    Ok (cs ++ (in_count (Y ++ [v]) <$> l), chk + sum_of (in_count [v] <$> l)).
Proof.
  intros HY. induction 1 as [|p l Hl IH Hp]; intros P cs chk Hcs; cbn [count_in_bins length]; [by rewrite Z.add_0_r|].
  destruct (rd_pair P l p) as [-> ->]. cbn [mbind res_bind fmap list_fmap].
  assert (in_count [v] p = if (p.1 <=? v) && (v <=? p.2) then 1 else 0) as Hv.
  { unfold in_count. rewrite filter_cons, filter_nil. unfold in_bin. destruct (Z.leb_spec p.1 v), (Z.leb_spec v p.2); case_decide; (done || lia). }
  cbn [sum_of foldr]. rewrite (in_count_app Y [v] p), Hv. destruct ((p.1 <=? v) && (v <=? p.2)) eqn:E.
  - rewrite (rd_middle_at cs) by done. cbn [mbind res_bind]. pose proof (in_count_bounds Y p).
    rewrite add_to_Ok by (unfold inS, INT_MAX in *; lia). cbn [mbind res_bind]. rewrite (wr_middle_at cs) by done. cbn [mbind res_bind].
    assert (forall q, q ∈ l -> in_count [v] q = 0) as H0.
    { intros q Hq. rewrite Forall_forall in Hp. specialize (Hp q Hq). apply in_count_none. constructor; [lia|constructor]. }
    assert (in_count (Y ++ [v]) <$> l = in_count Y <$> l) as ->.
    { apply list_fmap_ext. intros i q Hi%list_elem_of_lookup_2. rewrite in_count_app, H0 by done. lia. }
    assert (sum_of (in_count [v] <$> l) = 0) as Hsum.
    { clear - H0. induction l as [|q l IH]; [done|]. cbn. unfold sum_of in IH.
      rewrite (H0 q) by (by left). apply IH. intros r Hr. apply H0. by right. }
    unfold sum_of in Hsum. rewrite Hsum. done.
  - specialize (IH (P ++ [p]) (cs ++ [in_count Y p]) chk). rewrite !zlen_snoc, <- !(assoc_L (++)) in IH. cbn [app] in IH.
    rewrite IH by lia. rewrite Z.add_0_r. f_equal.
Qed.
End counting.

Lemma sum_in_count_app Y Zs l : sum_of (in_count (Y ++ Zs) <$> l) = sum_of (in_count Y <$> l) + sum_of (in_count Zs <$> l).
Proof. induction l as [|p l IH]; [done|]. unfold sum_of in *. cbn. rewrite in_count_app. lia. Qed.

Lemma unsorted_bins_ok l nR2 : apart l -> zlen l = nR2 -> forall rest Y,
  zlen (Y ++ rest) <= INT_MAX ->
  unsorted_bins (length rest) (Y ++ rest) l.*1 l.*2 nR2 (zlen Y) (in_count Y <$> l) (sum_of (in_count Y <$> l)) =
    Ok (in_count (Y ++ rest) <$> l, sum_of (in_count (Y ++ rest) <$> l)).
Proof.
  intros Hl Hn. induction rest as [|v rest IH]; intros Y HY; cbn [unsorted_bins length]; [by rewrite app_nil_r|].
  rewrite rd_middle. cbn [mbind res_bind]. rewrite zlen_app, zlen_cons in HY. pose proof (zlen_nonneg rest).
  pose proof (count_in_bins_ok Y v l ltac:(lia) Hl [] [] (sum_of (in_count Y <$> l)) eq_refl) as E. cbn [app] in E.
  change (zlen (@nil (Z * Z))) with 0 in E. replace (Z.to_nat nR2) with (length l) by (unfold zlen in *; lia).
  rewrite E. cbn [mbind res_bind]. rewrite <- sum_in_count_app.
  specialize (IH (Y ++ [v])). rewrite zlen_snoc, <- !(assoc_L (++)) in IH. cbn [app] in IH. apply IH.
  rewrite zlen_app, zlen_cons. lia.
Qed.

(** A table of bins for the values of a field. *)
Record bins_table (lb ub : operand) (l : list (Z * Z)) : Prop := {
  bt_lb : f_nn lb = None /\ f_type lb = I4 /\ f_X lb = l.*1;
  bt_ub : f_nn ub = None /\ f_type ub = I4 /\ f_X ub = l.*2;
  bt_apart : apart l;
  bt_size : 0 < zlen l < 2 ^ 30
}.

Lemma bin_field_ok b : f_nn b = None -> f_type b = I4 -> bin_field b = Ok tt.
Proof. intros Hn Ht. unfold bin_field. by rewrite Hn, Ht, !bool_decide_eq_false_2 by (intros H; by apply H). Qed.

(** Claim C18. Counting the values of an I4 field by a table of bins, which are in
    ascending order and have no value in common: the new field has for every
    bin the number of values from its lower to its upper bound, both included,
    and the number that is reported is their sum.  The scan of a sorted field,
    which begins in each bin where the counts of the bins before leave it
    and does not look at the values again, finds the same as the search for the
    bin of every value of a field that is not known to be sorted. *)
Theorem num_in_range_correct (f1 lb ub : operand) (l : list (Z * Z)) (nR1 : Z) (fresh : list Z) :
  f_nn f1 = None -> f_type f1 = I4 -> zlen (f_X f1) = nR1 -> nR1 <= INT_MAX ->
  (f_sort f1 = ascending -> StronglySorted Z.le (f_X f1)) ->
  bins_table lb ub l -> zlen fresh = zlen l ->
  num_in_range f1 nR1 lb ub (zlen l) fresh =
    Ok ((fun p => zlen (filter (fun v => p.1 <= v <= p.2) (f_X f1))) <$> l, sum_of (in_count (f_X f1) <$> l)).
Proof.
  intros Hnn Ht <- Hmax Hsort [(Hl1 & Hl2 & Hl3) (Hu1 & Hu2 & Hu3) Hap Hsz] Hfresh. unfold num_in_range.
  rewrite !bin_field_ok by done. unfold go_BYE_if at 1. rewrite (proj2 (Z.ltb_ge _ _)) by (unfold INT_MAX; lia).
  cbn [mbind res_bind]. rewrite mk_size_ok, Hl3, Hu3 by lia. cbn [mbind res_bind].
  replace (Z.to_nat (zlen l)) with (length l) by (unfold zlen; lia).
  change (fun p : Z * Z => zlen (filter (fun v => p.1 <= v <= p.2) (f_X f1))) with (in_count (f_X f1)).
  case_decide as Hs.
  - pose proof (zlen_nonneg (f_X f1)).
    apply (sorted_bins_ok (f_X f1) Hmax l (Hsort Hs) Hap [] [] _ fresh 0 0); [done|apply length_replicate|done|by left|lia|].
    apply Forall_forall. intros q _. constructor.
  - assert (replicate (length l) 0 = in_count [] <$> l) as ->.
    { clear. induction l as [|p l IH]; [done|]. cbn. by rewrite IH. }
    assert (sum_of (in_count [] <$> l) = 0) as H0 by (clear; induction l as [|p l IH]; [done|exact IH]).
    rewrite <- H0 at 2. replace (Z.to_nat (zlen (f_X f1))) with (length (f_X f1)) by (unfold zlen; lia).
    exact (unsorted_bins_ok l (zlen l) Hap eq_refl (f_X f1) [] Hmax).
Qed.

Lemma num_in_range_correct_witness :
  num_in_range (sorted_field [-4; 1; 2; 2; 6; 9; 12]) 7 (plain_field I4 [0; 5; 10]) (plain_field I4 [3; 9; 11]) 3 [77; 77; 77] = Ok ([3; 2; 0], 5).
Proof.
  apply (num_in_range_correct (sorted_field [-4; 1; 2; 2; 6; 9; 12]) (plain_field I4 [0; 5; 10]) (plain_field I4 [3; 9; 11]) [(0, 3); (5, 9); (10, 11)] 7);
    [done|done|done|by vm_compute| |split; [done..| |by vm_compute]|done].
  - intros _. repeat constructor; lia.
  - repeat constructor; cbn; lia.
Defined.

(** ** [rng_join] *)

(** The search for the range of a value from [start_t1_idx] on, which moves
    with it: the index, the flag, whether [is_any_null] is set, and the new
    [start_t1_idx]. *)
Fixpoint rng_seek (n : nat) (flb fub : list Z) (finval j : Z) : res (Z * Z * bool * Z) :=
  match n with
  | O => Ok (-1, 0, false, j)
  | Datatypes.S n =>
      lb ← rd flb j;
      if finval <? lb then Ok (0, 0, true, j)
      else
        ub ← rd fub j;
        if finval <? ub then Ok (j, 1, false, j) else rng_seek n flb fub finval (j + 1)
  end.

Fixpoint rng_rows (n : nat) (ffrom : option (list Z)) (flb fub : list Z) (nR1 : Z) (fin : list Z) (i start_t1_idx : Z)
    (is_any_null : bool) (fout nn_fout : list Z) : res (bool * list Z * list Z) :=
  match n with
  | O => Ok (is_any_null, fout, nn_fout)
  | Datatypes.S n =>
      finval ← rd fin i;
      '(t1idx, flag, null, start_t1_idx) ← rng_seek (Z.to_nat (nR1 - start_t1_idx)) flb fub finval start_t1_idx;
      v ← match ffrom with Some X => rd X t1idx | None => Ok t1idx end;
      fout ← wr fout i v;
      nn_fout ← wr nn_fout i flag;
      rng_rows n ffrom flb fub nR1 fin (i + 1) start_t1_idx (is_any_null || null) fout nn_fout
  end.

(** The new field, and its nn field if it gets one. *)
Definition rng_join (ffrom : option operand) (flb fub : operand) (nR1 : Z) (fin : operand) (nR2 : Z) : res (list Z * option (list Z)) :=
  _ ← go_BYE_if (INT_MAX <=? nR1);
  _ ← go_BYE_if (bool_decide (f_nn flb <> None));
  _ ← go_BYE_if (bool_decide (f_nn fub <> None));
  _ ← match ffrom with Some f => go_BYE_if (bool_decide (f_nn f <> None)) | None => Ok tt end;
  _ ← go_BYE_if (bool_decide (f_nn fin <> None));
  _ ← go_BYE_if (bool_decide (f_sort fin <> ascending));
  _ ← go_BYE_if (negb (bool_decide (f_type flb = I4 /\ f_type fub = I4 /\ f_type fin = I4)));
  _ ← match ffrom with Some f => go_BYE_if (bool_decide (f_type f <> I4)) | None => Ok tt end;
  _ ← mk_size (nR2 * 4);
  _ ← mk_size nR2;
  let zeros : list Z := replicate (Z.to_nat nR2) 0 in
  '(is_any_null, fout, nn_fout) ← rng_rows (Z.to_nat nR2) (fmap f_X ffrom) (f_X flb) (f_X fub) nR1 (f_X fin) 0 0 false zeros zeros;
  Ok (fout, if (is_any_null : bool) then Some nn_fout else None).

(** The upper bound is not in the range; a value above all ranges is not
    counted as a null, and with a field to copy from the kernel reads before it. *)
Example rng_join_ex :
  rng_join None (plain_field I4 [1; 5]) (plain_field I4 [3; 9]) 2 (sorted_field [0; 1; 3; 8]) 4 = Ok ([0; 0; 0; 1], Some [0; 1; 0; 1]) /\
  rng_join None (plain_field I4 [1; 5]) (plain_field I4 [3; 9]) 2 (sorted_field [2; 9]) 2 = Ok ([0; -1], None) /\
  rng_join (Some (plain_field I4 [7; 7])) (plain_field I4 [1; 5]) (plain_field I4 [3; 9]) 2 (sorted_field [2; 9]) 2 = Ub.
Proof. vm_compute. done. Qed.
