(* ===== verification/Pack.v ===== *)
(** * Packing fields into the bits of one, and unpacking them.

    Models dir_wr_verbs/pack.c (with incl_pack_I4.c and incl_pack_I8.c) and
    unpack.c, from the text of their arguments and the data of the fields to
    the data of the new fields.  Unpacking gives back what was packed. *)

From stdpp Require Import prelude strings.
From Stdlib Require Import ZArith Lia SpecFloat.
From S2P Require Import Prelude CString Types Reduce Elem Vec Positions.
Import Reduce.

Definition MAX_PACK_FLDS : Z := 8.

(** ** Arguments *)

(** [if ( ( s == NULL ) || ( *s == '\0' ) ) { go_BYE(-1); }] *)
Definition some_text (s : string) : res unit := go_BYE_if (strcmp_eq s "").

(** What follows BYE reads [Y[i]] for the [n_flds] fields: before the fields
    are counted nothing, and afterwards a null pointer or cells behind the
    array when there are fewer than [n_flds] pieces. *)
Definition bail {A} (pieces : option Z) (n_flds : Z) : res A :=
  match pieces with
  | None => Ub
  | Some n => if n <? n_flds then Ub else Err
  end.

(** The names: 2 to 8. *)
Definition pack_names (str_flds : string) : res (list string) :=
  let flds := explode str_flds in
  if (zlen flds <=? 1) || (MAX_PACK_FLDS <? zlen flds) then bail None (zlen flds) else Ok flds.

(** [shifts[i] = strtoll(Y[i], &endptr, 10);] into an [int], with its tests;
    [None] when one fails. *)
Definition one_shift (s : string) : option Z :=
  let '(v, endptr) := strtoll s in
  if strcmp_eq endptr "" then (if wrapS 32 v <? 0 then None else Some (wrapS 32 v)) else None.

(** The columns [Xs[j]], all of them integers. *)
Definition pack_input (get_fld : string -> res operand) (name : string) : res operand :=
  f ← get_fld name;
  _ ← go_BYE_if (bool_decide (f_nn f <> None));
  match f_type f with I1 | I2 | I4 | I8 => Ok f | _ => Err end.
Fixpoint pack_inputs (get_fld : string -> res operand) (flds : list string) : res (list operand) :=
  match flds with
  | [] => Ok []
  | name :: flds => f ← pack_input get_fld name; fs ← pack_inputs get_fld flds; Ok (f :: fs)
  end.

(** ** [pack] *)

Definition dst_bits (t : FLD_TYPE) : option Z :=
  match t with I1 => Some 8 | I2 => Some 16 | I4 => Some 32 | I8 => Some 64 | _ => None end.

(** The value of row [i]: [thisval] has the type of the result. *)
Fixpoint pack_row (w : Z) (Xs : list (list Z)) (shifts : list Z) (i outval : Z) : res Z :=
  match Xs, shifts with
  | X :: Xs, s :: shifts =>
      v ← rd X i;
      thisval ← c_shl w (wrapS w v) s;
      pack_row w Xs shifts i (Z.lor outval thisval)
  | _, _ => Ok outval
  end.
Fixpoint pack_loop (w : Z) (Xs : list (list Z)) (shifts : list Z) (n : nat) (i : Z) (fout : list Z) : res (list Z) :=
  match n with
  | O => Ok fout
  | Datatypes.S n =>
      outval ← pack_row w Xs shifts i 0;
      fout ← wr fout i outval;
      pack_loop w Xs shifts n (i + 1) fout
  end.

(** [get_fld] finds a field of the table and its data.  The type and the
    values of the new field. *)
Definition pack (get_fld : string -> res operand) (nR : Z) (str_flds str_shifts str_dst_fldtype : string)
    : res (FLD_TYPE * list Z) :=
  _ ← some_text str_flds;
  _ ← some_text str_shifts;
  _ ← some_text str_dst_fldtype;
  dst_fldtype ← unstr_fldtype (Some str_dst_fldtype);
  flds ← pack_names str_flds;
  let Y := explode str_shifts in
  if negb (zlen Y =? zlen flds) then bail (Some (zlen Y)) (zlen flds)
  else
    match mapM one_shift Y with
    | None => Err
    | Some shifts =>
        fs ← pack_inputs get_fld flds;
        match dst_bits dst_fldtype with
        | None => Err
        | Some w =>
            _ ← go_BYE_if (existsb (fun s => w <=? s) shifts);
            fldsz ← get_fld_sz dst_fldtype;
            _ ← mk_size (fldsz * nR);
            let fout := replicate (Z.to_nat nR) 0 in
            fout ← match dst_fldtype with
              | I4 | I8 => pack_loop w (f_X <$> fs) shifts (Z.to_nat nR) 0 fout
              | _ => Err
              end;
            Ok (dst_fldtype, fout)
        end
    end.

(** ** [unpack] *)

(** The masks of [get_mask_I4] and [get_mask_I8]: so many ones; [None] when
    the number is not in the table. *)
Definition get_mask (w : Z) (inp : Z) : option Z := if (1 <=? inp) && (inp <=? w) then Some (Z.ones inp) else None.
Definition get_mask_I4 := get_mask 32.
Definition get_mask_I8 := get_mask 64.

(** The number of bits is what is left below the field before; the status of
    [get_mask] is lost, the mask is then 0. *)
Fixpoint masks (get_mask : Z -> option Z) (above : Z) (shifts : list Z) : list Z :=
  match shifts with
  | [] => []
  | s :: shifts => default 0 (get_mask (above - s)) :: masks get_mask s shifts
  end.

(** A new field: its shift, its mask, its type and its cells. *)
Record unpacked := { u_shift : Z; u_mask : Z; u_type : FLD_TYPE; u_X : list Z }.

(** [( in >> shifts[j] ) & masks[j]] on unsigned words of [w] bits, stored in
    cell [i]; with I8 a value outside the type is stored too, but is an error. *)
Definition unpack_cell (w v i : Z) (u : unpacked) : res (bool * unpacked) :=
  if w <=? u_shift u then Ub
  else
    let val := Z.land (Z.shiftr (wrapU w v) (u_shift u)) (u_mask u) in
    match u_type u with
    | (I1 | I2 | I4) as t =>
        let tw := default 32 (dst_bits t) in
        let valI8 := wrapS 64 val in
        X ← wr (u_X u) i (wrapS tw val);
        Ok ((w =? 32) || ((- 2 ^ (tw - 1) <=? valI8) && (valI8 <=? 2 ^ (tw - 1) - 1)),
            {| u_shift := u_shift u; u_mask := u_mask u; u_type := t; u_X := X |})
    | _ => Ok (false, u)
    end.
Fixpoint unpack_row (w v i : Z) (us : list unpacked) (ok : bool) : res (bool * list unpacked) :=
  match us with
  | [] => Ok (ok, [])
  | u :: us =>
      '(ok1, u) ← unpack_cell w v i u;
      '(ok, us) ← unpack_row w v i us (ok && ok1);
      Ok (ok, u :: us)
  end.
Fixpoint unpack_loop (w : Z) (fin : list Z) (n : nat) (i : Z) (s : bool * list unpacked) : res (bool * list unpacked) :=
  match n with
  | O => Ok s
  | Datatypes.S n =>
      let '(ok, us) := s in
      v ← rd fin i;
      s ← unpack_row w v i us ok;
      unpack_loop w fin n (i + 1) s
  end.

(** The files of the new fields. *)
Fixpoint unpack_outputs (Z_ : list string) (nR : Z) : res (list FLD_TYPE) :=
  match Z_ with
  | [] => Ok []
  | z :: Z_ =>
      t ← unstr_fldtype (Some z);
      fldsz ← get_fld_sz t;
      _ ← mk_size (fldsz * nR);
      ts ← unpack_outputs Z_ nR;
      Ok (t :: ts)
  end.

Definition unpack_fields (shifts ms : list Z) (ts : list FLD_TYPE) (nR : Z) : list unpacked :=
  (fun '(s, (mk, t)) => {| u_shift := s; u_mask := mk; u_type := t; u_X := replicate (Z.to_nat nR) 0 |}) <$>
    zip shifts (zip ms ts).

(** The names, types and values of the new fields.  The field [fin] exists;
    its nulls are not looked at. *)
Definition unpack (fin : operand) (nR : Z) (str_shifts str_dst_fldtypes str_flds : string)
    : res (list (string * FLD_TYPE * list Z)) :=
  _ ← some_text str_flds;
  _ ← some_text str_shifts;
  _ ← some_text str_dst_fldtypes;
  flds ← pack_names str_flds;
  let Y := explode str_shifts in
  if negb (zlen Y =? zlen flds) then bail None (zlen flds)
  else
    match mapM one_shift Y with
    | None => bail None (zlen flds)
    | Some shifts =>
        let Z_ := explode str_dst_fldtypes in
        if negb (zlen Z_ =? zlen flds) then bail (Some (zlen Z_)) (zlen flds)
        else
          ts ← unpack_outputs Z_ nR;
          '(w, ms) ← match f_type fin with
            | I4 => Ok (32, masks get_mask_I4 32 shifts)
            | I8 => Ok (64, masks get_mask_I8 64 shifts)
            | _ => Err
            end;
          '(block_size, nT) ← partition nR 8192 (-1);
          '(ok, us) ← tid_blocks 0 nR block_size nT
                        (fun lb nX s => unpack_loop w (f_X fin) (Z.to_nat nX) lb s)
                        (true, unpack_fields shifts ms ts nR);
          if ok : bool then Ok (zip (zip flds ts) (u_X <$> us)) else Err
    end.

(** One name: the arrays of pieces are read before they exist. *)
Example pack_one_name get_fld : pack get_fld 1 "a" "0" "I4" = Ub.
Proof. reflexivity. Qed.
Example unpack_bad_shift fin : unpack fin 1 "x:0" "I1:I1" "a:b" = Ub.
Proof. reflexivity. Qed.
Example pack_two : pack (fun s => if strcmp_eq s "a" then Ok {| f_type := I1; f_sort := unsorted; f_X := [5; 6]; f_nn := None |}
    else Ok {| f_type := I2; f_sort := unsorted; f_X := [300; 7]; f_nn := None |}) 2 "a:b" "16:0" "I4" = Ok (I4, [327980; 393223]).
Proof. vm_compute. reflexivity. Qed.
Example unpack_two : unpack {| f_type := I4; f_sort := unsorted; f_X := [327980; 393223]; f_nn := None |} 2 "16:0" "I1:I2" "c:d"
  = Ok [("c", I1, [5; 6]); ("d", I2, [300; 7])]%string.
Proof. vm_compute. reflexivity. Qed.

(** ** Packing and unpacking *)

(** A field with its shift and the type it is unpacked to. *)
Abbreviation field := (Z * FLD_TYPE * list Z)%type.

Section roundtrip.
Context (n : Z) (Hn : 0 < n).
Implicit Types (fs : list field) (i k hi : Z).

(** Each field has the bits from its shift up to the shift of the field before,
    and its type has room for them: [hi] bits for all. *)
Fixpoint layout (hi : Z) (fs : list field) : Prop :=
  match fs with
  | [] => True
  | (s, t, X) :: fs =>
      0 <= s < hi /\ zlen X = n /\
      (exists tw, dst_bits t = Some tw /\ tw <= 32 /\ Forall (fun v => 0 <= v < 2 ^ (hi - s) /\ v < 2 ^ (tw - 1)) X) /\
      layout s fs
  end.

(** The word that row [i] is packed to. *)
Fixpoint word_at (i : Z) (fs : list field) : Z :=
  match fs with [] => 0 | (s, t, X) :: fs => default 0 (X !z i) * 2 ^ s + word_at i fs end.

(** The new fields when the first [k] rows are unpacked. *)
Fixpoint unpacked_upto (hi k : Z) (fs : list field) : list unpacked :=
  match fs with
  | [] => []
  | (s, t, X) :: fs =>
      {| u_shift := s; u_mask := Z.ones (hi - s); u_type := t;
         u_X := take (Z.to_nat k) X ++ replicate (Z.to_nat (n - k)) 0 |} :: unpacked_upto s k fs
  end.

Lemma layout_mono fs hi hi' : hi <= hi' -> layout hi fs -> layout hi' fs.
Proof.
  intros Hh. destruct fs as [|[[s t] X] fs]; [done|]. intros (Hs & HX & (tw & Ht & Hw & Hv) & Hl).
  split; [lia|]. split; [done|]. split; [|done]. exists tw. split; [done|]. split; [done|].
  eapply Forall_impl; [exact Hv|]. intros v [H1 H2]. split; [|done].
  assert (2 ^ (hi - s) <= 2 ^ (hi' - s)) by (apply Z.pow_le_mono_r; lia). lia.
Qed.

(** The value of row [i] of a field. *)
Lemma layout_row s t X fs hi i : layout hi ((s, t, X) :: fs) -> 0 <= i < n ->
  exists v tw, X !z i = Some v /\ dst_bits t = Some tw /\ tw <= 32 /\ 0 <= s < hi /\ 0 <= v < 2 ^ (hi - s) /\ v < 2 ^ (tw - 1) /\
    v * 2 ^ s + 2 ^ s <= 2 ^ hi /\ layout s fs.
Proof.
  intros (Hs & HX & (tw & Ht & Hw & Hv) & Hl) Hi. destruct (zlookup_is_Some X i) as [v E]; [lia|].
  pose proof (Forall_zlookup _ _ _ _ Hv E) as [H1 H2]. exists v, tw.
  assert (2 ^ hi = 2 ^ (hi - s) * 2 ^ s) as -> by (rewrite <- Z.pow_add_r by lia; f_equal; lia).
  pose proof (Z.pow_pos_nonneg 2 s). split_and!; try done; try lia. nia.
Qed.

Lemma word_range fs : forall hi i, 0 <= hi -> layout hi fs -> 0 <= i < n -> 0 <= word_at i fs < 2 ^ hi.
Proof.
  induction fs as [|[[s t] X] fs IH]; intros hi i Hh Hl Hi; [simpl; pose proof (Z.pow_pos_nonneg 2 hi); lia|].
  destruct (layout_row s t X fs hi i Hl Hi) as (v & tw & E & _ & _ & Hs & Hv & _ & Hle & Hl').
  cbn [word_at]. rewrite E. simpl default. specialize (IH s i ltac:(lia) Hl' Hi). pose proof (Z.pow_pos_nonneg 2 s). nia.
Qed.

Lemma lor_low q b k : 0 <= k -> 0 <= b < 2 ^ k -> Z.lor (q * 2 ^ k) b = q * 2 ^ k + b.
Proof.
  intros Hk Hb. symmetry. apply Z.add_nocarry_lor. apply Z.bits_inj_iff'. intros j Hj. rewrite Z.land_spec, Z.bits_0.
  destruct (Z.ltb_spec j k).
  - by rewrite Z.mul_pow2_bits_low.
  - destruct (decide (b = 0)) as [->|]; [by rewrite Z.bits_0, andb_false_r|].
    rewrite (Z.bits_above_log2 b j); [apply andb_false_r|lia|]. apply Z.log2_lt_pow2; [lia|].
    assert (2 ^ k <= 2 ^ j) by (apply Z.pow_le_mono_r; lia). lia.
Qed.

Lemma pack_row_ok w fs : forall hi i q, hi < w -> 0 <= q -> layout hi fs -> 0 <= i < n ->
  pack_row w (snd <$> fs) ((fst ∘ fst) <$> fs) i (q * 2 ^ hi) = Ok (q * 2 ^ hi + word_at i fs).
Proof.
  induction fs as [|[[s t] X] fs IH]; intros hi i q Hw Hq Hl Hi; [simpl; by rewrite Z.add_0_r|].
  destruct (layout_row s t X fs hi i Hl Hi) as (v & tw & E & _ & _ & Hs & Hv & _ & Hle & Hl').
  rewrite !fmap_cons. cbn [pack_row snd]. rewrite (proj2 (rd_Ok _ _ _) E). cbn [mbind res_bind].
  assert (2 ^ hi <= 2 ^ (w - 1)) by (apply Z.pow_le_mono_r; lia). pose proof (Z.pow_pos_nonneg 2 s).
  assert (0 <= v <= v * 2 ^ s /\ v * 2 ^ s < 2 ^ (w - 1)) as Hvs by nia.
  rewrite wrapS_small by (unfold inS; lia).
  change ((fst ∘ fst) (s, t, X)) with s. unfold c_shl. rewrite (proj2 (Z.leb_le 0 s)), (proj2 (Z.ltb_lt s w)), (proj2 (Z.leb_le 0 v)) by lia.
  cbn [andb]. rewrite Z.shiftl_mul_pow2, sint_Ok by (unfold inS; lia). cbn [mbind res_bind].
  rewrite lor_low by nia. assert (2 ^ hi = 2 ^ (hi - s) * 2 ^ s) as Eh by (rewrite <- Z.pow_add_r by lia; f_equal; lia).
  replace (q * 2 ^ hi + v * 2 ^ s) with ((q * 2 ^ (hi - s) + v) * 2 ^ s) by (rewrite Eh; ring).
  pose proof (Z.pow_pos_nonneg 2 (hi - s)).
  rewrite IH; [|lia|nia|done|done]. cbn [word_at]. rewrite E. simpl default. f_equal. rewrite Eh. ring.
Qed.

Lemma pack_loop_ok w fs m : forall i (out : list Z),
  layout (w - 1) fs -> 0 < w -> i = zlen out -> i + Z.of_nat m <= n ->
  pack_loop w (snd <$> fs) ((fst ∘ fst) <$> fs) m i (out ++ replicate m 0)
  = Ok (out ++ ((fun k => word_at k fs) <$> seqZ i (Z.of_nat m))).
Proof.
  induction m as [|m IH]; intros i out Hl Hw Hi Hm; [done|]. pose proof (zlen_nonneg out). cbn [pack_loop replicate].
  pose proof (pack_row_ok w fs (w - 1) i 0 ltac:(lia) ltac:(lia) Hl ltac:(lia)) as E. rewrite Z.mul_0_l, Z.add_0_l in E.
  rewrite E. cbn [mbind res_bind]. subst i. rewrite wr_middle. cbn [mbind res_bind].
  replace (out ++ word_at (zlen out) fs :: replicate m 0) with ((out ++ [word_at (zlen out) fs]) ++ replicate m 0) by (by rewrite <- app_assoc).
  rewrite IH; [|done|done|by rewrite zlen_snoc|lia]. rewrite (seqZ_cons (zlen out) (Z.of_nat (Datatypes.S m))) by lia.
  rewrite fmap_cons, <- app_assoc. do 5 f_equal; lia.
Qed.

(** The bits of a field in a word. *)
Lemma field_bits p hi s v r : 0 <= s < hi -> 0 <= v < 2 ^ (hi - s) -> 0 <= r < 2 ^ s -> p mod 2 ^ hi = v * 2 ^ s + r ->
  Z.land (Z.shiftr p s) (Z.ones (hi - s)) = v /\ p mod 2 ^ s = r.
Proof.
  intros Hs Hv Hr Hp. assert (2 ^ hi = 2 ^ (hi - s) * 2 ^ s) as Eh by (rewrite <- Z.pow_add_r by lia; f_equal; lia).
  pose proof (Z.div_mod p (2 ^ hi) ltac:(lia)) as E. rewrite Hp, Eh in E. set (q := p / (2 ^ (hi - s) * 2 ^ s)) in E.
  assert (p = (q * 2 ^ (hi - s) + v) * 2 ^ s + r) as E2 by (rewrite E at 1; ring).
  rewrite Z.land_ones, Z.shiftr_div_pow2 by lia. rewrite E2. split.
  - rewrite Z.div_add_l, (Z.div_small r), Z.add_0_r, Z.add_comm, Z_mod_plus_full by lia. by apply Z.mod_small.
  - rewrite Z.add_comm, Z_mod_plus_full. by apply Z.mod_small.
Qed.

(** One more cell of a field. *)
Lemma put_cell X i v : 0 <= i < n -> zlen X = n -> X !z i = Some v ->
  wr (take (Z.to_nat i) X ++ replicate (Z.to_nat (n - i)) 0) i v
  = Ok (take (Z.to_nat (i + 1)) X ++ replicate (Z.to_nat (n - (i + 1))) 0).
Proof.
  intros Hi HX E. replace (Z.to_nat (n - i)) with (Datatypes.S (Z.to_nat (n - (i + 1)))) by lia. cbn [replicate].
  pose proof (wr_middle (take (Z.to_nat i) X) (replicate (Z.to_nat (n - (i + 1))) 0) 0 v) as W.
  replace (zlen (take (Z.to_nat i) X)) with i in W by (unfold zlen in *; rewrite length_take; lia). rewrite W.
  replace (Z.to_nat (i + 1)) with (Datatypes.S (Z.to_nat i)) by lia. rewrite zlookup_to_nat in E by lia.
  by rewrite (take_S_r _ _ v), <- app_assoc by done.
Qed.

Lemma unpack_cell_ok w p i s t X fs hi : 0 <= s < w -> 0 <= p < 2 ^ w -> 0 <= i < n -> layout hi ((s, t, X) :: fs) ->
  p mod 2 ^ hi = word_at i ((s, t, X) :: fs) ->
  let u k := {| u_shift := s; u_mask := Z.ones (hi - s); u_type := t; u_X := take (Z.to_nat k) X ++ replicate (Z.to_nat (n - k)) 0 |} in
  unpack_cell w p i (u i) = Ok (true, u (i + 1)) /\ p mod 2 ^ s = word_at i fs.
Proof.
  intros Hs Hp Hi Hl Hm u. destruct (layout_row s t X fs hi i Hl Hi) as (v & tw & E & Ht & Htw & Hsh & Hv & Hvt & Hle & Hl').
  cbn [word_at] in Hm. rewrite E in Hm. simpl default in Hm.
  destruct (field_bits p hi s v (word_at i fs) Hsh Hv (word_range fs s i ltac:(lia) Hl' Hi) Hm) as [Hb Hrest]. split; [|done].
  unfold unpack_cell, u. cbn [u_shift u_mask u_type u_X]. rewrite (proj2 (Z.leb_gt w s)), wrapU_small by (unfold inU; lia).
  rewrite Hb. assert (0 < tw) by (destruct t; try discriminate Ht; injection Ht as <-; lia).
  assert (2 ^ (tw - 1) <= 2 ^ 31) by (apply Z.pow_le_mono_r; lia).
  assert (wrapS tw v = v /\ wrapS 64 v = v) as [W1 W2] by (split; apply wrapS_small; unfold inS; lia).
  pose proof (put_cell X i v Hi (proj1 (proj2 Hl)) E) as Hput.
  assert ((- 2 ^ (tw - 1) <=? v) && (v <=? 2 ^ (tw - 1) - 1) = true) as Hr by (apply andb_true_iff; split; apply Z.leb_le; lia).
  destruct t; try discriminate Ht; try (injection Ht as <-; lia); cbn zeta; rewrite Ht; change (default 32 (Some tw)) with tw;
    rewrite W1, W2, Hput; cbn [mbind res_bind]; rewrite Hr, orb_true_r; done.
Qed.

Lemma unpack_row_ok w p fs : forall hi i ok, 0 <= p < 2 ^ w -> 0 <= i < n -> hi <= w -> layout hi fs -> p mod 2 ^ hi = word_at i fs ->
  unpack_row w p i (unpacked_upto hi i fs) ok = Ok (ok, unpacked_upto hi (i + 1) fs).
Proof.
  induction fs as [|[[s t] X] fs IH]; intros hi i ok Hp Hi Hw Hl Hm; [done|]. cbn [unpacked_upto unpack_row].
  destruct (unpack_cell_ok w p i s t X fs hi) as [E Hm']; try done; [destruct Hl; lia|]. cbn beta zeta in E. rewrite E. cbn [mbind res_bind].
  rewrite andb_true_r, IH; [done|done|done|destruct Hl; lia|apply Hl|done].
Qed.

Lemma unpack_loop_ok w fs fin m : forall i,
  layout w fs -> 0 < w -> 0 <= i -> i + Z.of_nat m <= n ->
  (forall k, 0 <= k < n -> fin !z k = Some (word_at k fs)) ->
  unpack_loop w fin m i (true, unpacked_upto w i fs) = Ok (true, unpacked_upto w (i + Z.of_nat m) fs).
Proof.
  induction m as [|m IH]; intros i Hl Hw Hi Hm Hfin; [by rewrite Z.add_0_r|]. cbn [unpack_loop].
  pose proof (word_range fs w i ltac:(lia) Hl ltac:(lia)).
  rewrite (proj2 (rd_Ok _ _ _) (Hfin i ltac:(lia))). cbn [mbind res_bind].
  rewrite unpack_row_ok by (done || lia || by rewrite Z.mod_small). cbn [mbind res_bind].
  rewrite IH by (done || lia). do 3 f_equal. lia.
Qed.

Lemma unpack_fields_ok w fs : forall hi, hi <= w -> layout hi fs ->
  unpack_fields ((fst ∘ fst) <$> fs) (masks (get_mask w) hi ((fst ∘ fst) <$> fs)) ((snd ∘ fst) <$> fs) n = unpacked_upto hi 0 fs.
Proof.
  induction fs as [|[[s t] X] fs IH]; intros hi Hw Hl; [done|]. rewrite !fmap_cons. destruct Hl as (Hs & _ & _ & Hl).
  change ((fst ∘ fst) (s, t, X)) with s. change ((snd ∘ fst) (s, t, X)) with t. cbn [masks unpacked_upto]. unfold unpack_fields in *.
  cbn [zip zip_with]. rewrite fmap_cons, IH by (done || lia). unfold get_mask.
  rewrite (proj2 (Z.leb_le 1 _)), (proj2 (Z.leb_le _ w)) by lia. by rewrite Z.sub_0_r.
Qed.

Lemma upto_all fs : forall hi, layout hi fs -> u_X <$> unpacked_upto hi n fs = snd <$> fs.
Proof.
  induction fs as [|[[s t] X] fs IH]; intros hi Hl; [done|]. cbn [unpacked_upto]. rewrite !fmap_cons, IH by apply Hl. cbn [u_X snd].
  destruct Hl as (_ & HX & _). by rewrite Z.sub_diag, app_nil_r, <- HX, to_nat_zlen, firstn_all.
Qed.

Lemma shifts_small fs w : forall hi, hi < w -> layout hi fs -> existsb (fun s => w <=? s) ((fst ∘ fst) <$> fs) = false.
Proof.
  induction fs as [|[[s t] X] fs IH]; intros hi Hw Hl; [done|]. destruct Hl as (Hs & _ & _ & Hl).
  rewrite fmap_cons. cbn [existsb]. change ((fst ∘ fst) (s, t, X)) with s. rewrite (proj2 (Z.leb_gt w s)) by lia. apply (IH s); [lia|done].
Qed.

Lemma unpack_outputs_ok fs : forall hi Z_, n < 2 ^ 28 -> layout hi fs ->
  Forall2 (fun z t => unstr_fldtype (Some z) = Ok t) Z_ ((snd ∘ fst) <$> fs) -> unpack_outputs Z_ n = Ok ((snd ∘ fst) <$> fs).
Proof.
  induction fs as [|[[s t] X] fs IH]; intros hi Z_ H28 Hl HZ.
  { by apply Forall2_nil_inv_r in HZ as ->. }
  destruct Hl as (_ & _ & (tw & Ht & Htw & _) & Hl). rewrite fmap_cons in HZ. change ((snd ∘ fst) (s, t, X)) with t in HZ.
  apply Forall2_cons_inv_r in HZ as (z & Z' & Hz & HZ & ->). cbn [unpack_outputs]. rewrite Hz. cbn [mbind res_bind].
  assert (exists sz, get_fld_sz t = Ok sz /\ 1 <= sz <= 8) as (sz & -> & Hsz)
    by (destruct t; try discriminate Ht; eexists; (split; [reflexivity|lia])).
  cbn [mbind res_bind]. rewrite mk_size_ok by nia. cbn [mbind res_bind]. by rewrite (IH s Z').
Qed.
End roundtrip.

Lemma pack_inputs_length get_fld flds ops : pack_inputs get_fld flds = Ok ops -> zlen ops = zlen flds.
Proof.
  revert ops. induction flds as [|f flds IH]; intros ops; cbn [pack_inputs]; [by intros [= <-]|].
  destruct (pack_input get_fld f); cbn [mbind res_bind]; try done. destruct (pack_inputs get_fld flds) as [os| | |]; cbn [mbind res_bind]; try done.
  intros [= <-]. rewrite !zlen_cons. by rewrite (IH os).
Qed.
Lemma some_text_ok s : 1 < zlen (explode s) -> some_text s = Ok tt.
Proof. destruct s; [|done]. intros H. by cbn in H. Qed.
Lemma pack_names_ok s : 1 < zlen (explode s) <= 8 -> pack_names s = Ok (explode s).
Proof.
  intros H. unfold pack_names. rewrite (proj2 (Z.leb_gt _ _)) by lia. rewrite (proj2 (Z.ltb_ge MAX_PACK_FLDS _)) by (unfold MAX_PACK_FLDS; lia). done.
Qed.

(** Claim C15. Unpacking gives back what was packed, into an I4 or an I8 field:
    when each field has bits of its own, from its shift up to the shift of the
    field before, and values that fit in them and in the type they are unpacked
    to. *)
Theorem pack_unpack get_fld nR str_flds str_shifts str_dst dst w ops shifts str_types ts str_new :
  dst = I4 /\ w = 32 \/ dst = I8 /\ w = 64 -> 0 < nR < 2 ^ 28 ->
  str_dst <> ""%string -> unstr_fldtype (Some str_dst) = Ok dst ->
  1 < zlen (explode str_flds) <= 8 -> pack_inputs get_fld (explode str_flds) = Ok ops ->
  mapM one_shift (explode str_shifts) = Some shifts -> zlen (explode str_shifts) = zlen ops -> zlen shifts = zlen ops ->
  Forall2 (fun z t => unstr_fldtype (Some z) = Ok t) (explode str_types) ts -> zlen ts = zlen ops ->
  zlen (explode str_new) = zlen ops ->
  layout nR (w - 1) (zip (zip shifts ts) (f_X <$> ops)) ->
  exists P, pack get_fld nR str_flds str_shifts str_dst = Ok (dst, P) /\
    unpack {| f_type := dst; f_sort := unsorted; f_X := P; f_nn := None |} nR str_shifts str_types str_new
    = Ok (zip (zip (explode str_new) ts) (f_X <$> ops)).
Proof.
  intros Hdst Hn Hd Hu Hf Hops Hs Ls Lsh HT Lt Lnew Hl. pose proof (pack_inputs_length _ _ _ Hops) as Lo.
  pose proof (Forall2_length _ _ _ HT) as LT. set (fs := zip (zip shifts ts) (f_X <$> ops)) in *.
  assert (length shifts = length ops /\ length ts = length ops) as [N1 N2] by (unfold zlen in *; lia).
  assert ((fst ∘ fst) <$> fs = shifts /\ (snd ∘ fst) <$> fs = ts /\ snd <$> fs = f_X <$> ops) as (F1 & F2 & F3).
  { unfold fs. rewrite !list_fmap_compose, fst_zip, snd_zip, fst_zip, snd_zip; rewrite ?length_fmap, ?length_zip; try lia. by split. }
  assert (0 < w <= 64) as Hw by (destruct Hdst as [[_ ->]|[_ ->]]; lia).
  assert (layout nR w fs) as Hl' by (apply (layout_mono nR fs (w - 1)); [lia|done]).
  set (P := (fun k => word_at k fs) <$> seqZ 0 nR). exists P. split.
  - unfold pack. rewrite (some_text_ok str_flds), (some_text_ok str_shifts) by (unfold zlen in *; lia). unfold some_text.
    replace (strcmp_eq str_dst "") with false by (by destruct str_dst). cbn [go_BYE_if mbind res_bind]. rewrite Hu. cbn [mbind res_bind].
    rewrite pack_names_ok by done. cbn [mbind res_bind]. rewrite (proj2 (Z.eqb_eq _ _)) by lia. cbn [negb].
    rewrite Hs, Hops. cbn [mbind res_bind].
    assert (dst_bits dst = Some w) as -> by (by destruct Hdst as [[-> ->]|[-> ->]]).
    rewrite <- F1, (shifts_small nR fs w (w - 1)) by (done || lia). cbn [go_BYE_if mbind res_bind].
    assert (exists sz, get_fld_sz dst = Ok sz /\ 1 <= sz <= 8) as (sz & -> & Hsz) by (destruct Hdst as [[-> _]|[-> _]]; eexists; (split; [reflexivity|lia])).
    cbn [mbind res_bind]. rewrite mk_size_ok by nia. cbn [mbind res_bind]. rewrite <- F3.
    pose proof (pack_loop_ok nR w fs (Z.to_nat nR) 0 [] Hl ltac:(lia) eq_refl ltac:(lia)) as E. rewrite Z2Nat.id in E by lia.
    cbn [app] in E. destruct Hdst as [[-> _]|[-> _]]; rewrite E; done.
  - destruct (blocks_partition (fun k s => s = (true, unpacked_upto nR w k fs)) nR 8192 (true, [])) as (bs & nT & Epart & Hrun);
      [lia|lia|unfold INT_MAX; apply Z.div_lt_upper_bound; lia|].
    destruct (Hrun (true, unpacked_upto nR w 0 fs) (fun lb nX s => unpack_loop w P (Z.to_nat nX) lb s)) as (s' & E & ->); [done| |].
    { intros lb ub s H1 H2 H3 _ ->. rewrite (unpack_loop_ok nR (proj1 Hn) w fs P) by (try done; try lia; intros k Hk; unfold P;
        rewrite zlookup_to_nat, list_lookup_fmap, lookup_seqZ_lt by lia; simpl; do 2 f_equal; lia).
      eexists. split; [done|]. do 2 f_equal. lia. }
    unfold unpack. rewrite !some_text_ok by (unfold zlen in *; lia). cbn [mbind res_bind].
    rewrite pack_names_ok by lia. cbn [mbind res_bind]. rewrite !(proj2 (Z.eqb_eq _ _)) by (unfold zlen in *; lia). cbn [negb].
    rewrite Hs, <- F2. rewrite (unpack_outputs_ok nR (proj1 Hn) fs (w - 1)) by (done || lia || by rewrite F2). cbn [mbind res_bind f_type f_X].
    pose proof (unpack_fields_ok nR w fs w ltac:(lia) Hl') as Ef. rewrite F1 in Ef.
    destruct Hdst as [[-> ->]|[-> ->]]; cbn [mbind res_bind]; rewrite Epart; cbn [mbind res_bind];
      [change get_mask_I4 with (get_mask 32)|change get_mask_I8 with (get_mask 64)];
      rewrite Ef, E; cbn [mbind res_bind]; by rewrite (upto_all nR fs _ Hl'), F3.
Qed.

Lemma pack_unpack_witness :
  let get_fld s := if strcmp_eq s "a" then Ok {| f_type := I1; f_sort := unsorted; f_X := [5; 6]; f_nn := None |}
    else Ok {| f_type := I2; f_sort := unsorted; f_X := [300; 7]; f_nn := None |} in
  exists P, pack get_fld 2 "a:b" "16:0" "I4" = Ok (I4, P) /\
    unpack {| f_type := I4; f_sort := unsorted; f_X := P; f_nn := None |} 2 "16:0" "I1:I2" "c:d"
    = Ok (zip (zip ["c"; "d"]%string [I1; I2]) [[5; 6]; [300; 7]]).
Proof.
  intros get_fld. apply (pack_unpack get_fld 2 "a:b" "16:0" "I4" I4 32
    [{| f_type := I1; f_sort := unsorted; f_X := [5; 6]; f_nn := None |}; {| f_type := I2; f_sort := unsorted; f_X := [300; 7]; f_nn := None |}]
    [16; 0] "I1:I2" [I1; I2] "c:d"); try done; try lia; [by left|repeat constructor|].
  repeat (split; [lia|]); split; [done|]. split; [exists 8; repeat constructor; lia|]. split; [lia|]. split; [done|].
  split; [exists 16; repeat constructor; lia|done].
Defined.
