(* ===== verification/Transfer.v ===== *)
(** * Values by index, and values by condition.

    The kernels of two verbs.  AUX/xfer_<T>_I4.c, called by
    dir_wr_verbs/xfer.c, gives every row of a table the value of a field of
    another table at the row that an index names.
    AUX/core_wisifxthenyelsez_<T>.c, called by wisifxthenyelsez.c, takes the
    value of one of two fields or scalars, as a third field says.  Both follow
    nulls.  The two scalars of wisifxthenyelsez.c are read here as well. *)

From stdpp Require Import prelude strings.
From Stdlib Require Import ZArith Lia SpecFloat.
From S2P Require Import Prelude CString Types Reduce Elem Vec Fill Positions.
Import Reduce.

(** ** Transfer by index *)

(** [if ( nn != NULL ) { nn[i] = v; }], and the same without the test. *)
Definition set_flag (nn : option (list Z)) (i v : Z) : res (option (list Z)) :=
  match nn with None => Ok None | Some l => l ← wr l i v; Ok (Some l) end.
Definition put_flag (nn : option (list Z)) (i v : Z) : res (option (list Z)) :=
  match nn with None => Ub | Some l => l ← wr l i v; Ok (Some l) end.

Section xfer.
Context {A : Type} (zero : A).

(** The status, and what has been written: the verb goes on whatever the
    status. *)
Fixpoint xfer_loop (n : nat) (src_fld : list A) (nn_src_fld : option (list Z)) (src_nR : Z)
    (dst_idx : list Z) (nn_dst_idx : option (list Z)) (i : Z) (dst_fld : list A) (nn_dst_fld : option (list Z))
    : res (bool * list A * option (list Z)) :=
  match n with
  | O => Ok (true, dst_fld, nn_dst_fld)
  | Datatypes.S n =>
      no_idx ← is_null nn_dst_idx i;
      if no_idx : bool then
        nn_dst_fld ← put_flag nn_dst_fld i 0;
        dst_fld ← wr dst_fld i zero;
        xfer_loop n src_fld nn_src_fld src_nR dst_idx nn_dst_idx (i + 1) dst_fld nn_dst_fld
      else
        idx ← rd dst_idx i;
        if out_of src_nR idx then Ok (false, dst_fld, nn_dst_fld)
        else
          val ← rd src_fld idx;
          no_val ← is_null nn_src_fld idx;
          if no_val : bool then
            nn_dst_fld ← put_flag nn_dst_fld i 0;
            dst_fld ← wr dst_fld i zero;
            xfer_loop n src_fld nn_src_fld src_nR dst_idx nn_dst_idx (i + 1) dst_fld nn_dst_fld
          else
            nn_dst_fld ← set_flag nn_dst_fld i 1;
            dst_fld ← wr dst_fld i val;
            xfer_loop n src_fld nn_src_fld src_nR dst_idx nn_dst_idx (i + 1) dst_fld nn_dst_fld
  end.
Definition xfer_I4 src_fld nn_src_fld src_nR dst_idx nn_dst_idx dst_nR dst_fld nn_dst_fld :=
  xfer_loop (Z.to_nat dst_nR) src_fld nn_src_fld src_nR dst_idx nn_dst_idx 0 dst_fld nn_dst_fld.
End xfer.

Definition xfer_I1_I4 := xfer_I4 0.
Definition xfer_I2_I4 := xfer_I4 0.
Definition xfer_I4_I4 := xfer_I4 0.
Definition xfer_I8_I4 := xfer_I4 0.
Definition xfer_F4_I4 := xfer_I4 fzero.
Definition xfer_F8_I4 := xfer_I4 fzero.

(** The switches on the type of the source and of the index: [None] is the
    end of the verb with an error. *)
Definition xfer_switch (src_type idx_type : FLD_TYPE) (src : column) (nn_src : option (list Z)) (src_nR : Z)
    (idx : column) (nn_idx : option (list Z)) (dst_nR : Z) (dst : column) (nn_dst : option (list Z))
    : option (res (column * option (list Z))) :=
  let ints (kernel : list Z -> option (list Z) -> Z -> list Z -> option (list Z) -> Z -> list Z -> option (list Z) ->
                     res (bool * list Z * option (list Z))) :=
    match idx_type, src, idx, dst with
    | I4, Ints src, Ints idx, Ints dst =>
        Some ('(_, out, flags) ← kernel src nn_src src_nR idx nn_idx dst_nR dst nn_dst; Ok (Ints out, flags))
    | I4, _, _, _ => Some Ub
    | _, _, _, _ => None
    end in
  let floats (kernel : list float -> option (list Z) -> Z -> list Z -> option (list Z) -> Z -> list float -> option (list Z) ->
                       res (bool * list float * option (list Z))) :=
    match idx_type, src, idx, dst with
    | I4, Floats src, Ints idx, Floats dst =>
        Some ('(_, out, flags) ← kernel src nn_src src_nR idx nn_idx dst_nR dst nn_dst; Ok (Floats out, flags))
    | I4, _, _, _ => Some Ub
    | _, _, _, _ => None
    end in
  match src_type with
  | I1 => ints xfer_I1_I4
  | I2 => ints xfer_I2_I4
  | I4 => ints xfer_I4_I4
  | I8 => ints xfer_I8_I4
  | F4 => floats xfer_F4_I4
  | F8 => floats xfer_F8_I4
  | _ => None
  end.

Example xfer_nulls :
  xfer_I4_I4 [10; 20; 30] (Some [1; 0; 1]) 3 [2; 1; 0; 9] (Some [1; 1; 1; 0]) 4 [0; 0; 0; 0] (Some [0; 0; 0; 0])
  = Ok (true, [30; 0; 10; 0], Some [1; 0; 1; 0]).
Proof. reflexivity. Qed.
(** Rows after an index out of range are left alone. *)
Example xfer_stops : xfer_I4_I4 [10; 20; 30] None 3 [2; 3; 0] None 3 [0; 0; 0] None = Ok (false, [30; 0; 0], None).
Proof. reflexivity. Qed.

(** The first [i] cells of a file have been written, with those of [V]. *)
Definition overwritten {A} (V : list A) (i : Z) (out : list A) : list A :=
  take (Z.to_nat i) V ++ drop (Z.to_nat i) out.

Lemma wr_overwritten {A} (V out : list A) i v :
  zlen V <= zlen out -> V !z i = Some v -> wr (overwritten V i out) i v = Ok (overwritten V (i + 1) out).
Proof.
  intros Hl Hv. pose proof (zlookup_Some_range _ _ _ Hv) as Hi. rewrite zlookup_to_nat in Hv by lia.
  destruct (drop (Z.to_nat i) out) as [|o rest] eqn:Ed.
  { apply (f_equal length) in Ed. rewrite length_drop in Ed. unfold zlen in *. simpl in Ed. lia. }
  assert (zlen (take (Z.to_nat i) V) = i) as Ht by (unfold zlen in *; rewrite length_take; lia).
  unfold overwritten. rewrite Ed. rewrite <- Ht at 2. rewrite wr_middle. f_equal.
  replace (Z.to_nat (i + 1)) with (Datatypes.S (Z.to_nat i)) by lia. rewrite (take_S_r _ _ v Hv), <- app_assoc.
  f_equal. simpl. f_equal. replace (Datatypes.S (Z.to_nat i)) with (Z.to_nat i + 1)%nat by lia.
  by rewrite <- drop_drop, Ed.
Qed.
Lemma overwritten_0 {A} (V out : list A) : overwritten V 0 out = out.
Proof. done. Qed.
Lemma option_fmap_overwritten {A} (V : list A) (nn_out : option (list A)) : overwritten V 0 <$> nn_out = nn_out.
Proof. by destruct nn_out. Qed.
Lemma overwritten_all {A} (V out : list A) : zlen out = zlen V -> overwritten V (zlen V) out = V.
Proof.
  intros Hl. unfold overwritten. rewrite to_nat_zlen, firstn_all. unfold zlen in Hl.
  rewrite drop_ge by lia. by rewrite app_nil_r.
Qed.

(** What a row gets, and its flag; [None] if the index is out of range. *)
Section row.
Context {A : Type} (zero : A) (src : list A) (nn_src : option (list Z)) (src_nR : Z) (idx : list Z) (nn_idx : option (list Z)).

Definition flagged (nn : option (list Z)) (i : Z) : bool :=
  match nn with None => true | Some l => match l !z i with Some b => negb (b =? 0) | None => true end end.
Definition xfer_row (i : Z) : option (A * Z) :=
  if flagged nn_idx i then
    j ← idx !z i;
    if out_of src_nR j then None
    else if flagged nn_src j then v ← src !z j; Some (v, 1) else Some (zero, 0)
  else Some (zero, 0).

Lemma is_null_flagged n nn i : has_len n nn -> 0 <= i < n -> is_null nn i = Ok (negb (flagged nn i)).
Proof.
  intros Hn Hi. destruct nn as [l|]; [|done]. specialize (Hn l eq_refl). cbn [is_null flagged].
  destruct (rd_total l i) as [b Hb]; [lia|]. pose proof (proj1 (rd_Ok _ _ _) Hb) as Hb'.
  rewrite Hb, Hb'. simpl. by rewrite negb_involutive.
Qed.

Context (dst_nR : Z) (Ls : zlen src = src_nR) (Lns : has_len src_nR nn_src) (Li : zlen idx = dst_nR) (Lni : has_len dst_nR nn_idx).

(** One row: nulls need a field for the flags. *)
Lemma xfer_loop_step n i out nn_out :
  0 <= i < dst_nR -> (nn_out = None -> nn_src = None /\ nn_idx = None) ->
  xfer_loop zero (Datatypes.S n) src nn_src src_nR idx nn_idx i out nn_out
  = match xfer_row i with
    | None => Ok (false, out, nn_out)
    | Some (v, b) => nn_out ← set_flag nn_out i b; out ← wr out i v;
                     xfer_loop zero n src nn_src src_nR idx nn_idx (i + 1) out nn_out
    end.
Proof.
  intros Hi Hnone. cbn [xfer_loop]. unfold xfer_row.
  assert (put_flag nn_out i 0 = set_flag nn_out i 0 \/ nn_out = None /\ nn_src = None /\ nn_idx = None) as Hput.
  { destruct nn_out; [by left|]. right. split; [done|]. by apply Hnone. }
  rewrite (is_null_flagged dst_nR nn_idx i) by (done || lia). cbn [mbind res_bind].
  destruct (flagged nn_idx i) eqn:Ef; cbn [negb].
  2: { destruct Hput as [->|(_ & _ & E)]; [done|by rewrite E in Ef]. }
  destruct (zlookup_is_Some idx i) as [j Hj]; [lia|]. rewrite (proj2 (rd_Ok _ _ _) Hj), Hj. cbn [mbind res_bind option_bind].
  destruct (out_of src_nR j) eqn:Eo; [done|]. unfold out_of in Eo.
  destruct (zlookup_is_Some src j) as [v Hv]; [lia|]. rewrite (proj2 (rd_Ok _ _ _) Hv). cbn [mbind res_bind].
  rewrite (is_null_flagged src_nR nn_src j) by (done || lia). cbn [mbind res_bind].
  destruct (flagged nn_src j) eqn:Es; cbn [negb]; [by rewrite Hv|].
  destruct Hput as [->|(_ & E & _)]; [done|by rewrite E in Es].
Qed.

(** The rows before the first index out of range. *)
Lemma xfer_loop_rows rows out nn_out n : forall i,
  zlen out = dst_nR -> has_len dst_nR nn_out -> (nn_out = None -> nn_src = None /\ nn_idx = None) ->
  zlen rows <= dst_nR -> (forall k r, rows !z k = Some r -> xfer_row k = Some r) ->
  (zlen rows < dst_nR -> xfer_row (zlen rows) = None) ->
  0 <= i <= zlen rows -> i + Z.of_nat n = dst_nR ->
  xfer_loop zero n src nn_src src_nR idx nn_idx i (overwritten (fst <$> rows) i out)
    (overwritten (snd <$> rows) i <$> nn_out)
  = Ok (zlen rows =? dst_nR, overwritten (fst <$> rows) (zlen rows) out, overwritten (snd <$> rows) (zlen rows) <$> nn_out).
Proof.
  induction n as [|n IH]; intros i Lo Ln Hnone Hr Hrow Hend Hi Hn.
  { assert (zlen rows = i) as -> by lia. cbn [xfer_loop]. by rewrite (proj2 (Z.eqb_eq i dst_nR)) by lia. }
  rewrite xfer_loop_step; [|lia|by destruct nn_out; [|intros _; apply Hnone]].
  destruct (decide (i = zlen rows)) as [->|Hne].
  { rewrite Hend by lia. by rewrite (proj2 (Z.eqb_neq _ _)) by lia. }
  destruct (zlookup_is_Some rows i) as [[v b] Er]; [lia|]. rewrite (Hrow i _ Er).
  assert (set_flag (overwritten (snd <$> rows) i <$> nn_out) i b = Ok (overwritten (snd <$> rows) (i + 1) <$> nn_out)) as ->.
  { destruct nn_out as [l|]; [|done]. cbn [set_flag fmap option_fmap option_map]. specialize (Ln l eq_refl).
    rewrite (wr_overwritten (snd <$> rows) l i b); [done|rewrite zlen_fmap; lia|].
    by rewrite zlookup_to_nat, list_lookup_fmap, <- zlookup_to_nat, Er by lia. }
  cbn [mbind res_bind]. rewrite (wr_overwritten (fst <$> rows) out i v); [|rewrite zlen_fmap; lia|].
  - cbn [mbind res_bind]. apply IH; (done || lia).
  - by rewrite zlookup_to_nat, list_lookup_fmap, <- zlookup_to_nat, Er by lia.
Qed.
End row.

(** Claim C21. [xfer_<T>_I4], for fields of the right lengths and a flags field
    when the source or the index has one: the rows before the first row whose
    index is out of range get the value the index names and the flag 1, or
    zero and the flag 0 where the index or the value is null; the rows from
    there on are as they were, and the status is 0 only when there are none. *)
Theorem xfer_I4_correct {A} (zero : A) src nn_src src_nR idx nn_idx dst_nR out nn_out rows :
  zlen src = src_nR -> has_len src_nR nn_src -> zlen idx = dst_nR -> has_len dst_nR nn_idx ->
  zlen out = dst_nR -> has_len dst_nR nn_out -> (nn_out = None -> nn_src = None /\ nn_idx = None) ->
  zlen rows <= dst_nR ->
  (forall k r, rows !z k = Some r -> xfer_row zero src nn_src src_nR idx nn_idx k = Some r) ->
  (zlen rows < dst_nR -> xfer_row zero src nn_src src_nR idx nn_idx (zlen rows) = None) ->
  xfer_I4 zero src nn_src src_nR idx nn_idx dst_nR out nn_out
  = Ok (zlen rows =? dst_nR, (fst <$> rows) ++ drop (length rows) out,
        (fun o => (snd <$> rows) ++ drop (length rows) o) <$> nn_out).
Proof.
  intros Ls Lns Li Lni Lo Ln Hnone Hr Hrow Hend. unfold xfer_I4. pose proof (zlen_nonneg rows).
  pose proof (xfer_loop_rows zero src nn_src src_nR idx nn_idx dst_nR Ls Lns Li Lni rows out nn_out (Z.to_nat dst_nR) 0
    Lo Ln Hnone Hr Hrow Hend ltac:(lia) ltac:(lia)) as E.
  rewrite overwritten_0, option_fmap_overwritten in E. rewrite E. unfold overwritten. rewrite to_nat_zlen. f_equal. f_equal; [f_equal|].
  - by rewrite <- (length_fmap fst rows), firstn_all.
  - destruct nn_out as [o|]; [|done]. simpl. by rewrite <- (length_fmap snd rows), firstn_all.
Qed.

Lemma xfer_I4_correct_witness :
  xfer_I4 0 [10; 20; 30] (Some [1; 0; 1]) 3 [2; 1; 7; 3; 0] (Some [1; 1; 0; 1; 1]) 5 [9; 9; 9; 9; 9] (Some [7; 7; 7; 7; 7])
  = Ok (false, [30; 0; 0; 9; 9], Some [1; 0; 0; 7; 7]).
Proof.
  apply (xfer_I4_correct 0 [10; 20; 30] (Some [1; 0; 1]) 3 [2; 1; 7; 3; 0] (Some [1; 1; 0; 1; 1]) 5 [9; 9; 9; 9; 9]
    (Some [7; 7; 7; 7; 7]) [(30, 1); (0, 0); (0, 0)]); try reflexivity; try (intros a [= <-]; reflexivity); try done.
  intros k r Hk. pose proof (zlookup_Some_range _ _ _ Hk) as Hr. change (zlen _) with 3 in Hr.
  assert (k = 0 \/ k = 1 \/ k = 2) as [->|[->| ->]] by lia; injection Hk as <-; reflexivity.
Defined.

(** ** Values by condition *)

(** [( nn == NULL ) || ( nn[i] == 1 )] *)
Definition is_one (nn : option (list Z)) (i : Z) : res bool :=
  match nn with None => Ok true | Some l => b ← rd l i; Ok (b =? 1) end.

Section wisifxthenyelsez.
Context {A : Type} (zero : A).

(** One of the two operands: a scalar when the field is NULL; [None] where the
    field is null. *)
Definition wis_operand (val : A) (in_V : option (list A)) (nn_V : option (list Z)) (i : Z) : res (option A) :=
  match in_V with
  | None => Ok (Some val)
  | Some V => ok ← is_one nn_V i; if ok : bool then v ← rd V i; Ok (Some v) else Ok None
  end.

(** [exit(-1)] ends the process: an error.  [*ptr_is_some_null] is set to
    false where a null is written. *)
Fixpoint wis_loop (n : nat) (X : list Z) (nn_X : option (list Z)) (yval : A) (in_Y : option (list A))
    (nn_Y : option (list Z)) (zval : A) (in_Z : option (list A)) (nn_Z : option (list Z)) (i : Z)
    (W : list A) (nn_W : list Z) (is_some_null : bool) : res (list A * list Z * bool) :=
  match n with
  | O => Ok (W, nn_W, is_some_null)
  | Datatypes.S n =>
      x_ok ← is_one nn_X i;
      w ← (if x_ok : bool then
             x ← rd X i;
             if x =? 1 then wis_operand yval in_Y nn_Y i
             else if x =? 0 then wis_operand zval in_Z nn_Z i
             else Err
           else Ok None);
      match w with
      | Some w => W ← wr W i w; nn_W ← wr nn_W i 1;
                  wis_loop n X nn_X yval in_Y nn_Y zval in_Z nn_Z (i + 1) W nn_W is_some_null
      | None => W ← wr W i zero; nn_W ← wr nn_W i 0;
                wis_loop n X nn_X yval in_Y nn_Y zval in_Z nn_Z (i + 1) W nn_W false
      end
  end.
Definition core_wisifxthenyelsez X nn_X nR yval in_Y nn_Y zval in_Z nn_Z W nn_W is_some_null :=
  wis_loop (Z.to_nat nR) X nn_X yval in_Y nn_Y zval in_Z nn_Z 0 W nn_W is_some_null.
End wisifxthenyelsez.

Definition core_wisifxthenyelsez_I1 := core_wisifxthenyelsez 0.
Definition core_wisifxthenyelsez_I4 := core_wisifxthenyelsez 0.
Definition core_wisifxthenyelsez_I8 := core_wisifxthenyelsez 0.
Definition core_wisifxthenyelsez_F4 := core_wisifxthenyelsez fzero.

Example choice :
  core_wisifxthenyelsez_I4 [1; 0; 1; 0] (Some [1; 1; 1; 0]) 4 7 None None 0 (Some [20; 21; 22; 23]) None
    [0; 0; 0; 0] [0; 0; 0; 0] false = Ok ([7; 21; 7; 0], [1; 1; 1; 0], false).
Proof. reflexivity. Qed.

(** *** Scalars *)

Section scalar.
(** [strtod(s, &endptr)] of the standard library. *)
Variable strtod : string -> float * string.

(** The four variables of a scalar, with the values they are declared with. *)
Record scalar := { valI1 : Z; valI4 : Z; valI8 : Z; valF4 : float }.
Definition no_scalar : scalar := {| valI1 := SCHAR_MAX; valI4 := INT_MAX; valI8 := LLONG_MAX; valF4 := FLT_MAX |}.

(** The switch on the type of the other operand.  A scalar for an F4 field is
    converted to [int] and kept in the I4 variable. *)
Definition read_scalar (txt : string) (fldtype : FLD_TYPE) : res scalar :=
  let '(v, endptr) := strtoll txt in
  match fldtype with
  | I1 =>
      _ ← go_BYE_if (negb (strcmp_eq endptr ""));
      _ ← go_BYE_if ((v <? SCHAR_MIN) || (SCHAR_MAX <? v));
      Ok {| valI1 := v; valI4 := INT_MAX; valI8 := v; valF4 := FLT_MAX |}
  | I4 =>
      _ ← go_BYE_if (negb (strcmp_eq endptr ""));
      _ ← go_BYE_if ((v <? INT_MIN) || (INT_MAX <? v));
      Ok {| valI1 := SCHAR_MAX; valI4 := v; valI8 := v; valF4 := FLT_MAX |}
  | I8 =>
      _ ← go_BYE_if (negb (strcmp_eq endptr ""));
      Ok {| valI1 := SCHAR_MAX; valI4 := INT_MAX; valI8 := v; valF4 := FLT_MAX |}
  | F4 =>
      let '(x, endptr) := strtod txt in
      v ← trunc_Z 32 x;
      _ ← go_BYE_if (negb (strcmp_eq endptr ""));
      Ok {| valI1 := SCHAR_MAX; valI4 := v; valI8 := LLONG_MAX; valF4 := FLT_MAX |}
  | _ => Err
  end.

(** The switch on the type of the result. *)
Definition wis_switch (w_fldtype : FLD_TYPE) (X : list Z) (nn_X : option (list Z)) (nR : Z) (y : scalar)
    (in_Y : option column) (nn_Y : option (list Z)) (z : scalar) (in_Z : option column) (nn_Z : option (list Z))
    (in_W : column) (nn_W : list Z) (is_some_null : bool) : res (column * list Z * bool) :=
  let ints (yval zval : Z) (kernel : list Z -> option (list Z) -> Z -> Z -> option (list Z) -> option (list Z) -> Z ->
              option (list Z) -> option (list Z) -> list Z -> list Z -> bool -> res (list Z * list Z * bool)) :=
    match in_Y, in_Z, in_W with
    | (None | Some (Ints _)), (None | Some (Ints _)), Ints W =>
        let cells (C : option column) := match C with Some (Ints l) => Some l | _ => None end in
        '(W, nn_W, is_some_null) ← kernel X nn_X nR yval (cells in_Y) nn_Y zval (cells in_Z) nn_Z W nn_W is_some_null;
        Ok (Ints W, nn_W, is_some_null)
    | _, _, _ => Ub
    end in
  match w_fldtype with
  | I4 => ints (valI4 y) (valI4 z) core_wisifxthenyelsez_I4
  | I8 => ints (valI8 y) (valI8 z) core_wisifxthenyelsez_I8
  | I1 => ints (valI1 y) (valI1 z) core_wisifxthenyelsez_I1
  | F4 =>
      match in_Y, in_Z, in_W with
      | (None | Some (Floats _)), (None | Some (Floats _)), Floats W =>
          let cells (C : option column) := match C with Some (Floats l) => Some l | _ => None end in
          '(W, nn_W, is_some_null) ←
            core_wisifxthenyelsez_F4 X nn_X nR (valF4 y) (cells in_Y) nn_Y (valF4 z) (cells in_Z) nn_Z W nn_W is_some_null;
          Ok (Floats W, nn_W, is_some_null)
      | _, _, _ => Ub
      end
  | _ => Err
  end.
End scalar.

(** A scalar with an F4 field is lost: the rows get FLT_MAX. *)
Example F4_scalar_lost :
  (s ← read_scalar (fun _ => (S754_finite false 8388608 (-23), ""%string)) "1" F4;
   wis_switch F4 [1; 0] None 2 s None None no_scalar (Some (Floats [fzero; fzero])) None (Floats [fzero; fzero]) [0; 0] false)
  = Ok (Floats [FLT_MAX; fzero], [1; 1], false).
Proof. reflexivity. Qed.

(** *** The kernel is a choice, row by row *)

Section wis_rows.
Context {A : Type} (zero : A) (X : list Z) (nn_X : option (list Z)).
Context (yval : A) (in_Y : option (list A)) (nn_Y : option (list Z)).
Context (zval : A) (in_Z : option (list A)) (nn_Z : option (list Z)).

Definition flag_one (nn : option (list Z)) (i : Z) : bool :=
  match nn with None => true | Some l => bool_decide (l !z i = Some 1) end.
(** The value of an operand in a row, [None] if it is null. *)
Definition operand_at (val : A) (in_V : option (list A)) (nn_V : option (list Z)) (i : Z) : option A :=
  match in_V with None => Some val | Some V => if flag_one nn_V i then V !z i else None end.
(** [None] if the condition is not null, 0 or 1. *)
Definition wis_row (i : Z) : option (option A) :=
  if flag_one nn_X i then
    match X !z i with
    | Some 1 => Some (operand_at yval in_Y nn_Y i)
    | Some 0 => Some (operand_at zval in_Z nn_Z i)
    | _ => None
    end
  else Some None.

Context (nR : Z) (LX : zlen X = nR) (LnX : has_len nR nn_X).
Context (LY : forall V, in_Y = Some V -> zlen V = nR) (LnY : has_len nR nn_Y).
Context (LZ : forall V, in_Z = Some V -> zlen V = nR) (LnZ : has_len nR nn_Z).

Lemma is_one_ok nn i : has_len nR nn -> 0 <= i < nR -> is_one nn i = Ok (flag_one nn i).
Proof.
  intros Hn Hi. destruct nn as [l|]; [|done]. specialize (Hn l eq_refl). cbn [is_one flag_one].
  destruct (zlookup_is_Some l i) as [b Hb]; [lia|]. rewrite (proj2 (rd_Ok _ _ _) Hb). cbn [mbind res_bind]. f_equal.
  rewrite Hb. destruct (Z.eqb_spec b 1) as [->|Hne]; [by rewrite bool_decide_true|].
  rewrite bool_decide_false; [done|]. by intros [= ->].
Qed.

Lemma wis_operand_ok val in_V nn_V i :
  (forall V, in_V = Some V -> zlen V = nR) -> has_len nR nn_V -> 0 <= i < nR ->
  wis_operand val in_V nn_V i = Ok (operand_at val in_V nn_V i).
Proof.
  intros HV Hn Hi. unfold wis_operand, operand_at. destruct in_V as [V|]; [|done]. specialize (HV V eq_refl).
  rewrite is_one_ok by done. cbn [mbind res_bind]. destruct (flag_one nn_V i); [|done].
  destruct (zlookup_is_Some V i) as [v Hv]; [lia|]. by rewrite (proj2 (rd_Ok _ _ _) Hv), Hv.
Qed.

Definition flag_of (w : option A) : Z := match w with Some _ => 1 | None => 0 end.

Lemma wis_loop_step n i W nn_W some :
  0 <= i < nR ->
  wis_loop zero (Datatypes.S n) X nn_X yval in_Y nn_Y zval in_Z nn_Z i W nn_W some
  = match wis_row i with
    | None => Err
    | Some w => W ← wr W i (default zero w); nn_W ← wr nn_W i (flag_of w);
                wis_loop zero n X nn_X yval in_Y nn_Y zval in_Z nn_Z (i + 1) W nn_W
                  (match w with Some _ => some | None => false end)
    end.
Proof.
  intros Hi. cbn [wis_loop]. unfold wis_row. rewrite is_one_ok by done. cbn [mbind res_bind].
  destruct (flag_one nn_X i); [|done]. destruct (zlookup_is_Some X i) as [x Hx]; [lia|].
  rewrite (proj2 (rd_Ok _ _ _) Hx), Hx. cbn [mbind res_bind]. rewrite !wis_operand_ok by done.
  destruct (Z.eqb_spec x 1) as [->|N1]; [cbn [mbind res_bind]; by destruct (operand_at yval in_Y nn_Y i)|].
  destruct (Z.eqb_spec x 0) as [->|N0]; [cbn [mbind res_bind]; by destruct (operand_at zval in_Z nn_Z i)|].
  destruct x as [|[]|]; done.
Qed.

Lemma wis_loop_rows rows W nn_W n : forall i,
  zlen W = nR -> zlen nn_W = nR -> zlen rows <= nR -> (forall k r, rows !z k = Some r -> wis_row k = Some r) ->
  (zlen rows < nR -> wis_row (zlen rows) = None) -> 0 <= i <= zlen rows -> i + Z.of_nat n = nR ->
  wis_loop zero n X nn_X yval in_Y nn_Y zval in_Z nn_Z i (overwritten (default zero <$> rows) i W)
    (overwritten (flag_of <$> rows) i nn_W) false
  = if zlen rows =? nR then
      Ok (overwritten (default zero <$> rows) (zlen rows) W, overwritten (flag_of <$> rows) (zlen rows) nn_W, false)
    else Err.
Proof.
  induction n as [|n IH]; intros i LW Ln Hr Hrow Hend Hi Hn.
  { assert (zlen rows = i) as -> by lia. cbn [wis_loop]. by rewrite (proj2 (Z.eqb_eq i nR)) by lia. }
  rewrite wis_loop_step by lia. destruct (decide (i = zlen rows)) as [->|Hne].
  { rewrite Hend by lia. by rewrite (proj2 (Z.eqb_neq _ _)) by lia. }
  destruct (zlookup_is_Some rows i) as [w Er]; [lia|]. rewrite (Hrow i _ Er).
  assert (forall C (g : option A -> C) out, zlen out = nR ->
    wr (overwritten (g <$> rows) i out) i (g w) = Ok (overwritten (g <$> rows) (i + 1) out)) as Hwr.
  { intros C g out Ho. apply wr_overwritten; [rewrite zlen_fmap; lia|].
    by rewrite zlookup_to_nat, list_lookup_fmap, <- zlookup_to_nat, Er by lia. }
  rewrite (Hwr A (default zero)), (Hwr Z flag_of) by done. cbn [mbind res_bind].
  replace (match w with Some _ => false | None => false end) with false by (by destruct w).
  apply IH; (done || lia).
Qed.
End wis_rows.

(** Claim C25. [core_wisifxthenyelsez_<T>], on fields of the right lengths:
    when the condition of every row is null, 0 or 1, the result has, row by
    row, the value of the first operand where the condition is 1, of the
    second where it is 0, and zero with the flag 0 where the condition or the
    operand it picks is null; [is_some_null] stays false, also when a row is
    null.  Any other condition ends the process. *)
Theorem core_wisifxthenyelsez_correct {A} (zero : A) X nn_X nR yval in_Y nn_Y zval in_Z nn_Z W nn_W rows :
  zlen X = nR -> has_len nR nn_X -> (forall V, in_Y = Some V -> zlen V = nR) -> has_len nR nn_Y ->
  (forall V, in_Z = Some V -> zlen V = nR) -> has_len nR nn_Z -> zlen W = nR -> zlen nn_W = nR -> zlen rows <= nR ->
  let row := wis_row X nn_X yval in_Y nn_Y zval in_Z nn_Z in
  (forall k r, rows !z k = Some r -> row k = Some r) -> (zlen rows < nR -> row (zlen rows) = None) ->
  core_wisifxthenyelsez zero X nn_X nR yval in_Y nn_Y zval in_Z nn_Z W nn_W false
  = if zlen rows =? nR then Ok (default zero <$> rows, flag_of <$> rows, false) else Err.
Proof.
  intros LX LnX LY LnY LZ LnZ LW Ln Hr row Hrow Hend. unfold core_wisifxthenyelsez. pose proof (zlen_nonneg rows).
  pose proof (wis_loop_rows zero X nn_X yval in_Y nn_Y zval in_Z nn_Z nR LX LnX LY LnY LZ LnZ rows W nn_W (Z.to_nat nR) 0
    LW Ln Hr Hrow Hend ltac:(lia) ltac:(lia)) as E.
  rewrite !overwritten_0 in E. rewrite E. destruct (Z.eqb_spec (zlen rows) nR) as [En|]; [|done].
  pose proof (overwritten_all (default zero <$> rows) W) as E1. pose proof (overwritten_all (flag_of <$> rows) nn_W) as E2.
  rewrite !zlen_fmap in E1. rewrite !zlen_fmap in E2. by rewrite E1, E2 by congruence.
Qed.

Lemma core_wisifxthenyelsez_correct_witness :
  core_wisifxthenyelsez 0 [1; 0; 1; 0] (Some [1; 1; 1; 0]) 4 7 (Some [10; 11; 12; 13]) (Some [1; 1; 0; 1]) 5 None None
    [0; 0; 0; 0] [0; 0; 0; 0] false
  = Ok ([10; 5; 0; 0], [1; 1; 0; 0], false).
Proof.
  apply (core_wisifxthenyelsez_correct 0 [1; 0; 1; 0] (Some [1; 1; 1; 0]) 4 7 (Some [10; 11; 12; 13]) (Some [1; 1; 0; 1]) 5
    None None [0; 0; 0; 0] [0; 0; 0; 0] [Some 10; Some 5; None; None]); try reflexivity;
    try (intros a [= <-]; reflexivity); try done.
  intros k r Hk. pose proof (zlookup_Some_range _ _ _ Hk) as Hr. change (zlen _) with 4 in Hr.
  assert (k = 0 \/ k = 1 \/ k = 2 \/ k = 3) as [->|[->|[->| ->]]] by lia; injection Hk as <-; reflexivity.
Defined.
