(* ===== verification/HashTable.v ===== *)
(** * Open addressing, and counting with a hash table.

    [count_ht] models src/src/dir_wr_verbs/count_ht.c from the data of the
    field to the data of the two new fields; [is_prime] and [prime_geq] those
    of dir_utils/auxil.c, which size the table.  The search for a slot, in
    one place here, is written twice in count_ht.c and twice in
    dir_helpers/mk_dict.c (Dict.v): from the home of the key to the end of
    the table, then from its start. *)

From stdpp Require Import prelude.
From Stdlib Require Import ZArith Lia.
From S2P Require Import Prelude Types Hash Setops Reduce.
Import Reduce.

(** ** Sizes of tables *)

(** The body of the loop of [is_prime]: [n] divisors from [j] on are tried. *)
Fixpoint no_divisor (fuel : nat) (n j : Z) : bool :=
  match fuel with
  | O => true
  | S fuel => if n mod j =? 0 then false else no_divisor fuel n (j + 1)
  end.

(** [(int)(sqrt((double)n))] is [Z.sqrt n]: below 2^32 the square root in
    double precision is not rounded up to an integer. *)
Definition is_prime (n : Z) : bool :=
  if n =? 0 then false else if n =? 1 then true else if n =? 2 then true else if n =? 3 then true
  else no_divisor (Z.to_nat (Z.sqrt n - 2)) n 2.

(** [for ( int m = n+1; ; m++ )], with fuel. *)
Fixpoint prime_from (fuel : nat) (m : Z) : res Z :=
  match fuel with
  | O => NoFuel
  | S fuel => if is_prime m then Ok m else prime_from fuel (m + 1)
  end.
Definition prime_geq (n : Z) : res Z := prime_from 1000 (n + 1).

Example sizes_of_tables : prime_geq 65536 = Ok 65537 /\ prime_geq (4 * 1048576) = Ok 4194319.
Proof. split; vm_compute; reflexivity. Qed.
Example squares_of_primes : is_prime 49 = true /\ is_prime 1 = true /\ prime_geq 7 = Ok 8.
Proof. split_and!; vm_compute; reflexivity. Qed.

(** ** The search for a slot *)

Module Probe.

(** How the search ends at a slot: it holds the key, or it is free, or it
    holds the key of something else. *)
Inductive verdict := Found | Unoccupied | Clash.

Section search.
Context {slot : Type}.

(** [for ( int i = ...; ...; i++ ) { ... }] over [n] slots *)
Fixpoint scan (test : slot -> res (option verdict)) (ht : list slot) (n : nat) (i : Z)
    : res (option (Z * verdict)) :=
  match n with
  | O => Ok None
  | S n =>
      s ← rd ht i;
      v ← test s;
      match v with
      | Some v => Ok (Some (i, v))
      | None => scan test ht n (i + 1)
      end
  end.

Definition find_slot (test : slot -> res (option verdict)) (ht : list slot) (sz_ht ht_loc : Z)
    : res (option (Z * verdict)) :=
  r ← scan test ht (Z.to_nat (sz_ht - ht_loc)) ht_loc;
  match r with
  | Some r => Ok (Some r)
  | None => scan test ht (Z.to_nat ht_loc) 0
  end.

(** The body of the loops: [same] is asked only of a slot with the key. *)
Definition probe_test (key cnt : slot -> Z) (same : slot -> res bool) (k : Z) (s : slot)
    : res (option verdict) :=
  if key s =? k then b ← same s; Ok (Some (if b : bool then Found else Clash))
  else if cnt s =? 0 then Ok (Some Unoccupied)
  else Ok None.

(** ** Where the search ends

    The slots in the order in which they are looked at. *)
Definition order (sz h : Z) : list Z := seqZ h (sz - h) ++ seqZ 0 h.

Section theory.
Context (key cnt : slot -> Z).

(** The search for [k] goes past the slot; it ends there. *)
Definition passes (k : Z) (ht : list slot) (q : Z) : Prop :=
  exists s, ht !z q = Some s /\ key s <> k /\ cnt s <> 0.
Definition stops (k : Z) (ht : list slot) (q : Z) : Prop :=
  exists s, ht !z q = Some s /\ (key s = k \/ cnt s = 0).

(** Of the slots of [l], [p] is the first where the search for [k] ends. *)
Definition first_stop (k : Z) (ht : list slot) (l : list Z) (p : Z) : Prop :=
  exists l1 l2, l = l1 ++ p :: l2 /\ Forall (passes k ht) l1 /\ stops k ht p.

Lemma stops_not_passes k ht q : stops k ht q -> ~ passes k ht q.
Proof. intros (s & Hs & Hk) (s' & Hs' & ? & ?). simplify_eq. by destruct Hk. Qed.

Lemma first_stop_unique k ht l p q : first_stop k ht l p -> first_stop k ht l q -> p = q.
Proof.
  intros (l1 & l2 & -> & H1 & Hp) (m1 & m2 & E & H2 & Hq). revert m1 E H2.
  induction l1 as [|x l1 IH]; intros [|y m1] E H2; cbn in E; injection E as Ep E; [done| | |].
  - subst y. apply Forall_cons in H2 as [H2 _]. by destruct (stops_not_passes k ht p).
  - subst x. apply Forall_cons in H1 as [H1 _]. by destruct (stops_not_passes k ht q).
  - apply Forall_cons in H1 as [_ H1], H2 as [_ H2]. by apply (IH H1 m1).
Qed.

(** Writing a slot with key [k] where the search for [k] ended moves no key. *)
Lemma passes_put j ht p s s' q :
  ht !z p = Some s -> key s' <> j -> cnt s' <> 0 -> passes j ht q -> passes j (zset ht p s') q.
Proof.
  intros Hs Hk Hc (r & Hr & Hj). pose proof (zlookup_Some_range _ _ _ Hs).
  unfold passes. rewrite zlookup_zset by done. case_decide; eauto.
Qed.

Lemma first_stop_other j k ht l p q s s' :
  first_stop j ht l q -> q <> p -> ht !z p = Some s -> key s' = k -> j <> k -> cnt s' <> 0 ->
  first_stop j (zset ht p s') l q.
Proof.
  intros (l1 & l2 & -> & H1 & (r & Hr & Hj)) Hne Hs Hk Hjk Hc. exists l1, l2.
  pose proof (zlookup_Some_range _ _ _ Hs).
  split_and!; [done| |exists r; by rewrite zlookup_zset_ne by lia].
  eapply Forall_impl; [exact H1|]. intros x Hx. apply (passes_put j ht p s s' x); congruence.
Qed.

Lemma first_stop_same k ht l p s' :
  first_stop k ht l p -> key s' = k -> first_stop k (zset ht p s') l p.
Proof.
  intros (l1 & l2 & -> & H1 & Hp) Hk. exists l1, l2. pose proof Hp as (s & Hs & _).
  pose proof (zlookup_Some_range _ _ _ Hs). split_and!; [done| |].
  - apply Forall_forall. intros x Hx. rewrite Forall_forall in H1.
    specialize (H1 x Hx). destruct (decide (x = p)) as [->|Hne].
    { by destruct (stops_not_passes k ht p). }
    destruct H1 as (r & Hr & ?). exists r. by rewrite zlookup_zset_ne by lia.
  - exists s'. rewrite zlookup_zset_eq by done. auto.
Qed.

(** *** The loops *)
Definition ends_at (p : Z) (r : res (option verdict)) : res (option (Z * verdict)) :=
  v ← r; Ok (option_map (pair p) v).

Context (same : slot -> res bool) (k : Z).
Let test := probe_test key cnt same k.

Lemma scan_ok ht n i :
  (forall q, i <= q < i + Z.of_nat n -> 0 <= q < zlen ht) ->
  (exists p s, first_stop k ht (seqZ i (Z.of_nat n)) p /\ ht !z p = Some s /\
     scan test ht n i = ends_at p (test s)) \/
  (Forall (passes k ht) (seqZ i (Z.of_nat n)) /\ scan test ht n i = Ok None).
Proof.
  revert i. induction n as [|n IH]; intros i Hin; [by right|].
  destruct (zlookup_is_Some ht i ltac:(apply Hin; lia)) as (s & Hs).
  assert (Hscan : scan test ht (S n) i =
    (v ← test s; match v with Some v => Ok (Some (i, v)) | None => scan test ht n (i + 1) end)).
  { simpl. by rewrite (proj2 (rd_Ok ht i s)) by done. }
  rewrite (seqZ_cons i) by lia. replace (Z.succ i) with (i + 1) by lia.
  replace (Z.pred (Z.of_nat (S n))) with (Z.of_nat n) by lia.
  destruct (decide (key s = k \/ cnt s = 0)) as [Hst|Hst].
  - left. exists i, s. split; [|split; [done|]].
    + exists [], (seqZ (i + 1) (Z.of_nat n)). split_and!; [done..|]. by exists s.
    + rewrite Hscan. unfold test, probe_test. destruct (Z.eqb_spec (key s) k) as [Hk|Hk].
      * by destruct (same s) as [b| | |].
      * rewrite (proj2 (Z.eqb_eq _ _)) by (by destruct Hst). done.
  - assert (Hp : passes k ht i) by (exists s; split; [done|tauto]).
    assert (test s = Ok None) as Ht by (unfold test, probe_test; by rewrite !(proj2 (Z.eqb_neq _ _)) by tauto).
    rewrite Hscan, Ht. cbn [mbind res_bind].
    destruct (IH (i + 1) ltac:(intros; apply Hin; lia)) as [(p & r & (l1 & l2 & E & H1 & H2) & Hr & ->)|[Hall ->]].
    + left. exists p, r. split; [|done]. exists (i :: l1), l2. rewrite E. auto.
    + right. auto.
Qed.

Lemma test_not_None s : key s = k \/ cnt s = 0 -> test s <> Ok None.
Proof.
  intros Hst. unfold test, probe_test. destruct (Z.eqb_spec (key s) k) as [Hk|Hk].
  - by destruct (same s).
  - by rewrite (proj2 (Z.eqb_eq _ _)) by (by destruct Hst).
Qed.

Lemma find_slot_ok ht h :
  0 <= h <= zlen ht ->
  (exists p s, first_stop k ht (order (zlen ht) h) p /\ ht !z p = Some s /\
     find_slot test ht (zlen ht) h = ends_at p (test s)) \/
  (Forall (passes k ht) (order (zlen ht) h) /\ find_slot test ht (zlen ht) h = Ok None).
Proof.
  intros Hh. unfold find_slot, order.
  destruct (scan_ok ht (Z.to_nat (zlen ht - h)) h ltac:(lia)) as [(p & s & H1 & Hs & ->)|[H1 ->]];
    rewrite Z2Nat.id in * by lia.
  - left. exists p, s. split; [|split; [done|]].
    + destruct H1 as (l1 & l2 & -> & ? & ?). exists l1, (l2 ++ seqZ 0 h). by rewrite <- app_assoc.
    + assert (test s <> Ok None) as Hn.
      { destruct H1 as (_ & _ & _ & _ & (s' & Hs' & Hst)). assert (s' = s) as -> by congruence.
        by apply test_not_None. }
      by destruct (test s) as [[v|]| | |].
  - cbn [mbind res_bind].
    destruct (scan_ok ht (Z.to_nat h) 0 ltac:(lia)) as [(p & s & H2 & Hs & ->)|[H2 ->]];
      rewrite Z2Nat.id in * by lia.
    + left. exists p, s. split; [|done]. destruct H2 as (l1 & l2 & -> & ? & ?).
      exists (seqZ h (zlen ht - h) ++ l1), l2. rewrite <- app_assoc. split_and!; [done| |done].
      by apply Forall_app.
    + right. split; [by apply Forall_app|done].
Qed.

End theory.

(** *** Tables *)
Section tables.
Context (key cnt : slot -> Z) (home : Z -> Z).

Definition occupied (s : slot) : Prop := cnt s <> 0.
#[global] Instance occupied_dec s : Decision (occupied s).
Proof. unfold occupied. apply _. Defined.

(** Every key is where the search for it ends. *)
Definition table_ok (ht : list slot) : Prop :=
  forall p s, ht !z p = Some s -> occupied s ->
    first_stop key cnt (key s) ht (order (zlen ht) (home (key s))) p.

(** [k] is a key of the table. *)
Definition in_table (ht : list slot) (k : Z) : Prop :=
  exists p s, ht !z p = Some s /\ key s = k /\ occupied s.

Definition entries (ht : list slot) : list slot := filter occupied ht.

Context (ht : list slot) (Hok : table_ok ht).

Lemma key_unique p q s s' :
  ht !z p = Some s -> ht !z q = Some s' -> occupied s -> occupied s' -> key s = key s' -> p = q.
Proof.
  intros Hs Hs' Ho Ho' E. pose proof (Hok p s Hs Ho) as H1. rewrite E in H1.
  exact (first_stop_unique key cnt _ _ _ _ _ H1 (Hok q s' Hs' Ho')).
Qed.

Lemma stop_at_key k p s :
  in_table ht k -> first_stop key cnt k ht (order (zlen ht) (home k)) p -> ht !z p = Some s ->
  key s = k /\ occupied s.
Proof.
  intros (q & s' & Hs' & <- & Ho) Hp Hs.
  assert (q = p) as -> by exact (first_stop_unique key cnt _ _ _ _ _ (Hok q s' Hs' Ho) Hp).
  by simplify_eq.
Qed.

Lemma table_ok_put k p s' :
  first_stop key cnt k ht (order (zlen ht) (home k)) p -> key s' = k -> occupied s' ->
  table_ok (zset ht p s').
Proof.
  intros Hp Hk Ho q r Hr Hor. rewrite zlen_zset.
  pose proof Hp as (_ & _ & _ & _ & (s & Hs & _)). pose proof (zlookup_Some_range _ _ _ Hs).
  rewrite zlookup_zset in Hr by done. case_decide as E.
  - simplify_eq. by apply first_stop_same.
  - pose proof (Hok q r Hr Hor) as Hq. destruct (decide (key r = k)) as [Ek|Hne].
    { rewrite Ek in Hq. by destruct E; apply (first_stop_unique key cnt _ _ _ _ _ Hq Hp). }
    by apply (first_stop_other key cnt _ k _ _ _ _ s s').
Qed.

Lemma entries_lookup s : s ∈ entries ht <-> occupied s /\ exists p, ht !z p = Some s.
Proof.
  unfold entries. rewrite list_elem_of_filter, list_elem_of_lookup. f_equiv. split.
  - intros (i & Hi). exists (Z.of_nat i). by rewrite zlookup_nat.
  - intros (p & Hp). exists (Z.to_nat p). pose proof (zlookup_Some_range _ _ _ Hp).
    by rewrite zlookup_to_nat in Hp by lia.
Qed.

Lemma entries_keys k : k ∈ key <$> entries ht <-> in_table ht k.
Proof.
  rewrite list_elem_of_fmap. setoid_rewrite entries_lookup. unfold in_table.
  split; [intros (s & -> & Ho & p & Hp); eauto|intros (p & s & Hp & <- & Ho); eauto 8].
Qed.

(** The slots that the search passes by are all occupied. *)
Lemma full_table k h :
  0 <= h < zlen ht -> Forall (passes key cnt k ht) (order (zlen ht) h) -> entries ht = ht.
Proof.
  intros Hh Hall. unfold entries. rewrite Forall_forall in Hall.
  assert (Forall occupied ht) as Ho.
  { apply Forall_lookup. intros i s Hi.
    destruct (Hall (Z.of_nat i)) as (s' & Hs' & _ & Hc).
    - pose proof (lookup_lt_Some _ _ _ Hi). unfold order, zlen in *. rewrite elem_of_app, !elem_of_seqZ. lia.
    - rewrite zlookup_nat in Hs'. by simplify_eq. }
  clear -Ho. induction Ho as [|s l Hs Hl IH]; [done|]. by rewrite filter_cons_True, IH.
Qed.

End tables.

Lemma entries_put cnt (ht : list slot) p s s' :
  ht !z p = Some s -> occupied cnt s' ->
  entries cnt (zset ht p s') ≡ₚ
    if decide (occupied cnt s) then s' :: entries cnt (delete (Z.to_nat p) ht) else s' :: entries cnt ht.
Proof.
  intros Hs Ho. destruct (zlookup_split _ _ _ Hs) as (l1 & l2 & -> & ->). rewrite zset_split, to_nat_zlen.
  rewrite delete_middle. unfold entries. rewrite !filter_app, !filter_cons.
  rewrite (decide_True (P := occupied cnt s')) by done.
  case_decide; by rewrite Permutation_middle.
Qed.

Lemma entries_del cnt (ht : list slot) p s :
  ht !z p = Some s -> occupied cnt s -> entries cnt ht ≡ₚ s :: entries cnt (delete (Z.to_nat p) ht).
Proof.
  intros Hs Ho. rewrite <- (zset_id ht p s) at 1 by done.
  rewrite (entries_put cnt ht p s s) by done. by rewrite decide_True.
Qed.

(** No two entries have the same key. *)
Lemma entries_NoDup key cnt home (ht : list slot) : table_ok key cnt home ht -> NoDup (key <$> entries cnt ht).
Proof.
  intros Hok. assert (forall l pre, ht = pre ++ l -> NoDup (key <$> entries cnt l)) as Hgen; [|by apply (Hgen ht [])].
  induction l as [|s l IH]; intros pre E; [constructor|]. unfold entries. rewrite filter_cons.
  assert (NoDup (key <$> entries cnt l)) as Hl by (apply (IH (pre ++ [s])); by rewrite <- app_assoc).
  case_decide as Ho; [|done]. cbn. apply NoDup_cons. split; [|done].
  intros (s' & Ek & [Ho' Hs']%list_elem_of_filter)%list_elem_of_fmap.
  apply list_elem_of_lookup in Hs' as (j & Hj).
  assert (zlen pre = zlen pre + 1 + Z.of_nat j) as Eq; [|lia].
  apply (key_unique key cnt home ht Hok _ _ s s'); try done; subst ht; unfold zlen.
  - by rewrite zlookup_nat, list_lookup_middle.
  - replace (Z.of_nat (length pre) + 1 + Z.of_nat j) with (Z.of_nat (length pre + S j)) by lia.
    rewrite zlookup_nat, lookup_app_r by lia. by replace (length pre + S j - length pre)%nat with (S j) by lia.
Qed.

End search.
End Probe.

(** ** count_ht *)

Module CountHt.
Import Probe.

Record HT_I8_TYPE := { key : Z; cnt : Z }.
Definition free_slot : HT_I8_TYPE := {| key := 0; cnt := 0 |}.

(** [ht], [n_ht] and [max_count] *)
Record table := { slots : list HT_I8_TYPE; n_ht : Z; max_count : Z }.

Definition same_key (s : HT_I8_TYPE) : res bool := Ok true.
Definition find_value (ulval sz_ht : Z) (ht : list HT_I8_TYPE) : res (option (Z * verdict)) :=
  find_slot (probe_test key cnt same_key ulval) ht sz_ht (HashString.mix_I8 ulval mod sz_ht).

(** [key_exists]: the slot of the key is counted up; a free slot is also
    taken for the slot of the key 0. *)
Definition count_found (ulval pos_ht : Z) (t : table) : res table :=
  s ← rd (slots t) pos_ht;
  _ ← go_BYE_if (negb (key s =? ulval));
  _ ← go_BYE_if (pos_ht =? 1);
  let '(s, n) := if cnt s =? 0 then ({| key := ulval; cnt := 1 |}, n_ht t + 1) else (s, n_ht t) in
  let c := wrapU 64 (cnt s + 1) in
  ht ← wr (slots t) pos_ht {| key := key s; cnt := c |};
  Ok {| slots := ht; n_ht := n; max_count := Z.max (max_count t) c |}.

Definition count_new (ulval pos_ht : Z) (t : table) : res table :=
  ht ← wr (slots t) pos_ht {| key := ulval; cnt := 1 |};
  Ok {| slots := ht; n_ht := n_ht t + 1; max_count := max_count t |}.

(** A row whose value is [ulval] *)
Definition count_value (sz_ht ulval : Z) (t : table) : res table :=
  r ← find_value ulval sz_ht (slots t);
  t ← match r with
      | None | Some (_, Clash) => Err
      | Some (pos_ht, Found) => count_found ulval pos_ht t
      | Some (pos_ht, Unoccupied) => count_new ulval pos_ht t
      end;
  _ ← go_BYE_if (Z.shiftr sz_ht 1 <? n_ht t);
  Ok t.

(** [(unsigned long long)I4val] and [(unsigned long long)I8val] *)
Definition ulval (t : FLD_TYPE) (X : column) (i : Z) : res Z :=
  match t, X with
  | I4, Ints X | I8, Ints X => x ← rd X i; Ok (wrapU 64 x)
  | _, _ => Err
  end.

Fixpoint count_ht_loop (n : nat) (t : FLD_TYPE) (X : column) (nn_X : option (list Z)) (sz_ht i : Z) (st : table)
    : res table :=
  match n with
  | O => Ok st
  | S n =>
      null ← Uniq.is_null_row nn_X i;
      if (null : bool) then count_ht_loop n t X nn_X sz_ht (i + 1) st
      else
        v ← ulval t X i;
        st ← count_value sz_ht v st;
        count_ht_loop n t X nn_X sz_ht (i + 1) st
  end.

(** [for ( int i = 0; i < sz_ht; i++ ) { if ( ht[i].cnt == 0 ) { continue; } ... }]:
    [out] is the new file, [ctr] the next cell. *)
Fixpoint dump_cells (n : nat) (cell : HT_I8_TYPE -> Z) (ht : list HT_I8_TYPE) (i ctr : Z) (out : list Z)
    : res (Z * list Z) :=
  match n with
  | O => Ok (ctr, out)
  | S n =>
      s ← rd ht i;
      if cnt s =? 0 then dump_cells n cell ht (i + 1) ctr out
      else
        out ← wr out ctr (cell s);
        dump_cells n cell ht (i + 1) (ctr + 1) out
  end.
Definition dump (cell : HT_I8_TYPE -> Z) (sz_ht : Z) (st : table) : res (list Z) :=
  '(ctr, out) ← dump_cells (Z.to_nat sz_ht) cell (slots st) 0 0 (replicate (Z.to_nat (n_ht st)) 0);
  _ ← go_BYE_if (negb (ctr =? n_ht st));
  Ok out.

Definition value_cell (t : FLD_TYPE) (s : HT_I8_TYPE) : Z :=
  wrapS (if decide (t = I4) then 32 else 64) (key s).
Definition count_cell (s : HT_I8_TYPE) : Z := wrapS 32 (cnt s).

Definition empty_table (sz_ht : Z) : table :=
  {| slots := replicate (Z.to_nat sz_ht) free_slot; n_ht := 0; max_count := 0 |}.

(** The data of the fields [value] and [count], for a table of [sz_ht] slots. *)
Definition count_sized (sz_ht : Z) (t : FLD_TYPE) (X : column) (nn_X : option (list Z)) (src_nR : Z)
    : res (list Z * list Z) :=
  st ← count_ht_loop (Z.to_nat src_nR) t X nn_X sz_ht 0 (empty_table sz_ht);
  vals ← dump (value_cell t) sz_ht st;
  _ ← go_BYE_if (INT_MAX <=? max_count st);
  cnts ← dump count_cell sz_ht st;
  Ok (vals, cnts).

Definition count_ht (t : FLD_TYPE) (X : column) (nn_X : option (list Z)) (src_nR : Z) : res (list Z * list Z) :=
  _ ← go_BYE_if (INT_MAX <=? src_nR);
  sz_ht ← prime_geq 65536;
  count_sized sz_ht t X nn_X src_nR.

Example count_ex :
  count_sized 11 I4 (Ints [10; -3; 10; 6; 10]) None 5 = Ok ([6; 10; -3], [1; 3; 1]).
Proof. vm_compute. reflexivity. Qed.
(** The first 0 counts twice. *)
Example count_zero :
  count_sized 11 I8 (Ints [0; 10; 0]) (Some [1; 1; 0]) 3 = Ok ([0; 10], [2; 1]).
Proof. vm_compute. reflexivity. Qed.
(** Slot 1 takes a value once. *)
Example count_slot_one : count_sized 11 I4 (Ints [7]) None 1 = Ok ([7], [1]) /\
  count_sized 11 I4 (Ints [7; 7]) None 2 = Err.
Proof. split; vm_compute; reflexivity. Qed.

(** ** What the table holds

    How often the value [v] is counted among [vs]. *)
Definition times_counted (vs : list Z) (v : Z) : Z := occ v vs + if decide (v = 0) then 1 else 0.
(** The number of different values. *)
Definition distinct (vs : list Z) : Z := zlen (remove_dups vs).
(** The values of the rows that are defined. *)
Definition values (X : list Z) (nn_X : option (list Z)) : list Z :=
  (Uniq.def_rows X (fun _ => 1) nn_X 0 (zlen X)).*1.

(** The rows one after the other. *)
Fixpoint count_values (sz_ht : Z) (vs : list Z) (st : table) : res table :=
  match vs with
  | [] => Ok st
  | v :: vs => st ← count_value sz_ht v st; count_values sz_ht vs st
  end.

Lemma snoc_elem (vs : list Z) v w : w ∈ vs ++ [v] <-> w ∈ vs \/ w = v.
Proof. by rewrite elem_of_app, list_elem_of_singleton. Qed.
Lemma snoc_in (vs : list Z) v : v ∈ vs ++ [v].
Proof. apply snoc_elem. by right. Qed.

Lemma times_counted_pos vs v : v ∈ vs -> 0 < times_counted vs v.
Proof. intros Hv%occ_pos. unfold times_counted. case_decide; lia. Qed.

Lemma times_counted_bounds vs v : 0 <= times_counted vs v <= zlen vs + 1.
Proof. pose proof (occ_bounds v vs). unfold times_counted. case_decide; lia. Qed.

Lemma times_counted_snoc_eq vs v : times_counted (vs ++ [v]) v = times_counted vs v + 1.
Proof. unfold times_counted. rewrite occ_app, occ_cons, decide_True by done. change (occ _ []) with 0. lia. Qed.

Lemma times_counted_snoc_ne vs v w : w <> v -> times_counted (vs ++ [v]) w = times_counted vs w.
Proof. intros. unfold times_counted. rewrite occ_app, occ_cons, decide_False by done. change (occ _ []) with 0. lia. Qed.

Section correctness.
Context (sz : Z) (Hsz : 0 < sz).

Abbreviation home := (fun k => HashString.mix_I8 k mod sz).

(** The table [st] after the values [vs]. *)
Record counted (vs : list Z) (st : table) : Prop := {
  ct_len : zlen (slots st) = sz;
  ct_ok : table_ok key cnt home (slots st);
  ct_slot p s : slots st !z p = Some s -> s = free_slot \/ key s ∈ vs /\ cnt s = times_counted vs (key s);
  ct_all v : v ∈ vs -> in_table key cnt (slots st) v;
  ct_n : n_ht st = zlen (entries cnt (slots st));
  ct_max : max_count st <= zlen vs + 1
}.

Lemma counted_empty : counted [] (empty_table sz).
Proof.
  assert (forall p s, slots (empty_table sz) !z p = Some s -> s = free_slot) as He.
  { intros p s Hp. pose proof (zlookup_Some_range _ _ _ Hp). rewrite zlookup_to_nat in Hp by lia.
    by apply lookup_replicate in Hp as [-> _]. }
  split; cbn [slots n_ht max_count].
  - unfold zlen, empty_table. cbn. rewrite length_replicate. lia.
  - intros p s Hs Ho. by rewrite (He p s Hs) in Ho.
  - intros p s Hs. left. by apply (He p).
  - intros v Hv. by apply elem_of_nil in Hv.
  - unfold entries. rewrite filter_none; [done|]. intros i s [-> _]%lookup_replicate Ho. by apply Ho.
  - done.
Qed.

Lemma counted_occupied vs st p s : counted vs st -> slots st !z p = Some s -> occupied cnt s ->
  key s ∈ vs /\ cnt s = times_counted vs (key s).
Proof. intros Hc Hs Ho. by destruct (ct_slot _ _ Hc p s Hs) as [->|?]. Qed.

Lemma stop_len vs st k h p : counted vs st ->
  first_stop key cnt k (slots st) (order sz h) p -> first_stop key cnt k (slots st) (order (zlen (slots st)) h) p.
Proof. intros Hc. by rewrite (ct_len _ _ Hc). Qed.

(** The search for a value that has been counted ends at its slot. *)
Lemma stop_in vs st v p s : counted vs st -> first_stop key cnt v (slots st) (order sz (home v)) p ->
  slots st !z p = Some s -> v ∈ vs -> key s = v /\ occupied cnt s.
Proof.
  intros Hc Hp Hs Hin. apply (stop_at_key key cnt home _ (ct_ok _ _ Hc) v p s); [|by apply (stop_len vs)|done].
  by apply (ct_all _ _ Hc).
Qed.

Lemma counted_put vs st v p s m :
  counted vs st -> first_stop key cnt v (slots st) (order sz (home v)) p -> slots st !z p = Some s ->
  m <= zlen vs + 2 ->
  counted (vs ++ [v]) {| slots := zset (slots st) p {| key := v; cnt := times_counted (vs ++ [v]) v |};
    n_ht := n_ht st + (if decide (occupied cnt s) then 0 else 1); max_count := m |}.
Proof.
  intros Hc Hp Hs Hm. pose proof (zlookup_Some_range _ _ _ Hs) as Hr.
  pose proof (times_counted_pos (vs ++ [v]) v (snoc_in vs v)) as Hpos.
  pose proof (ct_ok _ _ Hc) as Hok. pose proof (stop_len _ _ _ _ _ Hc Hp) as Hp'. clear Hp. rename Hp' into Hp.
  set (s' := {| key := v; cnt := times_counted (vs ++ [v]) v |}) in *.
  assert (occupied cnt s') as Ho by (unfold occupied; cbn; lia).
  split; cbn [slots n_ht max_count].
  - rewrite zlen_zset. apply (ct_len _ _ Hc).
  - by apply (table_ok_put key cnt home _ Hok v).
  - intros q r. rewrite zlookup_zset by done. case_decide as E.
    + intros [= <-]. right. split; [apply snoc_in|done].
    + intros Hq. destruct (ct_slot _ _ Hc q r Hq) as [->|[Hin Hcr]]; [by left|].
      right. split; [apply snoc_elem; by left|]. rewrite times_counted_snoc_ne; [done|]. intros Ek.
      assert (occupied cnt r) as Hor by (pose proof (times_counted_pos _ _ Hin); unfold occupied; lia).
      apply E. pose proof (Hok q r Hq Hor) as Hst. rewrite Ek in Hst.
      by apply (first_stop_unique key cnt _ _ _ _ _ Hst Hp).
  - intros w Hw. destruct (decide (w = v)) as [->|Hne].
    { exists p, s'. by rewrite zlookup_zset_eq by done. }
    apply snoc_elem in Hw as [Hw|]; [|done].
    destruct (ct_all _ _ Hc w Hw) as (q & r & Hq & Hk & Hor).
    exists q, r. rewrite zlookup_zset_ne; [done|lia|]. intros <-.
    destruct Hp as (_ & _ & _ & _ & (r' & Hr' & [Hks|Hcs])); unfold occupied in Hor; congruence.
  - rewrite (ct_n _ _ Hc). unfold zlen. rewrite (entries_put cnt _ p s s' Hs Ho). case_decide as Hos; cbn [length].
    + rewrite (entries_del cnt _ p s Hs Hos). cbn [length]. lia.
    + lia.
  - rewrite zlen_snoc. lia.
Qed.

Lemma counted_distinct vs st : counted vs st -> n_ht st = distinct vs.
Proof.
  intros Hc. rewrite (ct_n _ _ Hc). unfold distinct, zlen. f_equal.
  rewrite <- (length_fmap key). apply Permutation_length, NoDup_Permutation.
  - exact (entries_NoDup key cnt home _ (ct_ok _ _ Hc)).
  - apply NoDup_remove_dups.
  - intros v. rewrite entries_keys, elem_of_remove_dups. split; [|apply (ct_all _ _ Hc)].
    intros (p & s & Hs & <- & Ho). by apply (counted_occupied _ _ _ _ Hc Hs Ho).
Qed.

Lemma distinct_mono vs vs' : vs ⊆ vs' -> distinct vs <= distinct vs'.
Proof.
  intros Hs. unfold distinct, zlen. apply inj_le, submseteq_length, NoDup_submseteq.
  - apply NoDup_remove_dups.
  - intros x. rewrite !elem_of_remove_dups. apply Hs.
Qed.

(** *** One value *)
Lemma count_found_ok vs v st p s :
  counted vs st -> zlen vs < 2 ^ 32 -> first_stop key cnt v (slots st) (order sz (home v)) p ->
  slots st !z p = Some s -> key s = v -> p <> 1 ->
  exists st', count_found v p st = Ok st' /\ counted (vs ++ [v]) st'.
Proof.
  intros Hc Hlen Hp Hs Hk Hp1. pose proof (zlookup_Some_range _ _ _ Hs) as Hr.
  unfold count_found. rewrite (proj2 (rd_Ok _ _ _) Hs). cbn [mbind res_bind].
  rewrite (proj2 (Z.eqb_eq _ _) Hk), (proj2 (Z.eqb_neq _ _) Hp1). cbn [negb go_BYE_if].
  pose proof (times_counted_bounds (vs ++ [v]) v) as Hb. rewrite zlen_snoc in Hb.
  pose proof (ct_max _ _ Hc). cbn [mbind res_bind].
  destruct (Z.eqb_spec (cnt s) 0) as [Hz|Hz].
  - assert (v ∉ vs) as Hnin.
    { intros Hin. by destruct (stop_in vs st v p s Hc Hp Hs Hin). }
    destruct (ct_slot _ _ Hc p s Hs) as [E|[Hin _]]; [|by rewrite Hk in Hin].
    assert (v = 0) as -> by (by subst s).
    assert (times_counted (vs ++ [0]) 0 = 2) as Ht.
    { rewrite times_counted_snoc_eq. unfold times_counted. rewrite decide_True by done.
      pose proof (occ_nonneg 0 vs). rewrite <- occ_pos in Hnin. lia. }
    cbn [cnt]. rewrite wrapU_small by (unfold inU; lia). rewrite wr_Ok by done. eexists. split; [done|].
    pose proof (counted_put vs st 0 p s (Z.max (max_count st) 2) Hc Hp Hs) as Hput.
    rewrite Ht, decide_False in Hput by (unfold occupied; lia). apply Hput.
    pose proof (zlen_nonneg vs). lia.
  - destruct (counted_occupied _ _ _ _ Hc Hs Hz) as [Hin Ht]. rewrite Hk in Ht.
    rewrite times_counted_snoc_eq in Hb. rewrite wrapU_small by (unfold inU; lia). rewrite wr_Ok by done.
    eexists. split; [done|].
    pose proof (counted_put vs st v p s (Z.max (max_count st) (cnt s + 1)) Hc Hp Hs) as Hput.
    rewrite decide_True, Z.add_0_r, times_counted_snoc_eq, <- Ht in Hput by done. rewrite Hk. apply Hput. lia.
Qed.

Lemma count_new_ok vs v st p s :
  counted vs st -> first_stop key cnt v (slots st) (order sz (home v)) p ->
  slots st !z p = Some s -> key s <> v ->
  exists st', count_new v p st = Ok st' /\ counted (vs ++ [v]) st'.
Proof.
  intros Hc Hp Hs Hk. pose proof (zlookup_Some_range _ _ _ Hs) as Hr.
  assert (cnt s = 0) as Hz.
  { destruct Hp as (_ & _ & _ & _ & (s' & Hs' & [?|?])); by simplify_eq. }
  assert (v ∉ vs) as Hnin.
  { intros Hin. by destruct (stop_in vs st v p s Hc Hp Hs Hin). }
  assert (times_counted (vs ++ [v]) v = 1) as Ht.
  { rewrite times_counted_snoc_eq. unfold times_counted. pose proof (occ_nonneg v vs). rewrite <- occ_pos in Hnin.
    destruct (ct_slot _ _ Hc p s Hs) as [->|[Hin Hcs]].
    - rewrite decide_False by (by intros ->). lia.
    - pose proof (times_counted_pos _ _ Hin). lia. }
  unfold count_new. rewrite wr_Ok by done. eexists. split; [done|].
  pose proof (counted_put vs st v p s (max_count st) Hc Hp Hs) as Hput.
  rewrite Ht, decide_False in Hput by (unfold occupied; lia). apply Hput. pose proof (ct_max _ _ Hc). lia.
Qed.

Lemma count_value_ok vs v st :
  counted vs st -> n_ht st <= sz / 2 -> zlen vs < 2 ^ 32 ->
  (exists st', count_value sz v st = Ok st' /\ counted (vs ++ [v]) st' /\ n_ht st' <= sz / 2) \/
  count_value sz v st = Err /\
    (find_value v sz (slots st) = Ok (Some (1, Found)) \/ sz / 2 < distinct (vs ++ [v])).
Proof.
  intros Hc Hn Hlen. pose proof (Z.mod_pos_bound (HashString.mix_I8 v) sz Hsz) as Hh.
  unfold count_value, find_value. change (Z.shiftr sz 1) with (Z.shiftr sz (1)). rewrite Z.shiftr_div_pow2 by lia.
  change (2 ^ 1) with 2. pose proof (find_slot_ok key cnt same_key v (slots st) (home v)) as Hf.
  rewrite (ct_len _ _ Hc) in Hf.
  assert (forall st', counted (vs ++ [v]) st' ->
    (exists st'', (_ ← go_BYE_if (sz / 2 <? n_ht st'); Ok st') = Ok st'' /\ counted (vs ++ [v]) st'' /\ n_ht st'' <= sz / 2) \/
    (_ ← go_BYE_if (sz / 2 <? n_ht st'); Ok st') = Err /\ sz / 2 < distinct (vs ++ [v])) as Hend.
  { intros st' Hc'. rewrite <- (counted_distinct _ _ Hc').
    destruct (Z.ltb_spec (sz / 2) (n_ht st')); [by right|left; by exists st']. }
  destruct (Hf ltac:(lia)) as [(p & s & Hp & Hs & ->)|[Hall ->]].
  - unfold probe_test, same_key. cbn [mbind res_bind].
    destruct (Z.eqb_spec (key s) v) as [Hk|Hk]; cbn [mbind res_bind ends_at option_map].
    + destruct (decide (p = 1)) as [->|Hp1].
      { right. split; [|by left]. unfold count_found. rewrite (proj2 (rd_Ok _ _ _) Hs). cbn [mbind res_bind].
        by rewrite (proj2 (Z.eqb_eq _ _) Hk). }
      destruct (count_found_ok vs v st p s) as (st' & -> & Hc'); [done..|]. cbn [mbind res_bind].
      destruct (Hend st' Hc') as [?|[? ?]]; [by left|right; auto].
    + rewrite (proj2 (Z.eqb_eq (cnt s) 0)).
      2: { destruct Hp as (_ & _ & _ & _ & (s' & Hs' & [?|?])); by simplify_eq. }
      cbn [mbind res_bind ends_at option_map].
      destruct (count_new_ok vs v st p s) as (st' & -> & Hc'); [done..|]. cbn [mbind res_bind].
      destruct (Hend st' Hc') as [?|[? ?]]; [by left|right; auto].
  - exfalso. assert (entries cnt (slots st) = slots st) as Hall'.
    { apply (full_table key cnt _ v (home v)); rewrite (ct_len _ _ Hc); [lia|done]. }
    rewrite (ct_n _ _ Hc), Hall', (ct_len _ _ Hc) in Hn. pose proof (Z.div_lt sz 2). lia.
Qed.

(** *** All values *)

(** A value is met again in slot 1. *)
Definition repeated_in_slot_1 (vs : list Z) : Prop :=
  exists vs1 v vs2 st, vs = vs1 ++ v :: vs2 /\ count_values sz vs1 (empty_table sz) = Ok st /\
    find_value v sz (slots st) = Ok (Some (1, Found)).

Lemma count_values_snoc vs v st : count_values sz (vs ++ [v]) st = (st ← count_values sz vs st; count_value sz v st).
Proof.
  revert st. induction vs as [|w vs IH]; intros st; cbn.
  - by destruct (count_value sz v st).
  - destruct (count_value sz w st); [apply IH|done..].
Qed.

Lemma count_values_ok vs : zlen vs < 2 ^ 32 ->
  (exists st, count_values sz vs (empty_table sz) = Ok st /\ counted vs st /\ n_ht st <= sz / 2) \/
  count_values sz vs (empty_table sz) = Err /\ (repeated_in_slot_1 vs \/ sz / 2 < distinct vs).
Proof.
  induction vs as [|v vs IH] using rev_ind; intros Hlen.
  - left. exists (empty_table sz). split_and!; [done|apply counted_empty|]. cbn. by apply Z.div_pos; lia.
  - rewrite zlen_snoc in Hlen. rewrite count_values_snoc.
    destruct (IH ltac:(lia)) as [(st & Hrun & Hc & Hn)|[-> Hwhy]].
    + rewrite Hrun. cbn [mbind res_bind].
      destruct (count_value_ok vs v st Hc Hn ltac:(lia)) as [?|[-> [Hf|?]]]; [by left|right..]; split; auto.
      left. by exists vs, v, [], st.
    + right. split; [done|]. destruct Hwhy as [(vs1 & w & vs2 & st & -> & ? & ?)|Hd].
      * left. exists vs1, w, (vs2 ++ [v]), st. by rewrite <- app_assoc.
      * right. pose proof (distinct_mono vs (vs ++ [v]) (fun x Hx => proj2 (snoc_elem vs v x) (or_introl Hx))). lia.
Qed.

End correctness.

(** *** Rows *)

Definition ulvals (X : list Z) (nn_X : option (list Z)) : list Z := wrapU 64 <$> values X nn_X.

Lemma count_loop_values sz t X nn_X n : (t = I4 \/ t = I8) -> (forall b, nn_X = Some b -> zlen b = zlen X) ->
  forall i st, 0 <= i -> i + Z.of_nat n <= zlen X ->
  count_ht_loop n t (Ints X) nn_X sz i st =
    count_values sz (wrapU 64 <$> (Uniq.def_rows X (fun _ => 1) nn_X i (Z.of_nat n)).*1) st.
Proof.
  intros Ht Hnn. induction n as [|n IH]; intros i st Hi Hn.
  { unfold Uniq.def_rows. by rewrite seqZ_nil by lia. }
  rewrite Uniq.rows_cons by lia. replace (Z.of_nat (S n) - 1) with (Z.of_nat n) by lia.
  cbn [count_ht_loop].
  destruct (Uniq.null_row_ok (fun _ => 1) X nn_X Hnn i ltac:(lia)) as [[-> ->]|(v & -> & Hv & ->)]; cbn.
  - apply IH; lia.
  - assert (ulval t (Ints X) i = Ok (wrapU 64 v)) as ->.
    { unfold ulval. rewrite Hv. by destruct Ht as [-> | ->]. }
    cbn. destruct (count_value sz (wrapU 64 v) st); [apply IH; lia|done..].
Qed.

Lemma dump_cells_ok cell l : forall pre done rest, length rest = length (entries cnt l) ->
  dump_cells (length l) cell (pre ++ l) (zlen pre) (zlen done) (done ++ rest) =
    Ok (zlen done + zlen (entries cnt l), done ++ (cell <$> entries cnt l)).
Proof.
  induction l as [|s l IH]; intros pre done rest Hr.
  { destruct rest; [|done]. cbn. change (zlen []) with 0. by rewrite Z.add_0_r. }
  unfold entries in Hr |- *. rewrite filter_cons in Hr |- *. cbn [dump_cells length].
  rewrite rd_middle. cbn [mbind res_bind].
  rewrite (app_cons_snoc pre l s), <- zlen_snoc with (x := s). unfold occupied in *.
  destruct (Z.eqb_spec (cnt s) 0) as [Hz|Hz].
  - rewrite decide_False in Hr |- * by lia. by apply IH.
  - rewrite decide_True in Hr |- * by lia. destruct rest as [|x rest]; [done|]. injection Hr as Hr.
    rewrite wr_middle. cbn [mbind res_bind]. rewrite (app_cons_snoc done rest), <- zlen_snoc with (x := cell s).
    rewrite IH by done. rewrite zlen_snoc, zlen_cons, <- app_assoc. cbn. unfold entries.
    by rewrite Z.add_assoc.
Qed.

Lemma dump_ok sz vs st cell : counted sz vs st -> dump cell sz st = Ok (cell <$> entries cnt (slots st)).
Proof.
  intros Hc. unfold dump.
  assert (Z.to_nat sz = length (slots st)) as -> by (rewrite <- (ct_len _ _ _ Hc); apply to_nat_zlen).
  pose proof (dump_cells_ok cell (slots st) [] [] (replicate (Z.to_nat (n_ht st)) 0)) as Hd.
  change (zlen (@nil HT_I8_TYPE)) with 0 in Hd. change (zlen (@nil Z)) with 0 in Hd. cbn [app] in Hd. rewrite Hd.
  - cbn [mbind res_bind]. rewrite (ct_n _ _ _ Hc), Z.add_0_l, Z.eqb_refl. done.
  - rewrite length_replicate, (ct_n _ _ _ Hc). apply to_nat_zlen.
Qed.

(** *** Values and their keys *)

Definition in_type (t : FLD_TYPE) (X : list Z) : Prop :=
  t = I4 /\ Forall (inS 32) X \/ t = I8 /\ Forall (inS 64) X.

Lemma wrapS_wrapU w w' x : 0 < w <= w' -> inS w x -> wrapS w (wrapU w' x) = x.
Proof.
  intros Hw Hx. rewrite <- (wrapS_small w x) at 2 by (done || lia). unfold wrapS, wrapU. f_equal.
  rewrite <- (Zplus_mod_idemp_l (x mod 2 ^ w')), <- (Zplus_mod_idemp_l x). do 2 f_equal.
  apply Z.mod_mod_divide. exists (2 ^ (w' - w)). rewrite <- Z.pow_add_r by lia. f_equal. lia.
Qed.

Lemma cell_of_value t X x s : in_type t X -> x ∈ X -> key s = wrapU 64 x -> value_cell t s = x.
Proof.
  intros [[-> Hx]|[-> Hx]] Hin E; rewrite Forall_forall in Hx; unfold value_cell; rewrite E.
  - rewrite decide_True by done. apply wrapS_wrapU; [lia|by apply Hx].
  - rewrite decide_False by done. apply wrapS_wrapU; [lia|by apply Hx].
Qed.

Lemma in_type_64 t X x : in_type t X -> x ∈ X -> inS 64 x.
Proof.
  intros [[_ Hx]|[_ Hx]] Hin; rewrite Forall_forall in Hx; specialize (Hx x Hin); [|done].
  unfold inS in *. lia.
Qed.

Lemma wrapU_inj x y : inS 64 x -> inS 64 y -> wrapU 64 x = wrapU 64 y -> x = y.
Proof. intros Hx Hy E. rewrite <- (wrapU_wrapS 64 x Hx), E. by apply wrapU_wrapS. Qed.

Lemma times_counted_keys vs x : Forall (inS 64) vs -> inS 64 x -> times_counted (wrapU 64 <$> vs) (wrapU 64 x) = times_counted vs x.
Proof.
  intros Hv Hx. unfold times_counted. f_equal.
  - induction Hv as [|y vs Hy Hv IH]; [done|]. rewrite fmap_cons, !occ_cons, IH. f_equal.
    destruct (decide (y = x)) as [->|Hne]; [by rewrite !decide_True|].
    by rewrite !decide_False by (done || intros E; by apply Hne, wrapU_inj).
  - destruct (decide (x = 0)) as [->|Hne]; [done|]. rewrite decide_False; [done|].
    intros E. apply Hne, wrapU_inj; [done|done|]. by rewrite E.
Qed.

Lemma distinct_keys (f : Z -> Z) vs : distinct (f <$> vs) <= distinct vs.
Proof.
  unfold distinct, zlen. apply inj_le. rewrite <- (length_fmap f (remove_dups vs)). apply submseteq_length, NoDup_submseteq.
  - apply NoDup_remove_dups.
  - intros k. rewrite elem_of_remove_dups, !list_elem_of_fmap. setoid_rewrite elem_of_remove_dups. done.
Qed.

Lemma values_elem X nn_X x : x ∈ values X nn_X -> x ∈ X.
Proof.
  unfold values. intros ([v c] & -> & Hp)%list_elem_of_fmap.
  apply list_elem_of_omap in Hp as (i & _ & Hi). unfold Uniq.row_at in Hi.
  destruct (X !z i) as [y|] eqn:Hy; [|done]. cbn in Hi.
  assert (y = v) as -> by (destruct nn_X; [case_decide|]; by simplify_eq).
  pose proof (zlookup_Some_range _ _ _ Hy). rewrite zlookup_to_nat in Hy by lia.
  by apply list_elem_of_lookup_2 in Hy.
Qed.

Lemma values_length X nn_X : zlen (values X nn_X) <= zlen X.
Proof.
  unfold values, zlen. rewrite length_fmap. unfold Uniq.def_rows.
  pose proof (Uniq.length_omap_le (Uniq.row_at X (fun _ => 1) nn_X) (seqZ 0 (zlen X))).
  rewrite length_seqZ in *. unfold zlen in *. lia.
Qed.

(** A table of [sz] slots *)
Section sized.
Context (sz : Z) (Hsz : 0 < sz) (t : FLD_TYPE) (X : list Z) (nn_X : option (list Z)).
Context (Ht : in_type t X) (Hnn : forall b, nn_X = Some b -> zlen b = zlen X) (Hlen : zlen X < INT_MAX - 1).

Lemma entry_value st s : counted sz (ulvals X nn_X) st -> s ∈ entries cnt (slots st) ->
  value_cell t s ∈ values X nn_X /\ key s = wrapU 64 (value_cell t s) /\
  count_cell s = times_counted (values X nn_X) (value_cell t s).
Proof.
  intros Hc [Ho (p & Hs)]%entries_lookup.
  destruct (counted_occupied sz _ _ _ _ Hc Hs Ho) as [(x & Ek & Hx)%list_elem_of_fmap Hcs].
  pose proof (values_elem _ _ _ Hx) as HxX. rewrite (cell_of_value t X x s Ht HxX Ek).
  split_and!; [done..|]. unfold count_cell. rewrite Hcs, Ek. unfold ulvals. rewrite times_counted_keys.
  - pose proof (times_counted_bounds (values X nn_X) x). pose proof (values_length X nn_X). unfold INT_MAX in Hlen.
    apply wrapS_small; unfold inS; lia.
  - apply Forall_forall. intros y Hy%values_elem. by apply (in_type_64 t X).
  - by apply (in_type_64 t X).
Qed.

Lemma dumped st : counted sz (ulvals X nn_X) st ->
  let out := value_cell t <$> entries cnt (slots st) in
  NoDup out /\ (forall v, v ∈ out <-> v ∈ values X nn_X) /\
  (count_cell <$> entries cnt (slots st)) = (times_counted (values X nn_X) <$> out).
Proof.
  intros Hc out. split_and!.
  - pose proof (entries_NoDup key cnt _ _ (ct_ok _ _ _ Hc)) as Hd.
    assert (key <$> entries cnt (slots st) = wrapU 64 <$> out) as E.
    { unfold out. rewrite <- list_fmap_compose. apply list_fmap_ext. intros i s Hs%list_elem_of_lookup_2.
      by destruct (entry_value st s Hc Hs) as (_ & ? & _). }
    rewrite E in Hd. by apply NoDup_fmap_1 in Hd.
  - intros v. unfold out. rewrite list_elem_of_fmap. split.
    + intros (s & -> & Hs). by destruct (entry_value st s Hc Hs) as (? & _).
    + intros Hv. destruct (ct_all _ _ _ Hc (wrapU 64 v)) as (p & s & Hs & Hk & Ho); [by apply list_elem_of_fmap_2|].
      exists s. split; [symmetry; by apply (cell_of_value t X); [|apply (values_elem _ nn_X)|]|].
      apply entries_lookup. eauto.
  - unfold out. rewrite <- list_fmap_compose. apply list_fmap_ext. intros i s Hs%list_elem_of_lookup_2.
    by destruct (entry_value st s Hc Hs) as (_ & _ & ?).
Qed.

Lemma count_all_values st :
  count_ht_loop (Z.to_nat (zlen X)) t (Ints X) nn_X sz 0 st = count_values sz (ulvals X nn_X) st.
Proof.
  pose proof (zlen_nonneg X). rewrite count_loop_values; [|destruct Ht as [[-> _]|[-> _]]; auto|done|lia..].
  by rewrite Z2Nat.id by lia.
Qed.

Lemma count_sized_ok :
  (exists vals cnts, count_sized sz t (Ints X) nn_X (zlen X) = Ok (vals, cnts) /\
     NoDup vals /\ (forall v, v ∈ vals <-> v ∈ values X nn_X) /\ cnts = times_counted (values X nn_X) <$> vals /\
     zlen vals <= sz / 2) \/
  count_sized sz t (Ints X) nn_X (zlen X) = Err /\
    (repeated_in_slot_1 sz (ulvals X nn_X) \/ sz / 2 < distinct (values X nn_X)).
Proof.
  unfold count_sized. rewrite count_all_values. pose proof (values_length X nn_X) as Hv.
  assert (zlen (ulvals X nn_X) = zlen (values X nn_X)) as Hl by apply zlen_fmap.
  destruct (count_values_ok sz Hsz (ulvals X nn_X)) as [(st & -> & Hc & Hn)|[-> Hwhy]]; [unfold INT_MAX in Hlen; lia|left|right].
  - cbn [mbind res_bind]. rewrite !(dump_ok sz (ulvals X nn_X)) by done. cbn [mbind res_bind].
    pose proof (ct_max _ _ _ Hc). destruct (Z.leb_spec INT_MAX (max_count st)); [lia|]. cbn [go_BYE_if mbind res_bind].
    eexists _, _. split; [done|]. destruct (dumped st Hc) as (? & ? & ?). split_and!; [done..|].
    rewrite zlen_fmap, <- (ct_n _ _ _ Hc). done.
  - split; [done|]. destruct Hwhy as [?|?]; [by left|right]. pose proof (distinct_keys (wrapU 64) (values X nn_X)).
    unfold ulvals in *. lia.
Qed.

End sized.

(** Claim C17. Counting with a hash table: the new fields list every value of
    a defined row once, with the number of its rows, the value 0 with one
    more, and there are at most 32768 values; or it fails, and then there are
    more values than that, or a value that slot 1 of the table holds came
    again. *)
Theorem count_ht_correct (t : FLD_TYPE) (X : list Z) (nn_X : option (list Z)) :
  in_type t X -> (forall b, nn_X = Some b -> zlen b = zlen X) -> zlen X < INT_MAX - 1 ->
  (exists vals cnts, count_ht t (Ints X) nn_X (zlen X) = Ok (vals, cnts) /\
     NoDup vals /\ (forall v, v ∈ vals <-> v ∈ values X nn_X) /\ cnts = times_counted (values X nn_X) <$> vals /\
     zlen vals <= 32768) \/
  count_ht t (Ints X) nn_X (zlen X) = Err /\
    (repeated_in_slot_1 65537 (ulvals X nn_X) \/ 32768 < distinct (values X nn_X)).
Proof.
  intros Ht Hnn Hlen. pose proof (count_sized_ok 65537 ltac:(lia) t X nn_X Ht Hnn Hlen) as H.
  unfold count_ht. destruct (Z.leb_spec INT_MAX (zlen X)); [lia|]. cbn [go_BYE_if mbind res_bind].
  destruct sizes_of_tables as [-> _]. exact H.
Qed.

Lemma count_ht_correct_witness :
  (exists vals cnts, count_ht I4 (Ints [4; -3; 4]) (Some [1; 0; 1]) (zlen [4; -3; 4]) = Ok (vals, cnts) /\
     NoDup vals /\ (forall v, v ∈ vals <-> v ∈ values [4; -3; 4] (Some [1; 0; 1])) /\
     cnts = times_counted (values [4; -3; 4] (Some [1; 0; 1])) <$> vals /\ zlen vals <= 32768) \/
  count_ht I4 (Ints [4; -3; 4]) (Some [1; 0; 1]) (zlen [4; -3; 4]) = Err /\
    (repeated_in_slot_1 65537 (ulvals [4; -3; 4] (Some [1; 0; 1])) \/
     32768 < distinct (values [4; -3; 4] (Some [1; 0; 1]))).
Proof.
  apply (count_ht_correct I4 [4; -3; 4] (Some [1; 0; 1])).
  - left. split; [reflexivity|]. repeat constructor; unfold inS; lia.
  - intros b [= <-]. reflexivity.
  - vm_compute. reflexivity.
Defined.

End CountHt.
