(* ===== verification/Dict.v ===== *)
(** * Dictionaries of strings.

    Models src/src/dir_helpers/mk_dict.c: [add_to_dict], which gives every
    string a 64-bit key, with a hash table (HashTable.v) and another seed when
    two strings hash alike; [dump_ht], which writes the table as four files
    sorted by key; [get_from_dict], which looks a string up in such files.
    [MurmurHash3_x64_128] is the hash of dir_utils/MurmurHash3.c. *)

From stdpp Require Import prelude strings sorting.
From Stdlib Require Import ZArith Lia Ascii.
From S2P Require Import Prelude Search CString Hash HashTable.
Import Probe.

(** ** MurmurHash3 *)

Module Murmur.

Definition u64 (z : Z) : Z := wrapU 64 z.
Definition rotl64 (x r : Z) : Z := Z.lor (u64 (Z.shiftl x r)) (Z.shiftr x (64 - r)).

Definition fmix (k : Z) : Z :=
  let k := Z.lxor k (Z.shiftr k 33) in
  let k := u64 (k * 0xff51afd7ed558ccd) in
  let k := Z.lxor k (Z.shiftr k 33) in
  let k := u64 (k * 0xc4ceb9fe1a85ec53) in
  Z.lxor k (Z.shiftr k 33).

Definition c1 : Z := 0x87c37b91114253d5.
Definition c2 : Z := 0x4cf5ad432745937f.

(** [k1 *= c1; k1 = ROTL64(k1,31); k1 *= c2;], and for [k2] *)
Definition mix_k1 (k1 : Z) : Z := u64 (rotl64 (u64 (k1 * c1)) 31 * c2).
Definition mix_k2 (k2 : Z) : Z := u64 (rotl64 (u64 (k2 * c2)) 33 * c1).

(** [getblock] on a little-endian machine, and the bytes of the tail. *)
Fixpoint word_le (j : Z) (bytes : list Z) : Z :=
  match bytes with
  | [] => 0
  | b :: bytes => Z.lxor (Z.shiftl b (8 * j)) (word_le (j + 1) bytes)
  end.
Definition getblock (data : list Z) (i : nat) : Z := word_le 0 (take 8 (drop (8 * i) data)).

Definition murmur_block (data : list Z) (i : nat) (h : Z * Z) : Z * Z :=
  let '(h1, h2) := h in
  let k1 := getblock data (i * 2 + 0) in
  let k2 := getblock data (i * 2 + 1) in
  let h1 := Z.lxor h1 (mix_k1 k1) in
  let h1 := u64 (u64 (rotl64 h1 27 + h2) * 5 + 0x52dce729) in
  let h2 := Z.lxor h2 (mix_k2 k2) in
  let h2 := u64 (u64 (rotl64 h2 31 + h1) * 5 + 0x38495ab5) in
  (h1, h2).

(** [for(int i = 0; i < nblocks; i++)]: [n] blocks from murmur_block [i] on *)
Fixpoint body (n : nat) (data : list Z) (i : nat) (h : Z * Z) : Z * Z :=
  match n with O => h | S n => body n data (S i) (murmur_block data i h) end.

(** [switch(len & 15)]: [tail] are the bytes behind the last murmur_block. *)
Definition tail_mix (tail : list Z) (h : Z * Z) : Z * Z :=
  let '(h1, h2) := h in
  let h2 := if (8 <? length tail)%nat then Z.lxor h2 (mix_k2 (word_le 0 (drop 8 tail))) else h2 in
  let h1 := if (0 <? length tail)%nat then Z.lxor h1 (mix_k1 (word_le 0 (take 8 tail))) else h1 in
  (h1, h2).

Definition MurmurHash3_x64_128 (key : list Z) (seed : Z) : Z * Z :=
  let len := length key in
  let nblocks := (len / 16)%nat in
  let h := body nblocks key 0 (seed, seed) in
  let '(h1, h2) := tail_mix (drop (nblocks * 16) key) h in
  let h1 := Z.lxor h1 (Z.of_nat len) in
  let h2 := Z.lxor h2 (Z.of_nat len) in
  let h1 := u64 (h1 + h2) in
  let h2 := u64 (h2 + h1) in
  let h1 := fmix h1 in
  let h2 := fmix h2 in
  let h1 := u64 (h1 + h2) in
  let h2 := u64 (h2 + h1) in
  (h1, h2).

(** Published values of the function. *)
Example murmur_hello :
  MurmurHash3_x64_128 (bytes_of "hello") 0 = (0xcbd8a7b341bd9b02, 0x5b1e906a48ae1d19).
Proof. vm_compute. reflexivity. Qed.
Example murmur_fox :
  MurmurHash3_x64_128 (bytes_of "The quick brown fox jumps over the lazy dog") 0
    = (0xe34bbc7bbc071b6c, 0x7a433ca9c49a9347).
Proof. vm_compute. reflexivity. Qed.

End Murmur.

(** ** The dictionary *)

Definition seeds : list Z :=
  [
   809205846; 261846763; 641875580; 222635670; 739351400; 630494245; 853128406; 226480367;
   659289270; 448418846; 883286911; 838052571; 703506931; 494577659; 705137933; 33590725;
   115831692; 272750483; 763685500; 7278835; 697305034; 665078282; 121709169; 297751196;
   917982537; 454769819; 358916730; 744068317; 20059209; 301906988; 839314886; 570923483;
   768499511; 982150699; 635321752; 451620216; 683505606; 830323539; 656626396; 796749485;
   530218870; 613917582; 650885714; 70248092; 739692870; 263516369; 395050934; 408009113;
   579014214; 372173461; 740164204; 352198802; 489156682; 984803712; 663027016; 975787434;
   549466945; 299721391; 4327039; 792281122; 817661267; 437546327; 203816519; 254901011].

Module Dict.

(** [out[0] ^ out[1]] *)
Definition str_hash (inval : string) (seed : Z) : Z :=
  let '(h1, h2) := Murmur.MurmurHash3_x64_128 (bytes_of inval) seed in Z.lxor h1 h2.

(** [strkey] is NULL in a free slot. *)
Record HT_REC_TYPE := { strkey : option string; key : Z; cnt : Z }.
Definition empty_slot : HT_REC_TYPE := {| strkey := None; key := 0; cnt := 0 |}.

(** [ht] and [n_ht] *)
Record dict := { slots : list HT_REC_TYPE; n_ht : Z }.

Definition setup_ht_dict : res (Z * dict) :=
  sz_ht ← prime_geq (4 * 1048576);
  Ok (sz_ht, {| slots := replicate (Z.to_nat sz_ht) empty_slot; n_ht := 0 |}).

(** [strcmp(ht[i].strkey, inval) == 0] *)
Definition same_str (inval : string) (s : HT_REC_TYPE) : res bool :=
  match strkey s with Some k => Ok (strcmp_eq k inval) | None => Ub end.

Definition find_str (sz_ht : Z) (inval : string) (ulhash : Z) (ht : list HT_REC_TYPE) :=
  find_slot (probe_test key cnt (same_str inval) ulhash) ht sz_ht (HashString.mix_I8 ulhash mod sz_ht).

(** [for ( int t = 0; t < NUM_SEEDS; t++)]: the hash, the slot, and whether
    the string was there. *)
Fixpoint seed_loop (sds : list Z) (sz_ht : Z) (inval : string) (ht : list HT_REC_TYPE)
    : res (option (Z * Z * bool)) :=
  match sds with
  | [] => Ok None
  | seed :: sds =>
      let ulhash := str_hash inval seed in
      r ← find_str sz_ht inval ulhash ht;
      match r with
      | Some (pos_ht, Found) => Ok (Some (ulhash, pos_ht, true))
      | Some (pos_ht, Unoccupied) => Ok (Some (ulhash, pos_ht, false))
      | Some (_, Clash) | None => seed_loop sds sz_ht inval ht
      end
  end.

Definition add_found (inval : string) (ulhash pos_ht : Z) (d : dict) : res dict :=
  s ← rd (slots d) pos_ht;
  _ ← go_BYE_if (negb (key s =? ulhash));
  _ ← go_BYE_if (pos_ht =? 1);
  let '(s, n) :=
    if cnt s =? 0 then ({| strkey := Some inval; key := ulhash; cnt := 1 |}, n_ht d + 1) else (s, n_ht d) in
  ht ← wr (slots d) pos_ht {| strkey := strkey s; key := key s; cnt := wrapU 64 (cnt s + 1) |};
  Ok {| slots := ht; n_ht := n |}.

Definition add_new (inval : string) (ulhash pos_ht : Z) (d : dict) : res dict :=
  ht ← wr (slots d) pos_ht {| strkey := Some inval; key := ulhash; cnt := 1 |};
  Ok {| slots := ht; n_ht := n_ht d + 1 |}.

(** The dictionary and [*ptr_outval]. *)
Definition add_to_dict (sz_ht : Z) (inval : string) (d : dict) : res (dict * Z) :=
  r ← seed_loop seeds sz_ht inval (slots d);
  match r with
  | None => Err
  | Some (ulhash, pos_ht, key_exists) =>
      d ← (if key_exists : bool then add_found inval ulhash pos_ht d else add_new inval ulhash pos_ht d);
      _ ← go_BYE_if (Z.shiftr sz_ht 1 <? n_ht d);
      Ok (d, ulhash)
  end.

(** ** The files of a dictionary *)

Record HOP_REC_TYPE := { hop_key : Z; len : Z; orig_idx : Z }.

(** [for ( int i = 0; i < sz_ht; i++ ) { if ( ht[i].cnt > 0 ) { ... } }] *)
Fixpoint hops (n : nat) (ht : list HT_REC_TYPE) (i : Z) : res (list HOP_REC_TYPE) :=
  match n with
  | O => Ok []
  | S n =>
      s ← rd ht i;
      if 0 <? cnt s then
        match strkey s with
        | None => Ub
        | Some k =>
            l ← hops n ht (i + 1);
            Ok ({| hop_key := key s; len := wrapU 32 (strlen k); orig_idx := i |} :: l)
        end
      else hops n ht (i + 1)
  end.

(** [hop_sort_compare]: by the keys as [long long]. *)
Definition hop_le (a b : HOP_REC_TYPE) : Prop := wrapS 64 (hop_key a) <= wrapS 64 (hop_key b).
#[export] Instance hop_le_dec a b : Decision (hop_le a b).
Proof. unfold hop_le. apply _. Defined.

(** The text, the keys as [get_from_dict] reads them, the lengths and the
    offsets. *)
Record dict_files := { text : list ascii; keys : list Z; lens : list Z; offsets : list Z }.
Definition NUL : ascii := Ascii.zero.

Fixpoint dump_loop (hop : list HOP_REC_TYPE) (ht : list HT_REC_TYPE) (offset : Z) : res dict_files :=
  match hop with
  | [] => Ok {| text := []; keys := []; lens := []; offsets := [] |}
  | h :: hop =>
      s ← rd ht (orig_idx h);
      match strkey s with
      | None => Ub
      | Some k =>
          f ← dump_loop hop ht (wrapU 32 (offset + (len h + 1)));
          Ok {| text := String.list_ascii_of_string k ++ NUL :: text f; keys := wrapS 64 (hop_key h) :: keys f;
                lens := wrapS 32 (len h) :: lens f; offsets := wrapS 32 offset :: offsets f |}
      end
  end.

(** [hop] has room for [n_ht] records, and all of them are sorted. *)
Definition dump_ht (sz_ht : Z) (d : dict) : res dict_files :=
  hop ← hops (Z.to_nat sz_ht) (slots d) 0;
  if zlen hop =? n_ht d then dump_loop (merge_sort hop_le hop) (slots d) 0 else Ub.

(** [strncmp(inval, text + off, strlen(inval)) == 0] *)
Fixpoint strncmp_eq (inval : string) (text : list ascii) (off : Z) : res bool :=
  match inval with
  | EmptyString => Ok true
  | c :s inval => d ← rd text off; if bool_decide (d = c) then strncmp_eq inval text (off + 1) else Ok false
  end.

(** The loop over the seeds; [bin_search_I8] of no keys does not set [pos]. *)
Fixpoint lookup_loop (sds : list Z) (inval : string) (f : dict_files) : res Z :=
  match sds with
  | [] => Ok (-1)
  | seed :: sds =>
      let key := wrapS 64 (str_hash inval seed) in
      pos ← match BinSearch.bin_search_I8 (Some (keys f)) (zlen (keys f)) key (Some "dontcare"%string) with
            | Err => Ub
            | r => r
            end;
      if pos <? 0 then Ok (-1)
      else
        l ← rd (lens f) pos;
        if negb (l =? strlen inval) then lookup_loop sds inval f
        else
          off ← rd (offsets f) pos;
          same ← strncmp_eq inval (text f) off;
          if (same : bool) then Ok pos else lookup_loop sds inval f
  end.

(** [*ptr_idx], the position of the string in the files, or -1. *)
Definition get_from_dict (inval : option string) (f : dict_files) : res Z :=
  match inval with
  | None | Some EmptyString => Err
  | Some inval => lookup_loop seeds inval f
  end.

(** Strings one after the other, and their keys. *)
Fixpoint add_all (sz_ht : Z) (strs : list string) (d : dict) : res (dict * list Z) :=
  match strs with
  | [] => Ok (d, [])
  | s :: strs =>
      '(d, k) ← add_to_dict sz_ht s d;
      '(d, ks) ← add_all sz_ht strs d;
      Ok (d, k :: ks)
  end.
Definition empty_dict (sz_ht : Z) : dict := {| slots := replicate (Z.to_nat sz_ht) empty_slot; n_ht := 0 |}.

Definition dict_example (strs : list string) (s : string) : res (list Z * Z) :=
  '(d, ks) ← add_all 13 strs (empty_dict 13);
  f ← dump_ht 13 d;
  p ← get_from_dict (Some s) f;
  Ok (lens f, p).
Example dict_ex : dict_example ["red"; "green"; "red"; "blue"] "green" = Ok ([5; 3; 4], 0).
Proof. vm_compute. reflexivity. Qed.

(** ** Every string has a key of its own *)

(** 0, the key of a free slot, is not among the hashes of the string. *)
Definition hashes_nonzero (s : string) : Prop := Forall (fun seed => str_hash s seed <> 0) seeds.

Section table.
Context (sz : Z) (Hsz : 0 < sz).

Abbreviation home := (fun k => HashString.mix_I8 k mod sz).

(** The slot that [str] would have with the seed is taken by another string. *)
Definition clashes (ht : list HT_REC_TYPE) (str : string) (seed : Z) : Prop :=
  exists p s str', ht !z p = Some s /\ occupied cnt s /\ key s = str_hash str seed /\
    strkey s = Some str' /\ str' <> str.

(** [k] is the hash of [str] with the first seed that does not clash. *)
Definition coded (ht : list HT_REC_TYPE) (str : string) (k : Z) : Prop :=
  exists sds1 seed sds2, seeds = sds1 ++ seed :: sds2 /\ k = str_hash str seed /\ Forall (clashes ht str) sds1.

(** [str] is in the dictionary, with the key [k]. *)
Definition has (d : dict) (str : string) (k : Z) : Prop :=
  exists p s, slots d !z p = Some s /\ occupied cnt s /\ strkey s = Some str /\ key s = k.

(** A dictionary after at most [m] calls *)
Record dict_ok (m : Z) (d : dict) : Prop := {
  d_len : zlen (slots d) = sz;
  d_table : table_ok key cnt home (slots d);
  d_slot p s : slots d !z p = Some s ->
    s = empty_slot \/ 0 < cnt s <= m /\ exists str, strkey s = Some str /\ coded (slots d) str (key s);
  d_n : n_ht d = zlen (entries cnt (slots d));
  d_half : n_ht d <= sz / 2
}.

(** What was in the table stays there. *)
Definition extends (ht ht' : list HT_REC_TYPE) : Prop :=
  forall p s, ht !z p = Some s -> occupied cnt s ->
    exists s', ht' !z p = Some s' /\ occupied cnt s' /\ key s' = key s /\ strkey s' = strkey s.

Lemma extends_trans ht1 ht2 ht3 : extends ht1 ht2 -> extends ht2 ht3 -> extends ht1 ht3.
Proof.
  intros H12 H23 p s Hs Ho. destruct (H12 p s Hs Ho) as (s2 & Hs2 & Ho2 & Hk & Hn).
  destruct (H23 p s2 Hs2 Ho2) as (s3 & ? & ? & ? & ?). exists s3. split_and!; congruence.
Qed.

Lemma clashes_extends ht ht' str seed : extends ht ht' -> clashes ht str seed -> clashes ht' str seed.
Proof.
  intros He (p & s & str' & Hs & Ho & Hk & Hn & Hne). destruct (He p s Hs Ho) as (s' & Hs' & Ho' & Hk' & Hn').
  exists p, s', str'. split_and!; congruence.
Qed.

Lemma coded_extends ht ht' str k : extends ht ht' -> coded ht str k -> coded ht' str k.
Proof.
  intros He (l1 & seed & l2 & Hl & Hk & Hc). exists l1, seed, l2. split_and!; [done..|].
  eapply Forall_impl; [exact Hc|]. intros x. by apply clashes_extends.
Qed.

Lemma has_extends d d' str k : extends (slots d) (slots d') -> has d str k -> has d' str k.
Proof.
  intros He (p & s & Hs & Ho & Hn & Hk). destruct (He p s Hs Ho) as (s' & ? & ? & ? & ?).
  exists p, s'. split_and!; congruence.
Qed.

Section laws.
Context (m : Z) (d : dict) (Hd : dict_ok m d).

Lemma slot_named p s : slots d !z p = Some s -> occupied cnt s ->
  0 < cnt s <= m /\ exists str, strkey s = Some str /\ coded (slots d) str (key s).
Proof. intros Hs Ho. by destruct (d_slot _ _ Hd p s Hs) as [->|?]. Qed.

(** Two strings do not share a key, *)
Lemma has_inj str str' k : has d str k -> has d str' k -> str = str'.
Proof.
  intros (p & s & Hs & Ho & Hn & Hk) (q & s' & Hs' & Ho' & Hn' & Hk').
  assert (p = q) as -> by (apply (key_unique key cnt home _ (d_table _ _ Hd) p q s s'); congruence).
  congruence.
Qed.

Lemma has_clash str k k' sds1 seed sds2 sds1' seed' sds2' : has d str k ->
  sds1 ++ seed :: sds2 = sds1' ++ seed' :: sds2' -> k = str_hash str seed -> k' = str_hash str seed' ->
  Forall (clashes (slots d) str) sds1' -> (length sds1 < length sds1')%nat -> False.
Proof.
  intros Hh E -> -> Hc Hl. assert (seed ∈ sds1') as Hin.
  { apply list_elem_of_lookup. exists (length sds1).
    pose proof (list_lookup_middle sds1 sds2 seed (length sds1) eq_refl) as Hm.
    rewrite E, lookup_app_l in Hm by done. done. }
  rewrite Forall_forall in Hc. destruct (Hc seed Hin) as (p & s & str' & Hs & Ho & Hk & Hn & Hne).
  apply Hne. apply (has_inj str' str (str_hash str seed)); [|done]. by exists p, s.
Qed.

(** and a string has one key. *)
Lemma has_unique str k k' : has d str k -> has d str k' -> k = k'.
Proof.
  intros Hh Hh'. pose proof Hh as (p & s & Hs & Ho & Hn & Hk). pose proof Hh' as (q & s' & Hs' & Ho' & Hn' & Hk').
  destruct (slot_named p s Hs Ho) as (_ & str1 & Hn1 & (l1 & sd & l2 & Hl & Hc & Hf)).
  destruct (slot_named q s' Hs' Ho') as (_ & str2 & Hn2 & (l1' & sd' & l2' & Hl' & Hc' & Hf')).
  assert (str1 = str) as -> by congruence. assert (str2 = str) as -> by congruence.
  rewrite Hl in Hl'. destruct (lt_eq_lt_dec (length l1) (length l1')) as [[Hlt|Heq]|Hlt].
  - exfalso. eapply (has_clash str k k'); [done|exact Hl'|congruence|congruence|done|done].
  - apply app_inj_1 in Hl' as [_ [= -> _]]; [congruence|done].
  - exfalso. eapply (has_clash str k' k); [done|symmetry; exact Hl'|congruence|congruence|done|done].
Qed.

(** *** The search *)
Lemma find_str_ok str seed : str_hash str seed <> 0 ->
  let k := str_hash str seed in
  exists p s, first_stop key cnt k (slots d) (order sz (home k)) p /\ slots d !z p = Some s /\
    (occupied cnt s /\ key s = k /\ strkey s = Some str /\ find_str sz str k (slots d) = Ok (Some (p, Found)) \/
     clashes (slots d) str seed /\ find_str sz str k (slots d) = Ok (Some (p, Clash)) \/
     s = empty_slot /\ find_str sz str k (slots d) = Ok (Some (p, Unoccupied))).
Proof.
  intros Hnz k. pose proof (Z.mod_pos_bound (HashString.mix_I8 k) sz Hsz) as Hh.
  pose proof (find_slot_ok key cnt (same_str str) k (slots d) (home k)) as Hf. rewrite (d_len _ _ Hd) in Hf.
  destruct (Hf ltac:(lia)) as [(p & s & Hp & Hs & Hfind)|[Hall _]].
  - exists p, s. split_and!; [done..|]. unfold find_str. rewrite Hfind. unfold probe_test.
    destruct (d_slot _ _ Hd p s Hs) as [->|(Hc & str' & Hn & _)].
    + right. right. split; [done|]. cbn [key empty_slot]. by rewrite (proj2 (Z.eqb_neq 0 k)) by done.
    + assert (occupied cnt s) as Ho by (unfold occupied; lia).
      assert (key s = k) as Hk.
      { destruct Hp as (_ & _ & _ & _ & (s' & Hs' & Hst)). assert (s' = s) as -> by congruence.
        by destruct Hst. }
      rewrite (proj2 (Z.eqb_eq _ _) Hk). unfold same_str, strcmp_eq. rewrite Hn. cbn [mbind res_bind ends_at option_map].
      case_bool_decide as Hstr.
      * left. by subst.
      * right. left. split; [|done]. by exists p, s, str'.
  - exfalso. assert (entries cnt (slots d) = slots d) as E.
    { apply (full_table key cnt _ k (home k)); rewrite (d_len _ _ Hd); [lia|done]. }
    pose proof (d_half _ _ Hd) as Hn. rewrite (d_n _ _ Hd), E, (d_len _ _ Hd) in Hn.
    pose proof (Z.div_lt sz 2). lia.
Qed.

Lemma seed_loop_ok str : hashes_nonzero str -> forall sds pre, seeds = pre ++ sds -> Forall (clashes (slots d) str) pre ->
  (exists k p s, seed_loop sds sz str (slots d) = Ok (Some (k, p, true)) /\ slots d !z p = Some s /\
     occupied cnt s /\ key s = k /\ strkey s = Some str /\
     first_stop key cnt k (slots d) (order sz (home k)) p) \/
  (exists k p, seed_loop sds sz str (slots d) = Ok (Some (k, p, false)) /\ slots d !z p = Some empty_slot /\
     coded (slots d) str k /\ first_stop key cnt k (slots d) (order sz (home k)) p) \/
  (seed_loop sds sz str (slots d) = Ok None /\ Forall (clashes (slots d) str) seeds).
Proof.
  intros Hnz. induction sds as [|seed sds IH]; intros pre E Hpre.
  { right. right. split; [done|]. by rewrite E, app_nil_r. }
  assert (str_hash str seed <> 0) as Hsd.
  { unfold hashes_nonzero in Hnz. rewrite E in Hnz. apply Forall_app in Hnz as [_ Hnz]. by inversion Hnz. }
  cbn [seed_loop].
  destruct (find_str_ok str seed Hsd) as (p & s & Hp & Hs & [(Ho & Hk & Hn & ->)|[[Hc ->]|[-> ->]]]); cbn [mbind res_bind].
  - left. exists (str_hash str seed), p, s. done.
  - apply (IH (pre ++ [seed])); [by rewrite <- app_assoc|]. apply Forall_app. auto.
  - right. left. exists (str_hash str seed), p. split_and!; [done..| |done]. by exists pre, seed, sds.
Qed.

End laws.

(** *** Adding a string *)

Lemma extends_put ht p s s' : ht !z p = Some s ->
  (occupied cnt s -> occupied cnt s' /\ key s' = key s /\ strkey s' = strkey s) -> extends ht (zset ht p s').
Proof.
  intros Hs Hold q r Hq Ho. pose proof (zlookup_Some_range _ _ _ Hs).
  rewrite zlookup_zset by done. case_decide as E; [|by exists r].
  subst q. assert (r = s) as -> by congruence. exists s'. by destruct (Hold Ho) as (? & ? & ?).
Qed.

(** The slot [p], where the search for the key ends, gets the string. *)
Lemma dict_ok_put m d p s str k c n :
  dict_ok m d -> 0 <= m -> first_stop key cnt k (slots d) (order sz (home k)) p -> slots d !z p = Some s ->
  s = empty_slot /\ n = n_ht d + 1 \/ occupied cnt s /\ key s = k /\ strkey s = Some str /\ n = n_ht d ->
  coded (slots d) str k -> 0 < c <= m + 1 -> n <= sz / 2 ->
  let d' := {| slots := zset (slots d) p {| strkey := Some str; key := k; cnt := c |}; n_ht := n |} in
  dict_ok (m + 1) d' /\ extends (slots d) (slots d') /\ has d' str k /\
  (forall str' k', has d' str' k' -> has d str' k' \/ str' = str).
Proof.
  intros Hd Hm Hp Hs Hcase Hcoded Hc Hn d'. pose proof (zlookup_Some_range _ _ _ Hs) as Hr.
  set (s' := {| strkey := Some str; key := k; cnt := c |}) in *.
  assert (occupied cnt s') as Ho by (unfold occupied; cbn; lia).
  assert (extends (slots d) (slots d')) as He.
  { apply (extends_put _ _ s); [done|]. intros Hos. destruct Hcase as [[-> _]|(_ & Hk & Hn' & _)]; [by destruct Hos|done]. }
  assert (slots d' !z p = Some s') as Hp' by by apply zlookup_zset_eq.
  split_and!; [|done|by exists p, s'|].
  - split.
    + cbn. rewrite zlen_zset. apply (d_len _ _ Hd).
    + apply (table_ok_put key cnt home _ (d_table _ _ Hd) k p); [|done..]. by rewrite (d_len _ _ Hd).
    + intros q r Hq. cbn in Hq. rewrite zlookup_zset in Hq by done. case_decide as E.
      * simplify_eq. right. split; [cbn; lia|]. exists str. split; [done|]. by apply (coded_extends (slots d)).
      * destruct (d_slot _ _ Hd q r Hq) as [?|(? & str' & ? & ?)]; [by left|right]. split; [lia|].
        exists str'. split; [done|]. by apply (coded_extends (slots d)).
    + cbn [n_ht slots d']. unfold zlen. rewrite (entries_put cnt _ p s s' Hs Ho).
      pose proof (d_n _ _ Hd) as Hdn. unfold zlen in Hdn.
      destruct Hcase as [[-> ->]|(Hos & _ & _ & ->)].
      * rewrite decide_False by (intros H; by apply H). cbn [length]. lia.
      * rewrite decide_True by done. cbn [length]. rewrite (entries_del cnt _ p s Hs Hos) in Hdn.
        cbn [length] in Hdn. lia.
    + done.
  - intros str' k' (q & r & Hq & Hor & Hnr & Hkr). cbn in Hq. rewrite zlookup_zset in Hq by done.
    case_decide as E; [right|left; by exists q, r]. injection Hq as <-. cbn in Hnr. congruence.
Qed.

(** Why a string is not taken. *)
Definition rejected (d : dict) (str : string) : Prop :=
  Forall (clashes (slots d) str) seeds \/
  (exists s, slots d !z 1 = Some s /\ strkey s = Some str) \/
  sz / 2 <= n_ht d.

Lemma add_to_dict_ok m d str : dict_ok m d -> 0 <= m < 2 ^ 63 -> hashes_nonzero str ->
  (exists d' k, add_to_dict sz str d = Ok (d', k) /\ dict_ok (m + 1) d' /\ extends (slots d) (slots d') /\
     has d' str k /\ forall str' k', has d' str' k' -> has d str' k' \/ str' = str) \/
  add_to_dict sz str d = Err /\ rejected d str.
Proof.
  intros Hd Hm Hnz. unfold add_to_dict. rewrite Z.shiftr_div_pow2 by lia. change (2 ^ 1) with 2.
  destruct (seed_loop_ok m d Hd str Hnz seeds [] eq_refl ltac:(constructor))
    as [(k & p & s & -> & Hs & Ho & Hk & Hn & Hp)|[(k & p & -> & Hs & Hc & Hp)|[-> Hall]]]; cbn [mbind res_bind].
  - destruct (slot_named m d Hd p s Hs Ho) as (Hcnt & str' & Hn' & Hcoded).
    assert (str' = str) as -> by congruence. rewrite Hk in Hcoded.
    pose proof (zlookup_Some_range _ _ _ Hs).
    unfold add_found. rewrite (proj2 (rd_Ok _ _ _) Hs). cbn [mbind res_bind].
    rewrite (proj2 (Z.eqb_eq _ _) Hk). cbn [negb go_BYE_if mbind res_bind].
    destruct (Z.eqb_spec p 1) as [->|Hp1]; [right; split; [done|]; right; left; by exists s|left].
    cbn [go_BYE_if mbind res_bind].
    rewrite (proj2 (Z.eqb_neq (cnt s) 0)), wr_Ok by (done || lia). cbn [mbind res_bind n_ht].
    pose proof (d_half _ _ Hd). destruct (Z.ltb_spec (sz / 2) (n_ht d)); [lia|]. cbn [go_BYE_if mbind res_bind].
    rewrite wrapU_small, Hn, Hk by (unfold inU; lia). eexists _, k. split; [done|].
    apply (dict_ok_put m d p s); try done; [lia|by right|lia].
  - unfold add_new. pose proof (zlookup_Some_range _ _ _ Hs). rewrite wr_Ok by done. cbn [mbind res_bind n_ht].
    destruct (Z.ltb_spec (sz / 2) (n_ht d + 1)).
    { right. split; [done|]. right. right. lia. }
    left. cbn [go_BYE_if mbind res_bind]. eexists _, k. split; [done|].
    apply (dict_ok_put m d p empty_slot); try done; [lia|by left|lia].
  - right. split; [done|by left].
Qed.

Lemma empty_dict_ok : dict_ok 0 (empty_dict sz).
Proof.
  assert (forall p s, slots (empty_dict sz) !z p = Some s -> s = empty_slot) as He.
  { intros p s Hp. pose proof (zlookup_Some_range _ _ _ Hp). rewrite zlookup_to_nat in Hp by lia.
    by apply lookup_replicate in Hp as [-> _]. }
  split; cbn [slots n_ht].
  - unfold zlen, empty_dict. cbn. rewrite length_replicate. lia.
  - intros p s Hs Ho. by rewrite (He p s Hs) in Ho.
  - intros p s Hs. left. by apply (He p).
  - unfold entries. rewrite filter_none; [done|]. intros i s [-> _]%lookup_replicate Ho. by apply Ho.
  - cbn. apply Z.div_pos; lia.
Qed.

(** Some string of [strs] is not taken after the strings before it. *)
Definition rejects_one (strs : list string) (d : dict) : Prop :=
  exists strs1 str strs2 d1 ks, strs = strs1 ++ str :: strs2 /\ add_all sz strs1 d = Ok (d1, ks) /\ rejected d1 str.

Lemma add_all_ok strs : Forall hashes_nonzero strs -> forall m d, dict_ok m d -> 0 <= m -> m + zlen strs < 2 ^ 63 ->
  (exists d' ks, add_all sz strs d = Ok (d', ks) /\ dict_ok (m + zlen strs) d' /\ extends (slots d) (slots d') /\
     Forall2 (has d') strs ks /\ forall str k, has d' str k -> has d str k \/ str ∈ strs) \/
  add_all sz strs d = Err /\ rejects_one strs d.
Proof.
  induction 1 as [|str strs Hstr Hstrs IH]; intros m d Hd Hm Hlen.
  { left. exists d, []. change (zlen []) with 0. rewrite Z.add_0_r. split_and!; [done..| | |by left].
    - intros p s Hs Ho. by exists s.
    - constructor. }
  rewrite zlen_cons in Hlen. pose proof (zlen_nonneg strs). cbn [add_all].
  destruct (add_to_dict_ok m d str Hd ltac:(lia) Hstr) as [(d1 & k & E1 & Hd1 & He1 & Hh1 & Hb1)|[-> Hwhy]].
  2: { right. split; [done|]. by exists [], str, strs, d, []. }
  rewrite E1. cbn [mbind res_bind].
  destruct (IH (m + 1) d1 Hd1 ltac:(lia) ltac:(lia)) as [(d2 & ks & -> & Hd2 & He2 & Hf & Hb2)|[-> Hwhy]].
  - left. exists d2, (k :: ks). cbn [mbind res_bind]. rewrite zlen_cons. split_and!.
    + done.
    + by replace (m + (1 + zlen strs)) with (m + 1 + zlen strs) by lia.
    + by apply (extends_trans _ (slots d1)).
    + constructor; [by apply (has_extends d1)|done].
    + intros str' k' Hh. destruct (Hb2 _ _ Hh) as [Hh'|?]; [|right; by right].
      destruct (Hb1 _ _ Hh') as [?| ->]; [by left|right; by left].
  - right. split; [done|]. destruct Hwhy as (l1 & s & l2 & d2 & ks & -> & E2 & Hr).
    exists (str :: l1), s, l2, d2, (k :: ks). split_and!; [done| |done]. cbn [add_all]. rewrite E1. cbn [mbind res_bind].
    by rewrite E2.
Qed.

End table.

(** ** The files *)

Lemma lxor_inU w a b : 0 <= w -> inU w a -> inU w b -> inU w (Z.lxor a b).
Proof.
  intros Hw Ha Hb. unfold inU in *. rewrite <- (Z.mod_small a (2 ^ w)), <- (Z.mod_small b (2 ^ w)) by done.
  assert (Z.lxor (a mod 2 ^ w) (b mod 2 ^ w) = Z.lxor a b mod 2 ^ w) as ->.
  - apply Z.bits_inj'. intros n Hn. rewrite Z.lxor_spec. destruct (Z.ltb_spec n w).
    + by rewrite !Z.mod_pow2_bits_low, Z.lxor_spec by lia.
    + by rewrite !Z.mod_pow2_bits_high by lia.
  - apply Z.mod_pos_bound. lia.
Qed.

Lemma str_hash_range str seed : inU 64 (str_hash str seed).
Proof.
  unfold str_hash. destruct (Murmur.MurmurHash3_x64_128 _ _) as [h1 h2] eqn:E.
  unfold Murmur.MurmurHash3_x64_128 in E. destruct (Murmur.tail_mix _ _). simplify_eq.
  apply lxor_inU; [lia|..]; by apply wrapU_range.
Qed.

Lemma wrapS_inj w a b : 0 < w -> inU w a -> inU w b -> wrapS w a = wrapS w b -> a = b.
Proof.
  intros Hw Ha Hb E. assert (forall z, inU w z -> z = (wrapS w z) mod 2 ^ w) as Hz.
  { intros z Hz. unfold wrapS. rewrite Zminus_mod_idemp_l. replace (z + 2 ^ (w - 1) - 2 ^ (w - 1)) with z by lia.
    symmetry. by apply Z.mod_small. }
  by rewrite (Hz a Ha), E, <- Hz.
Qed.

(** The entries of a table in the order of its slots, and their strings. *)
Fixpoint hop_list (l : list HT_REC_TYPE) (i : Z) : list HOP_REC_TYPE :=
  match l with
  | [] => []
  | s :: l =>
      match strkey s with
      | Some k => if decide (occupied cnt s)
                  then {| hop_key := key s; len := wrapU 32 (strlen k); orig_idx := i |} :: hop_list l (i + 1)
                  else hop_list l (i + 1)
      | None => hop_list l (i + 1)
      end
  end.
Definition names (l : list HT_REC_TYPE) : list string := omap strkey (entries cnt l).
(** The room of the strings, with a NUL behind each. *)
Definition text_size (strs : list string) : Z :=
  Z.of_nat (sum_list_with (fun s => String.length s + 1)%nat strs).

Lemma text_size_cons s strs : text_size (s :: strs) = strlen s + 1 + text_size strs.
Proof. unfold text_size, strlen. cbn. lia. Qed.

Lemma text_size_submseteq strs strs' : strs ⊆+ strs' -> text_size strs <= text_size strs'.
Proof.
  unfold text_size. intros Hs. apply inj_le. induction Hs; cbn; lia.
Qed.

Lemma text_size_elem s strs : s ∈ strs -> strlen s + 1 <= text_size strs.
Proof.
  intros Hs. pose proof (text_size_submseteq [s] strs) as H.
  rewrite singleton_submseteq_l in H. specialize (H Hs). rewrite text_size_cons in H.
  unfold text_size at 1 in H. cbn in H. lia.
Qed.

Section files.
Context (sz : Z) (Hsz : 0 < sz) (m : Z) (d : dict) (Hd : dict_ok sz m d) (Hsize : text_size (names (slots d)) <= INT_MAX).

Abbreviation ht := (slots d).

Definition slot_fine (s : HT_REC_TYPE) : Prop := s = empty_slot \/ 0 < cnt s /\ is_Some (strkey s).

Lemma slots_fine : Forall slot_fine ht.
Proof.
  apply Forall_lookup. intros i s Hs. rewrite <- zlookup_nat in Hs.
  destruct (d_slot _ _ _ Hd _ s Hs) as [?|(? & str & ? & _)]; [by left|right]. split; [lia|by exists str].
Qed.

Lemma hops_spec l : Forall slot_fine l -> forall pre,
  hops (length l) (pre ++ l) (zlen pre) = Ok (hop_list l (zlen pre)).
Proof.
  induction 1 as [|s l Hs Hl IH]; intros pre; [done|]. cbn [hops length hop_list].
  rewrite rd_middle. cbn [mbind res_bind]. specialize (IH (pre ++ [s])). rewrite <- app_assoc in IH.
  rewrite zlen_snoc in IH. cbn [app] in IH. destruct Hs as [->|[Hc [k Hk]]].
  - cbn [cnt strkey empty_slot]. exact IH.
  - rewrite (proj2 (Z.ltb_lt 0 (cnt s))), Hk, decide_True by (unfold occupied; lia). by rewrite IH.
Qed.

Lemma hop_list_length l i : Forall slot_fine l -> zlen (hop_list l i) = zlen (entries cnt l).
Proof.
  intros Hl. revert i. induction Hl as [|s l Hs Hl IH]; intros i; [done|]. cbn [hop_list].
  unfold entries. rewrite filter_cons. destruct Hs as [->|[Hc [k ->]]].
  - rewrite decide_False by (intros H; by apply H). apply IH.
  - rewrite !decide_True by (unfold occupied; lia). rewrite !zlen_cons. by rewrite IH.
Qed.

(** A record of [hop] and the string of its slot *)
Definition hop_of (h : HOP_REC_TYPE) (str : string) : Prop :=
  exists s, ht !z (orig_idx h) = Some s /\ occupied cnt s /\ strkey s = Some str /\
    hop_key h = key s /\ len h = strlen str.

Lemma names_strlen str : str ∈ names ht -> strlen str + 1 <= INT_MAX.
Proof. intros Hs%text_size_elem. lia. Qed.

Lemma hop_list_names l : forall pre, ht = pre ++ l ->
  Forall2 hop_of (hop_list l (zlen pre)) (names l).
Proof.
  induction l as [|s l IH]; intros pre E; [constructor|]. cbn [hop_list].
  assert (ht !z (zlen pre) = Some s) as Hs by (rewrite E; apply rd_Ok, rd_middle).
  specialize (IH (pre ++ [s])). rewrite <- app_assoc, zlen_snoc in IH. specialize (IH E).
  unfold names, entries in IH |- *. rewrite filter_cons.
  destruct (d_slot _ _ _ Hd _ s Hs) as [->|(Hc & str & Hn & _)]; [done|]. rewrite Hn.
  assert (occupied cnt s) as Ho by (unfold occupied; lia). rewrite !decide_True by done. cbn [omap list_omap].
  rewrite Hn. constructor; [|exact IH].
  assert (str ∈ names ht) as Hin.
  { apply list_elem_of_omap. exists s. split; [|done]. apply entries_lookup; eauto. }
  apply names_strlen in Hin. unfold INT_MAX, strlen in Hin.
  exists s. cbn. split_and!; [done..|]. apply wrapU_small. unfold inU, strlen. lia.
Qed.

Lemma names_has str : str ∈ names ht <-> exists k, has d str k.
Proof.
  unfold names, has. rewrite list_elem_of_omap. split.
  - intros (s & [Ho (p & Hp)]%entries_lookup & Hn). by exists (key s), p, s.
  - intros (k & p & s & Hp & Ho & Hn & _). exists s. split; [|done]. apply entries_lookup; eauto.
Qed.

(** *** dump_ht *)

(** The file [f] holds the string of the record [h] at position [j]. *)
Definition dumped (f : dict_files) (pre : list ascii) (j : Z) (h : HOP_REC_TYPE) (str : string) : Prop :=
  lens f !z j = Some (strlen str) /\
  exists pre' post, pre ++ text f = pre' ++ String.list_ascii_of_string str ++ NUL :: post /\
    offsets f !z j = Some (zlen pre').

Lemma zlookup_cons {A} (x : A) l j : 0 <= j -> (x :: l) !z (j + 1) = l !z j.
Proof.
  intros Hj. rewrite !zlookup_to_nat by lia. replace (Z.to_nat (j + 1)) with (S (Z.to_nat j)) by lia. done.
Qed.

Lemma strlen_chars str : zlen (String.list_ascii_of_string str) = strlen str.
Proof. unfold zlen, strlen. f_equal. induction str; cbn; congruence. Qed.

Lemma dump_loop_ok H strs : Forall2 hop_of H strs -> forall pre, zlen pre + text_size strs <= INT_MAX ->
  exists f, dump_loop H ht (zlen pre) = Ok f /\ keys f = wrapS 64 ∘ hop_key <$> H /\
    forall j h str, H !z j = Some h -> strs !z j = Some str -> dumped f pre j h str.
Proof.
  induction 1 as [|h str H strs (s & Hs & Ho & Hn & Hk & Hl) Hf IH]; intros pre Hsz'.
  { eexists. split_and!; [done..|]. intros j h str Hj. by apply zlookup_Some_range in Hj as [? ?%Z.lt_nge]. }
  rewrite text_size_cons in Hsz'. cbn [dump_loop]. rewrite (proj2 (rd_Ok _ _ _) Hs). cbn [mbind res_bind]. rewrite Hn.
  set (chars := String.list_ascii_of_string str).
  assert (zlen (pre ++ chars ++ [NUL]) = zlen pre + (len h + 1)) as Hlen.
  { rewrite !zlen_app. unfold chars. rewrite strlen_chars, Hl. done. }
  pose proof (zlen_nonneg pre). pose proof (zlen_nonneg chars) as Hc. unfold chars in Hc. rewrite strlen_chars in Hc.
  assert (0 <= text_size strs) by (unfold text_size; lia). unfold INT_MAX in Hsz'.
  rewrite wrapU_small, <- Hlen by (unfold inU; lia).
  destruct (IH (pre ++ chars ++ [NUL])) as (f & -> & Hkeys & Hat); [unfold INT_MAX; lia|].
  cbn [mbind res_bind]. eexists. split; [done|]. split; [cbn [keys fmap list_fmap]; by rewrite Hkeys|].
  intros j h' str' Hj Hj'. pose proof (zlookup_Some_range _ _ _ Hj).
  destruct (decide (j = 0)) as [->|Hne].
  - injection Hj as <-. injection Hj' as <-. split; cbn.
    + unfold zlookup. cbn. rewrite wrapS_small by (unfold inS; lia). by rewrite Hl.
    + exists pre, (text f). split; [done|].
      unfold zlookup. cbn. rewrite wrapS_small by (unfold inS; lia). done.
  - replace j with (j - 1 + 1) in Hj, Hj' |- * by lia. rewrite zlookup_cons in Hj by lia. rewrite zlookup_cons in Hj' by lia.
    destruct (Hat _ _ _ Hj Hj') as (Hlj & pre' & post & Ht & Hoff).
    split; cbn; [by rewrite zlookup_cons by lia|]. exists pre', post. split; [|by rewrite zlookup_cons by lia].
    rewrite <- Ht, <- !app_assoc. done.
Qed.

End files.

(** *** The sorted records *)

(** The string of a record *)
Definition name_of (ht : list HT_REC_TYPE) (h : HOP_REC_TYPE) : string :=
  default ""%string (s ← ht !z (orig_idx h); strkey s).

#[local] Instance hop_le_trans : Transitive hop_le.
Proof. intros a b c. unfold hop_le. lia. Qed.
#[local] Instance hop_le_total : Total hop_le.
Proof. intros a b. unfold hop_le. lia. Qed.

(** What [dump_ht] writes: [H] are the records in the order of the files. *)
Record dump_of (d : dict) (f : dict_files) (H : list HOP_REC_TYPE) : Prop := {
  f_keys : keys f = wrapS 64 ∘ hop_key <$> H;
  f_sorted : StronglySorted Z.le (keys f);
  f_names : name_of (slots d) <$> H ≡ₚ names (slots d);
  f_hop h : h ∈ H -> hop_of d h (name_of (slots d) h);
  f_at j h : H !z j = Some h -> dumped f [] j h (name_of (slots d) h)
}.

Lemma hop_of_name d h str : hop_of d h str -> name_of (slots d) h = str.
Proof. intros (s & Hs & _ & Hn & _). unfold name_of. rewrite Hs. cbn. by rewrite Hn. Qed.

Lemma dump_ht_ok sz m d : 0 < sz -> dict_ok sz m d -> text_size (names (slots d)) <= INT_MAX ->
  exists f H, dump_ht sz d = Ok f /\ dump_of d f H.
Proof.
  intros Hsz Hd Hsize. pose proof (slots_fine sz m d Hd) as Hfine.
  pose proof (hops_spec _ Hfine []) as Hhops. change (zlen []) with 0 in Hhops. cbn [app] in Hhops.
  pose proof (hop_list_names sz m d Hd Hsize (slots d) [] eq_refl) as Hnames. change (zlen []) with 0 in Hnames.
  pose proof (hop_list_length (slots d) 0 Hfine) as Hlen. rewrite <- (d_n _ _ _ Hd) in Hlen.
  set (H0 := hop_list (slots d) 0) in *. set (H := merge_sort hop_le H0).
  assert (H ≡ₚ H0) as Hperm by apply merge_sort_Permutation.
  assert (name_of (slots d) <$> H0 = names (slots d)) as E0.
  { clear -Hnames. induction Hnames as [|h str l strs Hh Hl IH]; [done|]. cbn. by rewrite (hop_of_name d h str Hh), IH. }
  assert (forall h, h ∈ H -> hop_of d h (name_of (slots d) h)) as Hhop.
  { intros h Hh. rewrite Hperm in Hh. apply list_elem_of_lookup in Hh as (i & Hi).
    destruct (Forall2_lookup_l _ _ _ _ _ Hnames Hi) as (str & _ & Hs). by rewrite (hop_of_name d h str Hs). }
  assert (Forall2 (hop_of d) H (name_of (slots d) <$> H)) as Hf2.
  { apply Forall2_fmap_r, Forall_Forall2_diag, Forall_forall. exact Hhop. }
  assert (name_of (slots d) <$> H ≡ₚ names (slots d)) as HpermN by by rewrite Hperm, E0.
  assert (text_size (name_of (slots d) <$> H) <= INT_MAX) as Hsz'.
  { etransitivity; [|exact Hsize]. apply text_size_submseteq. by rewrite HpermN. }
  destruct (dump_loop_ok d H _ Hf2 []) as (f & Hrun & Hkeys & Hat); [change (zlen []) with 0; lia|].
  exists f, H. split.
  - unfold dump_ht. rewrite <- (d_len _ _ _ Hd), to_nat_zlen, Hhops. cbn [mbind res_bind].
    rewrite Hlen, Z.eqb_refl. exact Hrun.
  - split; [done| |done|done|].
    + rewrite Hkeys. assert (StronglySorted hop_le H) as Hs by (apply StronglySorted_merge_sort; apply _).
      clear -Hs. induction Hs as [|h l Hs IH Hall]; cbn; constructor; [done|]. by apply Forall_fmap.
    + intros j h Hj. apply (Hat j h); [done|]. by apply rd_Ok, rd_fmap.
Qed.

(** *** Looking a string up *)

Lemma strncmp_ok str : forall k pre post, String.length k = String.length str ->
  strncmp_eq str (pre ++ String.list_ascii_of_string k ++ post) (zlen pre) = Ok (bool_decide (k = str)).
Proof.
  induction str as [|c str IH]; intros [|x k] pre post Hl; try done. cbn in Hl. injection Hl as Hl.
  cbn [strncmp_eq String.list_ascii_of_string app]. rewrite rd_middle. cbn [mbind res_bind].
  case_bool_decide as Hx.
  - subst x. specialize (IH k (pre ++ [c]) post Hl). rewrite <- app_assoc, zlen_snoc in IH. cbn [app] in IH. rewrite IH.
    f_equal. apply bool_decide_ext. split; [by intros ->|by intros [=]].
  - f_equal. rewrite bool_decide_false; [done|]. by intros [= ].
Qed.

Section lookup.
Context (sz : Z) (Hsz : 0 < sz) (m : Z) (d : dict) (Hd : dict_ok sz m d).
Context (f : dict_files) (H : list HOP_REC_TYPE) (Hf : dump_of d f H) (Hne : keys f <> []).

Lemma hop_has h : h ∈ H -> has d (name_of (slots d) h) (hop_key h).
Proof. intros Hh. destruct (f_hop _ _ _ Hf h Hh) as (s & Hs & Ho & Hn & Hk & _). by exists (orig_idx h), s. Qed.

Lemma has_hop str k : has d str k -> exists h, h ∈ H /\ name_of (slots d) h = str /\ hop_key h = k.
Proof.
  intros Hh. assert (str ∈ names (slots d)) as Hin by (apply names_has; by exists k).
  rewrite <- (f_names _ _ _ Hf) in Hin. apply list_elem_of_fmap in Hin as (h & -> & Hin).
  exists h. split_and!; [done..|]. by apply (has_unique sz m d Hd (name_of (slots d) h)); [apply hop_has|].
Qed.

Lemma has_range str k : has d str k -> inU 64 k.
Proof.
  intros (p & s & Hs & Ho & Hn & <-).
  destruct (slot_named sz m d Hd p s Hs Ho) as (_ & str' & _ & (l1 & sd & l2 & _ & -> & _)). apply str_hash_range.
Qed.

(** One seed: the search ends without an entry, or it finds the entry whose
    key is the hash. *)
Lemma lookup_seed str seed sds :
  let k := str_hash str seed in
  ((forall str', ~ has d str' k) /\ lookup_loop (seed :: sds) str f = Ok (-1)) \/
  (exists p str', has d str' k /\ keys f !z p = Some (wrapS 64 k) /\
     lookup_loop (seed :: sds) str f = if decide (str' = str) then Ok p else lookup_loop sds str f).
Proof.
  intros k. cbn [lookup_loop]. fold k. unfold BinSearch.bin_search_I8.
  destruct (BinSearch.bin_search_found (keys f) (wrapS 64 k) (Some "dontcare"%string) BinSearch.BSEARCH_DONTCARE
    (f_sorted _ _ _ Hf) Hne eq_refl) as (pos & -> & Hpos). cbn [mbind res_bind].
  destruct Hpos as [[-> Hno]|[Hp _]].
  - left. split; [|done]. intros str' Hh. apply Hno. destruct (has_hop str' k Hh) as (h & Hin & _ & <-).
    rewrite (f_keys _ _ _ Hf). apply list_elem_of_fmap. by exists h.
  - right. pose proof (zlookup_Some_range _ _ _ Hp). destruct (Z.ltb_spec pos 0); [lia|].
    pose proof Hp as Hp'. rewrite (f_keys _ _ _ Hf) in Hp'. apply zlookup_fmap in Hp' as (h & Hh & Ek).
    assert (h ∈ H) as Hin.
    { pose proof (zlookup_Some_range _ _ _ Hh). rewrite zlookup_to_nat in Hh by lia. by apply list_elem_of_lookup_2 in Hh. }
    pose proof (hop_has h Hin) as Hhas.
    assert (hop_key h = k) as Ehk by (symmetry; apply (wrapS_inj 64); [lia|apply str_hash_range|by apply (has_range (name_of (slots d) h))|done]).
    rewrite Ehk in Hhas. exists pos, (name_of (slots d) h). split_and!; [done..|].
    destruct (f_at _ _ _ Hf pos h Hh) as (Hl & pre & post & Ht & Hoff). cbn [app] in Ht.
    rewrite (proj2 (rd_Ok _ _ _) Hl), (proj2 (rd_Ok _ _ _) Hoff), Ht. cbn [mbind res_bind].
    destruct (Z.eqb_spec (strlen (name_of (slots d) h)) (strlen str)) as [E|E]; cbn [negb].
    + rewrite strncmp_ok by (unfold strlen in E; lia). cbn [mbind res_bind]. by case_bool_decide; case_decide.
    + rewrite decide_False; [done|]. intros En. by rewrite En in E.
Qed.

Lemma lookup_absent str sds : (forall k, ~ has d str k) -> lookup_loop sds str f = Ok (-1).
Proof.
  intros Hno. induction sds as [|seed sds IH]; [done|].
  destruct (lookup_seed str seed sds) as [[_ ?]|(p & str' & Hh & _ & ->)]; [done|].
  rewrite decide_False; [done|]. intros ->. by apply (Hno _ Hh).
Qed.

Lemma lookup_clash str seed sds : clashes (slots d) str seed -> lookup_loop (seed :: sds) str f = lookup_loop sds str f.
Proof.
  intros (q & s & str1 & Hs & Ho & Hk & Hn & Hne1).
  assert (has d str1 (str_hash str seed)) as Hh1 by (by exists q, s).
  destruct (lookup_seed str seed sds) as [[Hno _]|(p & str' & Hh & _ & ->)]; [by destruct (Hno str1)|].
  rewrite decide_False; [done|]. intros ->. by apply Hne1, (has_inj sz m d Hd _ _ _ Hh1).
Qed.

Lemma lookup_present str k : has d str k ->
  exists p, lookup_loop seeds str f = Ok p /\ keys f !z p = Some (wrapS 64 k).
Proof.
  intros Hh. pose proof Hh as (q & s & Hs & Ho & Hn & Hk).
  destruct (slot_named sz m d Hd q s Hs Ho) as (_ & str' & Hn' & (l1 & seed & l2 & -> & Ek & Hc)).
  assert (str' = str) as -> by congruence. rewrite Hk in Ek. clear Hs Ho Hn Hk Hn'.
  induction l1 as [|sd l1 IH]; cbn [app].
  - destruct (lookup_seed str seed l2) as [[Hno _]|(p & str' & Hh' & Hp & ->)]; rewrite <- Ek in *.
    + by destruct (Hno str).
    + exists p. split; [|done]. rewrite decide_True; [done|]. by apply (has_inj sz m d Hd _ _ k).
  - apply Forall_cons in Hc as [Hsd Hc]. rewrite lookup_clash by done. by apply IH.
Qed.

End lookup.

(** *** The strings that are in the table *)

Lemma omap_default {A B} (f : A -> option B) (dflt : B) l :
  Forall (fun x => is_Some (f x)) l -> omap f l = (fun x => default dflt (f x)) <$> l.
Proof. induction 1 as [|x l [y Hy] Hl IH]; [done|]. cbn. rewrite Hy. cbn. by rewrite IH. Qed.

Lemma names_NoDup sz m d : dict_ok sz m d -> NoDup (names (slots d)).
Proof.
  intros Hd. pose proof (entries_NoDup key cnt _ _ (d_table _ _ _ Hd)) as Hk. apply NoDup_fmap_1 in Hk.
  assert (names (slots d) = (fun s => default ""%string (strkey s)) <$> entries cnt (slots d)) as ->.
  { apply omap_default, Forall_forall. intros s [Ho (p & Hp)]%entries_lookup.
    destruct (slot_named sz m d Hd p s Hp Ho) as (_ & str & ? & _). by exists str. }
  apply NoDup_fmap_2_strong; [|done]. intros s s' [Ho (p & Hp)]%entries_lookup [Ho' (q & Hq)]%entries_lookup E.
  destruct (slot_named sz m d Hd p s Hp Ho) as (_ & str & Hn & _).
  destruct (slot_named sz m d Hd q s' Hq Ho') as (_ & str' & Hn' & _). rewrite Hn, Hn' in E. cbn in E. subst str'.
  assert (key s = key s') as Ek by (apply (has_unique sz m d Hd str); [by exists p, s|by exists q, s']).
  assert (p = q) by (apply (key_unique key cnt _ _ (d_table _ _ _ Hd) p q s s'); done). congruence.
Qed.

Lemma names_size sz m d strs : dict_ok sz m d -> (forall str k, has d str k -> str ∈ strs) ->
  text_size (names (slots d)) <= text_size strs.
Proof.
  intros Hd Hb. apply text_size_submseteq, NoDup_submseteq; [by apply (names_NoDup sz m)|].
  intros str (k & Hk)%names_has. by apply (Hb str k).
Qed.

Lemma setup_ht_dict_ok : setup_ht_dict = Ok (4194319, empty_dict 4194319).
Proof. unfold setup_ht_dict. by destruct sizes_of_tables as [_ ->]. Qed.

(** Claim C14. A dictionary made of a list of strings, in a table of any size
    (4194319 in the program): either some string is refused, and then the
    table was half full, or the string came again and is in slot 1, or every
    seed clashes; or equal strings, and only those, have equal keys, and in
    the files that are written the search for a string answers the position
    of its key, and -1 for a string that is not there. *)
Theorem dictionary_correct (sz : Z) (strs : list string) :
  0 < sz -> Forall hashes_nonzero strs -> strs <> [] -> text_size strs <= INT_MAX ->
  (exists d ks f, add_all sz strs (empty_dict sz) = Ok (d, ks) /\ dump_ht sz d = Ok f /\ zlen ks = zlen strs /\
     (forall i j s s' k k', strs !z i = Some s -> strs !z j = Some s' -> ks !z i = Some k -> ks !z j = Some k' ->
        s = s' <-> k = k') /\
     (forall i s k, strs !z i = Some s -> ks !z i = Some k -> s <> ""%string ->
        exists p, get_from_dict (Some s) f = Ok p /\ keys f !z p = Some (wrapS 64 k)) /\
     (forall s, s ∉ strs -> s <> ""%string -> get_from_dict (Some s) f = Ok (-1))) \/
  add_all sz strs (empty_dict sz) = Err /\ rejects_one sz strs (empty_dict sz).
Proof.
  intros Hsz Hnz Hne Hsize.
  assert (zlen strs <= text_size strs) as Hlen.
  { clear. unfold zlen, text_size. apply inj_le. induction strs; cbn; lia. }
  destruct (add_all_ok sz Hsz strs Hnz 0 (empty_dict sz) (empty_dict_ok sz Hsz)) as [(d & ks & Hrun & Hd & _ & Hf2 & Hb)|Herr];
    [lia|unfold INT_MAX in Hsize; lia|left|by right].
  assert (forall str k, has d str k -> str ∈ strs) as Hin.
  { intros str k Hh. destruct (Hb str k Hh) as [(p & s & Hs & Ho & _)|?]; [|done].
    by destruct (slot_named sz 0 _ (empty_dict_ok sz Hsz) p s Hs Ho) as [? _]; lia. }
  pose proof (names_size sz _ d strs Hd Hin) as Hns.
  destruct (dump_ht_ok sz _ d Hsz Hd ltac:(lia)) as (f & H & Hdump & Hfo).
  assert (forall i s k, strs !z i = Some s -> ks !z i = Some k -> has d s k) as Hat.
  { intros i s k Hs Hk. pose proof (zlookup_Some_range _ _ _ Hs).
    rewrite zlookup_to_nat in Hs by lia. rewrite zlookup_to_nat in Hk by lia. by apply (Forall2_lookup_lr _ _ _ _ _ _ Hf2 Hs Hk). }
  assert (keys f <> []) as Hkne.
  { destruct Hf2 as [|s k strs' ks' Hh _]; [done|]. destruct (has_hop sz _ d Hd f H Hfo s k Hh) as (h & Hh' & _).
    rewrite (f_keys _ _ _ Hfo). by destruct H; [apply elem_of_nil in Hh'|]. }
  exists d, ks, f. split_and!; [done|done|unfold zlen; by rewrite (Forall2_length _ _ _ Hf2)| | |].
  - intros i j s s' k k' Hs Hs' Hk Hk'. pose proof (Hat _ _ _ Hs Hk). pose proof (Hat _ _ _ Hs' Hk'). split.
    + intros <-. by apply (has_unique sz _ d Hd s).
    + intros <-. by apply (has_inj sz _ d Hd _ _ k).
  - intros i s k Hs Hk Hs0. destruct (lookup_present sz _ d Hd f H Hfo Hkne s k (Hat _ _ _ Hs Hk)) as (p & Hp & Hkp).
    exists p. split; [|done]. by destruct s.
  - intros s Hs Hs0. assert (lookup_loop seeds s f = Ok (-1)) as Hl.
    { apply (lookup_absent sz _ d Hd f H Hfo Hkne). intros k Hh. by apply Hs, (Hin s k). }
    by destruct s.
Qed.

Lemma dictionary_correct_witness :
  exists d ks f p k, add_all 13 ["red"; "green"; "red"]%string (empty_dict 13) = Ok (d, ks) /\ dump_ht 13 d = Ok f /\
    ks !z 1 = Some k /\ get_from_dict (Some "green"%string) f = Ok p /\ keys f !z p = Some (wrapS 64 k).
Proof.
  destruct (dictionary_correct 13 ["red"; "green"; "red"]%string) as [(d & ks & f & E & Hf & Hl & _ & Hget & _)|[E _]].
  - reflexivity.
  - apply (bool_decide_unpack _). vm_compute. exact I.
  - discriminate.
  - vm_compute. discriminate.
  - assert (exists k, ks !z 1 = Some k) as [k Hk] by (apply zlookup_is_Some; rewrite Hl; change (0 <= 1 < 3); lia).
    destruct (Hget 1 "green"%string k eq_refl Hk) as (p & Hp & Hkp); [discriminate|].
    exists d, ks, f, p, k. auto.
  - vm_compute in E. discriminate.
Defined.

End Dict.
