(* ===== verification/Csv.v ===== *)
(** * Reading of comma-separated files.

    Models src/src/dir_helpers/read_csv.c: the automaton [read_csv], which
    goes over the bytes of the file, with quoted cells and escapes, and
    [print_cell], which converts the text of a cell and writes it to the file
    of its field.  Strings get a key from a dictionary (Dict.v), made on the
    way or given.  [strtof] and [strtod] are parameters.

    The pointers [fps] and [nn_fps] are the files of the fields, which begin
    empty; opening them and removing them after an error are not modelled. *)

From stdpp Require Import prelude strings.
From Stdlib Require Import ZArith Lia Ascii SpecFloat.
From S2P Require Import Prelude CString Types Reduce HashTable Dict.
Import Reduce.

Module Csv.

(** ** Cells *)

Definition TAB : ascii := ascii_of_nat 9.
Definition NEWLINE : ascii := ascii_of_nat 10.
Definition DQUOTE : ascii := ascii_of_nat 34.
Definition COMMA : ascii := ascii_of_nat 44.
Definition BSLASH : ascii := ascii_of_nat 92.
Definition is_chr (c d : ascii) : bool := bool_decide (c = d).

(** What [fwrite] puts in the file of a field. *)
Inductive csv_cell := Int (v : Z) | Flt (v : float).

(** A field: its type, its [FLD_PROPS_TYPE], its dictionary ([old_dict], when
    it is given), and its two files. *)
Record fld := {
  fldtype : FLD_TYPE; is_load : bool; is_all_def : bool; is_string : bool; is_any_null : bool;
  is_null_if_missing : bool; old_dict : option Dict.dict_files; ht : Dict.dict; sz_ht : Z;
  fp : list csv_cell; nn_fp : list Z
}.

Section read.
Context (strtof strtod : string -> float * string).

(** [g_buffer], read as a string, ends at the first NUL. *)
Fixpoint c_str (l : list ascii) : string :=
  match l with
  | [] => EmptyString
  | c :: l => if is_chr c Dict.NUL then EmptyString else c :s c_str l
  end.

(** [for ( long long i = lb; i < ub; i++ )]: the cell without its backslashes. *)
Fixpoint copy_cell (fuel : nat) (X : list ascii) (i ub : Z) : res (list ascii) :=
  if i <? ub then
    match fuel with
    | O => NoFuel
    | S fuel =>
        c ← rd X i;
        if is_chr c BSLASH then
          _ ← go_BYE_if (i =? ub - 1);
          c ← rd X (i + 1);
          l ← copy_cell fuel X (i + 1 + 1) ub;
          Ok (c :: l)
        else
          l ← copy_cell fuel X (i + 1) ub;
          Ok (c :: l)
    end
  else Ok [].

(** A value, the flag [c_nn], and whether [is_any_null] is set. *)
Record stored := { s_cell : csv_cell; s_nn : bool; s_null : bool }.

(** [ptr_fld_prop->is_string]; [some] says that the cell is not empty. *)
Definition store_string (f : fld) (some : bool) (buf : string) : res (stored * Dict.dict) :=
  if some then
    match old_dict f with
    | Some files =>
        p ← Dict.get_from_dict (Some buf) files;
        let ival4 := wrapS 32 p in
        if ival4 <? 0 then
          if is_null_if_missing f then Ok ({| s_cell := Int 0; s_nn := false; s_null := false |}, ht f) else Err
        else Ok ({| s_cell := Int ival4; s_nn := true; s_null := false |}, ht f)
    | None =>
        '(d, k) ← Dict.add_to_dict (sz_ht f) buf (ht f);
        Ok ({| s_cell := Int (wrapS 64 k); s_nn := true; s_null := false |}, d)
    end
  else Ok ({| s_cell := Int 0; s_nn := false; s_null := true |}, ht f).

Definition int_limits (t : FLD_TYPE) : Z * Z :=
  match t with
  | I1 => (SCHAR_MIN, SCHAR_MAX)
  | I2 => (SHRT_MIN, SHRT_MAX)
  | I4 => (INT_MIN, INT_MAX)
  | _ => (LLONG_MIN, LLONG_MAX)
  end.

(** [case I1 : case I2 : case I4 : case I8 :] *)
Definition store_int (f : fld) (some : bool) (buf : string) : res stored :=
  '(ival8, c_nn, null) ←
    (if some then
       if strcmp_eq buf "null" then
         _ ← go_BYE_if (is_all_def f);
         Ok (0, false, true)
       else
         let '(v, endptr) := strtoll buf in
         _ ← go_BYE_if (negb (strcmp_eq endptr ""));
         Ok (v, true, false)
     else Ok (0, false, true));
  let '(lo, hi) := int_limits (fldtype f) in
  _ ← go_BYE_if (hi <? ival8);
  _ ← go_BYE_if (ival8 <? lo);
  Ok {| s_cell := Int ival8; s_nn := c_nn; s_null := null |}.

(** [case F4 :] and [case F8 :]; the value is 0.0 when the cell is empty. *)
Definition store_float (strto : string -> float * string) (some : bool) (buf : string) : res stored :=
  if some then
    let '(v, endptr) := strto buf in
    _ ← go_BYE_if (negb (strcmp_eq endptr ""));
    Ok {| s_cell := Flt v; s_nn := true; s_null := false |}
  else Ok {| s_cell := Flt (S754_zero false); s_nn := false; s_null := true |}.

(** What [print_cell] does with the text of a cell. *)
Definition store (f : fld) (some : bool) (buf : string) : res fld :=
  _ ← go_BYE_if (negb some && is_all_def f);
  '(s, d) ←
    (if is_string f then store_string f some buf
     else
       s ← match fldtype f with
           | I1 | I2 | I4 | I8 => store_int f some buf
           | F4 => store_float strtof some buf
           | F8 => store_float strtod some buf
           | _ => Err
           end;
       Ok (s, ht f));
  Ok {| fldtype := fldtype f; is_load := is_load f; is_all_def := is_all_def f; is_string := is_string f;
        is_any_null := is_any_null f || negb some || s_null s; is_null_if_missing := is_null_if_missing f;
        old_dict := old_dict f; ht := d; sz_ht := sz_ht f; fp := fp f ++ [s_cell s];
        nn_fp := if is_all_def f then nn_fp f else nn_fp f ++ [if s_nn s then 1 else 0] |}.

(** The cell [X[lb..ub-1]]; [g_buflen] is doubled once when the cell does not
    fit.  The result has the new [g_buflen]. *)
Definition print_cell (X : list ascii) (lb ub : Z) (f : fld) (g_buflen : Z) : res (fld * Z) :=
  _ ← go_BYE_if (ub <? lb);
  let g_buflen := if g_buflen <=? ub - lb then g_buflen * 2 else g_buflen in
  l ← copy_cell (Z.to_nat (ub - lb)) X lb ub;
  if g_buflen <? zlen l + 1 then Ub
  else
    f ← store f (lb <? ub) (c_str l);
    Ok (f, g_buflen).

(** ** The automaton *)

Context (X : list ascii) (fld_delim fld_sep rec_delim : ascii) (ignore_hdr : bool).
Abbreviation nX := (zlen X).

Record csv_state := {
  in_fld : bool; is_fld_delim : bool; in_escape_mode : bool; lb : Z; fld_idx : Z; num_rows : Z; num_cells : Z;
  flds : list fld; g_buflen : Z
}.
Abbreviation n_flds st := (zlen (flds st)).

(** The escapes: the new [in_escape_mode] and [is_fld_delim_escaped]. *)
Definition escapes (c : ascii) (esc : bool) : res (bool * bool) :=
  if is_chr fld_sep TAB then Ok (esc, false)
  else
    _ ← go_BYE_if (esc && negb (is_chr c BSLASH) && negb (is_chr c DQUOTE));
    let esc := if is_chr c BSLASH then negb esc else esc in
    if is_chr c DQUOTE && esc then Ok (false, true) else Ok (esc, false).

Definition last_fld (st : csv_state) : bool := fld_idx st =? n_flds st - 1.

(** Does the character end the cell? *)
Definition terminates (c : ascii) (st : csv_state) : bool :=
  (fld_idx st <? n_flds st - 1) && is_chr c fld_sep || last_fld st && is_chr c rec_delim.

(** [if ( fld_props[fld_idx].is_load ) { ... }] with the cell that ends before
    [ub]; [rows] is [num_rows] at that point. *)
Definition end_cell (ub rows : Z) (st : csv_state) : res (list fld * Z) :=
  f ← rd (flds st) (fld_idx st);
  if is_load f then
    if ignore_hdr && (rows =? 0) then Ok (flds st, g_buflen st)
    else
      '(f, b) ← print_cell X (lb st) ub f (g_buflen st);
      l ← wr (flds st) (fld_idx st) f;
      Ok (l, b)
  else Ok (flds st, g_buflen st).

Definition next_fld (st : csv_state) : Z := if fld_idx st + 1 =? n_flds st then 0 else fld_idx st + 1.

Definition set_lex (in_f delim esc : bool) (l : Z) (st : csv_state) : csv_state :=
  {| in_fld := in_f; is_fld_delim := delim; in_escape_mode := esc; lb := l; fld_idx := fld_idx st;
     num_rows := num_rows st; num_cells := num_cells st; flds := flds st; g_buflen := g_buflen st |}.

(** A cell that is not quoted ends before [i]. *)
Definition end_bare (i : Z) (c : ascii) (st : csv_state) : res csv_state :=
  '(l, b) ← end_cell i (num_rows st) st;
  Ok {| in_fld := false; is_fld_delim := is_fld_delim st; in_escape_mode := in_escape_mode st; lb := lb st;
        fld_idx := next_fld st;
        num_rows := if last_fld st && is_chr c rec_delim then num_rows st + 1 else num_rows st;
        num_cells := num_cells st + 1; flds := l; g_buflen := b |}.

(** A quoted cell ends before [i]: the row is counted before the cell is
    written. *)
Definition end_quoted (i : Z) (st : csv_state) : res csv_state :=
  rows ←
    (if fld_idx st <? n_flds st - 1 then
       c ← rd X (i + 1);
       _ ← go_BYE_if (negb (is_chr c fld_sep));
       Ok (num_rows st)
     else
       c ← rd X (i + 1);
       _ ← go_BYE_if (negb (is_chr c rec_delim));
       Ok (num_rows st + 1));
  '(l, b) ← end_cell i rows st;
  Ok {| in_fld := false; is_fld_delim := false; in_escape_mode := in_escape_mode st; lb := lb st;
        fld_idx := next_fld st; num_rows := rows; num_cells := num_cells st + 1; flds := l; g_buflen := b |}.

(** The body of the loop; the result says if the next character is consumed
    as well. *)
Definition csv_step (i : Z) (st : csv_state) : res (csv_state * bool) :=
  c ← rd X i;
  '(esc, escaped) ← escapes c (in_escape_mode st);
  if in_fld st then
    let st := set_lex true (is_fld_delim st) esc (lb st) st in
    if is_fld_delim st then
      if is_chr c fld_delim && negb escaped then st ← end_quoted i st; Ok (st, true)
      else Ok (st, false)
    else if terminates c st then st ← end_bare i c st; Ok (st, false)
    else Ok (st, false)
  else if is_chr c fld_delim then Ok (set_lex true true esc (i + 1) st, false)
  else
    let st := set_lex true (is_fld_delim st) esc i st in
    if terminates c st then st ← end_bare i c st; Ok (st, false)
    else Ok (st, false).

Fixpoint csv_loop (fuel : nat) (i : Z) (st : csv_state) : res csv_state :=
  if i <? nX then
    match fuel with
    | O => NoFuel
    | S fuel =>
        '(st, consumed) ← csv_step i st;
        csv_loop fuel (if consumed : bool then i + 1 + 1 else i + 1) st
    end
  else Ok st.

Definition csv_start (l : list fld) : csv_state :=
  {| in_fld := false; is_fld_delim := false; in_escape_mode := false; lb := 0; fld_idx := 0; num_rows := 0;
     num_cells := 0; flds := l; g_buflen := 8192 |}.

(** [*ptr_num_rows] and the fields with their files. *)
Definition read_csv (l : list fld) : res (Z * list fld) :=
  _ ← go_BYE_if (zlen l <=? 0);
  st ← csv_loop (length X) 0 (csv_start l);
  _ ← go_BYE_if (negb (num_cells st =? zlen l * num_rows st));
  Ok (if ignore_hdr then num_rows st - 1 else num_rows st, flds st).

End read.

(** ** Examples

    In the texts a quote stands for a double quote and a bar for the end of a
    line. *)
Definition csv_text (s : string) : list ascii :=
  (fun c => if is_chr c "'" then DQUOTE else if is_chr c "|" then NEWLINE else c) <$> String.list_ascii_of_string s.
Definition no_float (s : string) : float * string := (S754_zero false, s).
Definition int_fld (t : FLD_TYPE) (vals nns : list Z) (null : bool) : fld :=
  {| fldtype := t; is_load := true; is_all_def := false; is_string := false; is_any_null := null;
     is_null_if_missing := false; old_dict := None; ht := Dict.empty_dict 0; sz_ht := 0;
     fp := Int <$> vals; nn_fp := nns |}.
Definition read_text (ignore_hdr : bool) (l : list fld) (s : string) : res (Z * list fld) :=
  read_csv no_float no_float (csv_text s) DQUOTE COMMA NEWLINE ignore_hdr l.

Example csv_ex :
  read_text true [int_fld I4 [] [] false; int_fld I1 [] [] false] "a,b|12,'-3'|,null|'7',0|"
    = Ok (3, [int_fld I4 [12; 0; 7] [1; 0; 1] true; int_fld I1 [-3; 0; 0] [1; 0; 1] true]).
Proof. vm_compute. reflexivity. Qed.
(** The last cell of a header is read as data when it is quoted. *)
Example csv_quoted_header :
  read_text true [int_fld I4 [] [] false; int_fld I4 [] [] false] "a,'8'|1,2|"
    = Ok (1, [int_fld I4 [1] [1] false; int_fld I4 [8; 2] [1; 1] false]).
Proof. vm_compute. reflexivity. Qed.
(** What follows the last separator is lost, in a file with one field or in
    the first field. *)
Example csv_no_newline :
  read_text false [int_fld I4 [] [] false] "1|2" = Ok (1, [int_fld I4 [1] [1] false]) /\
  read_text false [int_fld I4 [] [] false; int_fld I4 [] [] false] "1,2|3"
    = Ok (1, [int_fld I4 [1] [1] false; int_fld I4 [2] [1] false]) /\
  read_text false [int_fld I4 [] [] false; int_fld I4 [] [] false] "1,2|3,4" = Err.
Proof. split_and!; vm_compute; reflexivity. Qed.
(** A quote that is the last character: the byte behind the file is read. *)
Example csv_quote_at_end : read_text false [int_fld I4 [] [] false] "'1'" = Ub.
Proof. vm_compute. reflexivity. Qed.
Example csv_empty_file : read_text true [int_fld I4 [] [] false] "" = Ok (-1, [int_fld I4 [] [] false]).
Proof. vm_compute. reflexivity. Qed.
Example csv_saturates :
  read_text false [int_fld I8 [] [] false] "99999999999999999999|" = Ok (1, [int_fld I8 [LLONG_MAX] [1] false]).
Proof. vm_compute. reflexivity. Qed.

(** ** What a file says *)

Section text.
Context (fld_delim fld_sep rec_delim : ascii).

(** Characters that may stand in a cell as they are. *)
Definition plain (c : ascii) : Prop :=
  c <> fld_sep /\ c <> rec_delim /\ c <> fld_delim /\ c <> BSLASH /\ c <> Dict.NUL.
(** A character of a quoted cell *)
Definition escaped (c : ascii) : list ascii :=
  if is_chr c BSLASH || is_chr c DQUOTE then [BSLASH; c] else [c].
Abbreviation chars s := (String.list_ascii_of_string s).

(** The text [r] of a cell with the value [s]; the flag says that it is quoted. *)
Inductive written_cell (s : string) : list ascii -> bool -> Prop :=
| written_bare : Forall plain (chars s) -> written_cell s (chars s) false
| written_quoted : fld_sep <> TAB -> fld_delim = DQUOTE -> Forall (fun c => c <> Dict.NUL) (chars s) ->
    written_cell s (DQUOTE :: mbind escaped (chars s) ++ [DQUOTE]) true.

(** A line; the flag says that its last cell is quoted. *)
Inductive line : list string -> list ascii -> bool -> Prop :=
| line_last s r q : written_cell s r q -> line [s] (r ++ [rec_delim]) q
| line_cons s r q ss t ql : written_cell s r q -> line ss t ql -> line (s :: ss) (r ++ fld_sep :: t) ql.

Inductive lines : list (list string) -> list ascii -> Prop :=
| lines_nil : lines [] []
| lines_cons ss t q rows text : line ss t q -> lines rows text -> lines (ss :: rows) (t ++ text).

End text.

(** What reading it should do, cell by cell. *)
Section load.
Context (strtof strtod : string -> float * string).

Definition load_cell (f : fld) (s : string) : res fld :=
  if is_load f then store strtof strtod f (bool_decide (s <> ""%string)) s else Ok f.
Fixpoint load_row (fs : list fld) (ss : list string) : res (list fld) :=
  match fs, ss with
  | f :: fs, s :: ss => f ← load_cell f s; fs ← load_row fs ss; Ok (f :: fs)
  | _, _ => Ok fs
  end.
Fixpoint load_rows (fs : list fld) (rows : list (list string)) : res (list fld) :=
  match rows with
  | [] => Ok fs
  | ss :: rows => fs ← load_row fs ss; load_rows fs rows
  end.
End load.

(** ** Correctness of the automaton *)

Lemma is_chr_eq c : is_chr c c = true.
Proof. unfold is_chr. by rewrite bool_decide_true. Qed.
Lemma is_chr_ne c d : c <> d -> is_chr c d = false.
Proof. intros. unfold is_chr. by rewrite bool_decide_false. Qed.

Lemma c_str_chars s : Forall (fun c => c <> Dict.NUL) (String.list_ascii_of_string s) ->
  c_str (String.list_ascii_of_string s) = s.
Proof.
  induction s as [|c s IH]; [done|]. cbn. intros [Hc Hs]%Forall_cons. rewrite is_chr_ne by done. by rewrite IH.
Qed.

(** A cell in which [unit c] stands for the character [c]. *)
Definition unit_ok (unit : ascii -> list ascii) (c : ascii) : Prop :=
  unit c = [c] /\ c <> BSLASH \/ unit c = [BSLASH; c].

Lemma copy_cell_ok unit l : Forall (unit_ok unit) l -> forall pre post fuel, (length (l ≫= unit) <= fuel)%nat ->
  copy_cell fuel (pre ++ (l ≫= unit) ++ post) (zlen pre) (zlen (pre ++ (l ≫= unit))) = Ok l.
Proof.
  induction 1 as [|c l Hc Hl IH]; intros pre post fuel Hf.
  { cbn. rewrite app_nil_r. assert (forall i, copy_cell fuel (pre ++ post) i i = Ok []) as H; [|apply H].
    intros i. destruct fuel; cbn [copy_cell]; by rewrite Z.ltb_irrefl. }
  change ((c :: l) ≫= unit) with (unit c ++ (l ≫= unit)) in *. rewrite length_app in Hf.
  destruct Hc as [[E Hne]|E]; rewrite E in *; cbn [app length] in *.
  - destruct fuel as [|fuel]; [lia|]. cbn [copy_cell]. rewrite rd_middle. cbn [mbind res_bind].
    specialize (IH (pre ++ [c]) post fuel ltac:(lia)). rewrite <- !app_assoc, zlen_snoc in IH. cbn [app] in IH.
    rewrite is_chr_ne, IH by done. destruct (Z.ltb_spec (zlen pre) (zlen (pre ++ c :: (l ≫= unit)))); [done|].
    rewrite zlen_app, zlen_cons in *. pose proof (zlen_nonneg (l ≫= unit)). lia.
  - destruct fuel as [|fuel]; [lia|]. cbn [copy_cell]. rewrite rd_middle. cbn [mbind res_bind]. rewrite is_chr_eq.
    specialize (IH (pre ++ [BSLASH; c]) post fuel ltac:(lia)). rewrite <- !app_assoc in IH. cbn [app] in IH.
    replace (zlen (pre ++ [BSLASH; c])) with (zlen pre + 1 + 1) in IH by (rewrite zlen_app; unfold zlen at 3; cbn; lia).
    pose proof (zlen_nonneg (l ≫= unit)).
    assert (zlen (pre ++ BSLASH :: c :: (l ≫= unit)) = zlen pre + 2 + zlen (l ≫= unit)) as Hlen.
    { rewrite zlen_app, !zlen_cons. lia. }
    rewrite Hlen in *. destruct (Z.ltb_spec (zlen pre) (zlen pre + 2 + zlen (l ≫= unit))); [|lia].
    destruct (Z.eqb_spec (zlen pre) (zlen pre + 2 + zlen (l ≫= unit) - 1)); [lia|]. cbn [go_BYE_if mbind res_bind].
    assert (rd (pre ++ BSLASH :: c :: (l ≫= unit) ++ post) (zlen pre + 1) = Ok c) as ->.
    { rewrite app_cons_snoc. rewrite <- zlen_snoc with (x := BSLASH). apply rd_middle. }
    cbn [mbind res_bind]. by rewrite IH.
Qed.

Lemma units_length unit l : Forall (unit_ok unit) l -> (length l <= length (l ≫= unit))%nat.
Proof.
  induction 1 as [|c l Hc Hl IH]; [done|]. change ((c :: l) ≫= unit) with (unit c ++ (l ≫= unit)).
  rewrite length_app. destruct Hc as [[-> _]| ->]; cbn; lia.
Qed.

Lemma escaped_units l : Forall (unit_ok escaped) l.
Proof.
  apply Forall_forall. intros c _. unfold unit_ok, escaped. destruct (is_chr c BSLASH) eqn:Eb; [by right|].
  destruct (is_chr c DQUOTE); [by right|left]. split; [done|]. intros ->. discriminate.
Qed.

Section automaton.
Context (strtof strtod : string -> float * string) (X : list ascii) (fld_delim fld_sep rec_delim : ascii).
Context (ignore_hdr : bool).
Context (Hsr : fld_sep <> rec_delim) (Hsd : fld_sep <> fld_delim) (Hrd : rec_delim <> fld_delim).
Context (Hsq : fld_sep <> DQUOTE) (Hrq : rec_delim <> DQUOTE) (Hsb : fld_sep <> BSLASH) (Hrb : rec_delim <> BSLASH).

Abbreviation chars s := (String.list_ascii_of_string s).
Abbreviation stp := (csv_step strtof strtod X fld_delim fld_sep rec_delim ignore_hdr).
Abbreviation loop := (csv_loop strtof strtod X fld_delim fld_sep rec_delim ignore_hdr).

(** The values whose text fits in the buffer as it is at the start. *)
Definition short (s : string) : Prop := zlen (chars s ≫= escaped) < 8192.

Lemma print_cell_ok unit pre s post f : Forall (unit_ok unit) (chars s) -> Forall (fun c => c <> Dict.NUL) (chars s) ->
  X = pre ++ (chars s ≫= unit) ++ post -> zlen (chars s ≫= unit) < 8192 ->
  print_cell strtof strtod X (zlen pre) (zlen pre + zlen (chars s ≫= unit)) f 8192 =
    (f ← store strtof strtod f (bool_decide (s <> ""%string)) s; Ok (f, 8192)).
Proof.
  intros Hu Hn -> Hlen. unfold print_cell. pose proof (zlen_nonneg (chars s ≫= unit)) as Hz.
  pose proof (units_length unit _ Hu) as Hul.
  replace (zlen pre + zlen (chars s ≫= unit) - zlen pre) with (zlen (chars s ≫= unit)) by lia.
  destruct (Z.ltb_spec (zlen pre + zlen (chars s ≫= unit)) (zlen pre)); [lia|]. cbn [go_BYE_if mbind res_bind].
  destruct (Z.leb_spec 8192 (zlen (chars s ≫= unit))); [lia|].
  rewrite <- zlen_app, copy_cell_ok by (done || (unfold zlen; lia)). cbn [mbind res_bind].
  destruct (Z.ltb_spec 8192 (zlen (chars s) + 1)); [unfold zlen in *; lia|]. rewrite c_str_chars by done.
  assert ((zlen pre <? zlen (pre ++ (chars s ≫= unit))) = bool_decide (s <> ""%string)) as ->; [|done].
  rewrite zlen_app. destruct s as [|c s].
  - cbn. rewrite bool_decide_false by (intros Hd; by apply Hd). apply Z.ltb_ge. change (zlen []) with 0. lia.
  - rewrite bool_decide_true by done. apply Z.ltb_lt.
    assert (0 < length (chars (c :s s)))%nat by (cbn; lia). unfold zlen. lia.
Qed.

(** *** Steps *)

(** The loop from position [i] on, with enough fuel. *)
Definition run (i : Z) (st : csv_state) : res csv_state := loop (Z.to_nat (zlen X - i)) i st.

Lemma csv_loop_fuel fuel : forall fuel' i st,
  zlen X - i <= Z.of_nat fuel -> zlen X - i <= Z.of_nat fuel' -> loop fuel i st = loop fuel' i st.
Proof.
  assert (forall fuel i st, zlen X <= i -> loop fuel i st = Ok st) as Hend.
  { intros n i st Hi. destruct n; cbn; by destruct (Z.ltb_spec i (zlen X)); [lia|]. }
  induction fuel as [|fuel IH]; intros fuel' i st Hf Hf'; [by rewrite !Hend by lia|].
  destruct (Z.ltb_spec i (zlen X)) as [Hi|Hi]; [|by rewrite !Hend by lia].
  destruct fuel' as [|fuel']; [lia|]. cbn. rewrite (proj2 (Z.ltb_lt _ _) Hi).
  destruct (stp i st) as [[st' consumed]| | |]; cbn; [|done..]. destruct consumed; apply IH; lia.
Qed.

Lemma run_next i st st' consumed : 0 <= i < zlen X -> stp i st = Ok (st', consumed) ->
  run i st = run (if consumed then i + 1 + 1 else i + 1) st'.
Proof.
  intros Hi Hs. unfold run at 1. destruct (Z.to_nat (zlen X - i)) as [|n] eqn:En; [lia|]. cbn.
  rewrite (proj2 (Z.ltb_lt _ _)) by lia. rewrite Hs. cbn. apply csv_loop_fuel; destruct consumed; lia.
Qed.

Lemma run_fails i st (r : res csv_state) k : 0 <= i < zlen X -> stp i st = (st' ← r; Ok (st', k)) ->
  run i st = (st' ← r; run (if k : bool then i + 1 + 1 else i + 1) st').
Proof.
  intros Hi Hs. destruct r as [st'| | |]; [by apply (run_next i st st' k)|..];
    unfold run at 1; (destruct (Z.to_nat (zlen X - i)) as [|n] eqn:En; [lia|]); cbn;
    rewrite (proj2 (Z.ltb_lt _ _)) by lia; by rewrite Hs.
Qed.

(** The automaton between two cells, and in a cell ([q]: a quoted one). *)
Definition between (fs : list fld) (k rows cells lb : Z) : csv_state :=
  {| in_fld := false; is_fld_delim := false; in_escape_mode := false; lb := lb; fld_idx := k; num_rows := rows;
     num_cells := cells; flds := fs; g_buflen := 8192 |}.
Definition inside (q esc : bool) (fs : list fld) (k rows cells lb : Z) : csv_state :=
  {| in_fld := true; is_fld_delim := q; in_escape_mode := esc; lb := lb; fld_idx := k; num_rows := rows;
     num_cells := cells; flds := fs; g_buflen := 8192 |}.

Lemma escapes_other c : c <> BSLASH -> escapes fld_sep c false = Ok (false, false).
Proof.
  intros Hc. unfold escapes. destruct (is_chr fld_sep TAB); [done|]. cbn.
  rewrite (is_chr_ne c BSLASH) by done. by rewrite andb_false_r.
Qed.

Lemma terminates_plain c st : plain fld_delim fld_sep rec_delim c -> terminates fld_sep rec_delim c st = false.
Proof. intros (H1 & H2 & _). unfold terminates. rewrite (is_chr_ne c fld_sep), (is_chr_ne c rec_delim) by done. by rewrite !andb_false_r. Qed.

Lemma read_at pre (l : list ascii) c post : X = pre ++ l ++ c :: post -> rd X (zlen pre + zlen l) = Ok c /\
  0 <= zlen pre + zlen l < zlen X.
Proof.
  intros ->. rewrite app_assoc, <- zlen_app. split; [apply rd_middle|]. rewrite (zlen_app (pre ++ l)), zlen_cons.
  pose proof (zlen_nonneg (pre ++ l)). pose proof (zlen_nonneg post). lia.
Qed.

(** Inside a bare cell nothing happens. *)
Lemma run_plain l : Forall (plain fld_delim fld_sep rec_delim) l -> forall pre done post fs k rows cells lb,
  X = pre ++ done ++ l ++ post ->
  run (zlen pre + zlen done) (inside false false fs k rows cells lb) =
  run (zlen pre + zlen (done ++ l)) (inside false false fs k rows cells lb).
Proof.
  induction 1 as [|c l Hc Hl IH]; intros pre don post fs k rows cells lb HX; [by rewrite app_nil_r|].
  destruct (read_at pre don c (l ++ post) HX) as [Hr Hi].
  rewrite (run_next _ _ (inside false false fs k rows cells lb) false Hi).
  - cbn iota. specialize (IH pre (don ++ [c]) post fs k rows cells lb). rewrite <- app_assoc in IH. specialize (IH HX).
    rewrite <- app_assoc, zlen_snoc, Z.add_assoc in IH. exact IH.
  - unfold csv_step. rewrite Hr. cbn [mbind res_bind inside in_escape_mode]. rewrite escapes_other by apply Hc.
    cbn. unfold set_lex. cbn. by rewrite terminates_plain.
Qed.

(** A character of a quoted cell *)
Lemma step_quoted i c esc esc' escd fs k rows cells lb :
  rd X i = Ok c -> escapes fld_sep c esc = Ok (esc', escd) -> is_chr c fld_delim && negb escd = false ->
  stp i (inside true esc fs k rows cells lb) = Ok (inside true esc' fs k rows cells lb, false).
Proof.
  intros Hr He Hd. unfold csv_step. rewrite Hr. cbn [mbind res_bind inside in_escape_mode]. rewrite He. cbn.
  by rewrite Hd.
Qed.

(** Inside a quoted cell the escapes are passed. *)
Lemma run_escaped l : fld_sep <> TAB -> fld_delim = DQUOTE -> forall pre done post fs k rows cells lb,
  X = pre ++ done ++ (l ≫= escaped) ++ post ->
  run (zlen pre + zlen done) (inside true false fs k rows cells lb) =
  run (zlen pre + zlen (done ++ (l ≫= escaped))) (inside true false fs k rows cells lb).
Proof.
  intros Htab Hq. induction l as [|c l IH]; intros pre don post fs k rows cells lb HX; [by cbn; rewrite app_nil_r|].
  change ((c :: l) ≫= escaped) with (escaped c ++ (l ≫= escaped)) in HX |- *.
  specialize (IH pre (don ++ escaped c) post fs k rows cells lb). rewrite <- !app_assoc in IH.
  rewrite <- !app_assoc in HX. specialize (IH HX). rewrite <- IH. clear IH. unfold escaped in HX |- *.
  destruct (is_chr c BSLASH || is_chr c DQUOTE) eqn:Hesc; cbn [app] in HX.
  - destruct (read_at pre don BSLASH _ HX) as [Hr Hi]. rewrite app_cons_snoc in HX.
    destruct (read_at pre (don ++ [BSLASH]) c _ HX) as [Hr' Hi']. rewrite zlen_snoc, Z.add_assoc in Hr', Hi'.
    rewrite (run_next _ _ (inside true true fs k rows cells lb) false Hi).
    2: { apply (step_quoted _ BSLASH _ _ false); [done| |by rewrite Hq].
         unfold escapes. rewrite is_chr_ne by done. done. }
    rewrite (run_next _ _ (inside true false fs k rows cells lb) false Hi').
    + f_equal. rewrite zlen_app. change (zlen [BSLASH; c]) with 2. lia.
    + apply (step_quoted _ c _ _ (is_chr c DQUOTE)); [done| |rewrite Hq; by destruct (is_chr c DQUOTE)].
      unfold escapes. rewrite is_chr_ne by done. cbn [andb]. destruct (is_chr c BSLASH) eqn:Eb.
      * apply bool_decide_eq_true in Eb as ->. done.
      * cbn [orb] in Hesc. by rewrite Hesc.
  - apply orb_false_iff in Hesc as [Eb Eq]. destruct (read_at pre don c _ HX) as [Hr Hi].
    rewrite (run_next _ _ (inside true false fs k rows cells lb) false Hi).
    + f_equal. rewrite zlen_snoc. lia.
    + apply (step_quoted _ c _ _ false); [done| |by rewrite Hq, Eq].
      apply escapes_other. intros ->. discriminate.
Qed.

(** *** Cells *)

Definition skipped (rows : Z) : bool := ignore_hdr && (rows =? 0).

(** The field [f], among the fields before and after it, gets a cell. *)
Definition loaded (rows : Z) (before : list fld) (f : fld) (after : list fld) (s : string) : res (list fld) :=
  if skipped rows then Ok (before ++ f :: after)
  else f ← load_cell strtof strtod f s; Ok (before ++ f :: after).

Lemma end_cell_ok unit pre s post before f after rows st :
  Forall (unit_ok unit) (chars s) -> Forall (fun c => c <> Dict.NUL) (chars s) ->
  X = pre ++ (chars s ≫= unit) ++ post -> zlen (chars s ≫= unit) < 8192 ->
  flds st = before ++ f :: after -> fld_idx st = zlen before -> lb st = zlen pre -> g_buflen st = 8192 ->
  end_cell strtof strtod X ignore_hdr (zlen pre + zlen (chars s ≫= unit)) rows st =
    (l ← loaded rows before f after s; Ok (l, 8192)).
Proof.
  intros Hu Hn HX Hlen Hf Hk Hl Hb. unfold end_cell, loaded, load_cell, skipped. rewrite Hf, Hk, Hl, Hb, rd_middle.
  cbn [mbind res_bind]. destruct (is_load f); [|by destruct (ignore_hdr && (rows =? 0))].
  destruct (ignore_hdr && (rows =? 0)); [done|]. rewrite (print_cell_ok unit pre s post f) by done.
  destruct (store strtof strtod f _ s); [|done..]. cbn [mbind res_bind]. by rewrite wr_middle.
Qed.

(** The character that ends the cell [k] of [n]. *)
Definition terminator (k n : Z) : ascii := if k =? n - 1 then rec_delim else fld_sep.
Definition next (k n : Z) : Z := if k + 1 =? n then 0 else k + 1.
Definition row_end (k n : Z) : Z := if k =? n - 1 then 1 else 0.

Lemma terminates_ok st k n : n = zlen (flds st) -> fld_idx st = k -> k < n ->
  terminates fld_sep rec_delim (terminator k n) st = true /\
  last_fld st && is_chr (terminator k n) rec_delim = (k =? n - 1).
Proof.
  intros -> <- Hk. unfold terminates, last_fld, terminator. destruct (Z.eqb_spec (fld_idx st) (zlen (flds st) - 1)).
  - by rewrite is_chr_eq, orb_true_r.
  - rewrite is_chr_eq, (proj2 (Z.ltb_lt _ _)) by lia. done.
Qed.

Lemma terminator_delim k n : is_chr (terminator k n) fld_delim = false /\ escapes fld_sep (terminator k n) false = Ok (false, false).
Proof.
  unfold terminator. destruct (k =? n - 1); (split; [by apply is_chr_ne|by apply escapes_other]).
Qed.

(** The step that ends a bare cell. *)
Lemma end_bare_ok pre s post before f after rows cells lb0 :
  let n := zlen (before ++ f :: after) in
  let k := zlen before in
  Forall (plain fld_delim fld_sep rec_delim) (chars s) -> zlen (chars s) < 8192 ->
  X = pre ++ chars s ++ terminator k n :: post ->
  forall st, st = inside false false (before ++ f :: after) k rows cells (zlen pre) \/
    s = ""%string /\ st = between (before ++ f :: after) k rows cells lb0 ->
  stp (zlen pre + zlen (chars s)) st =
    (st' ← (l ← loaded rows before f after s; Ok (between l (next k n) (rows + row_end k n) (cells + 1) (zlen pre)));
     Ok (st', false)).
Proof.
  intros n k Hp Hlen HX st Hst. destruct (read_at pre (chars s) _ _ HX) as [Hr _].
  destruct (terminator_delim k n) as [Hd He].
  assert (k < n) as Hkn.
  { unfold k, n. rewrite zlen_app, zlen_cons. pose proof (zlen_nonneg after). lia. }
  set (st1 := inside false false (before ++ f :: after) k rows cells (zlen pre)).
  assert (stp (zlen pre + zlen (chars s)) st =
    (st' ← end_bare strtof strtod X rec_delim ignore_hdr (zlen pre + zlen (chars s)) (terminator k n) st1; Ok (st', false))) as ->.
  { unfold csv_step. rewrite Hr. cbn [mbind res_bind].
    destruct (terminates_ok st1 k n eq_refl eq_refl Hkn) as [Ht _].
    destruct Hst as [->|[-> ->]]; cbn [inside between in_escape_mode in_fld is_fld_delim]; rewrite He; cbn [mbind res_bind].
    - change (set_lex true false false _ _) with st1. by rewrite Ht.
    - rewrite Hd. cbn [chars]. change (zlen (@nil ascii)) with 0. rewrite Z.add_0_r.
      change (set_lex true false false _ _) with st1. by rewrite Ht. }
  unfold end_bare. assert (chars s = chars s ≫= (fun c => [c])) as Ec.
  { clear. induction (chars s) as [|c l IH]; [done|]. cbn. f_equal. exact IH. }
  rewrite Ec at 1. rewrite (end_cell_ok (fun c => [c]) pre s (terminator k n :: post) before f after); try done.
  - destruct (terminates_ok st1 k n eq_refl eq_refl Hkn) as [_ ->]. unfold row_end.
    change (num_rows st1) with rows. change (next_fld st1) with (next k n).
    destruct (loaded rows before f after s); [|done..]. cbn. unfold between. do 3 f_equal. case_match; lia.
  - eapply Forall_impl; [exact Hp|]. intros c (_ & _ & _ & Hb & _). by left.
  - eapply Forall_impl; [exact Hp|]. by intros c (_ & _ & _ & _ & ?).
  - by rewrite <- Ec.
  - by rewrite <- Ec.
Qed.

Lemma bind_assoc {A B C} (m : res A) (g : A -> res B) (h : B -> res C) :
  (b ← (a ← m; g a); h b) = (a ← m; b ← g a; h b).
Proof. by destruct m. Qed.

Section a_cell.
Context (before after : list fld) (f : fld) (pre post : list ascii) (s : string).
Context (rows cells lb0 : Z).
Let n := zlen (before ++ f :: after).
Let k := zlen before.

Lemma field_lt : k < n.
Proof. unfold k, n. rewrite zlen_app, zlen_cons. pose proof (zlen_nonneg after). lia. Qed.

Lemma run_bare : Forall (plain fld_delim fld_sep rec_delim) (chars s) -> zlen (chars s) < 8192 ->
  X = pre ++ chars s ++ terminator k n :: post ->
  run (zlen pre) (between (before ++ f :: after) k rows cells lb0) =
    (l ← loaded rows before f after s;
     run (zlen pre + zlen (chars s) + 1) (between l (next k n) (rows + row_end k n) (cells + 1) (zlen pre))).
Proof.
  intros Hp Hlen HX. destruct (read_at pre (chars s) _ _ HX) as [_ Hi].
  pose proof (end_bare_ok pre s post before f after rows cells lb0 Hp Hlen HX) as Hend.
  assert (forall st, st = inside false false (before ++ f :: after) k rows cells (zlen pre) \/
      s = ""%string /\ st = between (before ++ f :: after) k rows cells lb0 ->
    run (zlen pre + zlen (chars s)) st =
      (l ← loaded rows before f after s;
       run (zlen pre + zlen (chars s) + 1) (between l (next k n) (rows + row_end k n) (cells + 1) (zlen pre)))) as Hrun.
  { intros st Hst. rewrite (run_fails _ _ _ false Hi (Hend st Hst)). by rewrite bind_assoc. }
  destruct s as [|c s'] eqn:Es.
  - assert (zlen (chars "") = 0) as E0 by done. rewrite E0, !Z.add_0_r in Hrun |- *. apply Hrun. by right.
  - specialize (Hrun _ (or_introl eq_refl)). etransitivity; [|exact Hrun].
    cbn [String.list_ascii_of_string] in HX, Hp |- *. apply Forall_cons in Hp as [Hc Hp].
    destruct (read_at pre [] c _ HX) as [Hr Hi0]. change (zlen []) with 0 in Hr, Hi0. rewrite Z.add_0_r in Hr, Hi0.
    rewrite (run_next _ _ (inside false false (before ++ f :: after) k rows cells (zlen pre)) false Hi0).
    + pose proof (run_plain (chars s') Hp pre [c] (terminator k n :: post) (before ++ f :: after) k rows cells (zlen pre) HX) as Hpl.
      exact Hpl.
    + unfold csv_step. rewrite Hr. cbn [mbind res_bind between in_escape_mode in_fld].
      rewrite escapes_other by apply Hc. cbn [mbind res_bind]. rewrite is_chr_ne by apply Hc.
      by rewrite terminates_plain.
Qed.

Lemma run_quoted : fld_sep <> TAB -> fld_delim = DQUOTE -> Forall (fun c => c <> Dict.NUL) (chars s) -> short s ->
  X = pre ++ (DQUOTE :: (chars s ≫= escaped) ++ [DQUOTE]) ++ terminator k n :: post ->
  run (zlen pre) (between (before ++ f :: after) k rows cells lb0) =
    (l ← loaded (rows + row_end k n) before f after s;
     run (zlen pre + zlen (DQUOTE :: (chars s ≫= escaped) ++ [DQUOTE]) + 1)
       (between l (next k n) (rows + row_end k n) (cells + 1) (zlen pre + 1))).
Proof.
  intros Htab Hq Hnul Hshort HX. set (raw := chars s ≫= escaped) in *. pose proof field_lt as Hk.
  assert (X = pre ++ DQUOTE :: raw ++ DQUOTE :: terminator k n :: post) as HX0.
  { rewrite HX. cbn. by rewrite <- app_assoc. }
  assert (X = (pre ++ [DQUOTE]) ++ raw ++ DQUOTE :: terminator k n :: post) as HX1 by (by rewrite <- app_assoc).
  destruct (read_at pre [] _ _ HX0) as [Hr0 Hi0]. change (zlen []) with 0 in Hr0, Hi0. rewrite Z.add_0_r in Hr0, Hi0.
  rewrite (run_next _ _ (inside true false (before ++ f :: after) k rows cells (zlen pre + 1)) false Hi0).
  2: { unfold csv_step. rewrite Hr0. cbn [mbind res_bind between in_escape_mode in_fld].
       rewrite escapes_other by done. cbn [mbind res_bind]. by rewrite Hq. }
  cbn iota. pose proof (run_escaped (chars s) Htab Hq (pre ++ [DQUOTE]) [] _ (before ++ f :: after) k rows cells (zlen pre + 1) HX1) as Hesc.
  cbn [app] in Hesc. fold raw in Hesc. change (zlen []) with 0 in Hesc. rewrite Z.add_0_r, zlen_snoc in Hesc. rewrite Hesc.
  destruct (read_at (pre ++ [DQUOTE]) raw _ _ HX1) as [Hr1 Hi1]. rewrite zlen_snoc in Hr1, Hi1.
  assert (X = (pre ++ [DQUOTE]) ++ (raw ++ [DQUOTE]) ++ terminator k n :: post) as HX2 by (by rewrite <- (app_assoc raw)).
  destruct (read_at (pre ++ [DQUOTE]) (raw ++ [DQUOTE]) _ _ HX2) as [Hr2 _]. rewrite !zlen_snoc, Z.add_assoc in Hr2.
  set (st1 := inside true false (before ++ f :: after) k rows cells (zlen pre + 1)).
  rewrite (run_fails _ st1 (l ← loaded (rows + row_end k n) before f after s;
    Ok (between l (next k n) (rows + row_end k n) (cells + 1) (zlen pre + 1))) true Hi1).
  - rewrite bind_assoc, zlen_cons, zlen_snoc. destruct (loaded _ _ _ _ _); [|done..]. cbn. f_equal. lia.
  - unfold csv_step. rewrite Hr1. cbn [mbind res_bind st1 inside in_escape_mode in_fld is_fld_delim].
    rewrite escapes_other by done. cbn [mbind res_bind]. rewrite Hq, is_chr_eq. cbn [andb negb].
    change (set_lex true true false _ _) with st1. unfold end_quoted. rewrite Hr2.
    change (fld_idx st1) with k. change (zlen (flds st1)) with n. change (num_rows st1) with rows.
    assert ((if k <? n - 1 then c ← Ok (terminator k n); _ ← go_BYE_if (negb (is_chr c fld_sep)); Ok rows
      else c ← Ok (terminator k n); _ ← go_BYE_if (negb (is_chr c rec_delim)); Ok (rows + 1)) = Ok (rows + row_end k n)) as ->.
    { unfold terminator, row_end. destruct (Z.eqb_spec k (n - 1)).
      - rewrite (proj2 (Z.ltb_ge _ _)) by lia. cbn. by rewrite is_chr_eq.
      - rewrite (proj2 (Z.ltb_lt _ _)) by lia. cbn. rewrite is_chr_eq. cbn. f_equal. lia. }
    cbn [mbind res_bind].
    pose proof (end_cell_ok escaped (pre ++ [DQUOTE]) s (DQUOTE :: terminator k n :: post) before f after (rows + row_end k n) st1) as Hend.
    rewrite zlen_snoc in Hend. fold raw in Hend. rewrite Hend; try done.
    + change (next_fld st1) with (next k n). by destruct (loaded _ _ _ _ _).
    + apply escaped_units.
Qed.

(** A cell, however it is written. *)
Lemma run_cell r q : written_cell fld_delim fld_sep rec_delim s r q -> short s ->
  X = pre ++ r ++ terminator k n :: post ->
  run (zlen pre) (between (before ++ f :: after) k rows cells lb0) =
    (l ← loaded (if q then rows + row_end k n else rows) before f after s;
     run (zlen pre + zlen r + 1)
       (between l (next k n) (rows + row_end k n) (cells + 1) (if q then zlen pre + 1 else zlen pre))).
Proof.
  intros Hw Hs HX. destruct Hw as [Hp|Htab Hq Hn].
  - apply run_bare; [done| |done]. unfold short in Hs.
    pose proof (units_length escaped (chars s)) as Hu. unfold zlen in *.
    assert (length (chars s) <= length (chars s ≫= escaped))%nat; [|lia]. apply Hu, escaped_units.
  - by apply run_quoted.
Qed.

End a_cell.

(** *** Lines *)

Definition load_line (rows : Z) (fs : list fld) (ss : list string) : res (list fld) :=
  if skipped rows then Ok fs else load_row strtof strtod fs ss.

Lemma line_nonempty ss t q : line fld_delim fld_sep rec_delim ss t q -> ss <> [].
Proof. by destruct 1. Qed.

Lemma loaded_same (q : bool) rows e before f after s :
  0 <= rows -> 0 <= e -> (skipped rows = true -> q = true -> e = 0) ->
  loaded (if q then rows + e else rows) before f after s = loaded rows before f after s.
Proof.
  intros Hr He Hq. unfold loaded. assert (skipped (if q then rows + e else rows) = skipped rows) as ->; [|done].
  destruct q; [|done]. destruct (skipped rows) eqn:Es.
  - by rewrite (Hq eq_refl eq_refl), Z.add_0_r.
  - revert Es. unfold skipped. destruct ignore_hdr; [|done]. cbn. intros ?%Z.eqb_neq. apply Z.eqb_neq. lia.
Qed.

Lemma loaded_line rows before f rest s ss :
  load_line rows (f :: rest) (s :: ss) =
  (fs ← loaded rows before f rest s; match drop (length before) fs with
     | f :: rest => rest ← load_line rows rest ss; Ok (f :: rest)
     | [] => Ok []
     end).
Proof.
  unfold load_line, loaded. destruct (skipped rows); cbn.
  - by rewrite drop_app_length.
  - destruct (load_cell strtof strtod f s); cbn; [|done..]. by rewrite drop_app_length.
Qed.

Lemma run_line ss t q : line fld_delim fld_sep rec_delim ss t q -> Forall short ss -> forall pre post,
  X = pre ++ t ++ post -> exists lb1, forall before rest rows cells lb0,
  length rest = length ss -> 0 <= rows -> (skipped rows = true -> q = false) ->
  run (zlen pre) (between (before ++ rest) (zlen before) rows cells lb0) =
    (rest ← load_line rows rest ss;
     run (zlen (pre ++ t)) (between (before ++ rest) 0 (rows + 1) (cells + zlen ss) lb1)).
Proof.
  induction 1 as [s r q Hw|s r q ss t ql Hw Hline IH]; intros Hs pre post HX;
    apply Forall_cons in Hs as [Hshort Hs].
  - exists (if q then zlen pre + 1 else zlen pre). intros before rest rows cells lb0 Hlen Hrows Hq.
    destruct rest as [|f [|? ?]]; try done. rewrite <- app_assoc in HX. cbn [app] in HX.
    assert ((zlen before =? zlen (before ++ [f]) - 1) = true) as Hlast by (rewrite zlen_snoc; apply Z.eqb_eq; lia).
    pose proof (run_cell before [] f pre post s rows cells lb0 r q Hw Hshort) as Hrun. unfold terminator, row_end, next in Hrun.
    rewrite Hlast in Hrun. rewrite (Hrun HX), loaded_same by (lia || (intros H1 H2; rewrite (Hq H1) in H2; discriminate)).
    unfold load_line, loaded. rewrite !zlen_app, zlen_cons, (Z.eqb_sym (zlen before + 1)).
    change (zlen (@nil fld)) with 0. rewrite Z.add_0_r, Z.eqb_refl. change (zlen [rec_delim]) with 1. change (zlen [s]) with 1.
    rewrite !Z.add_assoc.
    destruct (skipped rows); cbn; [done|]. by destruct (load_cell strtof strtod f s).
  - assert (X = (pre ++ r ++ [fld_sep]) ++ t ++ post) as HX' by (rewrite HX, <- !app_assoc; done).
    destruct (IH Hs _ _ HX') as (lb1 & Hrest). exists lb1. intros before rest rows cells lb0 Hlen Hrows Hq.
    pose proof (line_nonempty _ _ _ Hline) as Hss. destruct rest as [|f rest]; [done|]. cbn in Hlen. injection Hlen as Hlen.
    assert (0 < zlen rest) as Hrl by (unfold zlen; rewrite Hlen; destruct ss; [done|cbn; lia]).
    assert ((zlen before =? zlen (before ++ f :: rest) - 1) = false) as Hlast by (rewrite zlen_app, zlen_cons; apply Z.eqb_neq; lia).
    pose proof (run_cell before rest f pre (t ++ post) s rows cells lb0 r q Hw Hshort) as Hrun. unfold terminator, row_end, next in Hrun.
    rewrite Hlast in Hrun. rewrite Hrun by (rewrite HX, <- app_assoc; done). clear Hrun.
    rewrite loaded_same, (loaded_line rows before f rest s ss) by (done || lia). rewrite bind_assoc.
    assert ((zlen before + 1 =? zlen (before ++ f :: rest)) = false) as -> by (rewrite zlen_app, zlen_cons; apply Z.eqb_neq; lia).
    assert (forall f', run (zlen pre + zlen r + 1) (between (before ++ f' :: rest) (zlen before + 1) (rows + 0) (cells + 1) (if q then zlen pre + 1 else zlen pre)) =
      (rest ← load_line rows rest ss; run (zlen (pre ++ r ++ fld_sep :: t)) (between (before ++ f' :: rest) 0 (rows + 1) (cells + zlen (s :: ss)) lb1))) as Hgo.
    { intros f'. specialize (Hrest (before ++ [f']) rest rows (cells + 1) (if q then zlen pre + 1 else zlen pre) Hlen Hrows Hq).
      rewrite zlen_snoc in Hrest. assert (zlen (pre ++ r ++ [fld_sep]) = zlen pre + zlen r + 1) as E1 by (rewrite !zlen_app; unfold zlen at 3; cbn; lia).
      rewrite E1, <- app_assoc in Hrest. cbn [app] in Hrest. rewrite Z.add_0_r, Hrest, zlen_cons, Z.add_assoc.
      destruct (load_line rows rest ss); [|done..]. cbn. by rewrite <- !app_assoc. }
    unfold loaded. destruct (skipped rows); cbn [mbind res_bind].
    + rewrite drop_app_length, Hgo. by destruct (load_line rows rest ss).
    + destruct (load_cell strtof strtod f s); cbn [mbind res_bind]; [|done..].
      rewrite drop_app_length, Hgo. by destruct (load_line rows rest ss).
Qed.

Lemma load_row_length fs : forall ss fs', load_row strtof strtod fs ss = Ok fs' -> length fs' = length fs.
Proof.
  induction fs as [|f fs IH]; intros ss fs' Hl; [by destruct ss; injection Hl as <-|].
  destruct ss as [|s ss]; [by injection Hl as <-|]. cbn in Hl. res_inv. cbn. f_equal. eauto.
Qed.

(** No line is skipped after the first. *)
Lemma run_lines rl text : lines fld_delim fld_sep rec_delim rl text -> Forall (Forall short) rl -> forall pre post lb0,
  X = pre ++ text ++ post -> exists lb1, forall fs rows cells,
  Forall (fun ss => length ss = length fs) rl -> 0 <= rows -> (ignore_hdr = true -> 0 < rows) ->
  run (zlen pre) (between fs 0 rows cells lb0) =
    (fs' ← load_rows strtof strtod fs rl;
     run (zlen (pre ++ text)) (between fs' 0 (rows + zlen rl) (cells + zlen fs * zlen rl) lb1)).
Proof.
  induction 1 as [|ss t q rl text Hl Hls IH]; intros Hs pre post lb0 HX.
  - exists lb0. intros fs rows cells _ _ _. cbn. by rewrite Z.mul_0_r, !Z.add_0_r, app_nil_r.
  - apply Forall_cons in Hs as [Hss Hs]. rewrite <- app_assoc in HX.
    destruct (run_line ss t q Hl Hss pre _ HX) as (lb1 & Hline).
    assert (X = (pre ++ t) ++ text ++ post) as HX' by (by rewrite HX, <- app_assoc).
    destruct (IH Hs (pre ++ t) post lb1 HX') as (lb2 & Hrest). exists lb2.
    intros fs rows cells Hlen Hrows Hhdr. apply Forall_cons in Hlen as [Hn Hlen].
    assert (skipped rows = false) as Hskip.
    { unfold skipped. destruct ignore_hdr; [|done]. cbn. apply Z.eqb_neq. specialize (Hhdr eq_refl). lia. }
    pose proof (Hline [] fs rows cells lb0 ltac:(done) Hrows ltac:(by rewrite Hskip)) as Hr.
    cbn [app] in Hr. change (zlen (@nil fld)) with 0 in Hr. rewrite Hr. unfold load_line. rewrite Hskip. cbn [load_rows].
    destruct (load_row strtof strtod fs ss) as [fs'| | |] eqn:E; cbn [mbind res_bind]; [|done..].
    pose proof (load_row_length _ _ _ E) as Hl'. rewrite Hrest.
    + assert (zlen fs' = zlen fs) as -> by (unfold zlen; by rewrite Hl').
      assert (zlen ss = zlen fs) as -> by (unfold zlen; by rewrite Hn).
      rewrite <- (app_assoc pre), zlen_cons, Z.mul_add_distr_l, Z.mul_1_r, !Z.add_assoc. done.
    + by rewrite Hl'.
    + lia.
    + lia.
Qed.

(** *** The whole file *)

(** The bytes of a file with the given header and rows. *)
Definition csv_file (hdr : option (list string)) (rl : list (list string)) : Prop :=
  match hdr with
  | None => ignore_hdr = false /\ lines fld_delim fld_sep rec_delim rl X
  | Some ss => ignore_hdr = true /\ exists t text, X = t ++ text /\
      line fld_delim fld_sep rec_delim ss t false /\ lines fld_delim fld_sep rec_delim rl text
  end.

Definition all_rows (hdr : option (list string)) (rl : list (list string)) : list (list string) :=
  option_list hdr ++ rl.

Lemma read_csv_ok hdr rl l : csv_file hdr rl -> l <> [] ->
  Forall (fun ss => length ss = length l /\ Forall short ss) (all_rows hdr rl) ->
  read_csv strtof strtod X fld_delim fld_sep rec_delim ignore_hdr l =
    (l' ← load_rows strtof strtod l rl; Ok (zlen rl, l')).
Proof.
  intros Hfile Hne Hrows. unfold read_csv.
  assert (0 < zlen l) as Hl by (destruct l; [done|]; rewrite zlen_cons; pose proof (zlen_nonneg l); lia).
  rewrite (proj2 (Z.leb_gt _ _)) by lia. cbn [go_BYE_if mbind res_bind].
  assert (loop (length X) 0 (csv_start l) = run (zlen (@nil ascii)) (between l 0 0 0 0)) as -> by (apply csv_loop_fuel; unfold zlen; cbn; lia).
  assert (forall st, run (zlen X) st = Ok st) as Hend.
  { intros st. unfold run. rewrite Z.sub_diag. change (Z.to_nat 0) with 0%nat. cbn [csv_loop]. by rewrite Z.ltb_irrefl. }
  unfold csv_file, all_rows in *. destruct hdr as [ss|]; cbn [option_list app] in Hrows.
  - destruct Hfile as (Hhdr & t & text & HX & Hline & Hlines). apply Forall_cons in Hrows as [[Hss Hshort] Hrows].
    apply Forall_and in Hrows as [Hlen Hs].
    destruct (run_line ss t false Hline Hshort [] text HX) as (lb1 & Hr1).
    assert (X = t ++ text ++ []) as HX' by (by rewrite app_nil_r).
    destruct (run_lines rl text Hlines Hs t [] lb1 HX') as (lb2 & Hr2).
    pose proof (Hr1 [] l 0 0 0 ltac:(done) ltac:(done) ltac:(done)) as Hr. cbn [app] in Hr.
    change (zlen (@nil fld)) with 0 in Hr. rewrite Hr. unfold load_line.
    assert (skipped 0 = true) as -> by (unfold skipped; by rewrite Hhdr). cbn [mbind res_bind].
    rewrite Hr2, <- HX by (done || lia). destruct (load_rows strtof strtod l rl) as [l'| | |]; cbn [mbind res_bind]; [|done..].
    rewrite Hend. cbn [mbind res_bind between num_cells num_rows flds].
    assert (zlen ss = zlen l) as -> by (unfold zlen; by rewrite Hss).
    rewrite (proj2 (Z.eqb_eq _ _)) by lia. cbn. rewrite Hhdr. do 2 f_equal. lia.
  - destruct Hfile as (Hhdr & Hlines). apply Forall_and in Hrows as [Hlen Hs].
    assert (X = [] ++ X ++ []) as HX' by (by rewrite app_nil_r).
    destruct (run_lines rl X Hlines Hs [] [] 0 HX') as (lb2 & Hr2).
    rewrite Hr2 by (done || lia || congruence). cbn [app].
    destruct (load_rows strtof strtod l rl) as [l'| | |]; cbn [mbind res_bind]; [|done..].
    rewrite Hend. cbn [mbind res_bind between num_cells num_rows flds].
    rewrite (proj2 (Z.eqb_eq _ _)) by lia. cbn. by rewrite Hhdr.
Qed.

End automaton.

(** The delimiters that [dld] passes *)
Definition delims_ok (fld_delim fld_sep : ascii) : Prop :=
  fld_sep <> NEWLINE /\ fld_sep <> fld_delim /\ NEWLINE <> fld_delim /\ fld_sep <> DQUOTE /\ fld_sep <> BSLASH.
Lemma comma_ok : delims_ok DQUOTE COMMA.
Proof. done. Qed.
Lemma tab_ok : delims_ok Dict.NUL TAB.
Proof. done. Qed.

(** Claim C9. A file of lines of cells, plain or quoted with escapes, each
    shorter than the buffer: [read_csv] splits it exactly into these cells and
    gives them to the fields row by row, or fails as the first cell does that
    no field takes.  A header is left out, provided that its last cell is not
    quoted. *)
Theorem read_csv_correct strtof strtod (X : list ascii) (fld_delim fld_sep : ascii) (ignore_hdr : bool)
    (hdr : option (list string)) (rows : list (list string)) (l : list fld) :
  delims_ok fld_delim fld_sep -> csv_file X fld_delim fld_sep NEWLINE ignore_hdr hdr rows -> l <> [] ->
  Forall (fun ss => length ss = length l /\ Forall short ss) (all_rows hdr rows) ->
  read_csv strtof strtod X fld_delim fld_sep NEWLINE ignore_hdr l =
    (l' ← load_rows strtof strtod l rows; Ok (zlen rows, l')).
Proof. intros (? & ? & ? & ? & ?) Hf Hl Hr. by apply read_csv_ok with (hdr := hdr). Qed.

(** ** Tables of integers *)

(** The text of an integer or of a null *)
Definition show (v : option Z) : string := match v with Some n => sprintf_d n | None => ""%string end.
Definition is_int (t : FLD_TYPE) : bool := match t with I1 | I2 | I4 | I8 => true | _ => false end.

Definition texts (tbl : list (list (option Z))) : list (list string) := (fun vs : list (option Z) => show <$> vs) <$> tbl.

(** [v] can be a value of the field. *)
Definition takes (f : fld) (v : option Z) : Prop :=
  is_load f = true /\ is_string f = false /\ is_int (fldtype f) = true /\
  match v with
  | Some n => (int_limits (fldtype f)).1 <= n <= (int_limits (fldtype f)).2
  | None => is_all_def f = false
  end.

(** The field with one more value *)
Definition add_value (f : fld) (v : option Z) : fld :=
  {| fldtype := fldtype f; is_load := is_load f; is_all_def := is_all_def f; is_string := is_string f;
     is_any_null := is_any_null f || bool_decide (v = None); is_null_if_missing := is_null_if_missing f;
     old_dict := old_dict f; ht := ht f; sz_ht := sz_ht f; fp := fp f ++ [Int (default 0 v)];
     nn_fp := if is_all_def f then nn_fp f else nn_fp f ++ [if v is Some _ then 1 else 0] |}.

Lemma udec_nonempty fuel n acc : (0 < fuel)%nat -> udec fuel n acc <> ""%string.
Proof. intros Hf. destruct (udec_head fuel n acc Hf) as (c & s & -> & _). done. Qed.

Lemma sprintf_d_nonempty n : sprintf_d n <> ""%string.
Proof. unfold sprintf_d. destruct (n <? 0); [done|]. apply udec_nonempty. lia. Qed.

Lemma sprintf_d_not_null n : sprintf_d n <> "null"%string.
Proof.
  unfold sprintf_d. destruct (n <? 0); [done|]. destruct (udec_head 20 n "" ltac:(lia)) as (c & s & -> & Hc).
  intros [= -> _]. discriminate.
Qed.

Lemma int_limits_range t n : (int_limits t).1 <= n <= (int_limits t).2 -> LLONG_MIN <= n <= LLONG_MAX.
Proof. unfold LLONG_MIN, LLONG_MAX. destruct t; cbn; unfold SCHAR_MIN, SCHAR_MAX, SHRT_MIN, SHRT_MAX, INT_MIN, INT_MAX, LLONG_MIN, LLONG_MAX; lia. Qed.

Lemma udec_length fuel : forall n acc, (String.length (udec fuel n acc) <= fuel + String.length acc)%nat.
Proof.
  induction fuel as [|fuel IH]; intros n acc; [done|]. cbn [udec]. case_match; cbn; [lia|].
  etransitivity; [apply IH|]. cbn. lia.
Qed.

Lemma escaped_length l : (length (l ≫= escaped) <= 2 * length l)%nat.
Proof.
  induction l as [|c l IH]; [done|]. change ((c :: l) ≫= escaped) with (escaped c ++ (l ≫= escaped)).
  rewrite length_app. unfold escaped at 1. case_match; cbn; lia.
Qed.

Lemma show_short v : short (show v).
Proof.
  assert (String.length (show v) <= 21)%nat as Hl.
  { destruct v as [n|]; [|cbn; lia]. unfold show, sprintf_d.
    destruct (n <? 0); [pose proof (udec_length 20 (- n) "")|pose proof (udec_length 20 n "")]; cbn in *; lia. }
  unfold short, zlen. pose proof (escaped_length (String.list_ascii_of_string (show v))) as He.
  assert (length (String.list_ascii_of_string (show v)) = String.length (show v)) as E.
  { clear. induction (show v); cbn; congruence. }
  lia.
Qed.

Section ints.
Context (strtof strtod : string -> float * string).

Lemma store_value f v : takes f v -> load_cell strtof strtod f (show v) = Ok (add_value f v).
Proof.
  intros (Hload & Hstr & Hint & Hv). unfold load_cell, store, add_value. rewrite Hload, Hstr.
  assert ((match fldtype f with
           | I1 | I2 | I4 | I8 => store_int f (bool_decide (show v <> ""%string)) (show v)
           | F4 => store_float strtof (bool_decide (show v <> ""%string)) (show v)
           | F8 => store_float strtod (bool_decide (show v <> ""%string)) (show v)
           | _ => Err
           end) = Ok {| s_cell := Int (default 0 v); s_nn := bool_decide (is_Some v); s_null := bool_decide (v = None) |}) as ->.
  2: { destruct v as [n|]; cbn [show].
       - rewrite bool_decide_true by apply sprintf_d_nonempty. cbn. by rewrite !orb_false_r.
       - rewrite bool_decide_false by (intros Hn; by apply Hn). rewrite Hv. cbn. by rewrite !orb_true_r. }
  transitivity (store_int f (bool_decide (show v <> ""%string)) (show v)); [by destruct (fldtype f)|].
  unfold store_int. destruct v as [n|]; cbn [show].
  - rewrite bool_decide_true by apply sprintf_d_nonempty. unfold strcmp_eq at 1.
    rewrite bool_decide_false by apply sprintf_d_not_null. pose proof (int_limits_range _ _ Hv) as Hr.
    rewrite strtoll_sprintf by (unfold LLONG_MIN, LLONG_MAX in Hr; lia). cbn [mbind res_bind go_BYE_if negb].
    rewrite Z.min_r, Z.max_r by lia. change (negb (strcmp_eq "" "")) with false. cbn [go_BYE_if mbind res_bind].
    destruct (int_limits (fldtype f)) as [lo hi]. cbn in Hv.
    rewrite (proj2 (Z.ltb_ge _ _)), (proj2 (Z.ltb_ge _ _)) by lia. done.
  - destruct (fldtype f); try done.
Qed.

Lemma takes_add f v w : takes f w -> takes (add_value f v) w.
Proof. done. Qed.

Lemma load_row_values fs vs : Forall2 takes fs vs ->
  load_row strtof strtod fs (show <$> vs) = Ok (zip_with add_value fs vs).
Proof.
  induction 1 as [|f v fs vs Hv Hfs IH]; [done|]. cbn. rewrite store_value by done. cbn. by rewrite IH.
Qed.

Lemma load_rows_values tbl : forall fs, Forall (Forall2 takes fs) tbl ->
  load_rows strtof strtod fs (texts tbl) = Ok (foldl (zip_with add_value) fs tbl).
Proof.
  induction tbl as [|vs tbl IH]; intros fs Ht; [done|]. apply Forall_cons in Ht as [Hv Ht].
  cbn [texts load_rows fmap list_fmap foldl]. rewrite load_row_values by done. cbn [mbind res_bind]. apply IH.
  eapply Forall_impl; [exact Ht|]. intros ws Hw. clear -Hv Hw. revert ws Hw.
  induction Hv as [|f v fs vs Hv Hfs IH]; intros ws Hw; inversion Hw; subst; constructor; auto.
Qed.

(** The values of the field [j] *)
Definition int_column (j : nat) (tbl : list (list (option Z))) : list (option Z) := omap (fun vs => vs !! j) tbl.

Lemma fields_lookup tbl j : forall fs f, Forall (Forall2 takes fs) tbl -> fs !! j = Some f ->
  foldl (zip_with add_value) fs tbl !! j = Some (foldl add_value f (int_column j tbl)).
Proof.
  induction tbl as [|vs tbl IH]; intros fs f Ht Hf; [done|]. apply Forall_cons in Ht as [Hv Ht].
  destruct (Forall2_lookup_l _ _ _ _ _ Hv Hf) as (v & Hvj & _). unfold int_column. cbn [foldl omap list_omap].
  rewrite Hvj. cbn [foldl]. apply IH.
  - eapply Forall_impl; [exact Ht|]. intros ws Hw. clear -Hv Hw. revert ws Hw.
    induction Hv as [|f v fs vs Hv Hfs IH]; intros ws Hw; inversion Hw; subst; constructor; auto.
  - rewrite lookup_zip_with, Hf. cbn. by rewrite Hvj.
Qed.

Definition flag (v : option Z) : Z := if v is Some _ then 1 else 0.

Lemma foldl_add vs : forall f,
  fp (foldl add_value f vs) = fp f ++ ((fun v => Int (default 0 v)) <$> vs) /\
  nn_fp (foldl add_value f vs) = (if is_all_def f then nn_fp f else nn_fp f ++ (flag <$> vs)) /\
  is_any_null (foldl add_value f vs) = is_any_null f || bool_decide (None ∈ vs).
Proof.
  induction vs as [|v vs IH]; intros f.
  - cbn. rewrite !app_nil_r, bool_decide_false, orb_false_r by by intros ?%elem_of_nil. by destruct (is_all_def f).
  - cbn [foldl]. destruct (IH (add_value f v)) as (-> & -> & ->). cbn. split_and!.
    + by rewrite <- app_assoc.
    + destruct (is_all_def f); [done|]. by rewrite <- app_assoc.
    + rewrite <- orb_assoc. f_equal. rewrite <- bool_decide_or. apply bool_decide_ext.
      rewrite elem_of_cons. split; (intros [?|?]; [left; congruence|by right]).
Qed.

End ints.

(** Claim C10. A table of integers and nulls written as text, each cell plain
    or quoted, is read back: every field gets its column, 0 for a null, with
    the flags of the nulls, unless all its values are defined, and
    [is_any_null] says if there was one. *)
Theorem csv_ints_roundtrip strtof strtod (X : list ascii) (fld_delim fld_sep : ascii) (ignore_hdr : bool)
    (hdr : option (list string)) (tbl : list (list (option Z))) (l : list fld) :
  delims_ok fld_delim fld_sep ->
  csv_file X fld_delim fld_sep NEWLINE ignore_hdr hdr (texts tbl) -> l <> [] ->
  Forall (fun ss => length ss = length l /\ Forall short ss) (option_list hdr) ->
  Forall (Forall2 takes l) tbl ->
  exists l', read_csv strtof strtod X fld_delim fld_sep NEWLINE ignore_hdr l = Ok (zlen tbl, l') /\
    forall j f, l !! j = Some f -> exists f', l' !! j = Some f' /\
      fp f' = fp f ++ ((fun v => Int (default 0 v)) <$> int_column j tbl) /\
      nn_fp f' = (if is_all_def f then nn_fp f else nn_fp f ++ (flag <$> int_column j tbl)) /\
      is_any_null f' = is_any_null f || bool_decide (None ∈ int_column j tbl).
Proof.
  intros (? & ? & ? & ? & ?) Hf Hl Hh Ht. eexists. split.
  - rewrite (read_csv_ok strtof strtod X fld_delim fld_sep NEWLINE ignore_hdr) with (hdr := hdr) (rl := texts tbl); try done.
    + rewrite load_rows_values by done. cbn. unfold texts. by rewrite zlen_fmap.
    + apply Forall_app. split; [done|]. apply Forall_fmap. eapply Forall_impl; [exact Ht|]. intros vs Hvs. cbn. split.
      * rewrite length_fmap. symmetry. by eapply Forall2_length.
      * apply Forall_fmap, Forall_forall. intros v _. apply show_short.
  - intros j f Hj. exists (foldl add_value f (int_column j tbl)). split; [by apply fields_lookup|]. apply foldl_add.
Qed.

(** *** The theorems at concrete files *)

#[export] Instance plain_dec d sep rec c : Decision (plain d sep rec c).
Proof. unfold plain. apply _. Defined.

Lemma bare_cell s : bool_decide (Forall (plain DQUOTE COMMA NEWLINE) (String.list_ascii_of_string s)) = true ->
  written_cell DQUOTE COMMA NEWLINE s (String.list_ascii_of_string s) false.
Proof. intros H. apply written_bare. by apply bool_decide_eq_true in H. Qed.

Lemma quoted_cell s : bool_decide (Forall (fun c => c <> Dict.NUL) (String.list_ascii_of_string s)) = true ->
  written_cell DQUOTE COMMA NEWLINE s (DQUOTE :: (String.list_ascii_of_string s ≫= escaped) ++ [DQUOTE]) true.
Proof. intros H. apply written_quoted; [done..|]. by apply bool_decide_eq_true in H. Qed.

Lemma read_csv_correct_witness :
  read_csv no_float no_float (csv_text "id,name|12,'a,\'b'|") DQUOTE COMMA NEWLINE true
      [int_fld I4 [] [] false; int_fld I4 [] [] false] =
    (l' ← load_rows no_float no_float [int_fld I4 [] [] false; int_fld I4 [] [] false]
            [["12"%string; "a,"%string +:+ String.String DQUOTE "b"]];
     Ok (1, l')).
Proof.
  apply (read_csv_correct no_float no_float _ DQUOTE COMMA true (Some ["id"; "name"]%string)).
  - exact comma_ok.
  - split; [done|]. eexists _, _. split; [|split].
    2: { eapply line_cons; [by apply bare_cell|]. eapply line_last. by apply bare_cell. }
    2: { eapply lines_cons; [|apply lines_nil]. eapply line_cons; [by apply bare_cell|].
         eapply line_last. by apply quoted_cell. }
    vm_compute. reflexivity.
  - discriminate.
  - repeat constructor.
Defined.

Lemma csv_ints_roundtrip_witness :
  exists l', read_csv no_float no_float (csv_text "12,|'-3',7|") DQUOTE COMMA NEWLINE false
      [int_fld I4 [] [] false; int_fld I1 [] [] false] = Ok (zlen [[Some 12; None]; [Some (-3); Some 7]], l') /\
    forall j f, [int_fld I4 [] [] false; int_fld I1 [] [] false] !! j = Some f -> exists f', l' !! j = Some f' /\
      fp f' = fp f ++ ((fun v => Int (default 0 v)) <$> int_column j [[Some 12; None]; [Some (-3); Some 7]]) /\
      nn_fp f' = (if is_all_def f then nn_fp f else nn_fp f ++ (flag <$> int_column j [[Some 12; None]; [Some (-3); Some 7]])) /\
      is_any_null f' = is_any_null f || bool_decide (None ∈ int_column j [[Some 12; None]; [Some (-3); Some 7]]).
Proof.
  apply (csv_ints_roundtrip no_float no_float (csv_text "12,|'-3',7|") DQUOTE COMMA false None).
  - exact comma_ok.
  - split; [done|].
    assert (csv_text "12,|'-3',7|" = (String.list_ascii_of_string "12" ++ COMMA :: (String.list_ascii_of_string "" ++ [NEWLINE])) ++
      (((DQUOTE :: (String.list_ascii_of_string "-3" ≫= escaped) ++ [DQUOTE]) ++ COMMA :: (String.list_ascii_of_string "7" ++ [NEWLINE])) ++ [])) as ->
      by (vm_compute; reflexivity).
    eapply (lines_cons _ _ _ ["12"; ""]%string).
    + eapply line_cons; [by apply bare_cell|]. eapply line_last. by apply bare_cell.
    + eapply (lines_cons _ _ _ ["-3"; "7"]%string); [|apply lines_nil].
      eapply line_cons; [by apply quoted_cell|]. eapply line_last. by apply bare_cell.
  - discriminate.
  - constructor.
  - repeat constructor; done.
Defined.

End Csv.
