(* ===== verification/Double.v ===== *)
(** * Numbers in double precision.

    The sampling algorithms compute the sizes of their buffers in [double].
    The doubles that occur there are not negative, and neither so large nor so
    small that they overflow or lose bits; such a number is [mant * 2 ^ expo]
    with a mantissa of 53 bits, and every operation rounds the exact result to
    the nearest one, ties to the even mantissa.

    Statements about a double use its value as a fraction of integers,
    [dnum / dden], and are cross-multiplied. *)

From stdpp Require Import prelude.
From Stdlib Require Import ZArith Lia SpecFloat.
From S2P Require Import Prelude.

Module Double.

Record double := Dbl { mant : Z; expo : Z }.

Definition dnum (x : double) : Z := mant x * 2 ^ Z.max 0 (expo x).
Definition dden (x : double) : Z := 2 ^ Z.max 0 (- expo x).

(** The integer nearest to [n / d], ties to even. *)
Definition nearest (n d : Z) : Z :=
  let q := n / d in
  let r := n mod d in
  if 2 * r <? d then q
  else if d <? 2 * r then q + 1
  else if Z.even q then q else q + 1.

(** [n / d / 2 ^ e] as a fraction *)
Definition scale (n d e : Z) : Z * Z := (n * 2 ^ Z.max 0 (- e), d * 2 ^ Z.max 0 e).

(** The double nearest to [n / d]: the exponent puts the quotient between
    [2 ^ 52] and [2 ^ 53]. *)
Definition round_ratio (n d : Z) : double :=
  let e0 := Z.log2 n - Z.log2 d - 53 in
  let '(a, b) := scale n d e0 in
  let e := if 2 ^ 53 <=? a / b then e0 + 1 else e0 in
  let '(a, b) := scale n d e in
  Dbl (nearest a b) e.

(** Conversion from [long long] and from [int], and the operations. *)
Definition of_Z (z : Z) : double := round_ratio z 1.
Definition ddiv (x y : double) : double := round_ratio (dnum x * dden y) (dden x * dnum y).
Definition dmul (x y : double) : double := round_ratio (dnum x * dnum y) (dden x * dden y).
Definition dadd (x y : double) : double :=
  round_ratio (dnum x * dden y + dnum y * dden x) (dden x * dden y).

(** [pow(2, n)] *)
Definition pow2 (n : Z) : double := Dbl 1 n.

(** [sqrt], and a decimal constant [n / d]. *)
Definition dsqrt (x : double) : double :=
  let s := 52 - (Z.log2 (dnum x) - Z.log2 (dden x)) / 2 in
  let a := dnum x * 2 ^ Z.max 0 (2 * s) in
  let b := dden x * 2 ^ Z.max 0 (- 2 * s) in
  let r := Z.sqrt (a / b) in
  Dbl (if (2 * r + 1) ^ 2 * b <? 4 * a then r + 1 else r) (- s).
Definition decimal (n d : Z) : double := round_ratio n d.

(** [x < y], [(long long)x] and [(long long)ceil(x)] *)
Definition dlt (x y : double) : bool := dnum x * dden y <? dnum y * dden x.
Definition trunc (x : double) : Z := dnum x / dden x.
Definition ceil (x : double) : Z := (dnum x + dden x - 1) / dden x.

(** The operations agree with the standard library's model of IEEE 754
    binary64 on examples that round down, up and to even. *)
Definition SF_of (x : double) : spec_float :=
  binary_normalize 53 1024 (mant x) (expo x) false.

Example ddiv_ieee :
  forallb (fun '(a, b) => SFeqb (SF_of (ddiv (of_Z a) (of_Z b)))
             (SFdiv 53 1024 (binary_normalize 53 1024 a 0 false) (binary_normalize 53 1024 b 0 false)))
    [(1, 3); (2, 3); (1, 10); (7, 1); (100, 1234567); (2 ^ 53 + 1, 1); (2 ^ 53 + 3, 1);
     (3, 2 ^ 60 - 1); (2 ^ 62 + 12345, 17)] = true.
Proof. vm_compute. reflexivity. Qed.

Example dmul_ieee :
  forallb (fun '(a, b) => SFeqb (SF_of (dmul (of_Z a) (of_Z b)))
             (SFmul 53 1024 (binary_normalize 53 1024 a 0 false) (binary_normalize 53 1024 b 0 false)))
    [(3, 5); (2 ^ 53 - 1, 2 ^ 53 - 1); (2 ^ 40 + 1, 2 ^ 30 + 7); (123456789, 987654321)] = true.
Proof. vm_compute. reflexivity. Qed.

Example dsqrt_ieee :
  forallb (fun a => SFeqb (SF_of (dsqrt (of_Z a))) (SFsqrt 53 1024 (binary_normalize 53 1024 a 0 false)))
    [2; 3; 4; 10; 128; 256; 65536; 123456789; 2 ^ 53 - 1; 2 ^ 61 + 2 ^ 20] = true.
Proof. vm_compute. reflexivity. Qed.

(** ** Rounding *)

Lemma nearest_err n d :
  0 < d -> - d <= 2 * (nearest n d * d - n) <= d.
Proof.
  intros Hd. unfold nearest. pose proof (Z.div_mod n d ltac:(lia)) as E.
  pose proof (Z.mod_pos_bound n d Hd). set (q := n / d) in *. set (r := n mod d) in *.
  destruct (Z.ltb_spec (2 * r) d); [|destruct (Z.ltb_spec d (2 * r)); [|destruct (Z.even q)]]; nia.
Qed.

Lemma nearest_exact n d q : 0 < d -> n = q * d -> nearest n d = q.
Proof.
  intros Hd ->. unfold nearest. rewrite Z.div_mul, Z.mod_mul by lia.
  by destruct (Z.ltb_spec (2 * 0) d); [|lia].
Qed.

Lemma pow2_pos e : 0 < 2 ^ Z.max 0 e.
Proof. apply Z.pow_pos_nonneg; lia. Qed.

Lemma dden_pos x : 0 < dden x.
Proof. apply pow2_pos. Qed.

Lemma dnum_pos x : 0 < mant x -> 0 < dnum x.
Proof. intros. pose proof (pow2_pos (expo x)). unfold dnum. nia. Qed.

(** Halving the quotient of [scale]. *)
Lemma scale_succ n d e a b a' b' :
  scale n d e = (a, b) -> scale n d (e + 1) = (a', b') -> a * b' = 2 * (a' * b).
Proof.
  unfold scale. intros [= <- <-] [= <- <-].
  assert (2 ^ Z.max 0 (- e) * 2 ^ Z.max 0 (e + 1)
    = 2 * (2 ^ Z.max 0 (- (e + 1)) * 2 ^ Z.max 0 e)) as E.
  2: { transitivity (n * d * (2 ^ Z.max 0 (- e) * 2 ^ Z.max 0 (e + 1))); [ring|]. rewrite E. ring. }
  destruct (decide (0 <= e)).
  - rewrite (Z.max_l 0 (- e)), (Z.max_r 0 (e + 1)), (Z.max_l 0 (- (e + 1))), (Z.max_r 0 e) by lia.
    rewrite Z.pow_add_r by lia. lia.
  - rewrite (Z.max_r 0 (- e)), (Z.max_l 0 (e + 1)), (Z.max_r 0 (- (e + 1))), (Z.max_l 0 e) by lia.
    replace (- e) with (Z.succ (- (e + 1))) by lia. rewrite Z.pow_succ_r by lia. lia.
Qed.

(** The first exponent tried leaves at least 53 bits before the point. *)
Lemma scale_log n d a b :
  0 < n -> 0 < d -> scale n d (Z.log2 n - Z.log2 d - 53) = (a, b) -> 2 ^ 52 * b <= a.
Proof.
  intros Hn Hd. unfold scale. intros [= <- <-].
  pose proof (Z.log2_spec n Hn) as [Hln _]. pose proof (Z.log2_spec d Hd) as [_ Hld].
  pose proof (Z.log2_nonneg n). pose proof (Z.log2_nonneg d).
  set (ln := Z.log2 n) in *. set (ld := Z.log2 d) in *.
  destruct (decide (0 <= ln - ld - 53)) as [He|He].
  - rewrite (Z.max_l 0 (- _)), (Z.max_r 0 (ln - ld - 53)), Z.pow_0_r by lia.
    assert (2 ^ ln = 2 ^ Z.succ ld * 2 ^ 52 * 2 ^ (ln - ld - 53)) as E.
    { rewrite <- !Z.pow_add_r by lia. f_equal. lia. }
    pose proof (Z.pow_pos_nonneg 2 (ln - ld - 53)).
    assert (d * 2 ^ (ln - ld - 53) <= 2 ^ Z.succ ld * 2 ^ (ln - ld - 53))
      by (apply Z.mul_le_mono_nonneg_r; lia). lia.
  - rewrite (Z.max_r 0 (- _)), (Z.max_l 0 (ln - ld - 53)), Z.pow_0_r by lia.
    assert (2 ^ ln * 2 ^ (- (ln - ld - 53)) = 2 ^ Z.succ ld * 2 ^ 52) as E.
    { rewrite <- !Z.pow_add_r by lia. f_equal. lia. }
    pose proof (Z.pow_pos_nonneg 2 (- (ln - ld - 53))).
    assert (2 ^ ln * 2 ^ (- (ln - ld - 53)) <= n * 2 ^ (- (ln - ld - 53)))
      by (apply Z.mul_le_mono_nonneg_r; lia). lia.
Qed.

Lemma round_ratio_scaled n d :
  0 < n -> 0 < d ->
  exists e a b, scale n d e = (a, b) /\ 0 < b /\ 2 ^ 52 * b <= a /\
    round_ratio n d = Dbl (nearest a b) e.
Proof.
  intros Hn Hd. unfold round_ratio. set (e0 := Z.log2 n - Z.log2 d - 53).
  destruct (scale n d e0) as [a b] eqn:E0.
  assert (forall e a b, scale n d e = (a, b) -> 0 < b) as Hb.
  { unfold scale. intros e a' b' [= <- <-]. pose proof (pow2_pos e). nia. }
  destruct (Z.leb_spec (2 ^ 53) (a / b)) as [Hbig|Hsmall].
  - destruct (scale n d (e0 + 1)) as [a' b'] eqn:E1. exists (e0 + 1), a', b'.
    split; [done|]. split; [by eapply Hb|]. split; [|done].
    pose proof (scale_succ n d e0 a b a' b' E0 E1). pose proof (Hb _ _ _ E0).
    pose proof (Hb _ _ _ E1). pose proof (Z.mul_div_le a b ltac:(lia)).
    assert (2 ^ 53 * b <= a) by nia.
    assert (2 ^ 53 * b * b' <= a * b') by (apply Z.mul_le_mono_nonneg_r; lia).
    apply (Z.mul_le_mono_pos_r _ _ (2 * b)); lia.
  - rewrite E0. exists e0, a, b. split; [done|]. split; [by eapply Hb|]. split; [|done].
    by apply (scale_log n d).
Qed.

(** The relative error is at most [2 ^ -53]. *)
Lemma round_ratio_err n d :
  0 < n -> 0 < d ->
  let x := round_ratio n d in
  0 < mant x /\ - (n * dden x) <= 2 ^ 53 * (dnum x * d - n * dden x) <= n * dden x.
Proof.
  intros Hn Hd. destruct (round_ratio_scaled n d Hn Hd) as (e & a & b & Hs & Hb & Hab & ->).
  simpl. pose proof (nearest_err a b Hb) as Herr. unfold dnum, dden. simpl.
  unfold scale in Hs. injection Hs as <- <-. set (m := nearest _ _) in *. split; nia.
Qed.

Lemma round_ratio_zero d : 0 < d -> exists e, round_ratio 0 d = Dbl 0 e.
Proof.
  intros Hd. unfold round_ratio, scale. rewrite !Z.mul_0_l. eexists.
  rewrite (nearest_exact 0 _ 0); [done| |lia]. apply Z.mul_pos_pos; [done|apply pow2_pos].
Qed.

(** A quotient [z / 2 ^ s] with at most 53 bits is exact. *)
Lemma round_ratio_dyadic n d z s :
  0 < d -> 0 <= z <= 2 ^ 53 -> 0 <= s -> n * 2 ^ s = z * d ->
  dnum (round_ratio n d) * 2 ^ s = z * dden (round_ratio n d).
Proof.
  intros Hd Hz Hs Hn. pose proof (Z.pow_pos_nonneg 2 s ltac:(lia) Hs) as Hp.
  destruct (Z.eq_dec z 0) as [->|Hz0].
  { assert (n = 0) as -> by nia. destruct (round_ratio_zero d Hd) as [e ->]. done. }
  destruct (round_ratio_scaled n d) as (e & a & b & Hsc & Hb & Hab & ->);
    [nia|nia|]. unfold scale in Hsc. injection Hsc as <- <-. unfold dnum, dden. simpl.
  pose proof (pow2_pos e) as He1. pose proof (pow2_pos (- e)) as He2.
  destruct (Z.le_gt_cases e (- s)) as [He|He].
  - rewrite (Z.max_l 0 e), (Z.max_r 0 (- e)), Z.pow_0_r in * by lia.
    assert (2 ^ (- e) = 2 ^ (- e - s) * 2 ^ s) as E by (rewrite <- Z.pow_add_r by lia; f_equal; lia).
    rewrite (nearest_exact _ _ (z * 2 ^ (- e - s))); [rewrite E; ring|lia|].
    rewrite E. transitivity (n * 2 ^ s * 2 ^ (- e - s)); [ring|]. rewrite Hn. ring.
  - set (p := 2 ^ Z.max 0 e) in *. set (q := 2 ^ Z.max 0 (- e)) in *.
    assert (2 ^ (e + s) * q = 2 ^ s * p) as E.
    { unfold p, q. rewrite <- !Z.pow_add_r by lia. f_equal. lia. }
    assert (2 ^ 52 * 2 ^ (e + s) <= z) as Hbig.
    { apply (Z.mul_le_mono_pos_r _ _ (q * d)); [nia|].
      transitivity (2 ^ 52 * (d * p) * 2 ^ s); [|].
      - transitivity (2 ^ 52 * (2 ^ (e + s) * q) * d); [lia|]. rewrite E. lia.
      - transitivity (n * q * 2 ^ s); [apply Z.mul_le_mono_nonneg_r; lia|].
        transitivity (n * 2 ^ s * q); [lia|]. rewrite Hn. lia. }
    assert (e + s = 1) as Es.
    { destruct (decide (e + s = 1)); [done|].
      assert (2 ^ 2 <= 2 ^ (e + s)) by (apply Z.pow_le_mono_r; lia). lia. }
    rewrite Es in *. change (2 ^ 1) with 2 in *. assert (z = 2 ^ 53) as -> by lia.
    rewrite (nearest_exact _ _ (2 ^ 52)); [lia|nia|].
    apply (Z.mul_reg_r _ _ (2 ^ s)); [lia|]. transitivity (n * 2 ^ s * q); [lia|].
    rewrite Hn. transitivity (2 ^ 52 * d * (2 * q)); [lia|]. rewrite E. lia.
Qed.

(** A quotient that is an integer of at most 53 bits is exact. *)
Lemma round_ratio_exact n d z :
  0 < d -> 0 <= z <= 2 ^ 53 -> n = z * d ->
  dnum (round_ratio n d) = z * dden (round_ratio n d).
Proof.
  intros Hd Hz Hn. rewrite <- (round_ratio_dyadic n d z 0) by (rewrite ?Z.pow_0_r; lia).
  by rewrite Z.pow_0_r, Z.mul_1_r.
Qed.

Lemma of_Z_exact z : 0 <= z <= 2 ^ 53 -> dnum (of_Z z) = z * dden (of_Z z).
Proof. intros Hz. apply (round_ratio_exact z 1 z); lia. Qed.

Lemma of_Z_pos z : 0 < z -> 0 < mant (of_Z z).
Proof. intros Hz. apply (round_ratio_err z 1); lia. Qed.

(** ** Exact results *)

(** The value of [x] is [n / d]. *)
Definition is_ratio (x : double) (n d : Z) : Prop := dnum x * d = n * dden x.

Lemma of_Z_int z : 0 <= z <= 2 ^ 53 -> is_ratio (of_Z z) z 1.
Proof. intros Hz. unfold is_ratio. rewrite of_Z_exact by done. lia. Qed.

Lemma pow2_int n : 0 <= n -> is_ratio (pow2 n) (2 ^ n) 1.
Proof.
  intros Hn. unfold is_ratio, dnum, dden, pow2. simpl.
  rewrite (Z.max_r 0 n), (Z.max_l 0 (- n)) by lia. lia.
Qed.

Lemma dmul_int x y a b :
  is_ratio x a 1 -> is_ratio y b 1 -> 0 <= a * b <= 2 ^ 53 -> is_ratio (dmul x y) (a * b) 1.
Proof.
  unfold is_ratio. rewrite !Z.mul_1_r. intros Ex Ey Hab. pose proof (dden_pos x). pose proof (dden_pos y).
  apply round_ratio_exact; [nia|done|]. rewrite Ex, Ey. ring.
Qed.

(** A quotient by a power of two. *)
Lemma ddiv_pow2 x z s :
  is_ratio x z 1 -> 0 <= z <= 2 ^ 53 -> 0 <= s -> is_ratio (ddiv x (pow2 s)) z (2 ^ s).
Proof.
  unfold is_ratio. rewrite Z.mul_1_r. intros Ex Hz Hs. pose proof (dden_pos x).
  unfold ddiv. rewrite Ex. change (dden (pow2 s)) with (2 ^ Z.max 0 (- s)).
  change (dnum (pow2 s)) with (1 * 2 ^ Z.max 0 s).
  rewrite (Z.max_r 0 s), (Z.max_l 0 (- s)), Z.mul_1_l, Z.pow_0_r, Z.mul_1_r by lia.
  apply round_ratio_dyadic; try done; nia.
Qed.

Lemma dadd_dyadic x y a b s :
  is_ratio x a (2 ^ s) -> is_ratio y b 1 -> 0 <= a + b * 2 ^ s <= 2 ^ 53 -> 0 <= s ->
  is_ratio (dadd x y) (a + b * 2 ^ s) (2 ^ s).
Proof.
  unfold is_ratio. rewrite Z.mul_1_r. intros Ex Ey Hab Hs. pose proof (dden_pos x) as Hx.
  pose proof (dden_pos y) as Hy. pose proof (Z.pow_pos_nonneg 2 s ltac:(lia) Hs) as Hp.
  unfold dadd. rewrite Ey. apply round_ratio_dyadic; [nia|done|done|].
  transitivity (dnum x * 2 ^ s * dden y + b * 2 ^ s * (dden x * dden y)); [ring|]. rewrite Ex. ring.
Qed.

Lemma trunc_ratio x n d : 0 < d -> is_ratio x n d -> trunc x = n / d.
Proof.
  unfold is_ratio, trunc. intros Hd E. pose proof (dden_pos x).
  rewrite <- (Z.div_mul_cancel_r (dnum x) (dden x) d) by lia.
  rewrite E, (Z.mul_comm (dden x) d). apply Z.div_mul_cancel_r; lia.
Qed.

End Double.
