(* ===== verification/Frequent.v ===== *)
(** * Frequent elements in one pass.

    Models src/approxalgos/ApproxFrequent/src: [sorted_array_to_id_freq],
    [update_counter] and [approx_frequent], a packet-wise variant of the
    FREQUENT algorithm.  Counters are pairs of an id and a frequency in two
    parallel arrays, sorted by id; a packet of input is sorted, collapsed to
    pairs and merged in, and while there are more pairs than counters every
    frequency is decremented and the pairs that reach 0 are dropped.

    Allocation succeeds, and [cilkfor] is [for], as the build without Cilk has
    it.  An input packet is represented by its used part: the cells behind it
    are never read.  The copy of qsort_asc_I4.c in that directory is the file
    that Sort.v models. *)

From stdpp Require Import prelude sorting.
From Stdlib Require Import ZArith Lia.
From S2P Require Import Prelude Sort Setops Double.
Import Double.

Module Frequent.

(** ** Pairs of id and frequency *)

(** The loop of [sorted_array_to_id_freq]: [n] iterations are left. *)
Fixpoint id_freq_loop (n : nat) (buf : list Z) (ii jj temp_freq : Z) (bf_id bf_freq : list Z)
    : res (list Z * list Z * Z) :=
  match n with
  | O =>
      v ← rd buf ii;
      bf_id ← wr bf_id jj v;
      bf_freq ← wr bf_freq jj temp_freq;
      Ok (bf_id, bf_freq, jj + 1)
  | S n =>
      a ← rd buf ii;
      b ← rd buf (ii + 1);
      if a =? b then
        temp_freq ← add_to 32 temp_freq 1;
        id_freq_loop n buf (ii + 1) jj temp_freq bf_id bf_freq
      else
        bf_id ← wr bf_id jj a;
        bf_freq ← wr bf_freq jj temp_freq;
        id_freq_loop n buf (ii + 1) (jj + 1) 1 bf_id bf_freq
  end.

Definition sorted_array_to_id_freq (buf : list Z) (num_buf : Z) (bf_id bf_freq : list Z)
    : res (list Z * list Z * Z) :=
  id_freq_loop (Z.to_nat (num_buf - 1)) buf 0 0 1 bf_id bf_freq.

(** ** Updating the counters *)

(** The merge of the active counters with the pairs of a packet. *)
Fixpoint merge_loop (fuel : nat) (cntr_id cntr_freq : list Z) (active_cntr_siz : Z)
    (bf_id bf_freq : list Z) (bf_siz ii jj kk : Z) (temp_id temp_freq : list Z)
    : res (list Z * list Z * Z) :=
  match fuel with
  | O => NoFuel
  | S fuel =>
      let loop := merge_loop fuel cntr_id cntr_freq active_cntr_siz bf_id bf_freq bf_siz in
      if (ii <? active_cntr_siz) && (jj <? bf_siz) then
        c ← rd cntr_id ii; b ← rd bf_id jj;
        if c <? b then
          f ← rd cntr_freq ii;
          temp_id ← wr temp_id kk c; temp_freq ← wr temp_freq kk f;
          loop (ii + 1) jj (kk + 1) temp_id temp_freq
        else if b <? c then
          f ← rd bf_freq jj;
          temp_id ← wr temp_id kk b; temp_freq ← wr temp_freq kk f;
          loop ii (jj + 1) (kk + 1) temp_id temp_freq
        else
          f ← rd bf_freq jj; g ← rd cntr_freq ii; f ← add_to 32 f g;
          temp_id ← wr temp_id kk b; temp_freq ← wr temp_freq kk f;
          loop (ii + 1) (jj + 1) (kk + 1) temp_id temp_freq
      else if (ii <? active_cntr_siz) && (jj =? bf_siz) then
        c ← rd cntr_id ii; f ← rd cntr_freq ii;
        temp_id ← wr temp_id kk c; temp_freq ← wr temp_freq kk f;
        loop (ii + 1) jj (kk + 1) temp_id temp_freq
      else if (ii =? active_cntr_siz) && (jj <? bf_siz) then
        b ← rd bf_id jj; f ← rd bf_freq jj;
        temp_id ← wr temp_id kk b; temp_freq ← wr temp_freq kk f;
        loop ii (jj + 1) (kk + 1) temp_id temp_freq
      else Ok (temp_id, temp_freq, kk)
  end.

(** [for ( kk = 0; kk < n; kk++ ) { temp_cntr_freq[kk]--; }] *)
Fixpoint decrement_loop (n : nat) (kk : Z) (temp_freq : list Z) : res (list Z) :=
  match n with
  | O => Ok temp_freq
  | S n =>
      f ← rd temp_freq kk; f ← add_to 32 f (-1); temp_freq ← wr temp_freq kk f;
      decrement_loop n (kk + 1) temp_freq
  end.

(** Keep the pairs with a positive frequency. *)
Fixpoint drop_zeros_loop (n : nat) (kk jj : Z) (temp_id temp_freq : list Z)
    : res (list Z * list Z * Z) :=
  match n with
  | O => Ok (temp_id, temp_freq, jj)
  | S n =>
      f ← rd temp_freq kk;
      if 0 <? f then
        temp_freq ← wr temp_freq jj f;
        v ← rd temp_id kk;
        temp_id ← wr temp_id jj v;
        drop_zeros_loop n (kk + 1) (jj + 1) temp_id temp_freq
      else drop_zeros_loop n (kk + 1) jj temp_id temp_freq
  end.

Fixpoint shrink_loop (fuel : nat) (cntr_siz : Z) (temp_id temp_freq : list Z) (active : Z)
    : res (list Z * list Z * Z) :=
  if cntr_siz <? active then
    match fuel with
    | O => NoFuel
    | S fuel =>
        temp_freq ← decrement_loop (Z.to_nat active) 0 temp_freq;
        '(temp_id, temp_freq, jj) ← drop_zeros_loop (Z.to_nat active) 0 0 temp_id temp_freq;
        shrink_loop fuel cntr_siz temp_id temp_freq jj
    end
  else Ok (temp_id, temp_freq, active).

(** [memcpy(dst, src, n * sizeof(int))] *)
Definition memcpy (dst src : list Z) (n : Z) : res (list Z) :=
  if decide (0 <= n <= zlen dst /\ n <= zlen src)
  then Ok (take (Z.to_nat n) src ++ drop (Z.to_nat n) dst) else Ub.

(** The number of rounds is at most the largest frequency. *)
Definition update_counter (cntr_id cntr_freq : list Z) (cntr_siz active_cntr_siz : Z)
    (bf_id bf_freq : list Z) (bf_siz : Z) : res (list Z * list Z * Z) :=
  let n := active_cntr_siz + bf_siz in
  let temp := replicate (Z.to_nat n) 0 in
  '(temp_id, temp_freq, kk) ←
    merge_loop (S (Z.to_nat n)) cntr_id cntr_freq active_cntr_siz bf_id bf_freq bf_siz 0 0 0 temp temp;
  '(temp_id, temp_freq, active) ←
    shrink_loop (S (Z.to_nat (foldr Z.max 0 temp_freq))) cntr_siz temp_id temp_freq kk;
  cntr_id ← memcpy cntr_id temp_id active;
  cntr_freq ← memcpy cntr_freq temp_freq active;
  Ok (cntr_id, cntr_freq, active).

(** ** Sizes *)

Definition MAX_SZ : Z := 200 * 1048576.

(** [cfld[ii] != 0] *)
Fixpoint count_selected (n : nat) (cfld : list Z) (ii eff_siz : Z) : res Z :=
  match n with
  | O => Ok eff_siz
  | S n => c ← rd cfld ii; count_selected n cfld (ii + 1) (if c =? 0 then eff_siz else eff_siz + 1)
  end.

(** [eps = (double) err/eff_siz], and the number of counters. *)
Definition eps_of (err eff_siz : Z) : double := ddiv (of_Z err) (of_Z eff_siz).
Definition counters_of (eps : double) : Z :=
  let cntr_siz := trunc (ddiv (of_Z 1) eps) + 1 in
  if cntr_siz <? 10000 then 10000 else cntr_siz.

(** [while ( cntr_siz*(NUM_THREADS+2+6) > MAX_SZ ) NUM_THREADS /= 2] *)
Fixpoint threads_loop (fuel : nat) (cntr_siz NUM_THREADS : Z) : res Z :=
  if MAX_SZ <? cntr_siz * (NUM_THREADS + 2 + 6) then
    match fuel with O => NoFuel | S fuel => threads_loop fuel cntr_siz (NUM_THREADS / 2) end
  else Ok NUM_THREADS.

(** ** Packets of input *)

(** The packet of thread [tid] when all elements are selected. *)
Definition fill_packet (x : list Z) (siz current_loc_in_x cntr_siz tid : Z) : res (list Z) :=
  let lb := current_loc_in_x + tid * cntr_siz in
  let ub := lb + cntr_siz in
  if siz <=? lb then Ok []
  else
    let ub := if siz <=? ub then siz else ub in
    if decide (0 <= lb <= ub /\ ub <= zlen x)
    then Ok (take (Z.to_nat (ub - lb)) (drop (Z.to_nat lb) x)) else Ub.

Definition sum_len (packets : list (list Z)) : Z := foldr (fun p a => zlen p + a) 0 packets.

(** The packets of a block when [cfld] selects elements. *)
Fixpoint fill_selected (n : nat) (x cfld : list Z) (siz NUM_THREADS cntr_siz : Z)
    (current_loc_in_x tid : Z) (packets : list (list Z)) : res (Z * Z * list (list Z)) :=
  if (current_loc_in_x <? siz) && (tid <? NUM_THREADS) then
    match n with
    | O => NoFuel
    | S n =>
        c ← rd cfld current_loc_in_x;
        if c =? 0 then
          fill_selected n x cfld siz NUM_THREADS cntr_siz (current_loc_in_x + 1) tid packets
        else
          v ← rd x current_loc_in_x;
          p ← rd packets tid;
          packets ← (if zlen p <? cntr_siz then wr packets tid (p ++ [v]) else Ub);
          let tid := if zlen p + 1 =? cntr_siz then tid + 1 else tid in
          fill_selected n x cfld siz NUM_THREADS cntr_siz (current_loc_in_x + 1) tid packets
    end
  else Ok (current_loc_in_x, tid, packets).

(** The block at [current_loc_in_x], and where the next one starts. *)
Definition next_block (x : list Z) (cfld : option (list Z)) (siz eff_siz NUM_THREADS cntr_siz cur : Z)
    : res (Z * list (list Z)) :=
  match cfld with
  | Some c =>
      if eff_siz =? siz then
        packets ← for_map (fill_packet x siz cur cntr_siz) 0 (Z.to_nat NUM_THREADS);
        Ok (cur + sum_len packets, packets)
      else
        '(cur, _, packets) ←
          fill_selected (Z.to_nat (siz - cur)) x c siz NUM_THREADS cntr_siz cur 0
            (replicate (Z.to_nat NUM_THREADS) []);
        Ok (cur, packets)
  | None =>
      packets ← for_map (fill_packet x siz cur cntr_siz) 0 (Z.to_nat NUM_THREADS);
      Ok (cur + sum_len packets, packets)
  end.

(** ** The algorithm *)

Record counters := { cntr_id : list Z; cntr_freq : list Z; active_cntr_siz : Z;
                     bf_id : list Z; bf_freq : list Z }.

(** [qsort_asc_I4] on every packet, then the loop over packets, which ends at
    the first empty one. *)
Fixpoint process_packets (packets : list (list Z)) (cntr_siz : Z) (s : counters) : res counters :=
  match packets with
  | [] => Ok s
  | p :: packets =>
      if zlen p =? 0 then Ok s
      else
        p ← Qsort.qsort_asc_I4 p (zlen p) 4;
        '(bi, bf, bf_siz) ← sorted_array_to_id_freq p (zlen p) (bf_id s) (bf_freq s);
        '(ci, cf, active) ←
          update_counter (cntr_id s) (cntr_freq s) cntr_siz (active_cntr_siz s) bi bf bf_siz;
        process_packets packets cntr_siz
          {| cntr_id := ci; cntr_freq := cf; active_cntr_siz := active; bf_id := bi; bf_freq := bf |}
  end.

Fixpoint block_loop (fuel : nat) (x : list Z) (cfld : option (list Z))
    (siz eff_siz NUM_THREADS cntr_siz cur : Z) (s : counters) : res counters :=
  if cur <? siz then
    match fuel with
    | O => NoFuel
    | S fuel =>
        '(cur, packets) ← next_block x cfld siz eff_siz NUM_THREADS cntr_siz cur;
        s ← process_packets packets cntr_siz s;
        block_loop fuel x cfld siz eff_siz NUM_THREADS cntr_siz cur s
    end
  else Ok s.

(** The counters of at least [thresh] are written to [y] and [f]. *)
Fixpoint output_loop (n : nat) (ids freqs : list Z) (thresh ii jj : Z) (y f : list Z)
    : res (list Z * list Z * Z) :=
  match n with
  | O => Ok (y, f, jj)
  | S n =>
      g ← rd freqs ii;
      if thresh <=? g then
        v ← rd ids ii;
        y ← wr y jj v; f ← wr f jj g;
        output_loop n ids freqs thresh (ii + 1) (jj + 1) y f
      else output_loop n ids freqs thresh (ii + 1) jj y f
  end.

(** [*ptr_estimate_is_good], [y], [f], and [*ptr_len] when it is set.  With
    status -1 ([Err]) [*ptr_estimate_is_good] is -1. *)
Record answer := { estimate_is_good : Z; ans_y : list Z; ans_f : list Z; ans_len : option Z }.

Definition approx_frequent (x : option (list Z)) (cfld : option (list Z)) (siz min_freq err : Z)
    (y f : option (list Z)) (out_siz : Z) : res answer :=
  match x, y, f with
  | Some x, Some y, Some f =>
      _ ← go_BYE_if (siz <=? 0);
      _ ← go_BYE_if (err <=? 0);
      _ ← go_BYE_if (min_freq <=? 0);
      _ ← go_BYE_if (min_freq - err <=? 0);
      eff_siz ← match cfld with
                | None => Ok siz
                | Some c =>
                    eff_siz ← count_selected (Z.to_nat siz) c 0 0;
                    _ ← go_BYE_if (eff_siz =? 0);
                    Ok eff_siz
                end;
      let too_much := {| estimate_is_good := -2; ans_y := y; ans_f := f; ans_len := None |} in
      let eps := eps_of err eff_siz in
      if dlt eps (pow2 (-50)) then Ok too_much else
      _ ← go_BYE_if (out_siz <? eff_siz / (min_freq - err));
      let cntr_siz := counters_of eps in
      if MAX_SZ <? cntr_siz * (1 + 2 + 6) then Ok too_much else
      NUM_THREADS ← threads_loop 8 cntr_siz 128;
      let zeros := replicate (Z.to_nat cntr_siz) 0 in
      s ← block_loop (Z.to_nat siz) x cfld siz eff_siz NUM_THREADS cntr_siz 0
            {| cntr_id := zeros; cntr_freq := zeros; active_cntr_siz := 0;
               bf_id := zeros; bf_freq := zeros |};
      '(y, f, len) ← output_loop (Z.to_nat (active_cntr_siz s)) (cntr_id s) (cntr_freq s)
                       (min_freq - err) 0 0 y f;
      Ok {| estimate_is_good := 1; ans_y := y; ans_f := f; ans_len := Some len |}
  | _, _, _ => Err
  end.

Example update_counter_shrinks :
  update_counter [1; 3; 0] [5; 1; 0] 3 2 [2; 3; 4] [2; 2; 1] 3 = Ok ([1; 2; 3], [4; 1; 2], 3).
Proof. vm_compute. reflexivity. Qed.

Example sorted_array_to_id_freq_ex :
  sorted_array_to_id_freq [1; 1; 1; 2; 4; 4] 6 [0; 0; 0; 0; 0; 0] [0; 0; 0; 0; 0; 0]
  = Ok ([1; 2; 4; 0; 0; 0], [3; 1; 2; 0; 0; 0], 3).
Proof. vm_compute. reflexivity. Qed.

Example counters_of_third : counters_of (eps_of 1 30000) = 30001.
Proof. vm_compute. reflexivity. Qed.

(** ** Pairs *)

(** Each value once. *)
Definition ones (l : list Z) : list (Z * Z) := (fun x => (x, 1)) <$> l.
Lemma ones_cons x l : ones (x :: l) = (x, 1) :: ones l.
Proof. done. Qed.
Arguments ones : simpl never.

Lemma tally_ones v l : Uniq.tally v (ones l) = occ v l.
Proof.
  induction l as [|x l IH]; [done|]. rewrite occ_cons, ones_cons. simpl. rewrite IH.
  case_decide; lia.
Qed.

Lemma total_of_ones l : Uniq.total (ones l) = zlen l.
Proof.
  induction l as [|x l IH]; [done|]. rewrite zlen_cons, ones_cons. simpl. rewrite IH. done.
Qed.

Lemma total_runs_from l : forall v c, Uniq.total (Uniq.runs_from v c l) = c + Uniq.total l.
Proof.
  induction l as [|[v' c'] l IH]; intros v c; simpl; [lia|]. case_decide; simpl; rewrite IH; lia.
Qed.

Lemma total_runs l : Uniq.total (Uniq.runs l) = Uniq.total l.
Proof. destruct l as [|[v c] l]; [done|]. apply total_runs_from. Qed.

Lemma tally_runs_from x l : forall v c,
  Uniq.tally x (Uniq.runs_from v c l) = Uniq.tally x ((v, c) :: l).
Proof.
  induction l as [|[v' c'] l IH]; intros v c; [done|]. simpl. case_decide as E.
  - subst v'. rewrite IH. simpl. case_decide; lia.
  - simpl. rewrite IH. done.
Qed.

Lemma tally_runs x l : Uniq.tally x (Uniq.runs l) = Uniq.tally x l.
Proof. destruct l as [|[v c] l]; [done|]. apply tally_runs_from. Qed.

(** The pairs of a packet. *)
Lemma id_freq_loop_ok rest : forall pre a done t ri rf,
  (length rest < length ri)%nat -> (length rest < length rf)%nat ->
  0 <= t -> t + zlen rest <= INT_MAX ->
  let rs := Uniq.runs_from a t (ones rest) in
  id_freq_loop (length rest) (pre ++ a :: rest) (zlen pre) (zlen done) t
      ((fst <$> done) ++ ri) ((snd <$> done) ++ rf)
    = Ok ((done ++ rs).*1 ++ drop (length rs) ri, (done ++ rs).*2 ++ drop (length rs) rf,
          zlen (done ++ rs)).
Proof.
  induction rest as [|b rest IH]; intros pre a done t ri rf Hri Hrf Ht Hmax;
    (destruct ri as [|x ri]; [simpl in Hri; lia|]); (destruct rf as [|y rf]; [simpl in Hrf; lia|]);
    simpl in Hri, Hrf; rewrite ?ones_cons; cbn [length id_freq_loop Uniq.runs_from].
  - rewrite rd_middle. simpl. rewrite <- (zlen_fmap fst done) at 1. rewrite Uniq.wr_next. simpl.
    rewrite <- (zlen_fmap snd done). rewrite Uniq.wr_next. simpl.
    by rewrite Uniq.fst_snoc, Uniq.snd_snoc, zlen_snoc, zlen_fmap.
  - rewrite zlen_cons in Hmax. pose proof (zlen_nonneg rest). rewrite rd_middle. simpl.
    assert (rd (pre ++ a :: b :: rest) (zlen pre + 1) = Ok b) as ->.
    { change (a :: b :: rest) with ([a] ++ b :: rest).
      rewrite app_assoc, <- (zlen_snoc pre a). apply rd_middle. }
    simpl. destruct (Z.eqb_spec a b) as [->|Hne].
    + rewrite decide_True by done. rewrite add_to_Ok by (unfold inS, INT_MAX in *; lia). simpl.
      rewrite <- (zlen_snoc pre b). change (b :: b :: rest) with ([b] ++ b :: rest).
      rewrite app_assoc. apply IH; simpl; lia.
    + rewrite decide_False by done.
      rewrite <- (zlen_fmap fst done) at 1. rewrite Uniq.wr_next. simpl.
      rewrite <- (zlen_fmap snd done). rewrite Uniq.wr_next. simpl.
      rewrite <- (zlen_snoc pre a). change (a :: b :: rest) with ([a] ++ b :: rest).
      rewrite app_assoc. rewrite <- (Uniq.fst_snoc done a t), <- (Uniq.snd_snoc done a t).
      rewrite zlen_fmap, <- (zlen_snoc done (a, t)).
      rewrite (IH (pre ++ [a]) b (done ++ [(a, t)]) 1 ri rf) by lia.
      by rewrite <- !app_assoc.
Qed.

Lemma sorted_array_to_id_freq_ok p bi bf :
  p <> [] -> (length p <= length bi)%nat -> (length p <= length bf)%nat -> zlen p <= INT_MAX ->
  let rs := Uniq.runs (ones p) in
  sorted_array_to_id_freq p (zlen p) bi bf
    = Ok (rs.*1 ++ drop (length rs) bi, rs.*2 ++ drop (length rs) bf, zlen rs).
Proof.
  intros Hp Hbi Hbf Hmax. destruct p as [|a rest]; [done|]. unfold sorted_array_to_id_freq.
  rewrite zlen_cons in *. replace (Z.to_nat (1 + zlen rest - 1)) with (length rest)
    by (unfold zlen; lia).
  apply (id_freq_loop_ok rest [] a [] 1 bi bf); simpl in *; lia.
Qed.

(** ** The merge *)

(** The merge of two lists of pairs; the frequencies of a common id are
    added. *)
Fixpoint madd (l1 l2 : list (Z * Z)) : list (Z * Z) :=
  let fix go l2 :=
    match l1, l2 with
    | [], _ => l2
    | _, [] => l1
    | (c, f) :: t1, (b, g) :: t2 =>
        if c <? b then (c, f) :: madd t1 l2
        else if b <? c then (b, g) :: go t2
        else (b, g + f) :: madd t1 t2
    end in
  go l2.

Lemma madd_nil_l l : madd [] l = l.
Proof. by destruct l. Qed.
Lemma madd_nil_r l : madd l [] = l.
Proof. by destruct l as [|[c f] l]. Qed.
Lemma madd_cons c f t1 b g t2 :
  madd ((c, f) :: t1) ((b, g) :: t2) =
    if c <? b then (c, f) :: madd t1 ((b, g) :: t2)
    else if b <? c then (b, g) :: madd ((c, f) :: t1) t2
    else (b, g + f) :: madd t1 t2.
Proof. done. Qed.
Arguments madd : simpl never.

(** Induction over the steps of a merge. *)
Lemma madd_ind (P : list (Z * Z) -> list (Z * Z) -> Prop) :
  (forall l, P [] l) -> (forall l, P l []) ->
  (forall c f t1 b g t2, c < b -> P t1 ((b, g) :: t2) -> P ((c, f) :: t1) ((b, g) :: t2)) ->
  (forall c f t1 b g t2, b < c -> P ((c, f) :: t1) t2 -> P ((c, f) :: t1) ((b, g) :: t2)) ->
  (forall c f t1 b g t2, b = c -> P t1 t2 -> P ((c, f) :: t1) ((b, g) :: t2)) ->
  forall l1 l2, P l1 l2.
Proof.
  intros Hl Hr H1 H2 H3. induction l1 as [|[c f] t1 IH1]; intros l2; [apply Hl|].
  induction l2 as [|[b g] t2 IH2]; [apply Hr|].
  destruct (Z.lt_trichotomy c b) as [Hlt|[Heq|Hgt]]; auto.
Qed.

Ltac madd_induction l1 l2 :=
  pattern l1, l2; apply madd_ind; clear l1 l2;
  [intros l|intros l|intros c f t1 b g t2 Hlt IH|intros c f t1 b g t2 Hlt IH|
   intros c f t1 b g t2 Heq IH];
  rewrite ?madd_nil_l, ?madd_nil_r, ?madd_cons.

Lemma madd_tally v l1 l2 : Uniq.tally v (madd l1 l2) = Uniq.tally v l1 + Uniq.tally v l2.
Proof.
  madd_induction l1 l2; simpl; try lia.
  - rewrite (proj2 (Z.ltb_lt c b)) by done. simpl in *. rewrite IH. destruct (decide (c = v)); lia.
  - rewrite (proj2 (Z.ltb_ge c b)), (proj2 (Z.ltb_lt b c)) by lia. simpl in *. rewrite IH.
    destruct (decide (b = v)); lia.
  - subst. rewrite Z.ltb_irrefl. simpl. rewrite IH. destruct (decide (c = v)); lia.
Qed.

Lemma madd_total l1 l2 : Uniq.total (madd l1 l2) = Uniq.total l1 + Uniq.total l2.
Proof.
  madd_induction l1 l2; simpl; try lia.
  - rewrite (proj2 (Z.ltb_lt c b)) by done. simpl in *. lia.
  - rewrite (proj2 (Z.ltb_ge c b)), (proj2 (Z.ltb_lt b c)) by lia. simpl in *. lia.
  - subst. rewrite Z.ltb_irrefl. simpl. lia.
Qed.

Lemma madd_length l1 l2 : (length (madd l1 l2) <= length l1 + length l2)%nat.
Proof.
  madd_induction l1 l2; simpl; try lia.
  - rewrite (proj2 (Z.ltb_lt c b)) by done. simpl in *. lia.
  - rewrite (proj2 (Z.ltb_ge c b)), (proj2 (Z.ltb_lt b c)) by lia. simpl in *. lia.
  - subst. rewrite Z.ltb_irrefl. simpl. lia.
Qed.

Definition ids_above (k : Z) (l : list (Z * Z)) : Prop := Forall (fun x => k < x) l.*1.

Lemma madd_above k l1 l2 : ids_above k l1 -> ids_above k l2 -> ids_above k (madd l1 l2).
Proof.
  unfold ids_above. madd_induction l1 l2; simpl; intros H1 H2; try done.
  - rewrite (proj2 (Z.ltb_lt c b)) by done. apply Forall_cons in H1 as [Hc H1].
    constructor; [done|]. by apply IH.
  - rewrite (proj2 (Z.ltb_ge c b)), (proj2 (Z.ltb_lt b c)) by lia. apply Forall_cons in H2 as [Hb H2].
    constructor; [done|]. by apply IH.
  - subst. rewrite Z.ltb_irrefl. apply Forall_cons in H1 as [Hc H1], H2 as [Hb H2].
    constructor; [done|]. by apply IH.
Qed.

(** Ascending ids, positive frequencies. *)
Definition ascending_ids (l : list (Z * Z)) : Prop := StronglySorted Z.lt l.*1.
Definition positive (l : list (Z * Z)) : Prop := Forall (Z.lt 0) l.*2.

Lemma ascending_cons c f l : ascending_ids ((c, f) :: l) <-> ids_above c l /\ ascending_ids l.
Proof.
  unfold ascending_ids, ids_above. simpl. split.
  - intros [Hs Hc]%StronglySorted_inv. done.
  - intros [Hc Hs]. by constructor.
Qed.

Lemma ids_above_weaken k k' l : k <= k' -> ids_above k' l -> ids_above k l.
Proof. intros Hk Hl. eapply Forall_impl; [exact Hl|]. simpl. lia. Qed.

Lemma madd_ascending l1 l2 : ascending_ids l1 -> ascending_ids l2 -> ascending_ids (madd l1 l2).
Proof.
  madd_induction l1 l2; intros H1 H2; try done.
  - rewrite (proj2 (Z.ltb_lt c b)) by done. pose proof H1 as [Hc H1']%ascending_cons.
    pose proof H2 as [Hb _]%ascending_cons. apply ascending_cons. split; [|by apply IH].
    apply madd_above; [done|]. constructor; [simpl; lia|]. by apply (ids_above_weaken _ b); [lia|].
  - rewrite (proj2 (Z.ltb_ge c b)), (proj2 (Z.ltb_lt b c)) by lia.
    pose proof H1 as [Hc _]%ascending_cons. pose proof H2 as [Hb H2']%ascending_cons.
    apply ascending_cons. split; [|by apply IH].
    apply madd_above; [|done]. constructor; [simpl; lia|]. by apply (ids_above_weaken _ c); [lia|].
  - subst. rewrite Z.ltb_irrefl. pose proof H1 as [Hc H1']%ascending_cons.
    pose proof H2 as [Hb H2']%ascending_cons. apply ascending_cons.
    split; [by apply madd_above|by apply IH].
Qed.

Lemma madd_positive l1 l2 : positive l1 -> positive l2 -> positive (madd l1 l2).
Proof.
  unfold positive.
  madd_induction l1 l2; simpl; intros H1 H2; try done.
  - rewrite (proj2 (Z.ltb_lt c b)) by done. apply Forall_cons in H1 as [Hc H1].
    constructor; [done|]. by apply IH.
  - rewrite (proj2 (Z.ltb_ge c b)), (proj2 (Z.ltb_lt b c)) by lia. apply Forall_cons in H2 as [Hb H2].
    constructor; [done|]. by apply IH.
  - subst. rewrite Z.ltb_irrefl. apply Forall_cons in H1 as [Hc H1], H2 as [Hb H2].
    constructor; [simpl; lia|]. by apply IH.
Qed.

(** Reading and writing parallel arrays that hold a list of pairs. *)
Lemma rd_ids (l1 l2 : list (Z * Z)) c f j : rd ((l1 ++ (c, f) :: l2).*1 ++ j) (zlen l1) = Ok c.
Proof. rewrite fmap_app, <- app_assoc, <- (zlen_fmap fst l1). apply rd_middle. Qed.
Lemma rd_freqs (l1 l2 : list (Z * Z)) c f j : rd ((l1 ++ (c, f) :: l2).*2 ++ j) (zlen l1) = Ok f.
Proof. rewrite fmap_app, <- app_assoc, <- (zlen_fmap snd l1). apply rd_middle. Qed.

Lemma wr_id (done : list (Z * Z)) c f x r :
  wr (done.*1 ++ x :: r) (zlen done) c = Ok ((done ++ [(c, f)]).*1 ++ r).
Proof. by rewrite <- (zlen_fmap fst done), Uniq.wr_next, Uniq.fst_snoc. Qed.
Lemma wr_freq (done : list (Z * Z)) c f x r :
  wr (done.*2 ++ x :: r) (zlen done) f = Ok ((done ++ [(c, f)]).*2 ++ r).
Proof. by rewrite <- (zlen_fmap snd done), Uniq.wr_next, Uniq.snd_snoc. Qed.

Lemma ltb_len (p r : list (Z * Z)) :
  (zlen p <? zlen (p ++ r)) = negb (bool_decide (r = [])) /\
  (zlen p =? zlen (p ++ r)) = bool_decide (r = []).
Proof.
  rewrite zlen_app. destruct r as [|x r].
  - rewrite bool_decide_true by done. change (zlen []) with 0. split; [apply Z.ltb_ge; lia|].
    apply Z.eqb_eq. lia.
  - rewrite bool_decide_false, zlen_cons by done. pose proof (zlen_nonneg r).
    split; [apply Z.ltb_lt; lia|]. apply Z.eqb_neq. lia.
Qed.

Lemma total_positive l : positive l -> 0 <= Uniq.total l.
Proof.
  unfold positive. induction l as [|[v c] l IH]; [done|]. intros [Hc Hl]%Forall_cons.
  specialize (IH Hl). simpl in *. lia.
Qed.

Ltac two_tails t1 t2 :=
  (destruct t1 as [|? t1]; [simpl in *; lia|]); (destruct t2 as [|? t2]; [simpl in *; lia|]).

(** The loop merges what is left of the two lists behind [done]. *)
Lemma merge_loop_ok j1 j2 k1 k2 fuel : forall p1 r1 p2 r2 done t1 t2,
  (length r1 + length r2 < fuel)%nat ->
  (length r1 + length r2 <= length t1)%nat -> (length r1 + length r2 <= length t2)%nat ->
  positive r1 -> positive r2 -> Uniq.total r1 + Uniq.total r2 <= INT_MAX ->
  merge_loop fuel ((p1 ++ r1).*1 ++ j1) ((p1 ++ r1).*2 ++ j2) (zlen (p1 ++ r1))
      ((p2 ++ r2).*1 ++ k1) ((p2 ++ r2).*2 ++ k2) (zlen (p2 ++ r2))
      (zlen p1) (zlen p2) (zlen done) (done.*1 ++ t1) (done.*2 ++ t2)
    = Ok ((done ++ madd r1 r2).*1 ++ drop (length (madd r1 r2)) t1,
          (done ++ madd r1 r2).*2 ++ drop (length (madd r1 r2)) t2, zlen (done ++ madd r1 r2)).
Proof.
  induction fuel as [|fuel IH]; intros p1 r1 p2 r2 done t1 t2 Hf Ht1 Ht2 Hp1 Hp2 Htot; [lia|].
  pose proof (ltb_len p1 r1) as [E1 E2]. pose proof (ltb_len p2 r2) as [E3 E4].
  cbn [merge_loop]. rewrite E1, E2, E3, E4. clear E1 E2 E3 E4.
  destruct r1 as [|[c f] r1], r2 as [|[b g] r2]; cbn [length] in Hf, Ht1, Ht2.
  - rewrite !bool_decide_true by done. simpl. by rewrite !madd_nil_l, !app_nil_r, !drop_0.
  - rewrite bool_decide_true, bool_decide_false by done. simpl negb. simpl andb. cbv iota.
    two_tails t1 t2. rewrite rd_ids, rd_freqs. simpl. rewrite (wr_id done b g), (wr_freq done b g).
    simpl. apply Forall_cons in Hp2 as [? Hp2]. rewrite madd_nil_l. simpl in *.
    rewrite <- (zlen_snoc p2 (b, g)), <- (zlen_snoc done (b, g)), (app_cons_snoc p2 r2).
    rewrite IH by (done || (simpl; lia)). rewrite madd_nil_l. by rewrite <- !app_assoc.
  - rewrite bool_decide_false, bool_decide_true by done. simpl negb. simpl andb. cbv iota.
    two_tails t1 t2. rewrite rd_ids, rd_freqs. simpl. rewrite (wr_id done c f), (wr_freq done c f).
    simpl. apply Forall_cons in Hp1 as [? Hp1]. rewrite madd_nil_r. simpl in *.
    rewrite <- (zlen_snoc p1 (c, f)), <- (zlen_snoc done (c, f)), (app_cons_snoc p1 r1).
    rewrite IH by (done || (simpl; lia)). rewrite madd_nil_r. by rewrite <- !app_assoc.
  - rewrite !bool_decide_false by done. simpl negb. simpl andb. cbv iota.
    two_tails t1 t2. rewrite !rd_ids. cbn [mbind res_bind]. rewrite madd_cons.
    pose proof (total_positive _ Hp1) as Hn1. pose proof (total_positive _ Hp2) as Hn2.
    pose proof Hp1 as [Hc Hp1']%Forall_cons. pose proof Hp2 as [Hb Hp2']%Forall_cons.
    pose proof (total_positive r1 Hp1') as Hn1'. pose proof (total_positive r2 Hp2') as Hn2'.
    cbn [length] in *. change (Uniq.total ((c, f) :: r1)) with (f + Uniq.total r1) in *.
    change (Uniq.total ((b, g) :: r2)) with (g + Uniq.total r2) in *. simpl in Hc, Hb.
    destruct (Z.ltb_spec c b) as [Hcb|Hcb]; [|destruct (Z.ltb_spec b c) as [Hbc|Hbc]].
    + rewrite rd_freqs. cbn [mbind res_bind]. rewrite (wr_id done c f). cbn [mbind res_bind].
      rewrite (wr_freq done c f). cbn [mbind res_bind].
      rewrite <- (zlen_snoc p1 (c, f)), <- (zlen_snoc done (c, f)), (app_cons_snoc p1 r1).
      rewrite IH by (done || (cbn [length]; simpl; lia)). by rewrite <- !app_assoc.
    + rewrite rd_freqs. cbn [mbind res_bind]. rewrite (wr_id done b g). cbn [mbind res_bind].
      rewrite (wr_freq done b g). cbn [mbind res_bind].
      rewrite <- (zlen_snoc p2 (b, g)), <- (zlen_snoc done (b, g)), (app_cons_snoc p2 r2).
      rewrite IH by (done || (cbn [length]; simpl; lia)). by rewrite <- !app_assoc.
    + rewrite !rd_freqs. cbn [mbind res_bind].
      rewrite add_to_Ok by (unfold inS, INT_MAX in *; lia). cbn [mbind res_bind].
      rewrite (wr_id done b (g + f)). cbn [mbind res_bind].
      rewrite (wr_freq done b (g + f)). cbn [mbind res_bind].
      rewrite <- (zlen_snoc p1 (c, f)), <- (zlen_snoc p2 (b, g)),
        <- (zlen_snoc done (b, g + f)), (app_cons_snoc p1 r1), (app_cons_snoc p2 r2).
      rewrite IH by (done || lia). by rewrite <- !app_assoc.
Qed.

(** ** Shrinking *)

(** Every frequency decremented, the pairs with frequency 0 dropped. *)
Fixpoint dec (l : list (Z * Z)) : list (Z * Z) :=
  match l with
  | [] => []
  | (v, c) :: l => if 0 <? c - 1 then (v, c - 1) :: dec l else dec l
  end.

Lemma dec_positive l : positive (dec l).
Proof.
  induction l as [|[v c] l IH]; [constructor|]. simpl. destruct (Z.ltb_spec 0 (c - 1)); [|done].
  by constructor.
Qed.

Lemma dec_above k l : ids_above k l -> ids_above k (dec l).
Proof.
  unfold ids_above. induction l as [|[v c] l IH]; [done|]. intros [Hv Hl]%Forall_cons. simpl.
  specialize (IH Hl). destruct (0 <? c - 1); [|done]. by constructor.
Qed.

Lemma dec_ascending l : ascending_ids l -> ascending_ids (dec l).
Proof.
  induction l as [|[v c] l IH]; [done|]. intros [Ha Hs]%ascending_cons. simpl.
  specialize (IH Hs). destruct (0 <? c - 1); [|done]. apply ascending_cons.
  split; [by apply dec_above|done].
Qed.

Lemma dec_total l : positive l -> Uniq.total (dec l) = Uniq.total l - zlen l.
Proof.
  unfold positive. induction l as [|[v c] l IH]; [done|]. intros [Hc Hl]%Forall_cons.
  specialize (IH Hl). rewrite zlen_cons. simpl in *. destruct (Z.ltb_spec 0 (c - 1)); simpl; lia.
Qed.

Lemma ids_above_tally v l : ids_above v l -> Uniq.tally v l = 0.
Proof.
  unfold ids_above. induction l as [|[v' c] l IH]; [done|]. intros [Hv Hl]%Forall_cons.
  specialize (IH Hl). simpl in *. rewrite decide_False by lia. done.
Qed.

Lemma tally_positive v l : positive l -> 0 <= Uniq.tally v l.
Proof.
  unfold positive. induction l as [|[v' c] l IH]; [done|]. intros [Hc Hl]%Forall_cons.
  specialize (IH Hl). simpl in *. case_decide; lia.
Qed.

Lemma dec_tally v l :
  ascending_ids l -> positive l -> Uniq.tally v (dec l) = Z.max 0 (Uniq.tally v l - 1).
Proof.
  induction l as [|[v' c] l IH]; [done|]. intros [Ha Hs]%ascending_cons Hp.
  apply Forall_cons in Hp as [Hc Hp]. specialize (IH Hs Hp). simpl in *.
  destruct (decide (v' = v)) as [->|Hne].
  - pose proof (ids_above_tally v l Ha). pose proof (ids_above_tally v (dec l) (dec_above _ _ Ha)).
    destruct (Z.ltb_spec 0 (c - 1)); simpl; [rewrite decide_True by done|]; lia.
  - destruct (0 <? c - 1); simpl; [rewrite decide_False by done|]; lia.
Qed.

Lemma dec_bound b l :
  Forall (fun c => c <= b + 1) l.*2 -> Forall (fun c => c <= b) (dec l).*2.
Proof.
  induction l as [|[v c] l IH]; [constructor|]. intros [Hc Hl]%Forall_cons. simpl.
  specialize (IH Hl). destruct (0 <? c - 1); [|done]. constructor; [simpl in *; lia|done].
Qed.

Lemma le_total l : positive l -> Forall (fun c => c <= Uniq.total l) l.*2.
Proof.
  induction l as [|[v c] l IH]; [constructor|]. intros Hp.
  pose proof (total_positive _ Hp). apply Forall_cons in Hp as [Hc Hp].
  pose proof (total_positive _ Hp). simpl in *. constructor; [simpl; lia|].
  eapply Forall_impl; [by apply IH|]. simpl. lia.
Qed.

Lemma decrement_loop_ok j l : forall pre,
  Forall (fun c => 0 < c <= INT_MAX) l ->
  decrement_loop (length l) (zlen pre) (pre ++ l ++ j) = Ok (pre ++ (Z.pred <$> l) ++ j).
Proof.
  induction l as [|c l IH]; intros pre Hl; [done|]. apply Forall_cons in Hl as [Hc Hl].
  cbn [length decrement_loop]. simpl. rewrite rd_middle. cbn [mbind res_bind].
  rewrite add_to_Ok by (unfold inS, INT_MAX in *; lia). cbn [mbind res_bind].
  rewrite wr_middle. cbn [mbind res_bind]. change (c + -1) with (Z.pred c).
  rewrite <- (zlen_snoc pre (Z.pred c)), (app_cons_snoc pre (l ++ j)), IH by done.
  by rewrite <- app_assoc.
Qed.

Definition pos_freq (x : Z * Z) : Prop := 0 < x.2.
#[local] Instance pos_freq_dec x : Decision (pos_freq x) := decide (0 < x.2).

Lemma dec_filter l : dec l = filter pos_freq ((fun x => (x.1, Z.pred x.2)) <$> l).
Proof.
  induction l as [|[v c] l IH]; [done|]. rewrite fmap_cons, filter_cons. unfold pos_freq at 1. simpl.
  rewrite IH. destruct (Z.ltb_spec 0 (c - 1)), (decide (0 < Z.pred c)); by (done || lia).
Qed.

Lemma filter_pos_cons v c l :
  filter pos_freq ((v, c) :: l)
  = if 0 <? c then (v, c) :: filter pos_freq l else filter pos_freq l.
Proof.
  rewrite filter_cons. destruct (Z.ltb_spec 0 c) as [Hc|Hc].
  - by rewrite (decide_True (P := pos_freq (v, c))).
  - rewrite (decide_False (P := pos_freq (v, c))); [done|]. unfold pos_freq. simpl. lia.
Qed.

(** The pairs kept so far are followed by a gap of cells already read. *)
Lemma drop_zeros_loop_ok j1 j2 rest : forall kept g1 g2,
  length g1 = length g2 ->
  exists t1 t2,
    drop_zeros_loop (length rest) (zlen kept + zlen g1) (zlen kept)
      (kept.*1 ++ g1 ++ rest.*1 ++ j1) (kept.*2 ++ g2 ++ rest.*2 ++ j2)
    = Ok ((kept ++ filter pos_freq rest).*1 ++ t1, (kept ++ filter pos_freq rest).*2 ++ t2,
          zlen (kept ++ filter pos_freq rest)).
Proof.
  induction rest as [|[v c] rest IH]; intros kept g1 g2 Hg.
  - exists (g1 ++ j1), (g2 ++ j2). by rewrite app_nil_r.
  - cbn [length drop_zeros_loop].
    assert (forall (a b r : list Z) x, rd (a ++ b ++ x :: r) (zlen a + zlen b) = Ok x) as Hrd.
    { intros a b r x. rewrite app_assoc, <- zlen_app. apply rd_middle. }
    assert (zlen g1 = zlen g2) as Eg by (unfold zlen; lia).
    pose proof (Hrd kept.*2 g2 (rest.*2 ++ j2) c) as R2. rewrite zlen_fmap, <- Eg in R2.
    change (((v, c) :: rest).*2 ++ j2) with (c :: rest.*2 ++ j2).
    change (((v, c) :: rest).*1 ++ j1) with (v :: rest.*1 ++ j1).
    rewrite R2. cbn [mbind res_bind]. rewrite filter_pos_cons.
    pose proof (Hrd kept.*1 g1 (rest.*1 ++ j1) v) as R1. rewrite zlen_fmap in R1.
    destruct (Z.ltb_spec 0 c) as [Hc|Hc].
    + assert (forall kk, kk = zlen (kept ++ [(v, c)]) -> forall L1 L2 h1 h2, length h1 = length h2 ->
        L1 = (kept ++ [(v, c)]).*1 ++ h1 ++ rest.*1 ++ j1 ->
        L2 = (kept ++ [(v, c)]).*2 ++ h2 ++ rest.*2 ++ j2 ->
        exists t1 t2, drop_zeros_loop (length rest) (kk + zlen h1) kk L1 L2
          = Ok ((kept ++ (v, c) :: filter pos_freq rest).*1 ++ t1,
                (kept ++ (v, c) :: filter pos_freq rest).*2 ++ t2,
                zlen (kept ++ (v, c) :: filter pos_freq rest))) as Hnext.
      { intros kk -> L1 L2 h1 h2 Hh -> ->. rewrite (app_cons_snoc kept (filter pos_freq rest)). by apply IH. }
      destruct g1 as [|x1 g1], g2 as [|x2 g2]; try done.
      * change (zlen []) with 0 in *. simpl app in *.
        rewrite (wr_freq kept v c), R1. cbn [mbind res_bind]. rewrite (wr_id kept v c).
        cbn [mbind res_bind]. replace (zlen kept + 0 + 1) with (zlen kept + 1 + zlen (A := Z) [])
          by (change (zlen (A := Z) []) with 0; lia).
        by apply (Hnext (zlen kept + 1) ltac:(by rewrite zlen_snoc) _ _ [] []).
      * simpl app in *. rewrite (wr_freq kept v c), R1. cbn [mbind res_bind].
        rewrite (wr_id kept v c). cbn [mbind res_bind].
        replace (zlen kept + zlen (x1 :: g1) + 1) with (zlen kept + 1 + zlen (g1 ++ [v]))
          by (rewrite zlen_snoc, zlen_cons; lia).
        apply (Hnext (zlen kept + 1) ltac:(by rewrite zlen_snoc) _ _ _ (g2 ++ [c]));
          [rewrite !length_app; simpl in *; lia|by rewrite <- (app_assoc g1)|
           by rewrite <- (app_assoc g2)].
    + replace (zlen kept + zlen g1 + 1) with (zlen kept + zlen (g1 ++ [v]))
        by (rewrite zlen_snoc; lia).
      rewrite (app_cons_snoc g1 (rest.*1 ++ j1)), (app_cons_snoc g2 (rest.*2 ++ j2)). apply IH. rewrite !length_app. simpl. lia.
Qed.

(** [l'] is [l] after [D] rounds. *)
Record shrunk (cs D : Z) (l l' : list (Z * Z)) : Prop := {
  sh_rounds : 0 <= D;
  sh_positive : positive l';
  sh_ascending : ascending_ids l';
  sh_size : zlen l' <= cs;
  sh_total : D * (cs + 1) + Uniq.total l' <= Uniq.total l;
  sh_tally : forall v, Uniq.tally v l' = Z.max 0 (Uniq.tally v l - D) }.

(** The loop ends: a round decreases the largest frequency. *)
Lemma shrink_loop_ok cs fuel : forall l j1 j2,
  positive l -> ascending_ids l -> Uniq.total l <= INT_MAX -> 0 <= cs ->
  Forall (fun c => c <= Z.of_nat fuel) l.*2 ->
  exists D l' t1 t2,
    shrink_loop fuel cs (l.*1 ++ j1) (l.*2 ++ j2) (zlen l) = Ok (l'.*1 ++ t1, l'.*2 ++ t2, zlen l')
    /\ shrunk cs D l l'.
Proof.
  induction fuel as [|fuel IH]; intros l j1 j2 Hp Hs Htot Hcs Hf; cbn [shrink_loop];
    (destruct (Z.ltb_spec cs (zlen l)) as [Hbig|Hsmall];
     [|exists 0, l, j1, j2; split; [done|]; constructor; try done; try lia;
       intros v; pose proof (tally_positive v l Hp); lia]).
  - destruct l as [|[v c] l]; [change (zlen []) with 0 in Hbig; lia|].
    apply Forall_cons in Hp as [Hc _], Hf as [Hf _]. simpl in *. lia.
  - rewrite to_nat_zlen.
    assert (Forall (fun c => 0 < c <= INT_MAX) l.*2) as Hr.
    { pose proof (le_total l Hp) as Hle. unfold positive in Hp. rewrite Forall_lookup in *.
      intros k c Hk. specialize (Hp _ _ Hk). specialize (Hle _ _ Hk). simpl in *. lia. }
    pose proof (decrement_loop_ok j2 l.*2 [] Hr) as Hdec. rewrite length_fmap in Hdec.
    change (decrement_loop (length l) 0 (l.*2 ++ j2) = Ok ((Z.pred <$> l.*2) ++ j2)) in Hdec.
    rewrite Hdec. cbn [mbind res_bind].
    set (m := (fun x => (x.1, Z.pred x.2)) <$> l).
    assert (m.*1 = l.*1 /\ m.*2 = Z.pred <$> l.*2) as [E1 E2].
    { unfold m. rewrite <- !list_fmap_compose. done. }
    destruct (drop_zeros_loop_ok j1 j2 m [] [] [] eq_refl) as (t1 & t2 & Hd).
    assert (length m = length l) as Em by apply length_fmap.
    rewrite Em, E1, E2, <- (dec_filter l : dec l = filter pos_freq m) in Hd.
    change (drop_zeros_loop (length l) 0 0 (l.*1 ++ j1) ((Z.pred <$> l.*2) ++ j2)
      = Ok ((dec l).*1 ++ t1, (dec l).*2 ++ t2, zlen (dec l))) in Hd. rewrite Hd. cbn [mbind res_bind].
    pose proof (dec_total l Hp) as Htd. pose proof (zlen_nonneg l).
    destruct (IH (dec l) t1 t2) as (D & l' & t1' & t2' & -> & [H1 H2 H3 H4 H5 H6]);
      [apply dec_positive|by apply dec_ascending|lia|done| |].
    { apply dec_bound. eapply Forall_impl; [exact Hf|]. simpl. lia. }
    exists (D + 1), l', t1', t2'. split; [done|]. constructor; try done; [lia|nia|].
    intros v. rewrite H6, dec_tally by done. lia.
Qed.

Lemma memcpy_ok (d l1 t : list Z) n :
  n = zlen l1 -> n <= zlen d -> memcpy d (l1 ++ t) n = Ok (l1 ++ drop (length l1) d).
Proof.
  intros -> Hl. unfold memcpy. pose proof (zlen_nonneg l1). pose proof (zlen_nonneg t).
  rewrite decide_True by (rewrite zlen_app; lia). rewrite to_nat_zlen.
  by rewrite take_app_length.
Qed.

Lemma zlen_patch (l1 d : list Z) n :
  n = length l1 -> zlen l1 <= zlen d -> zlen (l1 ++ drop n d) = zlen d.
Proof. intros ->. unfold zlen. rewrite length_app, length_drop. lia. Qed.

(** Parallel arrays of [cs] cells that start with the pairs of [l]. *)
Definition holds (cs : Z) (ids freqs : list Z) (l : list (Z * Z)) : Prop :=
  exists j1 j2, ids = l.*1 ++ j1 /\ freqs = l.*2 ++ j2 /\ zlen ids = cs /\ zlen freqs = cs.

Lemma holds_size cs ids freqs l : holds cs ids freqs l -> zlen l <= cs.
Proof.
  intros (j1 & j2 & -> & -> & Hl & _). rewrite zlen_app, zlen_fmap in Hl.
  pose proof (zlen_nonneg j1). lia.
Qed.

Lemma foldr_max_le l : Forall (fun c => c <= foldr Z.max 0 l) l.
Proof.
  induction l as [|x l IH]; [constructor|]. simpl. constructor; [lia|].
  eapply Forall_impl; [exact IH|]. simpl. lia.
Qed.

(** The counters after a packet. *)
Lemma update_counter_ok cs ci cf c bi bf b n :
  holds cs ci cf c -> holds n bi bf b -> 0 <= cs ->
  positive c -> positive b -> ascending_ids c -> ascending_ids b ->
  Uniq.total c + Uniq.total b <= INT_MAX ->
  exists D l ci' cf',
    update_counter ci cf cs (zlen c) bi bf (zlen b) = Ok (ci', cf', zlen l)
    /\ holds cs ci' cf' l /\ shrunk cs D (madd c b) l.
Proof.
  intros (j1 & j2 & -> & -> & Hci & Hcf) (k1 & k2 & -> & -> & _) Hcs Hpc Hpb Hsc Hsb Htot.
  unfold update_counter. set (n' := Z.to_nat (zlen c + zlen b)).
  assert (n' = (length c + length b)%nat) as En by (unfold n', zlen; lia).
  pose proof (merge_loop_ok j1 j2 k1 k2 (S n') [] c [] b [] (replicate n' 0) (replicate n' 0)) as Hm.
  simpl app in Hm. change (zlen []) with 0 in Hm. change ([].*1 ++ ?x) with x in Hm.
  rewrite Hm by (rewrite ?length_replicate; done || lia). clear Hm. cbn [mbind res_bind].
  set (m := madd c b). pose proof (madd_total c b) as Htm. fold m in Htm.
  set (t := drop (length m) (replicate n' 0)).
  pose proof (foldr_max_le (m.*2 ++ t)) as Hmax. apply Forall_app in Hmax as [Hmax _].
  destruct (shrink_loop_ok cs (S (Z.to_nat (foldr Z.max 0 (m.*2 ++ t)))) m t t)
    as (D & l & t1 & t2 & -> & Hsh);
    [by apply madd_positive|by apply madd_ascending|lia|done| |].
  { eapply Forall_impl; [exact Hmax|]. simpl. lia. }
  cbn [mbind res_bind]. pose proof (sh_size _ _ _ _ Hsh) as Hl.
  rewrite memcpy_ok by (rewrite ?zlen_fmap; lia). cbn [mbind res_bind].
  rewrite memcpy_ok by (rewrite ?zlen_fmap; lia). cbn [mbind res_bind].
  exists D, l. do 2 eexists. split; [done|]. split; [|done].
  do 2 eexists. split; [done|]. split; [done|]. by rewrite !zlen_patch by (rewrite ?zlen_fmap; done || lia).
Qed.

(** ** Packets *)

Lemma fst_ones p : (ones p).*1 = p.
Proof. unfold ones. rewrite <- list_fmap_compose. apply list_fmap_id. Qed.

Lemma packet_ascending p :
  StronglySorted Z.le p -> ascending_ids (Uniq.runs (ones p)).
Proof.
  intros Hs. unfold ascending_ids. destruct p as [|a p]; [constructor|].
  apply Uniq.runs_from_sorted. change (map _ p) with (ones p). by rewrite fst_ones.
Qed.

Lemma packet_positive p : positive (Uniq.runs (ones p)).
Proof.
  unfold positive. destruct p as [|a p]; [constructor|].
  apply Uniq.runs_from_counts; [intros; lia|lia|]. apply Forall_fmap, Forall_fmap. simpl.
  apply Forall_true. intros. simpl. lia.
Qed.

Lemma packet_length p : p <> [] -> (length (Uniq.runs (ones p)) <= length p)%nat.
Proof.
  destruct p as [|a p]; [done|]. intros _. pose proof (Uniq.runs_from_length (ones p) a 1) as Hl.
  assert (length (ones p) = length p) as E by apply length_fmap. rewrite E in Hl.
  change (Uniq.runs (ones (a :: p))) with (Uniq.runs_from a 1 (ones p)). simpl. lia.
Qed.

(** What the counters say about the elements [S] seen so far: no frequency is
    over, none is more than [D] under, and [D] is small. *)
Record summary (cs : Z) (S : list Z) (D : Z) (l : list (Z * Z)) : Prop := {
  su_rounds : 0 <= D;
  su_positive : positive l;
  su_ascending : ascending_ids l;
  su_total : D * (cs + 1) + Uniq.total l <= zlen S;
  su_tally : forall v, occ v S - D <= Uniq.tally v l <= occ v S }.

Definition counters_ok (cs : Z) (S : list Z) (s : counters) : Prop :=
  exists D l, holds cs (cntr_id s) (cntr_freq s) l /\ active_cntr_siz s = zlen l /\
    zlen (bf_id s) = cs /\ zlen (bf_freq s) = cs /\ summary cs S D l.

(** One packet, from its sorting to the update. *)
Lemma packet_ok cs S p packets s :
  counters_ok cs S s -> p <> [] -> zlen p <= cs -> cs < 2 ^ 60 -> zlen (S ++ p) <= INT_MAX ->
  exists s', process_packets (p :: packets) cs s = process_packets packets cs s' /\
    counters_ok cs (S ++ p) s'.
Proof.
  intros (D & l & Hh & Ha & Hbi & Hbf & [H1 H2 H3 H4 H5]) Hne Hp Hcs Hmax. simpl.
  pose proof (zlen_nonneg p). pose proof (zlen_nonneg S).
  destruct (Z.eqb_spec (zlen p) 0) as [E|_].
  { destruct p; [done|]. rewrite zlen_cons in E. pose proof (zlen_nonneg p). lia. }
  destruct (Qsort.qsort_asc_I4_ok p ltac:(lia)) as (p' & -> & Hperm & Hsort). cbn [mbind res_bind].
  assert (zlen p' = zlen p) as El by (unfold zlen; by rewrite Hperm).
  assert (p' <> []) as Hne' by (intros ->; by apply Permutation_nil_r in Hperm).
  rewrite zlen_app in Hmax.
  rewrite sorted_array_to_id_freq_ok by (done || unfold zlen in *; lia). cbn [mbind res_bind].
  set (b := Uniq.runs (ones p')).
  pose proof (packet_length p' Hne') as Hlen. fold b in Hlen.
  assert (Uniq.total b = zlen p') as Hb by (unfold b; by rewrite total_runs, total_of_ones).
  destruct (update_counter_ok cs (cntr_id s) (cntr_freq s) l
    (b.*1 ++ drop (length b) (bf_id s)) (b.*2 ++ drop (length b) (bf_freq s)) b cs)
    as (D' & l' & ci' & cf' & Hu & Hh' & [G1 G2 G3 G4 G5 G6]); try done; try lia.
  { do 2 eexists. split; [done|]. split; [done|].
    rewrite !zlen_patch by (rewrite ?length_fmap, ?zlen_fmap; done || (unfold zlen in *; lia)). done. }
  { apply packet_positive. } { by apply packet_ascending. }
  { nia. }
  rewrite Ha, Hu. cbn [mbind res_bind]. eexists. split; [done|].
  exists (D + D'), l'. cbn [cntr_id cntr_freq active_cntr_siz bf_id bf_freq].
  split; [done|]. split; [done|].
  do 2 (split; [rewrite zlen_patch by (rewrite ?length_fmap, ?zlen_fmap;
                                        done || (unfold zlen in *; lia)); done|]).
  rewrite madd_total, Hb in G5.
  constructor; try done; [lia|rewrite zlen_app; nia|].
  intros v. specialize (H5 v). specialize (G6 v).
  rewrite madd_tally in G6. unfold b in G6 at 1. rewrite tally_runs, tally_ones in G6.
  rewrite <- (occ_perm v p p' Hperm) in G6. rewrite occ_app.
  pose proof (occ_nonneg v p). pose proof (occ_nonneg v S). lia.
Qed.

Lemma process_packets_ok cs k packets : forall S s,
  counters_ok cs S s -> Forall (fun p => p <> [] /\ zlen p <= cs) packets -> cs < 2 ^ 60 ->
  zlen (S ++ concat packets) <= INT_MAX ->
  exists s', process_packets (packets ++ replicate k []) cs s = Ok s' /\
    counters_ok cs (S ++ concat packets) s'.
Proof.
  induction packets as [|p packets IH]; intros S s Hs Hp Hcs Hmax.
  - exists s. simpl. rewrite app_nil_r. split; [by destruct k|done].
  - apply Forall_cons in Hp as [[Hne Hp] Hps]. simpl concat in *.
    assert (zlen (S ++ p) <= INT_MAX) as Hmax'.
    { rewrite !zlen_app in *. pose proof (zlen_nonneg (concat packets)). lia. }
    destruct (packet_ok cs S p (packets ++ replicate k []) s Hs Hne Hp Hcs Hmax') as (s' & E & Hs').
    change ((p :: packets) ++ ?r) with (p :: packets ++ r). rewrite E, (app_assoc S p).
    apply IH; [done..|]. by rewrite <- app_assoc.
Qed.

(** ** Blocks *)

(** The elements that [cfld] selects. *)
Fixpoint chosen (x c : list Z) : list Z :=
  match x, c with
  | v :: x, s :: c => if s =? 0 then chosen x c else v :: chosen x c
  | _, _ => []
  end.

Definition elements (x : list Z) (cfld : option (list Z)) : list Z :=
  match cfld with None => x | Some c => chosen x c end.

Lemma chosen_length x : forall c, (length (chosen x c) <= length x)%nat.
Proof.
  induction x as [|v x IH]; intros [|s c]; simpl; try lia.
  specialize (IH c). destruct (s =? 0); simpl; lia.
Qed.

Lemma chosen_all x : forall c,
  length x = length c -> zlen (chosen x c) = zlen x -> chosen x c = x.
Proof.
  unfold zlen. induction x as [|v x IH]; intros [|s c] Hl He; simpl in *; try done.
  pose proof (chosen_length x c). destruct (s =? 0); simpl in *; [lia|].
  rewrite IH by lia. done.
Qed.

Lemma count_selected_ok x2 : forall c1 c2 e,
  length x2 = length c2 ->
  count_selected (length c2) (c1 ++ c2) (zlen c1) e = Ok (e + zlen (chosen x2 c2)).
Proof.
  induction x2 as [|v x IH]; intros c1 [|s c2] e Hl; try done; [by rewrite Z.add_0_r|].
  cbn [length count_selected]. rewrite rd_middle. cbn [mbind res_bind].
  rewrite <- (zlen_snoc c1 s), (app_cons_snoc c1 c2 s).
  rewrite IH by (simpl in Hl; lia). simpl. destruct (s =? 0); [done|]. rewrite zlen_cons. f_equal. lia.
Qed.

(** What [next_block] delivers: packets of at most [cs] elements, the used
    ones first, that hold the elements up to the new position. *)
Definition good_packets (cs : Z) (packets : list (list Z)) : Prop :=
  exists full k, packets = full ++ replicate k [] /\ Forall (fun p => p <> [] /\ zlen p <= cs) full.

Definition delivers (R : Z -> list Z) (siz cs cur : Z) (r : res (Z * list (list Z))) : Prop :=
  exists cur' packets, r = Ok (cur', packets) /\ cur < cur' <= siz /\
    good_packets cs packets /\ R cur = concat packets ++ R cur'.

Lemma concat_nils k : concat (replicate k ([] : list Z)) = [].
Proof. by induction k. Qed.

Lemma good_packets_concat full k : concat (full ++ replicate k ([] : list Z)) = concat full.
Proof. by rewrite concat_app, concat_nils, app_nil_r. Qed.

(** The packets when all elements are selected. *)
Lemma fill_packet_slice x cur cs tid :
  0 <= cur + tid * cs -> 0 < cs ->
  fill_packet x (zlen x) cur cs tid
  = Ok (take (Z.to_nat cs) (drop (Z.to_nat (cur + tid * cs)) x)).
Proof.
  intros Hlb Hcs. unfold fill_packet. set (lb := cur + tid * cs) in *.
  destruct (Z.leb_spec (zlen x) lb).
  - rewrite drop_ge by (unfold zlen in *; lia). by rewrite take_nil.
  - destruct (Z.leb_spec (zlen x) (lb + cs)); rewrite decide_True by lia.
    + by rewrite !take_ge by (rewrite length_drop; unfold zlen in *; lia).
    + do 3 f_equal. lia.
Qed.

Lemma good_packets_cons cs p ps :
  p <> [] -> zlen p <= cs -> good_packets cs ps -> good_packets cs (p :: ps).
Proof. intros Hne Hp (full & k & -> & Hf). exists (p :: full), k. split; [done|]. by constructor. Qed.

Lemma good_packets_nil cs n : good_packets cs (replicate n []).
Proof. exists [], n. split; [done|constructor]. Qed.

Lemma fill_packets_end x cur cs n : forall tid,
  0 < cs -> zlen x <= cur + tid * cs -> 0 <= cur + tid * cs ->
  for_map (fill_packet x (zlen x) cur cs) tid n = Ok (replicate n []).
Proof.
  induction n as [|n IH]; intros tid Hcs Hend Hlb; [done|]. cbn [for_map].
  rewrite fill_packet_slice, drop_ge, take_nil by (done || (unfold zlen in *; lia)).
  cbn [mbind res_bind]. by rewrite IH by nia.
Qed.

Lemma fill_packets_ok x cur cs n : forall tid,
  0 < cs -> 0 <= cur + tid * cs ->
  exists packets,
    for_map (fill_packet x (zlen x) cur cs) tid n = Ok packets /\ good_packets cs packets /\
    exists r, drop (Z.to_nat (cur + tid * cs)) x = concat packets ++ r /\
      ((0 < n)%nat -> cur + tid * cs < zlen x -> concat packets <> []).
Proof.
  induction n as [|n IH]; intros tid Hcs Hlb.
  - exists []. split; [done|]. split; [apply (good_packets_nil cs 0)|].
    eexists. split; [done|]. lia.
  - destruct (Z.leb_spec (zlen x) (cur + tid * cs)) as [Hend|Hin].
    + eexists. rewrite fill_packets_end by done. split; [done|].
      split; [apply good_packets_nil|]. exists [].
      rewrite concat_nils, drop_ge by (unfold zlen in *; lia). split; [done|lia].
    + destruct (IH (tid + 1)) as (ps & E & Hg & r & Hr & _); [done|nia|].
      cbn [for_map]. rewrite fill_packet_slice, E by done. cbn [mbind res_bind].
      set (lb := cur + tid * cs) in *. set (p := take (Z.to_nat cs) (drop (Z.to_nat lb) x)).
      assert (0 < zlen p <= cs) as Hp.
      { unfold p, zlen in *. rewrite length_take, length_drop. lia. }
      assert (p <> []) as Hne by (intros E'; rewrite E' in Hp; change (zlen []) with 0 in Hp; lia).
      exists (p :: ps). split; [done|]. split; [apply good_packets_cons; [done|lia|done]|].
      exists r. split; [|intros _ _ [Ep _]%app_eq_nil; exact (Hne Ep)].
      simpl. rewrite <- app_assoc, <- Hr. unfold p.
      rewrite <- (take_drop (Z.to_nat cs) (drop (Z.to_nat lb) x)) at 1.
      rewrite drop_drop. do 2 f_equal. unfold lb in *. nia.
Qed.

Lemma sum_len_concat packets : sum_len packets = zlen (concat packets).
Proof. induction packets as [|p ps IH]; [done|]. simpl. by rewrite zlen_app, <- IH. Qed.

Lemma next_block_all x cfld eff_siz N cs cur :
  0 < cs -> 0 < N -> 0 <= cur < zlen x ->
  match cfld with None => True | Some _ => eff_siz = zlen x end ->
  delivers (fun cur => drop (Z.to_nat cur) x) (zlen x) cs cur
    (next_block x cfld (zlen x) eff_siz N cs cur).
Proof.
  intros Hcs HN Hcur He.
  destruct (fill_packets_ok x cur cs (Z.to_nat N) 0) as (ps & E & Hg & r & Hr & Hne); [lia..|].
  replace (cur + 0 * cs) with cur in * by lia. specialize (Hne ltac:(lia) ltac:(lia)).
  assert (0 < zlen (concat ps)) as Hpos by (destruct (concat ps); [done|]; unfold zlen; simpl; lia).
  assert (zlen (concat ps) + zlen r = zlen x - cur) as Hlen.
  { rewrite <- zlen_app, <- Hr. unfold zlen in *. rewrite length_drop. lia. }
  pose proof (zlen_nonneg r).
  exists (cur + sum_len ps), ps. rewrite sum_len_concat.
  split; [|split; [lia|split; [done|]]].
  - unfold next_block. rewrite E. cbn [mbind res_bind]. rewrite sum_len_concat.
    destruct cfld; [|done]. subst. by rewrite Z.eqb_refl.
  - rewrite Hr. f_equal. replace (Z.to_nat (cur + zlen (concat ps)))
      with (Z.to_nat cur + length (concat ps))%nat by (unfold zlen in *; lia).
    rewrite <- drop_drop, Hr. by rewrite drop_app_length.
Qed.

(** The packets when [cfld] selects. *)
Definition rest_of (x c : list Z) (cur : Z) : list Z :=
  chosen (drop (Z.to_nat cur) x) (drop (Z.to_nat cur) c).

Lemma rest_step x c cur v s :
  0 <= cur -> rd x cur = Ok v -> rd c cur = Ok s ->
  rest_of x c cur = (if s =? 0 then [] else [v]) ++ rest_of x c (cur + 1).
Proof.
  intros Hcur Hx%rd_Ok Hc%rd_Ok. rewrite zlookup_to_nat in Hx, Hc by done. unfold rest_of.
  rewrite (drop_S x v _ Hx), (drop_S c s _ Hc). replace (Z.to_nat (cur + 1)) with (S (Z.to_nat cur)) by lia.
  simpl. by destruct (s =? 0).
Qed.

Lemma fill_selected_done n x c siz cs cur packets :
  fill_selected n x c siz (zlen packets) cs cur (zlen packets) packets
  = Ok (cur, zlen packets, packets).
Proof. destruct n; cbn [fill_selected]; by rewrite Z.ltb_irrefl, andb_false_r. Qed.

(** The loop ends with all packets full, or at the end of the input with one
    that is not. *)
Definition filled (siz cs N : Z) (cur tid : Z) (full packets : list (list Z)) : Prop :=
  Forall (fun q => zlen q = cs) full /\ tid = zlen full /\ zlen packets = N /\
  (packets = full /\ tid = N \/
   exists p k, packets = full ++ p :: replicate k [] /\ zlen p < cs /\ cur = siz).

Lemma fill_selected_ok x c cs n : forall cur done p k,
  zlen c = zlen x -> 0 <= cur <= zlen x -> Z.of_nat n = zlen x - cur ->
  Forall (fun q => zlen q = cs) done -> zlen p < cs ->
  let packets := done ++ p :: replicate k [] in
  exists cur' tid full ps,
    fill_selected n x c (zlen x) (zlen packets) cs cur (zlen done) packets = Ok (cur', tid, ps)
    /\ cur <= cur' <= zlen x /\ (cur < zlen x -> cur < cur')
    /\ filled (zlen x) cs (zlen packets) cur' tid full ps
    /\ exists taken, concat ps = concat done ++ p ++ taken /\ rest_of x c cur = taken ++ rest_of x c cur'.
Proof.
  induction n as [|n IH]; intros cur done p k Hc Hcur Hn Hdone Hp packets; cbn [fill_selected].
  - rewrite (proj2 (Z.ltb_ge cur (zlen x))) by lia. simpl. exists cur, (zlen done), done, packets.
    split; [done|]. split; [lia|]. split; [lia|]. split; [|exists []; split; [|done]].
    + split; [done|]. split; [done|]. split; [done|]. right. exists p, k. split; [done|].
      split; [done|]. lia.
    + unfold packets. rewrite concat_app. simpl. by rewrite concat_nils.
  - assert (zlen packets = zlen done + 1 + Z.of_nat k) as HN.
    { unfold packets, zlen. rewrite length_app. simpl. rewrite length_replicate. lia. }
    rewrite (proj2 (Z.ltb_lt cur (zlen x))), (proj2 (Z.ltb_lt (zlen done) _)) by lia.
    cbn [andb]. destruct (rd_total x cur ltac:(lia)) as [v Hv].
    destruct (rd_total c cur ltac:(lia)) as [s Hs]. rewrite Hs. cbn [mbind res_bind].
    rewrite (rest_step x c cur v s) by (done || lia). destruct (s =? 0).
    + destruct (IH (cur + 1) done p k) as (cur' & tid & full & ps & E & H1 & _ & H2 & H3);
        [done|lia..|done|lia|].
      exists cur', tid, full, ps. fold packets in E, H2. split; [done|]. split; [lia|].
      split; [lia|]. done.
    + rewrite Hv. cbn [mbind res_bind]. unfold packets at 2 3. rewrite rd_middle. cbn [mbind res_bind].
      rewrite (proj2 (Z.ltb_lt (zlen p) cs)), wr_middle by lia. cbn [mbind res_bind].
      rewrite <- (zlen_snoc p v). set (p' := p ++ [v]).
      assert (zlen p' = zlen p + 1) as Hp' by (unfold p'; by rewrite zlen_snoc).
      assert (zlen packets = zlen (done ++ p' :: replicate k [])) as EN
        by (unfold packets, zlen; rewrite !length_app; done).
      rewrite EN. destruct (Z.eqb_spec (zlen p') cs) as [Hfull|Hpart].
      * rewrite <- (zlen_snoc done p'), (app_cons_snoc done).
        assert (Forall (fun q => zlen q = cs) (done ++ [p'])) as Hdone'.
        { apply Forall_app. split; [done|]. by constructor. }
        destruct k as [|k].
        -- simpl replicate. rewrite app_nil_r, fill_selected_done.
           exists (cur + 1), (zlen (done ++ [p'])), (done ++ [p']), (done ++ [p']).
           split; [done|]. split; [lia|]. split; [lia|].
           split; [split; [done|]; split; [done|]; split; [done|]; by left|].
           exists [v]. split; [|done]. rewrite concat_app. simpl. by rewrite app_nil_r.
        -- simpl replicate.
           destruct (IH (cur + 1) (done ++ [p']) [] k)
             as (cur' & tid & full & ps & -> & H1 & _ & H2 & taken & H3 & H4);
             [done|lia..|done|change (zlen []) with 0; pose proof (zlen_nonneg p); lia|].
           exists cur', tid, full, ps. split; [done|]. split; [lia|]. split; [lia|]. split; [done|].
           exists (v :: taken). rewrite H3, H4, concat_app. simpl. rewrite app_nil_r. unfold p'.
           by rewrite <- !app_assoc.
      * destruct (IH (cur + 1) done p' k)
          as (cur' & tid & full & ps & -> & H1 & _ & H2 & taken & H3 & H4); [done|lia..|done|lia|].
        exists cur', tid, full, ps. split; [done|]. split; [lia|]. split; [lia|]. split; [done|].
        exists (v :: taken). rewrite H3, H4. unfold p'. by rewrite <- !app_assoc.
Qed.

(** A block of [N] empty packets is filled. *)
Lemma fill_block_ok x c cs N cur :
  0 < cs -> 0 < N -> 0 <= cur < zlen x -> zlen c = zlen x ->
  exists cur' tid full ps,
    fill_selected (Z.to_nat (zlen x - cur)) x c (zlen x) N cs cur 0 (replicate (Z.to_nat N) [])
      = Ok (cur', tid, ps)
    /\ cur < cur' <= zlen x /\ filled (zlen x) cs N cur' tid full ps
    /\ rest_of x c cur = concat ps ++ rest_of x c cur'.
Proof.
  intros Hcs HN Hcur Hc.
  destruct (fill_selected_ok x c cs (Z.to_nat (zlen x - cur)) cur [] [] (Nat.pred (Z.to_nat N)))
    as (cur' & tid & full & ps & E & H1 & H2 & H3 & taken & H4 & H5);
    [done|lia..|constructor|done|].
  assert (replicate (Z.to_nat N) ([] : list Z) = [] ++ [] :: replicate (Nat.pred (Z.to_nat N)) []) as ->
    by (by destruct (Z.to_nat N) eqn:?; [lia|]).
  assert (zlen ([] ++ ([] : list Z) :: replicate (Nat.pred (Z.to_nat N)) []) = N) as EN
    by (unfold zlen; simpl; rewrite length_replicate; lia).
  rewrite EN in E, H3. change (zlen []) with 0 in E. exists cur', tid, full, ps.
  split; [done|]. split; [lia|]. split; [done|]. simpl in H4. by rewrite H4.
Qed.

Lemma filled_good siz cs N cur tid full ps :
  0 < cs -> filled siz cs N cur tid full ps -> good_packets cs ps.
Proof.
  intros Hcs (Hf & _ & _ & Hps).
  assert (Forall (fun p => p <> [] /\ zlen p <= cs) full) as Hg.
  { eapply Forall_impl; [exact Hf|]. simpl. intros p Hp. split; [|lia]. intros ->.
    change (zlen []) with 0 in Hp. lia. }
  destruct Hps as [[-> _]|([|v p] & k & -> & Hp & _)].
  - exists full, 0%nat. by rewrite app_nil_r.
  - exists full, (S k). by split.
  - exists (full ++ [v :: p]), k. split; [by rewrite <- app_assoc|].
    apply Forall_app. split; [done|]. constructor; [split; [done|lia]|constructor].
Qed.

Lemma next_block_selected x c eff_siz N cs cur :
  0 < cs -> 0 < N -> 0 <= cur < zlen x -> zlen c = zlen x -> eff_siz <> zlen x ->
  delivers (rest_of x c) (zlen x) cs cur (next_block x (Some c) (zlen x) eff_siz N cs cur).
Proof.
  intros Hcs HN Hcur Hc He. unfold next_block. rewrite (proj2 (Z.eqb_neq _ _) He).
  destruct (fill_block_ok x c cs N cur) as (cur' & tid & full & ps & -> & H1 & H2 & H3); [done..|].
  exists cur', ps. cbn [mbind res_bind]. split; [done|]. split; [lia|].
  split; [by eapply filled_good|done].
Qed.

(** ** The whole run *)

Lemma block_loop_ok R x cfld siz eff_siz N cs fuel :
  cs < 2 ^ 60 -> R siz = [] ->
  (forall cur, 0 <= cur < siz -> delivers R siz cs cur (next_block x cfld siz eff_siz N cs cur)) ->
  forall cur S s, 0 <= cur <= siz -> siz - cur <= Z.of_nat fuel ->
  counters_ok cs S s -> zlen (S ++ R cur) <= INT_MAX ->
  exists s', block_loop fuel x cfld siz eff_siz N cs cur s = Ok s' /\ counters_ok cs (S ++ R cur) s'.
Proof.
  intros Hcs Hend Hnext. induction fuel as [|fuel IH]; intros cur S s Hcur Hf Hs Hmax;
    cbn [block_loop]; (destruct (Z.ltb_spec cur siz) as [Hlt|Hge];
      [|assert (cur = siz) as -> by lia; rewrite Hend, app_nil_r; by exists s]); [lia|].
  destruct (Hnext cur ltac:(lia)) as (cur' & ps & -> & Hcur' & (full & k & -> & Hfull) & HR).
  cbn [mbind res_bind]. rewrite good_packets_concat in HR.
  rewrite HR, app_assoc in Hmax |- *.
  destruct (process_packets_ok cs k full S s) as (s' & -> & Hs'); [done..| |].
  { rewrite zlen_app in Hmax. pose proof (zlen_nonneg (R cur')). lia. }
  cbn [mbind res_bind]. apply IH; [lia|lia|done|done].
Qed.

Lemma threads_loop_ok cs :
  cs * (1 + 2 + 6) <= MAX_SZ -> exists N, threads_loop 8 cs 128 = Ok N /\ 0 < N.
Proof.
  intros Hcs. cbn [threads_loop].
  repeat match goal with
  | |- context [MAX_SZ <? ?y] =>
      destruct (Z.ltb_spec MAX_SZ y); [|eexists; split; [reflexivity|vm_compute; reflexivity]]
  end.
  exfalso. change (128 / 2 / 2 / 2 / 2 / 2 / 2 / 2) with 1 in *. lia.
Qed.

Definition at_least (thresh : Z) (l : list (Z * Z)) : list (Z * Z) :=
  filter (fun p => thresh <= p.2) l.

Lemma at_least_cons thresh v g l :
  at_least thresh ((v, g) :: l)
  = if thresh <=? g then (v, g) :: at_least thresh l else at_least thresh l.
Proof.
  unfold at_least. rewrite filter_cons. simpl. destruct (Z.leb_spec thresh g); case_decide; by (done || lia).
Qed.

Lemma output_loop_ok thresh j1 j2 l2 : forall l1 out y f,
  let outs := at_least thresh l2 in
  (length outs <= length y)%nat -> (length outs <= length f)%nat ->
  output_loop (length l2) ((l1 ++ l2).*1 ++ j1) ((l1 ++ l2).*2 ++ j2) thresh (zlen l1) (zlen out)
    (out.*1 ++ y) (out.*2 ++ f)
  = Ok ((out ++ outs).*1 ++ drop (length outs) y, (out ++ outs).*2 ++ drop (length outs) f,
        zlen (out ++ outs)).
Proof.
  induction l2 as [|[v g] l2 IH]; intros l1 out y f outs Hy Hf; unfold outs in *; clear outs.
  - simpl. by rewrite !app_nil_r, !drop_0.
  - cbn [length output_loop]. rewrite rd_freqs. cbn [mbind res_bind].
    rewrite at_least_cons in Hy, Hf |- *.
    rewrite <- (zlen_snoc l1 (v, g)).
    destruct (Z.leb_spec thresh g) as [Hg|Hg].
    + rewrite rd_ids. cbn [mbind res_bind]. two_tails y f. rewrite (wr_id out v g).
      cbn [mbind res_bind]. rewrite (wr_freq out v g). cbn [mbind res_bind].
      rewrite <- (zlen_snoc out (v, g)), (app_cons_snoc l1 l2).
      rewrite IH by (simpl in *; lia). by rewrite <- (app_cons_snoc out).
    + rewrite (app_cons_snoc l1 l2). by apply IH.
Qed.

Lemma at_least_total thresh l :
  0 < thresh -> positive l -> zlen (at_least thresh l) * thresh <= Uniq.total l.
Proof.
  intros Ht. induction l as [|[v g] l IH]; [done|]. intros [Hg Hl]%Forall_cons.
  specialize (IH Hl). rewrite at_least_cons. simpl in Hg |- *.
  destruct (Z.leb_spec thresh g); [rewrite zlen_cons|]; lia.
Qed.

(** The arithmetic of two roundings: [a / A] is about [err / n] and [p / P]
    about [A / a]. *)
Lemma two_roundings K err n a A p P t :
  2 ^ 53 <= K -> 0 < err < n -> n <= INT_MAX -> 0 < a -> 0 < A -> 0 < P ->
  K * (a * n) <= (K + 1) * (err * A) -> (K - 1) * (A * P) <= K * (p * a) ->
  p < (t + 1) * P -> 0 <= t -> n < (err + 1) * (t + 2).
Proof.
  unfold INT_MAX. intros HK Herr Hn Ha HA HP H1 H2 Ht Ht0.
  assert ((K - 1) * A < K * (t + 1) * a) as H3.
  { apply (Z.mul_lt_mono_pos_r P); [done|].
    assert (K * a * p < K * a * ((t + 1) * P)) by (apply Z.mul_lt_mono_pos_l; nia). lia. }
  assert ((K - 1) * n < (K + 1) * (err * (t + 1))) as H4.
  { apply (Z.mul_lt_mono_pos_r A); [done|].
    assert ((K - 1) * A * n < K * (t + 1) * a * n) by (apply Z.mul_lt_mono_pos_r; lia).
    assert ((t + 1) * (K * (a * n)) <= (t + 1) * ((K + 1) * (err * A)))
      by (apply Z.mul_le_mono_nonneg_l; lia). lia. }
  clear H1 H2 H3 Ha HA HP Ht.
  destruct (Z.lt_ge_cases n ((err + 1) * (t + 2))) as [|Hno]; [done|]. exfalso.
  assert ((K - 1) * ((err + 1) * (t + 2)) <= (K - 1) * n) by (apply Z.mul_le_mono_nonneg_l; lia).
  assert (err * (t + 1) <= n) by lia. nia.
Qed.

(** The double that [eps] is, and its inverse. *)
Lemma eps_of_ratio err n :
  0 < err <= INT_MAX -> 0 < n <= INT_MAX ->
  exists d, 0 < d /\ eps_of err n = round_ratio (err * d) (n * d).
Proof.
  unfold INT_MAX. intros Herr Hn.
  pose proof (of_Z_exact err ltac:(lia)) as Ex. pose proof (of_Z_exact n ltac:(lia)) as En.
  pose proof (dden_pos (of_Z err)) as Hdx. pose proof (dden_pos (of_Z n)) as Hdn.
  exists (dden (of_Z err) * dden (of_Z n)). split; [nia|].
  unfold eps_of, ddiv. rewrite Ex, En. f_equal; ring.
Qed.

Lemma inverse_ratio e :
  exists d, 0 < d /\ ddiv (of_Z 1) e = round_ratio (d * dden e) (d * dnum e).
Proof.
  pose proof (of_Z_exact 1 ltac:(lia)) as E1. exists (dden (of_Z 1)). split; [apply dden_pos|].
  unfold ddiv. by rewrite E1, Z.mul_1_l.
Qed.

Lemma trunc_inverse err n e q d d1 :
  0 < err < n -> n <= INT_MAX -> 0 < d -> 0 < d1 ->
  e = round_ratio (err * d) (n * d) -> q = round_ratio (d1 * dden e) (d1 * dnum e) ->
  n < (err + 1) * (trunc q + 2).
Proof.
  intros Herr Hn Hd Hd1 Ee Eq.
  destruct (round_ratio_err (err * d) (n * d)) as [He Her]; [nia|nia|]. rewrite <- Ee in He, Her.
  pose proof (dnum_pos e He) as Ha. pose proof (dden_pos e) as HA.
  destruct (round_ratio_err (d1 * dden e) (d1 * dnum e)) as [Hq Hqr]; [nia|nia|].
  rewrite <- Eq in Hq, Hqr. pose proof (dden_pos q) as HP. pose proof (dnum_pos q Hq) as Hp.
  apply (two_roundings (2 ^ 53) err n (dnum e) (dden e) (dnum q) (dden q)); try done.
  - apply (Z.mul_le_mono_pos_r _ _ d); [done|]. lia.
  - apply (Z.mul_le_mono_pos_r _ _ d1); [done|]. lia.
  - unfold trunc. pose proof (Z.mod_pos_bound (dnum q) (dden q) HP).
    pose proof (Z.div_mod (dnum q) (dden q) ltac:(lia)). lia.
  - apply Z.div_pos; lia.
Qed.

Lemma counters_of_pos e : 0 < counters_of e.
Proof. unfold counters_of. destruct (Z.ltb_spec (trunc (ddiv (of_Z 1) e) + 1) 10000); lia. Qed.

(** Enough counters for the error asked for: rounding does not matter. *)
Lemma counters_suffice err n :
  0 < err -> 0 < n <= INT_MAX -> n < (err + 1) * (counters_of (eps_of err n) + 1).
Proof.
  intros Herr Hn.
  assert (trunc (ddiv (of_Z 1) (eps_of err n)) + 1 <= counters_of (eps_of err n)
    /\ 0 <= counters_of (eps_of err n)) as [Hc Hc'].
  { unfold counters_of. destruct (Z.ltb_spec (trunc (ddiv (of_Z 1) (eps_of err n)) + 1) 10000); lia. }
  destruct (Z.le_gt_cases n err) as [Hbig|Hsmall]; [nia|].
  destruct (eps_of_ratio err n) as (d & Hd & Ee); [lia..|].
  destruct (inverse_ratio (eps_of err n)) as (d1 & Hd1 & Eq).
  assert (n < (err + 1) * (trunc (ddiv (of_Z 1) (eps_of err n)) + 2)) as Hfin
    by (apply (trunc_inverse err n (eps_of err n) _ d d1); (exact Ee || exact Eq || lia)).
  eapply Z.lt_le_trans; [exact Hfin|]. apply Z.mul_le_mono_nonneg_l; lia.
Qed.

Lemma eps_not_tiny err n : 0 < err -> 0 < n <= INT_MAX -> dlt (eps_of err n) (pow2 (-50)) = false.
Proof.
  unfold INT_MAX. intros Herr Hn. apply Z.ltb_ge. change (dnum (pow2 (-50))) with 1.
  change (dden (pow2 (-50))) with (2 ^ 50).
  destruct (round_ratio_err err 1) as [Hx Hxr]; [lia..|]. change (round_ratio err 1) with (of_Z err) in *.
  pose proof (of_Z_exact n ltac:(lia)) as En. pose proof (dden_pos (of_Z n)) as Hdn.
  pose proof (dnum_pos _ Hx) as Hnx. pose proof (dden_pos (of_Z err)) as Hdx.
  unfold eps_of, ddiv. rewrite En. revert Hxr Hnx Hdx Hdn.
  generalize (dnum (of_Z err)), (dden (of_Z err)), (dden (of_Z n)). intros p q d Hxr Hp Hq Hd.
  destruct (round_ratio_err (p * d) (q * (n * d))) as [He Her]; [nia|nia|].
  revert Her. pose proof (dnum_pos _ He). pose proof (dden_pos (round_ratio (p * d) (q * (n * d)))).
  generalize dependent (round_ratio (p * d) (q * (n * d))). intros e He Ha HA Her.
  assert ((2 ^ 53 - 1) * (p * dden e) <= 2 ^ 53 * (dnum e * (q * n))) as H1.
  { apply (Z.mul_le_mono_pos_r _ _ d); [done|]. lia. }
  assert ((2 ^ 53 - 1) * q <= 2 ^ 53 * p) as H2 by nia.
  assert ((2 ^ 53 - 1) * ((2 ^ 53 - 1) * q) * dden e <= 2 ^ 53 * (2 ^ 53 * (dnum e * (q * n)))) as H3.
  { transitivity ((2 ^ 53 - 1) * (2 ^ 53 * p) * dden e); [|lia].
    apply Z.mul_le_mono_nonneg_r; [lia|]. apply Z.mul_le_mono_nonneg_l; lia. }
  assert ((2 ^ 53 - 1) * (2 ^ 53 - 1) * dden e <= 2 ^ 53 * 2 ^ 53 * (dnum e * n)) as H4.
  { apply (Z.mul_le_mono_pos_r _ _ q); [done|]. lia. }
  assert (dnum e * n <= dnum e * 2 ^ 31) as H5 by (apply Z.mul_le_mono_nonneg_l; lia).
  lia.
Qed.

Lemma eff_siz_ok x cfld :
  match cfld with None => True | Some c => zlen c = zlen x end ->
  0 < zlen (elements x cfld) ->
  match cfld with
  | None => Ok (zlen x)
  | Some c =>
      eff_siz ← count_selected (Z.to_nat (zlen x)) c 0 0;
      _ ← go_BYE_if (eff_siz =? 0);
      Ok eff_siz
  end = Ok (zlen (elements x cfld)).
Proof.
  destruct cfld as [c|]; [|done]. simpl. intros Hc Hpos. rewrite to_nat_zlen.
  assert (length x = length c) as El by (unfold zlen in *; lia).
  pose proof (count_selected_ok x [] c 0 El) as Hs. simpl in Hs. change (zlen []) with 0 in Hs.
  rewrite El, Hs. simpl. by rewrite (proj2 (Z.eqb_neq _ 0)) by lia.
Qed.

(** The loop over the blocks, from counters that are all zero. *)
Lemma blocks_ok x cfld N cs :
  match cfld with None => True | Some c => zlen c = zlen x end ->
  0 < zlen (elements x cfld) <= INT_MAX -> 0 < cs < 2 ^ 60 -> 0 < N ->
  let zeros := replicate (Z.to_nat cs) 0 in
  exists s',
    block_loop (Z.to_nat (zlen x)) x cfld (zlen x) (zlen (elements x cfld)) N cs 0
      {| cntr_id := zeros; cntr_freq := zeros; active_cntr_siz := 0;
         bf_id := zeros; bf_freq := zeros |} = Ok s' /\
    counters_ok cs (elements x cfld) s'.
Proof.
  intros Hc HE Hcs HN zeros. set (s0 := Build_counters _ _ _ _ _).
  assert (counters_ok cs [] s0) as H0.
  { assert (zlen zeros = cs) as Hz by (unfold zeros, zlen; rewrite length_replicate; lia).
    exists 0, []. split; [by exists zeros, zeros|]. do 3 (split; [done|]).
    constructor; try done; constructor. }
  assert (exists R, R (zlen x) = [] /\ R 0 = elements x cfld /\
    forall cur, 0 <= cur < zlen x ->
      delivers R (zlen x) cs cur (next_block x cfld (zlen x) (zlen (elements x cfld)) N cs cur))
    as (R & HR1 & HR0 & Hnext).
  { assert (forall l : list Z, drop (Z.to_nat (zlen l)) l = []) as Hnil.
    { intros l. by rewrite to_nat_zlen, drop_all. }
    destruct cfld as [c|].
    - destruct (Z.eq_dec (zlen (elements x (Some c))) (zlen x)) as [Eall|Hne].
      + exists (fun cur => drop (Z.to_nat cur) x). split; [apply Hnil|]. split.
        * simpl. symmetry. apply chosen_all; [|done]. apply Nat2Z.inj. symmetry. exact Hc.
        * intros cur Hcur. by apply next_block_all; try lia.
      + exists (rest_of x c). split; [unfold rest_of; by rewrite Hnil|]. split; [done|].
        intros cur Hcur. by apply next_block_selected; try lia.
    - exists (fun cur => drop (Z.to_nat cur) x). split; [apply Hnil|]. split; [done|].
      intros cur Hcur. by apply next_block_all; try lia. }
  pose proof (zlen_nonneg x). rewrite <- HR0.
  apply (block_loop_ok R x cfld (zlen x) (zlen (R 0)) N cs _ ltac:(lia) HR1) with (S := []);
    [by rewrite HR0|lia|lia|done|by rewrite HR0; simpl; lia].
Qed.

(** What is promised about the elements [S]: every element of frequency
    [min_freq] is listed, an estimate is never over and at most [err] under,
    and no estimate is less than [min_freq - err]. *)
Record frequent_list (S : list Z) (min_freq err : Z) (out : list (Z * Z)) : Prop := {
  fl_ascending : ascending_ids out;
  fl_all : forall v, min_freq <= occ v S -> v ∈ out.*1;
  fl_only : forall v g, (v, g) ∈ out ->
    occ v S - err <= g <= occ v S /\ min_freq - err <= g }.

Lemma tally_in v g l : ascending_ids l -> (v, g) ∈ l -> Uniq.tally v l = g.
Proof.
  induction l as [|[v' g'] l IH]; [by intros _ ?%elem_of_nil|].
  intros [Ha Hs]%ascending_cons [[= -> ->]|Hin]%elem_of_cons; simpl.
  - rewrite decide_True by done. rewrite ids_above_tally by done. lia.
  - rewrite (IH Hs Hin). rewrite decide_False; [done|]. intros ->. unfold ids_above in Ha.
    rewrite Forall_forall in Ha. specialize (Ha v). 
    assert (v < v); [|lia]. apply Ha, list_elem_of_fmap. by exists (v, g).
Qed.

Lemma at_least_above k thresh l : ids_above k l -> ids_above k (at_least thresh l).
Proof.
  unfold ids_above. induction l as [|[v g] l IH]; [done|]. intros [Hv Hl]%Forall_cons.
  rewrite at_least_cons. specialize (IH Hl). destruct (thresh <=? g); [by constructor|done].
Qed.

Lemma at_least_ascending thresh l : ascending_ids l -> ascending_ids (at_least thresh l).
Proof.
  induction l as [|[v g] l IH]; [done|]. intros [Ha Hs]%ascending_cons. specialize (IH Hs).
  rewrite at_least_cons. destruct (thresh <=? g); [|done].
  apply ascending_cons. split; [by apply at_least_above|done].
Qed.

(** The counters give the list. *)
Lemma summary_list cs S D l min_freq err :
  0 <= cs -> summary cs S D l -> zlen S < (err + 1) * (cs + 1) -> 0 < err < min_freq ->
  frequent_list S min_freq err (at_least (min_freq - err) l).
Proof.
  intros Hcs [H1 H2 H3 H4 H5] Hbig Hmf. pose proof (total_positive l H2).
  assert (D <= err) as HD by nia. constructor.
  - by apply at_least_ascending.
  - intros v Hv. specialize (H5 v).
    destruct (decide (v ∈ l.*1)) as [Hin|Hout]; [|apply Uniq.tally_absent in Hout; lia].
    apply list_elem_of_fmap in Hin as ([v' g] & -> & Hin). simpl in *.
    rewrite (tally_in _ _ _ H3 Hin) in H5. apply list_elem_of_fmap. exists (v', g). split; [done|].
    apply list_elem_of_filter. simpl. split; [lia|done].
  - intros v g [Hg Hin]%list_elem_of_filter. specialize (H5 v).
    rewrite (tally_in _ _ _ H3 Hin) in H5. simpl in Hg. lia.
Qed.

(** Claim C38. [update_counter] returns whatever the frequencies are: the loop
    that decrements the counters ends.  From counters and pairs with ascending
    ids and positive frequencies it leaves at most [cs] counters with ascending
    ids and positive frequencies; every id has lost the same number [D] of
    occurrences, or all it had, and each of the [D] rounds has removed more than
    [cs] occurrences. *)
Theorem update_counter_terminates cs c b ci cf bi bf n :
  holds cs ci cf c -> holds n bi bf b -> 0 <= cs ->
  positive c -> positive b -> ascending_ids c -> ascending_ids b ->
  Uniq.total c + Uniq.total b <= INT_MAX ->
  exists D l ci' cf',
    update_counter ci cf cs (zlen c) bi bf (zlen b) = Ok (ci', cf', zlen l) /\
    holds cs ci' cf' l /\ positive l /\ ascending_ids l /\ 0 <= D /\
    D * (cs + 1) + Uniq.total l <= Uniq.total c + Uniq.total b /\
    forall v, Uniq.tally v l = Z.max 0 (Uniq.tally v c + Uniq.tally v b - D).
Proof.
  intros Hc Hb Hcs Hpc Hpb Hsc Hsb Htot.
  destruct (update_counter_ok cs ci cf c bi bf b n) as (D & l & ci' & cf' & E & Hh & [H1 H2 H3 H4 H5 H6]);
    [done..|].
  rewrite madd_total in H5. exists D, l, ci', cf'. do 6 (split; [done|]).
  intros v. by rewrite H6, madd_tally.
Qed.

Lemma update_counter_terminates_witness :
  exists D l ci' cf',
    update_counter [1; 3; 0] [5; 1; 0] 3 2 [2; 3; 4] [2; 2; 1] 3 = Ok (ci', cf', zlen l) /\
    holds 3 ci' cf' l /\ positive l /\ ascending_ids l /\ 0 <= D /\
    D * (3 + 1) + Uniq.total l <= 11 /\
    forall v, Uniq.tally v l
      = Z.max 0 (Uniq.tally v [(1, 5); (3, 1)] + Uniq.tally v [(2, 2); (3, 2); (4, 1)] - D).
Proof.
  apply (update_counter_terminates 3 [(1, 5); (3, 1)] [(2, 2); (3, 2); (4, 1)]
           [1; 3; 0] [5; 1; 0] [2; 3; 4] [2; 2; 1] 3).
  - by exists [0], [0].
  - by exists [], [].
  - lia.
  - by repeat constructor.
  - by repeat constructor.
  - by repeat constructor.
  - by repeat constructor.
  - vm_compute. done.
Defined.

(** Claim C11. The promise of the algorithm, as the comment of the source states
    it: on an input with at least one and at most [INT_MAX] selected elements,
    with [0 < err < min_freq] and room for the output, [approx_frequent] either
    reports that it would need too much memory, or lists every element that
    occurs [min_freq] times or more, with ascending ids; every frequency listed
    is at most the true one, misses at most [err] occurrences, and is at least
    [min_freq - err].  No access is out of range, no frequency overflows, and
    the rounding of the number of counters in [double] does not matter. *)
Theorem approx_frequent_correct x cfld siz min_freq err y f out_siz :
  zlen x = siz -> match cfld with None => True | Some c => zlen c = siz end ->
  0 < zlen (elements x cfld) <= INT_MAX -> 0 < err < min_freq ->
  zlen (elements x cfld) / (min_freq - err) <= out_siz ->
  out_siz <= zlen y -> out_siz <= zlen f ->
  let r := approx_frequent (Some x) cfld siz min_freq err (Some y) (Some f) out_siz in
  if MAX_SZ <? counters_of (eps_of err (zlen (elements x cfld))) * (1 + 2 + 6)
  then r = Ok {| estimate_is_good := -2; ans_y := y; ans_f := f; ans_len := None |}
  else exists out,
    r = Ok {| estimate_is_good := 1;
              ans_y := out.*1 ++ drop (length out) y; ans_f := out.*2 ++ drop (length out) f;
              ans_len := Some (zlen out) |} /\
    frequent_list (elements x cfld) min_freq err out.
Proof.
  intros <- Hc HE Hmf Hout Hy Hf r. unfold r, approx_frequent. pose proof (eff_siz_ok x cfld Hc ltac:(lia)) as Heff.
  pose proof (chosen_length x) as Hlen.
  assert (0 < zlen x) as Hx.
  { destruct cfld as [c|]; simpl in HE; [specialize (Hlen c); unfold zlen in *; lia|lia]. }
  do 4 rewrite (proj2 (Z.leb_gt _ _)) by lia. cbn [go_BYE_if mbind res_bind]. rewrite Heff.
  cbn [mbind res_bind]. rewrite eps_not_tiny by lia. rewrite (proj2 (Z.ltb_ge _ _) Hout).
  cbn [go_BYE_if mbind res_bind].
  pose proof (counters_suffice err _ ltac:(lia) HE) as Hbig.
  set (cs := counters_of _) in *. destruct (Z.ltb_spec MAX_SZ (cs * (1 + 2 + 6))) as [|Hmem]; [done|].
  assert (0 < cs) as Hcs by apply counters_of_pos.
  destruct (threads_loop_ok cs Hmem) as (N & -> & HN). cbn [mbind res_bind].
  destruct (blocks_ok x cfld N cs Hc HE) as (s & -> & D & l & (j1 & j2 & Ei & Ef & _) & Ea & _ & _ & Hsum);
    [unfold MAX_SZ in Hmem; lia|done|].
  cbn [mbind res_bind]. rewrite Ei, Ef, Ea, to_nat_zlen.
  set (outs := at_least (min_freq - err) l).
  assert (zlen outs <= out_siz) as Hn.
  { pose proof (at_least_total (min_freq - err) l ltac:(lia) (su_positive _ _ _ _ Hsum)) as Hal.
    pose proof (su_total _ _ _ _ Hsum). pose proof (su_rounds _ _ _ _ Hsum).
    transitivity (zlen (elements x cfld) / (min_freq - err)); [|done].
    apply Z.div_le_lower_bound; [lia|]. fold outs in Hal. nia. }
  pose proof (output_loop_ok (min_freq - err) j1 j2 l [] [] y f) as Ho. simpl in Ho. fold outs in Ho.
  change (zlen []) with 0 in Ho. rewrite Ho by (unfold zlen in *; lia). cbn [mbind res_bind].
  exists outs. split; [done|]. by apply (summary_list cs _ D); try lia.
Qed.

Lemma approx_frequent_correct_witness :
  exists out,
    approx_frequent (Some [3; 1; 3; 2; 3]) (Some [1; 1; 1; 0; 1]) 5 3 1 (Some [0; 0]) (Some [0; 0]) 2
    = Ok {| estimate_is_good := 1;
            ans_y := out.*1 ++ drop (length out) [0; 0]; ans_f := out.*2 ++ drop (length out) [0; 0];
            ans_len := Some (zlen out) |} /\
    frequent_list [3; 1; 3; 3] 3 1 out.
Proof.
  pose proof (approx_frequent_correct [3; 1; 3; 2; 3] (Some [1; 1; 1; 0; 1]) 5 3 1 [0; 0] [0; 0] 2) as C.
  assert ((MAX_SZ <? counters_of (eps_of 1 4) * (1 + 2 + 6)) = false) as E by (vm_compute; reflexivity).
  change (zlen (elements [3; 1; 3; 2; 3] (Some [1; 1; 1; 0; 1]))) with 4 in C. rewrite E in C.
  apply C; try reflexivity; try lia; split; vm_compute; done.
Defined.

End Frequent.
