(* ===== verification/Spooky.v ===== *)
(** * Spooky hash.

    Models src/approxalgos/ApproxUnique/src/spooky_hash.c: [spooky_hash64] on a
    message of bytes, which is [spooky_shorthash] when it is shorter than 192
    bytes and blocks of 96 bytes otherwise.  Words are little-endian, as the
    file assumes, and unaligned reads are allowed.  The streaming interface
    ([spooky_init], [spooky_update], [spooky_final]) is not used by the program
    and not modelled. *)

From stdpp Require Import prelude.
From Stdlib Require Import ZArith Lia.
From S2P Require Import Prelude.

Module Spooky.

Definition SC_CONST : Z := 0xdeadbeefdeadbeef.
Definition SC_NUMVARS : Z := 12.
Definition SC_BLOCKSIZE : Z := 8 * SC_NUMVARS.
Definition SC_BUFSIZE : Z := 2 * SC_BLOCKSIZE.

(** Arithmetic of [uint64_t]. *)
Definition add64 (x y : Z) : Z := wrapU 64 (x + y).
Definition shl64 (x k : Z) : Z := wrapU 64 (Z.shiftl x k).
Definition rot64 (x k : Z) : Z := Z.lor (shl64 x k) (Z.shiftr x (64 - k)).

(** [u.p64[i]], [u.p32[i]] and [u.p8[i]] for [u] at byte [o] of the message. *)
Fixpoint word_le (n : nat) (message : list Z) (o : Z) : res Z :=
  match n with
  | O => Ok 0
  | S n => b ← rd message o; w ← word_le n message (o + 1); Ok (b + 256 * w)
  end.
Definition p64 (message : list Z) (o i : Z) : res Z := word_le 8 message (o + 8 * i).
Definition p32 (message : list Z) (o i : Z) : res Z := word_le 4 message (o + 4 * i).
Definition p8 (message : list Z) (o i : Z) : res Z := rd message (o + i).

(** ** Short messages *)

Definition state4 : Type := Z * Z * Z * Z.

Definition short_mix (s : state4) : state4 :=
  let '(h0, h1, h2, h3) := s in
  let h2 := rot64 h2 50 in let h2 := add64 h2 h3 in let h0 := Z.lxor h0 h2 in
  let h3 := rot64 h3 52 in let h3 := add64 h3 h0 in let h1 := Z.lxor h1 h3 in
  let h0 := rot64 h0 30 in let h0 := add64 h0 h1 in let h2 := Z.lxor h2 h0 in
  let h1 := rot64 h1 41 in let h1 := add64 h1 h2 in let h3 := Z.lxor h3 h1 in
  let h2 := rot64 h2 54 in let h2 := add64 h2 h3 in let h0 := Z.lxor h0 h2 in
  let h3 := rot64 h3 48 in let h3 := add64 h3 h0 in let h1 := Z.lxor h1 h3 in
  let h0 := rot64 h0 38 in let h0 := add64 h0 h1 in let h2 := Z.lxor h2 h0 in
  let h1 := rot64 h1 37 in let h1 := add64 h1 h2 in let h3 := Z.lxor h3 h1 in
  let h2 := rot64 h2 62 in let h2 := add64 h2 h3 in let h0 := Z.lxor h0 h2 in
  let h3 := rot64 h3 34 in let h3 := add64 h3 h0 in let h1 := Z.lxor h1 h3 in
  let h0 := rot64 h0 5 in let h0 := add64 h0 h1 in let h2 := Z.lxor h2 h0 in
  let h1 := rot64 h1 36 in let h1 := add64 h1 h2 in let h3 := Z.lxor h3 h1 in
  (h0, h1, h2, h3).

Definition short_end (s : state4) : state4 :=
  let '(h0, h1, h2, h3) := s in
  let h3 := Z.lxor h3 h2 in let h2 := rot64 h2 15 in let h3 := add64 h3 h2 in
  let h0 := Z.lxor h0 h3 in let h3 := rot64 h3 52 in let h0 := add64 h0 h3 in
  let h1 := Z.lxor h1 h0 in let h0 := rot64 h0 26 in let h1 := add64 h1 h0 in
  let h2 := Z.lxor h2 h1 in let h1 := rot64 h1 51 in let h2 := add64 h2 h1 in
  let h3 := Z.lxor h3 h2 in let h2 := rot64 h2 28 in let h3 := add64 h3 h2 in
  let h0 := Z.lxor h0 h3 in let h3 := rot64 h3 9 in let h0 := add64 h0 h3 in
  let h1 := Z.lxor h1 h0 in let h0 := rot64 h0 47 in let h1 := add64 h1 h0 in
  let h2 := Z.lxor h2 h1 in let h1 := rot64 h1 54 in let h2 := add64 h2 h1 in
  let h3 := Z.lxor h3 h2 in let h2 := rot64 h2 32 in let h3 := add64 h3 h2 in
  let h0 := Z.lxor h0 h3 in let h3 := rot64 h3 25 in let h0 := add64 h0 h3 in
  let h1 := Z.lxor h1 h0 in let h0 := rot64 h0 63 in let h1 := add64 h1 h0 in
  (h0, h1, h2, h3).

(** All complete sets of 32 bytes. *)
Fixpoint short_blocks (n : nat) (message : list Z) (o : Z) (s : state4) : res (state4 * Z) :=
  match n with
  | O => Ok (s, o)
  | S n =>
      let '(a, b, c, d) := s in
      w0 ← p64 message o 0; w1 ← p64 message o 1;
      let '(a, b, c, d) := short_mix (a, b, add64 c w0, add64 d w1) in
      w2 ← p64 message o 2; w3 ← p64 message o 3;
      short_blocks n message (o + 32) (add64 a w2, add64 b w3, c, d)
  end.

(** [x += (uint64_t)u.p8[i] << k] *)
Definition add_byte (message : list Z) (o i k x : Z) : res Z :=
  b ← p8 message o i; Ok (add64 x (shl64 b k)).

(** The last 0 to 15 bytes: the cases of the [switch] fall through. *)
Definition last_bytes (message : list Z) (o remainder c d : Z) : res (Z * Z) :=
  if 12 <=? remainder then
    d ← (if 15 <=? remainder then add_byte message o 14 48 d else Ok d);
    d ← (if 14 <=? remainder then add_byte message o 13 40 d else Ok d);
    d ← (if 13 <=? remainder then add_byte message o 12 32 d else Ok d);
    w ← p32 message o 2;
    v ← p64 message o 0;
    Ok (add64 c v, add64 d w)
  else if 8 <=? remainder then
    d ← (if 11 <=? remainder then add_byte message o 10 16 d else Ok d);
    d ← (if 10 <=? remainder then add_byte message o 9 8 d else Ok d);
    d ← (if 9 <=? remainder then add_byte message o 8 0 d else Ok d);
    v ← p64 message o 0;
    Ok (add64 c v, d)
  else if 4 <=? remainder then
    c ← (if 7 <=? remainder then add_byte message o 6 48 c else Ok c);
    c ← (if 6 <=? remainder then add_byte message o 5 40 c else Ok c);
    c ← (if 5 <=? remainder then add_byte message o 4 32 c else Ok c);
    v ← p32 message o 0;
    Ok (add64 c v, d)
  else if 1 <=? remainder then
    c ← (if 3 <=? remainder then add_byte message o 2 16 c else Ok c);
    c ← (if 2 <=? remainder then add_byte message o 1 8 c else Ok c);
    c ← add_byte message o 0 0 c;
    Ok (c, d)
  else Ok (add64 c SC_CONST, add64 d SC_CONST).

Definition spooky_shorthash (message : list Z) (length hash1 hash2 : Z) : res (Z * Z) :=
  let remainder := length mod 32 in
  '(a, b, c, d, o, remainder) ←
    (if 15 <? length then
       '(s, o) ← short_blocks (Z.to_nat (length / 32)) message 0 (hash1, hash2, SC_CONST, SC_CONST);
       if 16 <=? remainder then
         let '(a, b, c, d) := s in
         w0 ← p64 message o 0; w1 ← p64 message o 1;
         Ok (short_mix (a, b, add64 c w0, add64 d w1), o + 16, remainder - 16)
       else Ok (s, o, remainder)
     else Ok (hash1, hash2, SC_CONST, SC_CONST, 0, remainder));
  let d := shl64 length 56 in
  '(c, d) ← last_bytes message o remainder c d;
  let '(a, b, _, _) := short_end (a, b, c, d) in
  Ok (a, b).

(** ** Long messages *)

Definition vars (s : list Z) (i : Z) : Z := default 0 (s !z (i mod SC_NUMVARS)).
Definition set_var (s : list Z) (i v : Z) : list Z := zset s (i mod SC_NUMVARS) v.

(** One line of [mix]: [s0 += data[0]; s2 ^= s10; s11 ^= s0; s0 = rot64(s0, 11);
    s11 += s1;], with the indices moved by [i]. *)
Definition mix_line (i k w : Z) (s : list Z) : list Z :=
  let s := set_var s i (add64 (vars s i) w) in
  let s := set_var s (i + 2) (Z.lxor (vars s (i + 2)) (vars s (i + 10))) in
  let s := set_var s (i + 11) (Z.lxor (vars s (i + 11)) (vars s i)) in
  let s := set_var s i (rot64 (vars s i) k) in
  set_var s (i + 11) (add64 (vars s (i + 11)) (vars s (i + 1))).

Definition mix_rotations : list Z := [11; 32; 43; 31; 17; 28; 39; 57; 55; 54; 22; 46].

Fixpoint mix_lines (ks : list Z) (i : Z) (data : list Z) (o : Z) (s : list Z) : res (list Z) :=
  match ks with
  | [] => Ok s
  | k :: ks => w ← p64 data o i; mix_lines ks (i + 1) data o (mix_line i k w s)
  end.
Definition mix (data : list Z) (o : Z) (s : list Z) : res (list Z) := mix_lines mix_rotations 0 data o s.

(** One line of [endPartial]: [h11 += h1; h2 ^= h11; h1 = rot64(h1, 44);], with
    the indices moved by [i]. *)
Definition end_line (i k : Z) (h : list Z) : list Z :=
  let h := set_var h (i + 11) (add64 (vars h (i + 11)) (vars h (i + 1))) in
  let h := set_var h (i + 2) (Z.lxor (vars h (i + 2)) (vars h (i + 11))) in
  set_var h (i + 1) (rot64 (vars h (i + 1)) k).

Definition end_rotations : list Z := [44; 15; 34; 21; 38; 33; 10; 13; 38; 53; 42; 54].

Fixpoint end_lines (ks : list Z) (i : Z) (h : list Z) : list Z :=
  match ks with [] => h | k :: ks => end_lines ks (i + 1) (end_line i k h) end.
Definition endPartial (h : list Z) : list Z := end_lines end_rotations 0 h.
Definition end_mix (h : list Z) : list Z := endPartial (endPartial (endPartial h)).

(** All whole blocks of [SC_BLOCKSIZE] bytes. *)
Fixpoint long_blocks (n : nat) (message : list Z) (o : Z) (h : list Z) : res (list Z * Z) :=
  match n with
  | O => Ok (h, o)
  | S n => h ← mix message o h; long_blocks n message (o + SC_BLOCKSIZE) h
  end.

Definition spooky_hash128 (message : list Z) (length hash1 hash2 : Z) : res (Z * Z) :=
  if length <? SC_BUFSIZE then spooky_shorthash message length hash1 hash2
  else
    let h := [hash1; hash2; SC_CONST; hash1; hash2; SC_CONST;
              hash1; hash2; SC_CONST; hash1; hash2; SC_CONST] in
    '(h, o) ← long_blocks (Z.to_nat (length / SC_BLOCKSIZE)) message 0 h;
    let remainder := length - o in
    let tail := take (Z.to_nat remainder) (drop (Z.to_nat o) message) in
    let buf := tail ++ replicate (Z.to_nat (SC_BLOCKSIZE - remainder)) 0 in
    buf ← wr buf (SC_BLOCKSIZE - 1) remainder;
    h ← mix buf 0 h;
    let h := end_mix h in
    Ok (vars h 0, vars h 1).

Definition spooky_hash64 (message : list Z) (length seed : Z) : res Z :=
  '(hash1, _) ← spooky_hash128 message length seed seed;
  Ok hash1.

(** ** Messages of four bytes *)

(** An [int] always has a hash: no read is behind its four bytes. *)
Lemma spooky_hash64_4 b0 b1 b2 b3 seed : exists h, spooky_hash64 [b0; b1; b2; b3] 4 seed = Ok h.
Proof.
  unfold spooky_hash64, spooky_hash128. change (4 <? SC_BUFSIZE) with true. cbv iota.
  unfold spooky_shorthash. change (4 mod 32) with 4. change (15 <? 4) with false.
  cbv iota beta zeta delta [mbind res_bind].
  set (d := shl64 4 56).
  assert (exists c', last_bytes [b0; b1; b2; b3] 0 4 SC_CONST d = Ok (c', d)) as [c' ->] by (by eexists).
  destruct (short_end (seed, seed, c', d)) as [[[a b] c] e]. by exists a.
Qed.

End Spooky.
