(* ===== verification/Unique.v ===== *)
(** * The number of distinct elements in one pass.

    Models src/approxalgos/ApproxUnique/src: [determine_rho_loc] and
    [approx_unique], the algorithm HyperLogLog.  An element is hashed; the
    lowest set bit of the hash is its rank [rho], the highest bits choose its
    bin, and a bin keeps the highest rank of its elements.  While more than one
    in a hundred bins is empty, neighbouring bins are joined.

    [time(NULL)] is the argument [seed]; allocation succeeds; [cilkfor] is
    [for].  The array [hashval] holds the hash of an element between the two
    loops over a block and is not represented. *)

From stdpp Require Import prelude.
From Stdlib Require Import ZArith Lia.
From S2P Require Import Prelude Setops Double Frequent Spooky.
Import Double Spooky.

Module Unique.

Lemma bind_Ok {A B} (a : A) (f : A -> res B) : Ok a ≫= f = f a.
Proof. reflexivity. Qed.

(** [x * y] and the conversion of a [double] on [int]. *)
Definition mul_int (x y : Z) : res Z := if decide (inS 32 (x * y)) then Ok (x * y) else Ub.
Definition to_int (x : double) : res Z :=
  if decide (inS 32 (trunc x)) then Ok (trunc x) else Ub.

(** The bytes of an [int]. *)
Definition int_bytes (v : Z) : list Z :=
  (fun i => Z.land (Z.shiftr (wrapU 32 v) (8 * i)) 255) <$> [0; 1; 2; 3].

(** [__builtin_ctzll]: the number of the lowest set bit. *)
Definition ctz (x : Z) : Z := Z.log2 (Z.land x (- x)).

(** [*ptr_rho] and [*ptr_loc] *)
Definition determine_rho_loc (hash_val m : Z) : res (Z * Z) :=
  _ ← go_BYE_if (hash_val =? 0);
  let rho := ctz hash_val + 1 in
  let uint_hash_val := wrapU 32 (Z.shiftr hash_val (64 - 20)) in
  let loc := Z.land uint_hash_val (m - 1) in
  _ ← go_BYE_if (64 - 20 <? rho);
  Ok (rho, loc).

(** The loop over a block: elements [lb + ii] to [ub - 1].  [None] when
    [determine_rho_loc] fails, which ends the whole run. *)
Fixpoint rho_loop (n : nat) (seed : Z) (x : list Z) (cfld : option (list Z)) (m i : Z)
    (max_rho : list Z) : res (option (list Z)) :=
  match n with
  | O => Ok (Some max_rho)
  | S n =>
      skip ← match cfld with None => Ok false | Some c => s ← rd c i; Ok (s =? 0) end;
      if (skip : bool) then rho_loop n seed x cfld m (i + 1) max_rho
      else
        v ← rd x i;
        hash ← spooky_hash64 (int_bytes v) 4 seed;
        match determine_rho_loc hash m with
        | Ok (rho, loc) =>
            r ← rd max_rho loc;
            max_rho ← (if r <? rho then wr max_rho loc rho else Ok max_rho);
            rho_loop n seed x cfld m (i + 1) max_rho
        | _ => Ok None
        end
  end.

(** [#define BLOCK_SIZE 1048576] *)
Definition BLOCK_SIZE : Z := 1048576.

(** [for ( int c = 0; c < num_blocks; c++ )] *)
Fixpoint rho_blocks (n : nat) (seed : Z) (x : list Z) (cfld : option (list Z)) (siz m c : Z)
    (max_rho : list Z) : res (option (list Z)) :=
  match n with
  | O => Ok (Some max_rho)
  | S n =>
      lb ← mul_int c BLOCK_SIZE;
      let ub := lb + BLOCK_SIZE in
      let ub := if siz <? ub then siz else ub in
      r ← rho_loop (Z.to_nat (ub - lb)) seed x cfld m lb max_rho;
      match r with
      | Some max_rho => rho_blocks n seed x cfld siz m (c + 1) max_rho
      | None => Ok None
      end
  end.

(** [if ( max_rho[ii] == 0 ) { cnt_zero++; }] for [ii] below [m] *)
Fixpoint count_zero (n : nat) (max_rho : list Z) (ii cnt_zero : Z) : res Z :=
  match n with
  | O => Ok cnt_zero
  | S n =>
      r ← rd max_rho ii;
      count_zero n max_rho (ii + 1) (if r =? 0 then cnt_zero + 1 else cnt_zero)
  end.

(** Bins [2 * jj] and [2 * jj + 1] become bin [jj]. *)
Fixpoint join_bins (n : nat) (ii jj : Z) (max_rho : list Z) : res (list Z * Z) :=
  match n with
  | O => Ok (max_rho, jj)
  | S n =>
      a ← rd max_rho ii; b ← rd max_rho (ii + 1);
      max_rho ← wr max_rho jj (if b <=? a then a else b);
      join_bins n (ii + 2) (jj + 1) max_rho
  end.

(** [while ( cnt_zero > m/100 && m > 128 )] *)
Fixpoint shrink_bins (fuel : nat) (m cnt_zero : Z) (max_rho : list Z) : res (Z * Z * list Z) :=
  if (m / 100 <? cnt_zero) && (128 <? m) then
    match fuel with
    | O => NoFuel
    | S fuel =>
        '(max_rho, m) ← join_bins (Z.to_nat ((m + 1) / 2)) 0 0 max_rho;
        cnt_zero ← count_zero (Z.to_nat m) max_rho 0 0;
        shrink_bins fuel m cnt_zero max_rho
    end
  else Ok (m, cnt_zero, max_rho).

(** [temp_val = temp_val + pow(2,-(double)max_rho[ii])] for [ii] below [m] *)
Fixpoint sum_powers (n : nat) (max_rho : list Z) (ii : Z) (temp_val : double) : res double :=
  match n with
  | O => Ok temp_val
  | S n =>
      r ← rd max_rho ii;
      sum_powers n max_rho (ii + 1) (dadd temp_val (pow2 (- r)))
  end.

(** [*y], [*ptr_estimate_accuracy_percent] and [*ptr_estimate_is_good].  With
    status -1 ([Err]) they are -1, 100 and -1. *)
Record estimate := { est_y : Z; accuracy_percent : double; is_good : Z }.
Definition no_estimate (g : Z) : estimate :=
  {| est_y := -1; accuracy_percent := of_Z 100; is_good := g |}.

(** The final computations. *)
Definition finish (m cnt_zero : Z) (max_rho : list Z) : res estimate :=
  if cnt_zero <? m / 100 then
    let accuracy := dmul (dmul (ddiv (decimal 104 100) (dsqrt (of_Z m))) (of_Z 3)) (of_Z 100) in
    temp_val ← sum_powers (Z.to_nat m) max_rho 0 (of_Z 0);
    let temp_val := ddiv (of_Z 1) temp_val in
    let alpha_m := ddiv (decimal 7213 10000) (dadd (of_Z 1) (ddiv (decimal 1079 1000) (of_Z m))) in
    y ← to_int (dmul (dmul alpha_m (of_Z (m * m))) temp_val);
    Ok {| est_y := y; accuracy_percent := accuracy; is_good := 1 |}
  else Ok (no_estimate (-2)).

Definition approx_unique (seed : Z) (x : option (list Z)) (cfld : option (list Z)) (siz : Z)
    : res estimate :=
  match x with
  | None => Err
  | Some x =>
      _ ← go_BYE_if (siz <=? 0);
      let m := 65536 in
      _ ← go_BYE_if (negb (Z.land m (m - 1) =? 0) || (m <? 128) || (Z.shiftl 1 20 <? m));
      let num_blocks := wrapS 32 (siz / BLOCK_SIZE) in
      whole ← mul_int num_blocks BLOCK_SIZE;
      let num_blocks := if whole =? siz then num_blocks else num_blocks + 1 in
      r ← rho_blocks (Z.to_nat num_blocks) seed x cfld siz m 0 (replicate (Z.to_nat m) 0);
      match r with
      | None => Ok (no_estimate (-3))
      | Some max_rho =>
          cnt_zero ← count_zero (Z.to_nat m) max_rho 0 0;
          '(m, cnt_zero, max_rho) ← shrink_bins 10 m cnt_zero max_rho;
          finish m cnt_zero max_rho
      end
  end.

Example rho_loc_ex : determine_rho_loc (5 * 2 ^ 60 + 8) 128 = Ok (4, 0).
Proof. vm_compute. reflexivity. Qed.

Example rho_loop_ex :
  rho_loop 3 1 [3; 1; 3] (Some [1; 0; 1]) 8 0 (replicate 8 0)
  = rho_loop 1 1 [3] None 8 0 (replicate 8 0).
Proof. vm_compute. reflexivity. Qed.

Example shrink_bins_ex :
  shrink_bins 1 256 256 (replicate 256 0) = Ok (128, 128, replicate 256 0).
Proof. vm_compute. reflexivity. Qed.

(** 128 bins with a rank of 3 each. *)
Example finish_ex :
  (fun e => (est_y e, trunc (accuracy_percent e), is_good e)) <$> finish 128 0 (replicate 128 3)
  = Ok (732, 27, 1).
Proof. vm_compute. reflexivity. Qed.

(** 256 bins, of which two are empty: they are not joined, and yet too many. *)
Example boundary_ex :
  (r ← shrink_bins 10 256 2 ([0; 0] ++ replicate 254 3);
   let '(m, cnt_zero, max_rho) := r in finish m cnt_zero max_rho) = Ok (no_estimate (-2)).
Proof. vm_compute. reflexivity. Qed.

(** An estimate that does not fit in an [int] is undefined. *)
Example finish_overflow_ex : finish 128 0 (replicate 128 26) = Ub.
Proof. vm_compute. reflexivity. Qed.

(** ** The sketch of a set

    [hash_of] is the hash of an element; an element is [usable] when its rank
    fits; [rho_of] and [loc_of] are its rank and its bin of 65536. *)
Section sketch.
Context (seed : Z).

Definition hash_of (v : Z) : Z :=
  match spooky_hash64 (int_bytes v) 4 seed with Ok h => h | _ => 0 end.
Definition usable (v : Z) : bool := negb (hash_of v =? 0) && (ctz (hash_of v) + 1 <=? 44).
Definition rho_of (v : Z) : Z := ctz (hash_of v) + 1.
Definition loc_of (v : Z) : Z := Z.land (wrapU 32 (Z.shiftr (hash_of v) 44)) 65535.

Lemma int_bytes_4 v : exists b0 b1 b2 b3, int_bytes v = [b0; b1; b2; b3].
Proof. by repeat eexists. Qed.

Lemma hash_ok v : spooky_hash64 (int_bytes v) 4 seed = Ok (hash_of v).
Proof.
  unfold hash_of. destruct (int_bytes_4 v) as (b0 & b1 & b2 & b3 & ->).
  destruct (spooky_hash64_4 b0 b1 b2 b3 seed) as [h E]. rewrite E. reflexivity.
Qed.

Lemma rho_loc_ok v :
  determine_rho_loc (hash_of v) 65536 = if usable v then Ok (rho_of v, loc_of v) else Err.
Proof.
  unfold determine_rho_loc, usable, rho_of, loc_of. generalize (hash_of v). intros h.
  destruct (h =? 0); [reflexivity|]. cbn [go_BYE_if mbind res_bind negb andb].
  change (64 - 20) with 44. change (65536 - 1) with 65535. rewrite Z.leb_antisym.
  by destruct (44 <? ctz h + 1).
Qed.

Lemma rho_pos v : 1 <= rho_of v.
Proof. unfold rho_of, ctz. pose proof (Z.log2_nonneg (Z.land (hash_of v) (- hash_of v))). lia. Qed.

Lemma loc_range v : 0 <= loc_of v < 65536.
Proof.
  unfold loc_of. change 65535 with (Z.ones 16). rewrite Z.land_ones by lia.
  apply Z.mod_pos_bound. lia.
Qed.

#[local] Opaque hash_of loc_of rho_of usable.
#[local] Arguments hash_of : simpl never.
#[local] Arguments loc_of : simpl never.
#[local] Arguments rho_of : simpl never.
#[local] Arguments usable : simpl never.

(** The highest rank of the elements of [S] in bin [i], when [2 ^ j]
    neighbouring bins are one. *)
Definition bin (j : Z) (S : list Z) (i : Z) : Z :=
  foldr (fun v a => if loc_of v / 2 ^ j =? i then Z.max (rho_of v) a else a) 0 S.

Definition sketch (j : Z) (S : list Z) : list Z := bin j S <$> seqZ 0 (2 ^ (16 - j)).

Lemma bin_nonneg j S i : 0 <= bin j S i.
Proof. induction S as [|v S IH]; [done|]. simpl. destruct (_ =? i); lia. Qed.

(** The bin as a least upper bound. *)
Lemma bin_le j S i b :
  0 <= b -> (bin j S i <= b <-> forall v, v ∈ S -> loc_of v / 2 ^ j = i -> rho_of v <= b).
Proof.
  intros Hb. induction S as [|v S IH].
  { split; [by intros _ v ?%elem_of_nil|done]. }
  simpl. destruct (Z.eqb_spec (loc_of v / 2 ^ j) i) as [E|Hne].
  - split.
    + intros Hle w [->|Hw]%elem_of_cons Hl; [lia|]. apply IH; [lia|done|done].
    + intros Hall. apply Z.max_lub; [apply Hall; [left|done]|]. apply IH. intros w Hw. apply Hall. by right.
  - rewrite IH. split.
    + intros Hall w [->|Hw]%elem_of_cons Hl; [done|by apply Hall].
    + intros Hall w Hw. apply Hall. by right.
Qed.

Lemma bin_ext j S S' i : (forall v, v ∈ S <-> v ∈ S') -> bin j S i = bin j S' i.
Proof.
  intros Hset. apply Z.le_antisymm; apply bin_le; try apply bin_nonneg; intros v Hv Hl.
  - apply (proj1 (bin_le j S' i _ (bin_nonneg j S' i))); [done|by apply Hset|done].
  - apply (proj1 (bin_le j S i _ (bin_nonneg j S i))); [done|by apply Hset|done].
Qed.

Lemma bin_snoc j S v i :
  bin j (S ++ [v]) i = if loc_of v / 2 ^ j =? i then Z.max (rho_of v) (bin j S i) else bin j S i.
Proof.
  induction S as [|w S IH].
  { done. }
  simpl. rewrite IH. destruct (loc_of w / 2 ^ j =? i), (loc_of v / 2 ^ j =? i); lia.
Qed.

Lemma sketch_length j S : 0 <= j <= 16 -> zlen (sketch j S) = 2 ^ (16 - j).
Proof.
  intros Hj. unfold sketch. rewrite zlen_fmap. unfold zlen. rewrite length_seqZ.
  pose proof (Z.pow_pos_nonneg 2 (16 - j)). lia.
Qed.

Lemma zlookup_sketch j S i : 0 <= i < 2 ^ (16 - j) -> sketch j S !z i = Some (bin j S i).
Proof.
  intros Hi. unfold sketch. rewrite zlookup_to_nat by lia. rewrite list_lookup_fmap.
  rewrite lookup_seqZ_lt by lia. simpl. do 2 f_equal. lia.
Qed.

(** One element more. *)
Lemma sketch_snoc S v :
  zset (sketch 0 S) (loc_of v) (Z.max (rho_of v) (bin 0 S (loc_of v))) = sketch 0 (S ++ [v]).
Proof.
  pose proof (loc_range v) as Hl. apply zlookup_ext.
  - by rewrite zlen_zset, !sketch_length by lia.
  - rewrite zlen_zset, sketch_length by lia. intros i Hi.
    rewrite zlookup_zset by (rewrite sketch_length; lia).
    rewrite !zlookup_sketch, bin_snoc by done. change (2 ^ 0) with 1. rewrite Z.div_1_r.
    destruct (decide (i = loc_of v)) as [->|Hne]; [by rewrite Z.eqb_refl|].
    by rewrite (proj2 (Z.eqb_neq _ _)) by congruence.
Qed.

Lemma sketch_nil : sketch 0 [] = replicate (Z.to_nat 65536) 0.
Proof.
  apply zlookup_ext.
  - rewrite sketch_length by lia. unfold zlen. rewrite length_replicate. lia.
  - rewrite sketch_length by lia. intros i Hi. rewrite zlookup_sketch by done.
    rewrite zlookup_to_nat by lia. symmetry. apply lookup_replicate_2.
    change (2 ^ (16 - 0)) with 65536 in Hi. lia.
Qed.

(** ** The loop over the elements *)

(** The element at [i], when it is selected. *)
Definition sel (x : list Z) (cfld : option (list Z)) (i : Z) : list Z :=
  match x !z i, cfld with
  | Some v, None => [v]
  | Some v, Some c => match c !z i with Some s => if s =? 0 then [] else [v] | None => [] end
  | None, _ => []
  end.
Definition range (x : list Z) (cfld : option (list Z)) (i n : Z) : list Z := seqZ i n ≫= sel x cfld.

Lemma range_app x cfld i n m :
  0 <= n -> 0 <= m -> range x cfld i (n + m) = range x cfld i n ++ range x cfld (i + n) m.
Proof. intros Hn Hm. unfold range. by rewrite seqZ_app, bind_app. Qed.

Lemma range_cons x cfld i n : 0 <= n -> range x cfld i (1 + n) = sel x cfld i ++ range x cfld (i + 1) n.
Proof. intros Hn. rewrite range_app by lia. unfold range at 1. simpl. by rewrite app_nil_r. Qed.

Lemma range_all x cfld :
  match cfld with None => True | Some c => zlen c = zlen x end ->
  range x cfld 0 (zlen x) = Frequent.elements x cfld.
Proof.
  assert (forall (a b : list Z) v, (a ++ v :: b) !z (zlen a) = Some v) as Hmid
    by (intros; apply rd_Ok, rd_middle).
  intros Hc. destruct cfld as [c|]; simpl.
  - assert (forall x2 x1 c1 c2, length x2 = length c2 -> zlen x1 = zlen c1 ->
      range (x1 ++ x2) (Some (c1 ++ c2)) (zlen x1) (zlen x2) = Frequent.chosen x2 c2) as Hgen.
    { induction x2 as [|v x2 IH]; intros x1 c1 c2 Hl H1; [done|].
      destruct c2 as [|s c2]; [done|]. rewrite zlen_cons, range_cons by apply zlen_nonneg.
      unfold sel. rewrite Hmid, H1, Hmid, <- H1, (app_cons_snoc x1 x2), (app_cons_snoc c1 c2).
      rewrite <- (zlen_snoc x1 v), IH; [|simpl in Hl; lia|rewrite !zlen_snoc; lia].
      simpl. by destruct (s =? 0). }
    apply (Hgen x [] [] c); [unfold zlen in *; lia|done].
  - assert (forall x2 x1, range (x1 ++ x2) None (zlen x1) (zlen x2) = x2) as Hgen.
    { induction x2 as [|v x2 IH]; intros x1; [done|].
      rewrite zlen_cons, range_cons by apply zlen_nonneg. unfold sel. rewrite Hmid, (app_cons_snoc x1 x2).
      rewrite <- (zlen_snoc x1 v), IH. done. }
    apply (Hgen x []).
Qed.

(** All elements of the list are usable. *)
Definition all_usable (S : list Z) : bool := forallb usable S.

(** One iteration, when the element is not selected and when it is. *)
Definition unselected (cfld : option (list Z)) (i : Z) : res bool :=
  match cfld with None => Ok false | Some c => s ← rd c i; Ok (s =? 0) end.

Lemma skip_ok x cfld i v :
  match cfld with None => True | Some c => zlen c = zlen x end -> x !z i = Some v ->
  exists b : bool, unselected cfld i = Ok b /\ sel x cfld i = if b then [] else [v].
Proof.
  intros Hc Hv. unfold unselected, sel. rewrite Hv. destruct cfld as [c|]; [|by exists false].
  apply zlookup_Some_range in Hv. destruct (rd_total c i ltac:(lia)) as [s Hs]. rewrite Hs.
  exists (s =? 0). split; [done|]. apply rd_Ok in Hs. by rewrite Hs.
Qed.

Lemma rho_loop_skip n x cfld m i M :
  unselected cfld i = Ok true -> rho_loop (Datatypes.S n) seed x cfld m i M = rho_loop n seed x cfld m (i + 1) M.
Proof. unfold unselected. intros E. cbn [rho_loop]. by rewrite E. Qed.

Lemma rho_loop_take n x cfld m i M v :
  unselected cfld i = Ok false -> x !z i = Some v ->
  rho_loop (Datatypes.S n) seed x cfld m i M
  = match determine_rho_loc (hash_of v) m with
    | Ok (rho, loc) =>
        r ← rd M loc; M ← (if r <? rho then wr M loc rho else Ok M);
        rho_loop n seed x cfld m (i + 1) M
    | _ => Ok None
    end.
Proof.
  unfold unselected. intros E Hv%rd_Ok. cbn [rho_loop].
  rewrite E, bind_Ok. cbv iota. rewrite Hv, bind_Ok, hash_ok, bind_Ok. reflexivity.
Qed.

(** The update of a bin. *)
Lemma update_bin S v :
  (r ← rd (sketch 0 S) (loc_of v);
   if r <? rho_of v then wr (sketch 0 S) (loc_of v) (rho_of v) else Ok (sketch 0 S))
  = Ok (sketch 0 (S ++ [v])).
Proof.
  pose proof (loc_range v) as Hl. pose proof (zlookup_sketch 0 S (loc_of v) Hl) as Hb.
  rewrite (proj2 (rd_Ok _ _ _) Hb), bind_Ok, <- sketch_snoc.
  destruct (Z.ltb_spec (bin 0 S (loc_of v)) (rho_of v)).
  - rewrite Z.max_l by lia. apply wr_Ok. by rewrite sketch_length by lia.
  - rewrite Z.max_r by lia. f_equal. symmetry. by apply zset_id.
Qed.

Lemma rho_loop_ok x cfld n : forall i S,
  match cfld with None => True | Some c => zlen c = zlen x end ->
  0 <= i -> i + Z.of_nat n <= zlen x ->
  rho_loop n seed x cfld 65536 i (sketch 0 S)
  = Ok (if all_usable (range x cfld i (Z.of_nat n))
        then Some (sketch 0 (S ++ range x cfld i (Z.of_nat n))) else None).
Proof.
  induction n as [|n IH]; intros i S Hc Hi Hn.
  { change (range x cfld i (Z.of_nat 0)) with ([] : list Z). by rewrite app_nil_r. }
  replace (Z.of_nat (Datatypes.S n)) with (1 + Z.of_nat n) in * by lia.
  rewrite range_cons by lia.
  destruct (zlookup_is_Some x i ltac:(lia)) as [v Hv].
  destruct (skip_ok x cfld i v Hc Hv) as (b & Hb & ->). destruct b.
  { rewrite rho_loop_skip, app_nil_l by done. apply IH; (done || lia). }
  rewrite (rho_loop_take n x cfld 65536 i _ v Hb Hv), rho_loc_ok.
  change (all_usable ([v] ++ range x cfld (i + 1) (Z.of_nat n)))
    with (usable v && all_usable (range x cfld (i + 1) (Z.of_nat n))).
  destruct (usable v); [|reflexivity]. cbv iota beta. rewrite andb_true_l, app_assoc.
  rewrite <- (IH (i + 1) (S ++ [v])) by (done || lia). pose proof (update_bin S v) as Hu.
  apply res_bind_Ok in Hu as (r & Hr & Hw). by rewrite Hr, bind_Ok, Hw, bind_Ok.
Qed.

(** ** The blocks *)

Lemma mul_int_ok a b : inS 32 (a * b) -> mul_int a b = Ok (a * b).
Proof. intros. unfold mul_int. by rewrite decide_True. Qed.

Lemma all_usable_app S S' : all_usable (S ++ S') = all_usable S && all_usable S'.
Proof. apply forallb_app. Qed.

(** Blocks [c] to [c + n - 1] are the elements up to the end of the last one. *)
Lemma rho_blocks_ok x cfld n : forall c S,
  match cfld with None => True | Some c => zlen c = zlen x end ->
  zlen x < 2 ^ 31 -> 0 <= c -> (n <> 0%nat -> (c + Z.of_nat n - 1) * BLOCK_SIZE < zlen x) ->
  let a := Z.min (zlen x) (c * BLOCK_SIZE) in
  let b := Z.min (zlen x) ((c + Z.of_nat n) * BLOCK_SIZE) in
  rho_blocks n seed x cfld (zlen x) 65536 c (sketch 0 S)
  = Ok (if all_usable (range x cfld a (b - a)) then Some (sketch 0 (S ++ range x cfld a (b - a))) else None).
Proof.
  induction n as [|n IH]; intros c S Hc Hx Hpos Hn a b.
  { subst a b. rewrite Z.add_0_r, Z.sub_diag. unfold range. by rewrite app_nil_r. }
  specialize (Hn ltac:(lia)). unfold BLOCK_SIZE in *. subst a b. cbn [rho_blocks].
  unfold BLOCK_SIZE. rewrite mul_int_ok by (unfold inS; lia). rewrite bind_Ok. cbv zeta.
  set (e := if zlen x <? c * 1048576 + 1048576 then zlen x else c * 1048576 + 1048576).
  assert (e = Z.min (zlen x) ((c + 1) * 1048576)) as Ee.
  { subst e. destruct (Z.ltb_spec (zlen x) (c * 1048576 + 1048576)); lia. }
  rewrite (Z.min_r (zlen x) (c * 1048576)) by lia.
  rewrite rho_loop_ok by (done || lia). rewrite bind_Ok, Z2Nat.id by lia.
  set (b := Z.min (zlen x) ((c + Z.of_nat (Datatypes.S n)) * 1048576)).
  replace (b - c * 1048576) with ((e - c * 1048576) + (b - e)) by lia.
  rewrite range_app by lia. replace (c * 1048576 + (e - c * 1048576)) with e by lia.
  rewrite all_usable_app.
  destruct (all_usable (range x cfld (c * 1048576) (e - c * 1048576))); [|reflexivity].
  rewrite andb_true_l, app_assoc.
  pose proof (IH (c + 1) (S ++ range x cfld (c * 1048576) (e - c * 1048576)) Hc Hx ltac:(lia)
    ltac:(intros; lia)) as E. cbv zeta in E. rewrite <- Ee in E.
  replace (c + 1 + Z.of_nat n) with (c + Z.of_nat (Datatypes.S n)) in E by lia. exact E.
Qed.

End sketch.

(** ** Counting and joining bins *)

(** The empty bins. *)
Definition zeros (B : list Z) : Z := zlen (filter (fun r => r = 0) B).

Lemma count_zero_ok B : forall pre rest cnt,
  count_zero (length B) (pre ++ B ++ rest) (zlen pre) cnt = Ok (cnt + zeros B).
Proof.
  induction B as [|r B IH]; intros pre rest cnt.
  { simpl. unfold zeros. simpl. by rewrite Z.add_0_r. }
  simpl. rewrite rd_middle, bind_Ok, (app_cons_snoc pre (B ++ rest)), <- (zlen_snoc pre r), IH.
  f_equal. unfold zeros. rewrite filter_cons. destruct (Z.eqb_spec r 0); [|by rewrite decide_False].
  rewrite decide_True, zlen_cons by done. lia.
Qed.

(** Neighbouring bins joined. *)
Fixpoint joined (B : list Z) : list Z :=
  match B with a :: b :: B => Z.max a b :: joined B | _ => [] end.

(** The loop overwrites the bins that it has read: [mid] is what is left of
    them. *)
Lemma join_bins_ok n : forall pre mid B rest,
  length B = (2 * n)%nat ->
  exists junk, join_bins n (zlen pre + zlen mid) (zlen pre) (pre ++ mid ++ B ++ rest)
    = Ok (pre ++ joined B ++ junk, zlen pre + Z.of_nat n).
Proof.
  induction n as [|n IH]; intros pre mid B rest Hl.
  { destruct B; [|done]. exists (mid ++ rest). simpl. by rewrite Z.add_0_r. }
  destruct B as [|a [|b B]]; [done|simpl in Hl; lia|]. simpl in Hl.
  assert (exists h t, mid ++ [a; b] = h :: t /\ zlen t = zlen mid + 1) as (h & t & Eh & Et).
  { destruct mid as [|h mid]; [by exists a, [b]|]. exists h, (mid ++ [a; b]). split; [done|].
    rewrite zlen_app, !zlen_cons. change (zlen []) with 0. lia. }
  destruct (IH (pre ++ [Z.max a b]) t B rest ltac:(lia)) as [junk E]. exists junk.
  cbn [join_bins joined]. rewrite <- zlen_app.
  assert (pre ++ mid ++ (a :: b :: B) ++ rest = (pre ++ mid) ++ a :: (b :: B ++ rest)) as E1
    by by rewrite <- app_assoc.
  assert (pre ++ mid ++ (a :: b :: B) ++ rest = ((pre ++ mid) ++ [a]) ++ b :: (B ++ rest)) as E2
    by by rewrite <- !app_assoc.
  assert (pre ++ mid ++ (a :: b :: B) ++ rest = pre ++ h :: (t ++ B ++ rest)) as E3.
  { f_equal. change (h :: t ++ B ++ rest) with ((h :: t) ++ B ++ rest). by rewrite <- Eh, <- app_assoc. }
  rewrite E1 at 1. rewrite rd_middle, bind_Ok. rewrite E2 at 1.
  rewrite <- (zlen_snoc (pre ++ mid) a), rd_middle, bind_Ok, E3, wr_middle, bind_Ok.
  replace (if b <=? a then a else b) with (Z.max a b)
    by (destruct (Z.leb_spec b a); [by rewrite Z.max_l by lia|by rewrite Z.max_r by lia]).
  rewrite zlen_app.
  rewrite zlen_snoc, Et, <- !app_assoc in E. simpl in E.
  replace (zlen pre + zlen mid + 2) with (zlen pre + 1 + (zlen mid + 1)) by lia. rewrite E.
  simpl. do 2 f_equal. lia.
Qed.

Lemma zlookup_joined k : forall B, length B = (2 * k)%nat ->
  zlen (joined B) = Z.of_nat k /\
  forall i, 0 <= i < Z.of_nat k -> exists a b,
    B !z (2 * i) = Some a /\ B !z (2 * i + 1) = Some b /\ joined B !z i = Some (Z.max a b).
Proof.
  induction k as [|k IH]; intros B Hl; [destruct B; [|done]; by split; [|lia]|].
  destruct B as [|a [|b B]]; [done|simpl in Hl; lia|]. simpl in Hl.
  destruct (IH B ltac:(lia)) as [Hlen Hlook]. cbn [joined]. split; [rewrite zlen_cons; lia|].
  intros i Hi. destruct (decide (i = 0)) as [->|Hne]; [by exists a, b|].
  destruct (Hlook (i - 1) ltac:(lia)) as (c & d & Hc & Hd & Hcd). exists c, d.
  rewrite zlookup_to_nat in Hc, Hd, Hcd by lia. rewrite !zlookup_to_nat by lia.
  replace (Z.to_nat (2 * i)) with (Datatypes.S (Datatypes.S (Z.to_nat (2 * (i - 1))))) by lia.
  replace (Z.to_nat (2 * i + 1)) with (Datatypes.S (Datatypes.S (Z.to_nat (2 * (i - 1) + 1)))) by lia.
  by replace (Z.to_nat i) with (Datatypes.S (Z.to_nat (i - 1))) by lia.
Qed.

(** Joining the bins of a sketch. *)
Lemma bin_joined seed j S i :
  0 <= j -> bin seed (j + 1) S i = Z.max (bin seed j S (2 * i)) (bin seed j S (2 * i + 1)).
Proof.
  intros Hj. induction S as [|v S IH]; [done|].
  cbn [bin foldr]. change (foldr _ 0 S) with (bin seed (j + 1) S i) at 1 2. rewrite IH.
  change (foldr _ 0 S) with (bin seed j S (2 * i)) at 1 2.
  change (foldr _ 0 S) with (bin seed j S (2 * i + 1)).
  rewrite Z.pow_add_r, <- Z.div_div by lia. change (2 ^ 1) with 2.
  set (q := loc_of seed v / 2 ^ j). pose proof (Z.div_mod q 2 ltac:(lia)).
  pose proof (Z.mod_pos_bound q 2 ltac:(lia)).
  destruct (Z.eqb_spec (q / 2) i), (Z.eqb_spec q (2 * i)), (Z.eqb_spec q (2 * i + 1)); lia.
Qed.

Lemma pow_half j : 0 <= j <= 15 -> 2 ^ (16 - j) = 2 * 2 ^ (16 - (j + 1)) /\ 0 < 2 ^ (16 - (j + 1)).
Proof.
  intros Hj. split; [|apply Z.pow_pos_nonneg; lia].
  replace (16 - j) with (1 + (16 - (j + 1))) by lia. by rewrite Z.pow_add_r by lia.
Qed.

Lemma joined_sketch seed j S : 0 <= j <= 15 -> joined (sketch seed j S) = sketch seed (j + 1) S.
Proof.
  intros Hj. destruct (pow_half j Hj) as [E Hp]. set (k := 2 ^ (16 - (j + 1))) in *.
  destruct (zlookup_joined (Z.to_nat k) (sketch seed j S)) as [Hlen Hlook].
  { pose proof (sketch_length seed j S ltac:(lia)). unfold zlen in *. lia. }
  apply zlookup_ext; [rewrite sketch_length by lia; lia|].
  rewrite Hlen. intros i Hi. destruct (Hlook i Hi) as (a & b & Ha & Hb & ->).
  rewrite zlookup_sketch in Ha, Hb by lia. rewrite zlookup_sketch by lia.
  injection Ha as <-. injection Hb as <-. by rewrite bin_joined by lia.
Qed.

(** ** The reference

    Bins are joined until few are empty; what is answered depends only on the
    bins. *)
Fixpoint level (seed : Z) (n : nat) (j : Z) (S : list Z) : Z :=
  match n with
  | O => j
  | Datatypes.S n =>
      if 2 ^ (16 - j) / 100 <? zeros (sketch seed j S) then level seed n (j + 1) S else j
  end.

Definition estimate_of (B : list Z) : res estimate :=
  if zeros B <? zlen B / 100 then
    let m := of_Z (zlen B) in
    let total := foldl (fun t r => dadd t (pow2 (- r))) (of_Z 0) B in
    let alpha := ddiv (decimal 7213 10000) (dadd (of_Z 1) (ddiv (decimal 1079 1000) m)) in
    y ← to_int (dmul (dmul alpha (of_Z (zlen B * zlen B))) (ddiv (of_Z 1) total));
    Ok {| est_y := y;
          accuracy_percent := dmul (dmul (ddiv (decimal 104 100) (dsqrt m)) (of_Z 3)) (of_Z 100);
          is_good := 1 |}
  else Ok (no_estimate (-2)).

Definition reference (seed : Z) (S : list Z) : res estimate :=
  if all_usable seed S then estimate_of (sketch seed (level seed 9 0 S) S)
  else Ok (no_estimate (-3)).

Lemma sum_powers_ok B : forall pre rest t,
  sum_powers (length B) (pre ++ B ++ rest) (zlen pre) t
  = Ok (foldl (fun t r => dadd t (pow2 (- r))) t B).
Proof.
  induction B as [|r B IH]; intros pre rest t; [done|].
  cbn [length sum_powers foldl app]. rewrite rd_middle, bind_Ok.
  by rewrite (app_cons_snoc pre (B ++ rest)), <- (zlen_snoc pre r), IH.
Qed.

Lemma finish_ok B junk : finish (zlen B) (zeros B) (B ++ junk) = estimate_of B.
Proof.
  unfold finish, estimate_of. destruct (zeros B <? zlen B / 100); [|reflexivity].
  cbv zeta. rewrite to_nat_zlen. pose proof (sum_powers_ok B [] junk (of_Z 0)) as E.
  change (zlen []) with 0 in E. rewrite app_nil_l in E. by rewrite E, bind_Ok.
Qed.

Lemma level_range seed n : forall j S, j <= level seed n j S <= j + Z.of_nat n.
Proof.
  induction n as [|n IH]; intros j S; [simpl; lia|]. cbn [level].
  destruct (_ <? _); [pose proof (IH (j + 1) S); lia|lia].
Qed.

Lemma shrink_bins_ok seed n : forall fuel j S junk,
  (n < fuel)%nat -> 0 <= j -> j + Z.of_nat n = 9 ->
  let l := level seed n j S in
  exists junk', shrink_bins fuel (2 ^ (16 - j)) (zeros (sketch seed j S)) (sketch seed j S ++ junk)
    = Ok (2 ^ (16 - l), zeros (sketch seed l S), sketch seed l S ++ junk').
Proof.
  induction n as [|n IH]; intros fuel j S junk Hf Hj Hn l; (destruct fuel as [|fuel]; [lia|]).
  { assert (j = 9) as -> by lia. exists junk. subst l. cbn [level shrink_bins].
    change (2 ^ (16 - 9)) with 128. change (128 <? 128) with false. by rewrite andb_false_r. }
  destruct (pow_half j ltac:(lia)) as [E Hp].
  assert ((128 <? 2 ^ (16 - j)) = true) as Hm.
  { apply Z.ltb_lt. change 128 with (2 ^ 7). apply Z.pow_lt_mono_r; lia. }
  subst l. cbn [level shrink_bins]. rewrite Hm, andb_true_r.
  destruct (2 ^ (16 - j) / 100 <? zeros (sketch seed j S)); [|by exists junk].
  set (k := 2 ^ (16 - (j + 1))) in *.
  destruct (join_bins_ok (Z.to_nat k) [] [] (sketch seed j S) junk) as [junk1 E1].
  { pose proof (sketch_length seed j S ltac:(lia)). unfold zlen in *. lia. }
  rewrite !app_nil_l, joined_sketch in E1 by lia. change (zlen [] + zlen []) with 0 in E1.
  change (zlen []) with 0 in E1. rewrite Z2Nat.id, Z.add_0_l in E1 by lia.
  replace ((2 ^ (16 - j) + 1) / 2) with k
    by (rewrite E; apply (Z.div_unique_pos _ _ _ 1); lia).
  rewrite E1, bind_Ok. cbv iota beta.
  pose proof (count_zero_ok (sketch seed (j + 1) S) [] junk1 0) as E2.
  rewrite app_nil_l, <- to_nat_zlen, sketch_length in E2 by lia. change (zlen []) with 0 in E2.
  fold k in E2. rewrite E2, bind_Ok, Z.add_0_l.
  apply (IH fuel (j + 1) S junk1); lia.
Qed.

(** The blocks cover the array. *)
Lemma num_blocks_ok siz :
  0 < siz < 2 ^ 31 ->
  let q := wrapS 32 (siz / BLOCK_SIZE) in
  let n := if q * BLOCK_SIZE =? siz then q else q + 1 in
  mul_int q BLOCK_SIZE = Ok (q * BLOCK_SIZE) /\ 0 < n /\ (n - 1) * BLOCK_SIZE < siz <= n * BLOCK_SIZE.
Proof.
  intros Hs q n. pose proof (Z.div_mod siz BLOCK_SIZE ltac:(done)) as E.
  pose proof (Z.mod_pos_bound siz BLOCK_SIZE ltac:(done)) as Hr. unfold BLOCK_SIZE in *.
  assert (q = siz / 1048576) as Eq by (apply wrapS_small; unfold inS; lia).
  split; [apply mul_int_ok; unfold inS; lia|]. subst n.
  destruct (Z.eqb_spec (q * 1048576) siz); lia.
Qed.

Lemma approx_unique_ok seed x cfld :
  0 < zlen x < 2 ^ 31 -> match cfld with None => True | Some c => zlen c = zlen x end ->
  approx_unique seed (Some x) cfld (zlen x) = reference seed (Frequent.elements x cfld).
Proof.
  intros Hx Hc. unfold approx_unique. rewrite (proj2 (Z.leb_gt _ _)) by lia.
  change (go_BYE_if false) with (Ok tt). rewrite bind_Ok. cbv zeta.
  change (go_BYE_if (negb (Z.land 65536 (65536 - 1) =? 0) || (65536 <? 128) || (Z.shiftl 1 20 <? 65536)))
    with (Ok tt). rewrite bind_Ok.
  destruct (num_blocks_ok (zlen x) Hx) as (Em & Hn & Hb). rewrite Em, bind_Ok.
  set (n := if _ * _ =? _ then _ else _) in *. unfold BLOCK_SIZE in Hb.
  rewrite <- (sketch_nil seed).
  pose proof (rho_blocks_ok seed x cfld (Z.to_nat n) 0 [] Hc ltac:(lia) ltac:(lia)
    ltac:(unfold BLOCK_SIZE; intros; lia)) as E.
  cbv zeta in E. rewrite Z2Nat.id, Z.add_0_l, Z.mul_0_l, Z.min_r, Z.sub_0_r, Z.min_l in E
    by (unfold BLOCK_SIZE; lia).
  rewrite range_all, app_nil_l in E by done. rewrite E, bind_Ok. unfold reference.
  set (S := Frequent.elements x cfld) in *. destruct (all_usable seed S); [|reflexivity].
  cbv iota beta. pose proof (count_zero_ok (sketch seed 0 S) [] [] 0) as E2.
  rewrite app_nil_l, app_nil_r, <- to_nat_zlen, sketch_length, Z.add_0_l in E2 by lia.
  change (zlen []) with 0 in E2. change (2 ^ (16 - 0)) with 65536 in E2. rewrite E2, bind_Ok.
  destruct (shrink_bins_ok seed 9 10 0 S [] ltac:(lia) ltac:(lia) ltac:(lia)) as [junk E3].
  rewrite app_nil_r in E3. change (2 ^ (16 - 0)) with 65536 in E3. rewrite E3, bind_Ok. cbv iota beta.
  pose proof (level_range seed 9 0 S) as Hl. rewrite <- (sketch_length seed _ S) by lia.
  apply finish_ok.
Qed.

(** The reference depends on the set of values only. *)
Lemma reference_ext seed S S' : (forall v, v ∈ S <-> v ∈ S') -> reference seed S = reference seed S'.
Proof.
  intros Hset. assert (forall j, sketch seed j S = sketch seed j S') as Hsk.
  { intros j. unfold sketch. apply list_fmap_ext. intros i v _. by apply bin_ext. }
  assert (all_usable seed S = all_usable seed S') as Hus.
  { unfold all_usable. apply eq_true_iff_eq. rewrite !forallb_forall.
    setoid_rewrite <- list_elem_of_In. split; intros H v Hv; apply H, Hset, Hv. }
  assert (forall n j, level seed n j S = level seed n j S') as Hlv.
  { induction n as [|n IH]; intros j; [done|]. cbn [level]. by rewrite Hsk, IH. }
  unfold reference. by rewrite Hus, Hlv, Hsk.
Qed.

(** Claim C12. The count of distinct values, computed block by block with bins
    that are updated and joined in place, is the estimate that the reference
    computes from the list of selected values: -3 when the hash of one of them
    has no rank, otherwise the harmonic mean over the least joined bins of
    which at most one in a hundred is empty.  It holds for every array shorter
    than 2^31, with or without a selection; nothing outside an array is read
    and no loop runs out. *)
Theorem approx_unique_correct seed x cfld :
  0 < zlen x < 2 ^ 31 -> match cfld with None => True | Some c => zlen c = zlen x end ->
  approx_unique seed (Some x) cfld (zlen x) = reference seed (Frequent.elements x cfld).
Proof. apply approx_unique_ok. Qed.

(** The result depends only on the set of selected values: order
    and multiplicity do not matter, nor how the values are spread over blocks. *)
Theorem approx_unique_set seed x cfld x' cfld' :
  0 < zlen x < 2 ^ 31 -> match cfld with None => True | Some c => zlen c = zlen x end ->
  0 < zlen x' < 2 ^ 31 -> match cfld' with None => True | Some c => zlen c = zlen x' end ->
  (forall v, v ∈ Frequent.elements x cfld <-> v ∈ Frequent.elements x' cfld') ->
  approx_unique seed (Some x) cfld (zlen x) = approx_unique seed (Some x') cfld' (zlen x').
Proof.
  intros Hx Hc Hx' Hc' Hset. rewrite !approx_unique_ok by done. by apply reference_ext.
Qed.

(** From 2^31 elements on, the number of blocks times the size of a
    block does not fit in an [int], and the result is undefined, although the
    comments speak of 100 billion elements. *)
Theorem approx_unique_overflow seed x cfld siz :
  2 ^ 31 <= siz < 2 ^ 51 -> approx_unique seed (Some x) cfld siz = Ub.
Proof.
  intros Hs. unfold approx_unique. rewrite (proj2 (Z.leb_gt _ _)) by lia.
  change (go_BYE_if false) with (Ok tt). rewrite bind_Ok. cbv zeta.
  change (go_BYE_if (negb (Z.land 65536 (65536 - 1) =? 0) || (65536 <? 128) || (Z.shiftl 1 20 <? 65536)))
    with (Ok tt). rewrite bind_Ok.
  assert (mul_int (wrapS 32 (siz / BLOCK_SIZE)) BLOCK_SIZE = Ub) as E; [|by rewrite E].
  pose proof (Z.div_mod siz BLOCK_SIZE ltac:(done)). pose proof (Z.mod_pos_bound siz BLOCK_SIZE ltac:(done)).
  unfold BLOCK_SIZE in *. rewrite wrapS_small by (unfold inS; lia).
  unfold mul_int. rewrite decide_False; [done|]. unfold inS. lia.
Qed.

Lemma approx_unique_correct_witness :
  0 < zlen [3; 1; 3] < 2 ^ 31 /\ zlen [1; 0; 1] = zlen [3; 1; 3] /\
  approx_unique 1 (Some [3; 1; 3]) (Some [1; 0; 1]) (zlen [3; 1; 3])
  = reference 1 (Frequent.elements [3; 1; 3] (Some [1; 0; 1])).
Proof.
  split; [split; reflexivity|]. split; [reflexivity|].
  apply (approx_unique_correct 1 [3; 1; 3] (Some [1; 0; 1])); [split; reflexivity|reflexivity].
Defined.

Lemma approx_unique_set_witness :
  approx_unique 1 (Some [3; 1; 3]) None (zlen [3; 1; 3])
  = approx_unique 1 (Some [1; 2; 3]) (Some [1; 0; 1]) (zlen [1; 2; 3]).
Proof.
  apply (approx_unique_set 1 [3; 1; 3] None [1; 2; 3] (Some [1; 0; 1]));
    [split; reflexivity|exact I|split; reflexivity|reflexivity|].
  intros v. change (v ∈ [3; 1; 3] <-> v ∈ [1; 3]). rewrite !elem_of_cons. tauto.
Defined.

Lemma approx_unique_overflow_witness :
  2 ^ 31 <= 3000000000 < 2 ^ 51 /\ approx_unique 1 (Some []) None 3000000000 = Ub.
Proof.
  split; [split; [intros H; discriminate H|reflexivity]|].
  apply (approx_unique_overflow 1 [] None 3000000000). split; [intros H; discriminate H|reflexivity].
Defined.

End Unique.
