(* ===== verification/Quantile.v ===== *)
(** * Quantiles in one pass.

    Models src/approxalgos/ApproxQuantile/src: [determine_b_k], [New],
    [Collapse], [Output] and [approx_quantile], the algorithm of Munro and
    Paterson.  The input is cut in packets of [k] elements; a sorted packet
    goes to an empty buffer with weight 1, and when no buffer is empty two
    buffers of the same weight are merged: every second element of the merge
    stays, with twice the weight.  An incomplete last packet is kept aside,
    with weight 1.

    Allocation succeeds, [cilkfor] is [for], and an input packet is represented
    by its used part, as in Frequent.v. *)

From stdpp Require Import prelude sorting.
From Stdlib Require Import ZArith Lia.
From S2P Require Import Prelude Sort Setops Double Frequent.
Import Double.

Module Quantile.

(** ** The number and the size of the buffers *)

(** [while ( ((b-2)*pow(2,b-2)+1) < (double)(eps*siz) ) { b++; }] *)
Fixpoint b_loop (fuel : nat) (eps : double) (siz b : Z) : res Z :=
  if dlt (dadd (dmul (of_Z (b - 2)) (pow2 (b - 2))) (of_Z 1)) (dmul eps (of_Z siz)) then
    match fuel with O => NoFuel | S fuel => b_loop fuel eps siz (b + 1) end
  else Ok b.

Definition determine_b_k (eps : double) (siz : Z) : res (Z * Z) :=
  b ← b_loop 64 eps siz 2;
  let b := b - 1 in
  let k := if siz mod trunc (pow2 (b - 1)) =? 0
           then trunc (ddiv (of_Z siz) (pow2 (b - 1)))
           else trunc (dadd (ddiv (of_Z siz) (pow2 (b - 1))) (of_Z 1)) in
  let k := if k <? 10000 then 10000 else k in
  Ok (b, k).

(** ** Buffers *)

Definition New (src_buf dst_buf ptr_weight : list Z) (initial_weight bufidx b k : Z)
    : res (list Z * list Z) :=
  _ ← go_BYE_if ((bufidx <? 0) || (b <=? bufidx));
  dst_buf ← Frequent.memcpy dst_buf src_buf k;
  ptr_weight ← wr ptr_weight bufidx initial_weight;
  Ok (dst_buf, ptr_weight).

(** The merge in [Collapse]: values with their weights. *)
Fixpoint collapse_merge (fuel : nat) (buf1 buf2 : list Z) (w1 w2 k ii jj kk : Z)
    (tempBuffer tempWeight : list Z) : res (list Z * list Z) :=
  match fuel with
  | O => NoFuel
  | S fuel =>
      let from1 :=
        v ← rd buf1 ii;
        tempBuffer ← wr tempBuffer kk v; tempWeight ← wr tempWeight kk w1;
        collapse_merge fuel buf1 buf2 w1 w2 k (ii + 1) jj (kk + 1) tempBuffer tempWeight in
      let from2 :=
        v ← rd buf2 jj;
        tempBuffer ← wr tempBuffer kk v; tempWeight ← wr tempWeight kk w2;
        collapse_merge fuel buf1 buf2 w1 w2 k ii (jj + 1) (kk + 1) tempBuffer tempWeight in
      if (ii <? k) && (jj <? k) then
        a ← rd buf1 ii; b ← rd buf2 jj;
        if a <=? b then from1 else from2
      else if (ii <? k) && (jj =? k) then from1
      else if (ii =? k) && (jj <? k) then from2
      else Ok (tempBuffer, tempWeight)
  end.

(** [while ( kk >= offSet+jj*outWeight ) { buf1[jj++] = tempBuffer[ii]; }] *)
Fixpoint pick_value (fuel : nat) (v kk offSet outWeight jj : Z) (buf1 : list Z)
    : res (Z * list Z) :=
  if offSet + jj * outWeight <=? kk then
    match fuel with
    | O => NoFuel
    | S fuel => buf1 ← wr buf1 jj v; pick_value fuel v kk offSet outWeight (jj + 1) buf1
    end
  else Ok (jj, buf1).

(** A run of [wr] ends at the end of [buf1]. *)
Fixpoint pick_loop (n : nat) (tempBuffer tempWeight : list Z) (offSet outWeight ii jj kk : Z)
    (buf1 : list Z) : res (list Z) :=
  match n with
  | O => Ok buf1
  | S n =>
      w ← rd tempWeight ii;
      let kk := kk + w in
      v ← rd tempBuffer ii;
      '(jj, buf1) ← pick_value (S (length buf1)) v kk offSet outWeight jj buf1;
      pick_loop n tempBuffer tempWeight offSet outWeight (ii + 1) jj kk buf1
  end.

(** The new contents of [buf1] and of the weights. *)
Definition Collapse (buf1 buf2 ptr_weight : list Z) (bufidx1 bufidx2 b k : Z)
    : res (list Z * list Z) :=
  _ ← go_BYE_if ((bufidx1 <? 0) || (b <=? bufidx1));
  _ ← go_BYE_if ((bufidx2 <? 0) || (b <=? bufidx2));
  w1 ← rd ptr_weight bufidx1;
  w2 ← rd ptr_weight bufidx2;
  _ ← go_BYE_if ((w1 <=? 0) || (w2 <=? 0));
  let temp := replicate (Z.to_nat (2 * k)) 0 in
  '(tempBuffer, tempWeight) ←
    collapse_merge (S (Z.to_nat (2 * k))) buf1 buf2 w1 w2 k 0 0 0 temp temp;
  outWeight ← add_to 32 w1 w2;
  let offSet := outWeight / 2 in
  buf1 ← pick_loop (Z.to_nat (2 * k)) tempBuffer tempWeight offSet outWeight 0 0 0 buf1;
  ptr_weight ← wr ptr_weight bufidx1 outWeight;
  ptr_weight ← wr ptr_weight bufidx2 0;
  Ok (buf1, ptr_weight).

(** ** Answers *)

(** [(long long)ceil((jj+1)*(double)siz/num_quantiles)] *)
Definition quantile_rank (jj siz num_quantiles : Z) : Z :=
  ceil (ddiv (dmul (of_Z (jj + 1)) (of_Z siz)) (of_Z num_quantiles)).

(** The smallest value not processed yet in the buffers, and where it is. *)
Fixpoint scan_bufs (n : nat) (src_bufs : list (list Z)) (ptr_weight current_loc_buf : list Z)
    (k ii min_unproc_val min_unproc_val_loc : Z) : res (Z * Z) :=
  match n with
  | O => Ok (min_unproc_val, min_unproc_val_loc)
  | S n =>
      let skip := scan_bufs n src_bufs ptr_weight current_loc_buf k (ii + 1)
                    min_unproc_val min_unproc_val_loc in
      w ← rd ptr_weight ii;
      if 0 <? w then
        l ← rd current_loc_buf ii;
        if l <? k then
          buf ← rd src_bufs ii; v ← rd buf l;
          if v <? min_unproc_val
          then scan_bufs n src_bufs ptr_weight current_loc_buf k (ii + 1) v ii
          else skip
        else skip
      else skip
  end.

(** [while ( current_proc_element_rank >= next_quantile_rank && jj < num_quantiles )] *)
Fixpoint answer_loop (fuel : nat) (rank v siz num_quantiles jj next_quantile_rank : Z) (y : list Z)
    : res (Z * Z * list Z) :=
  if (next_quantile_rank <=? rank) && (jj <? num_quantiles) then
    match fuel with
    | O => NoFuel
    | S fuel =>
        y ← wr y jj v;
        let jj := jj + 1 in
        answer_loop fuel rank v siz num_quantiles jj (quantile_rank jj siz num_quantiles) y
    end
  else Ok (jj, next_quantile_rank, y).

(** The smallest element not processed yet, and where it is: in a buffer, in
    the last packet ([b]), or nowhere ([-1]). *)
Definition next_element (src_bufs : list (list Z)) (ptr_weight : list Z)
    (last_packet : option (list Z)) (b k : Z) (current_loc_buf : list Z) (current_loc_lp : Z)
    : res (Z * Z) :=
  '(v, loc) ← scan_bufs (Z.to_nat b) src_bufs ptr_weight current_loc_buf k 0 INT_MAX (-1);
  match last_packet with
  | Some p =>
      if current_loc_lp <? zlen p then
        u ← rd p current_loc_lp;
        Ok (if u <? v then (u, b) else (v, loc))
      else Ok (v, loc)
  | None => Ok (v, loc)
  end.

(** The rank and the locations when that element is processed. *)
Definition take_element (ptr_weight : list Z) (b loc : Z) (current_loc_buf : list Z)
    (current_loc_lp rank : Z) : res (Z * list Z * Z) :=
  if loc <? b then
    w ← rd ptr_weight loc; l ← rd current_loc_buf loc;
    current_loc_buf ← wr current_loc_buf loc (l + 1);
    Ok (rank + w, current_loc_buf, current_loc_lp)
  else if loc =? b then Ok (rank + 1, current_loc_buf, current_loc_lp + 1)
  else Err.

Fixpoint process_loop (fuel : nat) (src_bufs : list (list Z)) (ptr_weight : list Z)
    (last_packet : option (list Z)) (siz num_quantiles b k : Z)
    (current_loc_buf : list Z) (current_loc_lp rank jj next_quantile_rank : Z) (y : list Z)
    : res (list Z) :=
  match fuel with
  | O => NoFuel
  | S fuel =>
      '(v, loc) ← next_element src_bufs ptr_weight last_packet b k current_loc_buf current_loc_lp;
      if loc <? 0 then Ok y
      else
        '(rank, current_loc_buf, current_loc_lp) ←
          take_element ptr_weight b loc current_loc_buf current_loc_lp rank;
        '(jj, next_quantile_rank, y) ←
          answer_loop (Z.to_nat num_quantiles) rank v siz num_quantiles jj next_quantile_rank y;
        process_loop fuel src_bufs ptr_weight last_packet siz num_quantiles b k
          current_loc_buf current_loc_lp rank jj next_quantile_rank y
  end.

(** An iteration takes one element; [last_packet] is [Some] when
    [last_packet_incomplete] is 1. *)
Definition Output (src_bufs : list (list Z)) (ptr_weight : list Z) (last_packet : option (list Z))
    (siz num_quantiles : Z) (ptr_y : list Z) (b k : Z) : res (list Z) :=
  let last_packet_siz := match last_packet with Some p => zlen p | None => 0 end in
  _ ← go_BYE_if (k <? last_packet_siz);
  process_loop (S (Z.to_nat (b * k + last_packet_siz))) src_bufs ptr_weight last_packet
    siz num_quantiles b k (replicate (Z.to_nat b) 0) 0 0 0
    (quantile_rank 0 siz num_quantiles) ptr_y.

(** ** Packets *)

(** The packets of a block when all elements are selected: the packet of
    thread [tid] and the ones after it, and the last packet. *)
Fixpoint fill_packets (n : nat) (x : list Z) (siz current_loc_in_x k tid : Z)
    (lastPacket : option (list Z)) : res (list (list Z) * option (list Z)) :=
  match n with
  | O => Ok ([], lastPacket)
  | S n =>
      let lb := current_loc_in_x + tid * k in
      let ub := lb + k in
      '(p, lastPacket) ←
        (if siz <=? lb then Ok ([], lastPacket)
         else
           let ub := if siz <=? ub then siz else ub in
           if decide (0 <= lb <= ub /\ ub <= zlen x) then
             let s := take (Z.to_nat (ub - lb)) (drop (Z.to_nat lb) x) in
             Ok (if siz <=? lb + k then
                   if negb (ub - lb =? k) then ([], Some s) else (s, lastPacket)
                 else (s, lastPacket))
           else Ub);
      '(packets, lastPacket) ← fill_packets n x siz current_loc_in_x k (tid + 1) lastPacket;
      Ok (p :: packets, lastPacket)
  end.

(** [for ( int ii = 0; ii <= NUM_THREADS; ii++ )], where the body reads the
    packet [tid] and not [ii]. *)
Fixpoint find_last (n : nat) (k tid : Z) (packets : list (list Z)) (lastPacket : option (list Z))
    : res (list (list Z) * option (list Z)) :=
  match n with
  | O => Ok (packets, lastPacket)
  | S n =>
      p ← rd packets tid;
      if negb (zlen p =? 0) && negb (zlen p =? k) then
        packets ← wr packets tid [];
        Ok (packets, Some p)
      else find_last n k tid packets lastPacket
  end.

(** The next position, the packets of the block and the last packet. *)
Definition next_packets (x : list Z) (cfld : option (list Z)) (siz eff_siz NUM_THREADS k cur : Z)
    (lastPacket : option (list Z)) : res (Z * list (list Z) * option (list Z)) :=
  let all :=
    '(packets, lastPacket) ← fill_packets (Z.to_nat NUM_THREADS) x siz cur k 0 lastPacket;
    let lastPacketUsedSiz := match lastPacket with Some p => zlen p | None => 0 end in
    Ok (cur + Frequent.sum_len packets + lastPacketUsedSiz, packets, lastPacket) in
  match cfld with
  | None => all
  | Some c =>
      if eff_siz =? siz then all
      else
        '(cur, tid, packets) ←
          Frequent.fill_selected (Z.to_nat (siz - cur)) x c siz NUM_THREADS k cur 0
            (replicate (Z.to_nat NUM_THREADS) []);
        if cur =? siz then
          '(packets, lastPacket) ← find_last (S (Z.to_nat NUM_THREADS)) k tid packets lastPacket;
          Ok (cur, packets, lastPacket)
        else Ok (cur, packets, lastPacket)
  end.

(** ** The buffers in use *)

Record buffers := { buffer : list (list Z); weight : list Z; no_of_empty_buffers : Z }.

(** The first two buffers with the same positive weight. *)
Fixpoint pair_inner (n : nat) (weight : list Z) (ii jj : Z) : res (option Z) :=
  match n with
  | O => Ok None
  | S n =>
      a ← rd weight ii; b ← rd weight jj;
      if (a =? b) && (0 <? a) then Ok (Some jj) else pair_inner n weight ii (jj + 1)
  end.

Fixpoint pair_outer (n : nat) (b : Z) (weight : list Z) (ii : Z) : res (Z * Z) :=
  match n with
  | O => Ok (-1, -1)
  | S n =>
      r ← pair_inner (Z.to_nat (b - (ii + 1))) weight ii (ii + 1);
      match r with
      | Some jj => Ok (ii, jj)
      | None => pair_outer n b weight (ii + 1)
      end
  end.

(** The first empty buffer. *)
Fixpoint empty_loop (n : nat) (weight : list Z) (ii : Z) : res Z :=
  match n with
  | O => Ok (-1)
  | S n => w ← rd weight ii; if w =? 0 then Ok ii else empty_loop n weight (ii + 1)
  end.

(** Two buffers become one when none is empty. *)
Definition free_up (b k : Z) (s : buffers) : res buffers :=
  if no_of_empty_buffers s =? 0 then
    '(bufidx1, bufidx2) ← pair_outer (Z.to_nat (b - 1)) b (weight s) 0;
    buf1 ← rd (buffer s) bufidx1;
    buf2 ← rd (buffer s) bufidx2;
    '(buf1, weight') ← Collapse buf1 buf2 (weight s) bufidx1 bufidx2 b k;
    buffer' ← wr (buffer s) bufidx1 buf1;
    Ok {| buffer := buffer'; weight := weight'; no_of_empty_buffers := no_of_empty_buffers s + 1 |}
  else Ok s.

(** A sorted packet goes to an empty buffer. *)
Definition store_packet (p : list Z) (b k : Z) (s : buffers) : res buffers :=
  s ← free_up b k s;
  bufidx1 ← empty_loop (Z.to_nat b) (weight s) 0;
  dst ← rd (buffer s) bufidx1;
  '(dst, weight') ← New p dst (weight s) 1 bufidx1 b k;
  buffer' ← wr (buffer s) bufidx1 dst;
  Ok {| buffer := buffer'; weight := weight'; no_of_empty_buffers := no_of_empty_buffers s - 1 |}.

(** The complete packets of a block. *)
Fixpoint store_packets (packets : list (list Z)) (b k : Z) (s : buffers) : res buffers :=
  match packets with
  | [] => Ok s
  | p :: packets =>
      if zlen p =? k then
        p ← Qsort.qsort_asc_I4 p (zlen p) 4;
        s ← store_packet p b k s;
        store_packets packets b k s
      else store_packets packets b k s
  end.

Fixpoint blocks_loop (fuel : nat) (x : list Z) (cfld : option (list Z))
    (siz eff_siz NUM_THREADS b k cur : Z) (lastPacket : option (list Z)) (s : buffers)
    : res (option (list Z) * buffers) :=
  if cur <? siz then
    match fuel with
    | O => NoFuel
    | S fuel =>
        '(cur, packets, lastPacket) ← next_packets x cfld siz eff_siz NUM_THREADS k cur lastPacket;
        s ← store_packets packets b k s;
        blocks_loop fuel x cfld siz eff_siz NUM_THREADS b k cur lastPacket s
    end
  else Ok (lastPacket, s).

(** [while ( (b+NUM_THREADS+10)*k > MAX_SZ ) { NUM_THREADS = NUM_THREADS/2; }] *)
Fixpoint num_threads_loop (fuel : nat) (b k NUM_THREADS : Z) : res Z :=
  if Frequent.MAX_SZ <? (b + NUM_THREADS + 10) * k then
    match fuel with O => NoFuel | S fuel => num_threads_loop fuel b k (NUM_THREADS / 2) end
  else Ok NUM_THREADS.

(** [*ptr_estimate_is_good] and [y] when the status is 0.  With status -1
    ([Err]) [*ptr_estimate_is_good] is -1. *)
Definition approx_quantile (x : option (list Z)) (cfld : option (list Z)) (siz num_quantiles : Z)
    (eps : double) (y : option (list Z)) (y_siz : Z) : res (Z * list Z) :=
  match x, y with
  | Some x, Some y =>
      _ ← go_BYE_if (dlt eps (of_Z 0) || dlt (of_Z 1) eps);
      _ ← go_BYE_if (num_quantiles <? 1);
      _ ← go_BYE_if (siz <=? 0);
      _ ← go_BYE_if (y_siz <? num_quantiles);
      eff_siz ← match cfld with
                | None => Ok siz
                | Some c =>
                    eff_siz ← Frequent.count_selected (Z.to_nat siz) c 0 0;
                    _ ← go_BYE_if (eff_siz =? 0);
                    Ok eff_siz
                end;
      '(b, k) ← determine_b_k eps eff_siz;
      _ ← go_BYE_if ((b <=? 0) || (k <=? 0));
      if Frequent.MAX_SZ <? (b + 1 + 10) * k then Ok (-2, y) else
      NUM_THREADS ← num_threads_loop 8 b k 128;
      let s := {| buffer := replicate (Z.to_nat b) (replicate (Z.to_nat k) 0);
                  weight := replicate (Z.to_nat b) 0; no_of_empty_buffers := b |} in
      '(lastPacket, s) ← blocks_loop (Z.to_nat siz) x cfld siz eff_siz NUM_THREADS b k 0 None s;
      lastPacket ← match lastPacket with
                   | Some p => p ← Qsort.qsort_asc_I4 p (zlen p) 4; Ok (Some p)
                   | None => Ok None
                   end;
      y ← Output (buffer s) (weight s) lastPacket eff_siz num_quantiles y b k;
      Ok (1, y)
  | _, _ => Err
  end.

Example Collapse_ex :
  Collapse [1; 3; 5; 7; 9] [2; 4; 6; 8; 10] [1; 2] 0 1 2 5 = Ok ([1; 3; 5; 7; 9], [3; 0]).
Proof. vm_compute. reflexivity. Qed.

Example determine_b_k_ex :
  determine_b_k (ddiv (of_Z 1) (of_Z 1000)) 1000000 = Ok (9, 10000).
Proof. vm_compute. reflexivity. Qed.

Example approx_quantile_ex :
  approx_quantile (Some [5; 1; 4; 2; 3]) None 5 5 (ddiv (of_Z 1) (of_Z 100)) (Some [0; 0; 0; 0; 0]) 5
  = Ok (1, [1; 2; 3; 4; 5]).
Proof. vm_compute. reflexivity. Qed.

Example approx_quantile_int_max :
  approx_quantile (Some [5; INT_MAX]) None 2 2 (ddiv (of_Z 1) (of_Z 100)) (Some [0; 0]) 2
  = Ok (1, [5; 0]).
Proof. vm_compute. reflexivity. Qed.

(** ** The number and the size of the buffers *)

(** What the merges lose, in elements. *)
Definition max_loss (b : Z) : Z := Z.max 0 (b - 2) * 2 ^ (b - 2).

(** The test of the loop, for the double [e] that is [eps*siz]. *)
Definition b_small (e : double) (b : Z) : Prop := ((b - 2) * 2 ^ (b - 2) + 1) * dden e < dnum e.

Lemma mul_pow_bound m : 0 <= m <= 46 -> 0 <= m * 2 ^ m <= 46 * 2 ^ 46.
Proof.
  intros Hm. assert (2 ^ m <= 2 ^ 46) by (apply Z.pow_le_mono_r; lia).
  pose proof (Z.pow_pos_nonneg 2 m). nia.
Qed.

Lemma b_test e b :
  2 <= b <= 48 ->
  dlt (dadd (dmul (of_Z (b - 2)) (pow2 (b - 2))) (of_Z 1)) e = true <-> b_small e b.
Proof.
  intros Hb. pose proof (mul_pow_bound (b - 2)).
  assert (is_ratio (dadd (dmul (of_Z (b - 2)) (pow2 (b - 2))) (of_Z 1)) ((b - 2) * 2 ^ (b - 2) + 1) 1) as E.
  { pose proof (dadd_dyadic (dmul (of_Z (b - 2)) (pow2 (b - 2))) (of_Z 1) ((b - 2) * 2 ^ (b - 2)) 1 0) as D.
    rewrite Z.pow_0_r, Z.mul_1_l in D. apply D; try lia; [|apply of_Z_int; lia].
    apply dmul_int; [apply of_Z_int; lia|apply pow2_int; lia|lia]. }
  unfold is_ratio in E. rewrite Z.mul_1_r in E. unfold dlt, b_small. rewrite E, Z.ltb_lt.
  set (t := dadd _ _). pose proof (dden_pos t). split; intros Hlt.
  - apply (Z.mul_lt_mono_pos_r (dden t)); lia.
  - apply (Z.mul_lt_mono_pos_r (dden t)) in Hlt; lia.
Qed.

(** The double [eps*siz]. *)
Lemma eps_siz_bound eps n :
  0 <= mant eps -> 0 < n <= 2 ^ 44 ->
  let e := dmul eps (of_Z n) in
  0 <= dnum e /\ 2 ^ 53 * (dnum e * dden eps) <= (2 ^ 53 + 1) * (dnum eps * n * dden e).
Proof.
  intros Hm Hn e. pose proof (of_Z_exact n ltac:(lia)) as En. pose proof (dden_pos (of_Z n)) as Hdn.
  pose proof (dden_pos eps) as HA. unfold e, dmul. rewrite En. clear e.
  generalize dependent (dden (of_Z n)). intros d _ Hd.
  destruct (Z.eq_dec (mant eps) 0) as [E0|Hne].
  - assert (dnum eps = 0) as -> by (unfold dnum; rewrite E0; lia).
    destruct (round_ratio_zero (dden eps * d)) as [e0 E]; [nia|]. rewrite Z.mul_0_l, E.
    change (dnum (Dbl 0 e0)) with 0. lia.
  - pose proof (dnum_pos eps ltac:(lia)) as Ha.
    destruct (round_ratio_err (dnum eps * (n * d)) (dden eps * d)) as [He Her]; [nia|nia|].
    pose proof (dnum_pos _ He). split; [lia|]. apply (Z.mul_le_mono_pos_r _ _ d); [done|]. lia.
Qed.

Lemma b_small_bound e b : dnum e <= 2 ^ 45 * dden e -> 2 <= b -> b_small e b -> b <= 47.
Proof.
  unfold b_small. intros He Hb Hs. pose proof (dden_pos e) as HA.
  destruct (Z.le_gt_cases b 47) as [|Hbig]; [done|]. exfalso.
  assert (2 ^ 45 <= 2 ^ (b - 2)) by (apply Z.pow_le_mono_r; lia).
  assert (2 ^ 45 <= (b - 2) * 2 ^ (b - 2)) by nia.
  assert (2 ^ 45 * dden e <= (b - 2) * 2 ^ (b - 2) * dden e) by (apply Z.mul_le_mono_nonneg_r; lia).
  lia.
Qed.

Lemma b_loop_ok eps n fuel : forall b,
  let e := dmul eps (of_Z n) in
  dnum e <= 2 ^ 45 * dden e -> 2 <= b <= 48 -> 48 - b <= Z.of_nat fuel ->
  (b = 2 \/ b_small e (b - 1)) ->
  exists b', b_loop fuel eps n b = Ok b' /\ 2 <= b' <= 48 /\ (b' = 2 \/ b_small e (b' - 1)).
Proof.
  induction fuel as [|fuel IH]; intros b e He Hb Hf Hs; cbn [b_loop];
    pose proof (b_test e b Hb) as Ht; fold e;
    (destruct (dlt _ e) eqn:E; [|by exists b]);
    pose proof (proj1 Ht eq_refl) as Hs'; pose proof (b_small_bound e b He ltac:(lia) Hs'); [lia|].
  apply IH; [done|lia|lia|]. right. by replace (b + 1 - 1) with b by lia.
Qed.

(** The packets fit in the buffers, and the loss is within [eps]. *)
Lemma determine_b_k_ok eps n :
  0 <= mant eps -> dnum eps <= dden eps -> 0 < n <= 2 ^ 44 ->
  exists b k, determine_b_k eps n = Ok (b, k) /\ 1 <= b <= 47 /\ 10000 <= k /\
    n <= k * 2 ^ (b - 1) /\ max_loss b * dden eps <= n * dnum eps.
Proof.
  intros Hm H1 Hn. pose proof (dden_pos eps) as HA.
  pose proof (eps_siz_bound eps n Hm Hn) as He. cbv zeta in He.
  pose proof (b_loop_ok eps n 64 2) as Hl. cbv zeta in Hl.
  set (e := dmul eps (of_Z n)) in *. destruct He as [He0 He]. pose proof (dden_pos e) as HE.
  assert (0 <= dnum eps) as Ha by (unfold dnum; pose proof (pow2_pos (expo eps)); nia).
  assert (dnum e <= 2 ^ 45 * dden e) as He45.
  { apply (Z.mul_le_mono_pos_r _ _ (2 ^ 53 * dden eps)); [lia|].
    assert (dnum eps * n * dden e <= dden eps * 2 ^ 44 * dden e)
      by (apply Z.mul_le_mono_nonneg_r; [lia|]; apply Z.mul_le_mono_nonneg; lia). lia. }
  destruct (Hl He45 ltac:(lia) ltac:(lia) ltac:(by left)) as (b' & Eb & Hb & Hs).
  unfold determine_b_k. rewrite Eb. cbn [mbind res_bind].
  assert (1 <= b' - 1) as Hb1 by lia. set (b := b' - 1) in *. set (s := b - 1) in *.
  assert (0 <= s <= 46) as Hs' by lia.
  pose proof (Z.pow_pos_nonneg 2 s ltac:(lia) ltac:(lia)) as Hp.
  assert (2 ^ s <= 2 ^ 46) as Hp46 by (apply Z.pow_le_mono_r; lia).
  assert (trunc (pow2 s) = 2 ^ s) as ->.
  { rewrite (trunc_ratio _ (2 ^ s) 1) by (try apply pow2_int; lia). apply Z.div_1_r. }
  pose proof (ddiv_pow2 (of_Z n) n s (of_Z_int n ltac:(lia)) ltac:(lia) ltac:(lia)) as Hq.
  pose proof (dadd_dyadic _ (of_Z 1) n 1 s Hq (of_Z_int 1 ltac:(lia)) ltac:(lia) ltac:(lia)) as Hq1.
  rewrite (trunc_ratio _ _ _ Hp Hq), (trunc_ratio _ _ _ Hp Hq1), Z.div_add by lia.
  set (k := if n mod 2 ^ s =? 0 then n / 2 ^ s else n / 2 ^ s + 1).
  assert (n <= k * 2 ^ s) as Hk.
  { unfold k. pose proof (Z.div_mod n (2 ^ s) ltac:(lia)). pose proof (Z.mod_pos_bound n (2 ^ s) Hp).
    destruct (Z.eqb_spec (n mod 2 ^ s) 0); lia. }
  exists b, (if k <? 10000 then 10000 else k). split; [done|]. split; [lia|].
  split; [destruct (Z.ltb_spec k 10000); lia|]. split.
  { transitivity (k * 2 ^ s); [done|]. apply Z.mul_le_mono_nonneg_r; [lia|].
    destruct (Z.ltb_spec k 10000); lia. }
  destruct Hs as [->|Hs]; [unfold b, max_loss; simpl; nia|]. fold b in Hs. unfold b_small in Hs.
  unfold max_loss. destruct (Z.le_gt_cases b 2) as [Hb2|Hb2].
  { rewrite Z.max_l by lia. nia. }
  rewrite Z.max_r by lia. set (B := (b - 2) * 2 ^ (b - 2)) in *.
  assert (2 ^ 53 * ((B + 1) * dden e) * dden eps <= 2 ^ 53 * (dnum e * dden eps)) as G1.
  { rewrite <- Z.mul_assoc. apply Z.mul_le_mono_nonneg_l; [lia|].
    apply Z.mul_le_mono_nonneg_r; lia. }
  assert (2 ^ 53 * ((B + 1) * dden eps) <= (2 ^ 53 + 1) * (dnum eps * n)) as G2.
  { apply (Z.mul_le_mono_pos_r _ _ (dden e)); [done|]. lia. }
  assert (dnum eps * n <= dden eps * 2 ^ 44) by (apply Z.mul_le_mono_nonneg; lia). lia.
Qed.

(** ** Counting *)

(** The number of elements of at most [t]. *)
Definition cnt (t : Z) (l : list Z) : Z := zlen (filter (fun x => x <= t) l).

Lemma cnt_nil t : cnt t [] = 0.
Proof. done. Qed.

Lemma cnt_cons t v l : cnt t (v :: l) = (if v <=? t then 1 else 0) + cnt t l.
Proof.
  unfold cnt. rewrite filter_cons.
  destruct (Z.leb_spec v t); case_decide; rewrite ?zlen_cons; lia.
Qed.

Lemma cnt_app t l1 l2 : cnt t (l1 ++ l2) = cnt t l1 + cnt t l2.
Proof. unfold cnt. by rewrite filter_app, zlen_app. Qed.

Lemma cnt_perm t l1 l2 : l1 ≡ₚ l2 -> cnt t l1 = cnt t l2.
Proof. intros Hp. unfold cnt, zlen. by rewrite Hp. Qed.

Lemma cnt_bounds t l : 0 <= cnt t l <= zlen l.
Proof.
  induction l as [|v l IH]; [by vm_compute|]. rewrite cnt_cons, zlen_cons. destruct (v <=? t); lia.
Qed.

Lemma cnt_all t l : Forall (fun v => v <= t) l -> cnt t l = zlen l.
Proof.
  induction 1 as [|v l Hv _ IH]; [done|]. rewrite cnt_cons, zlen_cons, IH.
  by rewrite (proj2 (Z.leb_le v t)).
Qed.

Lemma cnt_none t l : Forall (fun v => t < v) l -> cnt t l = 0.
Proof.
  induction 1 as [|v l Hv _ IH]; [done|]. rewrite cnt_cons, IH. by rewrite (proj2 (Z.leb_gt v t)).
Qed.
Arguments cnt : simpl never.

(** The weight of the elements of at most [t]. *)
Fixpoint wle (t : Z) (m : list (Z * Z)) : Z :=
  match m with [] => 0 | (v, w) :: m => (if v <=? t then w else 0) + wle t m end.

(** ** Merging *)

Fixpoint wmerge (w1 w2 : Z) (b1 b2 : list Z) : list (Z * Z) :=
  let fix go b2 :=
    match b1, b2 with
    | [], _ => (fun v => (v, w2)) <$> b2
    | _, [] => (fun v => (v, w1)) <$> b1
    | a :: t1, b :: t2 =>
        if a <=? b then (a, w1) :: wmerge w1 w2 t1 b2 else (b, w2) :: go t2
    end in
  go b2.

Lemma wmerge_nil_l w1 w2 b2 : wmerge w1 w2 [] b2 = (fun v => (v, w2)) <$> b2.
Proof. by destruct b2. Qed.
Lemma wmerge_nil_r w1 w2 b1 : wmerge w1 w2 b1 [] = (fun v => (v, w1)) <$> b1.
Proof. by destruct b1. Qed.
Lemma wmerge_cons w1 w2 a t1 b t2 :
  wmerge w1 w2 (a :: t1) (b :: t2)
  = if a <=? b then (a, w1) :: wmerge w1 w2 t1 (b :: t2) else (b, w2) :: wmerge w1 w2 (a :: t1) t2.
Proof. done. Qed.
Arguments wmerge : simpl never.

Section merge.
Context (w1 w2 : Z).
Abbreviation wm := (wmerge w1 w2).

Lemma wmerge_length b1 : forall b2, length (wm b1 b2) = (length b1 + length b2)%nat.
Proof.
  induction b1 as [|a b1 IH1]; intros b2; [by rewrite wmerge_nil_l, length_fmap|].
  induction b2 as [|b b2 IH2]; [rewrite wmerge_nil_r, length_fmap; simpl; lia|].
  rewrite wmerge_cons. destruct (a <=? b); simpl; [rewrite IH1|rewrite IH2]; simpl; lia.
Qed.

Lemma wle_const t w b : wle t ((fun v => (v, w)) <$> b) = w * cnt t b.
Proof.
  induction b as [|v b IH]; [rewrite cnt_nil; simpl; lia|].
  rewrite fmap_cons, cnt_cons. cbn [wle]. rewrite IH. destruct (v <=? t); lia.
Qed.

Lemma wmerge_wle t b1 : forall b2, wle t (wm b1 b2) = w1 * cnt t b1 + w2 * cnt t b2.
Proof.
  induction b1 as [|a b1 IH1]; intros b2; [rewrite wmerge_nil_l, wle_const, cnt_nil; lia|].
  induction b2 as [|b b2 IH2]; [rewrite wmerge_nil_r, wle_const, cnt_nil; lia|].
  rewrite wmerge_cons. destruct (a <=? b); cbn [wle]; [rewrite IH1|rewrite IH2];
    rewrite !cnt_cons; destruct (a <=? t), (b <=? t); lia.
Qed.

Lemma fst_weighted (w : Z) (b : list Z) : ((fun v => (v, w)) <$> b).*1 = b.
Proof. rewrite <- list_fmap_compose. apply list_fmap_id. Qed.

Lemma wmerge_above k b1 : forall b2,
  Forall (Z.le k) b1 -> Forall (Z.le k) b2 -> Forall (Z.le k) (wm b1 b2).*1.
Proof.
  induction b1 as [|a b1 IH1]; intros b2 H1 H2; [by rewrite wmerge_nil_l, fst_weighted|].
  induction b2 as [|b b2 IH2]; [by rewrite wmerge_nil_r, fst_weighted|].
  rewrite wmerge_cons. pose proof H1 as [Ha H1']%Forall_cons. pose proof H2 as [Hb H2']%Forall_cons.
  destruct (a <=? b); simpl; constructor; auto.
Qed.

Lemma wmerge_sorted b1 : forall b2,
  StronglySorted Z.le b1 -> StronglySorted Z.le b2 -> StronglySorted Z.le (wm b1 b2).*1.
Proof.
  induction b1 as [|a b1 IH1]; intros b2 H1 H2; [by rewrite wmerge_nil_l, fst_weighted|].
  induction b2 as [|b b2 IH2]; [by rewrite wmerge_nil_r, fst_weighted|].
  rewrite wmerge_cons. pose proof H1 as [H1' Ha]%StronglySorted_inv.
  pose proof H2 as [H2' Hb]%StronglySorted_inv.
  destruct (Z.leb_spec a b); simpl; (constructor; [auto|]); apply wmerge_above; try done;
    (constructor; [lia|]); (eapply Forall_impl; [eassumption|]); simpl; lia.
Qed.

Lemma wmerge_weights (P : Z -> Prop) b1 : forall b2,
  P w1 -> P w2 -> Forall P (wm b1 b2).*2.
Proof.
  assert (forall w b, P w -> Forall P ((fun v : Z => (v, w)) <$> b).*2) as E.
  { intros w b Hw. induction b; by constructor. }
  induction b1 as [|a b1 IH1]; intros b2 H1 H2; [rewrite wmerge_nil_l; by apply E|].
  induction b2 as [|b b2 IH2]; [rewrite wmerge_nil_r; by apply E|].
  rewrite wmerge_cons. destruct (a <=? b); simpl; constructor; auto.
Qed.

Lemma collapse_merge_ok k fuel : forall p1 r1 p2 r2 done t1 t2,
  (length r1 + length r2 < fuel)%nat ->
  zlen (p1 ++ r1) = k -> zlen (p2 ++ r2) = k ->
  length t1 = (length r1 + length r2)%nat -> length t2 = (length r1 + length r2)%nat ->
  collapse_merge fuel (p1 ++ r1) (p2 ++ r2) w1 w2 k (zlen p1) (zlen p2) (zlen done)
      (done.*1 ++ t1) (done.*2 ++ t2)
    = Ok ((done ++ wm r1 r2).*1, (done ++ wm r1 r2).*2).
Proof.
  induction fuel as [|fuel IH]; intros p1 r1 p2 r2 done t1 t2 Hf H1 H2 Ht1 Ht2; [lia|].
  assert (forall p r : list Z, zlen (p ++ r) = k ->
    (zlen p <? k) = match r with [] => false | _ => true end /\
    (zlen p =? k) = match r with [] => true | _ => false end) as Hlen.
  { intros p r <-. rewrite zlen_app. destruct r as [|x r].
    - change (zlen []) with 0. split; [apply Z.ltb_ge; lia|apply Z.eqb_eq; lia].
    - rewrite zlen_cons. pose proof (zlen_nonneg r).
      split; [apply Z.ltb_lt; lia|apply Z.eqb_neq; lia]. }
  cbn [collapse_merge]. destruct (Hlen _ _ H1) as [-> ->], (Hlen _ _ H2) as [-> ->]. clear Hlen.
  assert (forall v w x y u1 u2, t1 = x :: u1 -> t2 = y :: u2 ->
    wr (done.*1 ++ t1) (zlen done) v = Ok ((done ++ [(v, w)]).*1 ++ u1) /\
    wr (done.*2 ++ t2) (zlen done) w = Ok ((done ++ [(v, w)]).*2 ++ u2)) as Hwr.
  { intros v w x y u1 u2 -> ->. split; [apply Frequent.wr_id|apply Frequent.wr_freq]. }
  destruct r1 as [|a r1], r2 as [|b r2]; cbn [andb].
  - destruct t1, t2; try done. by rewrite wmerge_nil_l, !app_nil_r.
  - destruct t1 as [|x t1], t2 as [|y t2]; try done. rewrite rd_middle. cbn [mbind res_bind].
    destruct (Hwr b w2 x y t1 t2) as [-> ->]; [done..|]. cbn [mbind res_bind].
    rewrite <- (zlen_snoc p2 b), <- (zlen_snoc done (b, w2)), (app_cons_snoc p2 r2 b) in *.
    rewrite IH by (simpl in *; lia || done). rewrite !wmerge_nil_l, fmap_cons. by rewrite <- app_assoc.
  - destruct t1 as [|x t1], t2 as [|y t2]; try done. rewrite rd_middle. cbn [mbind res_bind].
    destruct (Hwr a w1 x y t1 t2) as [-> ->]; [done..|]. cbn [mbind res_bind].
    rewrite <- (zlen_snoc p1 a), <- (zlen_snoc done (a, w1)), (app_cons_snoc p1 r1 a) in *.
    rewrite IH by (simpl in *; lia || done). rewrite !wmerge_nil_r, fmap_cons. by rewrite <- app_assoc.
  - destruct t1 as [|x t1], t2 as [|y t2]; try done. rewrite !rd_middle. cbn [mbind res_bind].
    rewrite wmerge_cons. destruct (a <=? b).
    + destruct (Hwr a w1 x y t1 t2) as [-> ->]; [done..|]. cbn [mbind res_bind].
      rewrite <- (zlen_snoc p1 a), <- (zlen_snoc done (a, w1)), (app_cons_snoc p1 r1 a) in *.
      rewrite IH by (simpl in *; lia || done). by rewrite <- app_assoc.
    + destruct (Hwr b w2 x y t1 t2) as [-> ->]; [done..|]. cbn [mbind res_bind].
      rewrite <- (zlen_snoc p2 b), <- (zlen_snoc done (b, w2)), (app_cons_snoc p2 r2 b) in *.
      rewrite IH by (simpl in *; lia || done). by rewrite <- app_assoc.
Qed.
End merge.

(** ** Picking *)

Section pick.
Context (o W : Z) (Ho : 0 < o <= W).

(** The number of multiples [o + j * W] up to [K]. *)
Definition picked (K : Z) : Z := (K + W - o) / W.

Lemma picked_0 : picked 0 = 0.
Proof. unfold picked. apply Z.div_small. lia. Qed.

Lemma picked_le K j : o + j * W <= K <-> j < picked K.
Proof.
  unfold picked. assert (K + W - o = K - o - j * W + (j + 1) * W) as -> by lia.
  rewrite Z.div_add by lia. split; intros Hj.
  - pose proof (Z.div_pos (K - o - j * W) W). lia.
  - destruct (Z.le_gt_cases 0 (K - o - j * W)); [lia|].
    assert ((K - o - j * W) / W < 0) by (apply Z.div_lt_upper_bound; lia). lia.
Qed.

Lemma picked_mono K K' : K <= K' -> picked K <= picked K'.
Proof. intros. apply Z.div_le_mono; lia. Qed.

Lemma picked_err K : - o < W * picked K - K <= W - o.
Proof.
  unfold picked. pose proof (Z.mul_div_le (K + W - o) W). pose proof (Z.mul_succ_div_gt (K + W - o) W).
  lia.
Qed.

Fixpoint picks (K : Z) (m : list (Z * Z)) : list Z :=
  match m with
  | [] => []
  | (v, w) :: m => replicate (Z.to_nat (picked (K + w) - picked K)) v ++ picks (K + w) m
  end.

Definition wsum (m : list (Z * Z)) : Z := foldr (fun p a => p.2 + a) 0 m.

Lemma picks_length m : forall K, Forall (Z.le 0) m.*2 ->
  zlen (picks K m) = picked (K + wsum m) - picked K /\ 0 <= wsum m.
Proof.
  induction m as [|[v w] m IH]; intros K Hm; [simpl; rewrite Z.add_0_r; split; [change (zlen []) with 0|]; lia|].
  apply Forall_cons in Hm as [Hw Hm]. simpl in *. destruct (IH (K + w) Hm) as [E ?].
  pose proof (picked_mono K (K + w) ltac:(lia)).
  rewrite zlen_app, E. unfold zlen. rewrite length_replicate, Z.add_assoc. lia.
Qed.

Lemma picks_Forall (P : Z -> Prop) m : forall K, Forall P m.*1 -> Forall P (picks K m).
Proof.
  induction m as [|[v w] m IH]; intros K Hm; [constructor|]. apply Forall_cons in Hm as [Hv Hm].
  simpl. apply Forall_app. split; [|by apply IH]. apply Forall_replicate, Hv.
Qed.

Lemma replicate_sorted n (v : Z) l :
  StronglySorted Z.le l -> Forall (Z.le v) l -> StronglySorted Z.le (replicate n v ++ l).
Proof.
  intros Hl Hv. induction n as [|n IH]; [done|]. simpl. constructor; [done|].
  apply Forall_app. split; [|done]. apply Forall_replicate. lia.
Qed.

Lemma picks_sorted m : forall K, StronglySorted Z.le m.*1 -> StronglySorted Z.le (picks K m).
Proof.
  induction m as [|[v w] m IH]; intros K Hs; [constructor|].
  apply StronglySorted_inv in Hs as [Hs Hv]. simpl in *.
  apply replicate_sorted; [by apply IH|by apply picks_Forall].
Qed.

Lemma cnt_replicate t n v : cnt t (replicate n v) = if v <=? t then Z.of_nat n else 0.
Proof.
  induction n as [|n IH]; [by destruct (v <=? t)|]. cbn [replicate]. rewrite cnt_cons, IH.
  destruct (v <=? t); lia.
Qed.

Lemma wle_nonneg t m : Forall (Z.le 0) m.*2 -> 0 <= wle t m.
Proof.
  induction m as [|[v w] m IH]; [done|]. intros [Hw Hm]%Forall_cons. specialize (IH Hm).
  simpl in *. destruct (v <=? t); lia.
Qed.

Lemma wle_none t m : Forall (Z.lt t) m.*1 -> wle t m = 0.
Proof.
  induction m as [|[v w] m IH]; [done|]. intros [Hv Hm]%Forall_cons. simpl in *.
  rewrite IH by done. by rewrite (proj2 (Z.leb_gt v t)).
Qed.

(** The elements picked are as many as the weight below them says. *)
Lemma picks_cnt t m : forall K,
  StronglySorted Z.le m.*1 -> Forall (Z.le 0) m.*2 ->
  cnt t (picks K m) = picked (K + wle t m) - picked K.
Proof.
  induction m as [|[v w] m IH]; intros K Hs Hm.
  { simpl. rewrite Z.add_0_r. rewrite cnt_nil. lia. }
  apply StronglySorted_inv in Hs as [Hs Hv]. apply Forall_cons in Hm as [Hw Hm]. simpl in *.
  rewrite cnt_app, cnt_replicate, IH by done.
  pose proof (picked_mono K (K + w) ltac:(lia)).
  destruct (Z.leb_spec v t) as [Hvt|Hvt]; [rewrite Z.add_assoc; lia|].
  rewrite wle_none; [rewrite !Z.add_0_r; lia|].
  eapply Forall_impl; [exact Hv|]. simpl. lia.
Qed.

Lemma pick_value_ok v K fuel : forall out rest,
  zlen out <= picked K -> (Z.to_nat (picked K - zlen out) <= fuel)%nat ->
  picked K - zlen out <= zlen rest ->
  let c := Z.to_nat (picked K - zlen out) in
  pick_value fuel v K o W (zlen out) (out ++ rest)
  = Ok (picked K, (out ++ replicate c v) ++ drop c rest).
Proof.
  induction fuel as [|fuel IH]; intros out rest Hle Hf Hr; cbn [pick_value];
    pose proof (picked_le K (zlen out)) as Hc;
    (destruct (Z.leb_spec (o + zlen out * W) K) as [Hlt|Hge];
      [apply Hc in Hlt|assert (zlen out = picked K) as E by lia;
        rewrite E, Z.sub_diag; simpl; by rewrite app_nil_r]); [lia|].
  destruct rest as [|x rest]; [change (zlen []) with 0 in Hr; lia|]. rewrite Uniq.wr_next.
  cbn [mbind res_bind]. rewrite <- (zlen_snoc out v). rewrite zlen_cons in Hr.
  pose proof (zlen_snoc out v) as Es. rewrite IH by lia.
  replace (Z.to_nat (picked K - zlen out)) with (S (Z.to_nat (picked K - zlen (out ++ [v])))) by lia.
  simpl. by rewrite <- !app_assoc.
Qed.

Lemma pick_loop_ok m2 : forall m1 K out rest,
  zlen out = picked K -> Forall (Z.le 0) m2.*2 -> (length (picks K m2) <= length rest)%nat ->
  pick_loop (length m2) (m1 ++ m2).*1 (m1 ++ m2).*2 o W (zlen m1) (zlen out) K (out ++ rest)
  = Ok ((out ++ picks K m2) ++ drop (length (picks K m2)) rest).
Proof.
  induction m2 as [|[v w] m2 IH]; intros m1 K out rest Hout Hm Hr.
  { simpl. by rewrite app_nil_r. }
  apply Forall_cons in Hm as [Hw Hm]. simpl in Hw. cbn [length pick_loop].
  assert (rd (m1 ++ (v, w) :: m2).*1 (zlen m1) = Ok v /\ rd (m1 ++ (v, w) :: m2).*2 (zlen m1) = Ok w)
    as [Hv' Hw'].
  { rewrite !fmap_app. split; [rewrite <- (zlen_fmap fst m1)|rewrite <- (zlen_fmap snd m1)];
      apply rd_middle. }
  rewrite Hv', Hw'. cbn [mbind res_bind]. pose proof (picked_mono K (K + w) ltac:(lia)) as Hmono.
  cbn [picks] in Hr |- *. rewrite <- Hout in Hr |- *.
  set (c := Z.to_nat (picked (K + w) - zlen out)) in *.
  rewrite length_app, length_replicate in Hr.
  rewrite pick_value_ok by (rewrite ?length_app; unfold zlen in *; lia). fold c. cbn [mbind res_bind].
  set (out' := out ++ replicate c v).
  assert (zlen out' = picked (K + w)) as Hout'.
  { unfold out'. rewrite zlen_app. unfold zlen at 2. rewrite length_replicate. lia. }
  rewrite <- Hout', <- (zlen_snoc m1 (v, w)), (app_cons_snoc m1 m2).
  rewrite IH by (try done; rewrite length_drop; lia).
  rewrite length_app, length_replicate, drop_drop. unfold out'. by rewrite <- !app_assoc.
Qed.
End pick.

Lemma wsum_const w b : wsum ((fun v : Z => (v, w)) <$> b) = w * zlen b.
Proof.
  induction b as [|v b IH]; [change (zlen []) with 0; simpl; lia|].
  rewrite fmap_cons, zlen_cons. cbn [wsum foldr snd]. unfold wsum in IH. rewrite IH. lia.
Qed.

Lemma wmerge_wsum w1 w2 b1 : forall b2, wsum (wmerge w1 w2 b1 b2) = w1 * zlen b1 + w2 * zlen b2.
Proof.
  unfold wsum. induction b1 as [|a b1 IH1]; intros b2.
  { rewrite wmerge_nil_l. change (zlen []) with 0. pose proof (wsum_const w2 b2). unfold wsum in *. lia. }
  induction b2 as [|b b2 IH2].
  { rewrite wmerge_nil_r. change (zlen []) with 0. pose proof (wsum_const w1 (a :: b1)). unfold wsum in *. lia. }
  rewrite wmerge_cons. destruct (a <=? b); cbn [foldr snd]; [rewrite IH1|rewrite IH2];
    rewrite !zlen_cons; lia.
Qed.

(** The merge of two buffers. *)
Definition merged (w1 w2 : Z) (b1 b2 : list Z) : list Z :=
  picks ((w1 + w2) / 2) (w1 + w2) 0 (wmerge w1 w2 b1 b2).

Lemma Collapse_eq b1 b2 ws i1 i2 b k w1 w2 :
  zlen b1 = k -> zlen b2 = k -> zlen ws = b ->
  rd ws i1 = Ok w1 -> rd ws i2 = Ok w2 -> 0 < w1 -> 0 < w2 -> w1 + w2 <= INT_MAX ->
  Collapse b1 b2 ws i1 i2 b k = Ok (merged w1 w2 b1 b2, zset (zset ws i1 (w1 + w2)) i2 0)
  /\ zlen (merged w1 w2 b1 b2) = k.
Proof.
  unfold INT_MAX. intros H1 H2 Hws R1 R2 Hw1 Hw2 Hmax. unfold Collapse.
  pose proof R1 as G1%rd_Ok%zlookup_Some_range. pose proof R2 as G2%rd_Ok%zlookup_Some_range.
  rewrite !(proj2 (Z.ltb_ge _ _)), !(proj2 (Z.leb_gt _ _)) by lia. cbn [orb go_BYE_if mbind res_bind].
  rewrite R1, R2. cbn [mbind res_bind]. rewrite !(proj2 (Z.leb_gt _ _)) by lia.
  cbn [orb go_BYE_if mbind res_bind]. set (W := w1 + w2) in *. set (m := wmerge w1 w2 b1 b2).
  assert (Z.to_nat (2 * k) = (length b1 + length b2)%nat) as En by (unfold zlen in *; lia).
  pose proof (collapse_merge_ok w1 w2 k (S (Z.to_nat (2 * k))) [] b1 [] b2 []
    (replicate (Z.to_nat (2 * k)) 0) (replicate (Z.to_nat (2 * k)) 0)) as Hm.
  simpl app in Hm. change (zlen []) with 0 in Hm. change ([].*1 ++ ?x) with x in Hm.
  rewrite Hm by (rewrite ?length_replicate; done || lia). clear Hm. cbn [mbind res_bind].
  rewrite add_to_Ok by (unfold inS; lia). cbn [mbind res_bind]. fold m. fold W.
  assert (0 < W / 2 <= W) as Ho by (split; [apply Z.div_str_pos; lia|apply Z.div_le_upper_bound; lia]).
  assert (Forall (Z.le 0) m.*2) as Hpos by (apply wmerge_weights; lia).
  destruct (picks_length (W / 2) W Ho m 0 Hpos) as [El _].
  assert (wsum m = W * k) as Es.
  { unfold m. rewrite wmerge_wsum, H1, H2. unfold W. lia. }
  assert (picked (W / 2) W (W * k) = k) as Ek.
  { unfold picked. replace (W * k + W - W / 2) with (W - W / 2 + k * W) by lia.
    rewrite Z.div_add, Z.div_small by lia. lia. }
  rewrite Z.add_0_l, Es, Ek, picked_0, Z.sub_0_r in El by lia.
  pose proof (pick_loop_ok (W / 2) W Ho m [] 0 [] b1) as Hp. simpl app in Hp.
  change (zlen []) with 0 in Hp.
  assert (length m = Z.to_nat (2 * k)) as Elm by (unfold m; rewrite wmerge_length; lia).
  rewrite <- Elm, Hp; [|by rewrite picked_0|done|unfold zlen in *; lia]. cbn [mbind res_bind].
  rewrite wr_Ok by lia. cbn [mbind res_bind]. rewrite wr_Ok by (rewrite zlen_zset; lia).
  cbn [mbind res_bind]. change (merged w1 w2 b1 b2) with (picks (W / 2) W 0 m).
  split; [|done]. rewrite drop_ge by (unfold zlen in *; lia). by rewrite app_nil_r.
Qed.

Lemma merged_sorted w1 w2 b1 b2 :
  StronglySorted Z.le b1 -> StronglySorted Z.le b2 -> StronglySorted Z.le (merged w1 w2 b1 b2).
Proof. intros H1 H2. by apply picks_sorted, wmerge_sorted. Qed.

Lemma merged_cnt w1 w2 b1 b2 t :
  0 < w1 -> 0 < w2 -> StronglySorted Z.le b1 -> StronglySorted Z.le b2 ->
  cnt t (merged w1 w2 b1 b2)
  = picked ((w1 + w2) / 2) (w1 + w2) (w1 * cnt t b1 + w2 * cnt t b2).
Proof.
  intros Hw1 Hw2 H1 H2.
  assert (0 < (w1 + w2) / 2 <= w1 + w2) as Ho
    by (split; [apply Z.div_str_pos; lia|apply Z.div_le_upper_bound; lia]).
  unfold merged. rewrite picks_cnt; [|done|by apply wmerge_sorted|apply wmerge_weights; lia].
  by rewrite wmerge_wle, picked_0, Z.sub_0_r.
Qed.

(** Two buffers of the same weight: every second element, and the error is
    one-sided. *)
Lemma merged_same w b1 b2 t :
  0 < w -> StronglySorted Z.le b1 -> StronglySorted Z.le b2 ->
  0 <= (w + w) * cnt t (merged w w b1 b2) - (w * cnt t b1 + w * cnt t b2) <= w.
Proof.
  intros Hw H1 H2. rewrite merged_cnt by done.
  replace ((w + w) / 2) with w by (symmetry; replace (w + w) with (w * 2) by lia; by rewrite Z.div_mul).
  unfold picked. set (c := cnt t b1 + cnt t b2).
  replace (w * cnt t b1 + w * cnt t b2 + (w + w) - w) with (w * (c + 1)) by (unfold c; lia).
  replace (w + w) with (w * 2) by lia. rewrite Z.div_mul_cancel_l by lia.
  pose proof (Z.div_mod (c + 1) 2). pose proof (Z.mod_pos_bound (c + 1) 2). unfold c in *. nia.
Qed.

(** Claim C39. [Collapse] returns; the merge of two sorted buffers of any weights stays sorted and
    has as many elements; weighted, its ranks differ from those of the two
    buffers by at most half the new weight. *)
Theorem Collapse_rank_error b1 b2 ws i1 i2 b k w1 w2 :
  zlen b1 = k -> zlen b2 = k -> StronglySorted Z.le b1 -> StronglySorted Z.le b2 ->
  zlen ws = b -> rd ws i1 = Ok w1 -> rd ws i2 = Ok w2 -> i1 <> i2 ->
  0 < w1 -> 0 < w2 -> w1 + w2 <= INT_MAX ->
  exists out ws', Collapse b1 b2 ws i1 i2 b k = Ok (out, ws') /\
    zlen out = k /\ StronglySorted Z.le out /\
    rd ws' i1 = Ok (w1 + w2) /\ rd ws' i2 = Ok 0 /\
    (forall j, j <> i1 -> j <> i2 -> rd ws' j = rd ws j) /\
    forall t, - ((w1 + w2) / 2) < (w1 + w2) * cnt t out - (w1 * cnt t b1 + w2 * cnt t b2)
              <= w1 + w2 - (w1 + w2) / 2.
Proof.
  intros H1 H2 S1 S2 Hws R1 R2 Hne Hw1 Hw2 Hmax.
  destruct (Collapse_eq b1 b2 ws i1 i2 b k w1 w2) as [E El]; [done..|].
  pose proof R1 as G1%rd_Ok%zlookup_Some_range. pose proof R2 as G2%rd_Ok%zlookup_Some_range.
  do 2 eexists. split; [exact E|]. split; [done|]. split; [by apply merged_sorted|].
  split; [|split; [|split]].
  - apply rd_Ok. rewrite zlookup_zset_ne, zlookup_zset_eq by lia. done.
  - apply rd_Ok. rewrite zlookup_zset_eq by (rewrite zlen_zset; lia). done.
  - intros j Hj1 Hj2. unfold rd. by rewrite !zlookup_zset_ne by lia.
  - intros t. rewrite merged_cnt by done. apply picked_err.
    split; [apply Z.div_str_pos; lia|apply Z.div_le_upper_bound; lia].
Qed.

Lemma Collapse_rank_error_witness :
  exists out ws', Collapse [1; 3; 5] [2; 4; 6] [2; 2] 0 1 2 3 = Ok (out, ws') /\
    zlen out = 3 /\ StronglySorted Z.le out /\
    rd ws' 0 = Ok (2 + 2) /\ rd ws' 1 = Ok 0 /\
    (forall j, j <> 0 -> j <> 1 -> rd ws' j = rd [2; 2] j) /\
    forall t, - ((2 + 2) / 2) < (2 + 2) * cnt t out - (2 * cnt t [1; 3; 5] + 2 * cnt t [2; 4; 6])
              <= 2 + 2 - (2 + 2) / 2.
Proof.
  apply (Collapse_rank_error [1; 3; 5] [2; 4; 6] [2; 2] 0 1 2 3 2 2); try reflexivity; try lia.
  - repeat (constructor; try lia).
  - repeat (constructor; try lia).
  - unfold INT_MAX. lia.
Defined.

(** ** Distinct powers of two *)

Definition zsum (l : list Z) : Z := foldr Z.add 0 l.

Lemma zsum_app l1 l2 : zsum (l1 ++ l2) = zsum l1 + zsum l2.
Proof. unfold zsum. induction l1 as [|x l1 IH]; simpl; lia. Qed.

Lemma zsum_perm l1 l2 : l1 ≡ₚ l2 -> zsum l1 = zsum l2.
Proof. unfold zsum. induction 1; simpl; lia. Qed.

Lemma zsum_nonneg l : Forall (Z.le 0) l -> 0 <= zsum l.
Proof. unfold zsum. induction 1; simpl; lia. Qed.

Lemma NoDup_large (hs : list nat) n : NoDup hs -> length hs = S n -> exists h, h ∈ hs /\ (n <= h)%nat.
Proof.
  intros Hnd Hlen.
  destruct (decide (Exists (fun h => (n <= h)%nat) hs)) as [Hex|Hno].
  - apply Exists_exists in Hex as (h & Hin & Hh). by exists h.
  - exfalso. assert (hs ⊆+ seq 0 n) as Hsub.
    { apply NoDup_submseteq; [done|]. intros h Hin. apply elem_of_seq.
      destruct (decide (n <= h)%nat); [|lia]. destruct Hno. apply Exists_exists. by exists h. }
    apply submseteq_length in Hsub. rewrite length_seq in Hsub. lia.
Qed.

Lemma distinct_powers n : forall hs : list nat,
  NoDup hs -> length hs = n -> 2 ^ Z.of_nat n - 1 <= zsum ((fun h => 2 ^ Z.of_nat h) <$> hs).
Proof.
  induction n as [|n IH]; intros hs Hnd Hlen; [by destruct hs|].
  destruct (NoDup_large hs n Hnd Hlen) as (h & Hin & Hh).
  apply list_elem_of_split in Hin as (l1 & l2 & ->).
  assert (l1 ++ h :: l2 ≡ₚ h :: l1 ++ l2) as Hp by (symmetry; apply Permutation_middle).
  rewrite Hp in Hnd. apply NoDup_cons in Hnd as [_ Hnd].
  specialize (IH (l1 ++ l2) Hnd). rewrite length_app in Hlen, IH. simpl in Hlen.
  rewrite (zsum_perm _ _ (fmap_Permutation _ _ _ Hp)). rewrite fmap_cons. unfold zsum in *. simpl.
  assert (2 ^ Z.of_nat n <= 2 ^ Z.of_nat h) by (apply Z.pow_le_mono_r; lia).
  rewrite Nat2Z.inj_succ, Z.pow_succ_r by lia. specialize (IH ltac:(lia)). simpl in IH. lia.
Qed.

(** ** The search for two buffers of the same weight *)

Lemma pair_inner_ok ws ii n : forall jj,
  Forall (Z.lt 0) ws -> 0 <= ii < zlen ws -> 0 <= jj -> Z.of_nat n = Z.max 0 (zlen ws - jj) ->
  exists r, pair_inner n ws ii jj = Ok r /\
    match r with
    | Some j => jj <= j < zlen ws /\ ws !z j = ws !z ii
    | None => forall j, jj <= j < zlen ws -> ws !z j <> ws !z ii
    end.
Proof.
  induction n as [|n IH]; intros jj Hpos Hii Hjj Hn; cbn [pair_inner].
  - exists None. split; [done|]. lia.
  - destruct (rd_total ws ii Hii) as [a Ha]. destruct (rd_total ws jj ltac:(lia)) as [b Hb].
    rewrite Ha, Hb. cbn [mbind res_bind]. apply rd_Ok in Ha, Hb.
    assert (0 < a) as Hapos.
    { rewrite Forall_lookup in Hpos. rewrite zlookup_to_nat in Ha by lia. by apply (Hpos _ _ Ha). }
    rewrite (proj2 (Z.ltb_lt 0 a)), andb_true_r by done. destruct (Z.eqb_spec a b) as [->|Hne].
    + exists (Some jj). split; [done|]. split; [lia|]. by rewrite Ha, Hb.
    + destruct (IH (jj + 1)) as (r & -> & Hr); [done|done|lia|lia|]. exists r. split; [done|].
      destruct r as [j|]; [by split; [lia|apply Hr]|]. intros j Hj.
      destruct (decide (j = jj)) as [->|]; [rewrite Ha, Hb; congruence|apply Hr; lia].
Qed.

Lemma pair_outer_ok ws n : forall ii,
  Forall (Z.lt 0) ws -> 0 <= ii -> Z.of_nat n = Z.max 0 (zlen ws - 1 - ii) ->
  (exists i j, pair_outer n (zlen ws) ws ii = Ok (i, j) /\ 0 <= i < j /\ j < zlen ws /\
    ws !z i = ws !z j) \/
  (forall i j, ii <= i < j -> j < zlen ws -> ws !z i <> ws !z j).
Proof.
  induction n as [|n IH]; intros ii Hpos Hii Hn; cbn [pair_outer]; [right; lia|].
  destruct (pair_inner_ok ws ii (Z.to_nat (zlen ws - (ii + 1))) (ii + 1)) as (r & -> & Hr);
    [done|lia..|]. cbn [mbind res_bind]. destruct r as [j|].
  - left. exists ii, j. destruct Hr as [Hj Hr]. by repeat split; try lia.
  - destruct (IH (ii + 1)) as [(i & j & H1 & H2 & H3)|Hno]; [done|lia|lia|by left; exists i, j|].
    right. intros i j Hij Hj. destruct (decide (i = ii)) as [->|]; [|apply Hno; lia].
    intros E. apply (Hr j ltac:(lia)). done.
Qed.

(** Powers of two whose sum is small are not distinct. *)
Lemma pair_found ws :
  Forall (fun w => exists h, 0 <= h /\ w = 2 ^ h) ws -> zsum ws < 2 ^ zlen ws - 1 ->
  exists i j, pair_outer (Z.to_nat (zlen ws - 1)) (zlen ws) ws 0 = Ok (i, j) /\ 0 <= i < j /\
    j < zlen ws /\ ws !z i = ws !z j.
Proof.
  intros Hpow Hsum.
  assert (Forall (Z.lt 0) ws) as Hpos.
  { eapply Forall_impl; [exact Hpow|]. simpl. intros w (h & Hh & ->). by apply Z.pow_pos_nonneg. }
  destruct (pair_outer_ok ws (Z.to_nat (zlen ws - 1)) 0) as [Hyes|Hno]; [done|lia|lia|done|].
  exfalso. assert (exists hs : list nat, ws = (fun h => 2 ^ Z.of_nat h) <$> hs) as [hs ->].
  { clear -Hpow. induction Hpow as [|w ws (h & Hh & ->) _ [hs IH]]; [by exists []|].
    exists (Z.to_nat h :: hs). rewrite fmap_cons, <- IH. by rewrite Z2Nat.id. }
  assert (NoDup hs) as Hnd.
  { apply NoDup_alt. intros i j h Hi Hj.
    assert (forall i j : nat, (i < j)%nat -> hs !! i = Some h -> hs !! j = Some h -> False) as Hlt.
    { intros i' j' Hij Hi' Hj'. pose proof (lookup_lt_Some _ _ _ Hj').
      apply (Hno (Z.of_nat i') (Z.of_nat j')); [lia|rewrite zlen_fmap; unfold zlen; lia|].
      rewrite !zlookup_nat, !list_lookup_fmap, Hi', Hj'. done. }
    destruct (lt_eq_lt_dec i j) as [[|]|]; [exfalso; eauto|done|exfalso; eauto]. }
  pose proof (distinct_powers (length hs) hs Hnd eq_refl). rewrite zlen_fmap in Hsum.
  unfold zlen in Hsum. lia.
Qed.

Lemma empty_loop_ok ws n : forall ii,
  0 <= ii -> Z.of_nat n = zlen ws - ii -> (exists i, ii <= i /\ ws !z i = Some 0) ->
  exists i, empty_loop n ws ii = Ok i /\ ws !z i = Some 0.
Proof.
  induction n as [|n IH]; intros ii Hii Hn (i & Hi & Hz); pose proof (zlookup_Some_range _ _ _ Hz).
  { lia. }
  cbn [empty_loop]. destruct (rd_total ws ii ltac:(lia)) as [w Hw]. rewrite Hw. cbn [mbind res_bind].
  apply rd_Ok in Hw. destruct (Z.eqb_spec w 0) as [->|Hne]; [by exists ii|].
  apply IH; [lia|lia|]. exists i. split; [|done].
  destruct (decide (i = ii)) as [->|]; [congruence|lia].
Qed.

(** ** The invariant of the buffers

    A cell is a buffer with its weight and the elements of the input that it
    stands for. *)
Record cell := { cb : list Z; cw : Z; cS : list Z }.

(** A buffer of weight [2 ^ h] is the result of [h] levels of merges, and each
    level can move a rank by half of the weight. *)
Definition used_ok (k H : Z) (c : cell) : Prop :=
  exists h, 0 <= h <= H /\ cw c = 2 ^ h /\ StronglySorted Z.le (cb c) /\
    zlen (cS c) = cw c * k /\
    forall t, 0 <= 2 * (cw c * cnt t (cb c) - cnt t (cS c)) <= h * cw c.

Definition cell_ok (k H : Z) (c : cell) : Prop :=
  zlen (cb c) = k /\ (cw c = 0 /\ cS c = [] \/ used_ok k H c).

Definition free (c : cell) : Prop := cw c = 0.
#[local] Instance free_dec c : Decision (free c) := decide (cw c = 0).

Definition cells_ok (b k : Z) (S : list Z) (cs : list cell) : Prop :=
  zlen cs = b /\ Forall (cell_ok k (Z.max 0 (b - 2))) cs /\ S ≡ₚ concat (cS <$> cs).

Definition buffers_ok (b k : Z) (S : list Z) (s : buffers) : Prop :=
  exists cs, cells_ok b k S cs /\ buffer s = cb <$> cs /\ weight s = cw <$> cs /\
    no_of_empty_buffers s = zlen (filter free cs).

(** The weight in use is the number of packets stored. *)
Lemma cells_total b k S cs : cells_ok b k S cs -> zsum (cw <$> cs) * k = zlen S.
Proof.
  intros (_ & Hall & Hp). assert (zlen S = zlen (concat (cS <$> cs))) as -> by (unfold zlen; by rewrite Hp).
  clear Hp. unfold zsum. induction Hall as [|c cs [_ Hc] _ IH]; [done|].
  rewrite !fmap_cons. simpl. rewrite zlen_app, Z.mul_add_distr_r, IH.
  destruct Hc as [[-> ->]|(h & _ & _ & _ & -> & _)]; done.
Qed.

Lemma cell_weight k H c : cell_ok k H c -> 0 <= cw c.
Proof.
  intros [_ [[-> _]|(h & Hh & -> & _)]]; [done|]. apply Z.pow_nonneg. lia.
Qed.

Lemma weights_nonneg k H cs : Forall (cell_ok k H) cs -> Forall (Z.le 0) (cw <$> cs).
Proof. intros Hall. apply Forall_fmap. eapply Forall_impl; [exact Hall|]. apply cell_weight. Qed.

(** Replacing a cell. *)
Lemma cells_set b k S cs i c c' :
  cells_ok b k S cs -> cs !z i = Some c -> cell_ok k (Z.max 0 (b - 2)) c' ->
  exists R, S ≡ₚ cS c ++ R /\ forall S', S' ≡ₚ cS c' ++ R -> cells_ok b k S' (zset cs i c').
Proof.
  intros (Hlen & Hall & Hp) Hi Hc'. apply zlookup_split in Hi as (l1 & l2 & -> & ->).
  exists (concat (cS <$> l1) ++ concat (cS <$> l2)).
  assert (forall x : cell, concat (cS <$> l1 ++ x :: l2)
    ≡ₚ cS x ++ concat (cS <$> l1) ++ concat (cS <$> l2)) as Hx.
  { intros x. rewrite fmap_app, concat_app. simpl. solve_Permutation. }
  split; [by rewrite Hp, Hx|]. intros S' HS'. rewrite zset_split.
  split; [rewrite zlen_app, zlen_cons in *; lia|]. split; [|by rewrite HS', Hx].
  apply Forall_app in Hall as [H1 [_ H2]%Forall_cons]. apply Forall_app. split; [done|by constructor].
Qed.

Lemma free_set cs i c c' :
  cs !z i = Some c ->
  zlen (filter free (zset cs i c')) = zlen (filter free cs)
    - (if cw c =? 0 then 1 else 0) + (if cw c' =? 0 then 1 else 0).
Proof.
  intros (l1 & l2 & -> & ->)%zlookup_split. rewrite zset_split, !filter_app, !zlen_app.
  assert (forall x, zlen (filter free (x :: l2)) = (if cw x =? 0 then 1 else 0) + zlen (filter free l2)) as Hx.
  { intros x. rewrite filter_cons. destruct (decide (free x)) as [Hf|Hf], (Z.eqb_spec (cw x) 0) as [E|E];
      unfold free in Hf; rewrite ?zlen_cons; by (done || lia). }
  rewrite !Hx. lia.
Qed.

(** The cell that two cells of the same weight become. *)
Definition merge_cells (c1 c2 : cell) : cell :=
  {| cb := merged (cw c1) (cw c2) (cb c1) (cb c2); cw := cw c1 + cw c2; cS := cS c1 ++ cS c2 |}.

Lemma merge_cells_ok k H c1 c2 :
  used_ok k H c1 -> used_ok k H c2 -> cw c1 = cw c2 -> cw c1 + cw c2 <= 2 ^ H ->
  used_ok k H (merge_cells c1 c2).
Proof.
  intros (h & Hh & Hw & Hs & Hl & Hc) (h2 & Hh2 & Hw2 & Hs2 & Hl2 & Hc2) E Hmax.
  assert (h2 = h) as -> by (apply (Z.pow_inj_r 2); lia).
  assert (0 < cw c1) as Hpos by (rewrite Hw; apply Z.pow_pos_nonneg; lia).
  assert (cw c1 + cw c2 = 2 ^ (h + 1)) as Ew.
  { rewrite <- E, Hw. replace (h + 1) with (Z.succ h) by lia. rewrite Z.pow_succ_r; lia. }
  exists (h + 1). split.
  { rewrite Ew in Hmax. apply Z.pow_le_mono_r_iff in Hmax; lia. }
  split; [done|]. split; [by apply merged_sorted|]. simpl.
  split; [rewrite zlen_app; lia|]. intros t. rewrite <- E in *.
  pose proof (merged_same (cw c1) (cb c1) (cb c2) t Hpos Hs Hs2).
  specialize (Hc t). specialize (Hc2 t). rewrite cnt_app. lia.
Qed.

Lemma no_free cs c : zlen (filter free cs) = 0 -> c ∈ cs -> cw c <> 0.
Proof.
  intros Hz Hin E. assert (c ∈ filter free cs) as Hf by (apply list_elem_of_filter; done).
  destruct (filter free cs); [by apply elem_of_nil in Hf|]. rewrite zlen_cons in Hz.
  pose proof (zlen_nonneg l). lia.
Qed.

Lemma some_free cs : 0 < zlen (filter free cs) -> exists i c, cs !z i = Some c /\ cw c = 0.
Proof.
  intros Hz. destruct (filter free cs) as [|c l] eqn:E; [done|].
  assert (c ∈ filter free cs) as Hf by (rewrite E; left).
  apply list_elem_of_filter in Hf as [Hc Hin]. apply list_elem_of_lookup in Hin as [i Hi].
  exists (Z.of_nat i), c. by rewrite zlookup_nat.
Qed.

Lemma two_le_zsum l i j a b :
  Forall (Z.le 0) l -> i <> j -> l !z i = Some a -> l !z j = Some b -> a + b <= zsum l.
Proof.
  intros Hl Hne (l1 & l2 & -> & ->)%zlookup_split Hb.
  assert (zsum (l1 ++ a :: l2) = a + zsum (l1 ++ l2)) as E
    by (rewrite !zsum_app; unfold zsum; simpl; lia).
  assert (Forall (Z.le 0) (l1 ++ l2)) as Hl'.
  { apply Forall_app in Hl as [? [_ ?]%Forall_cons]. by apply Forall_app. }
  assert (b ∈ l1 ++ l2) as Hin.
  { pose proof (zlookup_Some_range _ _ _ Hb). rewrite zlookup_to_nat in Hb by lia.
    apply elem_of_app. destruct (decide (j < zlen l1)) as [Hlt|Hge].
    - left. rewrite lookup_app_l in Hb by (unfold zlen in *; lia). by eapply list_elem_of_lookup_2.
    - right. rewrite lookup_app_r in Hb by (unfold zlen in *; lia).
      destruct (Z.to_nat j - length l1)%nat eqn:Ej; [unfold zlen in *; lia|].
      by eapply list_elem_of_lookup_2. }
  apply list_elem_of_split in Hin as (m1 & m2 & E'). rewrite E, E' in *.
  apply Forall_app in Hl' as [G1 [_ G2]%Forall_cons]. apply zsum_nonneg in G1, G2.
  rewrite zsum_app. unfold zsum in *. simpl. lia.
Qed.

(** Two cells of equal weight exist when none is free. *)
Lemma full_pair b k S cs :
  cells_ok b k S cs -> zlen (filter free cs) = 0 -> 0 < k -> 1 <= b ->
  zlen S + k <= k * 2 ^ (b - 1) ->
  exists i j ci cj, pair_outer (Z.to_nat (b - 1)) b (cw <$> cs) 0 = Ok (i, j) /\ i <> j /\
    cs !z i = Some ci /\ cs !z j = Some cj /\ cw ci = cw cj /\
    used_ok k (Z.max 0 (b - 2)) ci /\ used_ok k (Z.max 0 (b - 2)) cj /\
    cw ci + cw cj <= 2 ^ Z.max 0 (b - 2) /\ (cw ci + cw cj) * k <= zlen S.
Proof.
  intros Hcs Hfree Hk Hb Hroom. pose proof (cells_total b k S cs Hcs) as Htot.
  destruct Hcs as (Hlen & Hall & _).
  assert (Forall (used_ok k (Z.max 0 (b - 2))) cs) as Hused.
  { rewrite Forall_forall in *. intros c Hin. destruct (Hall c Hin) as [_ [[Hz _]|?]]; [|done].
    by destruct (no_free cs c Hfree Hin). }
  set (ws := cw <$> cs) in *.
  assert (zlen ws = b) as Hws by (unfold ws; by rewrite zlen_fmap).
  assert (2 ^ b = 2 * 2 ^ (b - 1)) as Epow.
  { rewrite <- Z.pow_succ_r by lia. f_equal. lia. }
  assert (zsum ws <= 2 ^ (b - 1) - 1) as Hsum by (apply (Z.mul_le_mono_pos_r _ _ k); lia).
  pose proof (Z.pow_pos_nonneg 2 (b - 1) ltac:(lia) ltac:(lia)) as Hpow.
  destruct (pair_found ws) as (i & j & Ep & Hij & Hj & Ew).
  { apply Forall_fmap. eapply Forall_impl; [exact Hused|]. intros c (h & Hh & E & _). exists h.
    split; [lia|done]. }
  { rewrite Hws. lia. }
  rewrite Hws in *. destruct (zlookup_is_Some cs i ltac:(lia)) as [ci Hi].
  destruct (zlookup_is_Some cs j ltac:(lia)) as [cj Hjc].
  pose proof (rd_fmap cw cs i ci Hi) as Ri%rd_Ok. pose proof (rd_fmap cw cs j cj Hjc) as Rj%rd_Ok.
  fold ws in Ri, Rj. assert (cw ci = cw cj) as Eij by congruence.
  rewrite Forall_forall in Hused.
  assert (forall i c, cs !z i = Some c -> used_ok k (Z.max 0 (b - 2)) c) as Hu.
  { intros i' c Hc. apply Hused. pose proof (zlookup_Some_range _ _ _ Hc).
    rewrite zlookup_to_nat in Hc by lia. by eapply list_elem_of_lookup_2. }
  pose proof (two_le_zsum ws i j _ _ (weights_nonneg _ _ _ Hall) ltac:(lia) Ri Rj) as H2.
  exists i, j, ci, cj. split; [done|]. split; [lia|]. do 3 (split; [done|]).
  split; [by eapply Hu|]. split; [by eapply Hu|]. split; [|nia].
  destruct (Hu _ _ Hi) as (h & Hh & E & _). rewrite <- Eij, E in *.
  assert (2 ^ h + 2 ^ h = 2 ^ (h + 1)) as E2.
  { replace (h + 1) with (Z.succ h) by lia. rewrite Z.pow_succ_r; lia. }
  rewrite E2 in *. apply Z.pow_le_mono_r; [lia|].
  assert (h + 1 < b - 1); [|lia]. apply (Z.pow_lt_mono_r_iff 2); lia.
Qed.

Lemma free_up_ok b k S s :
  buffers_ok b k S s -> 0 < k -> 1 <= b -> zlen S + k <= k * 2 ^ (b - 1) -> zlen S <= INT_MAX * k ->
  exists s', free_up b k s = Ok s' /\ buffers_ok b k S s' /\ 0 < no_of_empty_buffers s'.
Proof.
  intros (cs & Hcs & Eb & Ew & En) Hk Hb Hroom Hint. unfold free_up.
  destruct (Z.eqb_spec (no_of_empty_buffers s) 0) as [E0|Hne].
  2: { exists s. split; [done|]. split; [by exists cs|]. pose proof (zlen_nonneg (filter free cs)). lia. }
  rewrite E0 in En.
  destruct (full_pair b k S cs) as (i & j & ci & cj & Ep & Hij & Hi & Hj & Eij & Hui & Huj & Hmax & HS);
    [done..|].
  rewrite Eb, Ew, Ep. cbn [mbind res_bind]. rewrite (rd_fmap cb cs i ci Hi), (rd_fmap cb cs j cj Hj).
  cbn [mbind res_bind]. pose proof Hcs as (Hlen & Hall & _).
  assert (forall i c, cs !z i = Some c -> zlen (cb c) = k) as Hbl.
  { intros i' c Hc. pose proof (zlookup_Some_range _ _ _ Hc). rewrite zlookup_to_nat in Hc by lia.
    rewrite Forall_lookup in Hall. apply (Hall _ _ Hc). }
  assert (0 < cw ci) as Hpos.
  { destruct Hui as (h & Hh & -> & _). apply Z.pow_pos_nonneg; lia. }
  destruct (Collapse_eq (cb ci) (cb cj) (cw <$> cs) i j b k (cw ci) (cw cj)) as [-> Hml];
    [by eapply Hbl|by eapply Hbl|by rewrite zlen_fmap|by apply rd_fmap|by apply rd_fmap|lia|lia|
     apply (Z.mul_le_mono_pos_r _ _ k); lia|].
  pose proof (zlookup_Some_range _ _ _ Hi). pose proof (zlookup_Some_range _ _ _ Hj).
  cbn [mbind res_bind]. rewrite wr_Ok by (rewrite zlen_fmap; lia). cbn [mbind res_bind].
  eexists. split; [done|]. cbn [no_of_empty_buffers]. split; [|lia].
  set (cm := merge_cells ci cj). set (c0 := {| cb := cb cj; cw := 0; cS := [] |}).
  destruct (cells_set b k S cs i ci cm Hcs Hi) as (R & HR & H1).
  { split; [done|]. right. by apply merge_cells_ok. }
  specialize (H1 _ (Permutation_refl _)).
  assert (zset cs i cm !z j = Some cj) as Hj' by (rewrite zlookup_zset_ne by lia; done).
  destruct (cells_set b k _ _ j cj c0 H1 Hj') as (R2 & HR2 & H2).
  { split; [exact (Hbl j cj Hj)|by left]. }
  exists (zset (zset cs i cm) j c0). split.
  { apply H2. simpl in HR2 |- *. rewrite HR. apply (Permutation_app_inv_l (cS cj)).
    rewrite <- HR2. solve_Permutation. }
  cbn [buffer weight no_of_empty_buffers]. rewrite !zset_fmap. split; [|split; [done|]].
  - change (cb c0) with (cb cj). rewrite (zset_id _ j (cb cj)); [done|].
    rewrite <- (zset_fmap cb cs i cm). by apply rd_Ok, rd_fmap.
  - rewrite (free_set _ j cj c0 Hj'), (free_set cs i ci cm Hi). simpl.
    rewrite !(proj2 (Z.eqb_neq _ 0)) by lia. lia.
Qed.

(** A packet is stored: no access is out of range, and no buffer is lost. *)
Lemma store_packet_ok b k S p s :
  buffers_ok b k S s -> 0 < k -> 1 <= b -> zlen p = k -> StronglySorted Z.le p ->
  zlen (S ++ p) <= k * 2 ^ (b - 1) -> zlen (S ++ p) <= INT_MAX * k ->
  exists s', store_packet p b k s = Ok s' /\ buffers_ok b k (S ++ p) s'.
Proof.
  rewrite zlen_app. intros Hs Hk Hb Hp Hsort Hroom Hint. unfold store_packet.
  destruct (free_up_ok b k S s Hs Hk Hb) as (s' & -> & (cs & Hcs & Eb & Ew & En) & Hfree); [lia..|].
  cbn [mbind res_bind]. destruct (some_free cs ltac:(lia)) as (i0 & c & Hc & Hcw).
  pose proof Hcs as (Hlen & Hall & _). pose proof (zlookup_Some_range _ _ _ Hc).
  destruct (empty_loop_ok (cw <$> cs) (Z.to_nat b) 0) as (i & Ei & Hi0);
    [lia|rewrite zlen_fmap; lia| |].
  { exists i0. split; [lia|]. rewrite <- Hcw. by apply rd_Ok, rd_fmap. }
  rewrite Ew, Ei, Eb. cbn [mbind res_bind]. apply zlookup_fmap in Hi0 as (ce & Hce & Hz).
  rewrite (rd_fmap cb cs i ce Hce). cbn [mbind res_bind]. pose proof (zlookup_Some_range _ _ _ Hce).
  assert (zlen (cb ce) = k /\ cS ce = []) as [Hbl HS0].
  { rewrite Forall_lookup in Hall. pose proof Hce as Hce'. rewrite zlookup_to_nat in Hce' by lia.
    destruct (Hall _ _ Hce') as [Hl [[_ E]|(h & Hh & E & _)]]; [done|].
    rewrite E in Hz. pose proof (Z.pow_pos_nonneg 2 h). lia. }
  unfold New. rewrite (proj2 (Z.ltb_ge i 0)), (proj2 (Z.leb_gt b i)) by lia.
  cbn [orb go_BYE_if mbind res_bind].
  assert (Frequent.memcpy (cb ce) p k = Ok p) as ->.
  { pose proof (Frequent.memcpy_ok (cb ce) p [] k) as E. rewrite app_nil_r in E. rewrite E by lia.
    rewrite drop_ge by (unfold zlen in *; lia). by rewrite app_nil_r. }
  cbn [mbind res_bind]. rewrite wr_Ok by (rewrite zlen_fmap; lia). cbn [mbind res_bind].
  rewrite wr_Ok by (rewrite zlen_fmap; lia). cbn [mbind res_bind]. eexists. split; [done|].
  set (cn := {| cb := p; cw := 1; cS := p |}).
  destruct (cells_set b k S cs i ce cn Hcs Hce) as (R & HR & H1).
  { split; [done|]. right. exists 0. split; [lia|]. split; [done|]. split; [done|]. simpl.
    split; [lia|]. intros t. lia. }
  exists (zset cs i cn). rewrite !zset_fmap. split.
  { apply H1. rewrite HR, HS0. simpl. solve_Permutation. }
  split; [done|]. split; [done|]. cbn [no_of_empty_buffers]. rewrite (free_set cs i ce cn Hce), <- Hz. simpl. lia.
Qed.

Lemma start_buffers b k :
  0 <= b -> 0 <= k ->
  buffers_ok b k [] {| buffer := replicate (Z.to_nat b) (replicate (Z.to_nat k) 0);
                       weight := replicate (Z.to_nat b) 0; no_of_empty_buffers := b |}.
Proof.
  intros Hb Hk. set (c := {| cb := replicate (Z.to_nat k) 0; cw := 0; cS := [] |}).
  exists (replicate (Z.to_nat b) c). rewrite !fmap_replicate.
  assert (zlen (replicate (Z.to_nat b) c) = b) as El by (unfold zlen; rewrite length_replicate; lia).
  split; [|split; [done|split; [done|]]].
  - split; [done|]. split; [|by rewrite fmap_replicate; simpl; rewrite Frequent.concat_nils].
    apply Forall_replicate. split; [|by left]. simpl. unfold zlen. rewrite length_replicate. lia.
  - cbn [no_of_empty_buffers]. transitivity (zlen (replicate (Z.to_nat b) c)); [done|]. f_equal.
    clear. induction (Z.to_nat b) as [|n IH]; [done|]. cbn [replicate].
    rewrite filter_cons_True by done. f_equal. exact IH.
Qed.

(** Claim C30. As long as the packets are at most [2 ^ (b - 1)], the next one is
    stored without an access out of range: when no buffer is empty there are two
    of the same weight, so neither search ends with index -1, and the invariant
    of the buffers holds again.  In it the buffers in use are sorted, have
    weights [2 ^ h] with [h <= b - 2] that count the packets they stand for, and
    estimate ranks to within [h / 2] times the weight. *)
Theorem store_packet_safe b k S p s :
  buffers_ok b k S s -> 0 < k -> 1 <= b -> zlen p = k -> StronglySorted Z.le p ->
  zlen (S ++ p) <= k * 2 ^ (b - 1) -> zlen (S ++ p) <= INT_MAX * k ->
  exists s', store_packet p b k s = Ok s' /\ buffers_ok b k (S ++ p) s'.
Proof. apply store_packet_ok. Qed.

Lemma store_packet_safe_witness :
  exists s', store_packet [7] 1 1 {| buffer := [[0]]; weight := [0]; no_of_empty_buffers := 1 |} = Ok s' /\
    buffers_ok 1 1 [7] s'.
Proof.
  apply (store_packet_safe 1 1 [] [7]).
  - apply (start_buffers 1 1); lia.
  - lia.
  - lia.
  - reflexivity.
  - by repeat constructor.
  - reflexivity || (vm_compute; done).
  - vm_compute. done.
Defined.

(** ** Blocks *)

Lemma buffers_perm b k S S' s : S ≡ₚ S' -> buffers_ok b k S s -> buffers_ok b k S' s.
Proof.
  intros Hp (cs & (H1 & H2 & H3) & Hs). exists cs. split; [|done]. split; [done|]. split; [done|].
  by rewrite <- Hp.
Qed.

Definition whole_packets (k : Z) (packets : list (list Z)) : Prop :=
  Forall (fun p => p = [] \/ zlen p = k) packets.

Lemma store_packets_ok b k packets : forall S s,
  buffers_ok b k S s -> whole_packets k packets -> 0 < k < 2 ^ 60 -> 1 <= b ->
  zlen (S ++ concat packets) <= k * 2 ^ (b - 1) -> zlen (S ++ concat packets) <= INT_MAX * k ->
  exists s', store_packets packets b k s = Ok s' /\ buffers_ok b k (S ++ concat packets) s'.
Proof.
  induction packets as [|p packets IH]; intros S s Hs Hps Hk Hb Hroom Hint.
  { exists s. split; [done|]. simpl. by rewrite app_nil_r. }
  apply Forall_cons in Hps as [Hp Hps]. cbn [store_packets concat] in *.
  destruct (Z.eqb_spec (zlen p) k) as [El|Hne].
  - rewrite app_assoc in Hroom, Hint |- *.
    destruct (Qsort.qsort_asc_I4_ok p ltac:(lia)) as (p' & -> & Hperm & Hsort). cbn [mbind res_bind].
    assert (zlen p' = k) as El' by (rewrite <- El; unfold zlen; by rewrite Hperm).
    assert (zlen (S ++ p') = zlen (S ++ p)) as E by (rewrite !zlen_app; lia).
    pose proof (zlen_app (S ++ p) (concat packets)) as Ea. pose proof (zlen_nonneg (concat packets)).
    destruct (store_packet_ok b k S p' s) as (s' & -> & Hs'); [done|lia|done|done|done|lia|lia|].
    cbn [mbind res_bind]. apply IH; try done; try lia.
    apply (buffers_perm b k (S ++ p')); [by rewrite Hperm|done].
  - destruct Hp as [->|]; [|done]. simpl concat in *. by apply IH.
Qed.

Definition last_ok (k : Z) (last : option (list Z)) : Prop :=
  match last with None => True | Some p => 0 < zlen p < k end.
Definition last_elements (last : option (list Z)) : list Z := default [] last.

(** What [next_packets] delivers_packets. *)
Definition delivers_packets (R : Z -> list Z) (Q : Z -> Prop) (siz k cur : Z)
    (r : res (Z * list (list Z) * option (list Z))) : Prop :=
  exists cur' packets last, r = Ok (cur', packets, last) /\ cur < cur' <= siz /\
    whole_packets k packets /\ R cur = (concat packets ++ last_elements last) ++ R cur' /\
    last_ok k last /\ (last = None \/ cur' = siz) /\ (cur' < siz -> Q cur').

Lemma blocks_loop_ok R Q x cfld siz eff_siz N b k fuel :
  0 < k < 2 ^ 60 -> 1 <= b -> R siz = [] ->
  (forall cur, 0 <= cur < siz -> Q cur ->
    delivers_packets R Q siz k cur (next_packets x cfld siz eff_siz N k cur None)) ->
  forall cur S s, 0 <= cur <= siz -> siz - cur <= Z.of_nat fuel -> (cur < siz -> Q cur) ->
  buffers_ok b k S s ->
  zlen (S ++ R cur) <= k * 2 ^ (b - 1) -> zlen (S ++ R cur) <= INT_MAX * k ->
  exists last s' S', blocks_loop fuel x cfld siz eff_siz N b k cur None s = Ok (last, s') /\
    S ++ R cur = S' ++ last_elements last /\ last_ok k last /\ buffers_ok b k S' s'.
Proof.
  intros Hk Hb Hend Hnext. induction fuel as [|fuel IH]; intros cur S s Hcur Hf HQ Hs Hroom Hint;
    cbn [blocks_loop]; (destruct (Z.ltb_spec cur siz) as [Hlt|Hge];
      [|assert (cur = siz) as -> by lia; exists None, s, S; by rewrite Hend]); [lia|].
  destruct (Hnext cur ltac:(lia) (HQ Hlt)) as (cur' & ps & last & -> & Hcur' & Hps & HR & Hl & Hend' & HQ').
  cbn [mbind res_bind]. rewrite HR in Hroom, Hint |- *.
  pose proof (zlen_nonneg (R cur')). pose proof (zlen_nonneg (last_elements last)).
  rewrite !zlen_app in Hroom, Hint.
  destruct (store_packets_ok b k ps S s) as (s' & -> & Hs');
    [done|done|done|done|rewrite zlen_app; lia..|]. cbn [mbind res_bind].
  destruct last as [p|].
  - destruct Hend' as [?| ->]; [done|]. exists (Some p), s', (S ++ concat ps).
    split; [by destruct fuel; cbn [blocks_loop]; rewrite Z.ltb_irrefl|].
    rewrite Hend, app_nil_r. by rewrite app_assoc.
  - destruct (IH cur' (S ++ concat ps) s') as (last & s'' & S' & -> & H1 & H2 & H3);
      [lia|lia|done|done|rewrite !zlen_app; lia..|].
    exists last, s'', S'. split; [done|]. split; [|done]. rewrite <- H1. simpl.
    by rewrite app_nil_r, app_assoc.
Qed.

(** All elements selected. *)
Lemma last_fill_packets_end x cur k n last : forall tid,
  0 < k -> zlen x <= cur + tid * k ->
  fill_packets n x (zlen x) cur k tid last = Ok (replicate n [], last).
Proof.
  induction n as [|n IH]; intros tid Hk Hend; [done|]. cbn [fill_packets].
  rewrite (proj2 (Z.leb_le _ _)) by done. cbn [mbind res_bind]. by rewrite IH by nia.
Qed.

Lemma whole_nil k n : whole_packets k (replicate n []).
Proof. apply Forall_replicate. by left. Qed.

Lemma last_fill_packets_ok x cur k n : forall tid,
  0 < k -> 0 <= cur + tid * k ->
  exists ps last r,
    fill_packets n x (zlen x) cur k tid None = Ok (ps, last) /\ whole_packets k ps /\ last_ok k last /\
    drop (Z.to_nat (cur + tid * k)) x = (concat ps ++ last_elements last) ++ r /\
    (last = None \/ r = []) /\
    ((0 < n)%nat -> cur + tid * k < zlen x -> concat ps ++ last_elements last <> []).
Proof.
  induction n as [|n IH]; intros tid Hk Hlb.
  { exists [], None. eexists. split; [done|]. split; [apply (whole_nil k 0)|]. split; [done|].
    split; [done|]. split; [by left|lia]. }
  destruct (Z.le_gt_cases (zlen x) (cur + tid * k)) as [Hend|Hin].
  { exists (replicate (S n) []), None, []. rewrite last_fill_packets_end by done. split; [done|].
    split; [apply whole_nil|]. split; [done|]. unfold last_elements. simpl.
    rewrite Frequent.concat_nils, drop_ge by (unfold zlen in *; lia). split; [done|].
    split; [by left|lia]. }
  cbn [fill_packets]. set (lb := cur + tid * k) in *. rewrite (proj2 (Z.leb_gt (zlen x) lb)) by done.
  destruct (Z.le_gt_cases (lb + k) (zlen x)) as [Hfit|Hpart].
  - assert ((if zlen x <=? lb + k then zlen x else lb + k) = lb + k) as Eub
      by (destruct (Z.leb_spec (zlen x) (lb + k)); lia).
    rewrite Eub, decide_True by lia. replace (lb + k - lb) with k by lia. rewrite Z.eqb_refl.
    cbn [negb mbind res_bind]. set (p := take (Z.to_nat k) (drop (Z.to_nat lb) x)).
    assert (zlen p = k) as Hp by (unfold p, zlen in *; rewrite length_take, length_drop; lia).
    assert ((if zlen x <=? lb + k then (p, None) else (p, None)) = (p, (None : option (list Z)))) as ->
      by (by destruct (zlen x <=? lb + k)).
    destruct (IH (tid + 1)) as (ps & last & r & -> & Hps & Hl & Hr & Hlr & _); [done|nia|].
    cbn [mbind res_bind]. exists (p :: ps), last, r. split; [done|].
    split; [constructor; [by right|done]|]. split; [done|]. split.
    + simpl concat. rewrite <- (take_drop (Z.to_nat k) (drop (Z.to_nat lb) x)). fold p.
      rewrite drop_drop. replace (Z.to_nat lb + Z.to_nat k)%nat with (Z.to_nat (cur + (tid + 1) * k))
        by (unfold lb in *; nia). rewrite Hr. by rewrite <- !app_assoc.
    + split; [done|]. intros _ _ E. apply app_eq_nil in E as [[E _]%app_eq_nil _].
      rewrite E in Hp. change (zlen []) with 0 in Hp. lia.
  - rewrite (proj2 (Z.leb_le (zlen x) (lb + k))) by lia. rewrite decide_True by lia.
    rewrite (proj2 (Z.eqb_neq (zlen x - lb) k)) by lia. cbn [negb mbind res_bind].
    rewrite last_fill_packets_end by (done || (unfold lb in *; nia)). cbn [mbind res_bind].
    rewrite take_ge by (rewrite length_drop; unfold zlen in *; lia).
    set (p := drop (Z.to_nat lb) x).
    assert (zlen p = zlen x - lb) as Hp by (unfold p, zlen in *; rewrite length_drop; lia).
    exists ([] :: replicate n []), (Some p), []. split; [done|]. split; [apply (whole_nil k (S n))|].
    split; [simpl; lia|]. unfold last_elements. simpl. rewrite Frequent.concat_nils, app_nil_r.
    split; [done|]. split; [by right|]. intros _ _ E. simpl in E. rewrite E in Hp.
    change (zlen []) with 0 in Hp. lia.
Qed.

Lemma next_packets_all x cfld eff_siz N k cur :
  0 < k -> 0 < N -> 0 <= cur < zlen x ->
  match cfld with None => True | Some _ => eff_siz = zlen x end ->
  delivers_packets (fun cur => drop (Z.to_nat cur) x) (fun _ => True) (zlen x) k cur
    (next_packets x cfld (zlen x) eff_siz N k cur None).
Proof.
  intros Hk HN Hcur He.
  destruct (last_fill_packets_ok x cur k (Z.to_nat N) 0) as (ps & last & r & E & Hps & Hl & Hr & Hlr & Hne); [lia..|].
  replace (cur + 0 * k) with cur in * by lia. specialize (Hne ltac:(lia) ltac:(lia)).
  set (q := concat ps ++ last_elements last) in *.
  assert (0 < zlen q) as Hpos by (destruct q; [done|]; unfold zlen; simpl; lia).
  assert (zlen q + zlen r = zlen x - cur) as Hlen.
  { rewrite <- zlen_app, <- Hr. unfold zlen in *. rewrite length_drop. lia. }
  assert (zlen (concat ps) + match last with Some p => zlen p | None => 0 end = zlen q) as Eq.
  { unfold q. rewrite zlen_app. by destruct last. }
  pose proof (zlen_nonneg r).
  exists (cur + zlen q), ps, last. split; [|split; [lia|split; [done|]]].
  - unfold next_packets. rewrite E. cbn [mbind res_bind]. rewrite Frequent.sum_len_concat.
    rewrite <- Z.add_assoc, Eq. destruct cfld; [|done]. subst. by rewrite Z.eqb_refl.
  - split.
    + fold q. rewrite Hr. f_equal. replace (Z.to_nat (cur + zlen q))
        with (Z.to_nat cur + length q)%nat by (unfold zlen in *; lia).
      rewrite <- drop_drop, Hr. by rewrite drop_app_length.
    + split; [done|]. split; [|done]. destruct Hlr as [->| ->]; [by left|right].
      change (zlen []) with 0 in Hlen. lia.
Qed.

(** [cfld] selects: the last block must not fill all packets, or the search
    for the incomplete packet reads behind the packets. *)
Lemma find_last_none m k full j last :
  find_last m k (zlen full) (full ++ [] :: replicate j []) last = Ok (full ++ [] :: replicate j [], last).
Proof. induction m as [|m IH]; [done|]. cbn [find_last]. rewrite rd_middle. simpl. apply IH. Qed.

Lemma whole_full k (full : list (list Z)) : Forall (fun q => zlen q = k) full -> whole_packets k full.
Proof. intros Hf. eapply Forall_impl; [exact Hf|]. simpl. by right. Qed.

Lemma concat_full k (full : list (list Z)) : Forall (fun q => zlen q = k) full -> zlen (concat full) = zlen full * k.
Proof.
  induction 1 as [|q full Hq _ IH]; [done|]. simpl. rewrite zlen_app, zlen_cons, IH, Hq. lia.
Qed.

Lemma next_packets_selected x c eff_siz N k cur n :
  0 < k -> 0 < N -> 0 <= cur < zlen x -> zlen c = zlen x -> eff_siz <> zlen x ->
  n mod (N * k) <> 0 -> (N * k | n - zlen (Frequent.rest_of x c cur)) ->
  delivers_packets (Frequent.rest_of x c) (fun cur => (N * k | n - zlen (Frequent.rest_of x c cur)))
    (zlen x) k cur (next_packets x (Some c) (zlen x) eff_siz N k cur None).
Proof.
  intros Hk HN Hcur Hc He Hmod HQ. unfold next_packets. rewrite (proj2 (Z.eqb_neq _ _) He).
  destruct (Frequent.fill_block_ok x c k N cur) as (cur' & tid & full & ps & -> & H1 & Hfill & HR); [done..|].
  cbn [mbind res_bind]. destruct Hfill as (Hfull & -> & HlenN & Hps).
  assert (Frequent.rest_of x c (zlen x) = []) as Hnil.
  { unfold Frequent.rest_of. rewrite to_nat_zlen, drop_all. done. }
  assert (ps = full -> zlen full = N -> (N * k | n - zlen (Frequent.rest_of x c cur'))) as HQ'.
  { intros -> EN. rewrite HR, zlen_app, (concat_full k full Hfull), EN in HQ.
    replace (n - zlen (Frequent.rest_of x c cur'))
      with (n - (N * k + zlen (Frequent.rest_of x c cur')) + N * k) by lia.
    apply Z.divide_add_r; [done|apply Z.divide_refl]. }
  destruct (Z.eqb_spec cur' (zlen x)) as [->|Hne].
  - destruct Hps as [[E EN]|(p & j & -> & Hp & _)].
    { exfalso. specialize (HQ' E EN). rewrite Hnil in HQ'. change (zlen []) with 0 in HQ'.
      rewrite Z.sub_0_r in HQ'. apply Z.mod_divide in HQ'; [done|nia]. }
    destruct p as [|v p].
    + rewrite find_last_none. exists (zlen x), (full ++ [] :: replicate j []), None.
      split; [done|]. split; [lia|].
      split; [apply Forall_app; split; [by apply whole_full|apply (whole_nil k (Datatypes.S j))]|].
      unfold last_elements. rewrite HR, Hnil, !concat_app. simpl. rewrite Frequent.concat_nils, !app_nil_r.
      split; [done|]. split; [done|]. split; [by left|lia].
    + cbn [find_last]. rewrite rd_middle. cbn [mbind res_bind].
      assert (0 < zlen (v :: p)) by (rewrite zlen_cons; pose proof (zlen_nonneg p); lia).
      rewrite !(proj2 (Z.eqb_neq _ _)) by lia. cbn [negb andb]. rewrite wr_middle. cbn [mbind res_bind].
      exists (zlen x), (full ++ [] :: replicate j []), (Some (v :: p)). split; [done|]. split; [lia|].
      split; [apply Forall_app; split; [by apply whole_full|apply (whole_nil k (Datatypes.S j))]|].
      unfold last_elements. rewrite HR, Hnil, !concat_app. simpl. rewrite Frequent.concat_nils, !app_nil_r.
      split; [done|]. split; [simpl; lia|]. split; [by right|lia].
  - destruct Hps as [[E EN]|(p & j & _ & _ & E)]; [|done]. subst ps.
    exists cur', full, None. split; [done|]. split; [lia|]. split; [by apply whole_full|].
    unfold last_elements. simpl. rewrite app_nil_r. split; [done|]. split; [done|].
    split; [by left|]. intros _. by apply HQ'.
Qed.

End Quantile.
