(* ===== verification/QuantileRun.v ===== *)
(** * Quantiles: the answers and the whole run.

    Theorems about Quantile.v: the ranks that [Output] computes in [double],
    the merge of all buffers that it simulates with one location per buffer,
    and the promise of [approx_quantile].  The loss of the buffers is that of
    the invariant in Quantile.v. *)

From stdpp Require Import prelude sorting.
From Stdlib Require Import ZArith Lia.
From S2P Require Import Prelude Sort Setops Double Frequent Quantile.
Import Double Quantile.

Module QuantileRun.

(** ** Ranks of the quantiles *)

(** The rank of quantile [j + 1] of [nq]: [(j + 1) * n / nq], rounded up. *)
Definition rank_of (j n nq : Z) : Z := ((j + 1) * n + nq - 1) / nq.

Lemma ceil_between p P c : 0 < P -> (c - 1) * P < p <= c * P -> (p + P - 1) / P = c.
Proof. intros HP Hp. symmetry. apply Z.div_unique with (r := p + P - 1 - P * c); lia. Qed.

Lemma rank_of_spec j n nq : 0 < nq -> (rank_of j n nq - 1) * nq < (j + 1) * n <= rank_of j n nq * nq.
Proof.
  intros Hnq. unfold rank_of. set (N := (j + 1) * n).
  pose proof (Z.div_mod (N + nq - 1) nq ltac:(lia)). pose proof (Z.mod_pos_bound (N + nq - 1) nq Hnq). lia.
Qed.

(** The double arithmetic computes the rank exactly. *)
Lemma quantile_rank_exact j n nq :
  0 <= j < nq -> 0 < n -> nq * n < 2 ^ 53 -> quantile_rank j n nq = rank_of j n nq.
Proof.
  intros Hj Hn Hbig. unfold quantile_rank.
  assert (0 < (j + 1) * n <= nq * n) as HN.
  { split; [nia|]. apply Z.mul_le_mono_nonneg_r; lia. }
  pose proof (dmul_int (of_Z (j + 1)) (of_Z n) (j + 1) n (of_Z_int (j + 1) ltac:(nia))
    (of_Z_int n ltac:(nia)) ltac:(lia)) as Ex.
  pose proof (of_Z_int nq ltac:(nia)) as Ey. unfold is_ratio in Ex, Ey. rewrite !Z.mul_1_r in Ex, Ey.
  pose proof (rank_of_spec j n nq ltac:(lia)) as Hr. set (c := rank_of j n nq) in *.
  set (N := (j + 1) * n) in *. set (x := dmul _ _) in *. pose proof (dden_pos x) as Hdx.
  pose proof (dden_pos (of_Z nq)) as Hdy. unfold ddiv. rewrite Ex, Ey. clear Ex Ey.
  generalize dependent (dden (of_Z nq)). generalize dependent (dden x). clear x. intros dx Hdx dy Hdy.
  assert (0 < dx * dy) as Hd by nia.
  replace (N * dx * dy) with (N * (dx * dy)) by ring.
  replace (dx * (nq * dy)) with (nq * (dx * dy)) by ring.
  generalize dependent (dx * dy). clear dx dy Hdx Hdy. intros d Hd. unfold ceil.
  set (q := round_ratio (N * d) (nq * d)). pose proof (dden_pos q) as HP.
  apply ceil_between; [done|].
  destruct (Z.eq_dec N (c * nq)) as [E|Hne].
  - assert (dnum q = c * dden q) as ->; [|nia].
    apply round_ratio_exact; [nia| |rewrite E; ring]. split; nia.
  - destruct (round_ratio_err (N * d) (nq * d)) as [_ Herr]; [nia|nia|]. fold q in Herr.
    set (p := dnum q) in *. set (P := dden q) in *.
    assert ((2 ^ 53 - 1) * (N * P) <= 2 ^ 53 * (p * nq) <= (2 ^ 53 + 1) * (N * P)) as [H1 H2].
    { split; apply (Z.mul_le_mono_pos_r _ _ d); lia. }
    assert (N * P < 2 ^ 53 * P) as H3 by (apply Z.mul_lt_mono_pos_r; lia).
    assert (((c - 1) * nq + 1) * P <= N * P) as H4 by (apply Z.mul_le_mono_nonneg_r; lia).
    assert (N * P <= (c * nq - 1) * P) as H5 by (apply Z.mul_le_mono_nonneg_r; lia).
    split.
    + apply (Z.mul_lt_mono_pos_r (2 ^ 53 * nq)); lia.
    + apply (Z.mul_le_mono_pos_r _ _ (2 ^ 53 * nq)); lia.
Qed.

Lemma rank_of_mono j n nq : 0 < nq -> 0 <= n -> rank_of j n nq <= rank_of (j + 1) n nq.
Proof. intros Hnq Hn. unfold rank_of. apply Z.div_le_mono; lia. Qed.

Lemma rank_of_first n nq : 0 < nq -> 0 < n -> 1 <= rank_of 0 n nq.
Proof. intros Hnq Hn. unfold rank_of. apply Z.div_le_lower_bound; lia. Qed.

Lemma rank_of_last n nq : 0 < nq -> rank_of (nq - 1) n nq = n.
Proof.
  intros Hnq. unfold rank_of. apply ceil_between; [done|]. lia.
Qed.

(** ** Answers *)

Section answers.
Context (siz nq : Z) (Hsiz : 0 < siz) (Hnq : 1 <= nq) (Hexact : nq * siz < 2 ^ 53).

Lemma rank_of_mono_le j j' : j <= j' -> rank_of j siz nq <= rank_of j' siz nq.
Proof.
  intros Hj. unfold rank_of. apply Z.div_le_mono; [lia|].
  assert ((j + 1) * siz <= (j' + 1) * siz) by (apply Z.mul_le_mono_nonneg_r; lia). lia.
Qed.

(** The answers up to [jj] are written; the value [v] answers the ranks up to
    [rank]. *)
Lemma answer_loop_ok rank v fuel : forall jj next y,
  0 <= jj <= nq -> nq - jj <= Z.of_nat fuel -> nq <= zlen y ->
  (jj < nq -> next = rank_of jj siz nq) ->
  exists jj' next' y', answer_loop fuel rank v siz nq jj next y = Ok (jj', next', y') /\
    jj <= jj' <= nq /\ zlen y' = zlen y /\ (jj' < nq -> next' = rank_of jj' siz nq /\ rank < next') /\
    (forall j, jj <= j < jj' -> y' !z j = Some v /\ rank_of j siz nq <= rank) /\
    (forall j, j < jj \/ jj' <= j -> y' !z j = y !z j).
Proof.
  induction fuel as [|fuel IH]; intros jj next y Hjj Hf Hy Hnext; cbn [answer_loop].
  - assert (jj = nq) as -> by lia. rewrite Z.ltb_irrefl, andb_false_r.
    exists nq, next, y. split; [done|]. split; [lia|]. split; [done|]. split; [lia|].
    split; [lia|done].
  - destruct (Z.ltb_spec jj nq) as [Hlt|Hge].
    2: { rewrite andb_false_r. exists jj, next, y. split; [done|]. split; [lia|]. split; [done|].
         split; [lia|]. split; [lia|done]. }
    rewrite andb_true_r. specialize (Hnext Hlt). destruct (Z.leb_spec next rank) as [Hle|Hgt].
    2: { exists jj, next, y. split; [done|]. split; [lia|]. split; [done|]. split; [lia|].
         split; [lia|done]. }
    rewrite wr_Ok by lia. cbn [mbind res_bind].
    destruct (IH (jj + 1) (quantile_rank (jj + 1) siz nq) (zset y jj v))
      as (jj' & next' & y' & -> & H1 & H2 & H3 & H4 & H5); [lia|lia|by rewrite zlen_zset| |].
    { intros Hjj'. apply quantile_rank_exact; lia. }
    exists jj', next', y'. split; [done|]. split; [lia|]. split; [by rewrite H2, zlen_zset|].
    split; [done|]. split.
    + intros j Hj. destruct (decide (j = jj)) as [->|]; [|apply H4; lia].
      rewrite H5, zlookup_zset_eq by lia. split; [done|lia].
    + intros j Hj. rewrite H5 by lia. apply zlookup_zset_ne; lia.
Qed.
End answers.

(** ** The scan over all buffers *)

Section output.
Context (k : Z) (cs : list cell) (last : list Z).
Context (Hk : 0 < k) (Hlast : StronglySorted Z.le last) (Hlast_max : Forall (fun v => v < INT_MAX) last).

(** What [Output] relies on: weights are not negative, a buffer in use is
    sorted and does not contain [INT_MAX]. *)
Definition readable (c : cell) : Prop :=
  0 <= cw c /\ zlen (cb c) = k /\
  (0 < cw c -> StronglySorted Z.le (cb c) /\ Forall (fun v => v < INT_MAX) (cb c)).

Context (Hcs : Forall readable cs).

(** What is left of a buffer. *)
Definition rest (c : cell) (l : Z) : list Z := drop (Z.to_nat l) (cb c).

Definition loc_ok (c : cell) (l : Z) : Prop := 0 <= l <= k /\ (cw c = 0 -> l = 0).

Lemma rest_cons c l :
  readable c -> loc_ok c l -> 0 < cw c -> l < k ->
  exists v r, rest c l = v :: r /\ rd (cb c) l = Ok v /\ Forall (Z.le v) (rest c l) /\ v < INT_MAX.
Proof.
  intros (_ & Hl & Hc) [Hlr _] Hw Hlk. destruct (Hc Hw) as [Hs Hmax].
  destruct (rd_total (cb c) l ltac:(lia)) as [v Hv]. pose proof Hv as Hv'%rd_Ok.
  rewrite zlookup_to_nat in Hv' by lia. exists v, (drop (S (Z.to_nat l)) (cb c)).
  unfold rest. rewrite (drop_S _ v _ Hv'). split; [done|]. split; [done|].
  rewrite Forall_lookup in Hmax. split; [|by apply (Hmax _ _ Hv')].
  rewrite <- (take_drop (Z.to_nat l) (cb c)), (drop_S _ v _ Hv') in Hs.
  assert (forall a b : list Z, StronglySorted Z.le (a ++ b) -> StronglySorted Z.le b) as Hsuf.
  { intros a b. induction a as [|x a IH]; [done|]. intros [Hs' _]%StronglySorted_inv. by apply IH. }
  apply Hsuf, StronglySorted_inv in Hs as [_ Hall]. constructor; [lia|done].
Qed.

Lemma rest_end c l : readable c -> loc_ok c l -> k <= l -> rest c l = [].
Proof. intros (_ & Hl & _) [Hlr _] Hge. unfold rest. apply drop_ge. unfold zlen in *. lia. Qed.

(** The scan finds a lower bound of everything left in the cells [cs2], which
    is the value it had or the first value left in one of them. *)
Lemma scan_bufs_ok cs2 : forall cs1 L1 L2 v0 loc0,
  length L1 = length cs1 -> Forall2 loc_ok cs2 L2 -> Forall readable cs2 ->
  exists v loc,
    scan_bufs (length cs2) (cb <$> cs1 ++ cs2) (cw <$> cs1 ++ cs2) (L1 ++ L2) k (zlen cs1) v0 loc0
      = Ok (v, loc) /\ v <= v0 /\
    Forall2 (fun c l => 0 < cw c -> Forall (Z.le v) (rest c l)) cs2 L2 /\
    (v = v0 /\ loc = loc0 \/
     v < v0 /\ exists c l, zlen cs1 <= loc /\ (cs1 ++ cs2) !z loc = Some c /\
       (L1 ++ L2) !z loc = Some l /\ 0 < cw c /\ l < k /\ exists r, rest c l = v :: r).
Proof.
  induction cs2 as [|c cs2 IH]; intros cs1 L1 L2 v0 loc0 Hlen HL Hread.
  { apply Forall2_nil_inv_l in HL as ->. exists v0, loc0. split; [done|]. split; [lia|].
    split; [constructor|by left]. }
  apply Forall2_cons_inv_l in HL as (l & L2' & Hl & HL & ->). apply Forall_cons in Hread as [Hc Hread].
  assert (zlen L1 = zlen cs1) as El by (unfold zlen; lia).
  assert ((cs1 ++ c :: cs2) !z (zlen cs1) = Some c /\ (L1 ++ l :: L2') !z (zlen cs1) = Some l) as [Gc Gl].
  { split; [apply rd_Ok, rd_middle|]. rewrite <- El. apply rd_Ok, rd_middle. }
  assert (forall v0 loc0, exists v loc,
    scan_bufs (length cs2) (cb <$> cs1 ++ c :: cs2) (cw <$> cs1 ++ c :: cs2) (L1 ++ l :: L2') k
      (zlen cs1 + 1) v0 loc0 = Ok (v, loc) /\ v <= v0 /\
    Forall2 (fun c l => 0 < cw c -> Forall (Z.le v) (rest c l)) cs2 L2' /\
    (v = v0 /\ loc = loc0 \/
     v < v0 /\ exists c' l', zlen cs1 <= loc /\ (cs1 ++ c :: cs2) !z loc = Some c' /\
       (L1 ++ l :: L2') !z loc = Some l' /\ 0 < cw c' /\ l' < k /\ exists r, rest c' l' = v :: r)) as Hnext.
  { intros v1 loc1. destruct (IH (cs1 ++ [c]) (L1 ++ [l]) L2' v1 loc1) as (v & loc & E & H1 & H2 & H3);
      [rewrite !length_app; simpl; lia|done|done|].
    rewrite <- !app_assoc, zlen_snoc in E. exists v, loc. split; [exact E|]. split; [done|].
    split; [done|]. destruct H3 as [H3|(H3 & c' & l' & H4 & H5)]; [by left|right].
    rewrite <- !app_assoc, zlen_snoc in *. split; [done|]. exists c', l'. split; [lia|done]. }
  cbn [length scan_bufs]. rewrite (rd_fmap cw _ _ _ Gc). cbn [mbind res_bind].
  assert (forall v, v <= v0 -> (0 < cw c -> Forall (Z.le v0) (rest c l)) ->
    0 < cw c -> Forall (Z.le v) (rest c l)) as Hweak.
  { intros v Hv Hr Hw. eapply Forall_impl; [by apply Hr|]. simpl. lia. }
  destruct (Z.ltb_spec 0 (cw c)) as [Hw|Hw].
  - rewrite (proj2 (rd_Ok _ _ _) Gl). cbn [mbind res_bind].
    destruct (Z.ltb_spec l k) as [Hlk|Hlk].
    + destruct (rest_cons c l Hc Hl Hw Hlk) as (u & r & Er & Ru & Hu & _).
      rewrite (rd_fmap cb _ _ _ Gc). cbn [mbind res_bind]. rewrite Ru. cbn [mbind res_bind].
      destruct (Z.ltb_spec u v0) as [Huv|Huv].
      * destruct (Hnext u (zlen cs1)) as (v & loc & E & H1 & H2 & H3). exists v, loc.
        split; [exact E|]. split; [lia|]. split.
        { constructor; [|done]. intros _. eapply Forall_impl; [exact Hu|]. simpl. lia. }
        right. destruct H3 as [[-> ->]|[H3 H4]]; [|split; [lia|done]]. split; [done|].
        exists c, l. split; [lia|]. repeat (split; [done|]). by exists r.
      * destruct (Hnext v0 loc0) as (v & loc & E & H1 & H2 & H3). exists v, loc.
        split; [exact E|]. split; [done|]. split; [|done]. constructor; [|done]. apply Hweak; [done|].
        intros _. eapply Forall_impl; [exact Hu|]. simpl. lia.
    + destruct (Hnext v0 loc0) as (v & loc & E & H1 & H2 & H3). exists v, loc.
      split; [exact E|]. split; [done|]. split; [|done]. constructor; [|done].
      intros _. rewrite rest_end by done. constructor.
  - destruct (Hnext v0 loc0) as (v & loc & E & H1 & H2 & H3). exists v, loc.
    split; [exact E|]. split; [done|]. split; [|done]. constructor; [lia|done].
Qed.
(** ** The loop over all elements *)

Context (op : option (list Z)) (Eop : last = last_elements op).

Definition is_lower (v : Z) (L : list Z) (lp : Z) : Prop :=
  Forall2 (fun c l => 0 < cw c -> Forall (Z.le v) (rest c l)) cs L /\
  Forall (Z.le v) (drop (Z.to_nat lp) last).

(** The choice of the next element: in a buffer, in the last packet, or none. *)
Definition chosen_in (v loc : Z) (L : list Z) (lp : Z) : Prop :=
  (loc = -1 /\ v = INT_MAX) \/
  (exists c l r, cs !z loc = Some c /\ L !z loc = Some l /\ 0 < cw c /\ l < k /\ rest c l = v :: r) \/
  (loc = zlen cs /\ lp < zlen last /\ exists r, drop (Z.to_nat lp) last = v :: r).

Lemma last_cons lp :
  0 <= lp < zlen last -> exists u r, drop (Z.to_nat lp) last = u :: r /\ rd last lp = Ok u /\
    Forall (Z.le u) (u :: r).
Proof.
  intros Hlp. destruct (rd_total last lp Hlp) as [u Hu]. pose proof Hu as Hu'%rd_Ok.
  rewrite zlookup_to_nat in Hu' by lia. exists u, (drop (S (Z.to_nat lp)) last).
  rewrite (drop_S _ u _ Hu'). split; [done|]. split; [done|]. constructor; [lia|].
  apply Forall_lookup. intros n w Hw. rewrite lookup_drop in Hw.
  apply (ascending_le last lp (lp + 1 + Z.of_nat n)); [done|lia|by apply rd_Ok|].
  rewrite zlookup_to_nat by lia. rewrite <- Hw. f_equal. lia.
Qed.

Lemma choose_ok L lp :
  Forall2 loc_ok cs L -> 0 <= lp <= zlen last ->
  exists v loc,
    next_element (cb <$> cs) (cw <$> cs) op (zlen cs) k L lp = Ok (v, loc) /\ v <= INT_MAX /\ is_lower v L lp /\ chosen_in v loc L lp.
Proof.
  intros HL Hlp.
  destruct (scan_bufs_ok cs [] [] L INT_MAX (-1) eq_refl HL Hcs) as (v & loc & E & Hv & Hlow & Hin).
  change (scan_bufs (length cs) (cb <$> cs) (cw <$> cs) L k 0 INT_MAX (-1) = Ok (v, loc)) in E.
  unfold next_element. rewrite to_nat_zlen, E. cbn [mbind res_bind].
  assert (chosen_in v loc L lp) as Hch.
  { destruct Hin as [[-> ->]|(_ & c & l & _ & H1 & H2 & H3 & H4 & r & H5)]; [by left|].
    right. left. by exists c, l, r. }
  assert (zlen last <= lp -> exists v0 loc0, Ok (v, loc) = Ok (v0, loc0) /\ v0 <= INT_MAX /\
    is_lower v0 L lp /\ chosen_in v0 loc0 L lp) as Hend.
  { intros Hge. exists v, loc. split; [done|]. split; [done|]. split; [|done]. split; [done|].
    rewrite drop_ge by (unfold zlen in *; lia). constructor. }
  destruct op as [p|].
  - change (last_elements (Some p)) with p in Eop. subst p.
    destruct (Z.ltb_spec lp (zlen last)) as [Hlt|Hge]; [|by apply Hend].
    destruct (last_cons lp ltac:(lia)) as (u & r & Er & -> & Hu). cbn [mbind res_bind].
    destruct (Z.ltb_spec u v) as [Huv|Huv].
    + exists u, (zlen cs). split; [done|]. split; [lia|]. split.
      * split; [|by rewrite Er]. eapply Forall2_impl; [exact Hlow|]. simpl. intros c l Hr Hw.
        eapply Forall_impl; [by apply Hr|]. simpl. lia.
      * right. right. split; [done|]. split; [done|]. by exists r.
    + exists v, loc. split; [done|]. split; [done|]. split; [|done]. split; [done|].
      rewrite Er. eapply Forall_impl; [exact Hu|]. simpl. lia.
  - apply Hend. rewrite Eop. change (zlen (last_elements None)) with 0. lia.
Qed.

(** The rank of the element processed last, and the rank function that the
    buffers and the last packet stand for. *)
Definition rank_at (L : list Z) (lp : Z) : Z := zsum (zip_with (fun c l => cw c * l) cs L) + lp.
Definition tot (t : Z) : Z := zsum ((fun c => cw c * cnt t (cb c)) <$> cs) + cnt t last.
Definition left_at (L : list Z) (lp : Z) : Z :=
  zsum (zip_with (fun c l => if 0 <? cw c then k - l else 0) cs L) + (zlen last - lp).

(** [m] separates what is processed from what is left. *)
Definition cut (m : Z) (L : list Z) (lp : Z) : Prop :=
  Forall2 (fun c l => 0 < cw c -> Forall (fun v => v <= m) (take (Z.to_nat l) (cb c))) cs L /\
  Forall (fun v => v <= m) (take (Z.to_nat lp) last) /\ is_lower m L lp.

Lemma zsum_zip_le (f : cell -> Z) (g : cell -> Z -> Z) l L :
  Forall2 (fun c l => f c <= g c l) l L -> zsum (f <$> l) <= zsum (zip_with g l L).
Proof.
  unfold zsum. induction 1 as [|c l' cs' L' Hcl _ IH]; [done|]. rewrite fmap_cons.
  cbn [zip_with foldr]. lia.
Qed.

Lemma zsum_zip_ge (f : cell -> Z) (g : cell -> Z -> Z) l L :
  Forall2 (fun c l => g c l <= f c) l L -> zsum (zip_with g l L) <= zsum (f <$> l).
Proof.
  unfold zsum. induction 1 as [|c l' cs' L' Hcl _ IH]; [done|]. rewrite fmap_cons.
  cbn [zip_with foldr]. lia.
Qed.

Lemma cut_cells m L lp (P : cell -> Z -> Prop) :
  cut m L lp -> Forall2 loc_ok cs L ->
  (forall c l, readable c -> loc_ok c l -> (0 < cw c -> Forall (fun v => v <= m) (take (Z.to_nat l) (cb c))) ->
    (0 < cw c -> Forall (Z.le m) (rest c l)) -> P c l) ->
  Forall2 P cs L.
Proof.
  intros (H1 & _ & H2 & _) HL HP. pose proof Hcs as Hr. rewrite Forall_lookup in Hr.
  apply Forall2_same_length_lookup. split; [by eapply Forall2_length|].
  intros i c l Hc Hl. rewrite Forall2_same_length_lookup in H1, H2, HL.
  apply HP; [by eapply Hr|by apply (proj2 HL i)|by apply (proj2 H1 i)|by apply (proj2 H2 i)].
Qed.

Lemma cnt_split t (l : list Z) n : cnt t l = cnt t (take n l) + cnt t (drop n l).
Proof. by rewrite <- cnt_app, take_drop. Qed.

Lemma zlen_take (l : list Z) n : 0 <= n <= zlen l -> zlen (take (Z.to_nat n) l) = n.
Proof. intros Hn. unfold zlen in *. rewrite length_take. lia. Qed.

(** Elements below the cut are all processed; what is processed is not above. *)
Lemma tot_below m L lp t :
  cut m L lp -> Forall2 loc_ok cs L -> 0 <= lp <= zlen last -> t < m -> tot t <= rank_at L lp.
Proof.
  intros Hcut HL Hlp Ht. unfold tot, rank_at.
  assert (cnt t last <= lp).
  { rewrite (cnt_split t last (Z.to_nat lp)). pose proof Hcut as (_ & _ & _ & Hd).
    rewrite (cnt_none t (drop _ _)).
    - pose proof (cnt_bounds t (take (Z.to_nat lp) last)). rewrite zlen_take in *; lia.
    - eapply Forall_impl; [exact Hd|]. simpl. lia. }
  assert (zsum ((fun c => cw c * cnt t (cb c)) <$> cs) <= zsum (zip_with (fun c l => cw c * l) cs L)); [|lia].
  apply zsum_zip_le, (cut_cells m L lp); [done|done|].
  intros c l (Hw & Hkl & _) [Hl _] _ Hrest. destruct (Z.eq_dec (cw c) 0) as [->|Hne]; [lia|].
  apply Z.mul_le_mono_nonneg_l; [done|].
  rewrite (cnt_split t (cb c) (Z.to_nat l)), (cnt_none t (drop _ _)).
  - pose proof (cnt_bounds t (take (Z.to_nat l) (cb c))). rewrite zlen_take in *; lia.
  - eapply Forall_impl; [apply Hrest; lia|]. simpl. lia.
Qed.

Lemma tot_above m L lp t :
  cut m L lp -> Forall2 loc_ok cs L -> 0 <= lp <= zlen last -> m <= t -> rank_at L lp <= tot t.
Proof.
  intros Hcut HL Hlp Ht. unfold tot, rank_at.
  assert (lp <= cnt t last).
  { rewrite (cnt_split t last (Z.to_nat lp)). pose proof Hcut as (_ & Hd & _).
    rewrite (cnt_all t (take _ _)).
    - pose proof (cnt_bounds t (drop (Z.to_nat lp) last)). rewrite zlen_take; lia.
    - eapply Forall_impl; [exact Hd|]. simpl. lia. }
  assert (zsum (zip_with (fun c l => cw c * l) cs L) <= zsum ((fun c => cw c * cnt t (cb c)) <$> cs)); [|lia].
  apply zsum_zip_ge, (cut_cells m L lp); [done|done|].
  intros c l (Hw & Hkl & _) [Hl _] Htake _. destruct (Z.eq_dec (cw c) 0) as [->|Hne]; [lia|].
  apply Z.mul_le_mono_nonneg_l; [done|].
  rewrite (cnt_split t (cb c) (Z.to_nat l)), (cnt_all t (take _ _)).
  - pose proof (cnt_bounds t (drop (Z.to_nat l) (cb c))). rewrite zlen_take; lia.
  - eapply Forall_impl; [apply Htake; lia|]. simpl. lia.
Qed.

(** Taking an element from a buffer. *)
Lemma zsum_zip_set (f : cell -> Z -> Z) L i c l l' :
  Forall2 loc_ok cs L -> cs !z i = Some c -> L !z i = Some l ->
  zsum (zip_with f cs (zset L i l')) = zsum (zip_with f cs L) - f c l + f c l'.
Proof.
  intros HL (c1 & c2 & Ec & ->)%zlookup_split (l1 & l2 & -> & E)%zlookup_split.
  rewrite E, zset_split, Ec.
  assert (length c1 = length l1) as El by (unfold zlen in *; lia).
  assert (forall x, zip_with f (c1 ++ c :: c2) (l1 ++ x :: l2)
    = zip_with f c1 l1 ++ f c x :: zip_with f c2 l2) as Hz.
  { intros x. by rewrite zip_with_app. }
  rewrite !Hz, !zsum_app. unfold zsum. simpl. lia.
Qed.

Lemma Forall2_zset (P : cell -> Z -> Prop) L i c l' :
  Forall2 P cs L -> cs !z i = Some c -> P c l' -> Forall2 P cs (zset L i l').
Proof.
  intros HP Hc Hl'. pose proof (zlookup_Some_range _ _ _ Hc). rewrite zlookup_to_nat in Hc by lia.
  rewrite <- (list_insert_id cs _ _ Hc). by apply Forall2_insert.
Qed.

Lemma cut_take_cell m v L lp loc c l r :
  cut m L lp -> Forall2 loc_ok cs L -> is_lower v L lp ->
  cs !z loc = Some c -> L !z loc = Some l -> 0 < cw c -> l < k -> rest c l = v :: r ->
  cut v (zset L loc (l + 1)) lp /\ Forall2 loc_ok cs (zset L loc (l + 1)).
Proof.
  intros Hcut HL Hlow Hc Hl Hw Hlk Hr. pose proof (zlookup_Some_range _ _ _ Hc).
  pose proof Hc as Hc'. rewrite zlookup_to_nat in Hc' by lia.
  pose proof Hl as Hl'. rewrite zlookup_to_nat in Hl' by lia.
  pose proof Hcut as (H1 & H2 & H3 & H4). destruct Hlow as [H5 H6].
  assert (loc_ok c l) as [Hlr _] by (rewrite Forall2_same_length_lookup in HL; by apply (proj2 HL (Z.to_nat loc))).
  assert (m <= v) as Hmv.
  { rewrite Forall2_same_length_lookup in H3. pose proof (proj2 H3 _ _ _ Hc' Hl' Hw) as Hf.
    rewrite Hr in Hf. by apply Forall_cons in Hf as [? _]. }
  assert (cb c !! Z.to_nat l = Some v) as Hv.
  { pose proof (lookup_drop (cb c) (Z.to_nat l) 0) as E. unfold rest in Hr. rewrite Hr, Nat.add_0_r in E. done. }
  assert (Z.to_nat (l + 1) = S (Z.to_nat l)) as ES by lia.
  split; [|eapply Forall2_zset; [done|exact Hc|split; lia]].
  split; [|split; [|split]].
  - eapply Forall2_zset; [|exact Hc|].
    + eapply Forall2_impl; [exact H1|]. simpl. intros c' l' Hx Hw'.
      eapply Forall_impl; [by apply Hx|]. simpl. lia.
    + intros _. rewrite ES, (take_S_r _ _ _ Hv). apply Forall_app. split; [|by constructor].
      rewrite Forall2_same_length_lookup in H1. eapply Forall_impl; [by apply (proj2 H1 _ _ _ Hc' Hl')|].
      simpl. lia.
  - eapply Forall_impl; [exact H2|]. simpl. lia.
  - eapply Forall2_zset; [exact H5|exact Hc|]. intros _. unfold rest in *. rewrite ES.
    rewrite Forall2_same_length_lookup in H5. pose proof (proj2 H5 _ _ _ Hc' Hl' Hw) as Hf.
    unfold rest in Hf. rewrite (drop_S _ _ _ Hv) in Hf. by apply Forall_cons in Hf as [_ ?].
  - done.
Qed.

Lemma cut_take_last m v L lp r :
  cut m L lp -> is_lower v L lp -> 0 <= lp < zlen last -> drop (Z.to_nat lp) last = v :: r ->
  cut v L (lp + 1).
Proof.
  intros (H1 & H2 & H3 & H4) [H5 H6] Hlp Hr.
  assert (m <= v) as Hmv by (rewrite Hr in H4; by apply Forall_cons in H4 as [? _]).
  assert (last !! Z.to_nat lp = Some v) as Hv.
  { pose proof (lookup_drop last (Z.to_nat lp) 0) as E. rewrite Hr, Nat.add_0_r in E. done. }
  assert (Z.to_nat (lp + 1) = S (Z.to_nat lp)) as ES by lia.
  split; [|split; [|split; [exact H5|]]].
  - eapply Forall2_impl; [exact H1|]. simpl. intros c' l' Hx Hw'.
    eapply Forall_impl; [by apply Hx|]. simpl. lia.
  - rewrite ES, (take_S_r _ _ _ Hv). apply Forall_app. split; [|by constructor].
    eapply Forall_impl; [exact H2|]. simpl. lia.
  - rewrite ES. rewrite (drop_S _ _ _ Hv) in H6. by apply Forall_cons in H6 as [_ ?].
Qed.

(** Nothing is left when nothing is chosen. *)
Lemma none_left L lp :
  Forall2 loc_ok cs L -> 0 <= lp <= zlen last -> is_lower INT_MAX L lp ->
  rank_at L lp = zsum ((fun c => cw c * k) <$> cs) + zlen last.
Proof.
  intros HL Hlp [H1 H2]. unfold rank_at. f_equal.
  - assert (Forall2 (fun c l => cw c * l = cw c * k) cs L) as Hall.
    { pose proof Hcs as Hr. rewrite Forall_lookup in Hr.
      apply Forall2_same_length_lookup. split; [by eapply Forall2_length|].
      intros i c l Hc Hl. rewrite Forall2_same_length_lookup in H1, HL.
      pose proof (proj2 HL _ _ _ Hc Hl) as Hloc. pose proof (Hr _ _ Hc) as Hrd.
      destruct (Z.eq_dec (cw c) 0) as [->|Hne]; [lia|].
      destruct (Z.lt_ge_cases l k) as [Hlk|Hge]; [|destruct Hloc as [? _]; f_equal; lia].
      exfalso. pose proof Hrd as (Hw & _).
      destruct (rest_cons c l Hrd Hloc ltac:(lia) Hlk) as (v & r & E & _ & _ & Hv).
      pose proof (proj2 H1 _ _ _ Hc Hl ltac:(lia)) as Hf. rewrite E in Hf.
      apply Forall_cons in Hf as [? _]. lia. }
    clear -Hall. unfold zsum. induction Hall as [|c l' cs' L' Hcl _ IH]; [done|]. rewrite fmap_cons.
    cbn [zip_with foldr]. lia.
  - destruct (Z.lt_ge_cases lp (zlen last)) as [Hlt|]; [|lia]. exfalso.
    destruct (last_cons lp ltac:(lia)) as (u & r & E & Hu & _). rewrite E in H2.
    apply Forall_cons in H2 as [H2 _]. apply rd_Ok in Hu. rewrite zlookup_to_nat in Hu by lia.
    rewrite Forall_lookup in Hlast_max. specialize (Hlast_max _ _ Hu). simpl in *. lia.
Qed.
(** ** Quantiles of the buffers *)

Context (siz nq : Z) (Hsiz : 0 < siz) (Hnq : 1 <= nq) (Hexact : nq * siz < 2 ^ 53).
Context (Htotal : zsum ((fun c => cw c * k) <$> cs) + zlen last = siz).

(** [v] is a value of rank [rank_of j] in the buffers. *)
Definition good (j v : Z) : Prop := rank_of j siz nq <= tot v /\ tot (v - 1) < rank_of j siz nq.

(** One step: the element [v] is taken, from a buffer or the last packet. *)
Lemma take_element_ok m v loc L lp :
  Forall2 loc_ok cs L -> 0 <= lp <= zlen last -> cut m L lp -> is_lower v L lp ->
  chosen_in v loc L lp -> loc <> -1 ->
  0 <= loc /\ exists L' lp', take_element (cw <$> cs) (zlen cs) loc L lp (rank_at L lp) = Ok (rank_at L' lp', L', lp') /\
    Forall2 loc_ok cs L' /\ 0 <= lp' <= zlen last /\ cut v L' lp' /\
    left_at L' lp' = left_at L lp - 1.
Proof.
  intros HL Hlp Hcut Hlow [[? _]|[(c & l & r & Hc & Hl & Hw & Hlk & Hr)|(-> & Hlt & r & Hr)]] Hloc;
    [done| |]; unfold take_element.
  - pose proof (zlookup_Some_range _ _ _ Hc). pose proof (zlookup_Some_range _ _ _ Hl).
    split; [lia|]. exists (zset L loc (l + 1)), lp.
    rewrite (proj2 (Z.ltb_lt loc (zlen cs))), (rd_fmap cw _ _ _ Hc) by lia. cbn [mbind res_bind].
    rewrite (proj2 (rd_Ok _ _ _) Hl). cbn [mbind res_bind]. rewrite wr_Ok by lia. cbn [mbind res_bind].
    destruct (cut_take_cell m v L lp loc c l r) as [H1 H2]; [done..|].
    unfold rank_at, left_at. rewrite !(zsum_zip_set _ L loc c l) by done.
    rewrite (proj2 (Z.ltb_lt 0 (cw c))) by done.
    split; [do 3 f_equal; lia|]. split; [done|]. split; [done|]. split; [done|lia].
  - split; [apply zlen_nonneg|]. exists L, (lp + 1). rewrite Z.ltb_irrefl, Z.eqb_refl.
    unfold rank_at, left_at. split; [do 3 f_equal; lia|]. split; [done|]. split; [lia|].
    split; [|lia]. eapply cut_take_last; [done|done|lia|done].
Qed.

Lemma cut_up m v loc L lp :
  cut m L lp -> is_lower v L lp -> chosen_in v loc L lp -> loc <> -1 -> cut v L lp.
Proof.
  intros (C1 & C2 & C3 & C4) Hlow Hch Hne.
  assert (m <= v) as Hmv.
  { destruct Hch as [[? _]|[(c & l & r & Hc & Hl & Hw & Hlk & Hr)|(-> & Hlt & r & Hr)]]; [done| |].
    - pose proof (zlookup_Some_range _ _ _ Hc). pose proof (zlookup_Some_range _ _ _ Hl).
      rewrite zlookup_to_nat in Hc by lia. rewrite zlookup_to_nat in Hl by lia. rewrite Forall2_same_length_lookup in C3.
      pose proof (proj2 C3 _ _ _ Hc Hl Hw) as Hf. rewrite Hr in Hf. by apply Forall_cons in Hf as [? _].
    - rewrite Hr in C4. by apply Forall_cons in C4 as [? _]. }
  split; [|split; [|done]].
  - eapply Forall2_impl; [exact C1|]. simpl. intros c l Hx Hw.
    eapply Forall_impl; [by apply Hx|]. simpl. lia.
  - eapply Forall_impl; [exact C2|]. simpl. lia.
Qed.

Lemma left_nonneg L lp : Forall2 loc_ok cs L -> 0 <= lp <= zlen last -> 0 <= left_at L lp.
Proof.
  intros HL Hlp. unfold left_at.
  assert (0 <= zsum (zip_with (fun c l => if 0 <? cw c then k - l else 0) cs L)); [|lia].
  clear -HL. unfold zsum. induction HL as [|c l cs' L' [Hl _] _ IH]; [done|]. cbn [zip_with foldr].
  destruct (0 <? cw c); lia.
Qed.

Lemma process_loop_ok fuel : forall m L lp jj next y,
  Forall2 loc_ok cs L -> 0 <= lp <= zlen last -> cut m L lp -> left_at L lp < Z.of_nat fuel ->
  0 <= jj <= nq -> nq <= zlen y ->
  (jj < nq -> next = rank_of jj siz nq /\ rank_at L lp < next) ->
  (forall j, 0 <= j < jj -> exists v, y !z j = Some v /\ good j v) ->
  exists y', process_loop fuel (cb <$> cs) (cw <$> cs) op siz nq (zlen cs) k L lp (rank_at L lp) jj next y
      = Ok y' /\ zlen y' = zlen y /\
    (forall j, 0 <= j < nq -> exists v, y' !z j = Some v /\ good j v) /\
    (forall j, nq <= j -> y' !z j = y !z j).
Proof.
  induction fuel as [|fuel IH]; intros m L lp jj next y HL Hlp Hcut Hf Hjj Hy Hnext Hdone.
  { pose proof (left_nonneg L lp HL Hlp). lia. }
  cbn [process_loop]. destruct (choose_ok L lp HL Hlp) as (v & loc & Ech & Hv & Hlow & Hch).
  rewrite Ech. cbn [mbind res_bind]. destruct (Z.eq_dec loc (-1)) as [->|Hne].
  - assert (v = INT_MAX) as ->.
    { destruct Hch as [[_ ->]|[(c & l & r & Hc & _)|[E _]]]; [done| |].
      - apply zlookup_Some_range in Hc. lia.
      - pose proof (zlen_nonneg cs). lia. }
    exists y. split; [done|]. split; [done|]. split; [|done].
    assert (jj = nq) as <-; [|done]. destruct (Z.lt_ge_cases jj nq) as [Hlt|]; [|lia]. exfalso.
    destruct (Hnext Hlt) as [-> Hr]. rewrite none_left, Htotal in Hr by done.
    pose proof (rank_of_mono_le siz nq Hsiz Hnq jj (nq - 1) ltac:(lia)) as Hm.
    rewrite rank_of_last in Hm by lia. lia.
  - destruct (take_element_ok m v loc L lp) as (Hloc & L' & lp' & -> & HL' & Hlp' & Hcut' & Hleft); [done..|].
    rewrite (proj2 (Z.ltb_ge loc 0)) by done. cbn [mbind res_bind].
    destruct (answer_loop_ok siz nq Hsiz Hexact (rank_at L' lp') v (Z.to_nat nq) jj next y)
      as (jj' & next' & y1 & -> & H1 & H2 & H3 & H4 & H5); [done|lia|done|by intros; apply Hnext|].
    cbn [mbind res_bind].
    destruct (IH v L' lp' jj' next' y1) as (y2 & E & G1 & G2 & G3);
      [done|done|done|lia|lia|lia|done| |].
    { intros j Hj. destruct (Z.lt_ge_cases j jj) as [Hlt|Hge].
      - destruct (Hdone j ltac:(lia)) as (u & Hu & Hg). exists u. rewrite H5 by lia. done.
      - destruct (H4 j ltac:(lia)) as [Hu Hr]. exists v. split; [done|]. split.
        + transitivity (rank_at L' lp'); [done|]. by apply (tot_above v).
        + assert (cut v L lp) as Hcv.
            by (eapply cut_up; done).
          assert (jj < nq) as Hjn by lia. destruct (Hnext Hjn) as [Hn Hrk].
          pose proof (rank_of_mono_le siz nq Hsiz Hnq jj j ltac:(lia)).
          pose proof (tot_below v L lp (v - 1) Hcv HL Hlp ltac:(lia)). lia. }
    exists y2. split; [exact E|]. split; [lia|]. split; [done|].
    intros j Hj. rewrite G3, H5 by lia. done.
Qed.
Lemma lower_bound (l : list Z) : exists m, Forall (Z.le m) l.
Proof.
  induction l as [|v l [m IH]]; [by exists 0; constructor|]. exists (Z.min v m). constructor; [lia|].
  eapply Forall_impl; [exact IH|]. simpl. lia.
Qed.

Definition start : list Z := replicate (length cs) 0.

Lemma start_ok :
  Forall2 loc_ok cs start /\ rank_at start 0 = 0 /\ left_at start 0 <= zlen cs * k + zlen last /\
  exists m, cut m start 0.
Proof.
  unfold start. split; [|split; [|split]].
  - clear -Hk. induction cs as [|c l IH]; constructor; [split; [lia|done]|done].
  - unfold rank_at. rewrite Z.add_0_r. unfold zsum. clear. induction cs as [|c l IH]; [done|].
    cbn [length replicate zip_with foldr]. lia.
  - unfold left_at.
    assert (zsum (zip_with (fun c l => if 0 <? cw c then k - l else 0) cs (replicate (length cs) 0))
      <= zlen cs * k); [|lia].
    clear -Hk. unfold zsum. induction cs as [|c l IH]; [done|]. rewrite zlen_cons.
    cbn [length replicate zip_with foldr]. destruct (0 <? cw c); lia.
  - destruct (lower_bound (concat (cb <$> cs) ++ last)) as [m Hm]. exists m.
    apply Forall_app in Hm as [Hm Hm']. unfold cut, is_lower, rest. simpl.
    split; [|split; [constructor|split; [|done]]].
    + clear. induction cs as [|c l IH]; cbn [length replicate]; constructor; [constructor|done].
    + clear -Hm. induction cs as [|c l IH]; cbn [length replicate]; [constructor|].
      apply Forall_app in Hm as [? ?]. constructor; [|by apply IH]. done.
Qed.

Lemma Output_ok y :
  zlen last <= k -> nq <= zlen y ->
  exists y', Output (cb <$> cs) (cw <$> cs) op siz nq y (zlen cs) k = Ok y' /\ zlen y' = zlen y /\
    (forall j, 0 <= j < nq -> exists v, y' !z j = Some v /\ good j v) /\
    (forall j, nq <= j -> y' !z j = y !z j).
Proof.
  intros Hl Hy. unfold Output.
  assert (match op with Some p => zlen p | None => 0 end = zlen last) as ->
    by (rewrite Eop; by destruct op).
  rewrite (proj2 (Z.ltb_ge k (zlen last))) by done. cbn [go_BYE_if mbind res_bind].
  rewrite to_nat_zlen. destruct start_ok as (H1 & H2 & H3 & m & H4). pose proof (zlen_nonneg last).
  fold start. rewrite quantile_rank_exact by lia.
  set (fuel := S (Z.to_nat (zlen cs * k + zlen last))).
  pose proof (process_loop_ok fuel m start 0 0 (rank_of 0 siz nq) y) as Hp.
  rewrite H2 in Hp. apply Hp; try done; try lia.
  intros _. split; [done|]. pose proof (rank_of_first siz nq). lia.
Qed.
End output.

(** ** The whole run *)

Lemma num_threads_loop_ok b k :
  1 <= b -> 0 < k -> (b + 1 + 10) * k <= Frequent.MAX_SZ ->
  exists N, num_threads_loop 8 b k 128 = Ok N /\ 0 < N.
Proof.
  intros Hb Hk Hmem. cbn [num_threads_loop].
  repeat match goal with
  | |- context [Frequent.MAX_SZ <? ?y] =>
      destruct (Z.ltb_spec Frequent.MAX_SZ y); [|eexists; split; [reflexivity|vm_compute; reflexivity]]
  end.
  exfalso. change (128 / 2 / 2 / 2 / 2 / 2 / 2 / 2) with 1 in *. lia.
Qed.

(** The buffers of a run can be read by [Output], and their ranks are those of
    the elements up to the loss. *)
Lemma cell_readable k H c :
  cell_ok k H c -> 0 < k -> Forall (fun v => v < INT_MAX) (cS c) -> readable k c.
Proof.
  intros Hc Hk Hmax. pose proof (cell_weight _ _ _ Hc) as Hw. split; [done|].
  destruct Hc as [Hl Hc]. split; [done|]. intros Hpos.
  destruct Hc as [[E _]|(h & Hh & E & Hs & HlS & Hc)]; [lia|]. split; [done|].
  specialize (Hc (INT_MAX - 1)). rewrite (cnt_all _ (cS c)) in Hc.
  2: { eapply Forall_impl; [exact Hmax|]. simpl. lia. }
  rewrite HlS in Hc. pose proof (cnt_bounds (INT_MAX - 1) (cb c)) as Hb.
  assert (k <= cnt (INT_MAX - 1) (cb c)) as Hcnt by nia.
  clear -Hcnt Hl. revert k Hl Hcnt. induction (cb c) as [|v l IH]; intros k Hl Hcnt; [constructor|].
  rewrite zlen_cons in Hl. rewrite cnt_cons in Hcnt. pose proof (cnt_bounds (INT_MAX - 1) l).
  destruct (Z.leb_spec v (INT_MAX - 1)); [|lia]. constructor; [lia|]. apply (IH (k - 1)); lia.
Qed.

Lemma cnt_concat t (l : list (list Z)) : cnt t (concat l) = zsum (cnt t <$> l).
Proof.
  induction l as [|x l IH]; [done|]. rewrite fmap_cons. unfold zsum in *. simpl concat.
  rewrite cnt_app, IH. done.
Qed.

Lemma loss_sum k H cs t :
  0 <= H -> Forall (cell_ok k H) cs ->
  0 <= 2 * (zsum ((fun c => cw c * cnt t (cb c)) <$> cs) - cnt t (concat (cS <$> cs)))
    <= H * zsum (cw <$> cs).
Proof.
  intros HH. unfold zsum. induction 1 as [|c cs Hc _ IH]; [simpl; rewrite cnt_nil; lia|].
  rewrite !fmap_cons. cbn [foldr concat]. rewrite cnt_app.
  pose proof (cell_weight _ _ _ Hc) as Hw.
  assert (0 <= 2 * (cw c * cnt t (cb c) - cnt t (cS c)) <= H * cw c); [|lia].
  destruct Hc as [_ [[-> ->]|(h & Hh & E & _ & _ & Hc)]]; [rewrite cnt_nil; lia|].
  specialize (Hc t). assert (h * cw c <= H * cw c) by (apply Z.mul_le_mono_nonneg_r; lia). lia.
Qed.

Lemma tot_loss b k S S' cs last t :
  cells_ok b k S' cs -> S ≡ₚ S' ++ last -> 0 < k -> 1 <= b -> zlen S' <= k * 2 ^ (b - 1) ->
  0 <= tot cs last t - cnt t S <= max_loss b.
Proof.
  intros Hcs HS Hk Hb Hroom. pose proof (cells_total b k S' cs Hcs) as Htot.
  destruct Hcs as (_ & Hall & Hp). unfold tot.
  rewrite (cnt_perm t S _ HS), cnt_app, (cnt_perm t S' _ Hp).
  pose proof (loss_sum k (Z.max 0 (b - 2)) cs t ltac:(lia) Hall) as Hloss.
  assert (zsum (cw <$> cs) <= 2 ^ (b - 1)) as Hsum by (apply (Z.mul_le_mono_pos_r _ _ k); lia).
  unfold max_loss. destruct (Z.le_gt_cases b 2) as [Hb2|Hb2]; [rewrite Z.max_l in * by lia; lia|].
  rewrite Z.max_r in * by lia.
  assert (2 ^ (b - 1) = 2 * 2 ^ (b - 2)) as E.
  { rewrite <- Z.pow_succ_r by lia. f_equal. lia. }
  assert ((b - 2) * zsum (cw <$> cs) <= (b - 2) * 2 ^ (b - 1)) by (apply Z.mul_le_mono_nonneg_l; lia). lia.
Qed.

(** The last block does not fill all packets when [cfld] selects some
    elements only. *)
Definition last_block_ok (cfld : option (list Z)) (siz eff_siz N k : Z) : Prop :=
  match cfld with
  | None => True
  | Some _ => eff_siz = siz \/ eff_siz mod (N * k) <> 0
  end.

Lemma packets_ok x cfld N b k :
  match cfld with None => True | Some c => zlen c = zlen x end ->
  let S := Frequent.elements x cfld in
  0 < k < 2 ^ 60 -> 1 <= b -> 0 < N -> last_block_ok cfld (zlen x) (zlen S) N k ->
  zlen S <= k * 2 ^ (b - 1) -> zlen S <= INT_MAX * k ->
  exists last s' S',
    blocks_loop (Z.to_nat (zlen x)) x cfld (zlen x) (zlen S) N b k 0 None
      {| buffer := replicate (Z.to_nat b) (replicate (Z.to_nat k) 0);
         weight := replicate (Z.to_nat b) 0; no_of_empty_buffers := b |} = Ok (last, s') /\
    S = S' ++ last_elements last /\ last_ok k last /\ buffers_ok b k S' s'.
Proof.
  intros Hc S Hk Hb HN Hblk Hroom Hint.
  assert (exists R Q, R (zlen x) = [] /\ R 0 = S /\ Q 0 /\
    forall cur, 0 <= cur < zlen x -> Q cur ->
      delivers_packets R Q (zlen x) k cur (next_packets x cfld (zlen x) (zlen S) N k cur None))
    as (R & Q & HR1 & HR0 & HQ0 & Hnext).
  { assert (forall l : list Z, drop (Z.to_nat (zlen l)) l = []) as Hnil.
    { intros l. by rewrite to_nat_zlen, drop_all. }
    destruct cfld as [c|].
    - destruct (Z.eq_dec (zlen S) (zlen x)) as [Eall|Hne].
      + exists (fun cur => drop (Z.to_nat cur) x), (fun _ => True). split; [apply Hnil|]. split.
        * unfold S in *. simpl. symmetry. apply Frequent.chosen_all; [|done]. apply Nat2Z.inj.
          symmetry. exact Hc.
        * split; [done|]. intros cur Hcur _. by apply next_packets_all; try lia.
      + destruct Hblk as [|Hmod]; [done|].
        exists (Frequent.rest_of x c), (fun cur => (N * k | zlen S - zlen (Frequent.rest_of x c cur))).
        split; [unfold Frequent.rest_of; by rewrite Hnil|]. split; [done|]. split.
        * change (Frequent.rest_of x c 0) with S. rewrite Z.sub_diag. apply Z.divide_0_r.
        * intros cur Hcur HQ. by apply next_packets_selected; try lia.
    - exists (fun cur => drop (Z.to_nat cur) x), (fun _ => True). split; [apply Hnil|]. split; [done|].
      split; [done|]. intros cur Hcur _. by apply next_packets_all; try lia. }
  pose proof (zlen_nonneg x). pose proof (zlen_nonneg (R 0)).
  set (s0 := {| buffer := _; weight := _; no_of_empty_buffers := _ |}).
  destruct (blocks_loop_ok R Q x cfld (zlen x) (zlen S) N b k (Z.to_nat (zlen x)) Hk Hb HR1 Hnext 0 [] s0)
    as (last & s' & S' & E & H1 & H2 & H3); try done; try lia.
  { apply start_buffers; lia. } { simpl. by rewrite HR0. } { simpl. by rewrite HR0. }
  exists last, s', S'. split; [exact E|]. split; [|done]. rewrite <- HR0. exact H1.
Qed.

Lemma eps_range eps :
  0 <= mant eps -> dnum eps <= dden eps -> dlt eps (of_Z 0) || dlt (of_Z 1) eps = false.
Proof.
  intros Hm H1. pose proof (of_Z_exact 0 ltac:(lia)) as E0. pose proof (of_Z_exact 1 ltac:(lia)) as E1.
  pose proof (dden_pos (of_Z 0)). pose proof (dden_pos (of_Z 1)). pose proof (dden_pos eps).
  assert (0 <= dnum eps) by (unfold dnum; pose proof (pow2_pos (expo eps)); nia).
  unfold dlt. rewrite E0, E1. apply orb_false_intro; apply Z.ltb_ge; nia.
Qed.

Lemma sorted_last k last :
  last_ok k last -> k < 2 ^ 60 ->
  exists last', match last with
                | Some p => p ← Qsort.qsort_asc_I4 p (zlen p) 4; Ok (Some p)
                | None => Ok None
                end = Ok last' /\
    last_elements last ≡ₚ last_elements last' /\ StronglySorted Z.le (last_elements last') /\
    zlen (last_elements last') <= Z.max 0 k.
Proof.
  intros Hl Hk. destruct last as [p|].
  - simpl in Hl. destruct (Qsort.qsort_asc_I4_ok p ltac:(lia)) as (p' & -> & Hp & Hs). exists (Some p').
    split; [done|]. split; [exact Hp|]. split; [exact Hs|].
    change (zlen p' <= Z.max 0 k). assert (zlen p' = zlen p) by (unfold zlen; by rewrite Hp). lia.
  - exists None. split; [done|]. split; [done|]. split; [constructor|].
    change (0 <= Z.max 0 k). lia.
Qed.

(** The answers of [Output] on the buffers of a run. *)
Lemma answers_ok b k S S' s last eps nq y :
  buffers_ok b k S' s -> S ≡ₚ S' ++ last_elements last -> StronglySorted Z.le (last_elements last) ->
  zlen (last_elements last) <= k -> 0 < k -> 1 <= b -> zlen S <= k * 2 ^ (b - 1) ->
  Forall (fun v => v < INT_MAX) S -> 0 < zlen S -> 1 <= nq <= zlen y -> nq * zlen S < 2 ^ 53 ->
  max_loss b * dden eps <= zlen S * dnum eps ->
  exists y', Output (buffer s) (weight s) last (zlen S) nq y b k = Ok y' /\ zlen y' = zlen y /\
    (forall j, nq <= j -> y' !z j = y !z j) /\
    (forall j, 0 <= j < nq -> exists v, y' !z j = Some v /\
       cnt (v - 1) S < rank_of j (zlen S) nq /\
       (rank_of j (zlen S) nq - cnt v S) * dden eps <= zlen S * dnum eps).
Proof.
  intros (cs & Hcs & Eb & Ew & _) HS Hsort Hll Hk Hb Hroom Hmax Hpos Hnq Hexact Hloss.
  assert (zlen S = zlen S' + zlen (last_elements last)) as Hlen
    by (rewrite <- zlen_app; unfold zlen; by rewrite HS).
  pose proof (zlen_nonneg (last_elements last)). pose proof (cells_total b k S' cs Hcs) as Htot.
  rewrite HS in Hmax. apply Forall_app in Hmax as [Hmax1 Hmax2].
  pose proof Hcs as (Hcl & Hall & Hp). rewrite Hp in Hmax1.
  assert (Forall (readable k) cs) as Hread.
  { clear -Hall Hmax1 Hk. induction Hall as [|c cs Hc _ IH]; [constructor|].
    rewrite fmap_cons in Hmax1. apply Forall_app in Hmax1 as [Hc1 Hcs1].
    constructor; [by eapply cell_readable|by apply IH]. }
  assert (zsum ((fun c => cw c * k) <$> cs) + zlen (last_elements last) = zlen S) as Hsum.
  { assert (zsum ((fun c => cw c * k) <$> cs) = zsum (cw <$> cs) * k) as ->; [|lia].
    clear. unfold zsum. induction cs as [|c cs IH]; [done|]. rewrite !fmap_cons. cbn [foldr]. lia. }
  destruct (Output_ok k cs (last_elements last) Hk Hsort Hmax2 Hread last eq_refl (zlen S) nq Hpos
    ltac:(lia) Hexact Hsum y Hll ltac:(lia)) as (y' & E & H1 & H2 & H3).
  rewrite Hcl in E. rewrite Eb, Ew. exists y'. split; [exact E|]. split; [done|]. split; [done|].
  intros j Hj. destruct (H2 j Hj) as (v & Hv & Hg1 & Hg2). exists v. split; [done|].
  assert (forall t, 0 <= tot cs (last_elements last) t - cnt t S <= max_loss b) as HT.
  { intros t. by apply (tot_loss b k S S'); try lia. }
  pose proof (HT (v - 1)). pose proof (HT v). split; [lia|].
  transitivity (max_loss b * dden eps); [|done]. apply Z.mul_le_mono_nonneg_r; [|lia].
  pose proof (dden_pos eps). lia.
Qed.

(** Claim C8. The promise of the algorithm: for [0 <= eps <= 1], on an input of
    [n] selected elements below [INT_MAX], with [1 <= num_quantiles <= y_siz] and
    room for the answers, [approx_quantile] either reports that it would need too
    much memory, or writes for every quantile [j + 1] of [num_quantiles] a value
    [v] whose rank is within [eps * n] of the rank [(j + 1) * n / num_quantiles],
    rounded up: fewer than that many elements are below [v], and at least that
    many less [eps * n] are at most [v].  The rest of [y] is unchanged.  When
    [cfld] selects some elements only, their number must not fill the packets of
    the last block. *)
Theorem approx_quantile_correct x cfld siz num_quantiles eps y y_siz :
  zlen x = siz -> match cfld with None => True | Some c => zlen c = siz end ->
  let S := Frequent.elements x cfld in
  0 < zlen S <= 2 ^ 44 -> Forall (fun v => v < INT_MAX) S ->
  0 <= mant eps -> dnum eps <= dden eps ->
  1 <= num_quantiles <= y_siz -> y_siz <= zlen y -> num_quantiles * zlen S < 2 ^ 53 ->
  (forall b k N, determine_b_k eps (zlen S) = Ok (b, k) -> num_threads_loop 8 b k 128 = Ok N ->
     last_block_ok cfld siz (zlen S) N k) ->
  let r := approx_quantile (Some x) cfld siz num_quantiles eps (Some y) y_siz in
  exists b k, determine_b_k eps (zlen S) = Ok (b, k) /\
    if Frequent.MAX_SZ <? (b + 1 + 10) * k then r = Ok (-2, y)
    else exists y', r = Ok (1, y') /\ zlen y' = zlen y /\
      (forall j, num_quantiles <= j -> y' !z j = y !z j) /\
      (forall j, 0 <= j < num_quantiles -> exists v, y' !z j = Some v /\
         cnt (v - 1) S < rank_of j (zlen S) num_quantiles /\
         (rank_of j (zlen S) num_quantiles - cnt v S) * dden eps <= zlen S * dnum eps).
Proof.
  intros <- Hc S HS Hmax Hm H1 Hnq Hy Hexact Hblk r.
  destruct (determine_b_k_ok eps (zlen S) Hm H1 HS) as (b & k & Ebk & Hb & Hk & Hroom & Hloss).
  exists b, k. split; [done|]. unfold r, approx_quantile.
  pose proof (Frequent.eff_siz_ok x cfld Hc ltac:(unfold S in *; lia)) as Heff.
  assert (0 < zlen x) as Hx.
  { unfold S in HS. pose proof (Frequent.chosen_length x) as Hlen.
    destruct cfld as [c|]; simpl in HS; [specialize (Hlen c); unfold zlen in *; lia|lia]. }
  rewrite (eps_range eps Hm H1), (proj2 (Z.ltb_ge num_quantiles 1)), (proj2 (Z.leb_gt (zlen x) 0)),
    (proj2 (Z.ltb_ge y_siz num_quantiles)) by lia.
  cbn [go_BYE_if mbind res_bind]. rewrite Heff. fold S. cbn [mbind res_bind]. rewrite Ebk.
  cbn [mbind res_bind]. rewrite (proj2 (Z.leb_gt b 0)), (proj2 (Z.leb_gt k 0)) by lia.
  cbn [orb go_BYE_if mbind res_bind].
  destruct (Z.ltb_spec Frequent.MAX_SZ ((b + 1 + 10) * k)) as [|Hmem]; [done|].
  destruct (num_threads_loop_ok b k) as (N & EN & HN); [lia|lia|done|]. rewrite EN. cbn [mbind res_bind].
  assert (k < 2 ^ 60) as Hk60 by (unfold Frequent.MAX_SZ in Hmem; nia).
  destruct (packets_ok x cfld N b k Hc) as (last & s' & S' & E & HSS & Hlast & Hs');
    [lia|lia|done|exact (Hblk b k N Ebk EN)|done|fold S; unfold INT_MAX; lia|].
  fold S in E, HSS. rewrite E. cbn [mbind res_bind].
  destruct (sorted_last k last Hlast Hk60) as (last' & -> & Hperm & Hsort & Hll). cbn [mbind res_bind].
  destruct (answers_ok b k S S' s' last' eps num_quantiles y) as (y' & -> & G1 & G2 & G3);
    [done|by rewrite HSS, Hperm|done|lia|lia|lia|done|done|lia|lia|done|done|].
  cbn [mbind res_bind]. exists y'. split; [reflexivity|]. exact (conj G1 (conj G2 G3)).
Qed.

Lemma approx_quantile_correct_witness :
  exists y', approx_quantile (Some [5; 1; 4; 2; 3]) None 5 5 (ddiv (of_Z 1) (of_Z 100)) (Some [0; 0; 0; 0; 0; 9]) 5
      = Ok (1, y') /\ zlen y' = 6 /\
    (forall j, 5 <= j -> y' !z j = [0; 0; 0; 0; 0; 9] !z j) /\
    (forall j, 0 <= j < 5 -> exists v, y' !z j = Some v /\
       cnt (v - 1) [5; 1; 4; 2; 3] < rank_of j 5 5 /\
       (rank_of j 5 5 - cnt v [5; 1; 4; 2; 3]) * dden (ddiv (of_Z 1) (of_Z 100))
         <= 5 * dnum (ddiv (of_Z 1) (of_Z 100))).
Proof.
  set (x := [5; 1; 4; 2; 3]). set (eps := ddiv (of_Z 1) (of_Z 100)). set (y := [0; 0; 0; 0; 0; 9]).
  assert (0 < zlen (Frequent.elements x None) <= 2 ^ 44) as P1 by (split; vm_compute; done).
  assert (Forall (fun v => v < INT_MAX) (Frequent.elements x None)) as P2
    by (repeat (apply Forall_cons_2; [reflexivity|]); apply Forall_nil_2).
  assert (0 <= mant eps) as P3 by (vm_compute; done).
  assert (dnum eps <= dden eps) as P4 by (vm_compute; done).
  assert (1 <= 5 <= 5) as P5 by lia.
  assert (5 <= zlen y) as P6 by (vm_compute; done).
  assert (5 * zlen (Frequent.elements x None) < 2 ^ 53) as P7 by (vm_compute; done).
  destruct (approx_quantile_correct x None 5 5 eps y 5 eq_refl I P1 P2 P3 P4 P5 P6 P7
    (fun _ _ _ _ _ => I)) as (b & k & E & C).
  assert (determine_b_k eps (zlen (Frequent.elements x None)) = Ok (1, 10000)) as E'
    by (vm_compute; reflexivity).
  rewrite E' in E. injection E as <- <-. exact C.
Defined.

(** ** What is not answered *)

Lemma scan_bufs_below n : forall bufs ws locs k ii v0 loc0 v loc,
  scan_bufs n bufs ws locs k ii v0 loc0 = Ok (v, loc) -> (v, loc) = (v0, loc0) \/ v < v0.
Proof.
  induction n as [|n IH]; intros bufs ws locs k ii v0 loc0 v loc; cbn [scan_bufs]; [intros [= -> ->]; by left|].
  destruct (rd ws ii) as [w| | |]; try done. cbn [mbind res_bind].
  destruct (0 <? w); [|by apply IH]. destruct (rd locs ii) as [l| | |]; try done. cbn [mbind res_bind].
  destruct (l <? k); [|by apply IH]. destruct (rd bufs ii) as [buf| | |]; try done. cbn [mbind res_bind].
  destruct (rd buf l) as [u| | |]; try done. cbn [mbind res_bind].
  destruct (Z.ltb_spec u v0); [|by apply IH]. intros [[= -> ->]|]%IH; right; lia.
Qed.

Lemma next_element_below bufs ws op b k locs lp v loc :
  0 <= b -> next_element bufs ws op b k locs lp = Ok (v, loc) -> 0 <= loc -> v < INT_MAX.
Proof.
  intros Hb. unfold next_element. intros ([v1 loc1] & Hs & Hrest)%res_bind_Ok Hloc.
  apply scan_bufs_below in Hs. destruct op as [p|].
  - destruct (lp <? zlen p); [|injection Hrest as -> ->; destruct Hs as [[= -> ->]|]; lia].
    destruct (rd p lp) as [u| | |]; try done. cbn [mbind res_bind] in Hrest.
    destruct (Z.ltb_spec u v1); injection Hrest as <- <-; destruct Hs as [[= -> ->]|]; lia.
  - injection Hrest as -> ->. destruct Hs as [[= -> ->]|]; lia.
Qed.

(** Every cell of [y'] is that of [y] or holds a value below [INT_MAX]. *)
Definition answers_below (y y' : list Z) : Prop :=
  forall j v, y' !z j = Some v -> v < INT_MAX \/ y !z j = Some v.

Lemma answers_below_trans y1 y2 y3 : answers_below y1 y2 -> answers_below y2 y3 -> answers_below y1 y3.
Proof. intros H1 H2 j v [?|Hv]%H2; [by left|by apply H1]. Qed.

Lemma answers_below_wr y j v y' : wr y j v = Ok y' -> v < INT_MAX -> answers_below y y'.
Proof.
  unfold wr. intros Hw Hv i u Hi. destruct (decide _) as [Hj|]; [|done]. injection Hw as <-.
  rewrite zlookup_zset in Hi by done. destruct (decide (i = j)); [|by right].
  injection Hi as <-. by left.
Qed.

Lemma answer_loop_below rank v siz nq fuel : forall jj next y jj' next' y',
  v < INT_MAX -> answer_loop fuel rank v siz nq jj next y = Ok (jj', next', y') -> answers_below y y'.
Proof.
  induction fuel as [|fuel IH]; intros jj next y jj' next' y' Hv; cbn [answer_loop];
    (destruct ((next <=? rank) && (jj <? nq)); [|intros [= <- <- <-] i u; by right]); [done|].
  intros (y1 & Hw & Hrest)%res_bind_Ok. eapply answers_below_trans;
    [by eapply answers_below_wr|by eapply IH].
Qed.

Lemma process_loop_below bufs ws op siz nq b k fuel : forall locs lp rank jj next y y',
  0 <= b -> process_loop fuel bufs ws op siz nq b k locs lp rank jj next y = Ok y' -> answers_below y y'.
Proof.
  induction fuel as [|fuel IH]; intros locs lp rank jj next y y' Hb; cbn [process_loop]; [done|].
  intros ([v loc] & Hne & Hrest)%res_bind_Ok. destruct (Z.ltb_spec loc 0) as [Hneg|Hloc].
  - injection Hrest as <-. intros i u. by right.
  - pose proof (next_element_below _ _ _ _ _ _ _ _ _ Hb Hne Hloc) as Hv.
    apply res_bind_Ok in Hrest as ([[rank' locs'] lp'] & _ & Hrest).
    apply res_bind_Ok in Hrest as ([[jj' next'] y1] & Ha & Hrest).
    eapply answers_below_trans; [by eapply answer_loop_below|by eapply IH].
Qed.

(** [INT_MAX] is never an answer: whatever the input, also when most
    elements are [INT_MAX], a run that reports success has written values below
    [INT_MAX] or left the cell of [y] as it was, because the search for the
    smallest element left starts at [0x7FFFFFFF] and looks for a smaller one. *)
Theorem approx_quantile_never_INT_MAX x cfld siz num_quantiles eps y y_siz good y' :
  approx_quantile (Some x) cfld siz num_quantiles eps (Some y) y_siz = Ok (good, y') ->
  answers_below y y'.
Proof.
  unfold approx_quantile. intros H. do 4 (apply res_bind_Ok in H as (? & _ & H)).
  apply res_bind_Ok in H as (n & _ & H). apply res_bind_Ok in H as ([b k] & _ & H).
  apply res_bind_Ok in H as (? & Hb & H). unfold go_BYE_if in Hb.
  destruct (Z.leb_spec b 0) as [|Hpos]; [done|].
  destruct (Frequent.MAX_SZ <? (b + 1 + 10) * k).
  { injection H as <- <-. intros j v. by right. }
  apply res_bind_Ok in H as (N & _ & H). apply res_bind_Ok in H as ([last s] & _ & H).
  apply res_bind_Ok in H as (last' & _ & H). apply res_bind_Ok in H as (y1 & Ho & H).
  injection H as <- <-. unfold Output in Ho. apply res_bind_Ok in Ho as (? & _ & Ho).
  eapply process_loop_below; [|exact Ho]. lia.
Qed.

Lemma approx_quantile_never_INT_MAX_witness : answers_below [0; 0] [5; 0].
Proof.
  apply (approx_quantile_never_INT_MAX [5; INT_MAX] None 2 2 (ddiv (of_Z 1) (of_Z 100)) [0; 0] 2 1 [5; 0]).
  vm_compute. reflexivity.
Defined.

Lemma chosen_last x : forall c n v s,
  length x = length c -> x !! n = Some v -> c !! n = Some s -> s <> 0 -> Frequent.chosen x c <> [].
Proof.
  induction x as [|u x IH]; intros [|t c] n v s Hl Hx Hc Hs; try done. simpl.
  destruct (Z.eqb_spec t 0) as [->|]; [|done]. destruct n as [|n]; [by injection Hc as <-|].
  injection Hl as Hl. by eapply IH.
Qed.

(** When [cfld] selects some elements only, the last element among
    them, and what is left at the start of a block is exactly [NUM_THREADS]
    packets, the search for the incomplete packet reads the sizes of the packets
    behind their end: it uses [tid], which is then [NUM_THREADS], in place of
    its own index. *)
Theorem next_packets_overrun x c eff_siz N k cur last :
  0 < k -> 0 < N -> 0 <= cur < zlen x -> zlen c = zlen x -> eff_siz <> zlen x ->
  (exists s, rd c (zlen x - 1) = Ok s /\ s <> 0) ->
  zlen (Frequent.rest_of x c cur) = N * k ->
  next_packets x (Some c) (zlen x) eff_siz N k cur last = Ub.
Proof.
  intros Hk HN Hcur Hc He (s & Hs & Hs0) Hrest. unfold next_packets. rewrite (proj2 (Z.eqb_neq _ _) He).
  destruct (Frequent.fill_block_ok x c k N cur) as (cur' & tid & full & ps & -> & H1 & Hfill & HR); [done..|].
  cbn [mbind res_bind]. destruct Hfill as (Hfull & -> & HlenN & Hps).
  rewrite HR, zlen_app in Hrest.
  destruct Hps as [[-> EN]|(p & j & -> & Hp & ->)].
  - assert (zlen (Frequent.rest_of x c cur') = 0) as H0 by (rewrite (concat_full k full Hfull) in Hrest; lia).
    destruct (Z.eqb_spec cur' (zlen x)) as [->|Hne].
    + rewrite EN. cbn [find_last]. unfold rd at 1. rewrite zlookup_None by lia. done.
    + exfalso. destruct (rd_total x (zlen x - 1) ltac:(lia)) as [v Hv]. apply rd_Ok in Hv, Hs.
      rewrite zlookup_to_nat in Hv by lia. rewrite zlookup_to_nat in Hs by lia.
      unfold Frequent.rest_of in H0.
      apply (chosen_last (drop (Z.to_nat cur') x) (drop (Z.to_nat cur') c)
        (Z.to_nat (zlen x - 1) - Z.to_nat cur') v s);
        [rewrite !length_drop; unfold zlen in *; lia| | |done|by apply length_zero_iff_nil; unfold zlen in *; lia].
      * rewrite lookup_drop. rewrite <- Hv. f_equal. lia.
      * rewrite lookup_drop. rewrite <- Hs. f_equal. lia.
  - exfalso. unfold Frequent.rest_of in Hrest at 1. rewrite to_nat_zlen, drop_all in Hrest.
    change (zlen (Frequent.chosen [] _)) with 0 in Hrest.
    rewrite concat_app, zlen_app, (concat_full k full Hfull) in Hrest. simpl in Hrest.
    rewrite Frequent.concat_nils, app_nil_r in Hrest.
    assert (zlen full + 1 <= N) as Hle.
    { rewrite <- HlenN, zlen_app, zlen_cons. pose proof (zlen_nonneg (replicate j ([] : list Z))). lia. }
    nia.
Qed.

Lemma next_packets_overrun_witness : next_packets [4; 8; 6] (Some [0; 1; 1]) 3 2 2 1 0 None = Ub.
Proof.
  apply (next_packets_overrun [4; 8; 6] [0; 1; 1] 2 2 1 0 None); try reflexivity; try lia.
  - split; [lia|reflexivity].
  - discriminate.
  - exists 1. split; [reflexivity|lia].
Defined.

End QuantileRun.
