(* ===== verification/Catalog.v ===== *)
(** * The catalog: state, files and lookups.

    The tables, fields and data directories of a docroot are arrays of records
    in memory-mapped files (meta_globals.h); here they are the lists of
    [state], together with the part of the process and of the file system
    that the catalog code reads and writes: the working directory, the
    directories that exist, and the contents of files by directory and name.
    A directory is its absolute name.  A file name is looked up in the working
    directory, or under no directory when it starts with a slash; it is not
    taken apart.

    A function that returns a status is a state transformer: [Ret] is status
    0 with the values stored through pointers, [Fail] is status -1 with the
    state as the failed call left it, [Stuck] is an access outside an array
    or a copy past the end of a buffer.

    Models [rs_mmap] of dir_utils/mmap.c, [chk_file_size] and [q_mmap] of
    dir_dbutils/dbauxil.c, dir_ro_verbs/is_tbl.c, is_fld.c, get_nR.c,
    is_nn_fld.c, [get_empty_tbl] and [get_empty_fld], and [init_meta_data]. *)

From stdpp Require Import prelude strings gmap.
From Stdlib Require Import ZArith Lia Ascii.
From S2P Require Import Prelude CString Types Hash.
Import HashString.

(** [META_KEY_VAL_TYPE] *)
Record META_KEY_VAL_TYPE := { kv_key : Z; kv_val : Z }.

Record state := {
  g_tbls : list TBL_REC_TYPE;
  g_flds : list FLD_REC_TYPE;
  g_ddirs : list string;
  g_ht_tbl : list META_KEY_VAL_TYPE;
  g_ht_fld : list META_KEY_VAL_TYPE;
  g_data_dir : option string;
  g_cwd : string;
  cwd : string;
  dirs : gset string;
  fs : gmap (string * string) (list Z)
}.

Definition set_tbls (f : list TBL_REC_TYPE -> list TBL_REC_TYPE) (s : state) : state :=
  {| g_tbls := f (g_tbls s); g_flds := g_flds s; g_ddirs := g_ddirs s;
     g_ht_tbl := g_ht_tbl s; g_ht_fld := g_ht_fld s; g_data_dir := g_data_dir s;
     g_cwd := g_cwd s; cwd := cwd s; dirs := dirs s; fs := fs s |}.
Definition set_flds (f : list FLD_REC_TYPE -> list FLD_REC_TYPE) (s : state) : state :=
  {| g_tbls := g_tbls s; g_flds := f (g_flds s); g_ddirs := g_ddirs s;
     g_ht_tbl := g_ht_tbl s; g_ht_fld := g_ht_fld s; g_data_dir := g_data_dir s;
     g_cwd := g_cwd s; cwd := cwd s; dirs := dirs s; fs := fs s |}.
Definition set_cwd (d : string) (s : state) : state :=
  {| g_tbls := g_tbls s; g_flds := g_flds s; g_ddirs := g_ddirs s;
     g_ht_tbl := g_ht_tbl s; g_ht_fld := g_ht_fld s; g_data_dir := g_data_dir s;
     g_cwd := g_cwd s; cwd := d; dirs := dirs s; fs := fs s |}.
Definition set_fs (f : gmap (string * string) (list Z) -> gmap (string * string) (list Z))
    (s : state) : state :=
  {| g_tbls := g_tbls s; g_flds := g_flds s; g_ddirs := g_ddirs s;
     g_ht_tbl := g_ht_tbl s; g_ht_fld := g_ht_fld s; g_data_dir := g_data_dir s;
     g_cwd := g_cwd s; cwd := cwd s; dirs := dirs s; fs := f (fs s) |}.

(** ** The monad *)

Inductive outcome (A : Type) : Type :=
| Ret (a : A) (s : state)
| Fail (s : state)
| Stuck.
Arguments Ret {_} _ _.
Arguments Fail {_} _.
Arguments Stuck {_}.

Definition M (A : Type) : Type := state -> outcome A.

#[export] Instance M_ret : MRet M := fun A a s => Ret a s.
#[export] Instance M_bind : MBind M := fun A B f m s =>
  match m s with Ret a s => f a s | Fail s => Fail s | Stuck => Stuck end.

Definition gets {A} (f : state -> A) : M A := fun s => Ret (f s) s.
Definition modify (f : state -> state) : M unit := fun s => Ret tt (f s).
Definition go_BYE {A} : M A := fun s => Fail s.
Definition stuck {A} : M A := fun s => Stuck.
Definition fail_if (c : bool) : M unit := if c then go_BYE else mret tt.
Definition stuck_if (c : bool) : M unit := if c then stuck else mret tt.

(** A call of a function without effect on the state. *)
Definition lift {A} (m : res A) : M A :=
  match m with Ok a => mret a | Err => go_BYE | Ub | NoFuel => stuck end.

(** A call whose status is not checked: with status -1 the caller goes on,
    with [d] in the variables the call was to set. *)
Definition ignore_status {A} (m : M A) (d : A) : M A := fun s =>
  match m s with Fail s => Ret d s | o => o end.

(** [if c { body }] *)
Definition when (c : bool) (body : M unit) : M unit := if c then body else mret tt.

(** ** Array accesses *)

Definition rd_tbl (i : Z) : M TBL_REC_TYPE := fun s => lift (rd (g_tbls s) i) s.
Definition rd_fld (i : Z) : M FLD_REC_TYPE := fun s => lift (rd (g_flds s) i) s.
Definition rd_ddir (i : Z) : M string := fun s => lift (rd (g_ddirs s) i) s.
Definition wr_tbl (i : Z) (t : TBL_REC_TYPE) : M unit := fun s =>
  match wr (g_tbls s) i t with Ok _ => Ret tt (set_tbls (fun l => zset l i t) s) | _ => Stuck end.
Definition wr_fld (i : Z) (f : FLD_REC_TYPE) : M unit := fun s =>
  match wr (g_flds s) i f with Ok _ => Ret tt (set_flds (fun l => zset l i f) s) | _ => Stuck end.

Definition g_n_tbl (s : state) : Z := zlen (g_tbls s).
Definition g_n_fld (s : state) : Z := zlen (g_flds s).
Definition g_n_ddir (s : state) : Z := zlen (g_ddirs s).

(** [chk_range(x, 0, g_n_tbl)] *)
Definition chk_range (x lb_incl ub_excl : Z) : M unit :=
  fail_if ((x <? lb_incl) || (ub_excl <=? x)).
Definition chk_tbl_range (x : Z) : M unit := n ← gets g_n_tbl; chk_range x 0 n.
Definition chk_fld_range (x : Z) : M unit := n ← gets g_n_fld; chk_range x 0 n.

(** [strcpy] into a buffer with room for [max] characters and the NUL. *)
Definition strcpy_ok (s : string) (max : Z) : M unit := stuck_if (max <? strlen s).

(** ** Files *)

(** [chdir(dir)] with its status ignored. *)
Definition chdir (dir : option string) : M unit := fun s =>
  match dir with
  | Some d => Ret tt (if decide (d ∈ dirs s) then set_cwd d s else s)
  | None => Ret tt s
  end.
Definition chdir_back : M unit := d ← gets g_cwd; chdir (Some d).

(** The directory of a field: [g_data_dir], or the one with its id. *)
Definition chdir_ddir (id : Z) : M unit :=
  if id <? 0 then d ← gets g_data_dir; chdir d
  else
    alt_data_dir ← rd_ddir id;
    fail_if (strcmp_eq alt_data_dir "");; chdir (Some alt_data_dir).

(** Where the file of a name is. *)
Definition path (s : state) (file : string) : string * string :=
  match file with
  | String "/" _ => (""%string, file)
  | _ => (cwd s, file)
  end.

Definition unlink (file : string) : M unit :=
  modify (fun s => set_fs (delete (path s file)) s).

(** [rs_mmap(file, &X, &nX, is_write)]: the contents of the file; an empty
    file gives the NULL pointer and length 0. *)
Definition rs_mmap (file : string) : M (list Z) := fun s =>
  match fs s !! path s file with Some c => Ret c s | None => Fail s end.

Definition q_mmap (id : Z) (file : string) : M (list Z) :=
  chdir_ddir id;;
  X ← rs_mmap file;
  chdir_back;;
  mret X.

(** [chk_file_size(filename, nR, fldtype)].  The statuses of the two size
    functions are looked at only after the comparison, which fails with them. *)
Definition chk_file_size (file : string) (nR : Z) (t : FLD_TYPE) : M unit :=
  if decide (t = clob) then mret tt
  else
    X ← rs_mmap file;
    fail_if (zlen X =? 0);;
    if decide (t = B) then
      filesz ← lift (get_file_size_B nR);
      fail_if (negb (zlen X =? filesz))
    else
      fldsz ← lift (get_fld_sz t);
      stuck_if ((LLONG_MAX <? fldsz * nR) || (fldsz * nR <? LLONG_MIN));;
      fail_if (negb (wrapU 64 (fldsz * nR) =? zlen X)).

(** ** Scans *)

(** [for ( i = i0; i < i0 + n; i++ ) { if ( p(l[i]) ) { ...; break; } }] *)
Fixpoint find_loop {A} (p : A -> bool) (l : list A) (i : Z) (n : nat) : res (option Z) :=
  match n with
  | O => Ok None
  | S n => x ← rd l i; if p x then Ok (Some i) else find_loop p l (i + 1) n
  end.

(** From [start] to the end, then from 0 to [start]. *)
Definition find_from {A} (p : A -> bool) (l : list A) (start : Z) : res (option Z) :=
  r ← find_loop p l start (Z.to_nat (zlen l - start));
  match r with
  | Some i => Ok (Some i)
  | None => find_loop p l 0 (Z.to_nat start)
  end.

(** The start of the search for a name in a table with a hash index. *)
Definition start_loc (ht : list META_KEY_VAL_TYPE) (nm : option string) : res Z :=
  hashval ← hash_string_UI4 nm;
  _ ← (if zlen ht =? 0 then Ub else Ok tt);
  kv ← rd ht (hashval mod zlen ht);
  Ok (Z.max 0 (kv_val kv)).

(** The index and the record found, [INT_MIN] and the zero record if none. *)
Definition is_tbl (tbl : option string) : M (Z * TBL_REC_TYPE) :=
  ht ← gets g_ht_tbl;
  startloc ← lift (start_loc ht tbl);
  tbls ← gets g_tbls;
  r ← lift (find_from (fun t => strcmp_eq (t_name t) (default ""%string tbl)) tbls startloc);
  match r with
  | Some i => t ← rd_tbl i; mret (i, t)
  | None => mret (INT_MIN, zero_tbl_rec)
  end.

Definition no_fld : Z * FLD_REC_TYPE * Z * FLD_REC_TYPE :=
  (INT_MIN, zero_fld_rec, INT_MIN, zero_fld_rec).

(** The id and record of a field and of its nn field. *)
Definition is_fld (tbl : option string) (in_tbl_id : Z) (fld : option string)
    : M (Z * FLD_REC_TYPE * Z * FLD_REC_TYPE) :=
  tid ← (if in_tbl_id <? 0 then '(t, _) ← is_tbl tbl; mret t else mret in_tbl_id);
  if tid <? 0 then mret no_fld
  else
    ht ← gets g_ht_fld;
    startloc ← lift (start_loc ht fld);
    flds ← gets g_flds;
    r ← lift (find_from (fun f => (tbl_id f =? tid) &&
                                  strcmp_eq (name f) (default ""%string fld)) flds startloc);
    match r with
    | Some i =>
        f ← rd_fld i;
        nn_rec ← (if 0 <=? nn_fld_id f then rd_fld (nn_fld_id f) else mret zero_fld_rec);
        mret (i, f, nn_fld_id f, nn_rec)
    | None => mret no_fld
    end.

(** [get_empty_tbl(tbl, g_tbls, g_n_tbl, &id)] and [get_empty_fld]: an unused
    record, searched from a place that depends on the name.  Without a name
    the place comes from the microseconds of the clock, [usec]. *)
Definition empty_start (n : Z) (usec : Z) (nm : option string) : res Z :=
  _ ← (if n =? 0 then Ub else Ok tt);
  if null_or_empty nm then Ok (usec mod n)
  else h ← hash_string_UI4 nm; Ok (h mod n).

Definition get_empty_tbl (usec : Z) (tbl : option string) : M Z :=
  tbls ← gets g_tbls;
  startidx ← lift (empty_start (zlen tbls) usec tbl);
  r ← lift (find_from (fun t => strcmp_eq (t_name t) "") tbls startidx);
  match r with Some i => mret i | None => go_BYE end.

Definition get_empty_fld (usec : Z) (fld : option string) : M Z :=
  flds ← gets g_flds;
  startidx ← lift (empty_start (zlen flds) usec fld);
  r ← lift (find_from (fun f => strcmp_eq (name f) "") flds startidx);
  match r with Some i => mret i | None => go_BYE end.

(** ** Reading verbs *)

Definition get_nR (tbl : option string) : M Z :=
  '(tid, _) ← is_tbl tbl;
  chk_tbl_range tid;;
  t ← rd_tbl tid; mret (t_nR t).

Definition int_get_nR (tid : Z) : M Z :=
  chk_tbl_range tid;; t ← rd_tbl tid; mret (t_nR t).

(** The id of the nn field and the text of the result. *)
Definition is_nn_fld (tbl fld : option string) : M (Z * string) :=
  fail_if (null_or_empty tbl);;
  fail_if (null_or_empty fld);;
  '(tid, _) ← is_tbl tbl;
  chk_tbl_range tid;;
  '(fid, _, _, _) ← is_fld None tid fld;
  chk_fld_range fid;;
  f ← rd_fld fid;
  mret (nn_fld_id f,
        if 0 <=? nn_fld_id f then ("1," +:+ sprintf_d (nn_fld_id f))%string else "0,-1"%string).

Definition int_get_meta (tid fid : Z) (attr : option string) : M string :=
  chk_tbl_range tid;;
  chk_fld_range fid;;
  f ← rd_fld fid;
  fail_if (negb (tbl_id f =? tid));;
  match attr with
  | None => go_BYE
  | Some attr =>
      if strcmp_eq attr "sort_type" then mret (mk_str_sort_type (sort_type f))
      else if strcmp_eq attr "is_external" then
        mret (if is_external f then "1" else "0")%string
      else if strcmp_eq attr "dict_tbl_id" then mret (sprintf_d (dict_tbl_id f))
      else go_BYE
  end.

Definition get_meta (tbl fld attr : option string) : M string :=
  '(tid, _) ← is_tbl tbl;
  chk_tbl_range tid;;
  fid ← (if null_or_empty fld then mret INT_MIN
         else '(fid, _, _, _) ← is_fld None tid fld; chk_fld_range fid;; mret fid);
  int_get_meta tid fid attr.

(** [tbl_meta(tbl, include_aux, fld_ids, &num_flds)] with an array for the
    ids: the fields of the table in the order of their ids. *)
Fixpoint tbl_meta_loop (tid : Z) (include_aux : bool) (i : Z) (flds : list FLD_REC_TYPE)
    : list Z :=
  match flds with
  | [] => []
  | f :: flds =>
      let rest := tbl_meta_loop tid include_aux (i + 1) flds in
      if (tbl_id f =? tid) && (bool_decide (auxtype f = undef) || include_aux)
      then i :: rest else rest
  end.
Definition tbl_meta (tbl : option string) (include_aux : bool) : M (list Z) :=
  fail_if (null_or_empty tbl);;
  '(tid, _) ← is_tbl tbl;
  fail_if (tid <? 0);;
  flds ← gets g_flds;
  mret (tbl_meta_loop tid include_aux 0 flds).

(** ** A new docroot *)

(** [mk_file(cwd, dir, filename, filesize)]: a file of zero bytes.  It ends in
    [dir] when going back to [cwd] fails. *)
Definition mk_file (cwd : string) (dir filename : option string) (filesize : Z) : M unit :=
  match dir, filename with
  | Some dir, Some filename =>
      fail_if (filesize <=? 0);;
      ds ← gets dirs;
      fail_if (negb (bool_decide (dir ∈ ds)));;
      modify (set_cwd dir);;
      modify (fun s => set_fs (insert (path s filename) (repeat 0 (Z.to_nat filesize))) s);;
      fail_if (negb (bool_decide (cwd ∈ ds)));;
      modify (set_cwd cwd)
  | _, _ => go_BYE
  end.

Definition MAX_NUM_TBLS : Z := 256.
Definition MAX_NUM_FLDS : Z := 8192.
Definition MAX_NUM_DDIRS : Z := 8.
Definition G_HT_TBL_SIZE : Z := 1609.
Definition G_HT_FLD_SIZE : Z := 4097.

(** [sizeof] of the records, on a 64-bit machine. *)
Definition sizeof_META_KEY_VAL_TYPE : Z := 8.
Definition sizeof_TBL_REC_TYPE : Z := 176.
Definition sizeof_FLD_REC_TYPE : Z := 224.
Definition sizeof_DDIR_REC_TYPE : Z := 512.

(** [strcpy(buffer, docroot); strcat(buffer, file); mk_file(...);
    rs_mmap(buffer, ...)] and the number of records of size [sz] in the file. *)
Definition mk_meta_file (docroot file : string) (n sz : Z) : M Z :=
  let buffer := (docroot +:+ file)%string in
  stuck_if (MAX_LEN_DIR_NAME + MAX_LEN_FILE_NAME <? strlen buffer + 1);;
  cwd ← gets g_cwd;
  mk_file cwd (Some docroot) (Some buffer) (n * sz);;
  X ← rs_mmap buffer;
  fail_if (zlen X =? 0);;
  fail_if (negb (zlen X mod sz =? 0));;
  mret (zlen X `div` sz).

(** The global variables the function sets. *)
Definition set_meta_data (tbls : list TBL_REC_TYPE) (flds : list FLD_REC_TYPE)
    (ddirs : list string) (ht_tbl ht_fld : list META_KEY_VAL_TYPE) (s : state) : state :=
  {| g_tbls := tbls; g_flds := flds; g_ddirs := ddirs;
     g_ht_tbl := ht_tbl; g_ht_fld := ht_fld; g_data_dir := g_data_dir s;
     g_cwd := g_cwd s; cwd := cwd s; dirs := dirs s; fs := fs s |}.

(** Records whose bytes are zero, as in a new file. *)
Definition null_kv : META_KEY_VAL_TYPE := {| kv_key := 0; kv_val := 0 |}.
Definition null_tbl : TBL_REC_TYPE :=
  {| t_nR := 0; t_name := ""; t_dispname := ""; t_is_dict_tbl := false |}.
Definition null_fld : FLD_REC_TYPE :=
  {| tbl_id := 0; ddir_id := 0; is_external := false; sort_type := unknown;
     parent_id := 0; nn_fld_id := 0; fldtype := xunknown; auxtype := undef;
     name := ""; filename := ""; dispname := ""; dict_tbl_id := 0;
     alias_of_fld_id := 0; cnt := 0 |}.

Definition init_meta_data (docroot : option string) : M unit :=
  fail_if (null_or_empty docroot);;
  let docroot := default ""%string docroot in
  fail_if (MAX_LEN_DIR_NAME <? strlen docroot);;
  n ← mk_meta_file docroot "/docroot.ht_tbl" G_HT_TBL_SIZE sizeof_META_KEY_VAL_TYPE;
  modify (fun s => set_meta_data (g_tbls s) (g_flds s) (g_ddirs s)
                     (repeat null_kv (Z.to_nat n)) (g_ht_fld s) s);;
  n ← mk_meta_file docroot "/docroot.ht_fld" G_HT_FLD_SIZE sizeof_META_KEY_VAL_TYPE;
  modify (fun s => set_meta_data (g_tbls s) (g_flds s) (g_ddirs s)
                     (g_ht_tbl s) (repeat null_kv (Z.to_nat n)) s);;
  n ← mk_meta_file docroot "/docroot.tbls" MAX_NUM_TBLS sizeof_TBL_REC_TYPE;
  modify (set_tbls (fun _ => repeat null_tbl (Z.to_nat n)));;
  n ← mk_meta_file docroot "/docroot.flds" MAX_NUM_FLDS sizeof_FLD_REC_TYPE;
  modify (set_flds (fun _ => repeat null_fld (Z.to_nat n)));;
  n ← mk_meta_file docroot "/docroot.ddirs" MAX_NUM_DDIRS sizeof_DDIR_REC_TYPE;
  modify (fun s => set_meta_data (g_tbls s) (g_flds s) (repeat ""%string (Z.to_nat n))
                     (g_ht_tbl s) (g_ht_fld s) s);;
  modify (fun s => set_meta_data
    ((fun _ => zero_tbl_rec) <$> g_tbls s) ((fun _ => zero_fld_rec) <$> g_flds s)
    ((fun _ => ""%string) <$> g_ddirs s)
    ((fun _ => {| kv_key := 0; kv_val := -1 |}) <$> g_ht_tbl s)
    ((fun _ => {| kv_key := 0; kv_val := -1 |}) <$> g_ht_fld s) s).
