(* ===== verification/Verbs.v ===== *)
(** * The verbs that change the catalog.

    Models [add_tbl], [del_tbl], [iter_del_tbl], [rename_tbl], [set_nR],
    [add_fld], [ext_add_fld], [del_fld], [iter_del_fld], [rename_fld],
    [drop_nn_fld], [mk_nn_fld], [mv_fld] and [set_meta] of the files of these
    names in src/src/dir_wr_verbs/, [add_aux_fld] of
    dir_dbutils/add_aux_fld.c and [del_aux_fld] of dir_dbutils/dbauxil.c.

    Each definition is the function body in order: the checks, the calls, the
    stores.  A pointer argument that may be NULL is an option. *)

From stdpp Require Import prelude strings gmap.
From Stdlib Require Import ZArith Lia Ascii.
From S2P Require Import Prelude CString Types Hash Catalog.

(** ** Stores into one member of a record *)

Definition tbl_set_name (n : string) (t : TBL_REC_TYPE) : TBL_REC_TYPE :=
  {| t_nR := t_nR t; t_name := n; t_dispname := t_dispname t; t_is_dict_tbl := t_is_dict_tbl t |}.
Definition tbl_set_nR (n : Z) (t : TBL_REC_TYPE) : TBL_REC_TYPE :=
  {| t_nR := n; t_name := t_name t; t_dispname := t_dispname t; t_is_dict_tbl := t_is_dict_tbl t |}.
Definition tbl_set_dispname (d : string) (t : TBL_REC_TYPE) : TBL_REC_TYPE :=
  {| t_nR := t_nR t; t_name := t_name t; t_dispname := d; t_is_dict_tbl := t_is_dict_tbl t |}.
Definition tbl_set_is_dict_tbl (b : bool) (t : TBL_REC_TYPE) : TBL_REC_TYPE :=
  {| t_nR := t_nR t; t_name := t_name t; t_dispname := t_dispname t; t_is_dict_tbl := b |}.

(** The members of a field that say what it holds, and those that say how it
    is linked to other fields. *)
Definition fld_set_links (par nnid : Z) (aux : AUX_TYPE) (f : FLD_REC_TYPE) : FLD_REC_TYPE :=
  {| tbl_id := tbl_id f; ddir_id := ddir_id f; is_external := is_external f;
     sort_type := sort_type f; parent_id := par; nn_fld_id := nnid;
     fldtype := fldtype f; auxtype := aux; name := name f; filename := filename f;
     dispname := dispname f; dict_tbl_id := dict_tbl_id f;
     alias_of_fld_id := alias_of_fld_id f; cnt := cnt f |}.
Definition fld_set_nn (nnid : Z) (f : FLD_REC_TYPE) : FLD_REC_TYPE :=
  fld_set_links (parent_id f) nnid (auxtype f) f.
Definition fld_set_name (n : string) (f : FLD_REC_TYPE) : FLD_REC_TYPE :=
  {| tbl_id := tbl_id f; ddir_id := ddir_id f; is_external := is_external f;
     sort_type := sort_type f; parent_id := parent_id f; nn_fld_id := nn_fld_id f;
     fldtype := fldtype f; auxtype := auxtype f; name := n; filename := filename f;
     dispname := dispname f; dict_tbl_id := dict_tbl_id f;
     alias_of_fld_id := alias_of_fld_id f; cnt := cnt f |}.
Definition fld_set_attrs (st : SORT_TYPE) (ft : FLD_TYPE) (dn : string) (dict c : Z)
    (f : FLD_REC_TYPE) : FLD_REC_TYPE :=
  {| tbl_id := tbl_id f; ddir_id := ddir_id f; is_external := is_external f;
     sort_type := st; parent_id := parent_id f; nn_fld_id := nn_fld_id f;
     fldtype := ft; auxtype := auxtype f; name := name f; filename := filename f;
     dispname := dn; dict_tbl_id := dict;
     alias_of_fld_id := alias_of_fld_id f; cnt := c |}.
Definition fld_set_sort (st : SORT_TYPE) (f : FLD_REC_TYPE) : FLD_REC_TYPE :=
  fld_set_attrs st (fldtype f) (dispname f) (dict_tbl_id f) (cnt f) f.
Definition fld_set_fldtype (ft : FLD_TYPE) (f : FLD_REC_TYPE) : FLD_REC_TYPE :=
  fld_set_attrs (sort_type f) ft (dispname f) (dict_tbl_id f) (cnt f) f.
Definition fld_set_dispname (dn : string) (f : FLD_REC_TYPE) : FLD_REC_TYPE :=
  fld_set_attrs (sort_type f) (fldtype f) dn (dict_tbl_id f) (cnt f) f.
Definition fld_set_dict (dict : Z) (f : FLD_REC_TYPE) : FLD_REC_TYPE :=
  fld_set_attrs (sort_type f) (fldtype f) (dispname f) dict (cnt f) f.
Definition fld_set_cnt (c : Z) (f : FLD_REC_TYPE) : FLD_REC_TYPE :=
  fld_set_attrs (sort_type f) (fldtype f) (dispname f) (dict_tbl_id f) c f.

Definition upd_tbl (i : Z) (f : TBL_REC_TYPE -> TBL_REC_TYPE) : M unit :=
  t ← rd_tbl i; wr_tbl i (f t).
Definition upd_fld (i : Z) (f : FLD_REC_TYPE -> FLD_REC_TYPE) : M unit :=
  r ← rd_fld i; wr_fld i (f r).

(** ** Deleting *)

(** Unlink the file of a field in the directory of the field. *)
Definition unlink_fld (f : FLD_REC_TYPE) : M unit :=
  chdir_ddir (ddir_id f);;
  unlink (filename f);;
  chdir_back.

(** The loop meant to delete the aliases of the deleted field.  It reads
    [alias_of_fld_id] of the deleted field itself, not of field [i]. *)
Fixpoint alias_loop (n : nat) (fid : Z) : M unit :=
  match n with
  | O => mret tt
  | S n =>
      f ← rd_fld fid;
      when (alias_of_fld_id f =? fid) (wr_fld fid zero_fld_rec);;
      alias_loop n fid
  end.

(** The function after field [fid] and its nn field are known. *)
Definition del_fld_id (fid nn_id : Z) (is_external_call : bool) : M unit :=
  f ← rd_fld fid;
  when (is_external_call && negb (bool_decide (auxtype f = undef)))
    (p ← rd_fld (parent_id f); fail_if (negb (strcmp_eq (name p) "")));;
  when (negb (is_external f) && (alias_of_fld_id f <? 0)) (unlink_fld f);;
  wr_fld fid zero_fld_rec;;
  f0 ← rd_fld fid;
  when (alias_of_fld_id f0 <? 0) (n ← gets g_n_fld; alias_loop (Z.to_nat n) fid);;
  when (0 <=? nn_id)
    (g ← rd_fld nn_id;
     when (negb (is_external g)) (unlink_fld g);;
     wr_fld nn_id zero_fld_rec).

Definition del_fld (tbl : option string) (in_tbl_id : Z) (fld : option string)
    (in_fld_id : Z) (is_external_call : bool) : M unit :=
  tid ← (if in_tbl_id <? 0 then
           fail_if (null_or_empty tbl);;
           '(tid, _) ← is_tbl tbl; mret tid
         else mret in_tbl_id);
  if tid <? 0 then mret tt
  else
    '(fid, nn_id) ←
      (if in_fld_id <? 0 then
         fail_if (null_or_empty fld);;
         '(fid, _, nn_id, _) ← is_fld tbl tid fld; mret (fid, nn_id)
       else
         f ← rd_fld in_fld_id;
         when (0 <=? nn_fld_id f) (rd_fld (nn_fld_id f);; mret tt);;
         mret (in_fld_id, nn_fld_id f));
    if fid <? 0 then mret tt else del_fld_id fid nn_id is_external_call.

(** [for ( ... ) { status = body(x); cBYE(status); }] *)
Fixpoint for_each {A} (body : A -> M unit) (l : list A) : M unit :=
  match l with [] => mret tt | x :: l => body x;; for_each body l end.

(** [iter_del_fld] and [iter_del_tbl]: a name, or several with colons. *)
Definition iter_names (body : string -> M unit) (s : string) : M unit :=
  if elem_str ":"%char s then
    Y ← lift (break_str (Some s) ":");
    for_each body (default [] Y)
  else body s.
Definition iter_del_fld (tbl : option string) (fld : string) : M unit :=
  iter_names (fun f => del_fld tbl (-1) (Some f) (-1) true) fld.

(** The fields of a table that are not auxiliary are deleted one by one. *)
Fixpoint del_flds_loop (n : nat) (i tid : Z) : M unit :=
  match n with
  | O => mret tt
  | S n =>
      f ← rd_fld i;
      when ((tbl_id f =? tid) && (parent_id f <? 0)) (del_fld None tid None i true);;
      del_flds_loop n (i + 1) tid
  end.

(** The function after table [tid] is known. *)
Definition del_tbl_id (tid : Z) : M unit :=
  flds ← gets g_flds;
  user ← lift (find_loop (fun f => dict_tbl_id f =? tid) flds 0 (length flds));
  match user with
  | Some i => f ← rd_fld i; rd_tbl (tbl_id f);; go_BYE
  | None =>
      n ← gets g_n_fld;
      del_flds_loop (Z.to_nat n) 0 tid;;
      wr_tbl tid zero_tbl_rec
  end.

Definition del_tbl (tbl : option string) (in_tbl_id : Z) : M unit :=
  tid ← (if in_tbl_id <? 0 then
           fail_if (null_or_empty tbl);;
           '(tid, _) ← is_tbl tbl; mret tid
         else mret in_tbl_id);
  if tid <? 0 then mret tt else del_tbl_id tid.
Definition iter_del_tbl (tbl : string) : M unit :=
  iter_names (fun t => del_tbl (Some t) (-1)) tbl.

(** ** Tables *)

Definition add_tbl (usec : Z) (tbl str_nR : option string) : M Z :=
  fail_if (null_or_empty tbl);;
  nR ← match str_nR with
       | None | Some EmptyString => mret 0
       | Some s => let nR := (strtoll s).1 in fail_if (nR <? 0);; mret nR
       end;
  lift (chk_tbl_name tbl);;
  '(tid, _) ← is_tbl tbl;
  tid ← (if 0 <=? tid then del_tbl None tid;; mret tid else get_empty_tbl usec tbl);
  let tname := default ""%string tbl in
  strcpy_ok tname MAX_LEN_TBL_NAME;;
  upd_tbl tid (tbl_set_name tname);;
  upd_tbl tid (tbl_set_nR nR);;
  mret tid.

(** The status of [del_tbl] is overwritten by that of [chk_tbl_name]. *)
Definition rename_tbl (old_tbl new_tbl : option string) : M unit :=
  fail_if (null_or_empty new_tbl);;
  fail_if (null_or_empty old_tbl);;
  fail_if (bool_decide (new_tbl = old_tbl));;
  '(old_tbl_id, _) ← is_tbl old_tbl;
  chk_tbl_range old_tbl_id;;
  '(new_tbl_id, _) ← is_tbl new_tbl;
  when (0 <=? new_tbl_id) (ignore_status (del_tbl None new_tbl_id) tt);;
  lift (chk_tbl_name new_tbl);;
  upd_tbl old_tbl_id (tbl_set_name (default ""%string new_tbl)).

Definition set_nR (tbl str_nR : option string) : M unit :=
  fail_if (null_or_empty str_nR);;
  let nR := (strtoll (default ""%string str_nR)).1 in
  fail_if (nR <=? 0);;
  fail_if (null_or_empty tbl);;
  '(tid, _) ← is_tbl tbl;
  chk_tbl_range tid;;
  upd_tbl tid (tbl_set_nR nR).

(** ** Fields *)

(** The record that [add_fld] builds before it stores the count. *)
Definition new_fld_rec (tid : Z) (ft : FLD_TYPE) : FLD_REC_TYPE :=
  {| tbl_id := tid; ddir_id := INT_MIN; is_external := false; sort_type := unknown;
     parent_id := INT_MIN; nn_fld_id := INT_MIN; fldtype := ft; auxtype := undef;
     name := ""; filename := ""; dispname := ""; dict_tbl_id := INT_MIN;
     alias_of_fld_id := INT_MIN; cnt := LLONG_MIN |}.
Definition fld_set_file (ddir : Z) (file : string) (f : FLD_REC_TYPE) : FLD_REC_TYPE :=
  {| tbl_id := tbl_id f; ddir_id := ddir; is_external := is_external f;
     sort_type := sort_type f; parent_id := parent_id f; nn_fld_id := nn_fld_id f;
     fldtype := fldtype f; auxtype := auxtype f; name := name f; filename := file;
     dispname := dispname f; dict_tbl_id := dict_tbl_id f;
     alias_of_fld_id := alias_of_fld_id f; cnt := cnt f |}.

(** The record for field [fld]: that of the field, deleted, or a free one. *)
Definition make_room (usec tid : Z) (fld : option string) : M Z :=
  '(fid, _, _, _) ← is_fld None tid fld;
  if 0 <=? fid then del_fld None tid None fid true;; mret fid
  else get_empty_fld usec fld.

(** The stores into record [fid]. *)
Definition store_fld (fid tid : Z) (fname : string) (ddir : Z) (file : string)
    (ft : FLD_TYPE) (len : Z) : M unit :=
  wr_fld fid (new_fld_rec tid ft);;
  (if len <? 0 then upd_fld fid (fld_set_cnt (-1))
   else
     fail_if (negb (bool_decide (ft = clob)));;
     fail_if (len <? 2);;
     upd_fld fid (fld_set_cnt len));;
  fail_if (MAX_LEN_FILE_NAME <? strlen file);;
  upd_fld fid (fld_set_file ddir file);;
  fail_if (MAX_LEN_FLD_NAME <? strlen fname);;
  upd_fld fid (fld_set_name fname).

Definition add_fld (usec : Z) (tid : Z) (fld : option string) (ddir : Z) (file : string)
    (ft : FLD_TYPE) (len : Z) : M Z :=
  fail_if (tid <? 0);;
  fail_if (null_or_empty fld);;
  lift (chk_fld_name fld 0);;
  chdir_ddir ddir;;
  t ← rd_tbl tid;
  chk_file_size file (t_nR t) ft;;
  chdir_back;;
  fid ← make_room usec tid fld;
  store_fld fid tid (default ""%string fld) ddir file ft len;;
  mret fid.

(** [status = extract_S(...); if ( is_null ) { go_BYE(-1); }].  When the text
    is too long for the buffer the function returns -1 with [is_null] still
    true, so that both cases end the caller. *)
Definition extract_spec (fldspec : option string) (start_str : string) : M string :=
  r ← lift (extract_S fldspec start_str "]" 1024);
  match r with Some v => mret v | None => go_BYE end.

Definition ext_add_fld (usec : Z) (tbl fld fldspec : option string) : M unit :=
  '(tid, _) ← ignore_status (is_tbl tbl) (INT_MIN, zero_tbl_rec);
  chk_tbl_range tid;;
  '(fid, f, _, _) ← ignore_status (is_fld None tid fld) no_fld;
  when (0 <=? fid)
    (file ← extract_spec fldspec "filename=[";
     fail_if (strcmp_eq (filename f) file);;
     ignore_status (del_fld None tid None fid true) tt);;
  str_fldtype ← extract_spec fldspec "fldtype=[";
  ft ← lift (unstr_fldtype (Some str_fldtype));
  file ← extract_spec fldspec "filename=[";
  len ← match extract_S fldspec "len=[" "]" 1024 with
        | Ok (Some str_len) =>
            let '(v, rest) := strtoll str_len in
            let len := wrapS 32 v in
            fail_if (negb (strcmp_eq rest ""));;
            fail_if (len <? 2);; mret len
        | _ => mret (-1)
        end;
  add_fld usec tid fld (-1) file ft len;;
  mret tt.

Definition rename_fld (tbl old_fld new_fld : option string) : M unit :=
  fail_if (null_or_empty tbl);;
  fail_if (null_or_empty new_fld);;
  fail_if (null_or_empty old_fld);;
  fail_if (bool_decide (new_fld = old_fld));;
  '(tid, _) ← is_tbl tbl;
  chk_tbl_range tid;;
  '(old_id, _, nn_old_id, _) ← is_fld None tid old_fld;
  chk_fld_range old_id;;
  '(new_id, _, _, _) ← is_fld None tid new_fld;
  old ← rd_fld old_id;
  when (0 <=? parent_id old)
    (p ← rd_fld (parent_id old);
     if nn_fld_id p =? old_id then
       fail_if (negb (bool_decide (fldtype old = I1)) && negb (bool_decide (fldtype old = B)));;
       wr_fld (parent_id old) (fld_set_nn (-1) p);;
       upd_fld old_id (fun f => fld_set_links (-1) (nn_fld_id f) undef f)
     else go_BYE);;
  when (0 <=? new_id) (del_fld None tid None new_id true);;
  lift (chk_fld_name new_fld 0);;
  let nm := default ""%string new_fld in
  upd_fld old_id (fld_set_name nm);;
  when (0 <=? nn_old_id)
    (fail_if (MAX_LEN_FLD_NAME <? strlen nm + strlen "_nn_");;
     upd_fld nn_old_id (fld_set_name ("_nn_" +:+ nm)%string)).

(** ** Auxiliary fields *)

Definition del_aux_fld (primary_fld_id : Z) (aux : AUX_TYPE) : M unit :=
  chk_fld_range primary_fld_id;;
  match aux with
  | undef => go_BYE
  | nn =>
      p ← rd_fld primary_fld_id;
      let aux_id := nn_fld_id p in
      wr_fld primary_fld_id (fld_set_nn (-1) p);;
      when (0 <=? aux_id)
        (p ← rd_fld primary_fld_id;
         when (negb (is_external p)) (g ← rd_fld aux_id; unlink (filename g));;
         wr_fld aux_id zero_fld_rec)
  end.

(** The status of [del_aux_fld] is not kept. *)
Definition drop_nn_fld (tbl fld : option string) : M unit :=
  fail_if (null_or_empty tbl);;
  fail_if (null_or_empty fld);;
  '(tid, _) ← is_tbl tbl;
  chk_tbl_range tid;;
  '(fid, _, _, _) ← is_fld None tid fld;
  chk_fld_range fid;;
  ignore_status (del_aux_fld fid nn) tt.

(** The stores that make record [g] the nn field of field [fid]. *)
Definition fld_set_aux (tid fid ddir : Z) (aux_fld file : string) (g : FLD_REC_TYPE)
    : FLD_REC_TYPE :=
  {| tbl_id := tid; ddir_id := ddir; is_external := false; sort_type := sort_type g;
     parent_id := fid; nn_fld_id := nn_fld_id g; fldtype := I1; auxtype := nn;
     name := aux_fld; filename := file; dispname := dispname g;
     dict_tbl_id := dict_tbl_id g; alias_of_fld_id := alias_of_fld_id g; cnt := cnt g |}.

(** What follows the lookup of the field: the file must have a byte per row.
    The slot of an existing nn field is taken over when its id is positive. *)
Definition attach_aux (usec tid fid nn_id : Z) (aux : AUX_TYPE) (ddir : Z) (fname : string) : M Z :=
  t ← rd_tbl tid;
  X ← q_mmap ddir fname;
  fail_if (negb (t_nR t =? zlen X));;
  f ← rd_fld fid;
  aux_fld ← lift (mk_name_aux_fld (Some (name f)) aux);
  nn_id ← (if 0 <? nn_id then mret nn_id else get_empty_fld usec (Some aux_fld));
  wr_fld nn_id zero_fld_rec;;
  upd_fld fid (fld_set_nn nn_id);;
  strcpy_ok fname MAX_LEN_FILE_NAME;;
  upd_fld nn_id (fld_set_aux tid fid ddir aux_fld fname);;
  mret nn_id.

(** A value of [str_auxtype] that [unstr_auxtype] refuses leaves [auxtype]
    unset. *)
Definition add_aux_fld (usec : Z) (tbl : option string) (in_tbl_id : Z) (fld : option string)
    (in_fld_id : Z) (ddir : Z) (file str_auxtype : option string) : M Z :=
  fail_if (null_or_empty tbl && (in_tbl_id <? 0));;
  fail_if (null_or_empty fld && (in_fld_id <? 0));;
  fail_if (null_or_empty str_auxtype);;
  fail_if (null_or_empty file);;
  '(tid, fid, nn_id) ←
    (if (0 <=? in_tbl_id) && (0 <=? in_fld_id) then
       f ← rd_fld in_fld_id;
       when (0 <=? nn_fld_id f) (rd_fld (nn_fld_id f);; mret tt);;
       mret (in_tbl_id, in_fld_id, nn_fld_id f)
     else
       '(tid, _) ← is_tbl tbl;
       chk_tbl_range tid;;
       '(fid, _, nn_id, _) ← is_fld tbl (-1) fld;
       chk_fld_range fid;;
       mret (tid, fid, nn_id));
  aux ← match unstr_auxtype str_auxtype with Ok a => mret a | _ => stuck end;
  fail_if (negb (bool_decide (aux = nn)));;
  attach_aux usec tid fid nn_id aux ddir (default ""%string file).

Definition mk_nn_fld (usec : Z) (src_tbl src_fld dst_tbl dst_fld : option string) : M unit :=
  fail_if (null_or_empty src_tbl);;
  fail_if (null_or_empty src_fld);;
  fail_if (null_or_empty dst_tbl);;
  fail_if (null_or_empty dst_fld);;
  '(src_tid, _) ← is_tbl src_tbl;
  chk_tbl_range src_tid;;
  t1 ← rd_tbl src_tid;
  '(dst_tid, _) ← is_tbl dst_tbl;
  chk_tbl_range dst_tid;;
  t2 ← rd_tbl dst_tid;
  fail_if (negb (t_nR t1 =? t_nR t2));;
  '(src_id, src, _, _) ← is_fld None src_tid src_fld;
  chk_fld_range src_id;;
  fail_if (negb (bool_decide (fldtype src = I1)));;
  fail_if (0 <=? nn_fld_id src);;
  '(dst_id, _, nn_dst_id, _) ← is_fld None dst_tid dst_fld;
  chk_fld_range dst_id;;
  when (0 <=? nn_dst_id) (del_fld None dst_tid None nn_dst_id false);;
  add_aux_fld usec None dst_tid None dst_id (ddir_id src) (Some (filename src)) (Some "nn"%string);;
  wr_fld src_id zero_fld_rec.

Definition mv_fld (usec : Z) (src_tbl src_fld dst_tbl : option string) : M unit :=
  fail_if (null_or_empty src_tbl);;
  fail_if (null_or_empty src_fld);;
  fail_if (null_or_empty dst_tbl);;
  '(src_tid, _) ← is_tbl src_tbl;
  chk_tbl_range src_tid;;
  t1 ← rd_tbl src_tid;
  '(dst_tid, _) ← is_tbl dst_tbl;
  chk_tbl_range dst_tid;;
  t2 ← rd_tbl dst_tid;
  fail_if (negb (t_nR t1 =? t_nR t2));;
  '(src_id, src, nn_src_id, nn_src) ← is_fld None src_tid src_fld;
  chk_fld_range src_id;;
  dst_id ← add_fld usec dst_tid src_fld (ddir_id src) (filename src) (fldtype src) (-1);
  src_now ← rd_fld src_id;
  upd_fld dst_id (fld_set_sort (sort_type src_now));;
  when (0 <=? nn_src_id)
    (add_aux_fld usec None dst_tid None dst_id (ddir_id nn_src) (Some (filename nn_src))
       (Some "nn"%string);; mret tt);;
  wr_fld src_id zero_fld_rec;;
  when (0 <=? nn_src_id) (wr_fld nn_src_id zero_fld_rec).

(** ** Attributes *)

Definition set_sort_type (fid : Z) (value : string) : M unit :=
  if strcmp_eq value "unknown" then upd_fld fid (fld_set_sort unknown)
  else if strcmp_eq value "ascending" then upd_fld fid (fld_set_sort ascending)
  else if strcmp_eq value "descending" then upd_fld fid (fld_set_sort descending)
  else if strcmp_eq value "unsorted" then upd_fld fid (fld_set_sort unsorted)
  else go_BYE.

Definition set_disp_name (tid fid : Z) (value : string) : M unit :=
  if fid <? 0 then
    fail_if (MAX_LEN_TBL_DISP_NAME <? strlen value);;
    tbls ← gets g_tbls;
    fail_if (existsb (fun t => strcmp_eq (t_dispname t) value) tbls);;
    upd_tbl tid (tbl_set_dispname value)
  else
    fail_if (MAX_LEN_FLD_DISP_NAME <? strlen value);;
    flds ← gets g_flds;
    fail_if (existsb (fun f => (tbl_id f =? tid) && strcmp_eq (dispname f) value) flds);;
    upd_fld fid (fld_set_dispname value).

Definition int_set_meta (tid fid : Z) (attr value : option string) : M unit :=
  match attr, value with
  | Some attr, Some value =>
      fail_if (strcmp_eq value "");;
      if strcmp_eq attr "dict_tbl_id" then
        let '(v, rest) := strtoll value in
        let dict := wrapS 32 v in
        fail_if (negb (strcmp_eq rest ""));;
        f ← rd_fld fid;
        fail_if (negb (bool_decide (fldtype f = I1)) && negb (bool_decide (fldtype f = I2)) &&
                 negb (bool_decide (fldtype f = I4)));;
        n ← gets g_n_tbl;
        fail_if (n <? dict);;
        upd_fld fid (fld_set_dict dict)
      else if strcmp_eq attr "cnt" then
        let '(c, rest) := strtoll value in
        fail_if (negb (strcmp_eq rest ""));;
        f ← rd_fld fid;
        t ← rd_tbl (tbl_id f);
        fail_if (t_nR t <? c);;
        fail_if ((c <? 0) && negb (c =? -1));;
        upd_fld fid (fld_set_cnt c)
      else if strcmp_eq attr "fldtype" then
        ft ← lift (unstr_fldtype (Some value));
        f ← rd_fld fid;
        when (negb (bool_decide (fldtype f = ft))) (upd_fld fid (fld_set_fldtype ft))
      else if strcmp_eq attr "sort_type" then set_sort_type fid value
      else if strcmp_eq attr "is_dict_tbl" then
        fail_if (0 <=? fid);;
        if strcmp_eq value "true" then upd_tbl tid (tbl_set_is_dict_tbl true)
        else if strcmp_eq value "false" then upd_tbl tid (tbl_set_is_dict_tbl false)
        else go_BYE
      else if strcmp_eq attr "disp_name" then set_disp_name tid fid value
      else go_BYE
  | _, _ => go_BYE
  end.

Definition set_meta (tbl fld attr value : option string) : M unit :=
  '(tid, _) ← is_tbl tbl;
  chk_tbl_range tid;;
  fid ← (if null_or_empty fld then mret INT_MIN
         else '(fid, _, _, _) ← is_fld None tid fld; chk_fld_range fid;; mret fid);
  int_set_meta tid fid attr value.
