(* ===== verification/CatalogLogic.v ===== *)
(** * Reasoning about the catalog operations.

    A weakest precondition for the state transformers of Catalog.v, the
    well-formedness invariant [wf] of the catalog, and the specifications of
    the lookups, of the search for a free record and of the deletion of a
    field, on which the theorems about the verbs rest. *)

From stdpp Require Import prelude strings gmap.
From Stdlib Require Import ZArith Lia.
From S2P Require Import Prelude CString Types Hash Catalog Verbs.
Import HashString.

(** ** Weakest preconditions

    [wp m Q E s]: run in state [s], [m] does not get stuck; if it returns,
    [Q] holds of its result and final state; if it fails, [E] holds of the
    state it leaves. *)
Definition wp {A} (m : M A) (Q : A -> state -> Prop) (E : state -> Prop) (s : state) : Prop :=
  match m s with Ret a s' => Q a s' | Fail s' => E s' | Stuck => False end.

Section rules.
Context {A B : Type}.
Implicit Types (Q : A -> state -> Prop) (E : state -> Prop) (s : state).

Lemma wp_bind (m : M B) (f : B -> M A) Q E s :
  wp m (fun b => wp (f b) Q E) E s -> wp (m ≫= f) Q E s.
Proof. unfold wp, mbind, M_bind. by destruct (m s). Qed.

Lemma wp_ret (a : A) Q E s : Q a s -> wp (mret a) Q E s.
Proof. done. Qed.

Lemma wp_gets (f : state -> A) Q E s : Q (f s) s -> wp (gets f) Q E s.
Proof. done. Qed.

Lemma wp_go_BYE Q E s : E s -> wp go_BYE Q E s.
Proof. done. Qed.

Lemma wp_lift_Ok (m : res A) a Q E s : m = Ok a -> Q a s -> wp (lift m) Q E s.
Proof. intros ->. done. Qed.

Lemma wp_lift_Err (m : res A) Q E s : m = Err -> E s -> wp (lift m) Q E s.
Proof. intros ->. done. Qed.

Lemma wp_ignore (m : M A) d Q E s :
  wp m Q (Q d) s -> wp (ignore_status m d) Q E s.
Proof. unfold wp, ignore_status. by destruct (m s). Qed.

Lemma wp_mono (m : M A) Q Q' E E' s :
  wp m Q E s -> (forall a s', Q a s' -> Q' a s') -> (forall s', E s' -> E' s') -> wp m Q' E' s.
Proof. unfold wp. destruct (m s); auto. Qed.
End rules.

Section unit_rules.
Implicit Types (Q : unit -> state -> Prop) (E : state -> Prop) (s : state).

Lemma wp_fail_if c Q E s :
  (c = true -> E s) -> (c = false -> Q tt s) -> wp (fail_if c) Q E s.
Proof. intros H1 H2. destruct c; [by apply H1|by apply H2]. Qed.

Lemma wp_stuck_if c Q E s : c = false -> Q tt s -> wp (stuck_if c) Q E s.
Proof. by intros ->. Qed.

Lemma wp_when c (m : M unit) Q E s :
  (c = true -> wp m Q E s) -> (c = false -> Q tt s) -> wp (when c m) Q E s.
Proof. intros H1 H2. destruct c; [by apply H1|by apply H2]. Qed.

Lemma wp_rd_tbl i t (Q : TBL_REC_TYPE -> state -> Prop) E s :
  g_tbls s !z i = Some t -> Q t s -> wp (rd_tbl i) Q E s.
Proof. intros Ht. unfold wp, rd_tbl, rd. by rewrite Ht. Qed.

Lemma wp_rd_fld i f (Q : FLD_REC_TYPE -> state -> Prop) E s :
  g_flds s !z i = Some f -> Q f s -> wp (rd_fld i) Q E s.
Proof. intros Hf. unfold wp, rd_fld, rd. by rewrite Hf. Qed.

Lemma wp_wr_tbl i t Q E s :
  0 <= i < g_n_tbl s -> Q tt (set_tbls (fun l => zset l i t) s) -> wp (wr_tbl i t) Q E s.
Proof. intros Hi. unfold wp, wr_tbl. by rewrite wr_Ok. Qed.

Lemma wp_wr_fld i f Q E s :
  0 <= i < g_n_fld s -> Q tt (set_flds (fun l => zset l i f) s) -> wp (wr_fld i f) Q E s.
Proof. intros Hi. unfold wp, wr_fld. by rewrite wr_Ok. Qed.

Lemma wp_upd_tbl i t F Q E s :
  g_tbls s !z i = Some t -> Q tt (set_tbls (fun l => zset l i (F t)) s) ->
  wp (upd_tbl i F) Q E s.
Proof.
  intros Ht HQ. apply wp_bind, (wp_rd_tbl _ t); [done|].
  apply wp_wr_tbl; [|done]. by apply zlookup_Some_range in Ht.
Qed.

Lemma wp_upd_fld i f F Q E s :
  g_flds s !z i = Some f -> Q tt (set_flds (fun l => zset l i (F f)) s) ->
  wp (upd_fld i F) Q E s.
Proof.
  intros Hf HQ. apply wp_bind, (wp_rd_fld _ f); [done|].
  apply wp_wr_fld; [|done]. by apply zlookup_Some_range in Hf.
Qed.

Lemma wp_chk_tbl_range i Q E s :
  (~ 0 <= i < g_n_tbl s -> E s) -> (0 <= i < g_n_tbl s -> Q tt s) ->
  wp (chk_tbl_range i) Q E s.
Proof.
  intros HE HQ. apply wp_bind, wp_gets. unfold chk_range.
  apply wp_fail_if; intros Hc; [apply HE|apply HQ]; lia.
Qed.

Lemma wp_chk_fld_range i Q E s :
  (~ 0 <= i < g_n_fld s -> E s) -> (0 <= i < g_n_fld s -> Q tt s) ->
  wp (chk_fld_range i) Q E s.
Proof.
  intros HE HQ. apply wp_bind, wp_gets. unfold chk_range.
  apply wp_fail_if; intros Hc; [apply HE|apply HQ]; lia.
Qed.
End unit_rules.

(** One step of symbolic execution. *)
Ltac wp_step :=
  lazymatch goal with
  | |- wp (_ ≫= _) _ _ _ => apply wp_bind
  | |- wp (mret _) _ _ _ => apply wp_ret
  | |- wp (gets _) _ _ _ => apply wp_gets
  | |- wp go_BYE _ _ _ => apply wp_go_BYE
  | |- wp (fail_if _) _ _ _ => apply wp_fail_if; intros ?
  | |- wp (when _ _) _ _ _ => apply wp_when; intros ?
  | |- wp (chk_tbl_range _) _ _ _ => apply wp_chk_tbl_range; intros ?
  | |- wp (chk_fld_range _) _ _ _ => apply wp_chk_fld_range; intros ?
  | |- wp (ignore_status _ _) _ _ _ => apply wp_ignore
  end; cbn beta iota.

(** ** What only files and the working directory feel *)

(** [s'] has the same catalog as [s]; files may only have disappeared. *)
Record files_only (s s' : state) : Prop := {
  fo_tbls : g_tbls s' = g_tbls s;
  fo_flds : g_flds s' = g_flds s;
  fo_ddirs : g_ddirs s' = g_ddirs s;
  fo_ht_tbl : g_ht_tbl s' = g_ht_tbl s;
  fo_ht_fld : g_ht_fld s' = g_ht_fld s;
  fo_data_dir : g_data_dir s' = g_data_dir s;
  fo_cwd : g_cwd s' = g_cwd s;
  fo_dirs : dirs s' = dirs s;
  fo_fs : fs s' ⊆ fs s
}.

#[export] Instance files_only_preorder : PreOrder files_only.
Proof.
  split; [by split|]. intros s1 s2 s3 [] []. split; try congruence. by etrans.
Qed.

Lemma files_only_cwd s d : files_only s (set_cwd d s).
Proof. by split. Qed.

Definition ddir_ok (s : state) (id : Z) : Prop :=
  0 <= id -> exists d, g_ddirs s !z id = Some d /\ d <> ""%string.

Lemma chdir_wp d (Q : unit -> state -> Prop) E s :
  (forall s', files_only s s' -> fs s' = fs s -> Q tt s') -> wp (chdir d) Q E s.
Proof.
  intros HQ. unfold wp, chdir. destruct d as [d|]; [|by apply HQ].
  case_decide; apply HQ; done || apply files_only_cwd.
Qed.

Lemma chdir_ddir_wp id (Q : unit -> state -> Prop) E s :
  (0 <= id -> exists d, g_ddirs s !z id = Some d) ->
  (~ ddir_ok s id -> E s) ->
  (forall s', ddir_ok s id -> files_only s s' -> fs s' = fs s -> Q tt s') ->
  wp (chdir_ddir id) Q E s.
Proof.
  intros Hid HE HQ. unfold chdir_ddir. destruct (Z.ltb_spec id 0) as [|Hge].
  - repeat wp_step. apply chdir_wp. intros s' ?. apply HQ; [|done]. intros ?. lia.
  - apply wp_bind. destruct (Hid Hge) as (d & Hd). unfold wp at 1, rd_ddir, rd. rewrite Hd. simpl.
    apply wp_bind, wp_fail_if; intros E0.
    + apply HE. intros (d' & Hd' & Hne); [done|]. simplify_eq. by apply strcmp_eq_spec in E0.
    + apply chdir_wp. intros s' ?. apply HQ; [|done]. intros _. exists d. split; [done|].
      intros ->. done.
Qed.

Lemma unlink_fld_wp f (Q : unit -> state -> Prop) E s :
  ddir_ok s (ddir_id f) ->
  (forall s', files_only s s' -> Q tt s') -> wp (unlink_fld f) Q E s.
Proof.
  intros Hd HQ. unfold unlink_fld. apply wp_bind, chdir_ddir_wp; [|done|].
  { intros Hge. destruct (Hd Hge) as (d & ? & _). by exists d. }
  intros s1 _ H1 _. apply wp_bind. unfold wp, unlink, modify.
  apply wp_bind, wp_gets, chdir_wp. intros s2 H2 _. apply HQ. rewrite H1, <- H2.
  split; try done. simpl. apply delete_subseteq.
Qed.

(** ** Scans *)

Lemma find_loop_ok {A} (p : A -> bool) l i n :
  0 <= i -> i + Z.of_nat n <= zlen l ->
  exists r, find_loop p l i n = Ok r /\
    match r with
    | Some k => i <= k < i + Z.of_nat n /\ exists x, l !z k = Some x /\ p x = true
    | None => forall k x, i <= k < i + Z.of_nat n -> l !z k = Some x -> p x = false
    end.
Proof.
  revert i. induction n as [|n IH]; intros i Hi Hn; simpl.
  { exists None. split; [done|]. intros; lia. }
  destruct (zlookup_is_Some l i) as (x & Hx); [lia|].
  rewrite (proj2 (rd_Ok l i x) Hx). simpl. destruct (p x) eqn:Ep.
  { exists (Some i). split; [done|]. split; [lia|eauto]. }
  destruct (IH (i + 1)) as (r & -> & Hr); [lia..|]. exists r. split; [done|].
  destruct r as [k|]; [destruct Hr; split; [lia|done]|].
  intros k y Hk Hy. destruct (decide (k = i)) as [->|]; [congruence|]. apply (Hr k); auto. lia.
Qed.

Lemma find_from_ok {A} (p : A -> bool) l start :
  0 <= start <= zlen l ->
  exists r, find_from p l start = Ok r /\
    match r with
    | Some k => exists x, l !z k = Some x /\ p x = true
    | None => forall k x, l !z k = Some x -> p x = false
    end.
Proof.
  intros Hs. unfold find_from.
  destruct (find_loop_ok p l start (Z.to_nat (zlen l - start))) as (r & -> & Hr); [lia..|].
  simpl. destruct r as [k|]; [exists (Some k); split; [done|apply Hr]|].
  destruct (find_loop_ok p l 0 (Z.to_nat start)) as (r & -> & Hr2); [lia..|].
  exists r. split; [done|]. destruct r as [k|]; [apply Hr2|].
  intros k x Hx. pose proof (zlookup_Some_range _ _ _ Hx).
  destruct (decide (start <= k)); [apply (Hr k)|apply (Hr2 k)]; auto; lia.
Qed.

(** A hash index that can be searched from: not empty, and no start beyond
    the [n] records of the table it serves. *)
Definition ht_ok (ht : list META_KEY_VAL_TYPE) (n : Z) : Prop :=
  0 < zlen ht /\ Forall (fun kv => kv_val kv <= n) ht.

Lemma start_loc_ok ht n nm :
  0 <= n -> ht_ok ht n -> exists k, start_loc ht (Some nm) = Ok k /\ 0 <= k <= n.
Proof.
  intros Hn [Hpos Hall]. unfold start_loc.
  destruct (hash_string_UI4_total nm) as (h & -> & Hh). simpl.
  destruct (Z.eqb_spec (zlen ht) 0); [lia|]. simpl.
  destruct (zlookup_is_Some ht (h mod zlen ht)) as (kv & Hkv).
  { apply Z.mod_pos_bound. lia. }
  rewrite (proj2 (rd_Ok _ _ _) Hkv). simpl. eexists; split; [done|].
  pose proof (zlookup_Some_range _ _ _ Hkv). rewrite zlookup_to_nat in Hkv by lia.
  rewrite Forall_lookup in Hall. specialize (Hall _ _ Hkv). lia.
Qed.

(** ** Well-formed catalogs *)

Definition used (f : FLD_REC_TYPE) : Prop := name f <> ""%string.

(** [g] is the nn field of the field [f] in slot [i]. *)
Record nn_of (i : Z) (f g : FLD_REC_TYPE) : Prop := {
  nn_used : used g;
  nn_aux : auxtype g = nn;
  nn_parent : parent_id g = i;
  nn_tbl : tbl_id g = tbl_id f
}.

(** A primary field points to its nn field, if it has one; an auxiliary field
    points to the primary field that points back to it. *)
Definition links_ok (flds : list FLD_REC_TYPE) (i : Z) (f : FLD_REC_TYPE) : Prop :=
  match auxtype f with
  | undef =>
      parent_id f < 0 /\
      (0 <= nn_fld_id f -> exists g, flds !z (nn_fld_id f) = Some g /\ nn_of i f g)
  | nn =>
      nn_fld_id f < 0 /\ 0 <= parent_id f /\
      exists p, flds !z (parent_id f) = Some p /\ used p /\ auxtype p = undef /\ nn_fld_id p = i
  end.

Definition tbl_exists (tbls : list TBL_REC_TYPE) (i : Z) : Prop :=
  exists t, tbls !z i = Some t /\ t_name t <> ""%string.

(** A free slot may keep values from a field that could not be completed, but
    no links. *)
Record fld_ok (s : state) (i : Z) (f : FLD_REC_TYPE) : Prop := {
  fk_alias : alias_of_fld_id f < 0;
  fk_ddir : ddir_ok s (ddir_id f);
  fk_free : ~ used f ->
    nn_fld_id f < 0 /\ parent_id f < 0 /\ auxtype f = undef /\ dict_tbl_id f < 0;
  fk_name : used f -> chk_fld_name (Some (name f)) 0 = Ok tt;
  fk_tbl : used f -> tbl_exists (g_tbls s) (tbl_id f);
  fk_links : used f -> links_ok (g_flds s) i f
}.

Record wf (s : state) : Prop := {
  wf_ht_tbl : ht_ok (g_ht_tbl s) (g_n_tbl s);
  wf_ht_fld : ht_ok (g_ht_fld s) (g_n_fld s);
  wf_n_tbl : 0 < g_n_tbl s;
  wf_n_fld : 0 < g_n_fld s;
  wf_tbl_name i t : g_tbls s !z i = Some t -> t_name t <> ""%string ->
    chk_tbl_name (Some (t_name t)) = Ok tt;
  wf_tbl_nR i t : g_tbls s !z i = Some t -> 0 <= t_nR t;
  wf_tbl_unique i j t u : g_tbls s !z i = Some t -> g_tbls s !z j = Some u ->
    t_name t = t_name u -> t_name t <> ""%string -> i = j;
  wf_fld i f : g_flds s !z i = Some f -> fld_ok s i f;
  wf_fld_unique i j f g : g_flds s !z i = Some f -> g_flds s !z j = Some g ->
    tbl_id f = tbl_id g -> name f = name g -> used f -> i = j
}.

Lemma files_only_wf s s' : files_only s s' -> wf s -> wf s'.
Proof.
  intros [] []. unfold g_n_tbl, g_n_fld in *.
  split; unfold g_n_tbl, g_n_fld; rewrite ?fo_tbls0, ?fo_flds0, ?fo_ht_tbl0, ?fo_ht_fld0; auto.
  intros i f Hf. destruct (wf_fld0 i f Hf) as [? Hdd ? ? ? ?].
  split; unfold ddir_ok in *; rewrite ?fo_tbls0, ?fo_flds0, ?fo_ddirs0; auto.
Qed.

(** ** Checking that a catalog is well-formed *)

Definition all_slots {A} (p : Z -> A -> bool) (l : list A) : bool :=
  forallb (fun k => match l !! k with Some x => p (Z.of_nat k) x | None => true end)
    (seq 0 (length l)).

Lemma all_slots_ok {A} (p : Z -> A -> bool) l i x :
  all_slots p l = true -> l !z i = Some x -> p i x = true.
Proof.
  intros Hall Hx. pose proof (zlookup_Some_range _ _ _ Hx) as Hi.
  unfold all_slots in Hall. rewrite forallb_forall in Hall.
  specialize (Hall (Z.to_nat i)). rewrite zlookup_to_nat in Hx by lia. rewrite Hx in Hall.
  rewrite Z2Nat.id in Hall by lia. apply Hall, in_seq. unfold zlen in Hi. lia.
Qed.

Definition is_Ok (r : res unit) : bool := match r with Ok _ => true | _ => false end.
Lemma is_Ok_spec r : is_Ok r = true -> r = Ok tt.
Proof. by destruct r as [[]| | |]. Qed.

Definition usedb (f : FLD_REC_TYPE) : bool := negb (strcmp_eq (name f) "").
Lemma usedb_spec f : usedb f = true <-> used f.
Proof.
  unfold usedb, used. rewrite negb_true_iff. split.
  - intros H E. by rewrite (proj2 (strcmp_eq_spec _ _) E) in H.
  - intros H. destruct (strcmp_eq _ _) eqn:E; [|done]. by apply strcmp_eq_spec in E.
Qed.

Definition ht_okb (ht : list META_KEY_VAL_TYPE) (n : Z) : bool :=
  (0 <? zlen ht) && forallb (fun kv => kv_val kv <=? n) ht.
Definition nn_ofb (i : Z) (f g : FLD_REC_TYPE) : bool :=
  usedb g && bool_decide (auxtype g = nn) && (parent_id g =? i) && (tbl_id g =? tbl_id f).
Definition links_okb (flds : list FLD_REC_TYPE) (i : Z) (f : FLD_REC_TYPE) : bool :=
  match auxtype f with
  | undef =>
      (parent_id f <? 0) &&
      ((nn_fld_id f <? 0) ||
       match flds !z (nn_fld_id f) with Some g => nn_ofb i f g | None => false end)
  | nn =>
      (nn_fld_id f <? 0) && (0 <=? parent_id f) &&
      match flds !z (parent_id f) with
      | Some p => usedb p && bool_decide (auxtype p = undef) && (nn_fld_id p =? i)
      | None => false
      end
  end.
Definition ddir_okb (s : state) (id : Z) : bool :=
  (id <? 0) || match g_ddirs s !z id with Some d => negb (strcmp_eq d "") | None => false end.
Definition fld_okb (s : state) (i : Z) (f : FLD_REC_TYPE) : bool :=
  (alias_of_fld_id f <? 0) && ddir_okb s (ddir_id f) &&
  if usedb f then
    is_Ok (chk_fld_name (Some (name f)) 0) && links_okb (g_flds s) i f &&
    match g_tbls s !z (tbl_id f) with Some t => negb (strcmp_eq (t_name t) "") | None => false end
  else
    (nn_fld_id f <? 0) && (parent_id f <? 0) && bool_decide (auxtype f = undef) &&
    (dict_tbl_id f <? 0).

Definition wfb (s : state) : bool :=
  ht_okb (g_ht_tbl s) (g_n_tbl s) && ht_okb (g_ht_fld s) (g_n_fld s) &&
  (0 <? g_n_tbl s) && (0 <? g_n_fld s) &&
  all_slots (fun i t =>
    (0 <=? t_nR t) &&
    (strcmp_eq (t_name t) "" ||
     is_Ok (chk_tbl_name (Some (t_name t))) &&
     all_slots (fun j u => (i =? j) || negb (strcmp_eq (t_name t) (t_name u))) (g_tbls s)))
    (g_tbls s) &&
  all_slots (fun i f =>
    fld_okb s i f &&
    (negb (usedb f) ||
     all_slots (fun j g => (i =? j) || negb ((tbl_id f =? tbl_id g) && strcmp_eq (name f) (name g)))
       (g_flds s)))
    (g_flds s).

Lemma strcmp_eq_false a b : strcmp_eq a b = false -> a <> b.
Proof. intros H E. by rewrite (proj2 (strcmp_eq_spec _ _) E) in H. Qed.

Lemma ht_okb_ok ht n : ht_okb ht n = true -> ht_ok ht n.
Proof.
  intros [H1%Z.ltb_lt H2]%andb_true_iff. split; [done|]. rewrite forallb_forall in H2.
  apply Forall_forall. intros kv Hkv. apply Z.leb_le, H2. by apply list_elem_of_In.
Qed.

Lemma ddir_okb_ok s id : ddir_okb s id = true -> ddir_ok s id.
Proof.
  intros [H%Z.ltb_lt|H]%orb_true_iff Hid; [lia|]. destruct (g_ddirs s !z id) as [d|]; [|done].
  exists d. split; [done|]. by apply strcmp_eq_false, negb_true_iff.
Qed.

Lemma nn_ofb_ok i f g : nn_ofb i f g = true -> nn_of i f g.
Proof.
  unfold nn_ofb. rewrite !andb_true_iff. intros [[[H1 H2] H3] H4]. split.
  - by apply usedb_spec.
  - by apply bool_decide_eq_true in H2.
  - by apply Z.eqb_eq.
  - by apply Z.eqb_eq.
Qed.

Lemma links_okb_ok flds i f : links_okb flds i f = true -> links_ok flds i f.
Proof.
  unfold links_okb, links_ok. destruct (auxtype f).
  - intros [H1%Z.ltb_lt H2]%andb_true_iff. split; [done|]. intros Hge.
    apply orb_true_iff in H2 as [H2%Z.ltb_lt|H2]; [lia|].
    destruct (flds !z _) as [g|]; [|done]. exists g. split; [done|]. by apply nn_ofb_ok.
  - rewrite !andb_true_iff. intros [[H1 H2] H3]. split_and!; [lia..|].
    destruct (flds !z _) as [p|]; [|done]. rewrite !andb_true_iff in H3.
    destruct H3 as [[H3 H4] H5]. exists p. split; [done|]. split_and!; [by apply usedb_spec| |lia].
    by apply bool_decide_eq_true in H4.
Qed.

Lemma fld_okb_ok s i f : fld_okb s i f = true -> fld_ok s i f.
Proof.
  unfold fld_okb. rewrite !andb_true_iff. intros [[H1 H2%ddir_okb_ok] H3].
  destruct (usedb f) eqn:Eu.
  - apply usedb_spec in Eu. rewrite !andb_true_iff in H3. destruct H3 as [[H3 H4] H5].
    split; auto; [lia|by intros []|intros _; by apply is_Ok_spec| |intros _; by apply links_okb_ok].
    intros _. destruct (g_tbls s !z _) as [t|] eqn:Et; [|done]. exists t. split; [done|].
    by apply strcmp_eq_false, negb_true_iff.
  - assert (~ used f) as Hu by (rewrite <- usedb_spec; congruence).
    rewrite !andb_true_iff in H3. destruct H3 as [[[H3 H4] H5] H6].
    apply bool_decide_eq_true in H5. split; auto; try lia; try done. intros _. split_and!; lia || done.
Qed.

Lemma wfb_ok s : wfb s = true -> wf s.
Proof.
  unfold wfb. rewrite !andb_true_iff. intros [[[[[H1 H2] H3] H4] H5] H6].
  pose proof (fun i t => all_slots_ok _ _ i t H5) as Ht. clear H5. simpl in Ht.
  pose proof (fun i f => all_slots_ok _ _ i f H6) as Hf. clear H6. simpl in Hf.
  split.
  - by apply ht_okb_ok.
  - by apply ht_okb_ok.
  - lia.
  - lia.
  - intros i t Hi Hne. specialize (Ht i t Hi). apply andb_true_iff in Ht as [_ Ht].
    apply orb_true_iff in Ht as [Ht|Ht]; [by apply strcmp_eq_spec in Ht|].
    apply andb_true_iff in Ht as [Ht _]. by apply is_Ok_spec.
  - intros i t Hi. specialize (Ht i t Hi). apply andb_true_iff in Ht as [Ht _]. lia.
  - intros i j t u Hi Hj He Hne. specialize (Ht i t Hi). apply andb_true_iff in Ht as [_ Ht].
    apply orb_true_iff in Ht as [Ht|Ht]; [by apply strcmp_eq_spec in Ht|].
    apply andb_true_iff in Ht as [_ Ht]. apply (all_slots_ok _ _ j u) in Ht; [|done].
    apply orb_true_iff in Ht as [Ht|Ht]; [lia|]. apply negb_true_iff, strcmp_eq_false in Ht. done.
  - intros i f Hi. specialize (Hf i f Hi). apply andb_true_iff in Hf as [Hf _].
    by apply fld_okb_ok.
  - intros i j f g Hi Hj Hid Hn Hu. specialize (Hf i f Hi). apply andb_true_iff in Hf as [_ Hf].
    apply orb_true_iff in Hf as [Hf|Hf].
    { apply negb_true_iff in Hf. apply usedb_spec in Hu. congruence. }
    apply (all_slots_ok _ _ j g) in Hf; [|done]. apply orb_true_iff in Hf as [Hf|Hf]; [lia|].
    apply negb_true_iff, andb_false_iff in Hf as [Hf|Hf]; [lia|]. by apply strcmp_eq_false in Hf.
Qed.

(** ** Lookups *)

Section lookups.
Context (s : state) (Hwf : wf s).

Lemma is_tbl_wp n (Q : Z * TBL_REC_TYPE -> state -> Prop) E :
  (forall i t, g_tbls s !z i = Some t -> t_name t = n -> Q (i, t) s) ->
  ((forall i t, g_tbls s !z i = Some t -> t_name t <> n) -> Q (INT_MIN, zero_tbl_rec) s) ->
  wp (is_tbl (Some n)) Q E s.
Proof.
  intros H1 H2. unfold is_tbl. repeat wp_step.
  destruct (start_loc_ok (g_ht_tbl s) (g_n_tbl s) n) as (k & Hk & Hr);
    [apply zlen_nonneg|by destruct Hwf|].
  apply (wp_lift_Ok _ k); [done|]. repeat wp_step. simpl.
  destruct (find_from_ok (fun t => strcmp_eq (t_name t) n) (g_tbls s) k) as (r & Hf & Hfr); [done|].
  apply (wp_lift_Ok _ r); [done|]. destruct r as [i|].
  - destruct Hfr as (t & Ht & He). wp_step. apply (wp_rd_tbl _ t); [done|]. wp_step.
    apply H1; [done|]. by apply strcmp_eq_spec.
  - wp_step. apply H2. intros i t Ht He. specialize (Hfr i t Ht). simpl in Hfr.
    by rewrite (proj2 (strcmp_eq_spec _ _) He) in Hfr.
Qed.

Lemma nn_in_range i f :
  g_flds s !z i = Some f -> 0 <= nn_fld_id f -> exists g, g_flds s !z (nn_fld_id f) = Some g.
Proof.
  intros Hf Hnn. destruct (wf_fld s Hwf i f Hf) as [_ _ Hfree _ _ Hl].
  destruct (decide (name f = ""%string)) as [E|Hu]; [destruct Hfree; [by intros []|lia]|].
  specialize (Hl Hu). unfold links_ok in Hl. destruct (auxtype f).
  - destruct Hl as [_ (g & ? & _)]; [done|]. by exists g.
  - destruct Hl. lia.
Qed.

Lemma is_fld_wp tid n tbl (Q : Z * FLD_REC_TYPE * Z * FLD_REC_TYPE -> state -> Prop) E :
  0 <= tid ->
  (forall i f g, g_flds s !z i = Some f -> tbl_id f = tid -> name f = n ->
     (0 <= nn_fld_id f -> g_flds s !z (nn_fld_id f) = Some g) ->
     Q (i, f, nn_fld_id f, g) s) ->
  ((forall i f, g_flds s !z i = Some f -> tbl_id f = tid -> name f <> n) -> Q no_fld s) ->
  wp (is_fld tbl tid (Some n)) Q E s.
Proof.
  intros Htid H1 H2. unfold is_fld. rewrite (proj2 (Z.ltb_ge _ _) Htid). repeat wp_step.
  rewrite (proj2 (Z.ltb_ge _ _) Htid). repeat wp_step.
  destruct (start_loc_ok (g_ht_fld s) (g_n_fld s) n) as (k & Hk & Hr);
    [apply zlen_nonneg|by destruct Hwf|].
  apply (wp_lift_Ok _ k); [done|]. repeat wp_step. simpl.
  destruct (find_from_ok (fun f => (tbl_id f =? tid) && strcmp_eq (name f) n) (g_flds s) k)
    as (r & Hf & Hfr); [done|].
  apply (wp_lift_Ok _ r); [done|]. destruct r as [i|].
  - destruct Hfr as (f & Ef & [Ht He]%andb_true_iff). apply strcmp_eq_spec in He.
    wp_step. apply (wp_rd_fld _ f); [done|]. wp_step.
    destruct (Z.leb_spec 0 (nn_fld_id f)) as [Hnn|Hnn].
    + destruct (nn_in_range i f Ef Hnn) as (g & Hg). apply (wp_rd_fld _ g); [done|]. wp_step.
      apply H1; auto. lia.
    + repeat wp_step. apply H1; auto; lia.
  - wp_step. apply H2. intros i f Ef Ht He. specialize (Hfr i f Ef). simpl in Hfr.
    rewrite (proj2 (strcmp_eq_spec _ _) He), (proj2 (Z.eqb_eq _ _) Ht) in Hfr. done.
Qed.

Lemma empty_start_ok n usec nm :
  0 < n -> exists k, empty_start n usec nm = Ok k /\ 0 <= k <= n.
Proof.
  intros Hn. unfold empty_start. destruct (Z.eqb_spec n 0); [lia|]. simpl.
  assert (forall h, 0 <= h mod n <= n) as Hm
    by (intros h; pose proof (Z.mod_pos_bound h n Hn); lia).
  destruct (null_or_empty nm) eqn:En; [eauto|]. destruct nm as [nm|]; [|done].
  destruct (hash_string_UI4_total nm) as (h & -> & _). simpl. eauto.
Qed.

(** A free record is found if there is one. *)
Lemma get_empty_tbl_wp usec tbl (Q : Z -> state -> Prop) (E : state -> Prop) :
  (forall i t, g_tbls s !z i = Some t -> t_name t = ""%string -> Q i s) ->
  ((forall i t, g_tbls s !z i = Some t -> t_name t <> ""%string) -> E s) ->
  wp (get_empty_tbl usec tbl) Q E s.
Proof.
  intros H1 H2. unfold get_empty_tbl. repeat wp_step.
  destruct (empty_start_ok (g_n_tbl s) usec tbl) as (k & Hk & Hr); [by destruct Hwf|].
  apply (wp_lift_Ok _ k); [done|]. wp_step.
  destruct (find_from_ok (fun t => strcmp_eq (t_name t) "") (g_tbls s) k) as (r & Hf & Hfr); [done|].
  apply (wp_lift_Ok _ r); [done|]. destruct r as [i|]; wp_step.
  - destruct Hfr as (t & Ht & He). apply (H1 i t Ht). by apply strcmp_eq_spec.
  - apply H2. intros i t Ht He. specialize (Hfr i t Ht). simpl in Hfr.
    by rewrite (proj2 (strcmp_eq_spec _ _) He) in Hfr.
Qed.

Lemma get_empty_fld_wp usec fld (Q : Z -> state -> Prop) (E : state -> Prop) :
  (forall i f, g_flds s !z i = Some f -> ~ used f -> Q i s) ->
  ((forall i f, g_flds s !z i = Some f -> used f) -> E s) ->
  wp (get_empty_fld usec fld) Q E s.
Proof.
  intros H1 H2. unfold get_empty_fld. repeat wp_step.
  destruct (empty_start_ok (g_n_fld s) usec fld) as (k & Hk & Hr); [by destruct Hwf|].
  apply (wp_lift_Ok _ k); [done|]. wp_step.
  destruct (find_from_ok (fun f => strcmp_eq (name f) "") (g_flds s) k) as (r & Hf & Hfr); [done|].
  apply (wp_lift_Ok _ r); [done|]. destruct r as [i|]; wp_step.
  - destruct Hfr as (f & Ef & He). apply (H1 i f Ef). intros Hu. by apply strcmp_eq_spec in He.
  - apply H2. intros i f Ef He. specialize (Hfr i f Ef). simpl in Hfr.
    by rewrite (proj2 (strcmp_eq_spec _ _) He) in Hfr.
Qed.
End lookups.

(** ** Deleting a field *)

Definition del_slots (l : list FLD_REC_TYPE) (i nnid : Z) : list FLD_REC_TYPE :=
  let l := zset l i zero_fld_rec in
  if 0 <=? nnid then zset l nnid zero_fld_rec else l.

Lemma zlen_del_slots l i nnid : zlen (del_slots l i nnid) = zlen l.
Proof. unfold del_slots. case_match; by rewrite !zlen_zset. Qed.

Lemma lookup_del_slots l i nnid j :
  0 <= i < zlen l -> nnid < zlen l ->
  del_slots l i nnid !z j =
    if decide (j = i \/ (0 <= nnid /\ j = nnid)) then Some zero_fld_rec else l !z j.
Proof.
  intros Hi Hnn. unfold del_slots. destruct (Z.leb_spec 0 nnid).
  - rewrite zlookup_zset by (rewrite zlen_zset; lia). rewrite zlookup_zset by lia.
    repeat case_decide; try done; lia.
  - rewrite zlookup_zset by lia. repeat case_decide; try done; lia.
Qed.

(** [s'] is [s] with the fields [l], up to files. *)
Definition with_flds (s : state) (l : list FLD_REC_TYPE) (s' : state) : Prop :=
  files_only (set_flds (fun _ => l) s) s'.

Lemma alias_loop_wp n i f (Q : unit -> state -> Prop) E s :
  g_flds s !z i = Some f -> alias_of_fld_id f < 0 -> Q tt s -> wp (alias_loop n i) Q E s.
Proof.
  intros Hf Ha HQ. pose proof (zlookup_Some_range _ _ _ Hf).
  induction n as [|n IH]; [done|]. simpl. wp_step. apply (wp_rd_fld _ f); [done|].
  wp_step. wp_step; [lia|done].
Qed.

Lemma unlink_when_wp c f (Q : unit -> state -> Prop) E s :
  ddir_ok s (ddir_id f) -> (forall s', files_only s s' -> Q tt s') ->
  wp (when c (unlink_fld f)) Q E s.
Proof. intros Hd HQ. wp_step; [by apply unlink_fld_wp|by apply HQ]. Qed.

Lemma del_fld_id_wp s i ext f (Q : unit -> state -> Prop) (E : state -> Prop) :
  wf s -> g_flds s !z i = Some f -> ext = false \/ auxtype f = undef ->
  (forall s', with_flds s (del_slots (g_flds s) i (nn_fld_id f)) s' -> Q tt s') ->
  wp (del_fld_id i (nn_fld_id f) ext) Q E s.
Proof.
  intros Hwf Hf Hext HQ. pose proof (zlookup_Some_range _ _ _ Hf) as Hi.
  pose proof (wf_fld s Hwf i f Hf) as Hok.
  assert (0 <= nn_fld_id f -> exists g, g_flds s !z (nn_fld_id f) = Some g) as Hnn
    by (by apply (nn_in_range s Hwf i)).
  unfold del_fld_id. wp_step. apply (wp_rd_fld _ f); [done|].
  wp_step. wp_step.
  { match goal with H : _ && _ = true |- _ => apply andb_true_iff in H as [He Ha] end.
    apply negb_true_iff, bool_decide_eq_false in Ha. destruct Hext; congruence. }
  wp_step. apply unlink_when_wp; [apply Hok|]. intros s1 H1. wp_step.
  apply wp_wr_fld; [unfold g_n_fld; rewrite (fo_flds _ _ H1); exact Hi|].
  wp_step. apply (wp_rd_fld _ zero_fld_rec).
  { simpl. apply zlookup_zset_eq. rewrite (fo_flds _ _ H1). exact Hi. }
  wp_step. wp_step; [|discriminate]. do 2 wp_step.
  apply (alias_loop_wp _ _ zero_fld_rec); [|done|].
  { simpl. apply zlookup_zset_eq. rewrite (fo_flds _ _ H1). exact Hi. }
  set (s2 := set_flds (fun l => zset l i zero_fld_rec) s1).
  assert (files_only (set_flds (fun _ => zset (g_flds s) i zero_fld_rec) s) s2) as H2.
  { destruct H1. split; try done. simpl. congruence. }
  assert (g_flds s2 = zset (g_flds s) i zero_fld_rec) as Efl by (by rewrite (fo_flds _ _ H2)).
  wp_step; [|apply HQ; unfold with_flds, del_slots; rewrite (proj2 (Z.leb_gt 0 _)) by lia; done].
  destruct Hnn as (g & Hg); [lia|]. pose proof (zlookup_Some_range _ _ _ Hg).
  wp_step. assert (exists g2, g_flds s2 !z (nn_fld_id f) = Some g2 /\ ddir_ok s2 (ddir_id g2))
    as (g2 & Hg2 & Hd2).
  { rewrite Efl, zlookup_zset by done. destruct (decide (nn_fld_id f = i)).
    - exists zero_fld_rec. split; [done|]. unfold ddir_ok. simpl. unfold INT_MIN. lia.
    - exists g. split; [done|]. unfold ddir_ok. rewrite (fo_ddirs _ _ H2). simpl.
      apply (wf_fld s Hwf _ g Hg). }
  apply (wp_rd_fld _ g2); [done|]. wp_step. apply unlink_when_wp; [done|]. intros s3 Hs3.
  assert (g_flds s3 = zset (g_flds s) i zero_fld_rec) as E3 by (rewrite (fo_flds _ _ Hs3); done).
  apply wp_wr_fld; [unfold g_n_fld; rewrite E3, zlen_zset; done|]. apply HQ.
  unfold with_flds, del_slots. rewrite (proj2 (Z.leb_le 0 _)) by lia.
  destruct H2, Hs3. simpl in *. split; simpl; try congruence. by etrans.
Qed.

Lemma del_fld_is_id s tbl tid fld i ext f (Q : unit -> state -> Prop) (E : state -> Prop) :
  wf s -> 0 <= tid -> g_flds s !z i = Some f ->
  wp (del_fld_id i (nn_fld_id f) ext) Q E s -> wp (del_fld tbl tid fld i ext) Q E s.
Proof.
  intros Hwf Htid Hf Hwp. pose proof (zlookup_Some_range _ _ _ Hf) as Hi.
  unfold del_fld. rewrite (proj2 (Z.ltb_ge _ _) Htid). do 2 wp_step.
  rewrite (proj2 (Z.ltb_ge _ _) Htid), (proj2 (Z.ltb_ge i 0)) by lia.
  do 2 wp_step. apply (wp_rd_fld _ f); [done|]. wp_step.
  assert (wp (when (0 <=? nn_fld_id f) (rd_fld (nn_fld_id f);; mret tt))
    (fun _ s' => s' = s) E s) as Hread.
  { wp_step; [|done]. destruct (nn_in_range s Hwf i f Hf) as (g & Hg); [lia|]. wp_step.
    by apply (wp_rd_fld _ g). }
  eapply wp_mono; [exact Hread| |done]. intros [] ? ->. wp_step.
  by rewrite (proj2 (Z.ltb_ge i 0)) by lia.
Qed.

Lemma del_fld_wp s tbl tid fld i ext f (Q : unit -> state -> Prop) (E : state -> Prop) :
  wf s -> 0 <= tid -> g_flds s !z i = Some f -> ext = false \/ auxtype f = undef ->
  (forall s', with_flds s (del_slots (g_flds s) i (nn_fld_id f)) s' -> Q tt s') ->
  wp (del_fld tbl tid fld i ext) Q E s.
Proof. intros. eapply del_fld_is_id; eauto. by apply del_fld_id_wp. Qed.

(** A call from outside does not delete an auxiliary field. *)
Lemma del_fld_id_aux_wp s i f (Q : unit -> state -> Prop) (E : state -> Prop) :
  wf s -> g_flds s !z i = Some f -> auxtype f = nn -> E s ->
  wp (del_fld_id i (nn_fld_id f) true) Q E s.
Proof.
  intros Hwf Hf Haux HE. pose proof (zlookup_Some_range _ _ _ Hf) as Hi.
  pose proof (wf_fld s Hwf i f Hf) as Hok.
  assert (used f) as Hu.
  { intros En. destruct (fk_free _ _ _ Hok) as (_ & _ & ? & _); [by intros []|congruence]. }
  pose proof (fk_links _ _ _ Hok Hu) as Hl. unfold links_ok in Hl. rewrite Haux in Hl.
  destruct Hl as (Hnn & Hpar & p & Hp & Hpu & _).
  unfold del_fld_id. wp_step. apply (wp_rd_fld _ f); [done|].
  wp_step. apply wp_when; intros Hc; [|by rewrite Haux in Hc]. wp_step.
  apply (wp_rd_fld _ p); [done|]. wp_step; [done|].
  match goal with H : negb (strcmp_eq _ _) = false |- _ =>
    apply negb_false_iff, strcmp_eq_spec in H; done end.
Qed.

Lemma del_fld_aux_wp s tbl tid fld i f (Q : unit -> state -> Prop) (E : state -> Prop) :
  wf s -> 0 <= tid -> g_flds s !z i = Some f -> auxtype f = nn -> E s ->
  wp (del_fld tbl tid fld i true) Q E s.
Proof. intros. eapply del_fld_is_id; eauto. by apply del_fld_id_aux_wp. Qed.
