(* ===== verification/CatalogSpec.v ===== *)
(** * The abstract catalog.

    What the catalog means to its users: a map from table names to numbers of
    rows, and a map from table and field names to field descriptions.  [abs]
    reads it off the arrays of [state]; for a well-formed state its entries
    are the used records.  The operations of the abstract catalog are what
    the verbs promise; CatalogVerbs.v proves that the verbs implement them. *)

From stdpp Require Import prelude strings gmap.
From Stdlib Require Import ZArith Lia.
From S2P Require Import Prelude CString Types Hash Catalog Verbs CatalogLogic.

(** ** Abstraction *)

(** The first index whose element satisfies [p]. *)
Definition index_of {A} (p : A -> bool) (l : list A) : option Z :=
  match find_loop p l 0 (length l) with Ok r => r | _ => None end.

Lemma index_of_spec {A} (p : A -> bool) l :
  match index_of p l with
  | Some k => exists x, l !z k = Some x /\ p x = true
  | None => forall k x, l !z k = Some x -> p x = false
  end.
Proof.
  unfold index_of. destruct (find_loop_ok p l 0 (length l)) as (r & -> & Hr); [done..|].
  destruct r as [k|]; [apply Hr|]. intros k x Hx.
  pose proof (zlookup_Some_range _ _ _ Hx). apply (Hr k); [unfold zlen in *; lia|done].
Qed.

(** The description of a field: its type, order, and where its data is; and
    where the data of its nn field is, if it has one. *)
Record fld_info := {
  fi_type : FLD_TYPE;
  fi_sort : SORT_TYPE;
  fi_data : Z * string;
  fi_nn : option (Z * string)
}.

Definition data_of (f : FLD_REC_TYPE) : Z * string := (ddir_id f, filename f).
Definition info_of (flds : list FLD_REC_TYPE) (f : FLD_REC_TYPE) : fld_info :=
  {| fi_type := fldtype f; fi_sort := sort_type f; fi_data := data_of f;
     fi_nn := if 0 <=? nn_fld_id f then data_of <$> flds !z (nn_fld_id f) else None |}.

Record catalog := {
  c_tbl : string -> option Z;
  c_fld : string -> string -> option fld_info
}.

Definition tbl_index (s : state) (n : string) : option Z :=
  if decide (n = ""%string) then None
  else index_of (fun t => strcmp_eq (t_name t) n) (g_tbls s).
Definition fld_index (s : state) (tid : Z) (n : string) : option Z :=
  if decide (n = ""%string) then None
  else index_of (fun f => (tbl_id f =? tid) && strcmp_eq (name f) n &&
                          bool_decide (auxtype f = undef)) (g_flds s).

Definition abs (s : state) : catalog :=
  {| c_tbl n := i ← tbl_index s n; t_nR <$> g_tbls s !z i;
     c_fld tn fn :=
       tid ← tbl_index s tn; i ← fld_index s tid fn; info_of (g_flds s) <$> g_flds s !z i |}.

(** Equal catalogs have equal entries. *)
Record cat_eq (C D : catalog) : Prop := {
  ce_tbl n : c_tbl C n = c_tbl D n;
  ce_fld tn fn : c_fld C tn fn = c_fld D tn fn
}.
#[export] Instance cat_eq_equiv : Equivalence cat_eq.
Proof.
  split.
  - by split.
  - intros C D []. split; congruence.
  - intros C D F [] []. split; congruence.
Qed.

(** ** The entries of a well-formed catalog *)

Section entries.
Context (s : state) (Hwf : wf s).

Definition has_tbl (i : Z) (n : string) (t : TBL_REC_TYPE) : Prop :=
  g_tbls s !z i = Some t /\ t_name t = n /\ n <> ""%string.

Lemma tbl_index_Some n i : tbl_index s n = Some i <-> exists t, has_tbl i n t.
Proof.
  unfold tbl_index, has_tbl. case_decide as En; [split; [done|by intros (t & _ & _ & ?)]|].
  pose proof (index_of_spec (fun t => strcmp_eq (t_name t) n) (g_tbls s)) as H.
  destruct (index_of _ _) as [k|].
  - destruct H as (t & Ht & He). apply strcmp_eq_spec in He. split.
    + intros [= ->]. eauto.
    + intros (u & Hu & Hn & _). f_equal. apply (wf_tbl_unique s Hwf k i t u); congruence.
  - split; [done|]. intros (u & Hu & Hn & _). specialize (H i u Hu). simpl in H.
    by rewrite (proj2 (strcmp_eq_spec _ _) Hn) in H.
Qed.

Lemma abs_tbl_Some n r : c_tbl (abs s) n = Some r <-> exists i t, has_tbl i n t /\ t_nR t = r.
Proof.
  simpl. rewrite bind_Some. setoid_rewrite tbl_index_Some. split.
  - intros (i & (t & Ht) & Hr). pose proof (proj1 Ht) as E. rewrite E in Hr. simpl in Hr.
    simplify_eq. eauto.
  - intros (i & t & Ht & <-). exists i. split; [eauto|]. by rewrite (proj1 Ht).
Qed.

(** A primary field of a table that exists. *)
Definition has_fld (tid i : Z) (fn : string) (f : FLD_REC_TYPE) : Prop :=
  g_flds s !z i = Some f /\ tbl_id f = tid /\ name f = fn /\ fn <> ""%string /\ auxtype f = undef.

Lemma fld_index_Some tid fn i : fld_index s tid fn = Some i <-> exists f, has_fld tid i fn f.
Proof.
  unfold fld_index, has_fld. case_decide as En; [split; [done|by intros (f & _ & _ & _ & ? & _)]|].
  pose proof (index_of_spec (fun f => (tbl_id f =? tid) && strcmp_eq (name f) fn &&
    bool_decide (auxtype f = undef)) (g_flds s)) as H.
  destruct (index_of _ _) as [k|].
  - destruct H as (f & Hf & He). rewrite !andb_true_iff, strcmp_eq_spec, Z.eqb_eq in He.
    destruct He as [[Ht He] Ha%bool_decide_eq_true]. split.
    + intros [= ->]. eauto 10.
    + intros (g & Hg & Htg & Hn & _). f_equal.
      apply (wf_fld_unique s Hwf k i f g); unfold used; congruence.
  - split; [done|]. intros (g & Hg & Ht & Hn & _ & Ha). specialize (H i g Hg). simpl in H.
    rewrite (proj2 (strcmp_eq_spec _ _) Hn), (proj2 (Z.eqb_eq _ _) Ht) in H.
    by rewrite bool_decide_eq_true_2 in H.
Qed.

Lemma abs_fld_Some tn fn d :
  c_fld (abs s) tn fn = Some d <->
  exists ti t i f, has_tbl ti tn t /\ has_fld ti i fn f /\ info_of (g_flds s) f = d.
Proof.
  simpl. rewrite bind_Some. setoid_rewrite bind_Some. setoid_rewrite tbl_index_Some.
  setoid_rewrite fld_index_Some. split.
  - intros (ti & (t & Ht) & i & (f & Hf) & Hd). pose proof (proj1 Hf) as E. rewrite E in Hd.
    simpl in Hd. simplify_eq. exists ti, t, i, f. auto.
  - intros (ti & t & i & f & Ht & Hf & <-). exists ti. split; [eauto|]. exists i.
    split; [eauto|]. by rewrite (proj1 Hf).
Qed.
End entries.

(** Files do not matter to the abstract catalog. *)
Lemma files_only_abs s s' : files_only s s' -> abs s' = abs s.
Proof.
  intros H. unfold abs, tbl_index, fld_index. by rewrite (fo_tbls _ _ H), (fo_flds _ _ H).
Qed.

(** ** Operations of the abstract catalog *)

Definition a_add_tbl (n : string) (nR : Z) (C : catalog) : catalog :=
  {| c_tbl m := if decide (m = n) then Some nR else c_tbl C m;
     c_fld tn fn := if decide (tn = n) then None else c_fld C tn fn |}.
Definition a_del_tbl (n : string) (C : catalog) : catalog :=
  {| c_tbl m := if decide (m = n) then None else c_tbl C m;
     c_fld tn fn := if decide (tn = n) then None else c_fld C tn fn |}.
Definition a_rename_tbl (old new : string) (C : catalog) : catalog :=
  {| c_tbl m := if decide (m = new) then c_tbl C old
                else if decide (m = old) then None else c_tbl C m;
     c_fld tn fn := if decide (tn = new) then c_fld C old fn
                    else if decide (tn = old) then None else c_fld C tn fn |}.
Definition a_set_nR (n : string) (nR : Z) (C : catalog) : catalog :=
  {| c_tbl m := if decide (m = n) then Some nR else c_tbl C m; c_fld := c_fld C |}.
Definition a_set_fld (tn fn : string) (d : option fld_info) (C : catalog) : catalog :=
  {| c_tbl := c_tbl C;
     c_fld t f := if decide (t = tn /\ f = fn) then d else c_fld C t f |}.
Definition a_rename_fld (tn old new : string) (C : catalog) : catalog :=
  {| c_tbl := c_tbl C;
     c_fld t f := if decide (t = tn) then
                    if decide (f = new) then c_fld C tn old
                    else if decide (f = old) then None else c_fld C tn f
                  else c_fld C t f |}.

(** ** A small docroot

    Two tables of three rows, ["t1"] with the fields ["x"], which has an nn
    field, and ["y"], whose values are in the table ["t2"]; the hash indexes
    point to no record, as the code leaves them. *)
Definition small_tbl (n : string) : TBL_REC_TYPE :=
  {| t_nR := 3; t_name := n; t_dispname := ""; t_is_dict_tbl := false |}.
Definition small_fld (tid : Z) (n file : string) (par nnid : Z) (aux : AUX_TYPE) (ft : FLD_TYPE)
    (dict : Z) : FLD_REC_TYPE :=
  {| tbl_id := tid; ddir_id := INT_MIN; is_external := false; sort_type := unknown;
     parent_id := par; nn_fld_id := nnid; fldtype := ft; auxtype := aux;
     name := n; filename := file; dispname := ""; dict_tbl_id := dict;
     alias_of_fld_id := INT_MIN; cnt := -1 |}.

Definition small : state :=
  {| g_tbls := [small_tbl "t1"; small_tbl "t2"; zero_tbl_rec];
     g_flds := [small_fld 0 "x" "_x" (-1) 1 undef I4 INT_MIN;
                small_fld 0 "_nn_x" "_nnx" 0 (-1) nn I1 INT_MIN;
                small_fld 0 "y" "_y" (-1) (-1) undef I4 1;
                zero_fld_rec; zero_fld_rec];
     g_ddirs := [""%string];
     g_ht_tbl := [{| kv_key := 0; kv_val := -1 |}];
     g_ht_fld := [{| kv_key := 0; kv_val := -1 |}];
     g_data_dir := Some "/data"%string;
     g_cwd := "/work"%string;
     cwd := "/work"%string;
     dirs := {["/data"%string; "/work"%string]};
     fs := <[("/data", "_x")%string := repeat 0 12]>
             (<[("/data", "_nnx")%string := [1; 0; 1]]>
             (<[("/data", "_y")%string := repeat 0 12]>
             (<[("/data", "_z")%string := repeat 7 24]> ∅))) |}.

Lemma small_wf : wf small.
Proof. apply wfb_ok. vm_compute. reflexivity. Qed.
