(* ===== verification/CatalogVerbs.v ===== *)
(** * The verbs implement the abstract catalog.

    For every verb: from a well-formed state it does not get stuck, the state
    it leaves is well-formed, whether it succeeds or fails, and when it
    succeeds the abstract catalog has changed by the operation of
    CatalogSpec.v, and by nothing else. *)

From stdpp Require Import prelude strings gmap.
From Stdlib Require Import ZArith Lia.
From S2P Require Import Prelude CString Types Hash Catalog Verbs CatalogLogic CatalogSpec.

(** ** States with other fields or tables *)

Lemma wf_set_flds s l :
  wf s -> zlen l = g_n_fld s ->
  (forall i f, l !z i = Some f -> fld_ok (set_flds (fun _ => l) s) i f) ->
  (forall i j f g, l !z i = Some f -> l !z j = Some g -> tbl_id f = tbl_id g ->
     name f = name g -> used f -> i = j) ->
  wf (set_flds (fun _ => l) s).
Proof.
  intros [] Hlen Hok Hu. split; auto.
  - unfold g_n_fld in *. simpl. by rewrite Hlen.
  - unfold g_n_fld in *. simpl. by rewrite Hlen.
Qed.

Lemma fld_ok_keep s l i f :
  fld_ok s i f -> (used f -> links_ok l i f) -> fld_ok (set_flds (fun _ => l) s) i f.
Proof. intros [] Hl. by split. Qed.

Lemma fld_ok_zero s i : fld_ok s i zero_fld_rec.
Proof.
  split; try done; [by intros H; destruct H|..]; try (by intros H; destruct H).
Qed.

Lemma not_used_zero : ~ used zero_fld_rec.
Proof. intros H. by apply H. Qed.

Lemma nn_same_tbl s i f :
  wf s -> g_flds s !z i = Some f -> auxtype f = undef -> 0 <= nn_fld_id f ->
  exists g, g_flds s !z (nn_fld_id f) = Some g /\ nn_of i f g.
Proof.
  intros Hwf Hf Haux Hge. pose proof (wf_fld s Hwf i f Hf) as Hok.
  destruct (decide (name f = ""%string)) as [E|Hu].
  - destruct (fk_free _ _ _ Hok) as [? _]; [by intros []|lia].
  - pose proof (fk_links _ _ _ Hok Hu) as Hl. unfold links_ok in Hl. rewrite Haux in Hl.
    by apply Hl.
Qed.

(** The links of the fields outside a deleted field and its nn field. *)
Lemma links_other s i f j g :
  wf s -> g_flds s !z i = Some f -> auxtype f = undef ->
  g_flds s !z j = Some g -> used g -> ~ (j = i \/ (0 <= nn_fld_id f /\ j = nn_fld_id f)) ->
  match auxtype g with
  | undef => 0 <= nn_fld_id g -> ~ (nn_fld_id g = i \/ (0 <= nn_fld_id f /\ nn_fld_id g = nn_fld_id f))
  | nn => ~ (parent_id g = i \/ (0 <= nn_fld_id f /\ parent_id g = nn_fld_id f))
  end.
Proof.
  intros Hwf Hf Haux Hg Hgu Hne.
  assert (0 <= nn_fld_id f -> exists h, g_flds s !z (nn_fld_id f) = Some h /\ nn_of i f h) as Hnn.
  { intros. by apply nn_same_tbl. }
  pose proof (fk_links _ _ _ (wf_fld s Hwf j g Hg) Hgu) as Hl. unfold links_ok in Hl.
  destruct (auxtype g).
  - intros Hge. destruct Hl as [_ Hl]. destruct (Hl Hge) as (h & Hh & Hof).
    intros [E|[Hge2 E]].
    + rewrite E, Hf in Hh. simplify_eq. pose proof (nn_aux _ _ _ Hof). congruence.
    + destruct (Hnn Hge2) as (h' & Hh' & Hof'). rewrite E, Hh' in Hh. simplify_eq.
      pose proof (nn_parent _ _ _ Hof). pose proof (nn_parent _ _ _ Hof'). lia.
  - destruct Hl as (_ & Hge & p & Hp & Hpu & Hpa & Hpn). intros [E|[Hge2 E]].
    + rewrite E, Hf in Hp. simplify_eq. pose proof (zlookup_Some_range _ _ _ Hg). lia.
    + destruct (Hnn Hge2) as (h' & Hh' & Hof'). rewrite E, Hh' in Hp. simplify_eq.
      pose proof (nn_aux _ _ _ Hof'). congruence.
Qed.

Lemma nn_lt s i f : wf s -> g_flds s !z i = Some f -> nn_fld_id f < zlen (g_flds s).
Proof.
  intros Hwf Hf. pose proof (zlookup_Some_range _ _ _ Hf).
  destruct (Z.lt_ge_cases (nn_fld_id f) 0); [lia|].
  destruct (nn_in_range s Hwf i f Hf) as (g & Hg%zlookup_Some_range); lia.
Qed.

Lemma del_slots_wf s i f :
  wf s -> g_flds s !z i = Some f -> auxtype f = undef ->
  wf (set_flds (fun _ => del_slots (g_flds s) i (nn_fld_id f)) s).
Proof.
  intros Hwf Hf Haux. pose proof (zlookup_Some_range _ _ _ Hf) as Hi.
  pose proof (nn_lt s i f Hwf Hf) as Hnn.
  apply wf_set_flds; [done|apply zlen_del_slots| |].
  - intros j g. rewrite lookup_del_slots by done. case_decide as Hd.
    { intros [= <-]. apply fld_ok_zero. }
    intros Hg. apply fld_ok_keep; [by apply wf_fld|]. intros Hu.
    pose proof (links_other s i f j g Hwf Hf Haux Hg Hu Hd) as Ho.
    pose proof (fk_links _ _ _ (wf_fld s Hwf j g Hg) Hu) as Hl.
    unfold links_ok in *. destruct (auxtype g).
    + destruct Hl as [? Hl]. split; [done|]. intros Hge. destruct (Hl Hge) as (h & Hh & Hof).
      exists h. rewrite lookup_del_slots, decide_False by auto. done.
    + destruct Hl as (? & ? & p & Hp & Hrest). split_and!; [done..|]. exists p.
      by rewrite lookup_del_slots, decide_False by auto.
  - intros j k g h. rewrite !lookup_del_slots by done. intros Hg Hh Ht Hn Hu.
    destruct (decide (j = i \/ _)); [simplify_eq; by destruct not_used_zero|].
    destruct (decide (k = i \/ _)).
    { simplify_eq. destruct Hu. rewrite Hn. done. }
    by eapply (wf_fld_unique s Hwf).
Qed.

(** ** Deleting the fields of a table *)

(** The used fields outside table [tid] are the same in both lists. *)
Definition others (tid : Z) (l l' : list FLD_REC_TYPE) : Prop :=
  forall j f, used f -> tbl_id f <> tid -> l !z j = Some f <-> l' !z j = Some f.

#[export] Instance others_preorder tid : PreOrder (others tid).
Proof.
  split; [done|]. intros l1 l2 l3 H1 H2 j f Hu Ht. rewrite (H1 j f Hu Ht). by apply H2.
Qed.

(** The first [k] slots hold no primary field of table [tid] any more. *)
Definition gone (tid : Z) (l : list FLD_REC_TYPE) (k : Z) : Prop :=
  forall j f, 0 <= j < k -> l !z j = Some f -> tbl_id f = tid -> used f -> auxtype f <> undef.

Lemma del_slots_others s i f :
  wf s -> g_flds s !z i = Some f -> auxtype f = undef ->
  others (tbl_id f) (g_flds s) (del_slots (g_flds s) i (nn_fld_id f)).
Proof.
  intros Hwf Hf Haux j g Hu Ht. pose proof (zlookup_Some_range _ _ _ Hf) as Hi.
  assert (0 <= nn_fld_id f -> exists h, g_flds s !z (nn_fld_id f) = Some h /\ nn_of i f h) as Hnn
    by (intros; by apply nn_same_tbl).
  pose proof (nn_lt s i f Hwf Hf) as Hlt.
  rewrite lookup_del_slots by done. case_decide as Hd; [|done]. split; intros Hg.
  - destruct Hd as [->|[Hge ->]]; [congruence|]. destruct (Hnn Hge) as (h & Hh & Hof).
    pose proof (nn_tbl _ _ _ Hof). congruence.
  - injection Hg as <-. by destruct not_used_zero.
Qed.

Lemma with_flds_trans s l s' l' s'' :
  with_flds s l s' -> with_flds s' l' s'' -> with_flds s l' s''.
Proof.
  unfold with_flds. intros [] []. simpl in *. split; simpl; try congruence. by etrans.
Qed.

Lemma del_flds_loop_wp n s i tid (Q : unit -> state -> Prop) E :
  wf s -> 0 <= tid -> 0 <= i -> i + Z.of_nat n = g_n_fld s -> gone tid (g_flds s) i ->
  (forall s', wf s' -> with_flds s (g_flds s') s' -> g_n_fld s' = g_n_fld s ->
     gone tid (g_flds s') (g_n_fld s') -> others tid (g_flds s) (g_flds s') -> Q tt s') ->
  wp (del_flds_loop n i tid) Q E s.
Proof.
  intros Hwf Htid. revert s i Hwf. induction n as [|n IH]; intros s i Hwf Hi Hn Hgone HQ; simpl.
  { wp_step. apply HQ; auto; [by split| |done]. by replace (g_n_fld s) with i by lia. }
  wp_step. destruct (zlookup_is_Some (g_flds s) i) as (f & Hf); [unfold g_n_fld in *; lia|].
  apply (wp_rd_fld _ f); [done|]. wp_step. wp_step.
  - match goal with H : _ && _ = true |- _ => apply andb_true_iff in H as [Ht%Z.eqb_eq Hp%Z.ltb_lt] end.
    assert (auxtype f = undef) as Haux.
    { pose proof (wf_fld s Hwf i f Hf) as Hok. destruct (decide (name f = ""%string)) as [E0|Hu].
      - apply (fk_free _ _ _ Hok). by intros [].
      - pose proof (fk_links _ _ _ Hok Hu) as Hl. unfold links_ok in Hl.
        destruct (auxtype f); [done|lia]. }
    apply (del_fld_wp s _ tid _ i true f); auto. intros s1 H1.
    assert (wf s1) as Hwf1 by (eapply files_only_wf; [exact H1|by apply del_slots_wf]).
    assert (g_flds s1 = del_slots (g_flds s) i (nn_fld_id f)) as E1 by (by rewrite (fo_flds _ _ H1)).
    pose proof (nn_lt s i f Hwf Hf) as Hlt.
    pose proof (zlookup_Some_range _ _ _ Hf).
    assert (g_n_fld s1 = g_n_fld s) as En by (unfold g_n_fld; by rewrite E1, zlen_del_slots).
    apply (IH s1); auto; try lia.
    + intros j g Hj. rewrite E1, lookup_del_slots by done. case_decide as Hd.
      { intros [= <-] _ Hu. by destruct not_used_zero. }
      intros Hg. apply (Hgone j g); [|done]. lia.
    + intros s' Hwf' H' En' Hg' Ho. apply HQ; auto; [|congruence|].
      * eapply with_flds_trans; [|exact H']. exact H1.
      * etrans; [|exact Ho]. rewrite E1, <- Ht. by apply del_slots_others.
  - apply (IH s); auto; try lia. intros j g Hj Hg Ht Hu.
    destruct (decide (j = i)) as [->|]; [|apply (Hgone j g); auto; lia]. simplify_eq.
    intros Haux. pose proof (fk_links _ _ _ (wf_fld s Hwf i f Hf) Hu) as Hl.
    unfold links_ok in Hl. rewrite Haux in Hl. lia.
Qed.

(** What is left when all fields of table [tid] are deleted. *)
Record cleared (tid : Z) (s s' : state) : Prop := {
  cl_wf : wf s';
  cl_with : with_flds s (g_flds s') s';
  cl_len : g_n_fld s' = g_n_fld s;
  cl_none j f : g_flds s' !z j = Some f -> used f -> tbl_id f <> tid;
  cl_others : others tid (g_flds s) (g_flds s')
}.

Lemma gone_cleared s tid s' :
  wf s' -> with_flds s (g_flds s') s' -> g_n_fld s' = g_n_fld s ->
  gone tid (g_flds s') (g_n_fld s') -> others tid (g_flds s) (g_flds s') -> cleared tid s s'.
Proof.
  intros Hwf Hw Hn Hg Ho. split; auto. intros j f Hf Hu Ht.
  assert (auxtype f <> undef) as Ha.
  { apply (Hg j f); auto. by apply zlookup_Some_range in Hf. }
  pose proof (fk_links _ _ _ (wf_fld _ Hwf j f Hf) Hu) as Hl. unfold links_ok in Hl.
  destruct (auxtype f) eqn:Ef; [done|]. destruct Hl as (_ & Hge & p & Hp & Hpu & Hpa & Hpn).
  apply (Hg (parent_id f) p); auto; [by apply zlookup_Some_range in Hp|].
  destruct (nn_same_tbl s' (parent_id f) p) as (g & Hg2 & Hof); auto.
  { apply zlookup_Some_range in Hf. lia. }
  rewrite Hpn, Hf in Hg2. simplify_eq. pose proof (nn_tbl _ _ _ Hof). congruence.
Qed.

Lemma wf_set_tbl s tid t' :
  wf s -> 0 <= tid < g_n_tbl s -> 0 <= t_nR t' ->
  (t_name t' <> ""%string ->
     chk_tbl_name (Some (t_name t')) = Ok tt /\
     forall j u, g_tbls s !z j = Some u -> t_name u = t_name t' -> j = tid) ->
  (t_name t' = ""%string -> forall j f, g_flds s !z j = Some f -> used f -> tbl_id f <> tid) ->
  wf (set_tbls (fun l => zset l tid t') s).
Proof.
  intros Hwf Hi HnR Hname Hnone. pose proof Hwf as []. unfold g_n_tbl in *.
  split; unfold g_n_tbl; simpl; rewrite ?zlen_zset; auto.
  - intros i t. rewrite zlookup_zset by done. case_decide; [intros [= <-]; by apply Hname|].
    by apply wf_tbl_name.
  - intros i t. rewrite zlookup_zset by done. case_decide; [by intros [= <-]|].
    by apply wf_tbl_nR.
  - intros i j t u. rewrite !zlookup_zset by done.
    destruct (decide (i = tid)) as [->|], (decide (j = tid)) as [->|]; try done.
    + intros [= <-] Hu He Hne. symmetry. apply (proj2 (Hname Hne) j u); auto.
    + intros Ht [= <-] He Hne. apply (proj2 (Hname ltac:(congruence)) i t); auto.
    + apply wf_tbl_unique.
  - intros i f Hf. destruct (wf_fld i f Hf) as [? ? ? ? Ht ?]. split; auto. intros Hu.
    destruct (Ht Hu) as (t & Hget & Hne). unfold tbl_exists. simpl.
    destruct (decide (tbl_id f = tid)) as [E|Hneq].
    + exists t'. rewrite zlookup_zset, decide_True by done. split; [done|]. intros E0.
      by apply (Hnone E0 i f).
    + exists t. by rewrite zlookup_zset, decide_False by done.
Qed.

(** Table [tid] is used as the dictionary of some field. *)
Definition in_use (s : state) (tid : Z) : Prop :=
  exists i f, g_flds s !z i = Some f /\ dict_tbl_id f = tid.

Lemma del_tbl_id_wp s tid t (Q : unit -> state -> Prop) (E : state -> Prop) :
  wf s -> g_tbls s !z tid = Some t ->
  (in_use s tid -> E s) ->
  (forall s1, ~ in_use s tid -> cleared tid s s1 ->
     Q tt (set_tbls (fun l => zset l tid zero_tbl_rec) s1)) ->
  wp (del_tbl_id tid) Q E s.
Proof.
  intros Hwf Ht HE HQ. pose proof (zlookup_Some_range _ _ _ Ht) as Htid.
  unfold del_tbl_id. repeat wp_step.
  destruct (find_loop_ok (fun f => dict_tbl_id f =? tid) (g_flds s) 0 (length (g_flds s)))
    as (r & Hf & Hr); [done|done|].
  apply (wp_lift_Ok _ r); [done|]. destruct r as [i|].
  - destruct Hr as (_ & f & Hi & Hd%Z.eqb_eq). wp_step. apply (wp_rd_fld _ f); [done|].
    pose proof (wf_fld s Hwf i f Hi) as Hok. assert (used f) as Hu.
    { intros En. destruct (fk_free _ _ _ Hok) as (_ & _ & _ & ?); [by intros []|lia]. }
    destruct (fk_tbl _ _ _ Hok Hu) as (u & Hu2 & _). wp_step. apply (wp_rd_tbl _ u); [done|].
    wp_step. apply HE. by exists i, f.
  - assert (~ in_use s tid) as Hno.
    { intros (i & f & Hi & Hd). pose proof (zlookup_Some_range _ _ _ Hi).
      specialize (Hr i f). simpl in Hr. rewrite (proj2 (Z.eqb_eq _ _) Hd) in Hr.
      discriminate Hr; [|done]. unfold zlen in *. lia. }
    do 2 wp_step. wp_step. apply (del_flds_loop_wp _ s 0 tid); auto; try lia.
    { pose proof (zlen_nonneg (g_flds s)). unfold g_n_fld. lia. }
    { intros j f Hj. lia. }
    intros s1 Hwf1 Hw Hn Hg Ho. apply wp_wr_tbl.
    + unfold g_n_tbl. by rewrite (fo_tbls _ _ Hw).
    + apply HQ; [done|]. by apply gone_cleared.
Qed.

Lemma del_tbl_wp s tbl tid t (Q : unit -> state -> Prop) (E : state -> Prop) :
  wf s -> g_tbls s !z tid = Some t ->
  (in_use s tid -> E s) ->
  (forall s1, ~ in_use s tid -> cleared tid s s1 ->
     Q tt (set_tbls (fun l => zset l tid zero_tbl_rec) s1)) ->
  wp (del_tbl tbl tid) Q E s.
Proof.
  intros Hwf Ht HE HQ. pose proof (zlookup_Some_range _ _ _ Ht) as Htid.
  unfold del_tbl. rewrite (proj2 (Z.ltb_ge tid 0)) by lia. repeat wp_step.
  rewrite (proj2 (Z.ltb_ge tid 0)) by lia. by apply (del_tbl_id_wp s tid t).
Qed.

Lemma cleared_del_wf s tid s1 :
  cleared tid s s1 -> 0 <= tid < g_n_tbl s ->
  wf (set_tbls (fun l => zset l tid zero_tbl_rec) s1).
Proof.
  intros [Hwf Hw _ Hnone _] Htid.
  apply wf_set_tbl; try done. unfold g_n_tbl. by rewrite (fo_tbls _ _ Hw).
Qed.

(** The entries of the abstract catalog after table [tid] got the record [t']
    and the fields of table [tid] are those of [l]. *)
Lemma info_of_others s l i f tid :
  wf s -> others tid (g_flds s) l -> g_flds s !z i = Some f -> auxtype f = undef ->
  tbl_id f <> tid -> info_of l f = info_of (g_flds s) f.
Proof.
  intros Hwf Ho Hf Ha Ht. unfold info_of. f_equal.
  destruct (Z.leb_spec 0 (nn_fld_id f)) as [Hge|]; [|done].
  destruct (nn_same_tbl s i f) as (g & Hg & Hof); auto. rewrite Hg.
  by rewrite (proj1 (Ho _ g (nn_used _ _ _ Hof) ltac:(rewrite (nn_tbl _ _ _ Hof); done)) Hg).
Qed.

Lemma others_sym tid l l' : others tid l l' -> others tid l' l.
Proof. intros H j f Hu Ht. by rewrite (H j f Hu Ht). Qed.

(** A state whose table [tid] has been cleared and given the record [t'];
    [m] is the name of the table before, [t_name t'] its name now. *)
Section retabled.
Context (s s2 : state) (tid : Z) (t t' : TBL_REC_TYPE).
Context (Hwf : wf s) (Hwf2 : wf s2) (Ht : g_tbls s !z tid = Some t).
Context (Htbls : g_tbls s2 = zset (g_tbls s) tid t').
Context (Hothers : others tid (g_flds s) (g_flds s2)).

Lemma retabled_tbl i m u : i <> tid -> has_tbl s2 i m u <-> has_tbl s i m u.
Proof.
  intros Hne. pose proof (zlookup_Some_range _ _ _ Ht).
  unfold has_tbl. rewrite Htbls, zlookup_zset, decide_False by done. done.
Qed.

Lemma retabled_tid m u : has_tbl s2 tid m u <-> u = t' /\ t_name t' = m /\ m <> ""%string.
Proof.
  pose proof (zlookup_Some_range _ _ _ Ht).
  unfold has_tbl. rewrite Htbls, zlookup_zset, decide_True by done. split.
  - intros (? & ? & ?). simplify_eq. done.
  - intros (-> & ? & ?). done.
Qed.

Lemma has_tbl_unique i j m u v : has_tbl s i m u -> has_tbl s j m v -> i = j /\ u = v.
Proof.
  intros (Hu & Hn & Hne) (Hv & Hm & _). assert (i = j) as ->.
  { apply (wf_tbl_unique s Hwf i j u v); congruence. }
  split; congruence.
Qed.

Lemma retabled_fld ti i fn f : ti <> tid -> has_fld s2 ti i fn f <-> has_fld s ti i fn f.
Proof.
  intros Hne. unfold has_fld. split; intros (Hf & Htf & Hn & Hfn & Ha).
  - split_and!; auto. apply (proj2 (Hothers i f ltac:(unfold used; congruence) ltac:(congruence))). done.
  - split_and!; auto. apply (proj1 (Hothers i f ltac:(unfold used; congruence) ltac:(congruence))). done.
Qed.

(** Tables under other names than the old and the new one keep their entries. *)
Lemma retabled_abs_tbl m :
  m <> t_name t -> m <> t_name t' -> c_tbl (abs s2) m = c_tbl (abs s) m.
Proof.
  intros H1 H2. apply option_eq. intros r.
  rewrite (abs_tbl_Some s2 Hwf2), (abs_tbl_Some s Hwf).
  split; intros (i & u & Hu & Hr); exists i, u; (split; [|done]);
    (destruct (decide (i = tid)) as [->|]; [exfalso|by apply retabled_tbl]).
  - apply retabled_tid in Hu as (-> & ? & _). congruence.
  - destruct Hu as (Hu & Hn & _). congruence.
Qed.

Lemma retabled_abs_fld tn fn :
  tn <> t_name t -> tn <> t_name t' -> c_fld (abs s2) tn fn = c_fld (abs s) tn fn.
Proof.
  intros H1 H2. apply option_eq. intros d.
  rewrite (abs_fld_Some s2 Hwf2), (abs_fld_Some s Hwf).
  split; intros (ti & u & i & f & Hu & Hf & Hd); exists ti, u, i, f;
    (destruct (decide (ti = tid)) as [->|Hne]; [exfalso|]).
  - apply retabled_tid in Hu as (-> & ? & _). congruence.
  - split_and!; [by apply retabled_tbl|by apply retabled_fld|].
    rewrite <- Hd. symmetry. apply retabled_fld in Hf as Hf'; [|done].
    apply (info_of_others s (g_flds s2) i f tid); auto; [apply Hf'|apply Hf|].
    destruct Hf as (_ & <- & _). done.
  - destruct Hu as (Hu & Hn & _). congruence.
  - split_and!; [by apply retabled_tbl|by apply retabled_fld|].
    rewrite <- Hd. apply (info_of_others s (g_flds s2) i f tid); auto; [apply Hf|apply Hf|].
    destruct Hf as (_ & <- & _). done.
Qed.

(** The table itself. *)
Lemma retabled_abs_self : t_name t' <> ""%string -> c_tbl (abs s2) (t_name t') = Some (t_nR t').
Proof.
  intros Hne. apply (abs_tbl_Some s2 Hwf2). exists tid, t'. split; [|done].
  by apply retabled_tid.
Qed.

Lemma retabled_abs_gone :
  t_name t <> t_name t' -> c_tbl (abs s2) (t_name t) = None.
Proof.
  intros Hne. apply eq_None_not_Some. intros (r & Hr).
  apply (abs_tbl_Some s2 Hwf2) in Hr as (i & u & Hu & _).
  destruct (decide (i = tid)) as [->|Hi].
  - apply retabled_tid in Hu as (-> & ? & _). congruence.
  - apply retabled_tbl in Hu as (Hu & Hn & Hm); [|done].
    assert (i = tid); [|done]. by apply (wf_tbl_unique s Hwf i tid u t); [..|rewrite Hn].
Qed.

(** Without fields, no name of the table has field entries. *)
Lemma retabled_abs_no_fld tn fn :
  (forall j f, g_flds s2 !z j = Some f -> used f -> tbl_id f <> tid) ->
  tn = t_name t \/ tn = t_name t' ->
  c_fld (abs s2) tn fn = None.
Proof.
  intros Hnone Htn. apply eq_None_not_Some. intros (d & Hd).
  apply (abs_fld_Some s2 Hwf2) in Hd as (ti & u & i & f & Hu & Hf & _).
  destruct Hf as (Hf & Htf & Hn & Hfn & _).
  assert (ti <> tid) as Hne by (rewrite <- Htf; apply (Hnone i f); auto; unfold used; congruence).
  apply Hne. destruct Htn as [->| ->].
  - apply retabled_tbl in Hu as (Hu & Hnu & Hm); [|done].
    by apply (wf_tbl_unique s Hwf ti tid u t); [..|rewrite Hnu].
  - destruct Hu as (Hu & Hnu & Hm).
    apply (wf_tbl_unique s2 Hwf2 ti tid u t'); auto; [|congruence].
    pose proof (zlookup_Some_range _ _ _ Ht). by rewrite Htbls, zlookup_zset, decide_True.
Qed.
End retabled.

(** ** Tables *)

Lemma abs_tbl_empty s : c_tbl (abs s) "" = None.
Proof. done. Qed.
Lemma abs_fld_empty s fn : c_fld (abs s) "" fn = None.
Proof. done. Qed.

(** Table [tid], cleared, has become the empty table [t']. *)
Lemma retabled_add s s2 tid t t' :
  wf s -> wf s2 -> g_tbls s !z tid = Some t -> g_tbls s2 = zset (g_tbls s) tid t' ->
  others tid (g_flds s) (g_flds s2) -> t_name t' <> ""%string ->
  t_name t = ""%string \/ t_name t = t_name t' ->
  (forall j f, g_flds s2 !z j = Some f -> used f -> tbl_id f <> tid) ->
  cat_eq (abs s2) (a_add_tbl (t_name t') (t_nR t') (abs s)).
Proof.
  intros Hwf Hwf2 Ht Htbls Ho Hne Hname Hnone. split.
  - intros m. unfold a_add_tbl. cbn [c_tbl]. case_decide as Em.
    { subst. by apply (retabled_abs_self s s2 tid t t'). }
    destruct (decide (m = ""%string)) as [->|Hm]; [done|].
    apply (retabled_abs_tbl s s2 tid t t'); auto. destruct Hname; congruence.
  - intros tn fn. unfold a_add_tbl. cbn [c_fld]. case_decide as Em.
    { subst. apply (retabled_abs_no_fld s s2 tid t t'); auto. }
    destruct (decide (tn = ""%string)) as [->|Hm]; [done|].
    apply (retabled_abs_fld s s2 tid t t'); auto. destruct Hname; congruence.
Qed.

Lemma no_flds_of_free_tbl s tid t :
  wf s -> g_tbls s !z tid = Some t -> t_name t = ""%string ->
  forall j f, g_flds s !z j = Some f -> used f -> tbl_id f <> tid.
Proof.
  intros Hwf Ht Hn j f Hf Hu Htid.
  destruct (fk_tbl _ _ _ (wf_fld s Hwf j f Hf) Hu) as (u & Hu2 & Hne). congruence.
Qed.

(** [str_nR] as [add_tbl] reads it. *)
Definition read_nR (str_nR : option string) : Z :=
  match str_nR with None | Some EmptyString => 0 | Some s => (strtoll s).1 end.

Lemma chk_tbl_name_Ok n : chk_tbl_name (Some n) = Ok tt -> n <> ""%string /\ strlen n <= MAX_LEN_TBL_NAME.
Proof.
  unfold chk_tbl_name, go_BYE_if. destruct (strcmp_eq n "") eqn:E; [done|].
  destruct (Z.ltb_spec MAX_LEN_TBL_NAME (strlen n)); [done|]. intros _.
  split; [|done]. intros ->. done.
Qed.

Lemma chk_tbl_name_cases n : chk_tbl_name (Some n) = Ok tt \/ chk_tbl_name (Some n) = Err.
Proof.
  unfold chk_tbl_name, go_BYE_if. destruct (_ || _); simpl; [auto|].
  destruct (negb _); auto.
Qed.

(** [str_nR] is read, or refused when it is negative. *)
Lemma read_nR_wp str_nR (Q : Z -> state -> Prop) (E : state -> Prop) s :
  (0 <= read_nR str_nR -> Q (read_nR str_nR) s) -> (read_nR str_nR < 0 -> E s) ->
  wp (match str_nR with
      | None | Some EmptyString => mret 0
      | Some s => let nR := (strtoll s).1 in fail_if (nR <? 0);; mret nR
      end) Q E s.
Proof.
  intros HQ HE. destruct str_nR as [[|c r]|]; [apply wp_ret, HQ; done| |apply wp_ret, HQ; done].
  cbv zeta. wp_step. wp_step; [apply HE; unfold read_nR; lia|]. wp_step. apply HQ. unfold read_nR. lia.
Qed.

(** The stores into the chosen record. *)
Lemma tbl_stores_wp tid n nR u (Q : Z -> state -> Prop) (E : state -> Prop) s :
  strlen n <= MAX_LEN_TBL_NAME -> g_tbls s !z tid = Some u ->
  Q tid (set_tbls (fun l => zset l tid (tbl_set_nR nR (tbl_set_name n u))) s) ->
  wp (strcpy_ok n MAX_LEN_TBL_NAME;; upd_tbl tid (tbl_set_name n);;
      upd_tbl tid (tbl_set_nR nR);; mret tid) Q E s.
Proof.
  intros Hlen Hu HQ. pose proof (zlookup_Some_range _ _ _ Hu) as Htid.
  wp_step. apply wp_stuck_if; [simpl; lia|]. wp_step. apply (wp_upd_tbl _ u); [done|].
  wp_step. eapply wp_upd_tbl; [simpl; by apply zlookup_zset_eq|]. wp_step.
  unfold set_tbls in *. simpl. by rewrite zset_zset.
Qed.

(** Claim C24. [add_tbl] of a name, from a well-formed catalog: on success the
    new catalog is well-formed, the returned slot holds the table, and the
    abstract catalog has gained exactly this table, without fields, replacing
    a table of that name and all its fields if there was one; on failure
    nothing has changed, and the name is empty or not a legal table name, the
    row count is negative, the existing table is the dictionary of a field, or
    no slot is free. *)
Theorem add_tbl_correct (s : state) (usec : Z) (n : string) (str_nR : option string) :
  wf s ->
  wp (add_tbl usec (Some n) str_nR)
    (fun i s' => wf s' /\ (exists t, has_tbl s' i n t) /\
       cat_eq (abs s') (a_add_tbl n (read_nR str_nR) (abs s)))
    (fun s' => s' = s /\
       (chk_tbl_name (Some n) = Err \/ read_nR str_nR < 0 \/
        (exists i t, has_tbl s i n t /\ in_use s i) \/
        (forall i t, g_tbls s !z i = Some t -> t_name t <> ""%string))) s.
Proof.
  intros Hwf. unfold add_tbl. wp_step. wp_step.
  { split; [done|]. left. destruct n; [done|discriminate]. }
  wp_step. apply read_nR_wp; [intros HnR|by auto].
  wp_step. destruct (chk_tbl_name_cases n) as [Hc|Hc]; [|apply wp_lift_Err; auto].
  apply (wp_lift_Ok _ tt); [done|]. wp_step.
  destruct (chk_tbl_name_Ok _ Hc) as [Hne Hlen].
  apply (is_tbl_wp s Hwf).
  - (* the table exists *)
    intros tid t Ht Hn. pose proof (zlookup_Some_range _ _ _ Ht) as Htid.
    wp_step. rewrite (proj2 (Z.leb_le 0 tid)) by lia. wp_step.
    apply (del_tbl_wp s _ tid t); [done|done| |].
    { intros Hu. split; [done|]. right; right; left. exists tid, t. by repeat split. }
    intros s1 _ Hcl. wp_step.
    pose proof (fo_tbls _ _ (cl_with _ _ _ Hcl)) as E1. simpl in E1.
    apply (tbl_stores_wp _ _ _ zero_tbl_rec); [done| |].
    { simpl. rewrite E1. by apply zlookup_zset_eq. }
    set (t' := tbl_set_nR _ _).
    assert (wf (set_tbls (fun l => zset l tid t') s1)) as Hwf2.
    { apply wf_set_tbl; try done; [apply Hcl|unfold g_n_tbl; by rewrite E1|].
      intros _. split; [done|]. rewrite E1. simpl. intros j u Hu Hj.
      apply (wf_tbl_unique s Hwf j tid u t); congruence. }
    assert (set_tbls (fun l => zset l tid t') (set_tbls (fun l => zset l tid zero_tbl_rec) s1)
      = set_tbls (fun l => zset l tid t') s1) as ->.
    { unfold set_tbls. simpl. by rewrite zset_zset. }
    split_and!; [done| |].
    + exists t'. unfold has_tbl. simpl. rewrite E1, zlookup_zset, decide_True by done. done.
    + apply (retabled_add s _ tid t t'); auto; simpl; [by rewrite E1|apply Hcl|apply Hcl].
  - (* a new table *)
    intros Hnew. wp_step. change (0 <=? INT_MIN) with false. cbn beta iota.
    apply (get_empty_tbl_wp s Hwf); [|by auto].
    intros tid t Ht Hfree. pose proof (zlookup_Some_range _ _ _ Ht) as Htid.
    apply (tbl_stores_wp _ _ _ t); [done|done|]. set (t' := tbl_set_nR _ _).
    assert (wf (set_tbls (fun l => zset l tid t') s)) as Hwf2.
    { apply wf_set_tbl; try done. intros _. split; [done|]. intros j u Hu Hj.
      by destruct (Hnew j u Hu). }
    split_and!; [done| |].
    + exists t'. unfold has_tbl. simpl. by rewrite zlookup_zset, decide_True by done.
    + apply (retabled_add s _ tid t t'); auto; simpl; [done|].
      by apply (no_flds_of_free_tbl s tid t).
Qed.

(** A catalog without table [n]. *)
Lemma abs_no_tbl s n : wf s -> (forall i t, ~ has_tbl s i n t) ->
  c_tbl (abs s) n = None /\ forall fn, c_fld (abs s) n fn = None.
Proof.
  intros Hwf Hno. split; [|intros fn]; apply eq_None_not_Some; intros (x & Hx).
  - apply (abs_tbl_Some s Hwf) in Hx as (i & t & Ht & _). by apply (Hno i t).
  - apply (abs_fld_Some s Hwf) in Hx as (i & t & ? & ? & Ht & _). by apply (Hno i t).
Qed.

Lemma a_del_tbl_absent s n :
  wf s -> (forall i t, ~ has_tbl s i n t) -> cat_eq (abs s) (a_del_tbl n (abs s)).
Proof.
  intros Hwf Hno. destruct (abs_no_tbl s n Hwf Hno) as [H1 H2].
  split; intros; unfold a_del_tbl; cbn [c_tbl c_fld]; case_decide; by subst.
Qed.

(** Table [tid], cleared, is free. *)
Lemma retabled_del s s1 tid t :
  wf s -> g_tbls s !z tid = Some t -> t_name t <> ""%string -> cleared tid s s1 ->
  cat_eq (abs (set_tbls (fun l => zset l tid zero_tbl_rec) s1)) (a_del_tbl (t_name t) (abs s)).
Proof.
  intros Hwf Ht Hne Hcl. pose proof (zlookup_Some_range _ _ _ Ht) as Htid.
  pose proof (cleared_del_wf s tid s1 Hcl Htid) as Hwf2.
  set (s2 := set_tbls _ s1) in *.
  assert (g_tbls s2 = zset (g_tbls s) tid zero_tbl_rec) as E2
    by (simpl; by rewrite (fo_tbls _ _ (cl_with _ _ _ Hcl))).
  pose proof (cl_others _ _ _ Hcl) as Ho. pose proof (cl_none _ _ _ Hcl) as Hnone.
  split; [intros m|intros m fn]; unfold a_del_tbl; cbn [c_tbl c_fld]; case_decide as Em; subst.
  - by apply (retabled_abs_gone s s2 tid t zero_tbl_rec).
  - destruct (decide (m = ""%string)) as [->|]; [done|].
    by apply (retabled_abs_tbl s s2 tid t zero_tbl_rec).
  - apply (retabled_abs_no_fld s s2 tid t zero_tbl_rec); auto.
  - destruct (decide (m = ""%string)) as [->|]; [done|].
    by apply (retabled_abs_fld s s2 tid t zero_tbl_rec).
Qed.

(** Claim C7. [del_tbl] of a name, from a well-formed catalog: it ends; on
    success the catalog is well-formed and has lost exactly the table of that
    name with all its fields, their nn fields included (nothing, if there is no
    such table); it fails, and then changes nothing, only for the empty name or
    a table that is the dictionary of a field. *)
Theorem del_tbl_correct (s : state) (n : string) :
  wf s ->
  wp (del_tbl (Some n) (-1))
    (fun _ s' => wf s' /\ cat_eq (abs s') (a_del_tbl n (abs s)))
    (fun s' => s' = s /\ (n = ""%string \/ exists i t, has_tbl s i n t /\ in_use s i)) s.
Proof.
  intros Hwf. unfold del_tbl. change (-1 <? 0) with true. cbn iota. wp_step. wp_step. wp_step.
  { split; [done|]. left. by destruct n. }
  assert (n <> ""%string) as Hne by (by destruct n).
  wp_step. apply (is_tbl_wp s Hwf).
  - intros tid t Ht Hn. pose proof (zlookup_Some_range _ _ _ Ht) as Htid.
    wp_step. rewrite (proj2 (Z.ltb_ge tid 0)) by lia. apply (del_tbl_id_wp s tid t); [done|done|..].
    + intros Hu. split; [done|]. right. exists tid, t. by repeat split.
    + intros s1 _ Hcl. split; [by apply (cleared_del_wf s)|]. rewrite <- Hn.
      apply retabled_del; congruence.
  - intros Hno. wp_step. change (INT_MIN <? 0) with true. cbn iota. wp_step.
    split; [done|]. apply a_del_tbl_absent; [done|]. intros i t (Ht & Hn & _). by apply (Hno i t).
Qed.

(** Table [tid] gets another record, the fields stay. *)
Section new_tbl_rec.
Context (s : state) (tid : Z) (t t' : TBL_REC_TYPE).
Context (Hwf : wf s) (Ht : g_tbls s !z tid = Some t) (Hne : t_name t <> ""%string).
Let s2 := set_tbls (fun l => zset l tid t') s.
Context (HnR : 0 <= t_nR t') (Hname : chk_tbl_name (Some (t_name t')) = Ok tt).
Context (Huniq : forall j u, g_tbls s !z j = Some u -> t_name u = t_name t' -> j = tid).

Lemma new_tbl_wf : wf s2.
Proof.
  apply wf_set_tbl; auto; [by apply zlookup_Some_range in Ht|].
  intros E. by apply chk_tbl_name_Ok in Hname as [? _].
Qed.

Lemma new_tbl_has i m u :
  has_tbl s2 i m u <->
  if decide (i = tid) then u = t' /\ t_name t' = m else has_tbl s i m u.
Proof.
  pose proof (zlookup_Some_range _ _ _ Ht). apply chk_tbl_name_Ok in Hname as [? _].
  unfold has_tbl. simpl. rewrite zlookup_zset by done. case_decide; [|done].
  split; [intros (? & ? & ?); split; congruence|]. intros [-> <-]. done.
Qed.

(** Names other than the old one stand for what they stood for, the new name
    for what the old one did. *)
Lemma new_tbl_has_ne i m u :
  m <> t_name t -> m <> t_name t' -> has_tbl s2 i m u <-> has_tbl s i m u.
Proof.
  intros H1 H2. rewrite new_tbl_has. case_decide as E; [|done]. subst i. split.
  - intros [_ ?]. congruence.
  - intros (? & ? & _). congruence.
Qed.

Lemma new_tbl_has_new i u : has_tbl s2 i (t_name t') u <-> i = tid /\ u = t'.
Proof.
  rewrite new_tbl_has. case_decide as E.
  { split; [by intros [-> _]|by intros [_ ->]]. }
  split; [|by intros [? _]].
  intros (Hu & Hn & _). by destruct E; eapply Huniq.
Qed.

Lemma new_tbl_has_old i u :
  t_name t <> t_name t' -> ~ has_tbl s2 i (t_name t) u.
Proof.
  intros Hd. rewrite new_tbl_has. case_decide as E; [by intros []|].
  intros (Hu & Hn & _). destruct E. by apply (wf_tbl_unique s Hwf i tid u t); [..|rewrite Hn].
Qed.

Lemma has_self : has_tbl s tid (t_name t) t.
Proof. done. Qed.

(** Fields are found as before. *)
Lemma new_tbl_abs_ne m :
  m <> t_name t -> m <> t_name t' ->
  c_tbl (abs s2) m = c_tbl (abs s) m /\ forall fn, c_fld (abs s2) m fn = c_fld (abs s) m fn.
Proof.
  intros H1 H2. pose proof new_tbl_wf as Hwf2.
  split; [|intros fn]; apply option_eq; intros d.
  - rewrite (abs_tbl_Some s2 Hwf2), (abs_tbl_Some s Hwf). by setoid_rewrite new_tbl_has_ne.
  - rewrite (abs_fld_Some s2 Hwf2), (abs_fld_Some s Hwf). by setoid_rewrite new_tbl_has_ne.
Qed.

Lemma new_tbl_abs_new :
  c_tbl (abs s2) (t_name t') = Some (t_nR t') /\
  forall fn, c_fld (abs s2) (t_name t') fn = c_fld (abs s) (t_name t) fn.
Proof.
  pose proof new_tbl_wf as Hwf2. split.
  - apply (abs_tbl_Some s2 Hwf2). exists tid, t'. split; [|done]. by apply new_tbl_has_new.
  - intros fn. apply option_eq. intros d.
    rewrite (abs_fld_Some s2 Hwf2), (abs_fld_Some s Hwf).
    split; intros (ti & u & i & f & Hu & Hf & Hd).
    + apply new_tbl_has_new in Hu as [-> ->]. exists tid, t, i, f. split; [apply has_self|done].
    + assert (ti = tid) as -> by (by eapply (has_tbl_unique s), has_self).
      exists tid, t', i, f. split; [by apply new_tbl_has_new|done].
Qed.
End new_tbl_rec.

Lemma rename_abs s tid t t' :
  wf s -> g_tbls s !z tid = Some t -> t_name t <> ""%string ->
  chk_tbl_name (Some (t_name t')) = Ok tt -> t_nR t' = t_nR t -> t_name t <> t_name t' ->
  (forall j u, g_tbls s !z j = Some u -> t_name u <> t_name t') ->
  wf (set_tbls (fun l => zset l tid t') s) /\
  cat_eq (abs (set_tbls (fun l => zset l tid t') s))
    (a_rename_tbl (t_name t) (t_name t') (abs s)).
Proof.
  intros Hwf Ht Hne Hname HnR Hd Hno.
  assert (0 <= t_nR t') as Hpos by (rewrite HnR; by apply (wf_tbl_nR s Hwf tid)).
  assert (forall j u, g_tbls s !z j = Some u -> t_name u = t_name t' -> j = tid) as Hu
    by (intros j u Hj E; by destruct (Hno j u)).
  pose proof (new_tbl_wf s tid t t' Hwf Ht Hpos Hname Hu) as Hwf2. split; [done|].
  assert (forall i u, ~ has_tbl (set_tbls (fun l => zset l tid t') s) i (t_name t) u) as Hgone
    by (intros; by apply new_tbl_has_old).
  destruct (abs_no_tbl _ _ Hwf2 Hgone) as [N1 N2].
  destruct (new_tbl_abs_new s tid t t' Hwf Ht Hne Hpos Hname Hu) as [W1 W2].
  split; [intros m|intros m fn]; unfold a_rename_tbl; cbn [c_tbl c_fld];
    (case_decide as E1; [subst m|case_decide as E2; [subst m|]]).
  - rewrite W1, HnR. symmetry. apply (abs_tbl_Some s Hwf). exists tid, t. done.
  - exact N1.
  - by apply (new_tbl_abs_ne s tid t t').
  - by apply W2.
  - apply N2.
  - by apply (new_tbl_abs_ne s tid t t').
Qed.

(** [rename_tbl], from a well-formed catalog in which the new name
    is not that of a dictionary table: on success the catalog is well-formed,
    the table has the new name with its rows and its fields, the old name
    stands for no table and what the new name stood for is gone; it fails, and
    then changes nothing, only if a name is empty, both are equal, there is no
    such table or the new name is not legal. *)
Theorem rename_tbl_correct (s : state) (old new : string) :
  wf s -> (forall i t, has_tbl s i new t -> ~ in_use s i) ->
  wp (rename_tbl (Some old) (Some new))
    (fun _ s' => wf s' /\ cat_eq (abs s') (a_rename_tbl old new (abs s)))
    (fun s' => s' = s /\ (new = ""%string \/ old = ""%string \/ new = old \/
       c_tbl (abs s) old = None \/ chk_tbl_name (Some new) = Err)) s.
Proof.
  intros Hwf Hfree. unfold rename_tbl. wp_step. wp_step; [by destruct new; auto|].
  wp_step. wp_step; [by destruct old; auto|]. wp_step. wp_step.
  { split; [done|]. right; right; left. apply bool_decide_eq_true in H1. congruence. }
  assert (old <> ""%string) as Hold by (by destruct old).
  assert (new <> old) as Hneq by (apply bool_decide_eq_false in H1; congruence).
  wp_step. apply (is_tbl_wp s Hwf).
  2: { intros Hno. do 2 wp_step.
       - split; [done|]. do 3 right. left. apply abs_no_tbl; [done|].
         intros i t (Ht & Hn & _). by apply (Hno i t).
       - unfold INT_MIN in *. lia. }
  intros tid t Ht Hn. pose proof (zlookup_Some_range _ _ _ Ht) as Htid.
  do 2 wp_step; [done|]. wp_step. subst old. apply (is_tbl_wp s Hwf).
  - intros nid u Hu Hnew. assert (nid <> tid) as Hids by congruence.
    assert (new <> ""%string) as Hne by (by destruct new).
    assert (chk_tbl_name (Some new) = Ok tt) as Hchk.
    { rewrite <- Hnew. apply (wf_tbl_name s Hwf nid u Hu). congruence. }
    pose proof (zlookup_Some_range _ _ _ Hu) as Hnid.
    do 2 wp_step; [|lia]. wp_step. apply (del_tbl_wp s None nid u); [done|done| |].
    { intros Hin. by destruct (Hfree nid u). }
    intros s1 _ Hcl. wp_step. apply (wp_lift_Ok _ tt); [done|].
    pose proof (cleared_del_wf s nid s1 Hcl Hnid) as Hwf1.
    pose proof (retabled_del s s1 nid u Hwf Hu ltac:(congruence) Hcl) as Habs.
    set (s2 := set_tbls _ s1) in *.
    assert (g_tbls s2 = zset (g_tbls s) nid zero_tbl_rec) as E2
      by (simpl; by rewrite (fo_tbls _ _ (cl_with _ _ _ Hcl))).
    assert (g_tbls s2 !z tid = Some t) as Ht2.
    { rewrite E2, zlookup_zset, decide_False by done. done. }
    apply (wp_upd_tbl _ t); [done|].
    destruct (rename_abs s2 tid t (tbl_set_name new t)) as [Hw3 Ha3]; auto.
    { intros j v. rewrite E2, zlookup_zset by done. destruct (decide (j = nid)) as [->|Hj]; intros Hv E.
      - assert (v = zero_tbl_rec) as -> by congruence. by destruct Hne.
      - destruct Hj. simpl in E. apply (wf_tbl_unique s Hwf j nid v u); congruence. }
    split; [done|]. etrans; [exact Ha3|]. simpl. subst new.
    unfold a_rename_tbl. split; [intros m|intros m fn]; cbn [c_tbl c_fld];
      rewrite ?(ce_tbl _ _ Habs), ?(ce_fld _ _ Habs); unfold a_del_tbl; cbn [c_tbl c_fld];
      repeat case_decide; congruence.
  - intros Hno. do 2 wp_step; [unfold INT_MIN in *; lia|]. wp_step.
    destruct (chk_tbl_name_cases new) as [Hc|Hc].
    2: { apply wp_lift_Err; [done|]. split; [done|]. auto 6. }
    apply (wp_lift_Ok _ tt); [done|]. apply (wp_upd_tbl _ t); [done|].
    by apply (rename_abs s tid t (tbl_set_name new t)).
Qed.

(** [rename_tbl] ignores that the table of the new name could not be
    deleted: when it is the dictionary of a field, the rename succeeds and
    leaves two tables with the same name, so that the catalog is no longer
    well-formed. *)
Theorem rename_tbl_onto_dictionary (s : state) (old new : string) (i j : Z) (t u : TBL_REC_TYPE) :
  wf s -> has_tbl s i old t -> has_tbl s j new u -> in_use s j -> old <> new ->
  exists s', rename_tbl (Some old) (Some new) s = Ret tt s' /\
    (exists t', has_tbl s' i new t') /\ has_tbl s' j new u /\ ~ wf s'.
Proof.
  intros Hwf (Ht & Hn & Hne) (Hu & Hm & Hnew) Huse Hd.
  assert (i <> j) as Hij by congruence.
  pose proof (zlookup_Some_range _ _ _ Ht) as Hi. pose proof (zlookup_Some_range _ _ _ Hu) as Hj.
  set (s' := set_tbls (fun l => zset l i (tbl_set_name new t)) s).
  assert (wp (rename_tbl (Some old) (Some new)) (fun _ x => x = s') (fun _ => False) s) as Hwp.
  { unfold rename_tbl. wp_step. wp_step; [by destruct new|]. wp_step. wp_step; [by destruct old|].
    wp_step. wp_step; [by match goal with H : bool_decide _ = true |- _ =>
      apply bool_decide_eq_true in H; congruence end|].
    wp_step. apply (is_tbl_wp s Hwf); [|intros Hno; by destruct (Hno i t)].
    intros i' t' Ht' Hn'. assert (i' = i) as ->.
    { apply (wf_tbl_unique s Hwf i' i t' t); congruence. }
    do 2 wp_step; [done|]. wp_step.
    apply (is_tbl_wp s Hwf); [|intros Hno; by destruct (Hno j u)].
    intros j' u' Hu' Hm'. assert (j' = j) as ->.
    { apply (wf_tbl_unique s Hwf j' j u' u); congruence. }
    do 2 wp_step; [|lia]. wp_step. apply (del_tbl_wp s None j u); [done|done| |].
    2: { by intros s1 []. }
    intros _. wp_step. apply (wp_lift_Ok _ tt).
    { rewrite <- Hm. apply (wf_tbl_name s Hwf j u Hu). congruence. }
    by apply (wp_upd_tbl _ t). }
  exists s'. split.
  { unfold wp in Hwp. destruct (rename_tbl _ _ s) as [[] x| |]; [by subst|done..]. }
  assert (has_tbl s' i new (tbl_set_name new t)) as H1.
  { unfold has_tbl. simpl. by rewrite zlookup_zset, decide_True by done. }
  assert (has_tbl s' j new u) as H2.
  { unfold has_tbl. simpl. by rewrite zlookup_zset, decide_False by done. }
  split_and!; [by eexists|done|]. intros Hwf'.
  by destruct (has_tbl_unique s' Hwf' i j new _ _ H1 H2).
Qed.

(** [set_nR], from a well-formed catalog: on success the catalog is
    well-formed and the table has the row count that was read, with the fields
    it had; it fails, and then changes nothing, only for an empty argument, a
    count that is not positive or a table that does not exist. *)
Theorem set_nR_correct (s : state) (n r : string) :
  wf s ->
  wp (set_nR (Some n) (Some r))
    (fun _ s' => wf s' /\ cat_eq (abs s') (a_set_nR n (strtoll r).1 (abs s)))
    (fun s' => s' = s /\ (r = ""%string \/ n = ""%string \/ (strtoll r).1 <= 0 \/
       c_tbl (abs s) n = None)) s.
Proof.
  intros Hwf. unfold set_nR. wp_step. wp_step; [by destruct r; auto|]. simpl default.
  wp_step. wp_step; [split; [done|]; right; right; left; lia|]. wp_step.
  wp_step; [by destruct n; auto|]. assert (n <> ""%string) as Hne by (by destruct n).
  wp_step. apply (is_tbl_wp s Hwf).
  2: { intros Hno. do 2 wp_step.
       - split; [done|]. do 3 right. apply abs_no_tbl; [done|].
         intros i t (Ht & Hn & _). by apply (Hno i t).
       - unfold INT_MIN in *. lia. }
  intros tid t Ht Hn. pose proof (zlookup_Some_range _ _ _ Ht) as Htid.
  do 2 wp_step; [done|]. apply (wp_upd_tbl _ t); [done|].
  set (t' := tbl_set_nR _ t). subst n.
  assert (0 <= t_nR t') as Hpos by (simpl; lia).
  assert (chk_tbl_name (Some (t_name t')) = Ok tt) as Hname by (exact (wf_tbl_name s Hwf tid t Ht Hne)).
  assert (forall j u, g_tbls s !z j = Some u -> t_name u = t_name t' -> j = tid) as Hu.
  { intros j u Hj E. apply (wf_tbl_unique s Hwf j tid u t); auto. simpl in E. congruence. }
  split; [by apply (new_tbl_wf s tid t t')|].
  destruct (new_tbl_abs_new s tid t t' Hwf Ht Hne Hpos Hname Hu) as [W1 W2].
  split; [intros m|intros m fn]; unfold a_set_nR; cbn [c_tbl c_fld].
  - case_decide as E; [by subst|]. by apply (new_tbl_abs_ne s tid t t').
  - destruct (decide (m = t_name t)) as [->|E]; [apply W2|].
    by apply (new_tbl_abs_ne s tid t t').
Qed.

(** ** The theorems at the small docroot *)

Lemma add_tbl_correct_witness :
  wf small /\
  wp (add_tbl 0 (Some "t3"%string) (Some "10"%string))
    (fun i s' => wf s' /\ (exists t, has_tbl s' i "t3" t) /\
       cat_eq (abs s') (a_add_tbl "t3" (read_nR (Some "10"%string)) (abs small)))
    (fun s' => s' = small /\
       (chk_tbl_name (Some "t3"%string) = Err \/ read_nR (Some "10"%string) < 0 \/
        (exists i t, has_tbl small i "t3" t /\ in_use small i) \/
        (forall i t, g_tbls small !z i = Some t -> t_name t <> ""%string))) small.
Proof.
  split; [exact small_wf|]. apply (add_tbl_correct small 0 "t3" (Some "10"%string)).
  exact small_wf.
Defined.

Lemma del_tbl_correct_witness :
  wf small /\
  wp (del_tbl (Some "t1"%string) (-1))
    (fun _ s' => wf s' /\ cat_eq (abs s') (a_del_tbl "t1" (abs small)))
    (fun s' => s' = small /\ ("t1"%string = ""%string \/
       exists i t, has_tbl small i "t1" t /\ in_use small i)) small.
Proof. split; [exact small_wf|]. apply (del_tbl_correct small "t1"). exact small_wf. Defined.

Definition in_useb (s : state) (tid : Z) : bool :=
  existsb (fun f => dict_tbl_id f =? tid) (g_flds s).
Lemma in_useb_spec s tid : in_use s tid -> in_useb s tid = true.
Proof.
  intros (j & f & Hf & Hd). apply existsb_exists. exists f. split; [|lia].
  pose proof (zlookup_Some_range _ _ _ Hf). rewrite zlookup_to_nat in Hf by lia.
  apply list_elem_of_In. by eapply list_elem_of_lookup_2.
Qed.

Lemma free_tbl_ok s n :
  all_slots (fun i t => negb (strcmp_eq (t_name t) n) || negb (in_useb s i)) (g_tbls s) = true ->
  forall i t, has_tbl s i n t -> ~ in_use s i.
Proof.
  intros Hall i t (Ht & Hn & _) Hu. apply (all_slots_ok _ _ i t) in Hall; [|done].
  cbn beta in Hall. by rewrite (proj2 (strcmp_eq_spec _ _) Hn), (in_useb_spec s i Hu) in Hall.
Qed.

Lemma rename_tbl_correct_witness :
  wf small /\ (forall i t, has_tbl small i "t3" t -> ~ in_use small i) /\
  wp (rename_tbl (Some "t1"%string) (Some "t3"%string))
    (fun _ s' => wf s' /\ cat_eq (abs s') (a_rename_tbl "t1" "t3" (abs small)))
    (fun s' => s' = small /\ ("t3"%string = ""%string \/ "t1"%string = ""%string \/
       "t3"%string = "t1"%string \/ c_tbl (abs small) "t1" = None \/
       chk_tbl_name (Some "t3"%string) = Err)) small.
Proof.
  assert (forall i t, has_tbl small i "t3" t -> ~ in_use small i) as Hf
    by (apply free_tbl_ok; reflexivity).
  split; [exact small_wf|]. split; [exact Hf|].
  apply (rename_tbl_correct small "t1" "t3"); [exact small_wf|exact Hf].
Defined.

Lemma rename_tbl_onto_dictionary_witness :
  exists s', rename_tbl (Some "t1"%string) (Some "t2"%string) small = Ret tt s' /\
    (exists t', has_tbl s' 0 "t2" t') /\ has_tbl s' 1 "t2" (small_tbl "t2") /\ ~ wf s'.
Proof.
  apply (rename_tbl_onto_dictionary small "t1" "t2" 0 1 (small_tbl "t1") (small_tbl "t2")).
  - exact small_wf.
  - split; [reflexivity|]. split; [reflexivity|discriminate].
  - split; [reflexivity|]. split; [reflexivity|discriminate].
  - exists 2, (small_fld 0 "y" "_y" (-1) (-1) undef I4 1). split; reflexivity.
  - discriminate.
Defined.

Lemma set_nR_correct_witness :
  wf small /\
  wp (set_nR (Some "t1"%string) (Some "5"%string))
    (fun _ s' => wf s' /\ cat_eq (abs s') (a_set_nR "t1" (strtoll "5").1 (abs small)))
    (fun s' => s' = small /\ ("5"%string = ""%string \/ "t1"%string = ""%string \/
       (strtoll "5").1 <= 0 \/ c_tbl (abs small) "t1" = None)) small.
Proof. split; [exact small_wf|]. apply (set_nR_correct small "t1" "5"). exact small_wf. Defined.
