(* ===== verification/CatalogFields.v ===== *)
(** * The verbs on fields implement the abstract catalog.

    The theorems about [add_fld], [del_fld] and [rename_fld], in the form of
    those of CatalogVerbs.v about tables. *)

From stdpp Require Import prelude strings gmap.
From Stdlib Require Import ZArith Lia.
From S2P Require Import Prelude CString Types Hash Catalog Verbs CatalogLogic CatalogSpec CatalogVerbs.

(** ** States that differ in their fields *)

Section fields_differ.
Context (s s2 : state) (Hwf : wf s) (Hwf2 : wf s2) (Htbls : g_tbls s2 = g_tbls s).

Lemma same_has_tbl i n t : has_tbl s2 i n t <-> has_tbl s i n t.
Proof. unfold has_tbl. by rewrite Htbls. Qed.

Lemma same_c_tbl n : c_tbl (abs s2) n = c_tbl (abs s) n.
Proof. simpl. unfold tbl_index. by rewrite Htbls. Qed.

Lemma flds_abs_at tn fn :
  (forall ti t, has_tbl s ti tn t ->
     (forall i f, has_fld s ti i fn f ->
        exists f', has_fld s2 ti i fn f' /\ info_of (g_flds s2) f' = info_of (g_flds s) f) /\
     (forall i f', has_fld s2 ti i fn f' -> exists f, has_fld s ti i fn f)) ->
  c_fld (abs s2) tn fn = c_fld (abs s) tn fn.
Proof.
  intros H. apply option_eq. intros d. rewrite (abs_fld_Some s2 Hwf2), (abs_fld_Some s Hwf).
  split; intros (ti & t & i & f & Ht & Hf & Hd).
  - apply same_has_tbl in Ht. destruct (H ti t Ht) as [H1 H2].
    destruct (H2 i f Hf) as (g & Hg). destruct (H1 i g Hg) as (f' & Hf' & Hi).
    exists ti, t, i, g. split_and!; auto. assert (f' = f) as <-; [|congruence].
    destruct Hf as (? & _), Hf' as (? & _). congruence.
  - destruct (H ti t Ht) as [H1 H2]. destruct (H1 i f Hf) as (f' & Hf' & Hi).
    exists ti, t, i, f'. split_and!; auto; [by apply same_has_tbl|congruence].
Qed.

(** Field [n] of table [tid] now has the entry [d], the other fields have the
    entries they had. *)
Lemma flds_abs tid tn t n d :
  has_tbl s tid tn t ->
  (forall ti i fn f, ~ (ti = tid /\ fn = n) -> has_fld s ti i fn f ->
     exists f', has_fld s2 ti i fn f' /\ info_of (g_flds s2) f' = info_of (g_flds s) f) ->
  (forall ti i fn f', ~ (ti = tid /\ fn = n) -> has_fld s2 ti i fn f' ->
     exists f, has_fld s ti i fn f) ->
  c_fld (abs s2) tn n = d ->
  cat_eq (abs s2) (a_set_fld tn n d (abs s)).
Proof.
  intros Ht H1 H2 Hd. split; [apply same_c_tbl|]. intros tn' fn. unfold a_set_fld. cbn [c_fld].
  destruct (decide (tn' = tn /\ fn = n)) as [[-> ->]|Hne]; [done|].
  apply flds_abs_at. intros ti u Hu.
  assert (~ (ti = tid /\ fn = n)) as Hne2.
  { intros [-> ->]. destruct Hne. split; [|done]. destruct Ht as (E1 & <- & _), Hu as (E2 & <- & _).
    congruence. }
  split; intros i f; [by apply H1|by apply H2].
Qed.

Lemma c_fld_is tid tn t n i f :
  has_tbl s tid tn t -> has_fld s2 tid i n f ->
  c_fld (abs s2) tn n = Some (info_of (g_flds s2) f).
Proof.
  intros Ht Hf. apply (abs_fld_Some s2 Hwf2). exists tid, t, i, f.
  split_and!; [by apply same_has_tbl|done|done].
Qed.

Lemma c_fld_none tid tn t n :
  has_tbl s tid tn t -> (forall i f, ~ has_fld s2 tid i n f) -> c_fld (abs s2) tn n = None.
Proof.
  intros Ht Hno. apply eq_None_not_Some. intros (d & Hd).
  apply (abs_fld_Some s2 Hwf2) in Hd as (ti & u & i & f & Hu & Hf & _).
  apply same_has_tbl in Hu. destruct (has_tbl_unique s Hwf _ _ _ _ _ Ht Hu) as [<- _].
  by apply (Hno i f).
Qed.
End fields_differ.

(** ** Deleting *)

Lemma has_fld_unique s ti i j fn f g :
  wf s -> has_fld s ti i fn f -> has_fld s ti j fn g -> i = j /\ f = g.
Proof.
  intros Hwf (Hf & Ht & Hn & Hne & _) (Hg & Ht' & Hn' & _). assert (i = j) as ->.
  { apply (wf_fld_unique s Hwf i j f g); unfold used; congruence. }
  split; congruence.
Qed.

(** The description of another field is not touched by the deletion of [f]. *)
Lemma info_del_slots s i f j g :
  wf s -> g_flds s !z i = Some f -> auxtype f = undef ->
  g_flds s !z j = Some g -> used g -> auxtype g = undef ->
  ~ (j = i \/ (0 <= nn_fld_id f /\ j = nn_fld_id f)) ->
  info_of (del_slots (g_flds s) i (nn_fld_id f)) g = info_of (g_flds s) g.
Proof.
  intros Hwf Hf Ha Hg Hu Hga Hne. unfold info_of. f_equal.
  destruct (Z.leb_spec 0 (nn_fld_id g)) as [Hge|]; [|done].
  pose proof (zlookup_Some_range _ _ _ Hf). pose proof (nn_lt s i f Hwf Hf).
  pose proof (links_other s i f j g Hwf Hf Ha Hg Hu Hne) as Ho. rewrite Hga in Ho.
  rewrite lookup_del_slots by done. rewrite decide_False by auto. done.
Qed.

Lemma del_slots_abs s tid tn t i n f :
  wf s -> has_tbl s tid tn t -> has_fld s tid i n f ->
  cat_eq (abs (set_flds (fun _ => del_slots (g_flds s) i (nn_fld_id f)) s))
    (a_set_fld tn n None (abs s)).
Proof.
  intros Hwf Ht Hf. pose proof Hf as (Hi & Htid & Hn & Hne & Ha).
  pose proof (del_slots_wf s i f Hwf Hi Ha) as Hwf2. set (s2 := set_flds _ s) in *.
  pose proof (zlookup_Some_range _ _ _ Hi). pose proof (nn_lt s i f Hwf Hi).
  assert (forall j g, g_flds s2 !z j = Some g -> used g ->
    ~ (j = i \/ (0 <= nn_fld_id f /\ j = nn_fld_id f)) /\ g_flds s !z j = Some g) as Hback.
  { intros j g. simpl. rewrite lookup_del_slots by done. case_decide; [|done].
    intros Hz Hu. assert (g = zero_fld_rec) as -> by congruence. by destruct not_used_zero. }
  apply (flds_abs s s2 Hwf Hwf2 eq_refl tid tn t n); [done|..].
  - intros ti j fn g Hne2 (Hg & Htg & Hng & Hfn & Hga). exists g.
    assert (~ (j = i \/ (0 <= nn_fld_id f /\ j = nn_fld_id f))) as Hj.
    { intros [->|[Hge ->]]; [destruct Hne2; split; congruence|].
      destruct (nn_same_tbl s i f Hwf Hi Ha Hge) as (h & Hh & Hof).
      pose proof (nn_aux _ _ _ Hof). congruence. }
    split.
    + split_and!; auto. simpl. by rewrite lookup_del_slots, decide_False by done.
    + simpl. apply (info_del_slots s i f j g); auto. unfold used. congruence.
  - intros ti j fn g _ (Hg & Htg & Hng & Hfn & Hga). exists g.
    destruct (Hback j g Hg) as [_ ?]; [unfold used; congruence|]. by split_and!.
  - apply (c_fld_none s s2 Hwf Hwf2 eq_refl tid tn t); [done|].
    intros j g (Hg & Htg & Hng & Hfn & Hga).
    destruct (Hback j g Hg) as [Hj Hg']; [unfold used; congruence|].
    destruct (has_fld_unique s tid i j n f g Hwf Hf) as [<- _]; [by split_and!|]. by destruct Hj; left.
Qed.

Lemma a_del_fld_absent s tn n :
  c_fld (abs s) tn n = None -> cat_eq (abs s) (a_set_fld tn n None (abs s)).
Proof.
  intros Hno. split; [done|]. intros tn' fn. unfold a_set_fld. cbn [c_fld].
  case_decide as E; [|done]. by destruct E as [-> ->].
Qed.

(** Claim C36. [del_fld] of a table and a field name, from a well-formed
    catalog: on success the catalog is well-formed and has lost exactly that
    field, with its nn field (nothing, if there is no such field); it fails,
    and then changes nothing, only for an empty name or the name of an nn
    field. *)
Theorem del_fld_correct (s : state) (tn n : string) :
  wf s ->
  wp (del_fld (Some tn) (-1) (Some n) (-1) true)
    (fun _ s' => wf s' /\ cat_eq (abs s') (a_set_fld tn n None (abs s)))
    (fun s' => s' = s /\ (tn = ""%string \/ n = ""%string \/
       exists i f, g_flds s !z i = Some f /\ name f = n /\ auxtype f = nn)) s.
Proof.
  intros Hwf. unfold del_fld. change (-1 <? 0) with true. cbn iota.
  wp_step. wp_step. wp_step; [by destruct tn; auto|]. assert (tn <> ""%string) as Htn by (by destruct tn).
  wp_step. apply (is_tbl_wp s Hwf).
  2: { intros Hno. wp_step. change (INT_MIN <? 0) with true. cbn iota. wp_step. split; [done|].
       apply a_del_fld_absent, abs_no_tbl; [done|]. intros i t (Ht & Hn & _). by apply (Hno i t). }
  intros tid t Ht Hn. pose proof (zlookup_Some_range _ _ _ Ht) as Htid.
  wp_step. rewrite (proj2 (Z.ltb_ge tid 0)) by lia. do 2 wp_step.
  wp_step; [by destruct n; auto|]. assert (n <> ""%string) as Hne by (by destruct n).
  wp_step. apply (is_fld_wp s Hwf); [lia|..].
  2: { intros Hno. unfold no_fld. wp_step. change (INT_MIN <? 0) with true. cbn iota. wp_step. split; [done|].
       apply a_del_fld_absent, (c_fld_none s s Hwf Hwf eq_refl tid tn t); [done|].
       intros i f (Hf & Htf & Hnf & _). by apply (Hno i f). }
  intros i f g Hf Htf Hnf _. pose proof (zlookup_Some_range _ _ _ Hf).
  wp_step. rewrite (proj2 (Z.ltb_ge i 0)) by lia. destruct (auxtype f) eqn:Ha.
  - apply (del_fld_id_wp s i true f); auto. intros s' Hs'. rewrite (files_only_abs _ _ Hs').
    split; [eapply files_only_wf; [exact Hs'|by apply del_slots_wf]|].
    by apply (del_slots_abs s tid tn t i n f).
  - apply (del_fld_id_aux_wp s i f); auto. split; [done|]. right; right. by exists i, f.
Qed.

(** ** A record stored in a free slot *)

(** [f] may be stored: a primary field without nn field, or a free record. *)
Record storable (s : state) (f : FLD_REC_TYPE) : Prop := {
  sf_alias : alias_of_fld_id f < 0;
  sf_ddir : ddir_ok s (ddir_id f);
  sf_dict : dict_tbl_id f < 0;
  sf_parent : parent_id f < 0;
  sf_nn : nn_fld_id f < 0;
  sf_aux : auxtype f = undef;
  sf_name : used f -> chk_fld_name (Some (name f)) 0 = Ok tt;
  sf_tbl : used f -> tbl_exists (g_tbls s) (tbl_id f);
  sf_unique j g : used f -> g_flds s !z j = Some g -> tbl_id g = tbl_id f -> name g <> name f
}.

Section stored.
Context (s : state) (i : Z) (f0 f : FLD_REC_TYPE).
Context (Hwf : wf s) (Hi : g_flds s !z i = Some f0) (Hfree : ~ used f0) (Hf : storable s f).
Let l := zset (g_flds s) i f.
Let s2 := set_flds (fun _ => l) s.

Lemma stored_lookup j : l !z j = if decide (j = i) then Some f else g_flds s !z j.
Proof. pose proof (zlookup_Some_range _ _ _ Hi). unfold l. by rewrite zlookup_zset. Qed.

(** A used record keeps its place. *)
Lemma stored_used j g : g_flds s !z j = Some g -> used g -> l !z j = Some g.
Proof.
  intros Hg Hu. rewrite stored_lookup. case_decide as E; [|done]. subst j.
  exfalso. apply Hfree. congruence.
Qed.

Lemma stored_wf : wf s2.
Proof.
  pose proof (zlookup_Some_range _ _ _ Hi) as Hr. apply wf_set_flds; [done|apply zlen_zset|..].
  - intros j g. rewrite stored_lookup. case_decide as E.
    + intros [= <-]. split; try apply Hf.
      * intros _. split_and!; apply Hf.
      * intros _. unfold links_ok. rewrite (sf_aux _ _ Hf). split; [apply Hf|].
        pose proof (sf_nn _ _ Hf). lia.
    + intros Hg. apply fld_ok_keep; [by apply wf_fld|]. intros Hu.
      pose proof (fk_links _ _ _ (wf_fld s Hwf j g Hg) Hu) as Hl. unfold links_ok in *.
      destruct (auxtype g).
      * destruct Hl as [? Hl]. split; [done|]. intros Hge. destruct (Hl Hge) as (h & Hh & Hof).
        exists h. split; [|done]. apply stored_used; [done|apply Hof].
      * destruct Hl as (? & ? & p & Hp & Hpu & Hrest). split_and!; [done..|]. exists p.
        split; [|done]. by apply stored_used.
  - intros j k g h. rewrite !stored_lookup.
    destruct (decide (j = i)) as [->|], (decide (k = i)) as [->|]; try done.
    + intros [= <-] Hh Ht Hn Hu. by destruct (sf_unique s f Hf k h Hu Hh).
    + intros Hg [= <-] Ht Hn Hu. destruct (sf_unique s f Hf j g); auto. unfold used in *. congruence.
    + intros Hg Hh Ht Hn Hu. by eapply (wf_fld_unique s Hwf).
Qed.

Lemma stored_has_fld ti j fn g :
  has_fld s2 ti j fn g <->
  has_fld s ti j fn g \/ (j = i /\ g = f /\ used f /\ tbl_id f = ti /\ name f = fn).
Proof.
  unfold has_fld. simpl. rewrite stored_lookup. split.
  - case_decide as E; [|by left]. intros (Hg & Ht & Hn & Hne & Ha). right.
    assert (g = f) as -> by congruence. split_and!; auto. unfold used. congruence.
  - intros [(Hg & Ht & Hn & Hne & Ha)|(-> & -> & Hu & <- & <-)].
    + split_and!; auto. rewrite <- stored_lookup. apply stored_used; [done|]. unfold used. congruence.
    + rewrite decide_True by done. split_and!; auto. apply Hf.
Qed.

Lemma stored_info ti j fn g : has_fld s ti j fn g -> info_of l g = info_of (g_flds s) g.
Proof.
  intros (Hg & Ht & Hn & Hne & Ha). unfold info_of. f_equal.
  destruct (Z.leb_spec 0 (nn_fld_id g)) as [Hge|]; [|done].
  destruct (nn_same_tbl s j g Hwf Hg Ha Hge) as (h & Hh & Hof). rewrite Hh.
  by rewrite (stored_used _ h Hh (nn_used _ _ _ Hof)).
Qed.

Lemma stored_abs_free : ~ used f -> cat_eq (abs s2) (abs s).
Proof.
  intros Hu. pose proof stored_wf as Hwf2. split; [by apply same_c_tbl|]. intros tn fn.
  apply (flds_abs_at s s2 Hwf Hwf2 eq_refl). intros ti t Ht. split.
  - intros j g Hg. exists g. split; [by apply stored_has_fld; left|]. by eapply stored_info.
  - intros j g Hg. apply stored_has_fld in Hg as [Hg|(_ & _ & ? & _)]; [by exists g|done].
Qed.

Lemma stored_abs tn t :
  used f -> has_tbl s (tbl_id f) tn t ->
  cat_eq (abs s2) (a_set_fld tn (name f) (Some (info_of l f)) (abs s)).
Proof.
  intros Hu Ht. pose proof stored_wf as Hwf2.
  apply (flds_abs s s2 Hwf Hwf2 eq_refl (tbl_id f) tn t); [done|..].
  - intros ti j fn g _ Hg. exists g. split; [by apply stored_has_fld; left|]. by eapply stored_info.
  - intros ti j fn g Hne Hg. apply stored_has_fld in Hg as [Hg|(_ & _ & _ & <- & <-)]; [by exists g|].
    by destruct Hne.
  - eapply (c_fld_is s s2 Hwf2 eq_refl); [exact Ht|]. apply stored_has_fld. right. by split_and!.
Qed.
End stored.

(** ** Checking the file of a new field *)

(** The directory the process is in after [chdir_ddir]. *)
Definition dir_after (s : state) (id : Z) : string :=
  match (if id <? 0 then g_data_dir s else g_ddirs s !z id) with
  | Some d => if decide (d ∈ dirs s) then d else cwd s
  | None => cwd s
  end.

Lemma set_cwd_id s : set_cwd (cwd s) s = s.
Proof. by destruct s. Qed.

Lemma chdir_ddir_exact id (Q : unit -> state -> Prop) E s :
  id < g_n_ddir s -> (~ ddir_ok s id -> E s) ->
  (ddir_ok s id -> Q tt (set_cwd (dir_after s id) s)) -> wp (chdir_ddir id) Q E s.
Proof.
  intros Hid HE HQ. unfold chdir_ddir, dir_after, ddir_ok in *.
  destruct (Z.ltb_spec id 0) as [Hneg|Hge].
  - repeat wp_step. unfold wp, chdir. destruct (g_data_dir s) as [d|].
    + destruct (decide (d ∈ dirs s)); rewrite ?set_cwd_id in HQ; apply HQ; lia.
    + rewrite set_cwd_id in HQ. apply HQ. lia.
  - destruct (zlookup_is_Some (g_ddirs s) id) as (d & Hd); [unfold g_n_ddir in *; lia|].
    rewrite Hd in *. wp_step. unfold wp at 1, rd_ddir, rd. rewrite Hd. simpl. wp_step. wp_step.
    + apply HE. intros H2. destruct (H2 Hge) as (d' & [= <-] & Hne). by apply Hne, strcmp_eq_spec.
    + assert (0 <= id -> exists d0, Some d = Some d0 /\ d0 <> ""%string) as Hok.
      { intros _. exists d. split; [done|]. by apply strcmp_eq_false. }
      specialize (HQ Hok). unfold wp, chdir. destruct (decide (d ∈ dirs s)); [done|].
      by rewrite set_cwd_id in HQ.
Qed.

(** A file of [nbytes] bytes holds [nR] values of type [ft]. *)
Definition fits (nbytes nR : Z) (ft : FLD_TYPE) : Prop :=
  match ft with
  | clob => True
  | B => get_file_size_B nR = Ok nbytes
  | _ => exists sz, get_fld_sz ft = Ok sz /\ nbytes = sz * nR
  end.
Definition file_fits (s : state) (file : string) (nR : Z) (ft : FLD_TYPE) : Prop :=
  ft = clob \/ exists X, fs s !! path s file = Some X /\ 0 < zlen X /\ fits (zlen X) nR ft.

Lemma get_file_size_B_cases nR : get_file_size_B nR = Err \/ exists b, get_file_size_B nR = Ok b.
Proof. unfold get_file_size_B, go_BYE_if. destruct (nR <=? 0); simpl; eauto. Qed.

Lemma get_fld_sz_bounds ft sz : get_fld_sz ft = Ok sz -> 1 <= sz <= 8.
Proof. destruct ft; simpl; intros [=]; lia. Qed.

Lemma chk_file_size_wp file nR ft (Q : unit -> state -> Prop) E s :
  0 <= nR < 2 ^ 60 -> (~ file_fits s file nR ft -> E s) -> (file_fits s file nR ft -> Q tt s) ->
  wp (chk_file_size file nR ft) Q E s.
Proof.
  intros HnR HE HQ. unfold chk_file_size. unfold file_fits in *.
  destruct (decide (ft = clob)) as [->|Hc]; [apply HQ; by left|].
  wp_step. unfold wp at 1, rs_mmap. destruct (fs s !! path s file) as [X|].
  2: { apply HE. by intros [?|(X & ? & _)]. }
  pose proof (zlen_nonneg X) as Hlen. wp_step. wp_step.
  { apply HE. intros [?|(Y & [= <-] & ? & _)]; [done|lia]. }
  destruct (decide (ft = B)) as [->|Hb].
  - wp_step. destruct (get_file_size_B_cases nR) as [Hr|(b & Hr)].
    + apply wp_lift_Err; [done|]. apply HE. intros [?|(Y & _ & _ & Hf)]; [done|].
      simpl in Hf. congruence.
    + apply (wp_lift_Ok _ b); [done|]. wp_step.
      * apply HE. intros [?|(Y & [= <-] & _ & Hf)]; [done|]. simpl in Hf.
        assert (b = zlen X) by congruence. lia.
      * apply HQ. right. exists X. split_and!; [done|lia|]. simpl. rewrite Hr. f_equal. lia.
  - assert (fits (zlen X) nR ft <-> exists sz, get_fld_sz ft = Ok sz /\ zlen X = sz * nR) as Hfits
      by (by destruct ft).
    wp_step. destruct (get_fld_sz ft) as [sz| | |] eqn:Hsz; [| |by destruct ft..].
    + apply (wp_lift_Ok _ sz); [done|]. apply get_fld_sz_bounds in Hsz.
      wp_step. apply wp_stuck_if; [unfold LLONG_MAX, LLONG_MIN; nia|].
      assert (wrapU 64 (sz * nR) = sz * nR) as Hw by (apply wrapU_small; unfold inU; nia).
      wp_step; rewrite Hw in *.
      * apply HE. intros [?|(Y & [= <-] & _ & Hf)]; [done|].
        apply Hfits in Hf as (sz' & [= <-] & ?). lia.
      * apply HQ. right. exists X. split_and!; [done|lia|]. apply Hfits. exists sz. split; [done|lia].
    + apply wp_lift_Err; [done|]. apply HE. intros [?|(Y & [= <-] & _ & Hf)]; [done|].
      by apply Hfits in Hf as (sz' & ? & _).
Qed.

Lemma chk_fld_name_cases n : chk_fld_name (Some n) 0 = Ok tt \/ chk_fld_name (Some n) 0 = Err.
Proof.
  unfold chk_fld_name, go_BYE_if. destruct (strcmp_eq n "" || _); simpl; [by right|].
  destruct (negb _); simpl; auto.
Qed.

Lemma chk_fld_name_Ok n :
  chk_fld_name (Some n) 0 = Ok tt -> n <> ""%string /\ strlen n <= MAX_LEN_FLD_NAME.
Proof.
  unfold chk_fld_name, go_BYE_if. destruct (strcmp_eq n "") eqn:E; [done|].
  destruct (Z.ltb_spec MAX_LEN_FLD_NAME (strlen n)); [done|]. intros _.
  split; [|done]. by apply strcmp_eq_false.
Qed.

(** ** Adding a field *)

Definition bad_record (ft : FLD_TYPE) (len : Z) (file : string) : Prop :=
  (0 <= len /\ (ft <> clob \/ len < 2)) \/ MAX_LEN_FILE_NAME < strlen file.

Definition added_fld (tid : Z) (n : string) (ddir : Z) (file : string) (ft : FLD_TYPE) (len : Z)
    : FLD_REC_TYPE :=
  fld_set_name n (fld_set_file ddir file
    (fld_set_cnt (if len <? 0 then -1 else len) (new_fld_rec tid ft))).

Lemma upd_fld_set s l i f F (Q : unit -> state -> Prop) E :
  0 <= i < zlen l ->
  Q tt (set_flds (fun _ => zset l i (F f)) s) ->
  wp (upd_fld i F) Q E (set_flds (fun _ => zset l i f) s).
Proof.
  intros Hi HQ. apply (wp_upd_fld _ f); [by apply zlookup_zset_eq|].
  unfold set_flds in *. simpl. by rewrite zset_zset.
Qed.

Lemma store_fld_wp s tid n ddir file ft len i f0 (Q : unit -> state -> Prop) (E : state -> Prop) :
  g_flds s !z i = Some f0 -> chk_fld_name (Some n) 0 = Ok tt -> ddir_ok s ddir ->
  (~ bad_record ft len file ->
     Q tt (set_flds (fun _ => zset (g_flds s) i (added_fld tid n ddir file ft len)) s)) ->
  (bad_record ft len file -> forall f, storable s f -> ~ used f ->
     E (set_flds (fun _ => zset (g_flds s) i f) s)) ->
  wp (store_fld i tid n ddir file ft len) Q E s.
Proof.
  intros Hi Hn Hd HQ HE. pose proof (zlookup_Some_range _ _ _ Hi) as Hr.
  assert (forall c, storable s (fld_set_cnt c (new_fld_rec tid ft)) /\
    ~ used (fld_set_cnt c (new_fld_rec tid ft))) as Hghost.
  { intros c. split; [|by intros Hu; apply Hu].
    split; try done; try (by intros Hu; destruct Hu); by intros ? ? Hu; destruct Hu. }
  set (sf f := set_flds (fun _ => zset (g_flds s) i f) s).
  unfold store_fld. wp_step. apply wp_wr_fld; [done|]. wp_step.
  change (set_flds (fun l => zset l i (new_fld_rec tid ft)) s) with (sf (new_fld_rec tid ft)).
  apply (wp_mono _
    (fun _ s' => s' = sf (fld_set_cnt (if len <? 0 then -1 else len) (new_fld_rec tid ft)) /\
                 ~ (0 <= len /\ (ft <> clob \/ len < 2))) _ E).
  - destruct (Z.ltb_spec len 0) as [Hlen|Hlen].
    + apply upd_fld_set; [done|]. split; [done|]. lia.
    + assert (forall (P : ft <> clob \/ len < 2), E (sf (new_fld_rec tid ft))) as Hbad.
      { intros P. apply HE; [left; by split|apply (Hghost LLONG_MIN)..]. }
      wp_step. wp_step.
      { apply Hbad. left. match goal with H : negb _ = true |- _ =>
          by apply negb_true_iff, bool_decide_eq_false in H end. }
      wp_step. wp_step; [apply Hbad; right; lia|].
      match goal with H : negb _ = false |- _ =>
        apply negb_false_iff, bool_decide_eq_true in H end.
      apply upd_fld_set; [done|]. split; [done|]. intros [_ [?|?]]; [done|lia].
  - intros [] ? [-> Hlen]. wp_step. wp_step.
    { apply HE; [right; lia|apply Hghost..]. }
    wp_step. apply upd_fld_set; [done|]. wp_step. wp_step.
    { apply chk_fld_name_Ok in Hn. lia. }
    apply upd_fld_set; [done|]. apply HQ. intros [?|?]; [done|lia].
  - done.
Qed.

(** Why [add_fld] leaves the catalog as it was. *)
Definition cannot_add (s : state) (tid : Z) (t : TBL_REC_TYPE) (n : string) (ddir : Z)
    (file : string) (ft : FLD_TYPE) : Prop :=
  chk_fld_name (Some n) 0 = Err \/ ~ ddir_ok s ddir \/
  ~ file_fits (set_cwd (dir_after s ddir) s) file (t_nR t) ft \/
  (exists i f, g_flds s !z i = Some f /\ tbl_id f = tid /\ name f = n /\ auxtype f = nn) \/
  (forall i f, g_flds s !z i = Some f -> used f).

(** Field [n] of table [tid] is not there, slot [i] is free. *)
Record ready_for (s s' : state) (tid : Z) (tn n : string) (i : Z) : Prop := {
  rf_wf : wf s';
  rf_tbls : g_tbls s' = g_tbls s;
  rf_ddirs : g_ddirs s' = g_ddirs s;
  rf_free : exists f0, g_flds s' !z i = Some f0 /\ ~ used f0;
  rf_none j g : g_flds s' !z j = Some g -> tbl_id g = tid -> name g <> n;
  rf_abs : cat_eq (abs s') (a_set_fld tn n None (abs s))
}.

Lemma make_room_wp usec s tid tn t n (Q : Z -> state -> Prop) (E : state -> Prop) :
  wf s -> has_tbl s tid tn t -> n <> ""%string ->
  ((exists i f, g_flds s !z i = Some f /\ tbl_id f = tid /\ name f = n /\ auxtype f = nn) -> E s) ->
  ((forall i f, g_flds s !z i = Some f -> used f) -> E s) ->
  (forall i s', ready_for s s' tid tn n i -> Q i s') ->
  wp (make_room usec tid (Some n)) Q E s.
Proof.
  intros Hwf Ht Hn HE1 HE2 HQ. pose proof (zlookup_Some_range _ _ _ (proj1 Ht)) as Htid.
  unfold make_room. wp_step. apply (is_fld_wp s Hwf); [lia|..].
  - intros i f g Hf Htf Hnf _. pose proof (zlookup_Some_range _ _ _ Hf).
    cbn beta iota. rewrite (proj2 (Z.leb_le 0 i)) by lia. wp_step.
    destruct (auxtype f) eqn:Ha.
    + apply (del_fld_wp s None tid None i true f); auto; [lia|]. intros s' Hs'. wp_step. apply HQ.
      pose proof (nn_lt s i f Hwf Hf). pose proof (fo_flds _ _ Hs') as Efl. simpl in Efl.
      split.
      * eapply files_only_wf; [exact Hs'|by apply del_slots_wf].
      * apply (fo_tbls _ _ Hs').
      * apply (fo_ddirs _ _ Hs').
      * exists zero_fld_rec. rewrite Efl, lookup_del_slots, decide_True by auto.
        split; [done|apply not_used_zero].
      * intros j h. rewrite Efl, lookup_del_slots by done.
        destruct (decide _) as [|Hj]; intros Hh Hth Hnh.
        { assert (h = zero_fld_rec) as -> by congruence. by destruct Hn. }
        destruct Hj. left. apply (wf_fld_unique s Hwf j i h f); unfold used; congruence.
      * rewrite (files_only_abs _ _ Hs'). apply (del_slots_abs s tid tn t i n f); [done|done|].
        by split_and!.
    + apply (del_fld_aux_wp s None tid None i f); auto; [lia|]. apply HE1. by exists i, f.
  - intros Hno. unfold no_fld. change (0 <=? INT_MIN) with false. cbn iota.
    apply (get_empty_fld_wp s Hwf); [|done]. intros i f0 Hi Hfree. apply HQ.
    split; [done|done|done|by exists f0|exact Hno|].
    apply a_del_fld_absent, (c_fld_none s s Hwf Hwf eq_refl tid tn t); [done|].
    intros i' f (Hf & Htf & Hnf & _). by apply (Hno i' f).
Qed.

(** [a_set_fld] twice at the same place. *)
Lemma a_set_set tn n d d' C C' :
  cat_eq C (a_set_fld tn n d' C') -> cat_eq (a_set_fld tn n d C) (a_set_fld tn n d C').
Proof.
  intros [H1 H2]. split; unfold a_set_fld in *; cbn [c_tbl c_fld] in *; [done|].
  intros tn' fn. rewrite H2. destruct (decide _); done.
Qed.

(** Claim C6. [add_fld], from a well-formed catalog and for a table that
    exists: on success the catalog is well-formed, the data file had the size
    that the type and the row count ask for, and the abstract catalog has
    gained exactly this field, with its type and file and without nn field, in
    place of a field of that name if there was one.  It fails only because of
    the name, the directory, the file, an nn field of that name or a full
    table, and then the catalog is as before, or because of the length or a
    file name that is too long, and then a field of that name is gone. *)
Theorem add_fld_correct (s : state) (usec tid : Z) (tn : string) (t : TBL_REC_TYPE)
    (n : string) (ddir : Z) (file : string) (ft : FLD_TYPE) (len : Z) :
  wf s -> has_tbl s tid tn t -> t_nR t < 2 ^ 60 -> ddir < g_n_ddir s ->
  wp (add_fld usec tid (Some n) ddir file ft len)
    (fun i s' => wf s' /\ (exists f, has_fld s' tid i n f) /\
       file_fits (set_cwd (dir_after s ddir) s) file (t_nR t) ft /\
       cat_eq (abs s') (a_set_fld tn n
         (Some {| fi_type := ft; fi_sort := unknown; fi_data := (ddir, file); fi_nn := None |})
         (abs s)))
    (fun s' => wf s' /\
       (cat_eq (abs s') (abs s) /\ cannot_add s tid t n ddir file ft \/
        cat_eq (abs s') (a_set_fld tn n None (abs s)) /\ bad_record ft len file)) s.
Proof.
  intros Hwf Ht HnR Hdd. pose proof (zlookup_Some_range _ _ _ (proj1 Ht)) as Htid.
  unfold cannot_add, add_fld. wp_step. wp_step; [lia|]. wp_step.
  wp_step. { split; [done|]. left. split; [done|]. left. by destruct n. }
  wp_step. destruct (chk_fld_name_cases n) as [Hc|Hc].
  2: { apply wp_lift_Err; [done|]. split; [done|]. left. split; [done|]. by left. }
  apply (wp_lift_Ok _ tt); [done|]. pose proof (chk_fld_name_Ok n Hc) as [Hn _].
  wp_step. apply chdir_ddir_exact; [done| |].
  { intros Hd. split; [done|]. left. split; [done|]. auto. }
  intros Hdok. set (s1 := set_cwd _ s).
  assert (files_only s s1) as H1 by apply files_only_cwd.
  wp_step. apply (wp_rd_tbl _ t); [apply Ht|]. wp_step.
  apply chk_file_size_wp; [split; [by apply (wf_tbl_nR s Hwf tid t), Ht|done]|..].
  { intros Hfits. split; [by eapply files_only_wf|]. left. rewrite (files_only_abs s s1 H1).
    split; [done|]. auto. }
  intros Hfits. wp_step. unfold chdir_back. wp_step. wp_step. apply chdir_wp. intros s2 H2 _.
  assert (files_only s s2) as H12 by (by etrans).
  pose proof (files_only_wf _ _ H12 Hwf) as Hwf2. pose proof (files_only_abs _ _ H12) as Ha2.
  assert (has_tbl s2 tid tn t) as Ht2 by (by apply same_has_tbl with (s := s); [apply H12|]).
  pose proof (fo_flds _ _ H12) as Efl.
  wp_step. apply (make_room_wp usec s2 tid tn t n); auto.
  - rewrite Efl, Ha2. intros He. split; [done|]. left. split; [done|]. auto.
  - rewrite Efl, Ha2. intros He. split; [done|]. left. split; [done|]. auto 6.
  - intros i s3 [Hwf3 Htb3 Hdd3 (f0 & Hf0 & Hfree) Hnone Habs3]. wp_step. rewrite Ha2 in Habs3.
    assert (has_tbl s3 tid tn t) as Ht3 by (by apply same_has_tbl with (s := s2)).
    assert (ddir_ok s3 ddir) as Hd3.
    { unfold ddir_ok. rewrite Hdd3, (fo_ddirs _ _ H12). exact Hdok. }
    apply (store_fld_wp s3 tid n ddir file ft len i f0); auto.
    + intros Hgood. wp_step. set (f := added_fld tid n ddir file ft len).
      assert (storable s3 f) as Hst.
      { split; try done; [by exists t; destruct Ht3 as (? & <- & ?)|]. intros j g _ Hj. by apply (Hnone j). }
      split_and!; [by apply (stored_wf s3 i f0)| |done|].
      * exists f. apply (stored_has_fld s3 i f0 f); auto. right. by split_and!.
      * etrans; [apply (stored_abs s3 i f0 f Hwf3 Hf0 Hfree Hst tn t); done|].
        by apply (a_set_set tn n _ None).
    + intros Hbad f Hst Hu. split; [by apply (stored_wf s3 i f0)|]. right. split; [|done].
      etrans; [|exact Habs3]. by apply (stored_abs_free s3 i f0).
Qed.

(** ** Renaming a record *)

Lemma links_ok_rename flds i m f : links_ok flds i f -> links_ok flds i (fld_set_name m f).
Proof.
  unfold links_ok. simpl. destruct (auxtype f); [|done]. intros [? Hl]. split; [done|].
  intros Hge. destruct (Hl Hge) as (g & ? & [? ? ? ?]). by exists g.
Qed.

Section renamed.
Context (s : state) (i : Z) (f : FLD_REC_TYPE) (m : string).
Context (Hwf : wf s) (Hi : g_flds s !z i = Some f) (Hused : used f).
Context (Hm : chk_fld_name (Some m) 0 = Ok tt).
Context (Huniq : forall j g, j <> i -> g_flds s !z j = Some g -> tbl_id g = tbl_id f -> name g <> m).
Let f' := fld_set_name m f.
Let l := zset (g_flds s) i f'.
Let s2 := set_flds (fun _ => l) s.

Lemma renamed_lookup j : l !z j = if decide (j = i) then Some f' else g_flds s !z j.
Proof. pose proof (zlookup_Some_range _ _ _ Hi). unfold l. by rewrite zlookup_zset. Qed.

Lemma renamed_used : used f'.
Proof. by apply chk_fld_name_Ok in Hm as [? _]. Qed.

(** Only the name of a record changes. *)
Lemma renamed_rec j g : g_flds s !z j = Some g ->
  exists g', l !z j = Some g' /\ (used g -> used g') /\ auxtype g' = auxtype g /\
    parent_id g' = parent_id g /\ tbl_id g' = tbl_id g /\ nn_fld_id g' = nn_fld_id g /\
    data_of g' = data_of g.
Proof.
  intros Hg. rewrite renamed_lookup. destruct (decide (j = i)) as [->|].
  - exists f'. assert (g = f) as -> by congruence. split_and!; try done. intros _. apply renamed_used.
  - exists g. by split_and!.
Qed.

Lemma renamed_links j g : links_ok (g_flds s) j g -> links_ok l j g.
Proof.
  unfold links_ok. destruct (auxtype g).
  - intros [? Hl]. split; [done|]. intros Hge. destruct (Hl Hge) as (h & Hh & [? ? ? ?]).
    destruct (renamed_rec _ h Hh) as (h' & ? & ? & ? & ? & ? & _). exists h'. split; [done|].
    split; try congruence. auto.
  - intros (? & ? & p & Hp & ? & ? & ?). split_and!; [done..|].
    destruct (renamed_rec _ p Hp) as (p' & ? & ? & ? & ? & ? & ? & _). exists p'.
    split_and!; try congruence. auto.
Qed.

Lemma renamed_wf : wf s2.
Proof.
  apply wf_set_flds; [done|apply zlen_zset|..].
  - intros j g. rewrite renamed_lookup. case_decide as E.
    + intros [= <-]. subst j. destruct (wf_fld s Hwf i f Hi) as [? ? ? ? ? Hl].
      split; [done|done|by intros []; apply renamed_used|done|auto|].
      intros _. apply renamed_links, links_ok_rename. exact (Hl Hused).
    + intros Hg. apply fld_ok_keep; [by apply wf_fld|]. intros Hu.
      apply renamed_links. by apply (wf_fld s Hwf).
  - intros j k g h. rewrite !renamed_lookup.
    destruct (decide (j = i)) as [->|Hj], (decide (k = i)) as [->|Hk]; try done.
    + intros [= <-] Hh Ht Hn Hu. by destruct (Huniq k h Hk Hh).
    + intros Hg [= <-] Ht Hn Hu. by destruct (Huniq j g Hj Hg).
    + intros Hg Hh Ht Hn Hu. by eapply (wf_fld_unique s Hwf).
Qed.

Lemma renamed_info g : info_of l g = info_of (g_flds s) g.
Proof.
  unfold info_of. f_equal. destruct (0 <=? nn_fld_id g); [|done].
  rewrite renamed_lookup. case_decide as E; [|done]. by rewrite E, Hi.
Qed.

Lemma renamed_has_fld ti j fn g :
  has_fld s2 ti j fn g <->
  (j <> i /\ has_fld s ti j fn g) \/
  (j = i /\ g = f' /\ fn = m /\ tbl_id f = ti /\ auxtype f = undef).
Proof.
  unfold has_fld. simpl. rewrite renamed_lookup. case_decide as E.
  - split; [|by intros [[? _]|(_ & -> & -> & <- & ?)]; [|split_and!; auto; apply renamed_used]].
    intros (Hg & Ht & Hn & Hne & Ha). right. assert (g = f') as -> by congruence. by split_and!.
  - split; [by left|]. intros [[_ ?]|[? _]]; done.
Qed.

(** The name of an nn field is not in the abstract catalog. *)
Lemma renamed_aux_abs : auxtype f = nn -> cat_eq (abs s2) (abs s).
Proof.
  intros Ha. pose proof renamed_wf as Hwf2. split; [by apply same_c_tbl|]. intros tn fn.
  apply (flds_abs_at s s2 Hwf Hwf2 eq_refl). intros ti t Ht. split.
  - intros j g Hg. exists g. split; [|apply renamed_info]. apply renamed_has_fld. left.
    split; [|done]. intros ->. destruct Hg as (? & _ & _ & _ & ?). congruence.
  - intros j g Hg. apply renamed_has_fld in Hg as [[_ Hg]|(_ & _ & _ & _ & ?)]; [by exists g|congruence].
Qed.

Lemma renamed_abs tn t :
  auxtype f = undef -> has_tbl s (tbl_id f) tn t -> name f <> m ->
  cat_eq (abs s2) (a_rename_fld tn (name f) m (abs s)).
Proof.
  intros Ha Ht Hd. pose proof renamed_wf as Hwf2.
  assert (has_fld s (tbl_id f) i (name f) f) as Hf by done.
  split; [by apply same_c_tbl|]. intros tn' fn. unfold a_rename_fld. cbn [c_fld].
  destruct (decide (tn' = tn)) as [->|Htn]; [destruct (decide (fn = m)) as [->|Hfn];
    [|destruct (decide (fn = name f)) as [->|Hfn2]]|].
  - rewrite (c_fld_is s s Hwf eq_refl _ tn t _ i f Ht Hf).
    rewrite (c_fld_is s s2 Hwf2 eq_refl _ tn t m i f' Ht); [|apply renamed_has_fld; right; by split_and!].
    f_equal. by rewrite <- renamed_info.
  - apply (c_fld_none s s2 Hwf Hwf2 eq_refl _ tn t _ Ht). intros j g Hg.
    apply renamed_has_fld in Hg as [[Hj Hg]|(_ & _ & ? & _)]; [|done].
    by destruct (has_fld_unique s _ _ _ _ _ _ Hwf Hf Hg) as [<- _].
  - apply (flds_abs_at s s2 Hwf Hwf2 eq_refl). intros ti u Hu. split.
    + intros j g Hg. exists g. split; [|apply renamed_info]. apply renamed_has_fld. left.
      split; [|done]. intros ->. destruct Hg as (? & _ & ? & _). congruence.
    + intros j g Hg. apply renamed_has_fld in Hg as [[_ Hg]|(_ & _ & ? & _)]; [by exists g|done].
  - apply (flds_abs_at s s2 Hwf Hwf2 eq_refl). intros ti u Hu. split.
    + intros j g Hg. exists g. split; [|apply renamed_info]. apply renamed_has_fld. left.
      split; [|done]. intros ->. destruct Htn, Hg as (Hg & Hti & _), Hu as (Hu & <- & _), Ht as (Ht & <- & _).
      congruence.
    + intros j g Hg. apply renamed_has_fld in Hg as [[_ Hg]|(_ & _ & _ & Hti & _)]; [by exists g|].
      destruct Htn, Hu as (Hu & <- & _), Ht as (Ht & <- & _). congruence.
Qed.
End renamed.

Lemma chk_nn_name n :
  chk_fld_name (Some n) 0 = Ok tt -> strlen n + strlen "_nn_" <= MAX_LEN_FLD_NAME ->
  chk_fld_name (Some ("_nn_" +:+ n)%string) 0 = Ok tt /\ ("_nn_" +:+ n)%string <> n.
Proof.
  intros Hn Hlen. split.
  - unfold chk_fld_name, go_BYE_if in *. destruct (strcmp_eq n "" || _); simpl in Hn; [done|].
    rewrite strlen_app. simpl strcmp_eq. simpl orb.
    destruct (Z.ltb_spec MAX_LEN_FLD_NAME (strlen "_nn_" + strlen n)); [lia|]. simpl.
    change ("" +:+ n)%string with n. by destruct (name_chars n).
  - intros E. apply (f_equal strlen) in E. rewrite strlen_app in E. change (strlen "_nn_") with 4 in E. lia.
Qed.

Lemma mk_nn_name n :
  chk_fld_name (Some ("_nn_" +:+ n)%string) 0 = Ok tt ->
  strlen n + strlen "_nn_" <= MAX_LEN_FLD_NAME ->
  mk_name_aux_fld (Some n) nn = Ok ("_nn_" +:+ n)%string.
Proof.
  intros Hc Hlen. unfold mk_name_aux_fld, go_BYE_if. rewrite (proj2 (Z.ltb_ge _ _)) by lia.
  change (Ok tt ≫= ?f) with (f tt). cbn beta.
  assert (starts_with "_nn_" ("_nn_" +:+ n)%string = true) as Hs by (apply starts_with_spec; by exists n).
  unfold chk_fld_name, go_BYE_if in *. rewrite Hs. change (1 =? 0) with false. change (1 =? 1) with true.
  destruct (strcmp_eq ("_nn_" +:+ n)%string "" || _); [done|].
  change (Ok tt ≫= ?f) with (f tt) in *. cbn beta in *. by destruct (negb (name_chars _)).
Qed.

(** Before a field of table [tid] takes the name [new], the field that has the
    name is deleted; [f] in slot [i] is another primary field of the table. *)
Record cleared_name (s s' : state) (tid : Z) (tn new : string) (i : Z) (f : FLD_REC_TYPE) : Prop := {
  cn_wf : wf s';
  cn_tbls : g_tbls s' = g_tbls s;
  cn_n : g_n_fld s' = g_n_fld s;
  cn_f : g_flds s' !z i = Some f;
  cn_old j g : g_flds s' !z j = Some g -> used g ->
    g_flds s !z j = Some g /\
    forall k h, has_fld s tid k new h -> j = nn_fld_id h -> nn_fld_id h < 0;
  cn_none j g : g_flds s' !z j = Some g -> used g -> tbl_id g = tid -> name g <> new;
  cn_abs : cat_eq (abs s') (a_set_fld tn new None (abs s))
}.

Lemma clear_name_del s s' tid tn t new i f k h :
  wf s -> has_tbl s tid tn t -> has_fld s tid i (name f) f -> name f <> new ->
  has_fld s tid k new h -> with_flds s (del_slots (g_flds s) k (nn_fld_id h)) s' ->
  cleared_name s s' tid tn new i f.
Proof.
  intros Hwf Ht Hf Hd Hh Hs'. pose proof Hh as (Hk & Htk & Hnk & Hnew & Hak).
  pose proof Hf as (Hi & Hti & _ & Hne & Hai).
  pose proof (zlookup_Some_range _ _ _ Hk). pose proof (nn_lt s k h Hwf Hk).
  pose proof (fo_flds _ _ Hs') as E. simpl in E. split.
  - eapply files_only_wf; [exact Hs'|by apply del_slots_wf].
  - apply (fo_tbls _ _ Hs').
  - unfold g_n_fld. by rewrite E, zlen_del_slots.
  - rewrite E, lookup_del_slots by done. rewrite decide_False; [done|]. intros [->|[Hge ->]].
    + congruence.
    + destruct (nn_same_tbl s k h Hwf Hk Hak Hge) as (g & Hg & Hof).
      pose proof (nn_aux _ _ _ Hof). congruence.
  - intros j g. rewrite E, lookup_del_slots by done. destruct (decide _) as [|Hj].
    { intros Hz Hu. assert (g = zero_fld_rec) as -> by congruence. by destruct not_used_zero. }
    intros Hg _. split; [done|]. intros k' h' Hh'.
    destruct (has_fld_unique s _ _ _ _ _ _ Hwf Hh Hh') as [<- <-]. intros ->.
    apply Z.nle_gt. intros Hge. by destruct Hj; right.
  - intros j g. rewrite E, lookup_del_slots by done. destruct (decide _) as [|Hj].
    { intros Hz Hu. assert (g = zero_fld_rec) as -> by congruence. by destruct not_used_zero. }
    intros Hg Hu Htg Hng. destruct Hj. left. apply (wf_fld_unique s Hwf j k g h); congruence.
  - rewrite (files_only_abs _ _ Hs'). by apply (del_slots_abs s tid tn t k new h).
Qed.

Lemma clear_name_none s tid tn t new i f :
  wf s -> has_tbl s tid tn t -> g_flds s !z i = Some f ->
  (forall j g, g_flds s !z j = Some g -> tbl_id g = tid -> name g <> new) ->
  cleared_name s s tid tn new i f.
Proof.
  intros Hwf Ht Hi Hno. split; [done|done|done|done| | |].
  - intros j g Hg _. split; [done|]. intros k h (Hk & Htk & Hnk & _). by destruct (Hno k h).
  - intros j g Hg _. exact (Hno j g Hg).
  - apply a_del_fld_absent, (c_fld_none s s Hwf Hwf eq_refl tid tn t); [done|].
    intros j g (Hg & Htg & Hng & _). by apply (Hno j g).
Qed.

Lemma a_rename_after_del tn old new C C' :
  cat_eq C (a_set_fld tn new None C') -> old <> new ->
  cat_eq (a_rename_fld tn old new C) (a_rename_fld tn old new C').
Proof.
  intros [H1 H2] Hd. split; unfold a_rename_fld, a_set_fld in *; cbn [c_tbl c_fld] in *; [done|].
  intros tn' fn. rewrite !H2.
  destruct (decide (tn' = tn)) as [->|Ht].
  - destruct (decide (fn = new)) as [->|]; [rewrite decide_False by (intros [? ?]; congruence); done|].
    destruct (decide (fn = old)); [done|]. by rewrite decide_False by (intros [? ?]; congruence).
  - by rewrite decide_False by (intros [? ?]; congruence).
Qed.

(** The last part of [rename_fld]: the name of the field and of its nn field. *)
Lemma rename_stores_wp s s2 tid tn t new i f (Q : unit -> state -> Prop) (E : state -> Prop) :
  wf s -> has_tbl s tid tn t -> has_fld s tid i (name f) f -> name f <> new ->
  chk_fld_name (Some new) 0 = Ok tt ->
  (forall j g, g_flds s !z j = Some g -> tbl_id g = tid -> name g = ("_nn_" +:+ new)%string ->
     0 <= nn_fld_id f -> j = nn_fld_id f \/ exists k h, has_fld s tid k new h /\ j = nn_fld_id h) ->
  cleared_name s s2 tid tn new i f ->
  (forall s', wf s' -> cat_eq (abs s') (a_rename_fld tn (name f) new (abs s)) -> Q tt s') ->
  (forall s', wf s' -> cat_eq (abs s') (a_rename_fld tn (name f) new (abs s)) ->
     0 <= nn_fld_id f -> MAX_LEN_FLD_NAME < strlen new + strlen "_nn_" -> E s') ->
  wp (upd_fld i (fld_set_name new);;
      when (0 <=? nn_fld_id f)
        (fail_if (MAX_LEN_FLD_NAME <? strlen new + strlen "_nn_");;
         upd_fld (nn_fld_id f) (fld_set_name ("_nn_" +:+ new)%string))) Q E s2.
Proof.
  intros Hwf Ht Hf Hd Hnew Hclash [Hwf2 Htb Hn Hi Hold Hnone Habs] HQ HE.
  pose proof Hf as (Hi0 & Hti & _ & Hne & Ha). assert (used f) as Hu by done.
  pose proof (chk_fld_name_Ok new Hnew) as [Hnne _].
  assert (has_tbl s2 (tbl_id f) tn t) as Ht2 by (rewrite Hti; by apply (same_has_tbl s s2)).
  assert (forall j g, j <> i -> g_flds s2 !z j = Some g -> tbl_id g = tbl_id f -> name g <> new) as Huniq.
  { intros j g _ Hg Htg En. apply (Hnone j g Hg); unfold used; congruence. }
  pose proof (renamed_wf s2 i f new Hwf2 Hi Hu Hnew Huniq) as Hwf3.
  pose proof (renamed_abs s2 i f new Hwf2 Hi Hu Hnew Huniq tn t Ha Ht2 Hd) as Habs3.
  assert (cat_eq (abs (set_flds (fun l => zset l i (fld_set_name new f)) s2))
    (a_rename_fld tn (name f) new (abs s))) as Hren.
  { etrans; [exact Habs3|]. by apply a_rename_after_del. }
  wp_step. apply (wp_upd_fld _ f); [done|]. set (s3 := set_flds _ s2) in *.
  wp_step; [|by apply HQ]. wp_step.
  assert (0 <= nn_fld_id f) as Hge by lia. wp_step; [apply HE; auto; lia|].
  destruct (nn_same_tbl s2 i f Hwf2 Hi Ha Hge) as (g & Hg & [Hgu Hga Hgp Hgt]).
  assert (nn_fld_id f <> i) as Hni by congruence.
  pose proof (zlookup_Some_range _ _ _ Hi) as Hr.
  assert (g_flds s3 !z (nn_fld_id f) = Some g) as Hg3.
  { simpl. by rewrite zlookup_zset, decide_False by done. }
  apply (wp_upd_fld _ g); [done|].
  destruct (chk_nn_name new Hnew) as [Hnn Hnn2]; [lia|].
  assert (forall j h, j <> nn_fld_id f -> g_flds s3 !z j = Some h -> tbl_id h = tbl_id g ->
    name h <> ("_nn_" +:+ new)%string) as Huniq3.
  { intros j h Hj. simpl. rewrite zlookup_zset by done. destruct (decide (j = i)) as [->|Hji].
    - intros Hh _ E0. assert (h = fld_set_name new f) as -> by congruence. simpl in E0. congruence.
    - intros Hh Hth E0. destruct (Hold j h Hh) as [Hh0 Hk]; [by intros E1; rewrite E1 in E0|].
      destruct (Hclash j h Hh0) as [?|(k & h' & Hh' & Hjk)]; try congruence.
      specialize (Hk k h' Hh' Hjk). apply zlookup_Some_range in Hh0. lia. }
  apply HQ; [by apply (renamed_wf s3 (nn_fld_id f) g)|].
  etrans; [|exact Hren]. by apply (renamed_aux_abs s3 (nn_fld_id f) g).
Qed.

(** How [rename_fld] may fail. *)
Definition rename_failed (s : state) (tn old new : string) (f : FLD_REC_TYPE) (s' : state) : Prop :=
  wf s' /\
  (s' = s /\ (new = old \/ chk_fld_name (Some new) 0 = Err \/
     exists j g, g_flds s !z j = Some g /\ name g = new /\ auxtype g = nn) \/
   cat_eq (abs s') (a_rename_fld tn old new (abs s)) /\ 0 <= nn_fld_id f /\
     MAX_LEN_FLD_NAME < strlen new + strlen "_nn_").

(** No field but an nn field that goes away has the name of the nn field to be. *)
Definition nn_name_free (s : state) (tid : Z) (f : FLD_REC_TYPE) (new : string) : Prop :=
  forall j g, g_flds s !z j = Some g -> tbl_id g = tid -> name g = ("_nn_" +:+ new)%string ->
    0 <= nn_fld_id f -> j = nn_fld_id f \/ exists k h, has_fld s tid k new h /\ j = nn_fld_id h.

(** [rename_fld] once the ids of the table and of the field are known and the
    field has turned out not to be an nn field. *)
Lemma rename_rest_wp s s2 tid tn t i f new :
  wf s -> has_tbl s tid tn t -> has_fld s tid i (name f) f -> name f <> new ->
  nn_name_free s tid f new ->
  cleared_name s s2 tid tn new i f ->
  (chk_fld_name (Some new) 0 = Err -> s2 = s) ->
  wp (lift (chk_fld_name (Some new) 0);;
      upd_fld i (fld_set_name new);;
      when (0 <=? nn_fld_id f)
        (fail_if (MAX_LEN_FLD_NAME <? strlen new + strlen "_nn_");;
         upd_fld (nn_fld_id f) (fld_set_name ("_nn_" +:+ new)%string)))
    (fun _ s' => wf s' /\ cat_eq (abs s') (a_rename_fld tn (name f) new (abs s)))
    (rename_failed s tn (name f) new f) s2.
Proof.
  intros Hwf Ht Hf Hd Hclash Hok Herr. wp_step. destruct (chk_fld_name_cases new) as [Hc|Hc].
  - apply (wp_lift_Ok _ tt); [done|]. unfold rename_failed.
    apply (rename_stores_wp s s2 tid tn t new i f); auto.
  - apply wp_lift_Err; [done|]. rewrite (Herr Hc). split; [done|]. left. split; [done|]. auto.
Qed.

Lemma rename_found_wp s tid tn t i f new :
  wf s -> has_tbl s tid tn t -> has_fld s tid i (name f) f ->
  nn_name_free s tid f new -> name f <> new -> new <> ""%string ->
  wp ('(new_id, _, _, _) ← is_fld None tid (Some new);
      old ← rd_fld i;
      when (0 <=? parent_id old)
        (p ← rd_fld (parent_id old);
         if nn_fld_id p =? i then
           fail_if (negb (bool_decide (fldtype old = I1)) && negb (bool_decide (fldtype old = B)));;
           wr_fld (parent_id old) (fld_set_nn (-1) p);;
           upd_fld i (fun f => fld_set_links (-1) (nn_fld_id f) undef f)
         else go_BYE);;
      when (0 <=? new_id) (del_fld None tid None new_id true);;
      lift (chk_fld_name (Some new) 0);;
      upd_fld i (fld_set_name new);;
      when (0 <=? nn_fld_id f)
        (fail_if (MAX_LEN_FLD_NAME <? strlen new + strlen "_nn_");;
         upd_fld (nn_fld_id f) (fld_set_name ("_nn_" +:+ new)%string)))
    (fun _ s' => wf s' /\ cat_eq (abs s') (a_rename_fld tn (name f) new (abs s)))
    (rename_failed s tn (name f) new f) s.
Proof.
  intros Hwf Ht Hf Hclash Hd Hnew. pose proof Hf as (Hi & Hti & Hn & Hne & Ha).
  pose proof (zlookup_Some_range _ _ _ (proj1 Ht)) as Htid.
  assert (parent_id f < 0) as Hpar.
  { pose proof (fk_links _ _ _ (wf_fld s Hwf i f Hi) Hne) as Hl. unfold links_ok in Hl.
    rewrite Ha in Hl. apply Hl. }
  wp_step. apply (is_fld_wp s Hwf); [lia|..].
  - intros k h g Hk Htk Hnk _. wp_step. apply (wp_rd_fld _ f); [done|]. wp_step.
    wp_step; [lia|]. wp_step. pose proof (zlookup_Some_range _ _ _ Hk). wp_step; [|lia].
    assert (chk_fld_name (Some new) 0 = Ok tt) as Hc.
    { rewrite <- Hnk. apply (wf_fld s Hwf k h Hk). unfold used. congruence. }
    destruct (auxtype h) eqn:Hah.
    + apply (del_fld_wp s None tid None k true h); auto; [lia|]. intros s2 Hs2.
      apply (rename_rest_wp s s2 tid tn t); auto; [|congruence].
      apply (clear_name_del s s2 tid tn t new i f k h); auto. by split_and!.
    + apply (del_fld_aux_wp s None tid None k h); auto; [lia|]. split; [done|]. left.
      split; [done|]. right; right. by exists k, h.
  - intros Hno. unfold no_fld. wp_step. apply (wp_rd_fld _ f); [done|]. wp_step.
    wp_step; [lia|]. wp_step. wp_step; [done|]. apply (rename_rest_wp s s tid tn t); auto.
    by apply (clear_name_none s tid tn t).
Qed.

(** Claim C22. [rename_fld], from a well-formed catalog, for a field of a table
    that exists and is no nn field, when no third field has the name that its
    nn field gets: on success the catalog is well-formed, the field has the new
    name with its type, file and nn field, and what the new name stood for is
    gone; it fails with the catalog unchanged when the new name is not legal,
    is the old one or that of an nn field, and, with the field renamed but not
    its nn field, when the name of the nn field is too long. *)
Theorem rename_fld_correct (s : state) (tid : Z) (tn : string) (t : TBL_REC_TYPE)
    (i : Z) (f : FLD_REC_TYPE) (old new : string) :
  wf s -> has_tbl s tid tn t -> has_fld s tid i old f -> nn_name_free s tid f new ->
  wp (rename_fld (Some tn) (Some old) (Some new))
    (fun _ s' => wf s' /\ cat_eq (abs s') (a_rename_fld tn old new (abs s)))
    (rename_failed s tn old new f) s.
Proof.
  intros Hwf Ht Hf Hclash. pose proof Ht as (Htt & Htn & Htne). pose proof Hf as (Hi & Hti & Hn & Hne & Ha).
  pose proof (zlookup_Some_range _ _ _ Htt) as Htid. pose proof (zlookup_Some_range _ _ _ Hi) as Hr.
  unfold rename_fld. wp_step. wp_step; [by destruct tn|]. wp_step. wp_step.
  { split; [done|]. left. split; [done|]. right; left. by destruct new. }
  assert (new <> ""%string) as Hnew by (by destruct new). wp_step. wp_step; [by destruct old|].
  wp_step. wp_step.
  { split; [done|]. left. split; [done|]. left.
    match goal with H : bool_decide _ = true |- _ => apply bool_decide_eq_true in H; congruence end. }
  assert (old <> new) as Hd by (match goal with H : bool_decide _ = false |- _ =>
    apply bool_decide_eq_false in H; congruence end).
  wp_step. apply (is_tbl_wp s Hwf); [|intros Hno; by destruct (Hno tid t)].
  intros tid' t' Ht' Hn'. assert (tid' = tid) as ->.
  { apply (wf_tbl_unique s Hwf tid' tid t' t); congruence. }
  do 2 wp_step; [done|]. wp_step. apply (is_fld_wp s Hwf); [lia| |intros Hno; by destruct (Hno i f)].
  intros i' f' g Hi' Hti' Hni' _. assert (i' = i) as ->.
  { apply (wf_fld_unique s Hwf i' i f' f); unfold used; congruence. }
  assert (f' = f) as -> by congruence. do 2 wp_step; [done|]. subst old.
  by apply (rename_found_wp s tid tn t i f new).
Qed.

(** The lookup of a field that is there. *)
Lemma is_fld_found_nn s tbl tid i f n (Q : Z * FLD_REC_TYPE * Z * FLD_REC_TYPE -> state -> Prop) E :
  wf s -> 0 <= tid -> has_fld s tid i n f ->
  (forall g, (0 <= nn_fld_id f -> g_flds s !z (nn_fld_id f) = Some g) -> Q (i, f, nn_fld_id f, g) s) ->
  wp (is_fld tbl tid (Some n)) Q E s.
Proof.
  intros Hwf Htid (Hi & Ht & Hn & Hne & Ha) HQ. apply (is_fld_wp s Hwf); [done| |].
  - intros i' f' g Hi' Ht' Hn' Hg. assert (i' = i) as ->.
    { apply (wf_fld_unique s Hwf i' i f' f); unfold used; congruence. }
    assert (f' = f) as -> by congruence. by apply HQ.
  - intros Hno. by destruct (Hno i f).
Qed.
Lemma is_fld_found s tbl tid i f n (Q : Z * FLD_REC_TYPE * Z * FLD_REC_TYPE -> state -> Prop) E :
  wf s -> 0 <= tid -> has_fld s tid i n f ->
  (forall g, Q (i, f, nn_fld_id f, g) s) -> wp (is_fld tbl tid (Some n)) Q E s.
Proof. intros Hwf Ht Hf HQ. apply (is_fld_found_nn s tbl tid i f n); auto. Qed.

Lemma is_tbl_found s tid tn t (Q : Z * TBL_REC_TYPE -> state -> Prop) E :
  wf s -> has_tbl s tid tn t -> Q (tid, t) s -> wp (is_tbl (Some tn)) Q E s.
Proof.
  intros Hwf Ht HQ. apply (is_tbl_wp s Hwf).
  - intros i u Hu Hn. destruct (has_tbl_unique s Hwf i tid tn u t) as [-> ->]; auto.
    split_and!; auto. apply Ht.
  - intros Hno. destruct Ht as (Ht & Hn & _). by destruct (Hno tid t).
Qed.

(** ** The theorems at the small docroot *)

Lemma small_t1 : has_tbl small 0 "t1" (small_tbl "t1").
Proof. split_and!; [reflexivity|reflexivity|discriminate]. Qed.

Lemma del_fld_correct_witness :
  wf small /\
  wp (del_fld (Some "t1"%string) (-1) (Some "x"%string) (-1) true)
    (fun _ s' => wf s' /\ cat_eq (abs s') (a_set_fld "t1" "x" None (abs small)))
    (fun s' => s' = small /\ ("t1"%string = ""%string \/ "x"%string = ""%string \/
       exists i f, g_flds small !z i = Some f /\ name f = "x"%string /\ auxtype f = nn)) small.
Proof. split; [exact small_wf|]. apply (del_fld_correct small "t1" "x"). exact small_wf. Defined.

Lemma add_fld_correct_witness :
  wp (add_fld 0 0 (Some "z"%string) (-1) "_z" I8 (-1))
    (fun i s' => wf s' /\ (exists f, has_fld s' 0 i "z" f) /\
       file_fits (set_cwd (dir_after small (-1)) small) "_z" 3 I8 /\
       cat_eq (abs s') (a_set_fld "t1" "z"
         (Some {| fi_type := I8; fi_sort := unknown; fi_data := (-1, "_z"%string); fi_nn := None |})
         (abs small)))
    (fun s' => wf s' /\
       (cat_eq (abs s') (abs small) /\ cannot_add small 0 (small_tbl "t1") "z" (-1) "_z" I8 \/
        cat_eq (abs s') (a_set_fld "t1" "z" None (abs small)) /\ bad_record I8 (-1) "_z")) small.
Proof.
  apply (add_fld_correct small 0 0 "t1" (small_tbl "t1") "z" (-1) "_z" I8 (-1)).
  - exact small_wf.
  - exact small_t1.
  - reflexivity.
  - reflexivity.
Defined.

(** No field of table [tid] has the name [m]. *)
Lemma name_free_ok s tid m :
  all_slots (fun j g => negb ((tbl_id g =? tid) && strcmp_eq (name g) m)) (g_flds s) = true ->
  forall j g, g_flds s !z j = Some g -> tbl_id g = tid -> name g <> m.
Proof.
  intros Hall j g Hg Ht Hn. apply (all_slots_ok _ _ j g) in Hall; [|done]. cbn beta in Hall.
  by rewrite (proj2 (strcmp_eq_spec _ _) Hn), (proj2 (Z.eqb_eq _ _) Ht) in Hall.
Qed.

Lemma rename_fld_correct_witness :
  let f := small_fld 0 "x" "_x" (-1) 1 undef I4 INT_MIN in
  wp (rename_fld (Some "t1"%string) (Some "x"%string) (Some "z"%string))
    (fun _ s' => wf s' /\ cat_eq (abs s') (a_rename_fld "t1" "x" "z" (abs small)))
    (rename_failed small "t1" "x" "z" f) small.
Proof.
  apply (rename_fld_correct small 0 "t1" (small_tbl "t1") 0
    (small_fld 0 "x" "_x" (-1) 1 undef I4 INT_MIN) "x" "z").
  - exact small_wf.
  - exact small_t1.
  - split_and!; [reflexivity|reflexivity|reflexivity|discriminate|reflexivity].
  - intros j g Hg Ht Hn. exfalso.
    exact (name_free_ok small 0 "_nn_z" eq_refl j g Hg Ht Hn).
Defined.

(** ** What the code does beyond its intent *)

(** A field moved to its own table is lost, with its data file. *)
Lemma mv_fld_same_table :
  exists s', mv_fld 0 (Some "t1"%string) (Some "y"%string) (Some "t1"%string) small = Ret tt s' /\
    c_fld (abs s') "t1" "y" = None /\ fs s' !! ("/data", "_y")%string = None.
Proof. eexists. split; [vm_compute; reflexivity|]. split; vm_compute; reflexivity. Qed.

(** A failed [add_fld] leaves the process in the data directory. *)
Lemma add_fld_stays_in_data_dir :
  exists s', add_fld 0 0 (Some "q"%string) (-1) "_nnx" I8 (-1) small = Fail s' /\
    cwd s' = "/data"%string /\ g_cwd s' = "/work"%string.
Proof. eexists. split; [vm_compute; reflexivity|]. split; reflexivity. Qed.

(** [mk_nn_fld] of the nn field of another field leaves that field with the id
    of a free record. *)
Lemma mk_nn_fld_of_nn_field :
  exists s', mk_nn_fld 0 (Some "t1"%string) (Some "_nn_x"%string) (Some "t1"%string)
      (Some "y"%string) small = Ret tt s' /\ ~ wf s'.
Proof.
  eexists. split; [vm_compute; reflexivity|]. intros Hwf.
  destruct (fk_links _ _ _ (wf_fld _ Hwf 0 (small_fld 0 "x" "_x" (-1) 1 undef I4 INT_MIN) eq_refl))
    as [_ Hl]; [discriminate|]. destruct Hl as (g & Hg & Hof); [done|].
  injection Hg as <-. by destruct (nn_used _ _ _ Hof).
Qed.
