(* ===== verification/CatalogAux.v ===== *)
(** * The verbs on nn fields implement the abstract catalog.

    A field may have an nn field, which says of every row whether the value
    is there.  The theorems about [add_aux_fld] and [drop_nn_fld]. *)

From stdpp Require Import prelude strings gmap.
From Stdlib Require Import ZArith Lia.
From S2P Require Import Prelude CString Types Hash Catalog Verbs CatalogLogic CatalogSpec CatalogVerbs CatalogFields.

(** ** Giving a field another nn field *)

(** [r] may be the nn field of the field [f] in slot [i]. *)
Record nn_rec (s : state) (i : Z) (f r : FLD_REC_TYPE) : Prop := {
  nr_of : nn_of i f r;
  nr_nn : nn_fld_id r < 0;
  nr_alias : alias_of_fld_id r < 0;
  nr_ddir : ddir_ok s (ddir_id r);
  nr_name : chk_fld_name (Some (name r)) 0 = Ok tt
}.

Section relinked.
Context (s : state) (i : Z) (f : FLD_REC_TYPE) (k k' : Z) (r : FLD_REC_TYPE) (l2 : list FLD_REC_TYPE).
Context (Hwf : wf s) (Hi : g_flds s !z i = Some f) (Hused : used f) (Haux : auxtype f = undef).
Let f' := fld_set_nn k' f.
Let s2 := set_flds (fun _ => l2) s.
(** Slot [k] gets [r]; it was free or the old nn field, if there was one. *)
Context (Hlen : zlen l2 = g_n_fld s) (Hki : k <> i).
Context (Hl2 : forall j, 0 <= j ->
  l2 !z j = if decide (j = i) then Some f' else if decide (j = k) then Some r else g_flds s !z j).
Context (Hk : forall g, g_flds s !z k = Some g -> used g -> k = nn_fld_id f).
Context (Hnn : 0 <= nn_fld_id f -> nn_fld_id f = k).
Context (Hr : (r = zero_fld_rec /\ k' < 0) \/
  (k' = k /\ 0 <= k /\ nn_rec s i f r /\
   forall j g, j <> k -> g_flds s !z j = Some g -> tbl_id g = tbl_id f -> name g <> name r)).

Lemma relinked_lookup j :
  l2 !z j = if decide (j = i) then Some f' else
            if decide (0 <= j /\ j = k) then Some r else g_flds s !z j.
Proof.
  pose proof (zlookup_Some_range _ _ _ Hi). destruct (decide (0 <= j)) as [Hj|Hj].
  - rewrite Hl2 by done. repeat case_decide; done || (exfalso; lia).
  - rewrite decide_False by lia. rewrite decide_False by lia.
    unfold zlookup. by rewrite !decide_False by done.
Qed.

(** A used record elsewhere stays, and is neither linked to [i] nor to [k]. *)
Lemma relinked_other j g :
  j <> i -> l2 !z j = Some g -> used g ->
  (j = k /\ g = r) \/
  (j <> k /\ g_flds s !z j = Some g /\
   match auxtype g with
   | undef => 0 <= nn_fld_id g -> nn_fld_id g <> i /\ nn_fld_id g <> k
   | nn => parent_id g <> i /\ parent_id g <> k
   end).
Proof.
  intros Hj. rewrite relinked_lookup, decide_False by done.
  case_decide as Ek; [intros [= <-]; left; by destruct Ek|].
  intros Hg Hu. right. pose proof (zlookup_Some_range _ _ _ Hg).
  assert (j <> k) as Hjk by (intros ->; apply Ek; split; [lia|done]). split_and!; [done|done|].
  pose proof (links_other s i f j g Hwf Hi Haux Hg Hu) as Ho.
  assert (~ (j = i \/ (0 <= nn_fld_id f /\ j = nn_fld_id f))) as Hne.
  { intros [?|[Hge ?]]; [done|]. rewrite (Hnn Hge) in *. done. }
  specialize (Ho Hne).
  assert (forall h, g_flds s !z k = Some h -> used h -> 0 <= nn_fld_id f /\ nn_fld_id f = k) as Hkk.
  { intros h Hh Hhu. pose proof (Hk h Hh Hhu). apply zlookup_Some_range in Hh. lia. }
  pose proof (fk_links _ _ _ (wf_fld s Hwf j g Hg) Hu) as Hl. unfold links_ok in Hl.
  destruct (auxtype g).
  - intros Hge. specialize (Ho Hge). split; [tauto|]. intros E.
    destruct Hl as [_ Hl]. destruct (Hl Hge) as (h & Hh & Hof). rewrite E in Hh.
    destruct (Hkk h Hh (nn_used _ _ _ Hof)). apply Ho. right. lia.
  - split; [tauto|]. intros E. destruct Hl as (_ & _ & p & Hp & Hpu & _). rewrite E in Hp.
    destruct (Hkk p Hp Hpu). apply Ho. right. lia.
Qed.

Lemma relinked_keep j : j <> i -> j <> k -> l2 !z j = g_flds s !z j.
Proof. intros. rewrite relinked_lookup. by rewrite !decide_False by lia. Qed.

Lemma relinked_fld_ok j g : l2 !z j = Some g -> fld_ok s2 j g.
Proof.
  intros Hg. destruct (decide (j = i)) as [->|Hj].
  - assert (g = f') as -> by (rewrite relinked_lookup, decide_True in Hg by done; congruence).
    destruct (wf_fld s Hwf i f Hi) as [? ? ? ? ? Hl]. split; [done|done|done|done|done|].
    intros _. specialize (Hl Hused). unfold links_ok in *. simpl. rewrite Haux in *.
    split; [apply Hl|]. intros Hge. pose proof Hr as [[_ ?]|(Ek & Hk0 & [Hof _ _ _ _] & _)]; [lia|].
    rewrite Ek. exists r. split; [|by destruct Hof]. by rewrite relinked_lookup, decide_False, decide_True.
  - destruct (decide (used g)) as [Hu|Hu].
    + destruct (relinked_other j g Hj Hg Hu) as [[Ejk Egr]|(Hjk & Hg0 & Hl)].
      * pose proof Hr as [[Er _]|(Ek & Hk0 & [Hof Hnnr Hal Hd Hn] & _)].
        { destruct not_used_zero. by rewrite Egr, Er in Hu. }
        rewrite Egr, Ejk. destruct Hof as [Hru Hra Hrp Hrt].
        split; [done|done|by intros []|done|..]; intros _.
        { rewrite Hrt. by apply (wf_fld s Hwf i f Hi). }
        unfold links_ok. rewrite Hra, Hrp. pose proof (zlookup_Some_range _ _ _ Hi).
        split_and!; [done|lia|]. exists f'. split_and!; auto.
        simpl. by rewrite relinked_lookup, decide_True.
      * apply (fld_ok_keep s l2 j g); [by apply wf_fld|]. intros _.
        pose proof (fk_links _ _ _ (wf_fld s Hwf j g Hg0) Hu) as Hlk. unfold links_ok in *.
        destruct (auxtype g).
        -- destruct Hlk as [? Hlk]. split; [done|]. intros Hge. destruct (Hlk Hge) as (h & Hh & ?).
           destruct (Hl Hge). exists h. split; [|done]. by rewrite relinked_keep.
        -- destruct Hlk as (? & ? & p & Hp & ?). split_and!; [done..|]. destruct Hl. exists p.
           split; [|done]. by rewrite relinked_keep.
    + rewrite relinked_lookup, decide_False in Hg by done. case_decide as Ek.
      * assert (g = r) as -> by congruence.
        pose proof Hr as [[Er _]|(_ & _ & Hrec & _)]; [rewrite Er; apply fld_ok_zero|].
        destruct Hu. apply Hrec.
      * apply (fld_ok_keep s l2 j g); [by apply wf_fld|done].
Qed.

Lemma relinked_wf : wf s2.
Proof.
  apply wf_set_flds; [done|done|exact relinked_fld_ok|].
  assert (forall j g, l2 !z j = Some g -> used g ->
    (j = k /\ g = r) \/ (j <> k /\ exists g0, g_flds s !z j = Some g0 /\ tbl_id g0 = tbl_id g /\ name g0 = name g))
    as Hcase.
  { intros j g Hg Hu. destruct (decide (j = i)) as [->|Hj].
    - rewrite relinked_lookup, decide_True in Hg by done. right. split; [done|].
      assert (g = f') as -> by congruence. by exists f.
    - destruct (relinked_other j g Hj Hg Hu) as [?|(? & ? & _)]; [by left|]. right. eauto. }
  assert (forall j g, used r -> l2 !z j = Some g -> j <> k -> used g ->
    tbl_id g = tbl_id r -> name g <> name r) as Hno.
  { intros j g Hru Hg Hj Hu Ht E. pose proof Hr as [[Er _]|(_ & _ & Hrec & Hno)].
    { rewrite Er in Hru. by destruct not_used_zero. }
    destruct (Hcase j g Hg Hu) as [[? _]|(_ & g0 & Hg0 & Ht0 & Hn0)]; [done|].
    pose proof (nn_tbl _ _ _ (nr_of _ _ _ _ Hrec)). apply (Hno j g0); congruence. }
  intros j m g h Hg Hh Ht Hn Hu. assert (used h) as Huh by (unfold used; congruence).
  destruct (Hcase j g Hg Hu) as [[Ej Eg]|(Hj & g0 & Hg0 & Ht0 & Hn0)];
    destruct (Hcase m h Hh Huh) as [[Em Eh]|(Hm & h0 & Hh0 & Hth0 & Hnh0)].
  - congruence.
  - destruct (Hno m h); congruence.
  - destruct (Hno j g); congruence.
  - apply (wf_fld_unique s Hwf j m g0 h0); unfold used; congruence.
Qed.

Lemma relinked_has_fld ti j fn g :
  has_fld s2 ti j fn g <->
  (j <> i /\ has_fld s ti j fn g) \/
  (j = i /\ g = f' /\ tbl_id f = ti /\ name f = fn).
Proof.
  split.
  - intros (Hg & Ht & Hn & Hne & Ha). simpl in Hg. destruct (decide (j = i)) as [->|Hj].
    + rewrite relinked_lookup, decide_True in Hg by done. right.
      assert (g = f') as -> by congruence. by split_and!.
    + left. split; [done|]. assert (used g) as Hu by (unfold used; congruence).
      destruct (relinked_other j g Hj Hg Hu) as [[_ Eg]|(_ & Hg0 & _)]; [|by split_and!].
      exfalso. rewrite Eg in Hu, Ha. pose proof Hr as [[Er _]|(_ & _ & Hrec & _)].
      * rewrite Er in Hu. by destruct not_used_zero.
      * pose proof (nn_aux _ _ _ (nr_of _ _ _ _ Hrec)). congruence.
  - intros [[Hj (Hg & Ht & Hn & Hne & Ha)]|(-> & -> & <- & <-)].
    + split_and!; auto. simpl. rewrite relinked_keep; [done|done|]. intros ->.
      assert (k = nn_fld_id f) as E by (apply (Hk g Hg); unfold used; congruence).
      pose proof (zlookup_Some_range _ _ _ Hg).
      destruct (nn_same_tbl s i f Hwf Hi Haux) as (h & Hh & Hof); [lia|]. rewrite <- E in Hh.
      pose proof (nn_aux _ _ _ Hof). congruence.
    + split_and!; auto. simpl. by rewrite relinked_lookup, decide_True.
Qed.

Lemma relinked_info j g : j <> i -> has_fld s2 (tbl_id g) j (name g) g ->
  info_of l2 g = info_of (g_flds s) g.
Proof.
  intros Hj (Hg & _ & _ & Hu & Ha). unfold info_of. f_equal.
  destruct (Z.leb_spec 0 (nn_fld_id g)) as [Hge|]; [|done].
  destruct (relinked_other j g Hj Hg Hu) as [[_ Eg]|(_ & _ & Ho)].
  - pose proof Hr as [[Er _]|(_ & _ & Hrec & _)].
    + rewrite Eg, Er in Hu. by destruct not_used_zero.
    + pose proof (nr_nn _ _ _ _ Hrec). rewrite Eg in Hge. lia.
  - rewrite Ha in Ho. destruct (Ho Hge). by rewrite relinked_keep.
Qed.

Lemma relinked_abs tn t :
  has_tbl s (tbl_id f) tn t ->
  cat_eq (abs s2) (a_set_fld tn (name f)
    (Some {| fi_type := fldtype f; fi_sort := sort_type f; fi_data := data_of f;
             fi_nn := if 0 <=? k' then Some (data_of r) else None |}) (abs s)).
Proof.
  intros Ht. pose proof relinked_wf as Hwf2.
  apply (flds_abs s s2 Hwf Hwf2 eq_refl (tbl_id f) tn t); [done|..].
  - intros ti j fn g Hne Hg. exists g. assert (j <> i) as Hj.
    { intros ->. destruct Hne, Hg as (Hg & <- & <- & _). split; congruence. }
    assert (has_fld s2 ti j fn g) as Hg2 by (apply relinked_has_fld; by left).
    split; [done|]. apply (relinked_info j); [done|]. by destruct Hg2 as (? & <- & <- & ? & ?).
  - intros ti j fn g Hne Hg. apply relinked_has_fld in Hg as [[_ Hg]|(_ & _ & <- & <-)]; [by exists g|].
    by destruct Hne.
  - rewrite (c_fld_is s s2 Hwf2 eq_refl _ tn t (name f) i f' Ht) by (apply relinked_has_fld; right; done).
    f_equal. unfold info_of. simpl. f_equal. destruct (Z.leb_spec 0 k') as [Hge|]; [|done].
    pose proof Hr as [[_ ?]|(Ek & _ & _ & _)]; [lia|].
    rewrite Ek in *. by rewrite relinked_lookup, decide_False, decide_True.
Qed.
End relinked.

(** ** The verbs on nn fields *)

Lemma is_fld_by_name s tid tn t n (Q : Z * FLD_REC_TYPE * Z * FLD_REC_TYPE -> state -> Prop) E :
  wf s -> has_tbl s tid tn t ->
  wp (is_fld (Some tn) tid (Some n)) Q E s -> wp (is_fld (Some tn) (-1) (Some n)) Q E s.
Proof.
  intros Hwf Ht H. pose proof (zlookup_Some_range _ _ _ (proj1 Ht)).
  unfold is_fld in *. change (-1 <? 0) with true. cbn iota. wp_step. wp_step.
  apply (is_tbl_found s tid tn t); [done|done|]. wp_step.
  rewrite (proj2 (Z.ltb_ge tid 0)) in H by lia.
  exact H.
Qed.

Definition drop_nn (d : fld_info) : fld_info :=
  {| fi_type := fi_type d; fi_sort := fi_sort d; fi_data := fi_data d; fi_nn := None |}.
Definition set_nn (nnd : Z * string) (d : fld_info) : fld_info :=
  {| fi_type := fi_type d; fi_sort := fi_sort d; fi_data := fi_data d; fi_nn := Some nnd |}.

Lemma drop_stores s tid tn t i n f k l2 :
  wf s -> has_tbl s tid tn t -> has_fld s tid i n f ->
  (k = nn_fld_id f \/ (k = -1 /\ nn_fld_id f < 0)) -> -1 <= k -> zlen l2 = g_n_fld s ->
  (forall j, 0 <= j -> l2 !z j = if decide (j = i) then Some (fld_set_nn (-1) f) else
     if decide (j = k) then Some zero_fld_rec else g_flds s !z j) ->
  wf (set_flds (fun _ => l2) s) /\
  cat_eq (abs (set_flds (fun _ => l2) s)) (a_set_fld tn n (drop_nn <$> c_fld (abs s) tn n) (abs s)).
Proof.
  intros Hwf Ht Hf Hk Hk1 Hlen Hl2. pose proof Hf as (Hi & Hti & Hn & Hne & Ha).
  pose proof (zlookup_Some_range _ _ _ Hi).
  assert (k <> i) as Hki.
  { destruct Hk as [->|[-> _]]; [|lia]. intros E.
    destruct (nn_same_tbl s i f Hwf Hi Ha) as (g & Hg & Hof); [lia|].
    rewrite E, Hi in Hg. pose proof (nn_aux _ _ _ Hof). congruence. }
  assert (forall g, g_flds s !z k = Some g -> used g -> k = nn_fld_id f) as Hkk.
  { intros g Hg _. apply zlookup_Some_range in Hg. lia. }
  assert (0 <= nn_fld_id f -> nn_fld_id f = k) as Hnn by lia.
  assert (used f) as Hu by (unfold used; congruence).
  assert ((zero_fld_rec = zero_fld_rec /\ -1 < 0) \/
    (-1 = k /\ 0 <= k /\ nn_rec s i f zero_fld_rec /\
     forall j g, j <> k -> g_flds s !z j = Some g -> tbl_id g = tbl_id f -> name g <> name zero_fld_rec))
    as Hr by (left; split; [done|lia]).
  split; [by apply (relinked_wf s i f k (-1) zero_fld_rec)|].
  rewrite (c_fld_is s s Hwf eq_refl tid tn t n i f Ht Hf). simpl. subst n tid.
  apply (relinked_abs s i f k (-1) zero_fld_rec l2 Hwf Hi Hu Ha Hlen Hki Hl2 Hkk Hnn Hr tn t Ht).
Qed.

(** [drop_nn_fld], from a well-formed catalog, for a field that
    exists and is no nn field: it succeeds, the catalog is well-formed, and
    the field has lost its nn field, if it had one, and nothing else. *)
Theorem drop_nn_fld_correct (s : state) (tid : Z) (tn : string) (t : TBL_REC_TYPE)
    (i : Z) (n : string) (f : FLD_REC_TYPE) :
  wf s -> has_tbl s tid tn t -> has_fld s tid i n f ->
  wp (drop_nn_fld (Some tn) (Some n))
    (fun _ s' => wf s' /\
       cat_eq (abs s') (a_set_fld tn n (drop_nn <$> c_fld (abs s) tn n) (abs s)))
    (fun _ => False) s.
Proof.
  intros Hwf Ht Hf. pose proof Ht as (Htt & _ & Htne). pose proof Hf as (Hi & _ & _ & Hne & Ha).
  pose proof (zlookup_Some_range _ _ _ Htt) as Htid. pose proof (zlookup_Some_range _ _ _ Hi) as Hr.
  unfold drop_nn_fld. wp_step. wp_step; [by destruct tn|]. wp_step. wp_step; [by destruct n|].
  wp_step. apply (is_tbl_found s tid tn t); [done|done|]. wp_step. wp_step; [done|]. wp_step.
  apply (is_fld_found s None tid i f n); [done|lia|done|]. intros g0. wp_step. wp_step; [done|].
  wp_step. unfold del_aux_fld. wp_step. wp_step; [done|]. wp_step. apply (wp_rd_fld _ f); [done|].
  wp_step. apply wp_wr_fld; [done|]. wp_step; [|].
  2: { apply (drop_stores s tid tn t i n f (-1)); auto; [right; split; [done|lia]|lia|apply zlen_zset|].
       intros j Hj. rewrite zlookup_zset by done. destruct (decide (j = i)); [done|].
       by rewrite decide_False by lia. }
  destruct (nn_same_tbl s i f Hwf Hi Ha) as (g & Hg & Hof); [lia|].
  assert (nn_fld_id f <> i) as Hni.
  { intros E. pose proof (nn_aux _ _ _ Hof). congruence. }
  pose proof (zlookup_Some_range _ _ _ Hg) as Hrg. set (s1 := set_flds _ s).
  wp_step. apply (wp_rd_fld _ (fld_set_nn (-1) f)); [by apply zlookup_zset_eq|]. wp_step.
  assert (forall s2, files_only s1 s2 -> wp (wr_fld (nn_fld_id f) zero_fld_rec)
    (fun _ s' => wf s' /\ cat_eq (abs s') (a_set_fld tn n (drop_nn <$> c_fld (abs s) tn n) (abs s)))
    (fun s' => wf s' /\ cat_eq (abs s') (a_set_fld tn n (drop_nn <$> c_fld (abs s) tn n) (abs s))) s2)
    as Hlast.
  { intros s2 Hfo2. set (l2 := zset (zset (g_flds s) i (fld_set_nn (-1) f)) (nn_fld_id f) zero_fld_rec).
    assert (files_only (set_flds (fun _ => l2) s) (set_flds (fun l => zset l (nn_fld_id f) zero_fld_rec) s2))
      as Hfo.
    { split; try apply Hfo2. simpl. by rewrite (fo_flds _ _ Hfo2). }
    apply wp_wr_fld; [unfold g_n_fld; rewrite (fo_flds _ _ Hfo2); simpl; by rewrite zlen_zset|].
    rewrite (files_only_abs _ _ Hfo).
    destruct (drop_stores s tid tn t i n f (nn_fld_id f) l2) as [Hw Hc]; auto; [lia|by unfold l2; rewrite !zlen_zset| |].
    - intros j Hj. unfold l2. rewrite zlookup_zset by (by rewrite zlen_zset).
      rewrite zlookup_zset by done. repeat case_decide; try done. congruence.
    - split; [by eapply files_only_wf|done]. }
  wp_step; [|by apply Hlast]. wp_step. apply (wp_rd_fld _ g).
  { simpl. by rewrite zlookup_zset, decide_False. }
  apply Hlast. split; try done. simpl. apply delete_subseteq.
Qed.

(** [q_mmap] leaves the catalog alone. *)
Lemma q_mmap_wp ddir file (Q : list Z -> state -> Prop) (E : state -> Prop) s :
  ddir < g_n_ddir s ->
  (forall s', files_only s s' ->
     ~ ddir_ok s ddir \/ fs s !! path (set_cwd (dir_after s ddir) s) file = None -> E s') ->
  (forall X s', files_only s s' -> ddir_ok s ddir ->
     fs s !! path (set_cwd (dir_after s ddir) s) file = Some X -> Q X s') ->
  wp (q_mmap ddir file) Q E s.
Proof.
  intros Hd HE HQ. unfold q_mmap. wp_step. apply chdir_ddir_exact; [done| |].
  { intros Hno. apply HE; [done|by left]. }
  intros Hok. set (s1 := set_cwd _ s). assert (files_only s s1) as H1 by apply files_only_cwd.
  wp_step. unfold wp at 1, rs_mmap. destruct (fs s1 !! path s1 file) as [X|] eqn:EX.
  2: { apply HE; [done|by right]. }
  wp_step. unfold chdir_back. wp_step. wp_step. apply chdir_wp. intros s2 H2 _. wp_step.
  apply HQ; [by etrans|done|done].
Qed.

(** [zlookup] of the slots that [add_aux_fld] writes. *)
Lemma lookup_relink l i k f' r j :
  0 <= i < zlen l -> 0 <= k < zlen l -> k <> i ->
  zset (zset (zset (zset l k zero_fld_rec) i f') k zero_fld_rec) k r !z j =
  if decide (j = i) then Some f' else if decide (j = k) then Some r else l !z j.
Proof.
  intros Hi Hk Hne. rewrite zset_zset.
  rewrite zlookup_zset by (by rewrite !zlen_zset). rewrite zlookup_zset by (by rewrite zlen_zset).
  rewrite zlookup_zset by done. repeat case_decide; congruence.
Qed.

Definition added_nn (tid i ddir : Z) (nm file : string) : FLD_REC_TYPE :=
  fld_set_aux tid i ddir nm file zero_fld_rec.

(** The stores of [add_aux_fld] into field [i] and slot [k]. *)
Lemma aux_stores_wp s tid tn t i n f k ddir file (Q : Z -> state -> Prop) (E : state -> Prop) :
  wf s -> has_tbl s tid tn t -> has_fld s tid i n f -> ddir_ok s ddir ->
  strlen file <= MAX_LEN_FILE_NAME ->
  strlen n + strlen "_nn_" <= MAX_LEN_FLD_NAME ->
  (forall j g, g_flds s !z j = Some g -> tbl_id g = tid -> name g = ("_nn_" +:+ n)%string ->
     0 <= nn_fld_id f /\ j = nn_fld_id f) ->
  (0 <= nn_fld_id f /\ k = nn_fld_id f \/
   nn_fld_id f < 0 /\ exists g, g_flds s !z k = Some g /\ ~ used g) ->
  (forall s', wf s' ->
     cat_eq (abs s') (a_set_fld tn n (set_nn (ddir, file) <$> c_fld (abs s) tn n) (abs s)) ->
     Q k s') ->
  wp (wr_fld k zero_fld_rec;;
      upd_fld i (fld_set_nn k);;
      strcpy_ok file MAX_LEN_FILE_NAME;;
      upd_fld k (fld_set_aux tid i ddir ("_nn_" +:+ n)%string file);;
      mret k) Q E s.
Proof.
  intros Hwf Ht Hf Hd Hfile Hlen Hclash Hk HQ. pose proof Hf as (Hi & Hti & Hn & Hne & Ha).
  pose proof (zlookup_Some_range _ _ _ Hi) as Hri.
  assert (used f) as Hu by (unfold used; congruence).
  assert (0 <= k < zlen (g_flds s) /\ k <> i /\
    (forall g, g_flds s !z k = Some g -> used g -> k = nn_fld_id f)) as (Hrk & Hki & Hkk).
  { destruct Hk as [[Hge ->]|[Hlt (g & Hg & Hgu)]].
    - destruct (nn_same_tbl s i f Hwf Hi Ha Hge) as (g & Hg & Hof).
      split; [by apply zlookup_Some_range in Hg|]. split; [|done].
      intros E0. pose proof (nn_aux _ _ _ Hof). congruence.
    - split; [by apply zlookup_Some_range in Hg|]. split.
      + intros ->. assert (g = f) as -> by congruence. done.
      + intros g' Hg' Hu'. assert (g' = g) as -> by congruence. done. }
  assert (0 <= nn_fld_id f -> nn_fld_id f = k) as Hnn by lia.
  assert (chk_fld_name (Some n) 0 = Ok tt) as Hc by (rewrite <- Hn; by apply (wf_fld s Hwf i f Hi)).
  destruct (chk_nn_name n Hc Hlen) as [Hcnn _].
  wp_step. apply wp_wr_fld; [done|]. wp_step. apply (wp_upd_fld _ f).
  { simpl. by rewrite zlookup_zset, decide_False. }
  wp_step. apply wp_stuck_if; [lia|]. wp_step. apply (wp_upd_fld _ zero_fld_rec).
  { simpl. rewrite zlookup_zset by (by rewrite zlen_zset). rewrite decide_False by done.
    by apply zlookup_zset_eq. }
  wp_step. set (r := added_nn tid i ddir ("_nn_" +:+ n)%string file).
  set (l2 := zset (zset (zset (zset (g_flds s) k zero_fld_rec) i (fld_set_nn k f)) k zero_fld_rec) k r).
  assert (set_flds (fun l => zset l k r) (set_flds (fun l => zset l i (fld_set_nn k f))
    (set_flds (fun l => zset l k zero_fld_rec) s)) = set_flds (fun _ => l2) s) as Es.
  { unfold set_flds, l2. simpl. by rewrite zset_zset. }
  change (Q k (set_flds (fun l => zset l k r) (set_flds (fun l => zset l i (fld_set_nn k f))
    (set_flds (fun l => zset l k zero_fld_rec) s)))). rewrite Es.
  assert (forall j, 0 <= j -> l2 !z j = if decide (j = i) then Some (fld_set_nn k f) else
    if decide (j = k) then Some r else g_flds s !z j) as Hl2.
  { intros j _. by apply lookup_relink. }
  assert (zlen l2 = g_n_fld s) as Hl by (unfold l2; by rewrite !zlen_zset).
  assert ((r = zero_fld_rec /\ k < 0) \/ (k = k /\ 0 <= k /\ nn_rec s i f r /\
    forall j g, j <> k -> g_flds s !z j = Some g -> tbl_id g = tbl_id f -> name g <> name r)) as Hr.
  { right. split_and!; [done|lia|by split|]. intros j g Hj Hg Htg E0.
    destruct (Hclash j g Hg); [congruence|done|]. destruct Hj. rewrite <- Hnn by done. done. }
  apply HQ; [by apply (relinked_wf s i f k k r)|].
  rewrite (c_fld_is s s Hwf eq_refl tid tn t n i f Ht Hf). simpl. subst n tid.
  pose proof (relinked_abs s i f k k r l2 Hwf Hi Hu Ha Hl Hki Hl2 Hkk Hnn Hr tn t Ht) as Habs.
  rewrite (proj2 (Z.leb_le 0 k)) in Habs by lia. exact Habs.
Qed.

Section attach.
Context (s : state) (usec tid : Z) (tn : string) (t : TBL_REC_TYPE) (i : Z) (n : string) (f : FLD_REC_TYPE)
  (ddir : Z) (file : string).

(** What [add_aux_fld] does to the catalog: the field gets the file as its nn
    field. *)
Definition aux_added (s' : state) : Prop :=
  wf s' /\ (exists X, fs s !! path (set_cwd (dir_after s ddir) s) file = Some X /\ zlen X = t_nR t) /\
  cat_eq (abs s') (a_set_fld tn n (set_nn (ddir, file) <$> c_fld (abs s) tn n) (abs s)).
Definition aux_not_added (s' : state) : Prop :=
  files_only s s' /\
  (~ ddir_ok s ddir \/
   (forall X, fs s !! path (set_cwd (dir_after s ddir) s) file = Some X -> zlen X <> t_nR t) \/
   MAX_LEN_FLD_NAME < strlen n + strlen "_nn_" \/
   forall j g, g_flds s !z j = Some g -> used g).

Lemma attach_aux_wp :
  wf s -> has_tbl s tid tn t -> has_fld s tid i n f -> nn_fld_id f <> 0 ->
  (forall j g, g_flds s !z j = Some g -> tbl_id g = tid -> name g = ("_nn_" +:+ n)%string ->
     0 <= nn_fld_id f /\ j = nn_fld_id f) ->
  ddir < g_n_ddir s -> strlen file <= MAX_LEN_FILE_NAME ->
  wp (attach_aux usec tid i (nn_fld_id f) nn ddir file) (fun _ s' => aux_added s') aux_not_added s.
Proof.
  intros Hwf Ht Hf H0 Hclash Hdd Hlen. unfold aux_added, aux_not_added.
  pose proof Ht as (Htt & _ & Htne). pose proof Hf as (Hi & Hti & Hn & Hne & Ha).
  unfold attach_aux. wp_step.
  apply (wp_rd_tbl _ t); [done|]. wp_step. apply q_mmap_wp; [done| |].
  { intros s' Hs' [Hbad|Hno]; (split; [done|]); [by left|]. right; left. simpl in Hno. intros X. by rewrite Hno. }
  intros X s1 Hs1 Hdok HX. simpl in HX. wp_step. wp_step.
  { split; [done|]. right; left. intros Y HY. assert (Y = X) as -> by congruence. lia. }
  pose proof (fo_flds _ _ Hs1) as Efl. pose proof (files_only_wf _ _ Hs1 Hwf) as Hwf1.
  wp_step. apply (wp_rd_fld _ f); [by rewrite Efl|]. wp_step. rewrite Hn.
  destruct (decide (MAX_LEN_FLD_NAME < strlen n + strlen "_nn_")) as [Hlong|Hshort].
  { apply wp_lift_Err; [|by split; auto]. unfold mk_name_aux_fld, go_BYE_if.
    by rewrite (proj2 (Z.ltb_lt _ _) Hlong). }
  assert (used f) as Hu by (unfold used; congruence).
  assert (chk_fld_name (Some n) 0 = Ok tt) as Hc by (rewrite <- Hn; by apply (wf_fld s Hwf i f Hi)).
  destruct (chk_nn_name n Hc) as [Hcnn _]; [lia|].
  apply (wp_lift_Ok _ ("_nn_" +:+ n)%string).
  { by apply mk_nn_name; [|lia]. }
  wp_step.
  assert (has_tbl s1 tid tn t) as Ht1 by (by apply (same_has_tbl s s1 (fo_tbls _ _ Hs1))).
  assert (has_fld s1 tid i n f) as Hf1 by (unfold has_fld; by rewrite Efl).
  assert (ddir_ok s1 ddir) as Hd1 by (unfold ddir_ok; by rewrite (fo_ddirs _ _ Hs1)).
  assert (forall (k : Z) s', wf s' ->
    cat_eq (abs s') (a_set_fld tn n (set_nn (ddir, file) <$> c_fld (abs s1) tn n) (abs s1)) ->
    wf s' /\ (exists X, fs s !! path (set_cwd (dir_after s ddir) s) file = Some X /\ zlen X = t_nR t) /\
       cat_eq (abs s') (a_set_fld tn n (set_nn (ddir, file) <$> c_fld (abs s) tn n) (abs s))) as Hend.
  { intros _ s' Hw Hc'. rewrite (files_only_abs _ _ Hs1) in Hc'. split_and!; auto. exists X. split; [done|lia]. }
  destruct (Z.ltb_spec 0 (nn_fld_id f)) as [Hpos|Hneg].
  - wp_step. apply (aux_stores_wp s1 tid tn t i n f); auto; [lia|by rewrite Efl|left; lia].
  - apply (get_empty_fld_wp s1 Hwf1).
    + intros k g Hg Hgu. apply (aux_stores_wp s1 tid tn t i n f); auto; [lia|by rewrite Efl|right].
      split; [lia|]. by exists g.
    + rewrite Efl. intros Hfull. split; [done|]. auto.
Qed.
End attach.

(** Claim C27. [add_aux_fld] of an nn field, from a well-formed catalog, for a
    field that exists, is no nn field and has none in slot 0, when no other
    field has the name of the nn field: on success the catalog is well-formed,
    the file has a byte per row, and the field has this file as its nn field,
    in place of the one it had; it fails, and then leaves the catalog as it
    was, only because of the directory, the file, the length of the name or a
    full table. *)
Theorem add_aux_fld_correct (s : state) (usec tid : Z) (tn : string) (t : TBL_REC_TYPE)
    (i : Z) (n : string) (f : FLD_REC_TYPE) (ddir : Z) (file : string) :
  wf s -> has_tbl s tid tn t -> has_fld s tid i n f -> nn_fld_id f <> 0 ->
  (forall j g, g_flds s !z j = Some g -> tbl_id g = tid -> name g = ("_nn_" +:+ n)%string ->
     0 <= nn_fld_id f /\ j = nn_fld_id f) ->
  ddir < g_n_ddir s -> file <> ""%string -> strlen file <= MAX_LEN_FILE_NAME ->
  wp (add_aux_fld usec (Some tn) (-1) (Some n) (-1) ddir (Some file) (Some "nn"%string))
    (fun _ s' => aux_added s tn t n ddir file s') (aux_not_added s t n ddir file) s.
Proof.
  intros Hwf Ht Hf H0 Hclash Hdd Hfile Hlen.
  pose proof Ht as (Htt & _ & Htne). pose proof Hf as (Hi & Hti & Hn & Hne & Ha).
  pose proof (zlookup_Some_range _ _ _ Htt) as Htid. pose proof (zlookup_Some_range _ _ _ Hi) as Hri.
  unfold add_aux_fld. wp_step. wp_step; [by destruct tn|]. wp_step. wp_step; [by destruct n|].
  wp_step. wp_step; [done|]. wp_step. wp_step; [by destruct file|]. wp_step.
  change (0 <=? -1) with false. cbn [andb]. wp_step. apply (is_tbl_found s tid tn t); [done|done|].
  wp_step. wp_step; [done|]. wp_step. apply (is_fld_by_name s tid tn t); [done|done|].
  apply (is_fld_found s (Some tn) tid i f n); [done|lia|done|]. intros g0.
  wp_step. wp_step; [done|]. wp_step. wp_step. change (unstr_auxtype (Some "nn"%string)) with (Ok nn).
  cbn iota. wp_step. wp_step. wp_step; [done|].
  by apply (attach_aux_wp s usec tid tn t i n f ddir file).
Qed.

(** ** The theorems at the small docroot *)

Lemma drop_nn_fld_correct_witness :
  wp (drop_nn_fld (Some "t1"%string) (Some "x"%string))
    (fun _ s' => wf s' /\
       cat_eq (abs s') (a_set_fld "t1" "x" (drop_nn <$> c_fld (abs small) "t1" "x") (abs small)))
    (fun _ => False) small.
Proof.
  apply (drop_nn_fld_correct small 0 "t1" (small_tbl "t1") 0 "x"
    (small_fld 0 "x" "_x" (-1) 1 undef I4 INT_MIN)).
  - exact small_wf.
  - exact small_t1.
  - split_and!; [reflexivity|reflexivity|reflexivity|discriminate|reflexivity].
Defined.

Lemma add_aux_fld_correct_witness :
  wp (add_aux_fld 0 (Some "t1"%string) (-1) (Some "y"%string) (-1) (-1) (Some "_nnx"%string)
        (Some "nn"%string))
    (fun k s' => wf s' /\
       (exists X, fs small !! path (set_cwd (dir_after small (-1)) small) "_nnx" = Some X /\
          zlen X = 3) /\
       cat_eq (abs s') (a_set_fld "t1" "y"
         (set_nn (-1, "_nnx"%string) <$> c_fld (abs small) "t1" "y") (abs small)))
    (fun s' => files_only small s' /\
       (~ ddir_ok small (-1) \/
        (forall X, fs small !! path (set_cwd (dir_after small (-1)) small) "_nnx" = Some X ->
           zlen X <> 3) \/
        MAX_LEN_FLD_NAME < strlen "y" + strlen "_nn_" \/
        forall j g, g_flds small !z j = Some g -> used g)) small.
Proof.
  apply (add_aux_fld_correct small 0 0 "t1" (small_tbl "t1") 2 "y"
    (small_fld 0 "y" "_y" (-1) (-1) undef I4 1) (-1) "_nnx").
  - exact small_wf.
  - exact small_t1.
  - split_and!; [reflexivity|reflexivity|reflexivity|discriminate|reflexivity].
  - discriminate.
  - intros j g Hg Ht Hn. exfalso.
    exact (name_free_ok small 0 "_nn_y" eq_refl j g Hg Ht Hn).
  - reflexivity.
  - discriminate.
  - discriminate.
Defined.

(** [drop_nn_fld] unlinks in the working directory: the file of the nn field
    stays in the data directory. *)
Lemma drop_nn_fld_leaves_file :
  exists s', drop_nn_fld (Some "t1"%string) (Some "x"%string) small = Ret tt s' /\
    fs s' !! ("/data", "_nnx")%string = Some [1; 0; 1].
Proof. eexists. split; [vm_compute; reflexivity|]. vm_compute. reflexivity. Qed.
