(* ===== verification/CatalogMeta.v ===== *)
(** * New docroots and attributes.

    [init_meta_data] makes a well-formed, empty catalog; [set_meta] changes
    one attribute, which [get_meta] gives back. *)

From stdpp Require Import prelude strings gmap.
From Stdlib Require Import ZArith Lia Ascii.
From S2P Require Import Prelude CString Types Hash Catalog Verbs CatalogLogic CatalogSpec CatalogVerbs CatalogFields.

(** ** A new docroot *)

(** [s'] differs from [s] in files and in the working directory. *)
Record same_meta (s s' : state) : Prop := {
  sm_tbls : g_tbls s' = g_tbls s;
  sm_flds : g_flds s' = g_flds s;
  sm_ddirs : g_ddirs s' = g_ddirs s;
  sm_ht_tbl : g_ht_tbl s' = g_ht_tbl s;
  sm_ht_fld : g_ht_fld s' = g_ht_fld s;
  sm_data_dir : g_data_dir s' = g_data_dir s;
  sm_cwd : g_cwd s' = g_cwd s;
  sm_dirs : dirs s' = dirs s
}.

Lemma wp_modify f (Q : unit -> state -> Prop) E s : Q tt (f s) -> wp (modify f) Q E s.
Proof. done. Qed.

Section docroot.
Context (rest : string).
Let docroot := String "/"%char rest.

Lemma mk_meta_file_wp s file n sz (Q : Z -> state -> Prop) (E : state -> Prop) :
  0 < n -> 0 < sz -> docroot ∈ dirs s -> g_cwd s ∈ dirs s ->
  strlen docroot < MAX_LEN_DIR_NAME -> strlen file <= MAX_LEN_FILE_NAME ->
  (forall s', same_meta s s' -> docroot ∈ dirs s' -> g_cwd s' ∈ dirs s' -> Q n s') ->
  wp (mk_meta_file docroot file n sz) Q E s.
Proof.
  intros Hn Hsz Hd Hc Hlen Hlen2 HQ. unfold mk_meta_file. wp_step. apply wp_stuck_if.
  { rewrite strlen_app. lia. }
  do 3 wp_step. unfold mk_file. wp_step. wp_step; [nia|]. do 2 wp_step. wp_step. wp_step.
  { match goal with H : negb _ = true |- _ =>
      by apply negb_true_iff, bool_decide_eq_false in H end. }
  wp_step. apply wp_modify. wp_step. apply wp_modify. wp_step. wp_step.
  { match goal with H : negb _ = true |- _ =>
      by apply negb_true_iff, bool_decide_eq_false in H end. }
  apply wp_modify. wp_step. set (s1 := set_cwd (g_cwd s) _).
  assert (fs s1 !! path s1 (docroot +:+ file)%string = Some (repeat 0 (Z.to_nat (n * sz)))) as Hf.
  { apply lookup_insert_eq. }
  unfold wp at 1, rs_mmap. rewrite Hf.
  assert (zlen (repeat 0 (Z.to_nat (n * sz))) = n * sz) as Hz.
  { unfold zlen. rewrite repeat_length. nia. }
  rewrite Hz. wp_step. wp_step; [nia|]. wp_step. wp_step.
  { match goal with H : negb _ = true |- _ => rewrite Z.mod_mul in H by lia; done end. }
  wp_step. rewrite Z.div_mul by lia. apply HQ; [by split|done|done].
Qed.
End docroot.

Lemma lookup_repeat_zlookup {A} (x y : A) n i : repeat x n !z i = Some y -> y = x.
Proof.
  intros H. pose proof (zlookup_Some_range _ _ _ H). rewrite zlookup_to_nat in H by lia.
  apply list_elem_of_lookup_2, list_elem_of_In, repeat_spec in H. done.
Qed.

Lemma zlen_repeat {A} (x : A) n : zlen (repeat x n) = Z.of_nat n.
Proof. unfold zlen. by rewrite repeat_length. Qed.

Lemma fmap_repeat {A B} (f : A -> B) x n : f <$> repeat x n = repeat (f x) n.
Proof. induction n; [done|]. by cbn; f_equal. Qed.

(** The state after the records are initialised. *)
Definition fresh (s : state) (nt nf nht nhf nd : nat) : Prop :=
  g_tbls s = repeat zero_tbl_rec nt /\ g_flds s = repeat zero_fld_rec nf /\
  g_ddirs s = repeat ""%string nd /\
  g_ht_tbl s = repeat {| kv_key := 0; kv_val := -1 |} nht /\
  g_ht_fld s = repeat {| kv_key := 0; kv_val := -1 |} nhf.

Lemma fresh_wf s nt nf nht nhf nd :
  fresh s nt nf nht nhf nd -> (0 < nt)%nat -> (0 < nf)%nat -> (0 < nht)%nat -> (0 < nhf)%nat -> wf s.
Proof.
  intros (Et & Ef & _ & Eht & Ehf) Hnt Hnf Hnht Hnhf.
  assert (forall n, (0 < n)%nat -> forall m, 0 <= m ->
    ht_ok (repeat {| kv_key := 0; kv_val := -1 |} n) m) as Hht.
  { intros n Hn m Hm. split; [rewrite zlen_repeat; lia|]. apply Forall_forall.
    intros kv Hkv. apply list_elem_of_In, repeat_spec in Hkv. subst kv. simpl. lia. }
  assert (forall i t, g_tbls s !z i = Some t -> t = zero_tbl_rec) as Ht.
  { intros i t. rewrite Et. apply lookup_repeat_zlookup. }
  assert (forall i f, g_flds s !z i = Some f -> f = zero_fld_rec) as Hf.
  { intros i f. rewrite Ef. apply lookup_repeat_zlookup. }
  split; unfold g_n_tbl, g_n_fld; rewrite ?Et, ?Ef, ?Eht, ?Ehf, ?zlen_repeat;
    try (apply Hht; lia); try lia.
  - rewrite <- Et. intros i t ->%Ht. done.
  - rewrite <- Et. intros i t ->%Ht. done.
  - rewrite <- Et. intros i j t u ->%Ht ->%Ht. done.
  - rewrite <- Ef. intros i f ->%Hf. apply fld_ok_zero.
  - rewrite <- Ef. intros i j f g ->%Hf ->%Hf. intros _ _ Hu. by destruct not_used_zero.
Qed.

Lemma fresh_empty s nt nf nht nhf nd tn n :
  fresh s nt nf nht nhf nd -> wf s -> c_tbl (abs s) tn = None /\ c_fld (abs s) tn n = None.
Proof.
  intros (Et & _) Hwf. destruct (abs_no_tbl s tn Hwf) as [H1 H2]; [|by split].
  intros i t (Ht & Hn & Hne). rewrite Et in Ht. apply lookup_repeat_zlookup in Ht. by subst.
Qed.

(** Claim C37. [init_meta_data] of an absolute path of at most 510 characters
    to an existing directory succeeds and gives a well-formed catalog of 256
    records for tables and 8192 for fields, without tables and fields. *)
Theorem init_meta_data_correct (s : state) (rest : string) :
  let docroot := String "/"%char rest in
  strlen docroot < MAX_LEN_DIR_NAME -> docroot ∈ dirs s -> g_cwd s ∈ dirs s ->
  wp (init_meta_data (Some docroot))
    (fun _ s' => wf s' /\ g_n_tbl s' = MAX_NUM_TBLS /\ g_n_fld s' = MAX_NUM_FLDS /\
       g_n_ddir s' = MAX_NUM_DDIRS /\
       forall tn n, c_tbl (abs s') tn = None /\ c_fld (abs s') tn n = None)
    (fun _ => False) s.
Proof.
  intros docroot Hlen Hd Hc. unfold init_meta_data. wp_step. wp_step; [done|].
  change (default ""%string (Some docroot)) with docroot. cbv zeta.
  wp_step. wp_step; [lia|]. wp_step.
  apply (mk_meta_file_wp rest); [done|done|exact Hd|exact Hc|exact Hlen|done|].
  intros s1 H1 Hd1 Hc1. wp_step. apply wp_modify. wp_step.
  apply (mk_meta_file_wp rest); [done|done|exact Hd1|exact Hc1|exact Hlen|done|].
  intros s2 H2 Hd2 Hc2. wp_step. apply wp_modify. wp_step.
  apply (mk_meta_file_wp rest); [done|done|exact Hd2|exact Hc2|exact Hlen|done|].
  intros s3 H3 Hd3 Hc3. wp_step. apply wp_modify. wp_step.
  apply (mk_meta_file_wp rest); [done|done|exact Hd3|exact Hc3|exact Hlen|done|].
  intros s4 H4 Hd4 Hc4. wp_step. apply wp_modify. wp_step.
  apply (mk_meta_file_wp rest); [done|done|exact Hd4|exact Hc4|exact Hlen|done|].
  intros s5 H5 _ _. wp_step. apply wp_modify. apply wp_modify.
  set (s6 := set_meta_data _ _ _ _ _ _).
  assert (fresh s6 (Z.to_nat MAX_NUM_TBLS) (Z.to_nat MAX_NUM_FLDS) (Z.to_nat G_HT_TBL_SIZE)
    (Z.to_nat G_HT_FLD_SIZE) (Z.to_nat MAX_NUM_DDIRS)) as Hfresh.
  { unfold fresh, s6, set_meta_data. cbn [g_tbls g_flds g_ddirs g_ht_tbl g_ht_fld].
    rewrite (sm_tbls _ _ H5), (sm_flds _ _ H5), (sm_ht_tbl _ _ H5), (sm_ht_fld _ _ H5).
    unfold set_flds at 1 2 3 4. cbn [g_tbls g_flds g_ddirs g_ht_tbl g_ht_fld].
    rewrite (sm_tbls _ _ H4), (sm_ht_tbl _ _ H4), (sm_ht_fld _ _ H4).
    unfold set_tbls at 1 2 3. cbn [g_tbls g_flds g_ddirs g_ht_tbl g_ht_fld].
    rewrite (sm_ht_tbl _ _ H3), (sm_ht_fld _ _ H3).
    unfold set_meta_data at 1 2. cbn [g_tbls g_flds g_ddirs g_ht_tbl g_ht_fld].
    rewrite (sm_ht_tbl _ _ H2). unfold set_meta_data. cbn [g_tbls g_flds g_ddirs g_ht_tbl g_ht_fld].
    by rewrite !fmap_repeat. }
  assert (wf s6) as Hwf.
  { apply (fresh_wf s6 _ _ _ _ _ Hfresh); unfold MAX_NUM_TBLS, MAX_NUM_FLDS, G_HT_TBL_SIZE, G_HT_FLD_SIZE; lia. }
  pose proof Hfresh as (Et & Ef & Ed & _). split_and!; [done|..].
  - unfold g_n_tbl. rewrite Et, zlen_repeat. unfold MAX_NUM_TBLS. lia.
  - unfold g_n_fld. rewrite Ef, zlen_repeat. unfold MAX_NUM_FLDS. lia.
  - unfold g_n_ddir. rewrite Ed, zlen_repeat. unfold MAX_NUM_DDIRS. lia.
  - intros tn n. by apply (fresh_empty s6 _ _ _ _ _ tn n Hfresh).
Qed.

Lemma init_meta_data_correct_witness :
  let s := small in
  wp (init_meta_data (Some "/data"%string))
    (fun _ s' => wf s' /\ g_n_tbl s' = MAX_NUM_TBLS /\ g_n_fld s' = MAX_NUM_FLDS /\
       g_n_ddir s' = MAX_NUM_DDIRS /\
       forall tn n, c_tbl (abs s') tn = None /\ c_fld (abs s') tn n = None)
    (fun _ => False) s.
Proof.
  apply (init_meta_data_correct small "data").
  - reflexivity.
  - simpl. set_solver.
  - simpl. set_solver.
Defined.

(** [init_meta_data] accepts a path of 511 characters, and then
    writes the NUL of the name of its first file behind its buffer. *)
Theorem init_meta_data_overflow (s : state) (docroot : string) :
  strlen docroot = MAX_LEN_DIR_NAME -> init_meta_data (Some docroot) s = Stuck.
Proof.
  intros Hlen. unfold init_meta_data.
  assert (null_or_empty (Some docroot) = false) as -> by (by destruct docroot).
  change (default ""%string (Some docroot)) with docroot. cbv zeta.
  rewrite (proj2 (Z.ltb_ge MAX_LEN_DIR_NAME (strlen docroot))) by lia.
  assert (mk_meta_file docroot "/docroot.ht_tbl" G_HT_TBL_SIZE sizeof_META_KEY_VAL_TYPE s = Stuck)
    as Hst by (unfold mk_meta_file; cbv zeta; by rewrite strlen_app, Hlen).
  unfold fail_if at 1 2. unfold mbind, M_bind, mret, M_ret. by rewrite Hst.
Qed.

Lemma init_meta_data_overflow_witness :
  exists d, strlen d = MAX_LEN_DIR_NAME /\ init_meta_data (Some d) small = Stuck.
Proof.
  exists (Nat.iter 511 (String "/"%char) ""%string).
  assert (strlen (Nat.iter 511 (String "/"%char) ""%string) = MAX_LEN_DIR_NAME) as H
    by (vm_compute; reflexivity).
  split; [exact H|]. apply (init_meta_data_overflow small). exact H.
Defined.

(** ** Attributes *)

Section attrs.
Context (s : state) (i : Z) (f : FLD_REC_TYPE) (st : SORT_TYPE) (ft : FLD_TYPE) (dn : string)
  (dict c : Z).
Context (Hwf : wf s) (Hi : g_flds s !z i = Some f) (Hused : used f) (Haux : auxtype f = undef).
Let f' := fld_set_attrs st ft dn dict c f.
Let l := zset (g_flds s) i f'.
Let s2 := set_flds (fun _ => l) s.

Lemma attrs_lookup j : l !z j = if decide (j = i) then Some f' else g_flds s !z j.
Proof. pose proof (zlookup_Some_range _ _ _ Hi). unfold l. by rewrite zlookup_zset. Qed.

Lemma attrs_rec j g : g_flds s !z j = Some g ->
  exists g', l !z j = Some g' /\ name g' = name g /\ auxtype g' = auxtype g /\
    parent_id g' = parent_id g /\ tbl_id g' = tbl_id g /\ nn_fld_id g' = nn_fld_id g /\
    data_of g' = data_of g.
Proof.
  intros Hg. rewrite attrs_lookup. destruct (decide (j = i)) as [->|]; [|by exists g].
  exists f'. assert (g = f) as -> by congruence. by split_and!.
Qed.

Lemma attrs_links j g g' :
  auxtype g' = auxtype g -> parent_id g' = parent_id g -> tbl_id g' = tbl_id g ->
  nn_fld_id g' = nn_fld_id g -> links_ok (g_flds s) j g -> links_ok l j g'.
Proof.
  intros E1 E2 E3 E4. unfold links_ok. rewrite E1, E2, E4. destruct (auxtype g).
  - intros [? Hl]. split; [done|]. intros Hge. destruct (Hl Hge) as (h & Hh & [? ? ? ?]).
    destruct (attrs_rec _ h Hh) as (h' & ? & ? & ? & ? & ? & _). exists h'. split; [done|].
    split; unfold used in *; congruence.
  - intros (? & ? & p & Hp & ? & ? & ?). split_and!; [done..|].
    destruct (attrs_rec _ p Hp) as (p' & ? & ? & ? & ? & ? & ? & _). exists p'.
    split_and!; unfold used in *; congruence.
Qed.

Lemma attrs_wf : wf s2.
Proof.
  apply wf_set_flds; [done|apply zlen_zset|..].
  - intros j g. rewrite attrs_lookup. destruct (decide (j = i)) as [->|].
    + intros [= <-]. destruct (wf_fld s Hwf i f Hi) as [? ? ? ? ? Hl].
      split; [done|done|by intros []|done|done|]. intros _. by apply (attrs_links i f); [..|apply Hl].
    + intros Hg. apply fld_ok_keep; [by apply wf_fld|]. intros Hu.
      apply (attrs_links j g); [done..|]. by apply (wf_fld s Hwf).
  - assert (forall j g, l !z j = Some g -> exists g0, g_flds s !z j = Some g0 /\
      tbl_id g0 = tbl_id g /\ name g0 = name g) as Hback.
    { intros j g. rewrite attrs_lookup. destruct (decide (j = i)) as [->|]; [|by exists g].
      intros [= <-]. by exists f. }
    intros j k g h Hg Hh Ht Hn Hu. destruct (Hback j g Hg) as (g0 & ? & ? & ?).
    destruct (Hback k h Hh) as (h0 & ? & ? & ?).
    apply (wf_fld_unique s Hwf j k g0 h0); unfold used in *; congruence.
Qed.

Lemma attrs_has_fld ti j fn g :
  has_fld s2 ti j fn g <->
  (j <> i /\ has_fld s ti j fn g) \/ (j = i /\ g = f' /\ has_fld s ti i fn f).
Proof.
  unfold has_fld. simpl. rewrite attrs_lookup. destruct (decide (j = i)) as [->|].
  - split.
    + intros (Hg & Ht & Hn & Hne & Ha). right. assert (g = f') as -> by congruence. by split_and!.
    + by intros [[? _]|(_ & -> & _ & ? & ? & ? & ?)].
  - split; [by left|]. by intros [[_ ?]|[? _]].
Qed.

Lemma attrs_info g : info_of l g = info_of (g_flds s) g.
Proof.
  unfold info_of. f_equal. destruct (0 <=? nn_fld_id g); [|done].
  rewrite attrs_lookup. case_decide as E; [|done]. by rewrite E, Hi.
Qed.

Lemma attrs_abs tn t :
  has_tbl s (tbl_id f) tn t ->
  cat_eq (abs s2) (a_set_fld tn (name f)
    ((fun d => {| fi_type := ft; fi_sort := st; fi_data := fi_data d; fi_nn := fi_nn d |}) <$>
       c_fld (abs s) tn (name f)) (abs s)).
Proof.
  intros Ht. pose proof attrs_wf as Hwf2.
  assert (has_fld s (tbl_id f) i (name f) f) as Hf by done.
  apply (flds_abs s s2 Hwf Hwf2 eq_refl (tbl_id f) tn t); [done|..].
  - intros ti j fn g Hne Hg. exists g. split; [|apply attrs_info]. apply attrs_has_fld. left.
    split; [|done]. intros ->. destruct Hne, Hg as (Hg & <- & <- & _). split; congruence.
  - intros ti j fn g _ Hg. apply attrs_has_fld in Hg as [[_ Hg]|(-> & _ & Hg)]; eauto.
  - rewrite (c_fld_is s s Hwf eq_refl _ tn t _ i f Ht Hf).
    rewrite (c_fld_is s s2 Hwf2 eq_refl _ tn t _ i f' Ht); [|apply attrs_has_fld; by right].
    simpl. f_equal. unfold info_of. simpl. f_equal. destruct (0 <=? nn_fld_id f); [|done].
    rewrite attrs_lookup. case_decide as E; [|done]. by rewrite E, Hi.
Qed.
End attrs.

Definition unstr_sort_type (v : string) : option SORT_TYPE :=
  if strcmp_eq v "unknown" then Some unknown
  else if strcmp_eq v "ascending" then Some ascending
  else if strcmp_eq v "descending" then Some descending
  else if strcmp_eq v "unsorted" then Some unsorted
  else None.

(** What an attribute changes in the description of a field. *)
Definition set_attr (attr value : string) (d : fld_info) : fld_info :=
  {| fi_type := if strcmp_eq attr "fldtype" then
                  match unstr_fldtype (Some value) with Ok ft => ft | _ => fi_type d end
                else fi_type d;
     fi_sort := if strcmp_eq attr "sort_type" then default (fi_sort d) (unstr_sort_type value)
                else fi_sort d;
     fi_data := fi_data d; fi_nn := fi_nn d |}.

Section set_meta.
Context (s : state) (tid : Z) (tn : string) (t : TBL_REC_TYPE) (i : Z) (n : string) (f : FLD_REC_TYPE).
Context (Hwf : wf s) (Ht : has_tbl s tid tn t) (Hf : has_fld s tid i n f).

(** The field with type [ft] and order [st], the rest as it was. *)
Definition attrs_set (st : SORT_TYPE) (ft : FLD_TYPE) (s' : state) : Prop :=
  wf s' /\ cat_eq (abs s') (a_set_fld tn n
    (Some {| fi_type := ft; fi_sort := st; fi_data := data_of f;
             fi_nn := fi_nn (info_of (g_flds s) f) |}) (abs s)).

Lemma upd_attrs_wp F (Q : unit -> state -> Prop) E :
  (exists st ft dn dict c, F f = fld_set_attrs st ft dn dict c f) ->
  (forall s', attrs_set (sort_type (F f)) (fldtype (F f)) s' -> Q tt s') ->
  wp (upd_fld i F) Q E s.
Proof.
  intros (st & ft & dn & dict & c & EF) HQ. pose proof Hf as (Hi & Hti & Hn & Hne & Ha).
  apply (wp_upd_fld _ f); [done|]. rewrite EF in *. apply HQ. assert (used f) as Hu by (unfold used; congruence).
  split; [by apply attrs_wf|].
  pose proof (attrs_abs s i f st ft dn dict c Hwf Hi Hu Ha tn t) as Habs. rewrite Hti, Hn in Habs.
  rewrite (c_fld_is s s Hwf eq_refl tid tn t n i f Ht Hf) in Habs. by apply Habs.
Qed.

Lemma attrs_same : attrs_set (sort_type f) (fldtype f) s.
Proof.
  split; [done|]. split; [done|]. intros tn' fn. unfold a_set_fld. cbn [c_fld].
  destruct (decide _) as [[-> ->]|]; [|done].
  by rewrite (c_fld_is s s Hwf eq_refl tid tn t n i f Ht Hf).
Qed.

Lemma set_sort_type_wp v (Q : unit -> state -> Prop) (E : state -> Prop) :
  (forall st s', unstr_sort_type v = Some st -> attrs_set st (fldtype f) s' -> Q tt s') ->
  E s -> wp (set_sort_type i v) Q E s.
Proof.
  intros HQ HE. unfold set_sort_type, unstr_sort_type in *.
  repeat (destruct (strcmp_eq v _);
    [apply upd_attrs_wp; [by repeat eexists|intros s' Hs'; by eapply HQ]|]).
  by wp_step.
Qed.

Lemma unstr_fldtype_cases v : (exists ft, unstr_fldtype (Some v) = Ok ft) \/ unstr_fldtype (Some v) = Err.
Proof. unfold unstr_fldtype. repeat (destruct (strcmp_eq v _); [eauto|]). by right. Qed.

Lemma int_set_meta_wp attr value (Q : unit -> state -> Prop) (E : state -> Prop) :
  (forall s', attrs_set (fi_sort (set_attr attr value (info_of (g_flds s) f)))
                (fi_type (set_attr attr value (info_of (g_flds s) f))) s' -> Q tt s') ->
  E s -> wp (int_set_meta tid i (Some attr) (Some value)) Q E s.
Proof.
  intros HQ HE. pose proof Hf as (Hi & Hti & Hn & Hne & Ha).
  pose proof (zlookup_Some_range _ _ _ Hi) as Hr.
  unfold int_set_meta, set_attr in *. cbn [fi_sort fi_type info_of] in HQ.
  wp_step. wp_step; [done|].
  destruct (strcmp_eq attr "dict_tbl_id") eqn:E1.
  { apply strcmp_eq_spec in E1. subst attr. destruct (strtoll value) as [v rest].
    wp_step. wp_step; [done|]. wp_step. apply (wp_rd_fld _ f); [done|]. wp_step. wp_step; [done|].
    do 2 wp_step. wp_step. wp_step; [done|]. apply upd_attrs_wp; [by repeat eexists|exact HQ]. }
  destruct (strcmp_eq attr "cnt") eqn:E2.
  { apply strcmp_eq_spec in E2. subst attr. destruct (strtoll value) as [v rest].
    wp_step. wp_step; [done|]. wp_step. apply (wp_rd_fld _ f); [done|]. wp_step.
    apply (wp_rd_tbl _ t); [rewrite Hti; apply Ht|]. wp_step. wp_step; [done|]. wp_step. wp_step; [done|].
    apply upd_attrs_wp; [by repeat eexists|exact HQ]. }
  destruct (strcmp_eq attr "fldtype") eqn:E3.
  { apply strcmp_eq_spec in E3. subst attr. wp_step.
    destruct (unstr_fldtype_cases value) as [(ft & Eft)|Eft]; [|by apply wp_lift_Err].
    apply (wp_lift_Ok _ ft); [done|]. rewrite Eft in HQ. wp_step. apply (wp_rd_fld _ f); [done|].
    wp_step; [apply upd_attrs_wp; [by repeat eexists|exact HQ]|].
    apply HQ. match goal with H : negb _ = false |- _ =>
      apply negb_false_iff, bool_decide_eq_true in H; rewrite <- H end. apply attrs_same. }
  destruct (strcmp_eq attr "sort_type") eqn:E4.
  { apply set_sort_type_wp; [|done]. intros st s' Est. rewrite Est in HQ. exact (HQ s'). }
  destruct (strcmp_eq attr "is_dict_tbl") eqn:E5.
  { wp_step. wp_step; [done|lia]. }
  destruct (strcmp_eq attr "disp_name") eqn:E6; [|by wp_step].
  unfold set_disp_name. rewrite (proj2 (Z.ltb_ge i 0)) by lia.
  wp_step. wp_step; [done|]. do 2 wp_step. wp_step. wp_step; [done|].
  apply upd_attrs_wp; [by repeat eexists|exact HQ].
Qed.
End set_meta.

(** [set_meta] of an attribute of a field that exists and is no nn
    field, from a well-formed catalog: on success the catalog is well-formed
    and only that field has changed, by the attribute; on failure nothing has. *)
Theorem set_meta_correct (s : state) (tid : Z) (tn : string) (t : TBL_REC_TYPE)
    (i : Z) (n : string) (f : FLD_REC_TYPE) (attr value : string) :
  wf s -> has_tbl s tid tn t -> has_fld s tid i n f ->
  wp (set_meta (Some tn) (Some n) (Some attr) (Some value))
    (fun _ s' => wf s' /\
       cat_eq (abs s') (a_set_fld tn n (set_attr attr value <$> c_fld (abs s) tn n) (abs s)))
    (fun s' => s' = s) s.
Proof.
  intros Hwf Ht Hf. pose proof (zlookup_Some_range _ _ _ (proj1 Ht)).
  pose proof (zlookup_Some_range _ _ _ (proj1 Hf)). pose proof Hf as (_ & _ & _ & Hne & _).
  unfold set_meta. wp_step. apply (is_tbl_found s tid tn t); [done|done|]. wp_step. wp_step; [done|].
  assert (null_or_empty (Some n) = false) as -> by (by destruct n).
  wp_step. wp_step. apply (is_fld_found s None tid i f n); [done|lia|done|]. intros g0.
  wp_step. wp_step; [done|]. wp_step.
  apply (int_set_meta_wp s tid tn t i n f Hwf Ht Hf); [|done].
  intros s' [Hw Hc]. split; [done|]. by rewrite (c_fld_is s s Hwf eq_refl tid tn t n i f Ht Hf).
Qed.

Lemma wp_run {A} (m : M A) (Q : A -> state -> Prop) E s a s' :
  wp m Q E s -> m s = Ret a s' -> Q a s'.
Proof. unfold wp. intros H E1. by rewrite E1 in H. Qed.

Lemma run_wp {A} (m : M A) s a s' :
  wp m (fun a2 s2 => a2 = a /\ s2 = s') (fun _ => False) s -> m s = Ret a s'.
Proof. unfold wp. destruct (m s); [by intros [-> ->]|done..]. Qed.

Lemma unstr_mk_sort v st : unstr_sort_type v = Some st -> mk_str_sort_type st = v.
Proof.
  unfold unstr_sort_type. intros H.
  repeat (match goal with H : context [strcmp_eq v ?x] |- _ =>
    destruct (strcmp_eq v x) eqn:E; [apply strcmp_eq_spec in E; injection H as <-; by subst|clear E] end).
  done.
Qed.

(** The sort order that [set_meta] has stored is the one that
    [get_meta] gives. *)
Theorem get_set_sort_type (s s' : state) (tid : Z) (tn : string) (t : TBL_REC_TYPE)
    (i : Z) (n : string) (f : FLD_REC_TYPE) (v : string) :
  wf s -> has_tbl s tid tn t -> has_fld s tid i n f ->
  set_meta (Some tn) (Some n) (Some "sort_type"%string) (Some v) s = Ret tt s' ->
  get_meta (Some tn) (Some n) (Some "sort_type"%string) s' = Ret v s'.
Proof.
  intros Hwf Ht Hf Hrun. pose proof (zlookup_Some_range _ _ _ (proj1 Ht)).
  pose proof (zlookup_Some_range _ _ _ (proj1 Hf)). pose proof Hf as (_ & _ & _ & Hne & _).
  assert (null_or_empty (Some n) = false) as Hn0 by (by destruct n).
  assert (exists st, unstr_sort_type v = Some st /\ attrs_set s tn n f st (fldtype f) s') as (st & Hst & Hw & Hc).
  { refine (wp_run _ (fun _ s' => exists st, unstr_sort_type v = Some st /\
      attrs_set s tn n f st (fldtype f) s') (fun _ => True) s tt s' _ Hrun).
    unfold set_meta. wp_step. apply (is_tbl_found s tid tn t); [done|done|]. wp_step. wp_step; [done|].
    rewrite Hn0. wp_step. wp_step. apply (is_fld_found s None tid i f n); [done|lia|done|]. intros g0.
    wp_step. wp_step; [done|]. wp_step. unfold int_set_meta. wp_step. wp_step; [done|].
    apply (set_sort_type_wp s tid tn t i n f Hwf Ht Hf); [|done]. intros st s2 ? ?. by exists st. }
  assert (c_fld (abs s') tn n = Some {| fi_type := fldtype f; fi_sort := st; fi_data := data_of f;
    fi_nn := fi_nn (info_of (g_flds s) f) |}) as Hcf.
  { rewrite (ce_fld _ _ Hc). unfold a_set_fld. cbn [c_fld]. by rewrite decide_True. }
  apply (abs_fld_Some s' Hw) in Hcf as (tid' & t' & i' & f' & Ht' & Hf' & Hi').
  pose proof (zlookup_Some_range _ _ _ (proj1 Ht')) as Hrt. pose proof (zlookup_Some_range _ _ _ (proj1 Hf')) as Hrf.
  apply run_wp. unfold get_meta. wp_step. apply (is_tbl_found s' tid' tn t'); [done|done|].
  wp_step. wp_step; [done|]. rewrite Hn0. wp_step. wp_step.
  apply (is_fld_found s' None tid' i' f' n); [done|lia|done|]. intros g0. wp_step. wp_step; [done|]. wp_step.
  unfold int_get_meta. wp_step. wp_step; [done|]. wp_step. wp_step; [done|]. wp_step.
  apply (wp_rd_fld _ f'); [apply Hf'|]. wp_step. wp_step.
  { destruct Hf' as (_ & <- & _). match goal with H : negb _ = true |- _ => rewrite Z.eqb_refl in H end. done. }
  change (strcmp_eq "sort_type" "sort_type") with true. cbn iota. wp_step. split; [|done].
  rewrite <- (unstr_mk_sort v st Hst). f_equal. by injection Hi'.
Qed.

Definition small_y : FLD_REC_TYPE := small_fld 0 "y" "_y" (-1) (-1) undef I4 1.
Lemma small_has_y : has_fld small 0 2 "y" small_y.
Proof. split_and!; [reflexivity|reflexivity|reflexivity|discriminate|reflexivity]. Qed.

Lemma set_meta_correct_witness :
  wp (set_meta (Some "t1"%string) (Some "y"%string) (Some "fldtype"%string) (Some "F4"%string))
    (fun _ s' => wf s' /\
       cat_eq (abs s') (a_set_fld "t1" "y" (set_attr "fldtype" "F4" <$> c_fld (abs small) "t1" "y")
         (abs small)))
    (fun s' => s' = small) small.
Proof.
  apply (set_meta_correct small 0 "t1" (small_tbl "t1") 2 "y" small_y "fldtype" "F4").
  - exact small_wf.
  - exact small_t1.
  - exact small_has_y.
Defined.

Lemma get_set_sort_type_witness :
  exists s', set_meta (Some "t1"%string) (Some "y"%string) (Some "sort_type"%string)
      (Some "ascending"%string) small = Ret tt s' /\
    get_meta (Some "t1"%string) (Some "y"%string) (Some "sort_type"%string) s' =
      Ret "ascending"%string s'.
Proof.
  eexists. split; [vm_compute; reflexivity|].
  apply (get_set_sort_type small _ 0 "t1" (small_tbl "t1") 2 "y" small_y "ascending").
  - exact small_wf.
  - exact small_t1.
  - exact small_has_y.
  - vm_compute. reflexivity.
Defined.

(** The id of a dictionary is not checked against the number of tables. *)
Lemma set_meta_dict_tbl_id_range :
  exists s', set_meta (Some "t1"%string) (Some "y"%string) (Some "dict_tbl_id"%string)
      (Some "3"%string) small = Ret tt s' /\
    g_n_tbl s' = 3 /\ dict_tbl_id <$> g_flds s' !z 2 = Some 3.
Proof. eexists. split; [vm_compute; reflexivity|]. split; reflexivity. Qed.

(** Without a field, an attribute of fields is looked for before the array. *)
Lemma set_meta_without_field :
  set_meta (Some "t1"%string) None (Some "sort_type"%string) (Some "ascending"%string) small = Stuck.
Proof. vm_compute. reflexivity. Qed.
