(* ===== verification/Store.v ===== *)
(** * The data files of fields.

    A data file holds the cells of a field one after the other, little-endian
    as on the machines the store runs on.  This file gives the bytes of integer
    and floating-point cells, and models [get_data] and the writable [q_mmap]
    of dir_dbutils/dbauxil.c, mk_temp_file.c and open_temp_file.c, on the state
    of Catalog.v.  The verbs of FieldVerbs.v are written with them. *)

From stdpp Require Import prelude strings gmap.
From Stdlib Require Import ZArith Lia SpecFloat Ascii.
From S2P Require Import Prelude CString Types Reduce Elem Vec Catalog Verbs.
Import Reduce.

(** ** Cells *)

(** The bytes of an unsigned number, and back. *)
Fixpoint le_bytes (n : nat) (z : Z) : list Z :=
  match n with O => [] | S n => z mod 256 :: le_bytes n (z / 256) end.
Fixpoint le_value (bs : list Z) : Z := match bs with [] => 0 | b :: bs => b + 256 * le_value bs end.

(** A file of [n] cells of [sz] bytes. *)
Fixpoint chunks (sz n : nat) (bs : list Z) : list (list Z) :=
  match n with O => [] | S n => take sz bs :: chunks sz n (drop sz bs) end.
Definition words_of_bytes (sz : Z) (bs : list Z) : list Z :=
  le_value <$> chunks (Z.to_nat sz) (Z.to_nat (zlen bs / sz)) bs.
Definition ints_of_bytes (sz : Z) (bs : list Z) : list Z := wrapS (8 * sz) <$> words_of_bytes sz bs.
Definition bytes_of_ints (sz : Z) (X : list Z) : list Z := X ≫= fun x => le_bytes (Z.to_nat sz) (wrapU (8 * sz) x).

(** IEEE 754 with [mb] bits of mantissa and [eb] of exponent. *)
Definition least_exponent (mb eb : Z) : Z := 2 - 2 ^ (eb - 1) - mb.
Definition float_of_bits (mb eb b : Z) : float :=
  let m := Z.land b (Z.ones mb) in
  let e := Z.land (Z.shiftr b mb) (Z.ones eb) in
  let s := Z.testbit b (mb + eb) in
  if e =? 0 then
    match m with Zpos p => S754_finite s p (least_exponent mb eb) | _ => S754_zero s end
  else if e =? Z.ones eb then (if m =? 0 then S754_infinity s else S754_nan)
  else match m + 2 ^ mb with Zpos p => S754_finite s p (e - 1 + least_exponent mb eb) | _ => S754_nan end.
Definition bits_of_float (mb eb : Z) (x : float) : Z :=
  let sign (s : bool) := if s then 2 ^ (mb + eb) else 0 in
  match x with
  | S754_zero s => sign s
  | S754_infinity s => sign s + Z.ones eb * 2 ^ mb
  | S754_nan => Z.ones eb * 2 ^ mb + 2 ^ (mb - 1)
  | S754_finite s p e =>
      sign s + (if Zpos p <? 2 ^ mb then Zpos p else (e - least_exponent mb eb + 1) * 2 ^ mb + (Zpos p - 2 ^ mb))
  end.

(** The cells of a file by the type of the field.  A bit field is read by
    words of 64 bits. *)
Definition cell_size (t : FLD_TYPE) : Z := match get_fld_sz t with Ok sz => sz | _ => 8 end.
Definition read_column (t : FLD_TYPE) (bs : list Z) : column :=
  match t with
  | F4 => Floats (float_of_bits 23 8 <$> words_of_bytes 4 bs)
  | F8 => Floats (float_of_bits 52 11 <$> words_of_bytes 8 bs)
  | _ => Ints (ints_of_bytes (cell_size t) bs)
  end.
Definition column_bytes (t : FLD_TYPE) (X : column) : list Z :=
  match X with
  | Ints X => bytes_of_ints (cell_size t) X
  | Floats X =>
      bytes_of_ints (cell_size t) (match t with F4 => bits_of_float 23 8 <$> X | _ => bits_of_float 52 11 <$> X end)
  end.

(** Flags are bytes. *)
Definition read_flags (bs : list Z) : list Z := ints_of_bytes 1 bs.
Definition flag_bytes (nn_X : list Z) : list Z := bytes_of_ints 1 nn_X.

Example one_and_a_half : float_of_bits 23 8 1069547520 = S754_finite false 12582912 (-23).
Proof. reflexivity. Qed.
Example minus_two : read_column F8 [0; 0; 0; 0; 0; 0; 0; 192] = Floats [S754_finite true 4503599627370496 (-51)].
Proof. vm_compute. reflexivity. Qed.
Example int_cells : read_column I2 [1; 0; 255; 255] = Ints [1; -1] /\ column_bytes I2 (Ints [1; -1]) = [1; 0; 255; 255].
Proof. by vm_compute. Qed.

(** ** Files *)

(** [get_data(fld_rec, &X, &nX, is_write)] *)
Definition get_data (f : FLD_REC_TYPE) : M (list Z) :=
  fail_if (strcmp_eq (filename f) "");;
  (if 0 <=? ddir_id f then
     n ← gets g_n_ddir;
     fail_if (n <=? ddir_id f);;
     alt_data_dir ← rd_ddir (ddir_id f);
     fail_if (strcmp_eq alt_data_dir "");;
     chdir (Some alt_data_dir)
   else
     d ← gets g_data_dir;
     fail_if (null_or_empty d);;
     chdir d);;
  X ← rs_mmap (filename f);
  fail_if (zlen X =? 0);;
  chdir_back;;
  mret X.

(** A file mapped for writing: where it is. *)
Definition q_mmap_write (id : Z) (file : string) : M (string * string) :=
  chdir_ddir id;;
  p ← gets (fun s => path s file);
  rs_mmap file;;
  chdir_back;;
  mret p.
(** What the process has written through the mapping. *)
Definition write_cells (p : string * string) (bs : list Z) : M unit := modify (set_fs (insert p bs)).

(** What the verbs ask of the system: the name that [mkstemp] makes in a
    directory, the space [statvfs] and [get_disk_space] report, the clock; and
    [g_alt_ddir_id], the directory for new files named on the command line. *)
Record env := {
  mkstemp : state -> string -> string;
  avail_space : string -> option Z;
  free_space : string -> option Z;
  usec : Z;
  g_alt_ddir_id : Z
}.

Definition open_temp_file (ev : env) (dir : string) (filesize : Z) : M string :=
  when (0 <? filesize)
    (match avail_space ev dir with None => go_BYE | Some space_available => fail_if (space_available <=? filesize) end);;
  ds ← gets dirs;
  fail_if (negb (bool_decide (dir ∈ ds)));;
  modify (set_cwd dir);;
  fname ← gets (fun s => mkstemp ev s dir);
  modify (fun s => set_fs (insert (path s fname) []) s);;
  cwd ← gets g_cwd;
  fail_if (negb (bool_decide (cwd ∈ ds)));;
  modify (set_cwd cwd);;
  mret fname.

(** The name of the new file and the id of its directory.  Without enough
    space in the alternative directory the id is that of the data directory;
    the file is made in the alternative directory. *)
Definition mk_temp_file (ev : env) (filesz : Z) : M (string * Z) :=
  d ← gets g_data_dir;
  match d with
  | None => go_BYE
  | Some data_dir =>
      '(dir, id) ←
        (if g_alt_ddir_id ev <? 0 then mret (data_dir, -1)
         else
           dir ← rd_ddir (g_alt_ddir_id ev);
           if 0 <? filesz then
             match free_space ev dir with
             | None => go_BYE
             | Some free => mret (dir, if free <? filesz then -1 else g_alt_ddir_id ev)
             end
           else mret (dir, g_alt_ddir_id ev));
      opfile ← open_temp_file ev dir filesz;
      cwd ← gets g_cwd;
      lift (mk_size filesz);;
      mk_file cwd (Some dir) (Some opfile) filesz;;
      mret (opfile, id)
  end.

(** ** Cells are read as they were written *)

Lemma le_bytes_length n : forall z, length (le_bytes n z) = n.
Proof. induction n as [|n IH]; intros z; simpl; [done|]. by rewrite IH. Qed.

Lemma le_value_bytes n : forall z, 0 <= z < 256 ^ Z.of_nat n -> le_value (le_bytes n z) = z.
Proof.
  induction n as [|n IH]; intros z Hz; [simpl in *; lia|]. cbn [le_bytes le_value].
  rewrite Nat2Z.inj_succ, Z.pow_succ_r in Hz by lia. rewrite IH.
  - pose proof (Z.div_mod z 256). lia.
  - split; [apply Z.div_pos; lia|]. apply Z.div_lt_upper_bound; lia.
Qed.

Lemma bytes_of_ints_length sz X : 0 <= sz -> zlen (bytes_of_ints sz X) = sz * zlen X.
Proof.
  intros Hsz. unfold bytes_of_ints. induction X as [|x X IH]; [unfold zlen; simpl; lia|].
  cbn [mbind list_bind]. rewrite zlen_app, IH, zlen_cons. unfold zlen at 1. rewrite le_bytes_length. lia.
Qed.

Lemma chunks_of_bytes sz (g : Z -> list Z) X : (forall x, length (g x) = sz) -> chunks sz (length X) (X ≫= g) = g <$> X.
Proof.
  intros Hg. induction X as [|x X IH]; [done|]. rewrite fmap_cons. cbn [mbind list_bind length chunks].
  rewrite take_app_length' by done. rewrite drop_app_length' by done. by rewrite <- IH.
Qed.

Lemma words_roundtrip sz X : 0 < sz -> words_of_bytes sz (bytes_of_ints sz X) = wrapU (8 * sz) <$> X.
Proof.
  intros Hsz. unfold words_of_bytes. rewrite bytes_of_ints_length by lia.
  replace (sz * zlen X / sz) with (zlen X) by (rewrite Z.mul_comm, Z.div_mul; lia).
  rewrite to_nat_zlen. unfold bytes_of_ints. rewrite chunks_of_bytes by (intros; apply le_bytes_length).
  rewrite <- list_fmap_compose. apply list_fmap_ext. intros i x _. unfold compose. apply le_value_bytes.
  pose proof (wrapU_range (8 * sz) x ltac:(lia)) as Hr. unfold inU in Hr. rewrite Z2Nat.id by lia.
  change 256 with (2 ^ 8). rewrite <- Z.pow_mul_r by lia. done.
Qed.
Lemma fmap_id_on {A} (g : A -> A) (l : list A) : Forall (fun x => g x = x) l -> g <$> l = l.
Proof. induction 1 as [|x l Hx _ IH]; [done|]. by rewrite fmap_cons, Hx, IH. Qed.
Lemma ints_roundtrip sz X : 0 < sz -> Forall (inS (8 * sz)) X -> ints_of_bytes sz (bytes_of_ints sz X) = X.
Proof.
  intros Hsz HX. unfold ints_of_bytes. rewrite words_roundtrip, <- list_fmap_compose by done.
  apply fmap_id_on. eapply Forall_impl; [exact HX|]. intros x Hx. by apply wrapU_wrapS.
Qed.

(** Floating-point numbers of the format. *)
Lemma digits2_bounds p : 2 ^ (Zpos (digits2_pos p) - 1) <= Zpos p < 2 ^ Zpos (digits2_pos p).
Proof.
  induction p as [p IH|p IH|]; cbn [digits2_pos]; [| |simpl; lia]; rewrite Pos2Z.inj_succ;
    replace (Z.succ (Zpos (digits2_pos p)) - 1) with (Zpos (digits2_pos p)) by lia;
    rewrite Z.pow_succ_r by lia; replace (2 ^ Zpos (digits2_pos p)) with (2 * 2 ^ (Zpos (digits2_pos p) - 1)) in *
      by (rewrite <- Z.pow_succ_r by lia; f_equal; lia); lia.
Qed.

Section floats.
Context (mb eb : Z) (Hmb : 1 < mb) (Heb : 1 < eb).

(** The three parts of the bits. *)
Lemma float_parts s e m : 0 <= m < 2 ^ mb -> 0 <= e < 2 ^ eb ->
  let b := (if s : bool then 2 ^ (mb + eb) else 0) + (e * 2 ^ mb + m) in
  Z.land b (Z.ones mb) = m /\ Z.land (Z.shiftr b mb) (Z.ones eb) = e /\ Z.testbit b (mb + eb) = s /\
  0 <= b < 2 ^ (mb + eb + 1).
Proof.
  intros Hm He b. rewrite (Z.pow_add_r 2 (mb + eb) 1), (Z.pow_add_r 2 mb eb) in * by lia.
  assert (b = ((if s then 2 ^ eb else 0) + e) * 2 ^ mb + m) as Eb by (unfold b; rewrite Z.pow_add_r by lia; destruct s; ring).
  assert (b / 2 ^ mb = (if s then 2 ^ eb else 0) + e) as Ed by (rewrite Eb, Z.div_add_l, Z.div_small; lia).
  rewrite Z.testbit_odd, !Z.land_ones, !Z.shiftr_div_pow2, Ed, Z.pow_add_r, <- Z.div_div, Ed by lia. split_and!.
  - rewrite Eb, Z.add_comm, Z_mod_plus_full. by apply Z.mod_small.
  - destruct s; [rewrite Z.add_comm; rewrite <- (Z.mul_1_l (2 ^ eb)) at 1; rewrite Z_mod_plus_full|]; by apply Z.mod_small.
  - assert (((if s then 2 ^ eb else 0) + e) / 2 ^ eb = if s then 1 else 0) as ->.
    { destruct s; [|by apply Z.div_small]. symmetry. apply (Z.div_unique_pos _ _ 1 e); lia. }
    by destruct s.
  - destruct s; nia.
  - destruct s; nia.
Qed.

Lemma finite_bits p e : bounded (mb + 1) (2 ^ (eb - 1)) p e = true ->
  let m := if Zpos p <? 2 ^ mb then Zpos p else Zpos p - 2 ^ mb in
  let ex := if Zpos p <? 2 ^ mb then 0 else e - least_exponent mb eb + 1 in
  0 <= m < 2 ^ mb /\ 0 <= ex < 2 ^ eb - 1 /\
  (Zpos p < 2 ^ mb -> e = least_exponent mb eb) /\ (2 ^ mb <= Zpos p -> 0 < ex).
Proof.
  unfold bounded, canonical_mantissa, fexp, emin. intros [Hc He]%andb_true_iff. apply Z.eqb_eq in Hc. apply Z.leb_le in He.
  pose proof (digits2_bounds p) as [D1 D2]. set (d := Zpos (digits2_pos p)) in *. unfold least_exponent.
  assert (2 ^ eb = 2 * 2 ^ (eb - 1)) as E by (rewrite <- Z.pow_succ_r by lia; f_equal; lia).
  assert (2 <= 2 ^ (eb - 1)) by (change 2 with (2 ^ 1) at 1; apply Z.pow_le_mono_r; lia).
  destruct (Z.ltb_spec (Zpos p) (2 ^ mb)) as [Hp|Hp].
  - assert (d <= mb); [|split_and!; lia]. destruct (decide (d <= mb)); [done|].
    assert (2 ^ mb <= 2 ^ (d - 1)) by (apply Z.pow_le_mono_r; lia). lia.
  - assert (d = mb + 1) as ->.
    { destruct (decide (d < mb + 1)); [|lia]. assert (2 ^ d <= 2 ^ mb) by (apply Z.pow_le_mono_r; lia). lia. }
    rewrite Z.pow_add_r in D2 by lia. split_and!; lia.
Qed.

Lemma float_roundtrip x : valid_binary (mb + 1) (2 ^ (eb - 1)) x = true ->
  float_of_bits mb eb (bits_of_float mb eb x) = x /\ 0 <= bits_of_float mb eb x < 2 ^ (mb + eb + 1).
Proof.
  assert (0 < 2 ^ (mb - 1) < 2 ^ mb /\ 1 < 2 ^ eb) as [P1 P2].
  { split; [split; [apply Z.pow_pos_nonneg; lia|apply Z.pow_lt_mono_r; lia]|apply Z.pow_gt_1; lia]. }
  assert (Z.ones eb = 2 ^ eb - 1) as Eo by (rewrite Z.ones_equiv; lia).
  unfold float_of_bits, bits_of_float. intros Hv. destruct x as [s|s| |s p e]; cbn zeta.
  - pose proof (float_parts s 0 0 ltac:(lia) ltac:(lia)) as H. cbn zeta in H. rewrite Z.mul_0_l, !Z.add_0_r in H.
    destruct H as (-> & -> & -> & Hr). by split.
  - pose proof (float_parts s (2 ^ eb - 1) 0 ltac:(lia) ltac:(lia)) as H. cbn zeta in H. rewrite Z.add_0_r, <- Eo in H.
    destruct H as (-> & -> & -> & Hr). rewrite Z.eqb_refl, (proj2 (Z.eqb_neq _ _)) by lia. by split.
  - pose proof (float_parts false (2 ^ eb - 1) (2 ^ (mb - 1)) ltac:(lia) ltac:(lia)) as H. cbn zeta in H. rewrite Z.add_0_l, <- Eo in H.
    destruct H as (-> & -> & -> & Hr). rewrite Z.eqb_refl, !(proj2 (Z.eqb_neq _ _)) by lia. by split.
  - destruct (finite_bits p e Hv) as (Hm & Hex & H1 & H2). destruct (Z.ltb_spec (Zpos p) (2 ^ mb)) as [Hp|Hp].
    + pose proof (float_parts s 0 (Zpos p) ltac:(lia) ltac:(lia)) as H. cbn zeta in H. rewrite Z.mul_0_l, Z.add_0_l in H.
      destruct H as (-> & -> & -> & Hr). rewrite H1 by done. by split.
    + set (ex := e - least_exponent mb eb + 1) in *. specialize (H2 Hp).
      destruct (float_parts s ex (Zpos p - 2 ^ mb)) as (-> & -> & -> & Hr); [lia|lia|].
      rewrite !(proj2 (Z.eqb_neq _ _)) by lia. split; [|done].
      replace (Zpos p - 2 ^ mb + 2 ^ mb) with (Zpos p) by lia. f_equal. unfold ex. lia.
Qed.
End floats.

(** Cells of the type: integers in range; valid floating-point numbers. *)
Definition typed_cells (t : FLD_TYPE) (X : column) : Prop :=
  match X, t with
  | Ints X, (I1 | I2 | I4 | I8 | B) => Forall (inS (8 * cell_size t)) X
  | Floats X, F4 => Forall (fun x => valid_binary 24 128 x = true) X
  | Floats X, F8 => Forall (fun x => valid_binary 53 1024 x = true) X
  | _, _ => False
  end.

Lemma floats_roundtrip mb eb sz X : 1 < mb -> 1 < eb -> 0 < sz -> 8 * sz = mb + eb + 1 ->
  Forall (fun x => valid_binary (mb + 1) (2 ^ (eb - 1)) x = true) X ->
  float_of_bits mb eb <$> words_of_bytes sz (bytes_of_ints sz (bits_of_float mb eb <$> X)) = X.
Proof.
  intros Hm He Hsz Hb HX. rewrite words_roundtrip, <- !list_fmap_compose by done. apply fmap_id_on.
  eapply Forall_impl; [exact HX|]. intros x Hx. destruct (float_roundtrip mb eb Hm He x Hx) as [E Hr].
  unfold compose. rewrite wrapU_small by (unfold inU; by rewrite Hb). exact E.
Qed.

(** Sizes of files and columns. *)
Lemma column_bytes_length t X : zlen (column_bytes t X) = cell_size t * zlen (cells X).
Proof.
  assert (0 <= cell_size t) by (unfold cell_size; destruct t; simpl; lia).
  destruct X as [X|X]; cbn [column_bytes cells]; rewrite bytes_of_ints_length, !zlen_fmap by done; [done|].
  by destruct t; rewrite zlen_fmap.
Qed.

Lemma chunks_length sz n : forall bs, length (chunks sz n bs) = n.
Proof. induction n as [|n IH]; intros bs; simpl; [done|]. by rewrite IH. Qed.
Lemma words_length sz bs : 0 < sz -> zlen (words_of_bytes sz bs) = zlen bs / sz.
Proof.
  intros Hsz. unfold words_of_bytes. rewrite zlen_fmap. unfold zlen at 1. rewrite chunks_length, Z2Nat.id; [done|].
  apply Z.div_pos; [apply zlen_nonneg|done].
Qed.
Lemma read_column_length t n bs : zlen bs = cell_size t * n -> zlen (cells (read_column t bs)) = n.
Proof.
  intros Hl. assert (forall sz, 0 < sz -> zlen bs = sz * n -> zlen (words_of_bytes sz bs) = n) as Hw.
  { intros sz Hsz E. rewrite words_length, E, Z.mul_comm, Z.div_mul; lia. }
  destruct t; cbn [read_column cells]; rewrite !zlen_fmap; unfold ints_of_bytes; rewrite ?zlen_fmap; by apply Hw.
Qed.
Lemma read_column_cells t bs : cells_of t (read_column t bs).
Proof. destruct t; cbn; auto. Qed.
(** A new file is a column of zeros. *)
Lemma le_bytes_zero n : le_bytes n 0 = replicate n 0.
Proof. induction n as [|n IH]; [done|]. cbn [le_bytes replicate]. by rewrite Z.div_0_l, IH. Qed.
Lemma bytes_of_zeros sz n : bytes_of_ints sz (replicate n 0) = repeat 0 (Z.to_nat sz * n).
Proof.
  unfold bytes_of_ints. induction n as [|n IH]; [by rewrite Nat.mul_0_r|]. cbn [replicate mbind list_bind].
  rewrite IH, (Nat.mul_succ_r _ n), Nat.add_comm, repeat_app. f_equal.
  unfold wrapU. rewrite Zmod_0_l, le_bytes_zero.
  clear. by induction (Z.to_nat sz) as [|m IH]; [|simpl; rewrite IH].
Qed.
Lemma read_zeros t n : 0 <= n -> read_column t (repeat 0 (Z.to_nat (cell_size t * n))) = new_column t n.
Proof.
  intros Hn. assert (0 < cell_size t) as Hsz by (by destruct t).
  rewrite Z2Nat.inj_mul, <- bytes_of_zeros by lia.
  destruct t; cbn [read_column new_column]; f_equal; unfold ints_of_bytes; rewrite words_roundtrip by done; by rewrite !fmap_replicate.
Qed.
Lemma read_flags_length F : zlen (read_flags F) = zlen F.
Proof. unfold read_flags, ints_of_bytes. rewrite zlen_fmap, words_length, Z.div_1_r; done. Qed.
Lemma flag_bytes_length F : zlen (flag_bytes F) = zlen F.
Proof. unfold flag_bytes. rewrite bytes_of_ints_length; lia. Qed.

(** A file written with the cells of a column, of any type, is read
    as that column; it has as many bytes as the type asks for. *)
Theorem read_column_bytes t X : typed_cells t X ->
  read_column t (column_bytes t X) = X /\ zlen (column_bytes t X) = cell_size t * zlen (cells X).
Proof.
  intros HX. split; [|apply column_bytes_length]. destruct X as [X|X], t; try done; cbn [typed_cells read_column column_bytes] in *;
    f_equal; first [by apply ints_roundtrip|by apply (floats_roundtrip 23 8 4)|by apply (floats_roundtrip 52 11 8)].
Qed.

Lemma read_column_bytes_witness :
  read_column F4 (column_bytes F4 (Floats [S754_finite true 12582912 (-23); S754_zero false]))
  = Floats [S754_finite true 12582912 (-23); S754_zero false] /\
  zlen (column_bytes F4 (Floats [S754_finite true 12582912 (-23); S754_zero false])) = cell_size F4 * 2.
Proof. apply (read_column_bytes F4 (Floats [S754_finite true 12582912 (-23); S754_zero false])). repeat constructor. Defined.
