(* ===== verification/FieldVerbs.v ===== *)
(** * Verbs that compute a field from others, on the whole state.

    [f1f2opf3], [xfer] and [dup_fld] of the files of these names in
    src/src/dir_wr_verbs/: from the names of a table and of its fields to the
    record, the data file and the file of flags of a new field.  They bring
    together the catalog (Catalog.v, Verbs.v), the data files (Store.v) and the
    kernels (Vec.v, Transfer.v).

    FieldVerbsSpec.v says what a docroot is after [f1f2opf3]; here are runs at
    a small docroot, with the wrong behaviours they show. *)

From stdpp Require Import prelude strings gmap.
From Stdlib Require Import ZArith Lia SpecFloat Ascii.
From S2P Require Import Prelude CString Types Reduce Elem Vec Fill Positions Transfer Catalog Verbs CatalogLogic CatalogSpec CatalogFields CatalogAux Store.
Import Reduce.

(** ** The verbs *)

Section verbs.
Context (ev : env).

(** [is_fld], [chk_range] and [get_data] for a field and for its nn field. *)
Definition fetch (tid : Z) (fld : option string) : M (Z * FLD_REC_TYPE * list Z * option (list Z)) :=
  '(fid, f, nn_id, nn_f) ← is_fld None tid fld;
  chk_fld_range fid;;
  X ← get_data f;
  nn_X ← (if 0 <=? nn_id then nn_X ← get_data nn_f; mret (Some nn_X) else mret None);
  mret (fid, f, X, nn_X).

(** [mk_temp_file] and [q_mmap]: the directory and the name of the new file,
    and where it is. *)
Definition new_file (filesz : Z) : M (Z * string * (string * string)) :=
  '(opfile, ddir) ← mk_temp_file ev filesz;
  p ← q_mmap_write ddir opfile;
  mret (ddir, opfile, p).

(** [( nn_f1_X != NULL ) || ( nn_f2_X != NULL )] *)
Definition flags_needed (nn_f1_X nn_f2_X : option (list Z)) : bool :=
  match nn_f1_X, nn_f2_X with None, None => false | _, _ => true end.
(** A file of zeros for flags, if there are to be any. *)
Definition new_flags (needed : bool) (nR : Z) : M (option (Z * string * (string * string))) :=
  if needed then f ← new_file nR; mret (Some f) else mret None.
(** Its contents, as a kernel gets them, and after the kernel. *)
Definition zero_flags (nn_op : option (Z * string * (string * string))) (nR : Z) : option (list Z) :=
  match nn_op with Some _ => Some (replicate (Z.to_nat nR) 0) | None => None end.
Definition write_flags (nn_op : option (Z * string * (string * string))) (nn_X : option (list Z)) : M unit :=
  match nn_op, nn_X with
  | Some (_, _, p), Some nn_X => write_cells p (flag_bytes nn_X)
  | _, _ => mret tt
  end.

(** [add_aux_fld] when there is a file of flags. *)
Definition add_flags (tid fid : Z) (nn_op : option (Z * string * (string * string))) : M unit :=
  match nn_op with
  | None => mret tt
  | Some (nn_ddir_id, nn_opfile, _) =>
      add_aux_fld (usec ev) None tid None fid nn_ddir_id (Some nn_opfile) (Some "nn"%string);; mret tt
  end.

(** [filesz = fldsz * nR] *)
Definition file_size (t : FLD_TYPE) (nR : Z) : M Z :=
  if decide (t = B) then lift (get_file_size_B nR)
  else
    fldsz ← lift (get_fld_sz t);
    stuck_if ((LLONG_MAX <? fldsz * nR) || (fldsz * nR <? LLONG_MIN));;
    mret (fldsz * nR).

(** For these operators [get_type_op_fld] sets the type or fails. *)
Definition f1f2opf3_ops : list string :=
  ["+"; "-"; "*"; "/"; "&&"; "||"; ">"; "<"; ">="; "<="; "!="; "=="; "concat"; "&&!"; "&"; "|"; "^"; "<<"; ">>"]%string.

(** When the kernel fails the new files stay; what it has written to them by
    then is not modelled. *)
Definition f1f2opf3 (tbl f1 f2 op f3 : option string) : M unit :=
  fail_if (null_or_empty tbl);;
  fail_if (null_or_empty f1);;
  fail_if (null_or_empty f2);;
  fail_if (null_or_empty f3);;
  fail_if (null_or_empty op);;
  '(tid, _) ← is_tbl tbl;
  chk_tbl_range tid;;
  t ← rd_tbl tid;
  let nR := t_nR t in
  '(_, f1_rec, f1_X, nn_f1_X) ← fetch tid f1;
  '(_, f2_rec, f2_X, nn_f2_X) ← fetch tid f2;
  let op := default ""%string op in
  fail_if (negb (one_of op f1f2opf3_ops));;
  let f1type := fldtype f1_rec in
  let f2type := fldtype f2_rec in
  f3type ← lift (get_type_op_fld "f1f2opf3" op f1type f2type (Some ""%string) xunknown);
  filesz ← file_size f3type nR;
  '(ddir_id, opfile, p) ← new_file filesz;
  nn_op ← new_flags (flags_needed nn_f1_X nn_f2_X) nR;
  '(op_X, nn_op_X) ← lift (vec_f1f2opf3 0 nR f1type f2type (read_column f1type f1_X) (read_flags <$> nn_f1_X)
     (read_column f2type f2_X) (read_flags <$> nn_f2_X) op f3type
     (read_column f3type (repeat 0 (Z.to_nat filesz))) (zero_flags nn_op nR));
  write_cells p (column_bytes f3type op_X);;
  write_flags nn_op nn_op_X;;
  fid ← add_fld (usec ev) tid f3 ddir_id opfile f3type (-1);
  add_flags tid fid nn_op.

(** The statuses of the kernel and of [add_aux_fld] are not kept.  The type of
    the index is looked at after the files have been made. *)
Definition xfer (src_tbl src_fld dst_tbl dst_idx dst_fld : option string) : M unit :=
  fail_if (null_or_empty src_tbl);;
  fail_if (null_or_empty dst_tbl);;
  fail_if (null_or_empty src_fld);;
  fail_if (null_or_empty dst_idx);;
  fail_if (null_or_empty dst_fld);;
  fail_if (bool_decide (dst_idx = dst_fld));;
  '(src_tid, _) ← is_tbl src_tbl;
  chk_tbl_range src_tid;;
  src_t ← rd_tbl src_tid;
  '(src_fid, src_rec, nn_src_fid, nn_src_rec) ← is_fld None src_tid src_fld;
  chk_fld_range src_fid;;
  src_X ← get_data src_rec;
  '(dst_tid, _) ← is_tbl dst_tbl;
  chk_tbl_range dst_tid;;
  dst_t ← rd_tbl dst_tid;
  '(idx_fid, idx_rec, nn_idx_fid, nn_idx_rec) ← is_fld None dst_tid dst_idx;
  chk_fld_range idx_fid;;
  idx_X ← get_data idx_rec;
  nn_src_X ← (if 0 <=? nn_src_fid then X ← get_data nn_src_rec; mret (Some X) else mret None);
  nn_idx_X ← (if 0 <=? nn_idx_fid then X ← get_data nn_idx_rec; mret (Some X) else mret None);
  let src_nR := t_nR src_t in
  let dst_nR := t_nR dst_t in
  let src_type := fldtype src_rec in
  fldsz ← lift (get_fld_sz src_type);
  stuck_if ((LLONG_MAX <? fldsz * dst_nR) || (fldsz * dst_nR <? LLONG_MIN));;
  '(ddir_id, opfile, p) ← new_file (fldsz * dst_nR);
  nn_op ← new_flags (flags_needed nn_src_X nn_idx_X) dst_nR;
  '(dst_X, nn_dst_X) ←
    match xfer_switch src_type (fldtype idx_rec) (read_column src_type src_X) (read_flags <$> nn_src_X) src_nR
            (read_column (fldtype idx_rec) idx_X) (read_flags <$> nn_idx_X) dst_nR
            (read_column src_type (repeat 0 (Z.to_nat (fldsz * dst_nR)))) (zero_flags nn_op dst_nR) with
    | None => go_BYE
    | Some r => lift r
    end;
  write_cells p (column_bytes src_type dst_X);;
  write_flags nn_op nn_dst_X;;
  fid ← add_fld (usec ev) dst_tid dst_fld ddir_id opfile src_type (-1);
  ignore_status (add_flags dst_tid fid nn_op) tt;;
  strbuf ← int_get_meta src_tid src_fid (Some "dict_tbl_id"%string);
  when (0 <? wrapS 32 (strtoll strbuf).1)
    (int_set_meta dst_tid fid (Some "dict_tbl_id"%string) (Some strbuf)).

(** The record of the copy. *)
Definition dup_rec (f2 opfile : string) (ddir : Z) (f : FLD_REC_TYPE) : FLD_REC_TYPE :=
  {| tbl_id := tbl_id f; ddir_id := ddir; is_external := false; sort_type := sort_type f; parent_id := parent_id f;
     nn_fld_id := -1; fldtype := fldtype f; auxtype := auxtype f; name := f2; filename := opfile; dispname := "";
     dict_tbl_id := dict_tbl_id f; alias_of_fld_id := alias_of_fld_id f; cnt := cnt f |}.

(** [memcpy(Y, X, nX)] into a mapped file. *)
Definition memcpy_to (p : string * string) (bs : list Z) : M unit :=
  old ← gets (fun s => default [] (fs s !! p));
  stuck_if (zlen old <? zlen bs);;
  write_cells p (bs ++ drop (length bs) old).

(** [del_fld] comes before the lookup of [f1]; the status of [chk_fld_name] is
    not tested.  The file of flags is looked for in [g_data_dir] only; when it
    is not there [Y] still points to the file of [f2]. *)
Definition dup_fld (tbl f1 f2 : option string) : M unit :=
  fail_if (null_or_empty tbl);;
  fail_if (null_or_empty f1);;
  fail_if (null_or_empty f2);;
  fail_if (bool_decide (f1 = f2));;
  '(tid, _) ← is_tbl tbl;
  chk_tbl_range tid;;
  '(f2_id, _, _, _) ← is_fld None tid f2;
  when (0 <=? f2_id) (del_fld None tid None f2_id true);;
  '(f1_id, _, _, _) ← is_fld None tid f1;
  chk_fld_range f1_id;;
  f ← rd_fld f1_id;
  X ← get_data f;
  '(ddir_id, opfile, Y) ← new_file (zlen X);
  memcpy_to Y X;;
  f2_id ← get_empty_fld (usec ev) f2;
  let f2 := default ""%string f2 in
  strcpy_ok f2 MAX_LEN_FLD_NAME;;
  f ← rd_fld f1_id;
  wr_fld f2_id (dup_rec f2 opfile ddir_id f);;
  f ← rd_fld f1_id;
  when (0 <=? nn_fld_id f)
    (g ← rd_fld (nn_fld_id f);
     nn_X ← get_data g;
     '(nn_opfile, nn_ddir_id) ← mk_temp_file ev (zlen nn_X);
     d ← gets g_data_dir;
     chdir d;;
     Y ← gets (fun s => match fs s !! path s nn_opfile with Some _ => path s nn_opfile | None => Y end);
     chdir_back;;
     memcpy_to Y nn_X;;
     add_aux_fld (usec ev) None tid None f2_id nn_ddir_id (Some nn_opfile) (Some "nn"%string);;
     mret tt).

End verbs.

(** *** The verbs at the small docroot *)

Definition small_env (alt : Z) : env :=
  {| mkstemp := fun s d => match fs s !! (d, "_tempf_a"%string) with Some _ => "_tempf_b"%string | None => "_tempf_a"%string end;
     avail_space := fun _ => Some 1000000; free_space := fun _ => Some 1000000; usec := 0; g_alt_ddir_id := alt |}.

(** A second directory for data. *)
Definition small_alt : state :=
  {| g_tbls := g_tbls small; g_flds := g_flds small; g_ddirs := ["/alt"%string]; g_ht_tbl := g_ht_tbl small;
     g_ht_fld := g_ht_fld small; g_data_dir := g_data_dir small; g_cwd := g_cwd small; cwd := cwd small;
     dirs := {["/alt"%string]} ∪ dirs small;
     fs := <[("/data", "_x")%string := [1; 0; 0; 0; 2; 0; 0; 0; 3; 0; 0; 0]]>
            (<[("/data", "_y")%string := [0; 0; 0; 0; 2; 0; 0; 0; 3; 0; 0; 0]]> (fs small)) |}.

(** What a field holds after a run. *)
Definition file_of (o : outcome unit) (fld : string) : option (Z * string * option (list Z)) :=
  match o with
  | Ret _ s =>
      f ← head (filter (fun f => strcmp_eq (name f) fld) (g_flds s));
      Some (ddir_id f, filename f,
            fs s !! (match ddir_id f with 0 => "/alt"%string | _ => "/data"%string end, filename f))
  | _ => None
  end.

Example sum_of_fields :
  let o := f1f2opf3 (small_env (-1)) (Some "t1") (Some "x") (Some "y") (Some "+") (Some "z") small_alt in
  file_of o "z" = Some (-1, "_tempf_a"%string, Some [1; 0; 0; 0; 4; 0; 0; 0; 6; 0; 0; 0]) /\
  file_of o "_nn_z" = Some (-1, "_tempf_b"%string, Some [1; 0; 1]).
Proof. by vm_compute. Qed.

(** The index of the third row is out of range: [xfer] succeeds, and that row
    is 0 as the file was made. *)
Example xfer_out_of_range :
  let o := xfer (small_env (-1)) (Some "t1") (Some "x") (Some "t1") (Some "y") (Some "z") small_alt in
  file_of o "z" = Some (-1, "_tempf_a"%string, Some [1; 0; 0; 0; 3; 0; 0; 0; 0; 0; 0; 0]) /\
  file_of o "_nn_z" = Some (-1, "_tempf_b"%string, Some [1; 1; 0]).
Proof. by vm_compute. Qed.

Example copy_of_field :
  let o := dup_fld (small_env (-1)) (Some "t1") (Some "x") (Some "z") small_alt in
  file_of o "z" = Some (-1, "_tempf_a"%string, Some [1; 0; 0; 0; 2; 0; 0; 0; 3; 0; 0; 0]) /\
  file_of o "_nn_z" = Some (-1, "_tempf_b"%string, Some [1; 0; 1]).
Proof. by vm_compute. Qed.

(** With an alternative directory the flags of the copy end up in its data:
    the first row of "x" is 1 and that of the copy is 65537; all rows of the
    copy are null. *)
Example copy_in_alt_dir :
  let o := dup_fld (small_env 0) (Some "t1") (Some "x") (Some "z") small_alt in
  file_of o "z" = Some (0, "_tempf_a"%string, Some [1; 0; 1; 0; 2; 0; 0; 0; 3; 0; 0; 0]) /\
  file_of o "_nn_z" = Some (0, "_tempf_b"%string, Some [0; 0; 0]).
Proof. by vm_compute. Qed.
