(* ===== verification/FieldVerbsSpec.v ===== *)
(** * What the verbs of FieldVerbs.v do to a docroot.

    Each step of a verb, from a state where the directories are in order:
    the lookup of an operand with its files, a new file, the new record and
    its nn field.  The theorem composes them: [f1f2opf3] gives the catalog one
    new field, whose files hold the values computed from the files of the
    operands. *)

From stdpp Require Import prelude strings gmap.
From Stdlib Require Import ZArith Lia SpecFloat Ascii.
From S2P Require Import Prelude CString Types Reduce Elem Vec Fill Positions Transfer Catalog Verbs CatalogLogic CatalogSpec CatalogFields CatalogAux Store FieldVerbs.
Import Reduce.

(** ** Steps between states at home

    The working directory is [g_cwd] before and after a step. *)

Definition data_path (d file : string) : string * string :=
  match file with String "/" _ => (""%string, file) | _ => (d, file) end.

(** The data directory is [d], and it and the home directory exist. *)
Record docroot_ok (s : state) (d : string) : Prop := {
  dk_data : g_data_dir s = Some d;
  dk_name : d <> ""%string;
  dk_dir : d ∈ dirs s;
  dk_home : g_cwd s ∈ dirs s
}.
Definition home (s : state) : state := set_cwd (g_cwd s) s.

Lemma chdir_in (dir : string) (Q : unit -> state -> Prop) E s :
  dir ∈ dirs s -> Q tt (set_cwd dir s) -> wp (chdir (Some dir)) Q E s.
Proof. intros Hd HQ. unfold wp, chdir. by rewrite decide_True. Qed.

Lemma chdir_back_home (Q : unit -> state -> Prop) E s :
  g_cwd s ∈ dirs s -> Q tt (home s) -> wp chdir_back Q E s.
Proof. intros Hd HQ. unfold chdir_back. wp_step. wp_step. by apply chdir_in. Qed.

Lemma rs_mmap_wp file X (Q : list Z -> state -> Prop) E s :
  fs s !! path s file = Some X -> Q X s -> wp (rs_mmap file) Q E s.
Proof. intros HX HQ. unfold wp, rs_mmap. by rewrite HX. Qed.

(** A field and its file. *)
Record has_data (s : state) (d : string) (f : FLD_REC_TYPE) (X : list Z) : Prop := {
  hd_ddir : ddir_id f < 0;
  hd_name : filename f <> ""%string;
  hd_file : fs s !! data_path d (filename f) = Some X;
  hd_len : 0 < zlen X
}.

Lemma get_data_wp s d f X (Q : list Z -> state -> Prop) E :
  docroot_ok s d -> has_data s d f X -> Q X (home s) -> wp (get_data f) Q E s.
Proof.
  intros [Hd Hne Hin Hhome] [Hdd Hn Hf Hl] HQ. unfold get_data.
  wp_step. wp_step. { by destruct (proj1 (strcmp_eq_spec _ _) H) in Hn. }
  wp_step. rewrite (proj2 (Z.leb_gt _ _)) by done. wp_step. wp_step. rewrite Hd. wp_step. wp_step.
  { by destruct d. }
  apply chdir_in; [done|]. wp_step. apply (rs_mmap_wp _ X); [exact Hf|]. wp_step. wp_step; [lia|].
  wp_step. by apply chdir_back_home.
Qed.

(** A field with its flags, if it has any. *)
Definition has_flags (s : state) (d : string) (f : FLD_REC_TYPE) (nn_X : option (list Z)) : Prop :=
  match nn_X with
  | None => nn_fld_id f < 0
  | Some X => 0 <= nn_fld_id f /\ exists g, g_flds s !z (nn_fld_id f) = Some g /\ has_data s d g X
  end.
Record operand_of (s : state) (d : string) (tid : Z) (n : string) (f : FLD_REC_TYPE) (X : list Z)
    (nn_X : option (list Z)) : Prop := {
  op_fld : exists i, has_fld s tid i n f;
  op_data : has_data s d f X;
  op_flags : has_flags s d f nn_X
}.

(** What a state at home keeps. *)
Lemma docroot_ok_home s d : docroot_ok s d -> docroot_ok (home s) d.
Proof. by intros []. Qed.
Lemma wf_home s : wf s -> wf (home s).
Proof. intros Hwf. eapply files_only_wf; [|exact Hwf]. apply files_only_cwd. Qed.
Lemma home_home s : home (home s) = home s.
Proof. done. Qed.
Lemma has_data_home s d f X : has_data s d f X -> has_data (home s) d f X.
Proof. by intros []. Qed.
Lemma operand_home s d tid n f X nn_X : operand_of s d tid n f X nn_X -> operand_of (home s) d tid n f X nn_X.
Proof.
  intros [Hf Hd Hn]. split; [done|by apply has_data_home|]. destruct nn_X as [F|]; [|done].
  destruct Hn as (? & g & ? & Hg). split; [done|]. exists g. split; [done|]. by apply has_data_home.
Qed.
Create HintDb home.
#[export] Hint Resolve docroot_ok_home wf_home has_data_home operand_home : home.

(** The flags are read when there is an nn field. *)
Lemma get_flags_wp s d f g nn_X (Q : option (list Z) -> state -> Prop) E :
  docroot_ok s d -> has_flags s d f nn_X -> (0 <= nn_fld_id f -> g_flds s !z (nn_fld_id f) = Some g) ->
  Q nn_X (if nn_X is Some _ then home s else s) ->
  wp (if 0 <=? nn_fld_id f then nn_X ← get_data g; mret (Some nn_X) else mret None) Q E s.
Proof.
  intros Hd Hn Hg HQ. destruct nn_X as [F|]; cbn [has_flags] in Hn.
  - destruct Hn as (Hge & g' & Hg' & Hdat). rewrite (proj2 (Z.leb_le _ _) Hge).
    assert (g' = g) as -> by (specialize (Hg Hge); congruence).
    wp_step. apply (get_data_wp s d g F); [done..|]. by wp_step.
  - rewrite (proj2 (Z.leb_gt _ _)) by done. by wp_step.
Qed.

Lemma fetch_wp s d tid tn t n f X nn_X (Q : Z * FLD_REC_TYPE * list Z * option (list Z) -> state -> Prop) E :
  wf s -> docroot_ok s d -> has_tbl s tid tn t -> operand_of s d tid n f X nn_X ->
  (forall i, has_fld s tid i n f -> Q (i, f, X, nn_X) (home s)) -> wp (fetch tid (Some n)) Q E s.
Proof.
  intros Hwf Hd Ht [(i & Hf) HX Hn] HQ. pose proof (zlookup_Some_range _ _ _ (proj1 Ht)).
  pose proof (zlookup_Some_range _ _ _ (proj1 Hf)). unfold fetch.
  wp_step. apply (is_fld_found_nn s None tid i f n); [done|lia|done|]. intros g Hg.
  wp_step. wp_step; [done|]. wp_step. apply (get_data_wp s d f X); [done..|].
  wp_step. apply (get_flags_wp (home s) d f g nn_X); [by auto with home| |done|].
  - destruct nn_X as [F|]; [|done]. destruct Hn as (? & g' & ? & ?). split; [done|]. exists g'. by auto with home.
  - wp_step. destruct nn_X; by apply HQ.
Qed.

(** ** New files *)

(** There is room for [filesz] bytes in [d], and [mkstemp] gives a name that
    is not in use. *)
Record can_make (ev : env) (s : state) (d : string) (filesz : Z) : Prop := {
  cm_alt : g_alt_ddir_id ev < 0;
  cm_space : exists space, avail_space ev d = Some space /\ filesz < space;
  cm_slash : forall n, data_path n (mkstemp ev (set_cwd d s) d) = (n, mkstemp ev (set_cwd d s) d);
  cm_new : fs s !! (d, mkstemp ev (set_cwd d s) d) = None;
  cm_name : mkstemp ev (set_cwd d s) d <> ""%string;
  cm_len : strlen (mkstemp ev (set_cwd d s) d) <= MAX_LEN_FILE_NAME
}.

(** The state with file [p] added. *)
Definition with_file (p : string * string) (X : list Z) (s : state) : state := set_fs (insert p X) (home s).

(** A directory that exists. *)
Lemma wp_dir (dir : string) (Q : unit -> state -> Prop) E s s0 :
  dir ∈ dirs s0 -> Q tt s -> wp (fail_if (negb (bool_decide (dir ∈ dirs s0)))) Q E s.
Proof. intros Hd HQ. by rewrite bool_decide_true. Qed.

Lemma open_temp_file_wp ev s d filesz (Q : string -> state -> Prop) E :
  docroot_ok s d -> can_make ev s d filesz -> 0 < filesz ->
  Q (mkstemp ev (set_cwd d s) d) (with_file (d, mkstemp ev (set_cwd d s) d) [] s) -> wp (open_temp_file ev d filesz) Q E s.
Proof.
  intros [Hd Hne Hin Hhome] [Ha (space & Hs & Hlt) Hslash _ _ _] Hpos HQ. unfold open_temp_file.
  wp_step. wp_step; [|lia]. rewrite Hs. wp_step; [lia|].
  wp_step. wp_step. wp_step. apply wp_dir; [done|]. wp_step. unfold wp at 1, modify. wp_step. wp_step. wp_step.
  unfold wp at 1, modify. wp_step. wp_step. wp_step. apply wp_dir; [done|]. wp_step. unfold wp at 1, modify. wp_step.
  change (path (set_cwd d s) ?file) with (data_path d file) in *. by rewrite Hslash.
Qed.

Lemma mk_temp_file_wp ev s d filesz (Q : string * Z -> state -> Prop) E :
  docroot_ok s d -> can_make ev s d filesz -> 0 < filesz < 2 ^ 32 ->
  Q (mkstemp ev (set_cwd d s) d, -1) (with_file (d, mkstemp ev (set_cwd d s) d) (repeat 0 (Z.to_nat filesz)) s) ->
  wp (mk_temp_file ev filesz) Q E s.
Proof.
  intros Hok Hm Hsz HQ. pose proof Hok as [Hd Hne Hin Hhome]. pose proof Hm as [Ha _ Hslash _ _ _]. unfold mk_temp_file.
  wp_step. wp_step. rewrite Hd. wp_step. rewrite (proj2 (Z.ltb_lt _ _) Ha). wp_step.
  wp_step. apply (open_temp_file_wp ev s d filesz); [done|done|lia|]. set (file := mkstemp _ _ _) in *.
  wp_step. wp_step. wp_step. apply (wp_lift_Ok _ tt); [by apply mk_size_ok|]. wp_step. unfold mk_file.
  wp_step. wp_step; [lia|]. wp_step. wp_step. wp_step. apply wp_dir; [done|].
  wp_step. unfold wp at 1, modify. wp_step. unfold wp at 1, modify. wp_step. apply wp_dir; [done|].
  unfold wp at 1, modify. wp_step.
  match goal with |- Q _ ?s1 => assert (s1 = with_file (d, file) (repeat 0 (Z.to_nat filesz)) s) as -> end; [|done].
  unfold with_file, home, set_cwd, set_fs. cbn. f_equal. change (path _ file) with (data_path d file).
  rewrite Hslash. apply insert_insert_eq.
Qed.

Lemma new_file_wp ev s d filesz (Q : Z * string * (string * string) -> state -> Prop) E :
  docroot_ok s d -> can_make ev s d filesz -> 0 < filesz < 2 ^ 32 ->
  Q (-1, mkstemp ev (set_cwd d s) d, (d, mkstemp ev (set_cwd d s) d))
    (with_file (d, mkstemp ev (set_cwd d s) d) (repeat 0 (Z.to_nat filesz)) s) ->
  wp (new_file ev filesz) Q E s.
Proof.
  intros Hok Hm Hsz HQ. pose proof Hok as [Hd Hne Hin Hhome]. pose proof Hm as [_ _ Hslash _ _ _]. unfold new_file.
  wp_step. apply (mk_temp_file_wp ev s d); [done..|]. wp_step. set (file := mkstemp _ _ _) in *.
  unfold q_mmap_write. wp_step. unfold chdir_ddir. change (-1 <? 0) with true. cbn iota. wp_step. wp_step.
  change (g_data_dir (with_file _ _ s)) with (g_data_dir s). rewrite Hd. apply chdir_in; [done|].
  wp_step. wp_step. change (path _ file) with (data_path d file). rewrite Hslash.
  wp_step. apply (rs_mmap_wp _ (repeat 0 (Z.to_nat filesz))).
  { change (path _ file) with (data_path d file). rewrite Hslash. apply lookup_insert_eq. }
  wp_step. apply chdir_back_home; [done|]. wp_step. by wp_step.
Qed.

(** ** The new record *)

(** Table [tid] may get a field [n] with an nn field. *)
Record new_name (s : state) (tid : Z) (n : string) : Prop := {
  nw_chk : chk_fld_name (Some n) 0 = Ok tt;
  nw_len : strlen n + strlen "_nn_" <= MAX_LEN_FLD_NAME;
  nw_free j g : g_flds s !z j = Some g -> tbl_id g = tid -> name g <> n /\ name g <> ("_nn_" +:+ n)%string
}.

Lemma dir_after_data s d : docroot_ok s d -> dir_after s (-1) = d.
Proof. intros [Hd _ Hin _]. unfold dir_after. change (-1 <? 0) with true. rewrite Hd. cbn iota. by rewrite decide_True. Qed.

Lemma add_new_fld_wp s d usec tid tn t n file ft (Q : Z -> state -> Prop) (E : state -> Prop) :
  wf s -> docroot_ok s d -> has_tbl s tid tn t -> t_nR t < 2 ^ 60 -> new_name s tid n ->
  file_fits (set_cwd d s) file (t_nR t) ft -> strlen file <= MAX_LEN_FILE_NAME ->
  (forall i f0, g_flds s !z i = Some f0 -> ~ used f0 ->
     Q i (set_flds (fun _ => zset (g_flds s) i (added_fld tid n (-1) file ft (-1))) (home s))) ->
  ((forall i f, g_flds s !z i = Some f -> used f) -> E (home s)) ->
  wp (add_fld usec tid (Some n) (-1) file ft (-1)) Q E s.
Proof.
  intros Hwf Hok Ht HnR Hn Hfits Hlen HQ HE. pose proof (zlookup_Some_range _ _ _ (proj1 Ht)) as Htid.
  pose proof Hok as [Hd Hne Hin Hhome]. destruct (chk_fld_name_Ok n (nw_chk _ _ _ Hn)) as [Hne2 _]. unfold add_fld.
  wp_step. wp_step; [lia|]. wp_step. wp_step; [by destruct n|]. wp_step. apply (wp_lift_Ok _ tt); [apply Hn|].
  wp_step. apply chdir_ddir_exact; [pose proof (zlen_nonneg (g_ddirs s)); unfold g_n_ddir; lia|..].
  { intros Hbad. destruct Hbad. intros Hge. lia. }
  intros _. rewrite (dir_after_data s d Hok). wp_step. apply (wp_rd_tbl _ t); [apply Ht|].
  wp_step. apply chk_file_size_wp; [split; [by apply (wf_tbl_nR s Hwf tid t), Ht|done]|done|].
  intros _. wp_step. apply chdir_back_home; [done|]. change (home (set_cwd d s)) with (home s).
  unfold make_room. wp_step. wp_step. apply (is_fld_wp (home s) (wf_home s Hwf)); [lia| |].
  { intros i f g Hf Htf Hnf _. by destruct (proj1 (nw_free _ _ _ Hn i f Hf Htf)). }
  intros _. unfold no_fld. change (0 <=? INT_MIN) with false. cbn iota.
  apply (get_empty_fld_wp (home s) (wf_home s Hwf)); [|exact HE]. intros i f0 Hi Hu.
  wp_step. apply (store_fld_wp (home s) tid n (-1) file ft (-1) i f0); [done|apply Hn|intros Hge; lia| |].
  - intros _. wp_step. by apply (HQ i f0).
  - intros [[? _]|?]; lia.
Qed.

(** Steps that do not touch files. *)
Definition keeps_fs {A} (m : M A) : Prop :=
  forall s, match m s with Ret _ s' | Fail s' => fs s' = fs s | Stuck => True end.

Lemma keeps_bind {A B} (m : M A) (f : A -> M B) : keeps_fs m -> (forall a, keeps_fs (f a)) -> keeps_fs (m ≫= f).
Proof.
  intros Hm Hf s. unfold mbind, M_bind. specialize (Hm s). destruct (m s) as [a s'|s'|]; [|done..].
  specialize (Hf a s'). destruct (f a s'); congruence.
Qed.
Lemma keeps_lift {A} (r : res A) : keeps_fs (lift r).
Proof. intros s. by destruct r. Qed.
Lemma keeps_stuck_if c : keeps_fs (stuck_if c).
Proof. by destruct c. Qed.
Lemma keeps_fail_if c : keeps_fs (fail_if c).
Proof. by destruct c. Qed.
Lemma keeps_chdir d : keeps_fs (chdir d).
Proof. intros s. destruct d as [d|]; simpl; [by case_decide|done]. Qed.
Lemma keeps_rs_mmap file : keeps_fs (rs_mmap file).
Proof. intros s. unfold rs_mmap. by destruct (fs s !! _). Qed.
Lemma keeps_rd_tbl i : keeps_fs (rd_tbl i).
Proof. intros s. unfold rd_tbl. by destruct (rd _ _). Qed.
Lemma keeps_rd_fld i : keeps_fs (rd_fld i).
Proof. intros s. unfold rd_fld. by destruct (rd _ _). Qed.
Lemma keeps_rd_ddir i : keeps_fs (rd_ddir i).
Proof. intros s. unfold rd_ddir. by destruct (rd _ _). Qed.
Lemma keeps_wr_fld i f : keeps_fs (wr_fld i f).
Proof. intros s. unfold wr_fld. by destruct (wr _ _ _). Qed.

Create HintDb keeps.
#[export] Hint Resolve keeps_bind keeps_lift keeps_stuck_if keeps_fail_if keeps_chdir keeps_rs_mmap keeps_rd_tbl keeps_rd_fld
  keeps_rd_ddir keeps_wr_fld : keeps.
#[export] Hint Extern 1 (keeps_fs (mret _)) => done : keeps.
#[export] Hint Extern 1 (keeps_fs (gets _)) => done : keeps.
#[export] Hint Extern 1 (keeps_fs go_BYE) => done : keeps.

Lemma wp_keeps {A} (m : M A) Q E s :
  keeps_fs m -> wp m Q E s -> wp m (fun a s' => Q a s' /\ fs s' = fs s) (fun s' => E s' /\ fs s' = fs s) s.
Proof. intros Hm. specialize (Hm s). unfold wp. by destruct (m s). Qed.

Lemma attach_aux_keeps usec tid fid nn_id aux ddir fname : keeps_fs (attach_aux usec tid fid nn_id aux ddir fname).
Proof.
  unfold attach_aux, q_mmap, chdir_ddir, chdir_back, upd_fld, get_empty_fld, strcpy_ok.
  repeat ((apply keeps_bind; [|intros ?]) || case_match || auto 3 with keeps).
Qed.

(** The description of a result. *)
Definition result_info (ft : FLD_TYPE) (file : string) (nn_file : option string) : fld_info :=
  {| fi_type := ft; fi_sort := unknown; fi_data := (-1, file); fi_nn := pair (-1) <$> nn_file |}.

Section new_record.
Context (s : state) (tid : Z) (tn : string) (t : TBL_REC_TYPE) (n file : string) (ft : FLD_TYPE) (i : Z) (f0 : FLD_REC_TYPE).
Context (Hwf : wf s) (Ht : has_tbl s tid tn t) (Hn : new_name s tid n).
Context (Hi : g_flds s !z i = Some f0) (Hfree : ~ used f0).
Let f := added_fld tid n (-1) file ft (-1).
Let s2 := set_flds (fun _ => zset (g_flds s) i f) (home s).

Lemma new_record_storable : storable (home s) f.
Proof.
  split; try done.
  - intros Hge. simpl in Hge. lia.
  - intros _. apply Hn.
  - intros _. exists t. destruct Ht as (? & <- & ?). done.
  - intros j g _ Hg Htg. by apply (nw_free _ _ _ Hn j g).
Qed.

Lemma new_record_used : used f.
Proof. by destruct (chk_fld_name_Ok n (nw_chk _ _ _ Hn)). Qed.

Lemma new_record_wf : wf s2.
Proof. apply (stored_wf (home s) i f0 f); [by apply wf_home|done|done|apply new_record_storable]. Qed.

Lemma new_record_fld : has_fld s2 tid i n f.
Proof.
  apply (stored_has_fld (home s) i f0 f); [done|done|apply new_record_storable|]. right.
  split_and!; try done. apply new_record_used.
Qed.

Lemma new_record_abs : cat_eq (abs s2) (a_set_fld tn n (Some (result_info ft file None)) (abs s)).
Proof.
  apply (stored_abs (home s) i f0 f (wf_home s Hwf) Hi Hfree new_record_storable tn t); [apply new_record_used|done].
Qed.

Lemma new_record_no_nn j g : g_flds s2 !z j = Some g -> tbl_id g = tid -> name g <> ("_nn_" +:+ n)%string.
Proof.
  assert (g_flds s2 !z j = if decide (j = i) then Some f else g_flds s !z j) as -> by apply (stored_lookup (home s) i f0 f Hi j).
  case_decide.
  - intros [= <-] _ E. change (name f) with n in E. apply (f_equal strlen) in E. rewrite strlen_app in E.
    change (strlen "_nn_") with 4 in E. lia.
  - intros Hg Htg. by apply (nw_free _ _ _ Hn j g).
Qed.
End new_record.

(** ** The record and its flags *)

Lemma rd_nn_wp s i f (Q : unit -> state -> Prop) E : wf s -> g_flds s !z i = Some f -> Q tt s ->
  wp (when (0 <=? nn_fld_id f) (rd_fld (nn_fld_id f);; mret tt)) Q E s.
Proof.
  intros Hwf Hi HQ. apply wp_when; [|done]. intros Hge%Z.leb_le. destruct (nn_in_range s Hwf i f Hi Hge) as [g Hg].
  wp_step. apply (wp_rd_fld _ g); [done|]. by wp_step.
Qed.

(** [add_aux_fld] with ids, for a field that is there. *)
Lemma add_flags_to_wp ev s d tid tn t i n f nn_file p F :
  wf s -> docroot_ok s d -> has_tbl s tid tn t -> has_fld s tid i n f -> nn_fld_id f <> 0 ->
  (forall j g, g_flds s !z j = Some g -> tbl_id g = tid -> name g = ("_nn_" +:+ n)%string ->
     0 <= nn_fld_id f /\ j = nn_fld_id f) ->
  nn_file <> ""%string -> strlen nn_file <= MAX_LEN_FILE_NAME ->
  strlen n + strlen "_nn_" <= MAX_LEN_FLD_NAME -> fs s !! data_path d nn_file = Some F -> zlen F = t_nR t ->
  wp (add_flags ev tid i (Some (-1, nn_file, p)))
    (fun _ s' => wf s' /\ fs s' = fs s /\ cat_eq (abs s') (a_set_fld tn n (set_nn (-1, nn_file) <$> c_fld (abs s) tn n) (abs s)))
    (fun s' => files_only s s' /\ fs s' = fs s /\ forall k g, g_flds s !z k = Some g -> used g) s.
Proof.
  intros Hwf Hok Ht Hf H0 Hclash Hne Hl Hln HF HlF. pose proof Hf as (Hi & _).
  pose proof (zlookup_Some_range _ _ _ (proj1 Ht)) as Htid. pose proof (zlookup_Some_range _ _ _ Hi) as Hri.
  cbn [add_flags]. wp_step. unfold add_aux_fld.
  wp_step. wp_step; [lia|]. wp_step. wp_step; [lia|]. wp_step. wp_step; [done|]. wp_step. wp_step; [by destruct nn_file|].
  wp_step. rewrite !(proj2 (Z.leb_le 0 _)) by lia. cbn [andb]. cbn iota. wp_step. apply (wp_rd_fld _ f); [done|].
  wp_step. apply (rd_nn_wp s i f); [done..|]. wp_step. cbn beta iota.
  wp_step. change (unstr_auxtype (Some "nn"%string)) with (Ok nn). cbn iota.
  wp_step. wp_step. wp_step; [done|]. change (default ""%string (Some nn_file)) with nn_file.
  assert (-1 < g_n_ddir s) as Hdd by (pose proof (zlen_nonneg (g_ddirs s)); unfold g_n_ddir; lia).
  pose proof (attach_aux_wp s (usec ev) tid tn t i n f (-1) nn_file Hwf Ht Hf H0 Hclash Hdd Hl) as Hw.
  apply (wp_keeps _ _ _ _ (attach_aux_keeps _ _ _ _ _ _ _)) in Hw.
  eapply wp_mono; [exact Hw| |].
  - intros k s' [(Hw' & _ & Hc) Hfs]. by wp_step.
  - intros s' [(Hfo & Hwhy) Hfs]. split_and!; [done|done|]. destruct Hwhy as [Hbad|[Hbad|[Hbad|Hfull]]]; [| |lia|done].
    + destruct Hbad. intros Hge. lia.
    + exfalso. apply (Hbad F); [|done]. change (path _ nn_file) with (data_path (dir_after s (-1)) nn_file).
      by rewrite (dir_after_data s d).
Qed.

Section add_result.
Context (ev : env) (s : state) (d : string) (tid : Z) (tn : string) (t : TBL_REC_TYPE) (n file : string) (ft : FLD_TYPE).
Context (Hwf : wf s) (Hok : docroot_ok s d) (Ht : has_tbl s tid tn t) (HnR : t_nR t < 2 ^ 60) (Hn : new_name s tid n).
Context (Hfits : file_fits (set_cwd d s) file (t_nR t) ft) (Hlen : strlen file <= MAX_LEN_FILE_NAME).

(** The catalog has the new field, the files are as they were. *)
Definition result_added (nn_file : option string) (s' : state) : Prop :=
  wf s' /\ cat_eq (abs s') (a_set_fld tn n (Some (result_info ft file nn_file)) (abs s)) /\ fs s' = fs s.
(** No record was free: the catalog is as it was, or the field has no flags. *)
Definition result_not_added (s' : state) : Prop :=
  wf s' /\ fs s' = fs s /\ (forall k g, g_flds s' !z k = Some g -> used g) /\
  (cat_eq (abs s') (abs s) \/ cat_eq (abs s') (a_set_fld tn n (Some (result_info ft file None)) (abs s))).

(** The flags have a file with a byte per row. *)
Definition flags_ready (nn_op : option (Z * string * (string * string))) : Prop :=
  match nn_op with
  | None => True
  | Some (nn_ddir, nn_file, _) =>
      nn_ddir = -1 /\ nn_file <> ""%string /\ strlen nn_file <= MAX_LEN_FILE_NAME /\
      exists F, fs s !! data_path d nn_file = Some F /\ zlen F = t_nR t
  end.
Definition flags_file (nn_op : option (Z * string * (string * string))) : option string :=
  (fun x => x.1.2) <$> nn_op.

Lemma add_flags_wp nn_op i f0 (Q : unit -> state -> Prop) (E : state -> Prop) :
  g_flds s !z i = Some f0 -> ~ used f0 -> flags_ready nn_op ->
  (forall s', result_added (flags_file nn_op) s' -> Q tt s') -> (forall s', result_not_added s' -> E s') ->
  wp (add_flags ev tid i nn_op) Q E
    (set_flds (fun _ => zset (g_flds s) i (added_fld tid n (-1) file ft (-1))) (home s)).
Proof.
  intros Hi Hu Hnn HQ HE. set (f := added_fld _ _ _ _ _ _). set (s2 := set_flds _ _).
  pose proof (new_record_wf s tid tn t n file ft i f0 Hwf Ht Hn Hi Hu) as Hwf2. fold f s2 in Hwf2.
  pose proof (new_record_fld s tid tn t n file ft i f0 Ht Hn Hi Hu) as Hf2. fold f s2 in Hf2.
  pose proof (new_record_abs s tid tn t n file ft i f0 Hwf Ht Hn Hi Hu) as Ha2. fold f s2 in Ha2.
  assert (has_tbl s2 tid tn t) as Ht2 by done. pose proof (zlookup_Some_range _ _ _ (proj1 Ht)) as Htid.
  pose proof (zlookup_Some_range _ _ _ Hi) as Hri. destruct nn_op as [[[nn_ddir nn_file] p]|]; cbn [add_flags].
  2: { wp_step. apply HQ. by split_and!. }
  destruct Hnn as (-> & Hne & Hl & F & HF & HlF).
  eapply wp_mono; [apply (add_flags_to_wp ev s2 d tid tn t i n f nn_file p F); try done|..].
  - by destruct Hok.
  - intros j g Hg Htg E0. by destruct (new_record_no_nn s tid n file ft i f0 Hn Hi j g).
  - pose proof (nw_len _ _ _ Hn). lia.
  - intros [] s' (Hw & Hfs & Hc). apply HQ. split_and!; [done| |done].
    etrans; [exact Hc|]. rewrite (c_fld_is s2 s2 Hwf2 eq_refl tid tn t n i f Ht2 Hf2). simpl.
    by apply (a_set_set tn n _ (Some (result_info ft file None))).
  - intros s' (Hfo & Hfs & Hfull). apply HE. split_and!; [by eapply files_only_wf|done|rewrite (fo_flds _ _ Hfo); exact Hfull|].
    right. by rewrite (files_only_abs _ _ Hfo).
Qed.

Lemma add_result_wp nn_op (Q : unit -> state -> Prop) (E : state -> Prop) :
  flags_ready nn_op -> (forall s', result_added (flags_file nn_op) s' -> Q tt s') -> (forall s', result_not_added s' -> E s') ->
  wp (fid ← add_fld (usec ev) tid (Some n) (-1) file ft (-1); add_flags ev tid fid nn_op) Q E s.
Proof.
  intros Hnn HQ HE. wp_step. apply (add_new_fld_wp s d (usec ev) tid tn t n file ft); try done.
  - intros i f0 Hi Hu. by apply (add_flags_wp nn_op i f0).
  - intros Hfull. apply HE. split_and!; [by apply wf_home|done|exact Hfull|by left].
Qed.
End add_result.

(** ** Writing the files *)

Lemma wf_set_fs F s : wf s -> wf (set_fs F s).
Proof.
  intros []. split; try done. intros i f Hf. match goal with H : forall i f, _ -> fld_ok _ _ _ |- _ => destruct (H i f Hf) end.
  by split.
Qed.
Lemma docroot_ok_set_fs F s d : docroot_ok s d -> docroot_ok (set_fs F s) d.
Proof. by intros []. Qed.
Lemma new_name_set_fs F s tid n : new_name s tid n -> new_name (set_fs F s) tid n.
Proof. by intros []. Qed.
#[export] Hint Resolve wf_set_fs docroot_ok_set_fs new_name_set_fs : home.

Lemma write_cells_wp p bs (Q : unit -> state -> Prop) E s : Q tt (set_fs (insert p bs) s) -> wp (write_cells p bs) Q E s.
Proof. done. Qed.

(** The file of the flags of a result: its contents by directory and name. *)
Definition flags_written (s : state) (d : string) (nn_file : option string) (nn_X : option (list Z)) : Prop :=
  match nn_file, nn_X with
  | None, None => True
  | Some file, Some X => fs s !! data_path d file = Some (flag_bytes X)
  | _, _ => False
  end.

(** What a verb leaves: a field of type [ft], with the given cells and flags,
    in files that were not there before; all other files are as they were. *)
Definition computed (s : state) (d tn n : string) (ft : FLD_TYPE) (X : column) (nn_X : option (list Z)) (s' : state) : Prop :=
  wf s' /\ exists file nn_file,
    cat_eq (abs s') (a_set_fld tn n (Some (result_info ft file nn_file)) (abs s)) /\
    fs s' !! data_path d file = Some (column_bytes ft X) /\ flags_written s' d nn_file nn_X /\
    fs s !! data_path d file = None /\ fs s ⊆ fs s'.
(** No record is free: the catalog is as it was, or the field lacks its flags;
    no file has changed. *)
Definition not_stored (s : state) (tn n : string) (ft : FLD_TYPE) (s' : state) : Prop :=
  wf s' /\ fs s ⊆ fs s' /\ (forall k g, g_flds s' !z k = Some g -> used g) /\
  (cat_eq (abs s') (abs s) \/
   exists file, cat_eq (abs s') (a_set_fld tn n (Some (result_info ft file None)) (abs s))).

Section results.
Context (ev : env) (s : state) (d : string) (tid : Z) (tn : string) (t : TBL_REC_TYPE) (n : string) (ft : FLD_TYPE) (sz : Z).
Context (Hwf : wf s) (Hok : docroot_ok s d) (Ht : has_tbl s tid tn t) (Hn : new_name s tid n).
Context (Hsz : get_fld_sz ft = Ok sz) (HnR : 0 < t_nR t < 2 ^ 29).
Let nR := t_nR t.
Let file := mkstemp ev (set_cwd d s) d.
Let s1 := with_file (d, file) (repeat 0 (Z.to_nat (sz * nR))) s.
Let nn_file := mkstemp ev (set_cwd d s1) d.
Context (Hmk : can_make ev s d (sz * nR)) (Hmk1 : can_make ev s1 d nR).

(** The space for the result and its flags. *)
Definition made_flags (needed : bool) : option (Z * string * (string * string)) :=
  if needed then Some (-1, nn_file, (d, nn_file)) else None.
Definition with_files (needed : bool) : state := if needed then with_file (d, nn_file) (repeat 0 (Z.to_nat nR)) s1 else s1.

Lemma cell_size_bounds : cell_size ft = sz /\ 1 <= sz <= 8.
Proof. split; [by unfold cell_size; rewrite Hsz|by apply (get_fld_sz_bounds ft)]. Qed.

Lemma new_result_wp (Q : Z * string * (string * string) -> state -> Prop) E :
  Q (-1, file, (d, file)) s1 -> wp (new_file ev (sz * nR)) Q E (home s).
Proof.
  intros HQ. destruct cell_size_bounds as [_ Hb].
  apply (new_file_wp ev (home s) d); [by auto with home|by destruct Hmk|unfold nR; nia|done].
Qed.

Lemma new_flags_wp needed (Q : option (Z * string * (string * string)) -> state -> Prop) E :
  Q (made_flags needed) (with_files needed) -> wp (new_flags ev needed nR) Q E s1.
Proof.
  intros HQ. unfold new_flags, with_files, made_flags in *. destruct needed; [|by wp_step]. wp_step.
  apply (new_file_wp ev s1 d); [by apply docroot_ok_set_fs, docroot_ok_home|done|unfold nR; lia|]. by wp_step.
Qed.

(** The files are written, the catalog is told. *)
Definition stored_files (needed : bool) (X : column) (F : option (list Z)) : state :=
  let s2 := set_fs (insert (d, file) (column_bytes ft X)) (with_files needed) in
  match needed, F with
  | true, Some F => set_fs (insert (d, nn_file) (flag_bytes F)) s2
  | _, _ => s2
  end.

Lemma write_files_wp {A} needed X F (k : M A) Q E :
  wp k Q E (stored_files needed X F) ->
  wp (write_cells (d, file) (column_bytes ft X);; write_flags (made_flags needed) F;; k) Q E (with_files needed).
Proof. intros Hk. wp_step. apply write_cells_wp. wp_step. unfold stored_files in Hk. by destruct needed, F. Qed.

(** The new files are not the old ones. *)
Lemma stored_files_fs needed X F : (needed = true -> is_Some F) ->
  fs (stored_files needed X F) !! (d, file) = Some (column_bytes ft X) /\
  (needed = true -> flags_written (stored_files needed X F) d (Some nn_file) F) /\ fs s ⊆ fs (stored_files needed X F).
Proof.
  intros HF. pose proof (cm_new _ _ _ _ Hmk) as N1. pose proof (cm_new _ _ _ _ Hmk1) as N2.
  fold file in N1. fold nn_file in N2. pose proof (cm_slash _ _ _ _ Hmk1 d) as Sl. fold nn_file in Sl.
  assert ((d, nn_file) <> (d, file)) as Hne.
  { intros E. rewrite E in N2. unfold s1, with_file in N2. simpl in N2. by rewrite lookup_insert_eq in N2. }
  assert (fs s !! (d, nn_file) = None) as N3.
  { unfold s1, with_file in N2. simpl in N2. by rewrite lookup_insert_ne in N2. }
  assert (fs s ⊆ fs s1) as H1 by (by apply insert_subseteq).
  assert (forall m Y p, fs s !! p = None -> fs s ⊆ m -> fs s ⊆ <[p := Y]> m) as Hins.
  { intros m Y p Hp Hm. by apply insert_subseteq_r. }
  unfold stored_files, with_files. destruct needed; [destruct (HF eq_refl) as [Y ->]|].
  - split_and!.
    + cbn. by rewrite lookup_insert_ne, lookup_insert_eq.
    + intros _. cbn [flags_written]. rewrite Sl. apply lookup_insert_eq.
    + cbn. by repeat apply Hins.
  - split_and!; [apply lookup_insert_eq|done|]. cbn. by repeat apply Hins.
Qed.

(** The catalog is told of the files. *)
Context (X : column) (F : option (list Z)).
Context (HX : zlen (cells X) = nR) (HF : has_len nR F).

Lemma stored_files_cat needed : exists G, stored_files needed X F = set_fs G (home s).
Proof. exists (fun _ => fs (stored_files needed X F)). unfold stored_files, with_files. by destruct needed, F. Qed.

Lemma result_fits needed : (needed = true -> is_Some F) -> file_fits (set_cwd d (stored_files needed X F)) file nR ft.
Proof.
  intros Hnd. destruct (stored_files_fs needed X F Hnd) as (H1 & _ & _). destruct cell_size_bounds as [Ec Hb].
  pose proof (column_bytes_length ft X) as Hl. rewrite HX, Ec in Hl. right. exists (column_bytes ft X). split_and!.
  - change (path _ file) with (data_path d file). by rewrite (cm_slash _ _ _ _ Hmk).
  - unfold nR in *. nia.
  - rewrite Hl. clear -Hsz. destruct ft; try discriminate Hsz; by exists sz.
Qed.

Lemma store_result_wp needed : (needed = true <-> is_Some F) ->
  wp (fid ← add_fld (usec ev) tid (Some n) (-1) file ft (-1); add_flags ev tid fid (made_flags needed))
    (fun _ => computed s d tn n ft X F) (not_stored s tn n ft) (stored_files needed X F).
Proof.
  intros Hnd. destruct (stored_files_fs needed X F (proj1 Hnd)) as (H1 & H2 & H3).
  destruct (stored_files_cat needed) as [G EG].
  apply (add_result_wp ev _ d tid tn t n file ft); try (rewrite EG; by auto with home).
  - lia.
  - rewrite EG. apply new_name_set_fs. by destruct Hn.
  - by apply result_fits, Hnd.
  - apply Hmk.
  - unfold flags_ready, made_flags. destruct needed; [|done]. destruct (proj1 Hnd eq_refl) as [Y ->].
    split_and!; [done|apply Hmk1|apply Hmk1|]. exists (flag_bytes Y). specialize (H2 eq_refl). split; [exact H2|].
    rewrite flag_bytes_length. by apply HF.
  - intros s' (Hw & Hc & Hfs). split; [done|]. exists file, (flags_file (made_flags needed)).
    rewrite EG in Hc. split; [exact Hc|]. unfold flags_written in *. rewrite Hfs. rewrite (cm_slash _ _ _ _ Hmk).
    split_and!; [done| |exact (cm_new _ _ _ _ Hmk)|done]. unfold flags_file, made_flags. destruct needed; [by apply H2|].
    destruct F as [Y|]; [|done]. discriminate (proj2 Hnd (ex_intro _ Y eq_refl)).
  - intros s' (Hw & Hfs & Hfull & Hcases). split; [done|]. rewrite Hfs, EG in *. split_and!; [done|done|].
    destruct Hcases as [Hc|Hc]; [by left|]. right. by exists file.
Qed.
End results.

(** ** [f1f2opf3] *)

(** The data files of an operand have the size of [nR] rows. *)
Record right_size (ft : FLD_TYPE) (nR : Z) (X : list Z) (F : option (list Z)) : Prop := {
  rs_cells : zlen X = cell_size ft * nR;
  rs_flags : has_len nR F
}.

Lemma read_flags_len nR F : has_len nR F -> has_len nR (read_flags <$> F).
Proof. intros H a Ha. destruct F as [l|]; [|done]. injection Ha as <-. rewrite read_flags_length. by apply H. Qed.

(** The kernel on the contents of the files. *)
Lemma vec_on_files ft op t3 sz nR X1 F1 X2 F2 (nn_op : option (Z * string * (string * string))) Zs :
  0 < nR < 2 ^ 29 -> right_size ft nR X1 F1 -> right_size ft nR X2 F2 ->
  get_type_op_fld "f1f2opf3" op ft ft (Some ""%string) xunknown = Ok t3 -> get_fld_sz t3 = Ok sz ->
  Forall3 (sem ft op) (cells (read_column ft X1)) (cells (read_column ft X2)) Zs ->
  (nn_op = None <-> F1 = None /\ F2 = None) ->
  exists R,
    vec_f1f2opf3 0 nR ft ft (read_column ft X1) (read_flags <$> F1) (read_column ft X2) (read_flags <$> F2) op t3
      (read_column t3 (repeat 0 (Z.to_nat (sz * nR)))) (zero_flags nn_op nR)
    = Ok (R, nn_rslt (read_flags <$> F1) (read_flags <$> F2)) /\ cells R = Zs /\ cells_of t3 R.
Proof.
  intros HnR [L1 HF1] [L2 HF2] Hty Hsz HZ Hnd. assert (cell_size t3 = sz) as Ec by (unfold cell_size; by rewrite Hsz).
  pose proof (get_fld_sz_bounds _ _ Hsz) as Hb. assert (nR / 8192 < INT_MAX) as Hq.
  { apply Z.div_lt_upper_bound; unfold INT_MAX; lia. }
  destruct (op_blocks ft op t3 xunknown (read_column ft X1) (read_column ft X2) (read_column t3 (repeat 0 (Z.to_nat (sz * nR))))
    nR Zs) as (bs & nT & R & Hp & HR & HZs & Hc); auto using read_column_cells, read_column_length; [lia| |].
  { apply read_column_length. rewrite Ec. unfold zlen. rewrite repeat_length. nia. }
  exists R. split; [|done].
  rewrite (vec_f1f2opf3_run _ _ _ _ _ _ _ _ _ nR bs nT); auto using read_flags_len; [rewrite HR|lia|..].
  - cbn [mbind res_bind]. destruct F1, F2; try done. by rewrite (proj2 Hnd).
  - intros a Ha. destruct nn_op; [|done]. injection Ha as <-. unfold zlen. rewrite length_replicate. lia.
  - intros E. assert (nn_op = None) as [-> ->]%Hnd by (by destruct nn_op). done.
Qed.

(** Claim C2. [f1f2opf3], in a docroot whose directories exist, with space and
    unused names for two files, on two fields of a type whose files have the
    size of the table, for an operator that every row has a value for by the
    reference semantics, and a name that is free: the table gains the field of
    the type that [get_type_op_fld] gives, whose file holds these values, with
    a file of flags when an operand has one (both flags, when both have); the
    catalog has changed in no other way, no other file has changed and the
    catalog is well-formed.  It fails only when no record is free, and then no
    file has changed. *)
Theorem f1f2opf3_correct ev s d tid tn t n1 f1 X1 F1 n2 f2 X2 F2 op n3 ft t3 sz Zs :
  let nR := t_nR t in
  wf s -> docroot_ok s d -> has_tbl s tid tn t -> 0 < nR < 2 ^ 29 ->
  operand_of s d tid n1 f1 X1 F1 -> operand_of s d tid n2 f2 X2 F2 -> fldtype f1 = ft -> fldtype f2 = ft ->
  right_size ft nR X1 F1 -> right_size ft nR X2 F2 -> one_of op f1f2opf3_ops = true ->
  get_type_op_fld "f1f2opf3" op ft ft (Some ""%string) xunknown = Ok t3 -> get_fld_sz t3 = Ok sz ->
  Forall3 (sem ft op) (cells (read_column ft X1)) (cells (read_column ft X2)) Zs ->
  new_name s tid n3 -> can_make ev s d (sz * nR) ->
  can_make ev (with_file (d, mkstemp ev (set_cwd d s) d) (repeat 0 (Z.to_nat (sz * nR))) s) d nR ->
  wp (f1f2opf3 ev (Some tn) (Some n1) (Some n2) (Some op) (Some n3))
    (fun _ s' => exists R, cells R = Zs /\ cells_of t3 R /\
       computed s d tn n3 t3 R (nn_rslt (read_flags <$> F1) (read_flags <$> F2)) s')
    (not_stored s tn n3 t3) s.
Proof.
  intros nR Hwf Hok Ht HnR O1 O2 Hf1 Hf2 S1 S2 Hop Hty Hsz HZ Hn Hm1 Hm2. unfold f1f2opf3.
  pose proof Ht as (_ & _ & Htne). destruct (op_fld _ _ _ _ _ _ _ O1) as (i1 & _ & _ & _ & Hne1 & _).
  destruct (op_fld _ _ _ _ _ _ _ O2) as (i2 & _ & _ & _ & Hne2 & _). destruct (chk_fld_name_Ok n3 (nw_chk _ _ _ Hn)) as [Hne3 _].
  assert (op <> ""%string) as Hopne by (by intros ->). pose proof (zlookup_Some_range _ _ _ (proj1 Ht)).
  wp_step. wp_step; [by destruct tn|]. wp_step. wp_step; [by destruct n1|]. wp_step. wp_step; [by destruct n2|].
  wp_step. wp_step; [by destruct n3|]. wp_step. wp_step; [by destruct op|].
  wp_step. apply (is_tbl_found s tid tn t); [done..|]. wp_step. wp_step; [done|]. wp_step. apply (wp_rd_tbl _ t); [apply Ht|].
  wp_step. apply (fetch_wp s d tid tn t n1 f1 X1 F1); [done..|]. intros j1 _. cbn beta iota.
  wp_step. apply (fetch_wp (home s) d tid tn t n2 f2 X2 F2); auto with home; []. intros j2 _. cbn beta iota.
  change (default ""%string (Some op)) with op. rewrite Hf1, Hf2.
  wp_step. wp_step; [by rewrite Hop in *|]. wp_step. apply (wp_lift_Ok _ t3); [done|].
  pose proof (get_fld_sz_bounds _ _ Hsz) as Hb. wp_step. unfold file_size. rewrite decide_False by (by intros ->).
  wp_step. apply (wp_lift_Ok _ sz); [done|]. wp_step. apply wp_stuck_if; [unfold LLONG_MAX, LLONG_MIN, nR in *; nia|].
  wp_step. fold nR. set (needed := flags_needed F1 F2).
  wp_step. apply (new_result_wp ev s d t t3 sz Hok Hsz HnR Hm1). cbn beta iota.
  wp_step. apply (new_flags_wp ev s d t sz Hok HnR Hm2). set (nn_op := made_flags _ _ _ _ _ _).
  assert (nn_op = None <-> F1 = None /\ F2 = None) as Hnn.
  { unfold nn_op, made_flags, needed, flags_needed. destruct F1, F2; split; (done || by intros []). }
  destruct (vec_on_files ft op t3 sz nR X1 F1 X2 F2 nn_op Zs) as (R & HR & HZs & Hc); try done.
  wp_step. eapply wp_lift_Ok; [exact HR|]. cbn beta iota.
  apply (write_files_wp ev s d t t3 sz needed R (nn_rslt (read_flags <$> F1) (read_flags <$> F2))).
  assert (has_len nR (nn_rslt (read_flags <$> F1) (read_flags <$> F2))) as Hlen.
  { intros a. apply nn_rslt_len; apply read_flags_len; [apply S1|apply S2]. }
  assert (zlen (cells R) = nR) as HlR.
  { rewrite HZs. pose proof (Forall3_length_lr _ _ _ _ HZ) as Hl. unfold zlen. rewrite <- Hl. by apply read_column_length, S1. }
  eapply wp_mono; [apply (store_result_wp ev s d tid tn t n3 t3 sz Hwf Hok Ht Hn Hsz HnR Hm1 Hm2 R _ HlR Hlen)| |done].
  - unfold needed, flags_needed. destruct F1, F2; split; try done; first [by intros [? [=]]|intros _; eexists; reflexivity].
  - intros ? s' Hs'. by exists R.
Qed.

Lemma small_alt_wf : wf small_alt.
Proof. apply wfb_ok. vm_compute. reflexivity. Qed.
Lemma small_alt_docroot : docroot_ok small_alt "/data".
Proof.
  split; [reflexivity|discriminate|..]; simpl; set_solver.
Qed.
Lemma small_alt_x : operand_of small_alt "/data" 0 "x" (small_fld 0 "x" "_x" (-1) 1 undef I4 INT_MIN)
  [1; 0; 0; 0; 2; 0; 0; 0; 3; 0; 0; 0] (Some [1; 0; 1]).
Proof.
  split; [exists 0; by split_and!|by split|]. split; [done|]. exists (small_fld 0 "_nn_x" "_nnx" 0 (-1) nn I1 INT_MIN).
  split; [done|by split].
Qed.
Lemma small_alt_y : operand_of small_alt "/data" 0 "y" (small_fld 0 "y" "_y" (-1) (-1) undef I4 1)
  [0; 0; 0; 0; 2; 0; 0; 0; 3; 0; 0; 0] None.
Proof. split; [exists 2; by split_and!|by split|done]. Qed.
Lemma small_alt_new_name n : chk_fld_name (Some n) 0 = Ok tt -> strlen n + strlen "_nn_" <= MAX_LEN_FLD_NAME ->
  forallb (fun f => negb (strcmp_eq (name f) n || strcmp_eq (name f) ("_nn_" +:+ n)%string)) (g_flds small_alt) = true ->
  new_name small_alt 0 n.
Proof.
  intros H1 H2 H3. split; [done|done|]. intros j g Hg _. rewrite forallb_forall in H3.
  assert (In g (g_flds small_alt)) as Hin.
  { pose proof (zlookup_Some_range _ _ _ Hg). rewrite zlookup_to_nat in Hg by lia. apply list_elem_of_In.
    by eapply list_elem_of_lookup_2. }
  specialize (H3 g Hin). apply negb_true_iff, orb_false_iff in H3 as [E1 E2]. by split; apply strcmp_eq_false.
Qed.
Lemma small_can_make s filesz :
  fs s !! ("/data"%string, mkstemp (small_env (-1)) (set_cwd "/data" s) "/data"%string) = None -> filesz < 1000000 ->
  can_make (small_env (-1)) s "/data" filesz.
Proof.
  intros Hnew Hsz. split; [done|by exists 1000000|..|exact Hnew| |]; cbn [mkstemp small_env];
    try intros ?; by case_match.
Qed.

Lemma f1f2opf3_correct_witness :
  let ev := small_env (-1) in
  wp (f1f2opf3 ev (Some "t1"%string) (Some "x"%string) (Some "y"%string) (Some "+"%string) (Some "z"%string))
    (fun _ s' => exists R, cells R = [Int 1; Int 4; Int 6] /\ cells_of I4 R /\
       computed small_alt "/data" "t1" "z" I4 R (Some [1; 0; 1]) s')
    (not_stored small_alt "t1" "z" I4) small_alt.
Proof.
  apply (f1f2opf3_correct (small_env (-1)) small_alt "/data" 0 "t1" (small_tbl "t1")
    "x" (small_fld 0 "x" "_x" (-1) 1 undef I4 INT_MIN) [1; 0; 0; 0; 2; 0; 0; 0; 3; 0; 0; 0] (Some [1; 0; 1])
    "y" (small_fld 0 "y" "_y" (-1) (-1) undef I4 1) [0; 0; 0; 0; 2; 0; 0; 0; 3; 0; 0; 0] None
    "+" "z" I4 I4 4 [Int 1; Int 4; Int 6]);
    try reflexivity; try exact small_alt_wf; try exact small_alt_docroot; try exact small_t1; try exact small_alt_x;
    try exact small_alt_y;
    try (split; [reflexivity|intros a Ha; first [injection Ha as <-; reflexivity|discriminate Ha]]).
  - split; reflexivity.
  - vm_compute. repeat (apply Forall3_cons || apply Forall3_nil); apply sem_I4.
    + apply (sem_add 32 1 0). split; [vm_compute; discriminate|reflexivity].
    + apply (sem_add 32 2 2). split; [vm_compute; discriminate|reflexivity].
    + apply (sem_add 32 3 3). split; [vm_compute; discriminate|reflexivity].
  - by apply small_alt_new_name.
  - by apply small_can_make.
  - by apply small_can_make.
Defined.
