(* ===== verification/ScalarVerbs.v ===== *)
(** * Verbs with one field as operand, on the whole state.

    [f1s1opf2] and [f1opf2] of the files of these names in
    src/src/dir_wr_verbs/, with the files that dir_helpers/vec_f1s1opf2.c,
    vec_f1opf2.c and f1opf2_cum.c make: from the names of a table and a field
    to the record, the data file and the file of flags of the new field.

    The theorems: [f1s1opf2] gives the catalog one new field, as [f1f2opf3]
    does; [f1opf2] does too when its operand has no nulls, and otherwise the
    flags of the result become the nn field of the operand.

    [unset] is what a variable of type [FLD_TYPE] holds that has not been
    set: for some operators [get_type_op_fld] succeeds without a type. *)

From stdpp Require Import prelude strings gmap.
From Stdlib Require Import ZArith Lia SpecFloat Ascii.
From S2P Require Import Prelude CString Types Reduce Count Elem Vec VecScalar VecUnary Fill Catalog Verbs CatalogLogic CatalogSpec CatalogFields CatalogAux Store FieldVerbs FieldVerbsSpec.
Import Reduce.

(** ** The verbs *)

Section verbs.
Context (ev : env) (strtod : string -> float * string) (log exp : float -> float) (unset : FLD_TYPE).

Definition is_some_data (nn_X : option (list Z)) : bool := match nn_X with Some _ => true | None => false end.

(** [vec_f1s1opf2]: the new files and the type of the result. *)
Definition vec_f1s1opf2_files (nR : Z) (f1type : FLD_TYPE) (f1_X : list Z) (nn_f1_X : option (list Z)) (str_scalar op : string)
    : M (Z * string * option (Z * string * (string * string)) * FLD_TYPE) :=
  s ← lift (break_into_scalars strtod str_scalar f1type);
  '(block_size, nT) ← lift (partition nR 8192 (-1));
  op_fldtype ← lift (get_type_op_fld "f1s1opf2" op f1type f1type (Some ""%string) unset);
  let fldsz := match get_fld_sz op_fldtype with Ok sz => sz | _ => INT_MAX end in
  stuck_if ((LLONG_MAX <? fldsz * nR) || (fldsz * nR <? LLONG_MIN));;
  '(ddir_id, opfile, p) ← new_file ev (fldsz * nR);
  nn_op ← new_flags ev (is_some_data nn_f1_X) nR;
  '(op_X, nn_op_X) ← lift (f1s1opf2_blocks nR f1type (read_column f1type f1_X) (read_flags <$> nn_f1_X) s op op_fldtype
     block_size nT (read_column op_fldtype (repeat 0 (Z.to_nat (fldsz * nR))), zero_flags nn_op nR));
  write_cells p (column_bytes op_fldtype op_X);;
  write_flags nn_op nn_op_X;;
  mret (ddir_id, opfile, nn_op, op_fldtype).

Definition f1s1opf2_ops : list string :=
  ["+"; "-"; "*"; "/"; "%"; "&"; "|"; "^"; ">"; "<"; ">="; "<="; "!="; "=="; "<<"; ">>"; "<||>"; "<=||>="; ">&&<"; ">=&&<="]%string.

(** The status of [is_fld] is not tested; when it fails [f1_id] is negative. *)
Definition f1s1opf2 (tbl f1 str_scalar op f2 : option string) : M unit :=
  fail_if (null_or_empty tbl);;
  fail_if (null_or_empty f1);;
  fail_if (null_or_empty str_scalar);;
  fail_if (null_or_empty f2);;
  fail_if (null_or_empty op);;
  '(tid, _) ← is_tbl tbl;
  chk_tbl_range tid;;
  t ← rd_tbl tid;
  '(_, f1_rec, f1_X, nn_f1_X) ← fetch tid f1;
  let op := default ""%string op in
  fail_if (negb (one_of op f1s1opf2_ops));;
  '(ddir_id, opfile, nn_op, f2_fldtype) ←
    vec_f1s1opf2_files (t_nR t) (fldtype f1_rec) f1_X nn_f1_X (default ""%string str_scalar) op;
  fid ← add_fld (usec ev) tid f2 ddir_id opfile f2_fldtype (-1);
  add_flags ev tid fid nn_op.

(** A bit field is a column of bytes for the conversions. *)
Definition bit_column (t : FLD_TYPE) (bs : list Z) : column :=
  if decide (t = B) then Ints (words_of_bytes 1 bs) else read_column t bs.
Definition bit_bytes (t : FLD_TYPE) (X : column) : list Z :=
  match t, X with B, Ints X => bytes_of_ints 1 X | _, _ => column_bytes t X end.

(** [vec_f1opf2].  [filesz] is a [size_t] for [mk_temp_file]: -1 is a size that
    no file has. *)
Definition vec_f1opf2_files (nR : Z) (f1type : FLD_TYPE) (f1_X : list Z) (nn_f1_X : option (list Z)) (op str_op_spec : string)
    : M (Z * string * option (Z * string * (string * string)) * FLD_TYPE) :=
  '(block_size, nT) ← lift (partition nR 1024 (-1));
  dst ← lift (dst_type f1type op str_op_spec unset);
  '(filesz, nn_filesz, _) ← lift (file_sizes f1type dst nR);
  stuck_if ((LLONG_MAX <? filesz) || (filesz <? LLONG_MIN));;
  '(ddir_id, opfile, p) ← new_file ev (wrapU 64 filesz);
  nn_op ← new_flags ev (is_some_data nn_f1_X && negb (bool_decide (dst = B))) (wrapU 64 nn_filesz);
  nn_op_X ← match nn_op, nn_f1_X with
    | Some _, Some nn_f1_X => out ← lift (assign_I1 (read_flags nn_f1_X) 0 nR (replicate (Z.to_nat nR) 0)); mret (Some out)
    | _, _ => mret None
    end;
  s ← lift (f1opf2_blocks log exp nR f1type (bit_column f1type f1_X) op dst block_size nT
     {| o_X := bit_column dst (repeat 0 (Z.to_nat filesz)); o_nn := nn_op_X; in_off := 0; op_off := 0 |});
  write_cells p (bit_bytes dst (o_X s));;
  write_flags nn_op (o_nn s);;
  mret (ddir_id, opfile, nn_op, dst).

Definition f1opf2_ops : list string :=
  ["conv"; "bitcount"; "sqrt"; "abs"; "normal_cdf_inverse"; "reciprocal"; "!"; "++"; "--"; "~"]%string.

(** [f1opf2_cum]; the status of [get_fld_sz] is not tested. *)
Definition int_cells (X : column) : list Z := match X with Ints X => X | Floats _ => [] end.
Definition f1opf2_cum_files (f1_X : list Z) (nR : Z) (f1type f2type : FLD_TYPE) : M (Z * string) :=
  let fldsz := match get_fld_sz f2type with Ok sz => sz | _ => INT_MAX end in
  stuck_if ((LLONG_MAX <? fldsz * nR) || (fldsz * nR <? LLONG_MIN));;
  '(ddir_id, opfile, p) ← new_file ev (fldsz * nR);
  out ← lift (Count.f1opf2_cum (int_cells (read_column f1type f1_X)) nR f1type f2type);
  write_cells p (column_bytes f2type (Ints out));;
  mret (ddir_id, opfile).

(** [smear] gets the file of the operand as bytes, whatever its type is. *)
Definition smear_files (f1_X : list Z) (nR plus minus : Z) : M (Z * string) :=
  '(ddir_id, opfile, p) ← new_file ev nR;
  out ← lift (smear (read_flags f1_X) nR plus minus (read_flags (repeat 0 (Z.to_nat nR))));
  write_cells p (flag_bytes out);;
  mret (ddir_id, opfile).

Definition shift_column (f1_X : column) (nn_f1_X : option (list Z)) (nR : Z) (f1type : FLD_TYPE) (shift_by : Z)
    (op_X : column) (nn_op_X : list Z) : res (column * list Z) :=
  match f1_X, op_X with
  | Ints X, Ints op_X => '(X, F) ← f1opf2_shift 0 X nn_f1_X nR f1type shift_by op_X nn_op_X; Ok (Ints X, F)
  | Floats X, Floats op_X => '(X, F) ← f1opf2_shift fzero X nn_f1_X nR f1type shift_by op_X nn_op_X; Ok (Floats X, F)
  | _, _ => Ub
  end.
Definition shift_files (f1_X : list Z) (nn_f1_X : option (list Z)) (nR : Z) (f1type : FLD_TYPE) (shift_by : Z)
    : M (Z * string * Z * string) :=
  fldsz ← lift (get_fld_sz f1type);
  stuck_if ((LLONG_MAX <? nR * fldsz) || (nR * fldsz <? LLONG_MIN));;
  '(opfile, ddir_id) ← mk_temp_file ev (nR * fldsz);
  '(nn_opfile, nn_ddir_id) ← mk_temp_file ev nR;
  p ← q_mmap_write ddir_id opfile;
  nn_p ← q_mmap_write nn_ddir_id nn_opfile;
  '(op_X, nn_op_X) ← lift (shift_column (read_column f1type f1_X) (read_flags <$> nn_f1_X) nR f1type shift_by
     (read_column f1type (repeat 0 (Z.to_nat (nR * fldsz)))) (replicate (Z.to_nat nR) 0));
  write_cells p (column_bytes f1type op_X);;
  write_cells nn_p (flag_bytes nn_op_X);;
  mret (ddir_id, opfile, nn_ddir_id, nn_opfile).

(** The operators after the operand has been found. *)
Definition f1opf2_conv (tid nR f1_id : Z) (f1type : FLD_TYPE) (f1_X : list Z) (nn_f1_X : option (list Z)) (op str_op_spec : string)
    (f2 : option string) : M unit :=
  '(ddir_id, opfile, nn_op, f2type) ← vec_f1opf2_files nR f1type f1_X nn_f1_X op str_op_spec;
  add_fld (usec ev) tid f2 ddir_id opfile f2type (-1);;
  add_flags ev tid f1_id nn_op.

Definition f1opf2_cum_op (tid nR : Z) (f1type : FLD_TYPE) (f1_X : list Z) (str_op_spec : option string) (f2 : option string) : M unit :=
  rslt_buf ← lift (extract_S str_op_spec "newtype=[" "]" BUFLEN);
  fail_if (bool_decide (rslt_buf = None));;
  f2type ← lift (unstr_fldtype rslt_buf);
  '(ddir_id, opfile) ← f1opf2_cum_files f1_X nR f1type f2type;
  add_fld (usec ev) tid f2 ddir_id opfile f2type (-1);;
  mret tt.

Definition f1opf2_smear (tid nR : Z) (f1type : FLD_TYPE) (f1_X : list Z) (str_op_spec : option string) (f2 : option string) : M unit :=
  '(plus, is_plus_null) ← lift (extracted (extract_I4 str_op_spec "plus=[" "]" (-1)));
  fail_if (negb is_plus_null && (plus <? 0));;
  '(minus, is_minus_null) ← lift (extracted (extract_I4 str_op_spec "minus=[" "]" (-1)));
  fail_if (negb is_minus_null && (minus <? 0));;
  fail_if (is_plus_null && is_minus_null);;
  '(ddir_id, opfile) ← smear_files f1_X nR (if is_plus_null : bool then 0 else plus) (if is_minus_null : bool then 0 else minus);
  add_fld (usec ev) tid f2 ddir_id opfile f1type (-1);;
  mret tt.

Definition f1opf2_shift_op (tid nR : Z) (f1type : FLD_TYPE) (f1_X : list Z) (nn_f1_X : option (list Z)) (str_op_spec : option string)
    (f2 : option string) : M unit :=
  '(shift_by, is_null) ← lift (extracted (extract_I4 str_op_spec "val=[" "]" 0));
  fail_if (is_null : bool);;
  fail_if (shift_by =? 0);;
  '(ddir_id, opfile, nn_ddir_id, nn_opfile) ← shift_files f1_X nn_f1_X nR f1type shift_by;
  fid ← add_fld (usec ev) tid f2 ddir_id opfile f1type (-1);
  add_aux_fld (usec ev) None tid f2 fid nn_ddir_id (Some nn_opfile) (Some "nn"%string);;
  mret tt.

Definition f1opf2 (tbl f1 str_op_spec f2 : option string) : M unit :=
  fail_if (null_or_empty tbl);;
  fail_if (null_or_empty f1);;
  fail_if (null_or_empty f2);;
  fail_if (null_or_empty str_op_spec);;
  op ← lift (extract_S str_op_spec "op=[" "]" BUFLEN);
  fail_if (bool_decide (op = None));;
  let op := default ""%string op in
  '(tid, _) ← is_tbl tbl;
  chk_tbl_range tid;;
  t ← rd_tbl tid;
  '(f1_id, f1_rec, f1_X, nn_f1_X) ← fetch tid f1;
  let nR := t_nR t in
  let f1type := fldtype f1_rec in
  if one_of op f1opf2_ops then f1opf2_conv tid nR f1_id f1type f1_X nn_f1_X op (default ""%string str_op_spec) f2
  else if strcmp_eq op "cum" then f1opf2_cum_op tid nR f1type f1_X str_op_spec f2
  else if strcmp_eq op "smear" then f1opf2_smear tid nR f1type f1_X str_op_spec f2
  else if strcmp_eq op "shift" then f1opf2_shift_op tid nR f1type f1_X nn_f1_X str_op_spec f2
  else go_BYE.
End verbs.

(** *** The verbs at the small docroot *)

Definition run_f1opf2 (f1 spec f2 : string) : M unit :=
  f1opf2 (small_env (-1)) (fun x => x) (fun x => x) xunknown (Some "t1"%string) (Some f1) (Some spec) (Some f2).

Example plus_seven :
  let o := f1s1opf2 (small_env (-1)) (fun s => (fzero, s)) xunknown (Some "t1") (Some "x") (Some "7") (Some "+") (Some "z") small_alt in
  file_of o "z" = Some (-1, "_tempf_a"%string, Some [8; 0; 0; 0; 9; 0; 0; 0; 10; 0; 0; 0]) /\
  file_of o "_nn_z" = Some (-1, "_tempf_b"%string, Some [1; 0; 1]).
Proof. by vm_compute. Qed.

(** The flags of the result become those of the operand. *)
Example nulls_go_to_operand :
  let o := run_f1opf2 "x" "op=[++]" "z" small_alt in
  file_of o "z" = Some (-1, "_tempf_a"%string, Some [2; 0; 0; 0; 3; 0; 0; 0; 4; 0; 0; 0]) /\
  file_of o "_nn_z" = None /\ file_of o "_nn_x" = Some (-1, "_tempf_b"%string, Some [1; 0; 1]).
Proof. by vm_compute. Qed.
Example running_sum :
  file_of (run_f1opf2 "y" "op=[cum]:newtype=[I8]" "z" small_alt) "z" =
    Some (-1, "_tempf_a"%string, Some [0; 0; 0; 0; 0; 0; 0; 0; 2; 0; 0; 0; 0; 0; 0; 0; 5; 0; 0; 0; 0; 0; 0; 0]).
Proof. by vm_compute. Qed.
Example shifted_field :
  let o := run_f1opf2 "y" "op=[shift]:val=[1]" "z" small_alt in
  file_of o "z" = Some (-1, "_tempf_a"%string, Some [0; 0; 0; 0; 0; 0; 0; 0; 2; 0; 0; 0]) /\
  file_of o "_nn_z" = Some (-1, "_tempf_b"%string, Some [0; 1; 1]).
Proof. by vm_compute. Qed.
(** The new file is one of bytes, the field is added with the type of the
    operand: only I1 fields can be smeared. *)
Example smear_of_I4 : file_of (run_f1opf2 "y" "op=[smear]:plus=[1]" "z" small_alt) "z" = None.
Proof. by vm_compute. Qed.

(** ** [f1s1opf2] *)

Lemma made_flags_none ev s d t sz F : made_flags ev s d t sz (is_some_data F) = None <-> F = None.
Proof. unfold made_flags. by destruct F. Qed.

(** The kernel on the contents of the files. *)
Lemma scalar_on_files unset ft op sc v t2 sz nR X1 F1 (nn_op : option (Z * string * (string * string))) Zs :
  0 < nR < 2 ^ 29 -> right_size ft nR X1 F1 -> num_scalar_vals sc = 1 -> scalar_of sc ft = Some v ->
  get_type_op_fld "f1s1opf2" op ft ft (Some ""%string) unset = Ok t2 -> get_fld_sz t2 = Ok sz ->
  Forall2 (sem1 ft op v) (cells (read_column ft X1)) Zs -> (nn_op = None <-> F1 = None) ->
  exists bs nT R, partition nR 8192 (-1) = Ok (bs, nT) /\ cells R = Zs /\ cells_of t2 R /\
    f1s1opf2_blocks nR ft (read_column ft X1) (read_flags <$> F1) sc op t2 bs nT
      (read_column t2 (repeat 0 (Z.to_nat (sz * nR))), zero_flags nn_op nR) = Ok (R, read_flags <$> F1).
Proof.
  intros HnR [L1 HF1] Hone Hv Hty Hsz HZ Hnn. assert (cell_size t2 = sz) as <- by (unfold cell_size; by rewrite Hsz).
  destruct (f1s1opf2_rows ft op sc v t2 unset (read_column ft X1) (read_flags <$> F1) nR Zs)
    as (bs & nT & R & sz' & Hp & _ & _ & HR & Hc & E); auto using read_column_cells, read_column_length, read_flags_len.
  exists bs, nT, R. rewrite read_zeros by lia. split_and!; try done. rewrite <- E. do 2 f_equal.
  destruct nn_op as [x|], F1 as [F|]; try done; [discriminate (proj2 Hnn eq_refl)|discriminate (proj1 Hnn eq_refl)].
Qed.

(** Claim C3. [f1s1opf2], in a docroot whose directories exist, with space and
    unused names for two files, on a field whose files have the size of the
    table, with the text of one scalar of its type, for an operator that every
    row has a value for by the reference semantics, and a name that is free:
    the table gains the field of the type that [get_type_op_fld] gives, whose
    file holds these values, with a copy of the flags of the operand if it has
    any; the catalog has changed in no other way, no other file has changed and
    the catalog is well-formed.  It fails only when no record is free, and then
    no file has changed. *)
Theorem f1s1opf2_correct ev strtod unset s d tid tn t n1 f1 X1 F1 str sc v op n2 ft t2 sz Zs :
  let nR := t_nR t in
  wf s -> docroot_ok s d -> has_tbl s tid tn t -> 0 < nR < 2 ^ 29 ->
  operand_of s d tid n1 f1 X1 F1 -> fldtype f1 = ft -> right_size ft nR X1 F1 -> one_of op f1s1opf2_ops = true ->
  str <> ""%string -> break_into_scalars strtod str ft = Ok sc -> num_scalar_vals sc = 1 -> scalar_of sc ft = Some v ->
  get_type_op_fld "f1s1opf2" op ft ft (Some ""%string) unset = Ok t2 -> get_fld_sz t2 = Ok sz ->
  Forall2 (sem1 ft op v) (cells (read_column ft X1)) Zs ->
  new_name s tid n2 -> can_make ev s d (sz * nR) ->
  can_make ev (with_file (d, mkstemp ev (set_cwd d s) d) (repeat 0 (Z.to_nat (sz * nR))) s) d nR ->
  wp (f1s1opf2 ev strtod unset (Some tn) (Some n1) (Some str) (Some op) (Some n2))
    (fun _ s' => exists R, cells R = Zs /\ cells_of t2 R /\ computed s d tn n2 t2 R (read_flags <$> F1) s')
    (not_stored s tn n2 t2) s.
Proof.
  intros nR Hwf Hok Ht HnR O1 Hf1 S1 Hop Hstr Hsc Hone Hv Hty Hsz HZ Hn Hm1 Hm2. unfold f1s1opf2.
  pose proof Ht as (_ & _ & Htne). destruct (op_fld _ _ _ _ _ _ _ O1) as (i1 & _ & _ & _ & Hne1 & _).
  destruct (chk_fld_name_Ok n2 (nw_chk _ _ _ Hn)) as [Hne2 _].
  assert (op <> ""%string) as Hopne by (by intros ->). pose proof (zlookup_Some_range _ _ _ (proj1 Ht)).
  wp_step. wp_step; [by destruct tn|]. wp_step. wp_step; [by destruct n1|]. wp_step. wp_step; [by destruct str|].
  wp_step. wp_step; [by destruct n2|]. wp_step. wp_step; [by destruct op|].
  wp_step. apply (is_tbl_found s tid tn t); [done..|]. wp_step. wp_step; [done|]. wp_step. apply (wp_rd_tbl _ t); [apply Ht|].
  wp_step. apply (fetch_wp s d tid tn t n1 f1 X1 F1); [done..|]. intros j1 _. cbn beta iota.
  change (default ""%string (Some op)) with op. change (default ""%string (Some str)) with str. rewrite Hf1.
  wp_step. wp_step; [by rewrite Hop in *|]. fold nR. set (needed := is_some_data F1).
  destruct (scalar_on_files unset ft op sc v t2 sz nR X1 F1 (made_flags ev s d t sz needed) Zs)
    as (bs & nT & R & Hp & HZs & Hc & HR); try done; [by apply made_flags_none|].
  unfold vec_f1s1opf2_files. wp_step. wp_step. eapply wp_lift_Ok; [exact Hsc|]. wp_step. eapply wp_lift_Ok; [exact Hp|]. cbn beta iota.
  wp_step. eapply wp_lift_Ok; [exact Hty|]. pose proof (get_fld_sz_bounds _ _ Hsz) as Hb. rewrite Hsz. cbn zeta.
  wp_step. apply wp_stuck_if; [unfold LLONG_MAX, LLONG_MIN, nR in *; nia|].
  wp_step. apply (new_result_wp ev s d t t2 sz Hok Hsz HnR Hm1). cbn beta iota.
  wp_step. apply (new_flags_wp ev s d t sz Hok HnR Hm2).
  wp_step. eapply wp_lift_Ok; [exact HR|]. cbn beta iota.
  apply (write_files_wp ev s d t t2 sz needed R (read_flags <$> F1)). wp_step. cbn beta iota.
  assert (has_len nR (read_flags <$> F1)) as Hlen by (apply read_flags_len, S1).
  assert (zlen (cells R) = nR) as HlR.
  { rewrite HZs. pose proof (Forall2_length _ _ _ HZ) as Hl. unfold zlen. rewrite <- Hl. by apply read_column_length, S1. }
  eapply wp_mono; [apply (store_result_wp ev s d tid tn t n2 t2 sz Hwf Hok Ht Hn Hsz HnR Hm1 Hm2 R _ HlR Hlen)| |done].
  - unfold needed, is_some_data. destruct F1; split; try done; by intros [? [=]].
  - intros ? s' Hs'. by exists R.
Qed.

Lemma f1s1opf2_correct_witness :
  let ev := small_env (-1) in
  wp (f1s1opf2 ev (fun s => (fzero, s)) xunknown (Some "t1"%string) (Some "x"%string) (Some "7"%string) (Some "+"%string) (Some "z"%string))
    (fun _ s' => exists R, cells R = [Int 8; Int 9; Int 10] /\ cells_of I4 R /\
       computed small_alt "/data" "t1" "z" I4 R (Some [1; 0; 1]) s')
    (not_stored small_alt "t1" "z" I4) small_alt.
Proof.
  eapply (f1s1opf2_correct (small_env (-1)) (fun s => (fzero, s)) xunknown small_alt "/data" 0 "t1" (small_tbl "t1")
    "x" (small_fld 0 "x" "_x" (-1) 1 undef I4 INT_MIN) [1; 0; 0; 0; 2; 0; 0; 0; 3; 0; 0; 0] (Some [1; 0; 1])
    "7" _ (Int 7) "+" "z" I4 I4 4 [Int 8; Int 9; Int 10]);
    try reflexivity; try exact small_alt_wf; try exact small_alt_docroot; try exact small_t1; try exact small_alt_x;
    try discriminate; try (split; [reflexivity|intros a [= <-]; reflexivity]).
  - split; reflexivity.
  - change (Forall2 (sem1 I4 "+" (Int 7)) [Int 1; Int 2; Int 3] [Int 8; Int 9; Int 10]).
    repeat (apply Forall2_cons; split); try (by apply Forall2_nil); (apply sem1_I4; [discriminate|]).
    + apply (sem_add 32 1 7). split; [vm_compute; discriminate|reflexivity].
    + apply (sem_add 32 2 7). split; [vm_compute; discriminate|reflexivity].
    + apply (sem_add 32 3 7). split; [vm_compute; discriminate|reflexivity].
  - by apply small_alt_new_name.
  - by apply small_can_make.
  - by apply small_can_make.
Defined.

(** ** [f1opf2] *)

(** The operand [f] has an nn field, not in slot 0, and only that has the name
    of an nn field of [n1]. *)
Record nn_own (s : state) (tid : Z) (n1 n2 : string) (f : FLD_REC_TYPE) : Prop := {
  no_slot : nn_fld_id f <> 0;
  no_len : strlen n1 + strlen "_nn_" <= MAX_LEN_FLD_NAME;
  no_result : n2 <> ("_nn_" +:+ n1)%string;
  no_clash j g : g_flds s !z j = Some g -> tbl_id g = tid -> name g = ("_nn_" +:+ n1)%string ->
    0 <= nn_fld_id f /\ j = nn_fld_id f
}.

(** What is left when the operand has nulls: the result without flags; the
    flags are the nn field of the operand. *)
Definition nulls_moved (s : state) (d tn n1 n2 : string) (ft : FLD_TYPE) (X : column) (F : list Z) (s' : state) : Prop :=
  wf s' /\ exists file nn_file,
    cat_eq (abs s') (a_set_fld tn n1 (set_nn (-1, nn_file) <$> c_fld (abs s) tn n1)
                       (a_set_fld tn n2 (Some (result_info ft file None)) (abs s))) /\
    fs s' !! data_path d file = Some (column_bytes ft X) /\ fs s' !! data_path d nn_file = Some (flag_bytes F) /\
    fs s !! data_path d file = None /\ fs s ⊆ fs s'.

Lemma a_set_congr tn n d C C' : cat_eq C C' -> cat_eq (a_set_fld tn n d C) (a_set_fld tn n d C').
Proof. intros [H1 H2]. split; unfold a_set_fld; cbn [c_tbl c_fld]; [done|]. intros tn' fn. by rewrite H2. Qed.

Lemma unary_on_files log exp ft op t2 sz nR X1 F1 nn_X Zs :
  0 < nR < 2 ^ 29 -> right_size ft nR X1 F1 -> get_fld_sz t2 = Ok sz ->
  Forall2 (usem ft op t2) (cells (read_column ft X1)) Zs ->
  exists bs nT st, partition nR 1024 (-1) = Ok (bs, nT) /\ ft <> B /\ t2 <> B /\ cells (o_X st) = Zs /\ cells_of t2 (o_X st) /\
    f1opf2_blocks log exp nR ft (bit_column ft X1) op t2 bs nT
      {| o_X := bit_column t2 (repeat 0 (Z.to_nat (nR * sz))); o_nn := nn_X; in_off := 0; op_off := 0 |} = Ok st /\
    o_nn st = nn_X.
Proof.
  intros HnR [L1 _] Hsz HZ. assert (cell_size t2 = sz) as <- by (unfold cell_size; by rewrite Hsz).
  destruct (f1opf2_rows log exp ft op t2 (read_column ft X1) nn_X nR Zs) as
    (bs & nT & st & sz' & Hp & _ & _ & HB1 & HB2 & E & Hnn & HR & Hc); auto using read_column_cells, read_column_length.
  exists bs, nT, st. unfold bit_column. rewrite !decide_False, (Z.mul_comm nR), read_zeros by (done || lia). done.
Qed.

(** The flags of the operand are copied. *)
Lemma copy_flags_wp ev s d t sz F1 nR (Q : option (list Z) -> state -> Prop) E st :
  0 <= nR -> has_len nR F1 -> Q (read_flags <$> F1) st ->
  wp (match made_flags ev s d t sz (is_some_data F1), F1 with
      | Some _, Some nn_f1_X => out ← lift (assign_I1 (read_flags nn_f1_X) 0 nR (replicate (Z.to_nat nR) 0)); mret (Some out)
      | _, _ => mret None
      end) Q E st.
Proof.
  intros HnR HF HQ. destruct F1 as [F|]; cbn [is_some_data made_flags]; [|by wp_step].
  wp_step. apply (wp_lift_Ok _ (read_flags F)); [|by wp_step]. apply assign_all; [done|].
  rewrite read_flags_length. by apply HF.
Qed.

Section files.
Context (ev : env) (log exp : float -> float) (unset : FLD_TYPE).
Context (s : state) (d : string) (t : TBL_REC_TYPE) (ft t2 : FLD_TYPE) (sz : Z) (X1 : list Z) (F1 : option (list Z)).
Context (Hok : docroot_ok s d) (HnR : 0 < t_nR t < 2 ^ 29) (S1 : right_size ft (t_nR t) X1 F1) (Hsz : get_fld_sz t2 = Ok sz).
Context (Hm1 : can_make ev s d (sz * t_nR t)).
Let file := mkstemp ev (set_cwd d s) d.
Let s1 := with_file (d, file) (repeat 0 (Z.to_nat (sz * t_nR t))) s.
Context (Hm2 : can_make ev s1 d (t_nR t)).

Lemma vec_f1opf2_files_wp op spec Zs (Q : Z * string * option (Z * string * (string * string)) * FLD_TYPE -> state -> Prop) E :
  dst_type ft op spec unset = Ok t2 -> Forall2 (usem ft op t2) (cells (read_column ft X1)) Zs ->
  (forall R, cells R = Zs -> cells_of t2 R ->
     Q (-1, file, made_flags ev s d t sz (is_some_data F1), t2)
       (stored_files ev s d t t2 sz (is_some_data F1) R (read_flags <$> F1))) ->
  wp (vec_f1opf2_files ev log exp unset (t_nR t) ft X1 F1 op spec) Q E (home s).
Proof.
  intros Hty HZ HQ. pose proof (get_fld_sz_bounds _ _ Hsz) as Hb.
  destruct (unary_on_files log exp ft op t2 sz (t_nR t) X1 F1 (read_flags <$> F1) Zs)
    as (bs & nT & st & Hp & HB1 & HB2 & HR & Hc & Hrun & Hnn); [done..|].
  unfold vec_f1opf2_files. wp_step. eapply wp_lift_Ok; [exact Hp|]. cbn beta iota.
  wp_step. eapply wp_lift_Ok; [exact Hty|].
  wp_step. apply (wp_lift_Ok _ (t_nR t * sz, t_nR t, t_nR t)).
  { unfold file_sizes. rewrite !(bool_decide_eq_false_2 (_ = B)), !andb_false_r, Hsz by done. done. }
  cbn beta iota. wp_step. apply wp_stuck_if; [unfold LLONG_MAX, LLONG_MIN; nia|].
  rewrite !wrapU_small by (unfold inU; nia). rewrite (bool_decide_eq_false_2 (t2 = B)), andb_true_r by done.
  rewrite (Z.mul_comm (t_nR t) sz) in *.
  wp_step. apply (new_result_wp ev s d t t2 sz Hok Hsz HnR Hm1). cbn beta iota.
  wp_step. apply (new_flags_wp ev s d t sz Hok HnR Hm2).
  wp_step. apply (copy_flags_wp ev s d t sz F1); [lia|by apply S1|].
  wp_step. eapply wp_lift_Ok; [exact Hrun|]. rewrite Hnn.
  assert (bit_bytes t2 (o_X st) = column_bytes t2 (o_X st)) as -> by (by destruct t2, (o_X st)).
  apply (write_files_wp ev s d t t2 sz (is_some_data F1) (o_X st) (read_flags <$> F1)). wp_step. by apply HQ.
Qed.
End files.

(** The new record is written; the flags go to the operand. *)
Lemma store_moved_wp ev s d tid tn t i1 n1 f1 n2 t2 sz X F :
  let nR := t_nR t in
  let file := mkstemp ev (set_cwd d s) d in
  wf s -> docroot_ok s d -> has_tbl s tid tn t -> has_fld s tid i1 n1 f1 -> nn_own s tid n1 n2 f1 -> new_name s tid n2 ->
  get_fld_sz t2 = Ok sz -> 0 < nR < 2 ^ 29 -> can_make ev s d (sz * nR) ->
  can_make ev (with_file (d, file) (repeat 0 (Z.to_nat (sz * nR))) s) d nR ->
  zlen (cells X) = nR -> zlen F = nR ->
  wp (add_fld (usec ev) tid (Some n2) (-1) file t2 (-1);; add_flags ev tid i1 (made_flags ev s d t sz true))
    (fun _ => nulls_moved s d tn n1 n2 t2 X F) (not_stored s tn n2 t2) (stored_files ev s d t t2 sz true X (Some F)).
Proof.
  intros nR file Hwf Hok Ht Hf1 [H0 Hl1 Hres Hclash] Hn Hsz HnR Hm1 Hm2 HX HF.
  destruct (stored_files_fs ev s d t t2 sz Hm1 Hm2 true X (Some F) ltac:(done)) as (B1 & B2 & B3). specialize (B2 eq_refl).
  destruct (stored_files_cat ev s d t t2 sz X (Some F) ltac:(intros a [= <-]; exact HF) true) as [G EG].
  pose proof (result_fits ev s d t t2 sz Hsz HnR Hm1 Hm2 X (Some F) HX true ltac:(done)) as Hfits.
  set (S := stored_files ev s d t t2 sz true X (Some F)) in *.
  assert (wf S) as HwfS by (rewrite EG; auto with home). assert (docroot_ok S d) as HokS by (rewrite EG; auto with home).
  assert (has_tbl S tid tn t) as HtS by (by rewrite EG). assert (new_name S tid n2) as HnS by (rewrite EG; by apply new_name_set_fs; destruct Hn).
  assert (has_fld S tid i1 n1 f1) as HfS by (by rewrite EG). assert (abs S = abs s) as Habs by (by rewrite EG).
  wp_step. apply (add_new_fld_wp S d (usec ev) tid tn t n2 file t2); try done; [unfold nR in *; lia|apply Hm1| |].
  - intros i f0 Hi Hu. set (g := added_fld _ _ _ _ _ _). set (s2 := set_flds _ _).
    pose proof (new_record_wf S tid tn t n2 file t2 i f0 HwfS HtS HnS Hi Hu) as Hwf2.
    pose proof (new_record_abs S tid tn t n2 file t2 i f0 HwfS HtS HnS Hi Hu) as Ha2. fold g s2 in Hwf2, Ha2.
    assert (n1 <> n2) as Hne12.
    { intros <-. destruct HfS as (Hg & Htg & Hng & _). by destruct (nw_free _ _ _ HnS i1 f1 Hg Htg). }
    assert (g_flds s2 !z i1 = Some f1) as Hi1.
    { apply (stored_used (home S) i f0 g Hi Hu); destruct HfS as (Hg & _ & Hng & Hne & _); [exact Hg|unfold used; congruence]. }
    assert (has_fld s2 tid i1 n1 f1) as Hf2 by (destruct HfS as (_ & ? & ? & ? & ?); by split_and!).
    eapply wp_mono; [apply (add_flags_to_wp ev s2 d tid tn t i1 n1 f1 _ _ (flag_bytes F)); try done|..].
    + by destruct HokS.
    + intros j h Hh Hth Hnh. assert (g_flds s2 !z j = if decide (j = i) then Some g else g_flds S !z j) as Ej
        by apply (stored_lookup (home S) i f0 g Hi j).
      rewrite Ej in Hh. case_decide; [injection Hh as <-; by destruct Hres|]. rewrite EG in Hh. by apply (Hclash j h).
    + apply Hm2.
    + apply Hm2.
    + rewrite flag_bytes_length. exact HF.
    + intros _ s' (Hw & Hfs & Hc). split; [done|]. eexists file, _. split_and!.
      * rewrite <- Habs. etrans; [exact Hc|]. assert (c_fld (abs s2) tn n1 = c_fld (abs S) tn n1) as ->.
        { destruct Ha2 as [_ Ha2]. rewrite Ha2. cbn [a_set_fld c_fld]. rewrite decide_False; [done|]. by intros [_ ?]. }
        by apply a_set_congr.
      * rewrite Hfs, (cm_slash _ _ _ _ Hm1). exact B1.
      * rewrite Hfs. exact B2.
      * rewrite (cm_slash _ _ _ _ Hm1). apply Hm1.
      * by rewrite Hfs.
    + intros s' (Hfo & Hfs & Hfull). split_and!; [by eapply files_only_wf|by rewrite Hfs| |].
      * rewrite (fo_flds _ _ Hfo). exact Hfull.
      * right. exists file. rewrite (files_only_abs _ _ Hfo), <- Habs. exact Ha2.
  - intros Hfull. split_and!; [by apply wf_home|done|exact Hfull|]. left. change (abs (home S)) with (abs S). by rewrite Habs.
Qed.

(** Claim C4. [f1opf2] with one of the element-wise operators, in a docroot whose
    directories exist, with space and unused names for two files, on a field
    whose files have the size of the table, every row having a value by the
    reference semantics, and a name that is free: the table gains the field of
    the type computed for the result, whose file holds these values.  Without
    nulls nothing else changes.  With nulls the copy of the flags does not
    become the nn field of the result, which has none, but that of the operand,
    in place of the one it had.  It fails only when no record is free. *)
Theorem f1opf2_correct ev log exp unset s d tid tn t n1 f1 X1 F1 spec op n2 ft t2 sz Zs :
  let nR := t_nR t in
  wf s -> docroot_ok s d -> has_tbl s tid tn t -> 0 < nR < 2 ^ 29 ->
  operand_of s d tid n1 f1 X1 F1 -> fldtype f1 = ft -> right_size ft nR X1 F1 ->
  extract_S (Some spec) "op=[" "]" BUFLEN = Ok (Some op) -> one_of op f1opf2_ops = true ->
  dst_type ft op spec unset = Ok t2 -> get_fld_sz t2 = Ok sz ->
  Forall2 (usem ft op t2) (cells (read_column ft X1)) Zs ->
  new_name s tid n2 -> (is_Some F1 -> nn_own s tid n1 n2 f1) -> can_make ev s d (sz * nR) ->
  can_make ev (with_file (d, mkstemp ev (set_cwd d s) d) (repeat 0 (Z.to_nat (sz * nR))) s) d nR ->
  wp (f1opf2 ev log exp unset (Some tn) (Some n1) (Some spec) (Some n2))
    (fun _ s' => exists R, cells R = Zs /\ cells_of t2 R /\
       match F1 with
       | None => computed s d tn n2 t2 R None s'
       | Some F => nulls_moved s d tn n1 n2 t2 R (read_flags F) s'
       end)
    (not_stored s tn n2 t2) s.
Proof.
  intros nR Hwf Hok Ht HnR O1 Hf1 S1 Hspec Hop Hty Hsz HZ Hn Hnn Hm1 Hm2. unfold f1opf2.
  pose proof Ht as (_ & _ & Htne). destruct (op_fld _ _ _ _ _ _ _ O1) as (i1 & _ & _ & _ & Hne1 & _).
  destruct (chk_fld_name_Ok n2 (nw_chk _ _ _ Hn)) as [Hne2 _].
  assert (spec <> ""%string) as Hsne by (intros ->; vm_compute in Hspec; discriminate).
  pose proof (zlookup_Some_range _ _ _ (proj1 Ht)).
  wp_step. wp_step; [by destruct tn|]. wp_step. wp_step; [by destruct n1|]. wp_step. wp_step; [by destruct n2|].
  wp_step. wp_step; [by destruct spec|]. wp_step. eapply wp_lift_Ok; [exact Hspec|]. wp_step. wp_step; [done|].
  wp_step. apply (is_tbl_found s tid tn t); [done..|]. wp_step. wp_step; [done|]. wp_step. apply (wp_rd_tbl _ t); [apply Ht|].
  wp_step. apply (fetch_wp s d tid tn t n1 f1 X1 F1); [done..|]. intros j1 Hj1. cbn beta iota.
  change (default ""%string (Some op)) with op. change (default ""%string (Some spec)) with spec. rewrite Hf1, Hop.
  unfold f1opf2_conv. wp_step. fold nR.
  apply (vec_f1opf2_files_wp ev log exp unset s d t ft t2 sz X1 F1 Hok HnR S1 Hsz Hm1 Hm2 op spec Zs); [done..|].
  intros R HR Hc. cbn beta iota. assert (zlen (cells R) = nR) as HlR.
  { rewrite HR. pose proof (Forall2_length _ _ _ HZ) as Hl. unfold zlen. rewrite <- Hl. by apply read_column_length, S1. }
  assert (has_len nR (read_flags <$> F1)) as Hlen by (apply read_flags_len, S1).
  eapply wp_mono with (Q := fun _ s' => match F1 with
       | None => computed s d tn n2 t2 R None s'
       | Some F => nulls_moved s d tn n1 n2 t2 R (read_flags F) s'
       end); [|intros ? s' Hs'; by exists R|done].
  destruct F1 as [F|].
  - apply (store_moved_wp ev s d tid tn t j1 n1 f1 n2 t2 sz R (read_flags F)); try done; [by apply Hnn|by apply Hlen].
  - by apply (store_result_wp ev s d tid tn t n2 t2 sz Hwf Hok Ht Hn Hsz HnR Hm1 Hm2 R None HlR Hlen false).
Qed.

Lemma f1opf2_correct_witness :
  wp (run_f1opf2 "x" "op=[++]" "z")
    (fun _ s' => exists R, cells R = [Int 2; Int 3; Int 4] /\ cells_of I4 R /\
       nulls_moved small_alt "/data" "t1" "x" "z" I4 R [1; 0; 1] s')
    (not_stored small_alt "t1" "z" I4) small_alt.
Proof.
  apply (f1opf2_correct (small_env (-1)) (fun x => x) (fun x => x) xunknown small_alt "/data" 0 "t1" (small_tbl "t1")
    "x" (small_fld 0 "x" "_x" (-1) 1 undef I4 INT_MIN) [1; 0; 0; 0; 2; 0; 0; 0; 3; 0; 0; 0] (Some [1; 0; 1])
    "op=[++]" "++" "z" I4 I4 4 [Int 2; Int 3; Int 4]);
    try reflexivity; try exact small_alt_wf; try exact small_alt_docroot; try exact small_t1; try exact small_alt_x;
    try (split; [reflexivity|intros a [= <-]; reflexivity]).
  - split; reflexivity.
  - change (Forall2 (usem I4 "++" I4) [Int 1; Int 2; Int 3] [Int (1 + 1); Int (2 + 1); Int (3 + 1)]).
    repeat (apply Forall2_cons; split); try (by apply Forall2_nil);
      (eapply usem_incr; [by left|reflexivity|vm_compute; split; (discriminate || reflexivity)]).
  - by apply small_alt_new_name.
  - intros _. split; [discriminate|vm_compute; discriminate|discriminate|].
    intros j g Hg Htg Hn. split; [vm_compute; discriminate|].
    apply (wf_fld_unique small_alt small_alt_wf j 1 g (small_fld 0 "_nn_x" "_nnx" 0 (-1) nn I1 INT_MIN)); try done.
    unfold used. by rewrite Hn.
  - by apply small_can_make.
  - by apply small_can_make.
Defined.
